(* ===== verification/_CoqProject ===== *)
-Q . S2P
Prelude.v
Vectors.v
JitTypes.v
JitDecode.v
JitMemory.v
JitEa.v
JitMemoryFacts.v
JitDecodeFacts.v
JitRefineFacts.v
Via6522.v
Via6522Facts.v
Rtc.v
RtcFacts.v
Gcr.v
GcrFacts.v
Dart.v
DartTreeFacts.v
DartFacts.v
DartCodec.v
SaveState.v
SaveFacts.v
SaveMachine.v
SaveMachineFacts.v
SaveProps.v
AdbBus.v
AdbFacts.v
SaveDevices.v
SaveDevicesFacts.v
FloppyImage.v
FloppyFacts.v
FloppyProps.v
Ncr5380.v
Ncr5380Facts.v
ScsiTargets.v
ScsiTargetsFacts.v
RogueState.v
RogueMap.v
RogueMsg.v
Vdp.v
RogueDraw.v
RogueGfx.v
VdpPixels.v
RoguePools.v
RogueUi.v
RogueGen.v
RogueFov.v
RogueMon.v
RogueItem.v
RogueMain.v
RogueFrame.v
RogueInv.v
RoguePaint.v
RogueMapFacts.v
RogueFindFacts.v
RogueXpFacts.v
RogueSafe.v
RogueBagSafe.v
RogueTurnSafe.v
VdpFacts.v
JitGuard.v
JitShiftVersions.v
JitDispatchCache.v
JitEngineState.v
JitBlockCache.v
JitGuest.v
JitTurn.v
JitGuardFacts.v
JitIndexFacts.v
JitCoherence.v
JitLinkFacts.v
JitDispatchFacts.v
JitEraseFacts.v
JitFlushFacts.v
JitGuestFacts.v
JitTraceFacts.v
JitTurnFacts.v
JitRunFacts.v
JitEntryFacts.v
JitReach.v
JitCacheProps.v
