(* ===== verification/Prelude.v ===== *)
(** * A verification library for POM68K

    POM68K is a Macintosh emulator. This library verifies the parts of it that
    carry logic of their own and can be modelled from the source:

    - the backend-neutral representation of the dynamic translator
      ([src/src/jit/JitIr.h], and the places of [src/src/jit/JitEngine.cpp]
      that build it);
    - the translator's engine: its cache of translated code and the loop that
      dispatches it ([src/src/jit/JitEngine.cpp], [JitBlockCache.cpp],
      [JitGuard.h], [JitDispatchCache.h], [JitShiftVersions.cpp]);
    - two chips of the machines, the interface adapter
      ([src/src/Via6522.h], [src/src/Via6522.cpp]) and the clock and parameter
      memory ([src/src/Rtc.h], [src/src/Rtc.cpp]), and the group code of the
      floppy drive (part of [src/src/SonyDrive.cpp]);
    - the host files a floppy comes from: the DART and Disk Copy 4.2
      containers, the DART decompressor, MOOF flux images, and how the drive
      inserts a disk and flushes it ([src/src/DartLzh.h], [DartImage.h],
      [Dc42Image.h], [MoofImage.h], [FloppyFileImage.h], part of
      [SonyDriveMedia.cpp]);
    - saved states: the archives and their container, the saving and loading
      of a machine with its rollback, what the devices put into a file
      ([src/src/SaveState.h], [SaveState.cpp], [SaveStateMachines.cpp], part of
      [LleSession.h], [FloppyTrackMedium.h]), and the desktop bus with its
      keyboard and mouse ([src/src/AdbBus.h], [AdbBus.cpp]);
    - the SCSI bus of the older machines: its controller ([src/src/Ncr5380.h],
      [Ncr5380.cpp]), the interface of a device ([ScsiTarget.h]), the mailbox
      of the guest's agent ([ScsiAgentMailbox.h], [ScsiAgentTarget.h]) and the
      Ethernet card ([DaynaPort.h], [DaynaPort.cpp]);
    - Rogue, the guest game shipped with the emulator
      ([src/dev/mac-rogue/], [rogue_*.c], [vdp.c] and the game loop of
      [mac_shell.c]).

    ** The translator's representation

    The tracer runs a guest instruction on the interpreter, classifies its
    opcode ([classify]: does straight-line code go on?), describes it
    ([describeInstruction], [describeMemory]) and, when the block is finished,
    reads its extension words to decode effective addresses, refine the memory
    contract and plan control flow. A backend then asks for a proof plan of
    the contract and consumes its accesses one token at a time.

    - [JitTypes]: the enumerations and structures, with their constructors,
      default values and sentinels ([0xFF]) as in the source. A setter is
      derived for each field.
    - [JitDecode]: [describeInstruction] (one definition per opcode line),
      the addressing-mode masks, [classify], [branchWords], [instrFlags].
    - [JitMemory]: [describeMemory] (one definition per arm),
      [memoryProofPlan], [memoryAccessPlan], the emitter cursor
      [InstructionMemoryPlan] and the token-shape tests.
    - [JitEa]: [decodeEffectiveAddress], [describeEffectiveAddresses],
      [refineMemoryFromExtensions], [describeControlFlow], and the tracer's
      [traceInstr] and [materialise].
    - [JitMemoryFacts]: contracts are well formed, plans are safe, tokens are
      unambiguous, a complete cursor has granted every access exactly once.
    - [JitDecodeFacts]: the classifier against a table of the encodings that
      end a block and against the decoder, branch round trip, the
      effective-address decoder against the 68020 encoding.
    - [JitRefineFacts]: refinement keeps contracts well formed; bitfields; the
      two places where the source contradicts itself.

    An early [return] inside a C++ arm is a [Some]; an arm that falls through
    is a [None] ([orelse]). Opcode-wide claims are swept over all 65536 words
    by [vm_compute] where the statement quantifies over opcodes only, and
    proved by case analysis where other arguments occur.

    ** The engine and its code cache

    Guest code is translated block by block, and the same memory may be
    rewritten, remapped or reached through a data TLB at any time. The engine
    keeps five views of what is resident in step: the block map that owns the
    code, the index of physical slices and its two page maps, the dispatch
    cache of raw block pointers, the masks of versioned shift sites, and the
    links and edge cells through which generated code jumps without coming
    back. A store into a marked sub-slice reaches [CodeGuard]; the next
    [serviceGuard] evicts.

    - [JitGuard], [JitShiftVersions], [JitDispatchCache]: the three helper
      classes, whole.
    - [JitEngineState]: the engine's fields and the CPU's it acts on as one
      Record ([Engine]), and the link table. Guest memory is a function from
      physical addresses to bytes and a host pointer is such an address; a
      block pointer is the key and the allocation number of a map node, so
      that reading through a stale one ([deref]) is visible.
    - [JitBlockCache]: [JitBlockCache.cpp] and [flushAll].
    - [JitGuest]: the doors of guest code and devices ([GuestEv]): stores
      through the memory map ([Q605Memory::write8], [write16], their RAM
      half), through the data TLB and the page in front of it, fills, ATC
      evictions, map moves, flushes.
    - [JitTurn]: [armWindow], [record], [dispatchBlockKey] and one [turn] of
      [executeUntil]. What the CPU core and the backend answer (the idle flag,
      the program counter, translations, timings, the compiler's verdict, the
      events guest code causes) is an argument ([TurnAnswers]) over which the
      theorems quantify; the entry point of a piece of code, the alias mask of
      a memory map and what a backend can emit are parameters without
      hypotheses. The only hypothesis is that RAM ends below
      [2^32 - 4096], so that its page counts do not wrap.
    - [JitGuardFacts], [JitIndexFacts], [JitLinkFacts],
      [JitDispatchFacts]: each view on its own. [JitCoherence]: the invariant,
      one record per view. [JitEraseFacts], [JitFlushFacts], [JitGuestFacts],
      [JitTraceFacts], [JitTurnFacts], [JitRunFacts], [JitEntryFacts]: every
      operation keeps it. [JitReach]: the life of an engine as a step
      relation ([reachable]).
    - [JitCacheProps]: the theorems, over every reachable state: code is
      entered only when live and current, stores evict, inline stores spare
      code, links lead to live code and are current wherever they are
      followed, marks round-trip, evictions are exact; the two bad reads of a
      turn (at address 0, and of a block flushed while its window runs) and the
      other corners where the source falls short.

    The words copied into a block are compared with memory where its footprint
    lies in RAM; ROM has no writer. [BlockIr::code] is what is proved current:
    the traced opcode beside it can be older ([trace_keeps_overwritten_opcode]).
    Gauges, diagnostic reports and the windowKill instrument decide nothing
    and are left out. The tracing loop's fuel is [maxInstrs_], as in the code.

    ** The chips and the drive

    A class is a Record with the fields of the class under their own names; a
    method is a function of the record. Host-side printing is left out; what a
    chip saves is in [SaveDevices].

    - [Via6522]: registers, timers, shift register, pulse counting, the PMU
      interrupt level and the event deadline [cyclesToNextEvent].
      [Via6522Facts]: [tick] splits into three countdowns ([tick_cores]), so
      that time may be sliced, the deadline is exact and the latencies are
      N+1, N+3 and N+2 cycles; any sequence of operations ([Op]) keeps the
      chip well formed; the flag registers bit by bit.
    - [Rtc]: the bit-serial engine, both register protocols, the cold-start
      image, the battery file as a list of bytes. [RtcFacts]: the host's side
      of the wire is defined there ([clockBit], [sendByte], [recvByte]); both
      protocols are memories, the lock holds against every line sequence, and
      the engine's counters stay in range.
    - [Gcr]: [encodeTrackGcr], [decodeGcrBytes] and the sector accesses they
      make. [GcrFacts]: the decoder follows the encoder's running sums group
      by group, no data nibble is a mark, and the scan of an encoded track
      restores it on another disk. The scan's fuel is the number of nibbles,
      which is enough since every step drops at least one.
    - [AdbBus]: host events on one side, commands of the guest on the other;
      the sum of two [int]s that does not fit is [None]. [AdbFacts]: runs of
      any interleaving; keys in order and exactly once, motion conserved, the
      bus goes quiet after five polls, whose answers add up to the motion that
      was pending; the key whose release is lost.

    ** The host files of a floppy

    A file is read into a vector, recognised by its name and contents, unpacked
    into sectors and tags or, from a MOOF file, into tracks of flux transitions,
    and the drive keeps its provenance; a changed disk is written back in the
    same form. Vectors are lists of bytes, every access
    is checked ([None] is undefined behaviour), refusals are values, [size_t]
    wraps at 64 bits. The output stream is the class [OStream]; its law
    [put_good] says that a stream still good after a write holds the write.

    - [Dart]: the adaptive Huffman decoder with its window. [DartTreeFacts]:
      the three arrays are a sibling-ordered tree and an update keeps it so.
      [DartFacts]: every loop ends within its fuel and no access leaves an
      array; the weights stay below 0x8000. The fuel of a walk or an update is
      627, the number of nodes; that of a chunk is one more than its bytes,
      since each symbol produces at least one.
    - [DartCodec]: a reference for the compressed format (literals and matches,
      the bits of a symbol's path, the canonical distance code) and the proof
      that the decoder inverts it.
    - [FloppyImage]: the three containers, the provenance, insertion and flush.
      [FloppyFacts]: each container on its own, read and written; the tracks of
      a MOOF file are in order and inside their revolution. The fuel of a walk
      over its chunks is the length of the file, since a chunk takes eight
      bytes.
      [FloppyProps]: any file can be inserted safely, and a disk of sectors
      changed, flushed and inserted again is the changed disk; the raw disk
      that is mistaken for a Disk Copy file; a reference for the fast form of a
      DART chunk, which the decoder inverts.

    The host's file operations, the routing of reference fixtures and the
    re-encoding of the track under the head are not modelled. That a MOOF file
    written back reads as the same tracks is evaluated on one medium
    ([moof_trip]) and not proved in general.

    ** Saved states

    A machine is written as a header and two chunks, each a flat sequence of
    the fields its classes name in [visit]; a load checks the header before it
    changes anything, keeps a copy of the state and puts it back if a chunk
    turns out to be damaged. A reader checks every access and carries a failure
    flag; [None] is undefined behaviour, and the theorems show that there is
    none. [Vectors] has the operations on byte vectors that this part and the
    floppy containers share.

    - [SaveState]: the reader, integers, varints, sequences, strings, classes
      as lists of fields ([Codec], [Field]), the zero-run form of bulk buffers,
      chunks, the fingerprint. A varint takes ten turns, a buffer as many as it
      has bytes, since every turn fills at least one.
    - [SaveFacts]: the interface [Lawful] of an encoding (what it
      wrote is read back, any bytes are read safely, a longer input reads the
      same) and its instances, containers and classes from their parts.
    - [SaveMachine]: the session's registry, the header, [saveT] and [loadT]
      over the class [Machine]. The scan's fuel is the length of the file,
      since a chunk takes eight bytes. [SaveMachineFacts]: the
      container, the checks, the rollback, for a [LawfulMachine].
      [SaveProps]: a saved machine is restored into one that agrees with it on
      what no visit covers, a load is atomic in every session but one that
      refuses its own rollback, a truncated file is refused.
    - [SaveDevices]: the [visit] of the VIA, the clock chip, the desktop bus,
      and the retained tracks of a floppy with their check.
      [SaveDevicesFacts]: these encodings are lawful, so the devices resume
      where they stood; tracks from any file are well formed; what the VIA
      leaves out and what the clock chip does not check.

    The memory maps and CPUs that make up a real machine are a parameter, the
    class [Machine] with the laws of [LawfulMachine]; [SaveProps] has a small
    instance. Floating-point members and the wording of refusals are left out.

    ** The SCSI bus

    The controller moves bytes between the guest and the device it has
    selected, one handshake or one pseudo-DMA access at a time; the device
    tells how many bytes a command takes, runs it and answers. Devices are
    behind an interface, the class [ScsiTarget], and the controller is modelled
    and proved against it; devices live in a list and a pointer is a position
    in it, so that one device may be attached twice.

    - [Ncr5380]: the mailbox, the register file, the phases, selection, both
      ways of moving a byte. [None] is what the controller must never do.
      [Ncr5380Facts]: no sequence of accesses leads there; an initiator defined
      in the guest's terms ([serve], over register reads and writes) carries a
      command through to its end, whose fuel is found in the proof (a turn per
      byte, and one more where a pseudo-DMA access left a gap in REQ).
    - [ScsiTargets]: the Ethernet card and the agent's endpoint, as instances of
      the class, and a bus with both. Frames the card sends are an ordered log.
      [ScsiTargetsFacts]: the check sequence against bit-serial division, its
      remainder and what it detects; the ring over every run; the way of a
      frame through the controller and back; the card and the controller across
      a save and a load.

    ** Rogue

    The game is a set of C files over global variables. Its state is one
    Record, [Game]; a function is a computation of the monad [M] over it, whose
    outcomes are a value ([Ok]), the [longjmp] to the cold start ([Cold]), the
    end of the scripted input ([Starved]) and an out-of-range array access or
    exhausted loop bound ([Fault]). An array read or write is checked, so that
    the safety theorems speak about C undefined behaviour. [unsigned char] arithmetic is
    written with its wrap-around ([u8]). Input is the list of keys the player
    will press; sound and screen presentation are recorded as events.

    - [RogueState]: state, monad, weakest precondition [wp], shell boundary
      ([ShellWaitKey], [ShellPresent], [ColdStart], ...).
    - [RogueMap], [RogueMsg], [RogueGen], [RogueFov], [RogueMon], [RogueItem],
      [RogueDraw], [RogueUi], [RogueMain]: the C file of the same name;
      [RoguePools] holds the pool look-ups several of them share, [RogueGfx]
      the artwork of [rogue_gfx.c].
    - [Vdp]: the tables [vdp.c] keeps and the operations that write them.
      [VdpPixels]: the compositor of [vdp.c], a function from the tables to the
      frame buffer, and the 1-bit packing.
    - [RogueInv]: the invariant ([shape]: array sizes and value ranges that
      survive from one game to the next; [hero]: the player's counters; [wf]:
      both, with the player on the floor). [RogueFrame]: what an operation
      leaves alone and how many keys it consumes. [RoguePaint]: drawing keeps
      every invariant the drawing class [Paints] covers.
    - [RogueMapFacts], [RogueFindFacts], [RogueXpFacts]: functional results on the generator
      of random numbers, the message ring, the field of view, the placement
      search, carving and the experience counters.
    - [VdpFacts]: a compositor pass is summarised by the pixels it stores
      ([draws]); the frame is compared with a per-pixel definition
      ([framePixel]), and the 1-bit packing with it.
    - [RogueSafe], [RogueBagSafe], [RogueTurnSafe]: every operation keeps the
      invariant, up to the whole game and the application's main loop.

    Loops over an array are [each] over the list of indices. Loops that are
    not structural take fuel: [RandMod]'s subtraction 255 steps (a byte can be
    reduced at most 255 times), [FindEmptyCell]'s sweep 160 (one per cell),
    the shadow casting one step per column and row of the radius,
    [MainLoop] one step more than the keys left (each turn consumes a key).
    Running out is a [Fault], and the safety theorems show that it does not
    happen.

    ** Not modelled

    The JIT backends and their host encoders (but for the test before an inline
    store), the Moira CPU cores and the
    generated reference core (third-party); of the drive, its motor, sense
    lines, flux and MFM sides; the other emulated chips (SCC, the disks of
    the SCSI bus and its other controller, IWM and SWIM, the ADB controllers in
    front of the bus, ASC, video) and the memory
    maps that connect them; the AppleTalk
    servers, the user interface, and the Sound Manager driver of the game. *)

From Stdlib Require Import ZArith Lia Bool.
From stdpp Require Import base list numbers option decidable.

Open Scope Z_scope.

(** ** Machine integers

    A C++ unsigned of width [w] is a [Z] in [0 .. 2^w - 1]; a conversion to
    that type is the explicit wrap-around below. *)

Definition u8 (x : Z) : Z := x mod 256.
Definition u16 (x : Z) : Z := x mod 65536.
Definition u32 (x : Z) : Z := x mod 4294967296.

(** Conversions to a signed type: two's complement at the given width. *)
Definition s8 (x : Z) : Z :=
  let y := u8 x in if y <? 128 then y else y - 256.
Definition s16 (x : Z) : Z :=
  let y := u16 x in if y <? 32768 then y else y - 65536.
Definition s32 (x : Z) : Z :=
  let y := u32 x in if y <? 2147483648 then y else y - 4294967296.

Declare Scope c_scope.
Delimit Scope c_scope with c.

(** The C operators, spelled with a leading dot. *)
Notation "a .& b" := (Z.land a b) (at level 40, left associativity) : c_scope.
Notation "a .| b" := (Z.lor a b) (at level 41, left associativity) : c_scope.
Notation "a .^ b" := (Z.lxor a b) (at level 41, left associativity) : c_scope.
Notation "a .>> n" := (Z.shiftr a n) (at level 39, left associativity) : c_scope.
Notation "a .<< n" := (Z.shiftl a n) (at level 39, left associativity) : c_scope.

(** [==] on an enumeration: the boolean of its decidable equality. *)
Notation "a == b" := (bool_decide (a = b)) (at level 70) : c_scope.
Notation "a != b" := (negb (bool_decide (a = b))) (at level 70) : c_scope.
Notation "a <>? b" := (negb (a =? b)) (at level 70) : c_scope.

Open Scope c_scope.

(** A C statement that may return early: [None] falls through to the rest. *)
Notation "a 'orelse' b" :=
  (match a with Some r => r | None => b end)
    (at level 60, right associativity) : c_scope.

(** ** Record update

    [Eta R] names the eta-expansion of a record type; [set_field f] derives
    the setter of the projection [f] from it. *)

Class Eta (R : Type) := eta : R -> R.

Ltac set_field f :=
  lazymatch type of f with
  | ?R -> ?T =>
      let v := fresh "v" in
      let r := fresh "r" in
      refine (fun (v : T) (r : R) => _);
      let e := constr:(_ : Eta R) in
      let h := eval hnf in e in
      let b := eval cbv beta in (h r) in
      let p := eval pattern (f r) in b in
      lazymatch p with
      | ?g (f r) => let t := eval cbv beta in (g v) in exact t
      end
  end.

(** ** Automation *)

Create HintDb pom discriminated.

(** Case analysis on every boolean test the goal or a hypothesis branches on. *)
Ltac split_tests :=
  repeat match goal with
  | |- context [if ?b then _ else _] =>
      lazymatch b with context [if _ then _ else _] => fail | _ => destruct b eqn:? end
  end.

(** Turn boolean equations into propositions. *)
Ltac unbool :=
  repeat match goal with
  | H : negb _ = true |- _ => apply negb_true_iff in H
  | H : negb _ = false |- _ => apply negb_false_iff in H
  | H : (_ && _) = true |- _ => apply andb_true_iff in H; destruct H
  | H : (_ || _) = false |- _ => apply orb_false_iff in H; destruct H
  | H : (_ =? _) = true |- _ => apply Z.eqb_eq in H
  | H : (_ =? _) = false |- _ => apply Z.eqb_neq in H
  | H : (_ <? _) = true |- _ => apply Z.ltb_lt in H
  | H : (_ <? _) = false |- _ => apply Z.ltb_ge in H
  | H : (_ <=? _) = true |- _ => apply Z.leb_le in H
  | H : (_ <=? _) = false |- _ => apply Z.leb_gt in H
  | H : bool_decide _ = true |- _ => apply bool_decide_eq_true in H
  | H : bool_decide _ = false |- _ => apply bool_decide_eq_false in H
  end.

(** ** Bounds of the conversions *)

Lemma u8_range x : 0 <= u8 x < 256.
Proof. apply Z.mod_pos_bound; lia. Qed.

Lemma u16_range x : 0 <= u16 x < 65536.
Proof. apply Z.mod_pos_bound; lia. Qed.

Lemma u32_range x : 0 <= u32 x < 4294967296.
Proof. apply Z.mod_pos_bound; lia. Qed.

Lemma u8_small x : 0 <= x < 256 -> u8 x = x.
Proof. apply Z.mod_small. Qed.

Lemma u16_small x : 0 <= x < 65536 -> u16 x = x.
Proof. apply Z.mod_small. Qed.

Lemma u32_small x : 0 <= x < 4294967296 -> u32 x = x.
Proof. apply Z.mod_small. Qed.

Lemma s8_range x : -128 <= s8 x < 128.
Proof. unfold s8. pose proof (u8_range x). destruct (Z.ltb_spec (u8 x) 128); lia. Qed.

Lemma s16_range x : -32768 <= s16 x < 32768.
Proof. unfold s16. pose proof (u16_range x). destruct (Z.ltb_spec (u16 x) 32768); lia. Qed.

Lemma s32_range x : -2147483648 <= s32 x < 2147483648.
Proof.
  unfold s32. pose proof (u32_range x).
  destruct (Z.ltb_spec (u32 x) 2147483648); lia.
Qed.

Lemma s16_small x : 0 <= x < 32768 -> s16 x = x.
Proof.
  intros H. unfold s16. rewrite u16_small by lia.
  by rewrite (proj2 (Z.ltb_lt _ _)) by lia.
Qed.

(** A signed reinterpretation only changes the value by a multiple of the
    modulus, so it disappears inside an unsigned wrap-around. *)
Lemma u32_s32 x : u32 (s32 x) = u32 x.
Proof.
  unfold s32. destruct (_ <? _); unfold u32.
  - apply Z.mod_mod; lia.
  - rewrite <- (Z_mod_plus_full _ 1). rewrite Z.mul_1_l, Z.sub_add.
    apply Z.mod_mod; lia.
Qed.

Lemma u32_add_l x y : u32 (u32 x + y) = u32 (x + y).
Proof. unfold u32. rewrite Zplus_mod_idemp_l. reflexivity. Qed.

Lemma u32_add_r x y : u32 (x + u32 y) = u32 (x + y).
Proof. unfold u32. rewrite Zplus_mod_idemp_r. reflexivity. Qed.

Lemma u32_u32 x : u32 (u32 x) = u32 x.
Proof. apply Z.mod_mod. lia. Qed.

Create Rewrite HintDb word32.
#[export] Hint Rewrite u32_s32 u32_u32 u32_add_l u32_add_r : word32.

(** Masking with [2^n - 1] is the remainder. *)
Lemma land_mask_mod x n : 0 <= n -> x .& (2 ^ n - 1) = x mod 2 ^ n.
Proof.
  intros Hn. replace (2 ^ n - 1) with (Z.ones n).
  - apply Z.land_ones; lia.
  - rewrite Z.ones_equiv. lia.
Qed.

Lemma land_7_range x : 0 <= x .& 7 < 8.
Proof. change 7 with (2 ^ 3 - 1). rewrite land_mask_mod by lia. apply Z.mod_pos_bound; lia. Qed.

Lemma land_3_range x : 0 <= x .& 3 < 4.
Proof. change 3 with (2 ^ 2 - 1). rewrite land_mask_mod by lia. apply Z.mod_pos_bound; lia. Qed.

Lemma land_15_range x : 0 <= x .& 15 < 16.
Proof. change 15 with (2 ^ 4 - 1). rewrite land_mask_mod by lia. apply Z.mod_pos_bound; lia. Qed.

Lemma land_1_mod x : x .& 1 = x mod 2.
Proof. change 1 with (2 ^ 1 - 1) at 1. by rewrite land_mask_mod by lia. Qed.

#[export] Hint Resolve u8_range u16_range u32_range land_7_range land_3_range
  land_15_range : pom.

(** A value shifted left by [n] shares no bit with one below [2^n]: joining
    them by [|] or [^] is adding them. *)
Lemma shiftl_land_low x b n : 0 <= n -> 0 <= b < 2 ^ n -> (x .<< n) .& b = 0.
Proof.
  intros Hn Hb. apply Z.bits_inj'. intros i Hi. rewrite Z.land_spec, Z.bits_0.
  destruct (Z.lt_ge_cases i n).
  - by rewrite Z.shiftl_spec_low by lia.
  - rewrite <- (Z.mod_small b (2 ^ n)) by lia.
    rewrite Z.mod_pow2_bits_high by lia. apply andb_false_r.
Qed.

Lemma shiftl_lxor_low x b n :
  0 <= n -> 0 <= b < 2 ^ n -> (x .<< n) .^ b = x * 2 ^ n + b.
Proof.
  intros Hn Hb. rewrite <- Z.add_nocarry_lxor by (by apply shiftl_land_low).
  by rewrite Z.shiftl_mul_pow2.
Qed.

Lemma shiftl_lor_low x b n :
  0 <= n -> 0 <= b < 2 ^ n -> (x .<< n) .| b = x * 2 ^ n + b.
Proof.
  intros Hn Hb. rewrite <- Z.lxor_lor by (by apply shiftl_land_low).
  by apply shiftl_lxor_low.
Qed.

(** Testing one bit through a mask. *)
Lemma land_pow2_zero a k :
  0 <= k -> (a .& 2 ^ k =? 0) = negb (Z.testbit a k).
Proof.
  intros Hk. destruct (Z.testbit a k) eqn:E; cbn [negb].
  - apply Z.eqb_neq. intros H.
    assert (Hb : Z.testbit (a .& 2 ^ k) k = true)
      by (rewrite Z.land_spec, E, Z.pow2_bits_true by lia; done).
    rewrite H, Z.bits_0 in Hb. done.
  - apply Z.eqb_eq. apply Z.bits_inj'. intros i Hi.
    rewrite Z.land_spec, Z.bits_0, Z.pow2_bits_eqb by lia.
    destruct (Z.eqb_spec k i) as [<-|]; [by rewrite E|apply andb_false_r].
Qed.

(** Two halves of a longword. *)
Lemma lor_halves hi lo :
  0 <= hi < 65536 -> 0 <= lo < 65536 -> u32 (hi .<< 16) .| lo = hi * 65536 + lo.
Proof.
  intros Hh Hl. rewrite u32_small.
  - by apply (shiftl_lor_low hi lo 16).
  - rewrite Z.shiftl_mul_pow2 by lia. change (2 ^ 16) with 65536. lia.
Qed.

Lemma s8_u8 d : -128 <= d < 128 -> s8 (u8 d) = d.
Proof.
  intros H. unfold s8, u8. rewrite Z.mod_mod by lia.
  destruct (Z.le_gt_cases 0 d).
  - rewrite Z.mod_small by lia. destruct (Z.ltb_spec d 128); lia.
  - replace (d mod 256) with (d + 256) by (apply (Z.mod_unique _ _ (-1)); lia).
    destruct (Z.ltb_spec (d + 256) 128); lia.
Qed.

Lemma s16_u16 d : -32768 <= d < 32768 -> s16 (u16 d) = d.
Proof.
  intros H. unfold s16, u16. rewrite Z.mod_mod by lia.
  destruct (Z.le_gt_cases 0 d).
  - rewrite Z.mod_small by lia. destruct (Z.ltb_spec d 32768); lia.
  - replace (d mod 65536) with (d + 65536) by (apply (Z.mod_unique _ _ (-1)); lia).
    destruct (Z.ltb_spec (d + 65536) 32768); lia.
Qed.

(** A [short] holds every value of its range. *)
Lemma s16_id d : -32768 <= d < 32768 -> s16 d = d.
Proof.
  intros H. rewrite <- (s16_u16 d H) at 2. unfold s16, u16. by rewrite !Z.mod_mod by lia.
Qed.

Lemma s32_u32 d : -2147483648 <= d < 2147483648 -> s32 (u32 d) = d.
Proof.
  intros H. unfold s32, u32. rewrite Z.mod_mod by lia.
  destruct (Z.le_gt_cases 0 d).
  - rewrite Z.mod_small by lia. destruct (Z.ltb_spec d 2147483648); lia.
  - replace (d mod 4294967296) with (d + 4294967296)
      by (apply (Z.mod_unique _ _ (-1)); lia).
    destruct (Z.ltb_spec (d + 4294967296) 2147483648); lia.
Qed.

(** A longword survives being stored as two words. *)
Lemma s32_halves d :
  -2147483648 <= d < 2147483648 ->
  s32 (u32 (u16 (d .>> 16) .<< 16) .| u16 d) = d.
Proof.
  intros Hd. rewrite lor_halves by apply u16_range.
  rewrite Z.shiftr_div_pow2 by lia. change (2 ^ 16) with 65536.
  rewrite <- (s32_u32 d) at 3 by lia.
  assert (E : u32 (u16 (d / 65536) * 65536 + u16 d) = u32 d).
  { unfold u16, u32. rewrite Z.add_comm, Z.mul_comm.
    rewrite <- Z.rem_mul_r by lia. apply Z.mod_mod. lia. }
  unfold s32. rewrite E, u32_u32. done.
Qed.

(** ** Bytes *)

(** [if (x & bits)]. *)
Definition has (x bits : Z) : bool := x .& bits <>? 0.

Definition byte (x : Z) : Prop := 0 <= x < 256.

Lemma lor_u8 x y : byte x -> byte y -> byte (x .| y).
Proof.
  unfold byte. intros Hx Hy. split; [apply Z.lor_nonneg; lia|].
  rewrite <- (Z.mod_small x (2 ^ 8)), <- (Z.mod_small y (2 ^ 8)) by lia.
  rewrite <- !Z.land_ones, <- Z.land_lor_distr_l, Z.land_ones by lia.
  apply (Z.mod_pos_bound _ (2 ^ 8)). lia.
Qed.

Lemma land_u8 x y : byte x -> byte (x .& y).
Proof.
  unfold byte. intros Hx. split; [apply Z.land_nonneg; lia|].
  rewrite <- (Z.mod_small x (2 ^ 8)), <- Z.land_ones by lia.
  rewrite (Z.land_comm x), <- Z.land_assoc, Z.land_comm, Z.land_ones by lia.
  apply (Z.mod_pos_bound _ (2 ^ 8)). lia.
Qed.

Lemma lxor_byte a b : byte a -> byte b -> byte (a .^ b).
Proof.
  unfold byte. intros Ha Hb. split; [apply Z.lxor_nonneg; lia|].
  destruct (Z.eq_dec (a .^ b) 0) as [->|Hn]; [lia|].
  change 256 with (2 ^ 8). apply Z.log2_lt_pow2.
  { assert (0 <= a .^ b) by (apply Z.lxor_nonneg; lia). lia. }
  assert (Hl : forall x, 0 <= x < 256 -> Z.log2 x < 8).
  { intros x Hx. destruct (Z.eq_dec x 0) as [->|]; [done|].
    apply Z.log2_lt_pow2; cbn; lia. }
  pose proof (Z.log2_lxor a b ltac:(lia) ltac:(lia)).
  pose proof (Hl a Ha). pose proof (Hl b Hb). lia.
Qed.

Lemma u8_bit x k : 0 <= k < 8 -> Z.testbit (u8 x) k = Z.testbit x k.
Proof. intros Hk. unfold u8. change 256 with (2 ^ 8). by rewrite Z.mod_pow2_bits_low by lia. Qed.

(** ** Arrays

    The element of a C array at an index, if the index is inside it, and the
    array after a store. *)

Definition rd {A} (l : list A) (i : Z) : option A :=
  if i <? 0 then None else l !! Z.to_nat i.
Definition wr {A} (l : list A) (i : Z) (a : A) : list A :=
  <[Z.to_nat i := a]> l.

Lemma rd_lt {A} (l : list A) i a : rd l i = Some a -> 0 <= i < Z.of_nat (length l).
Proof.
  unfold rd. destruct (Z.ltb_spec i 0); [done|]. intros H1.
  apply lookup_lt_Some in H1. lia.
Qed.

Lemma rd_Some {A} (l : list A) i :
  0 <= i < Z.of_nat (length l) -> is_Some (rd l i).
Proof.
  intros H. unfold rd. destruct (Z.ltb_spec i 0); [lia|].
  apply lookup_lt_is_Some. lia.
Qed.

Lemma rd_Forall {A} (P : A -> Prop) l i a : Forall P l -> rd l i = Some a -> P a.
Proof.
  unfold rd. destruct (i <? 0); [done|]. intros HF H.
  by eapply Forall_lookup_1.
Qed.

Lemma wr_length {A} (l : list A) i a : length (wr l i a) = length l.
Proof. apply length_insert. Qed.

Lemma wr_Forall {A} (P : A -> Prop) l i a : Forall P l -> P a -> Forall P (wr l i a).
Proof. apply Forall_insert. Qed.

Lemma rd_wr {A} (l : list A) i j a :
  0 <= j < Z.of_nat (length l) -> 0 <= i ->
  rd (wr l j a) i = if i =? j then Some a else rd l i.
Proof.
  intros Hj Hi. unfold rd, wr. destruct (Z.ltb_spec i 0); [lia|].
  destruct (Z.eqb_spec i j) as [->|Hn].
  - apply list_lookup_insert_eq. lia.
  - apply list_lookup_insert_ne. lia.
Qed.

(** ** Exhaustive checks over [0 .. 2^n - 1]

    A property of every opcode word is decided by evaluating its boolean on
    the whole range; [all_below_sound] turns the evaluation into a theorem. *)

Fixpoint all_from (n : nat) (base : Z) (p : Z -> bool) : bool :=
  match n with
  | O => p base
  | S n => all_from n (2 * base) p && all_from n (2 * base + 1) p
  end.

Definition all_below (n : nat) (p : Z -> bool) : bool := all_from n 0 p.

Lemma all_from_sound n : forall base p,
  all_from n base p = true ->
  forall x, base * 2 ^ Z.of_nat n <= x < (base + 1) * 2 ^ Z.of_nat n -> p x = true.
Proof.
  induction n as [|n IH]; intros base p H x Hx.
  - cbn in *. replace x with base by lia. exact H.
  - cbn [all_from] in H. apply andb_true_iff in H. destruct H as [H0 H1].
    rewrite Nat2Z.inj_succ, Z.pow_succ_r in Hx by lia.
    destruct (Z.lt_ge_cases x ((2 * base + 1) * 2 ^ Z.of_nat n)).
    + apply (IH _ _ H0). lia.
    + apply (IH _ _ H1). lia.
Qed.

Lemma all_below_sound n p x :
  all_below n p = true -> 0 <= x < 2 ^ Z.of_nat n -> p x = true.
Proof. intros H Hx. apply (all_from_sound n 0 p H). lia. Qed.
