(* ===== verification/Vectors.v ===== *)
(** * Vectors: C++ vectors and arrays as lists

    Lengths and offsets are integers; a copy, a range of iterators or a store
    outside its vector is [None].  Shared by the models of code that works on
    byte buffers. *)

From S2P Require Import Prelude.
From stdpp Require Import base list numbers option decidable.

Open Scope Z_scope.

Definition u64 (x : Z) : Z := x mod 18446744073709551616.
Definition len {A} (l : list A) : Z := Z.of_nat (length l).

(** A store into an array, undefined outside it. *)
Definition store {A} (l : list A) (i : Z) (a : A) : option (list A) :=
  if (0 <=? i) && (i <? len l) then Some (wr l i a) else None.

(** [n] bytes from [off], for a copy or an iterator range. *)
Definition slice {A} (l : list A) (off n : Z) : option (list A) :=
  if (0 <=? off) && (0 <=? n) && (off + n <=? len l)
  then Some (take (Z.to_nat n) (drop (Z.to_nat off) l)) else None.

(** [std::copy_n] into an array. *)
Definition copyTo {A} (dst : list A) (off : Z) (src : list A) : option (list A) :=
  if (0 <=? off) && (off + len src <=? len dst)
  then Some (take (Z.to_nat off) dst ++ src ++ drop (Z.to_nat (off + len src)) dst) else None.

(** One bind of the option monad, nothing else. *)
Ltac bnd := cbn [mbind option_bind].

Lemma len_wr {A} (l : list A) i v : len (wr l i v) = len l.
Proof. unfold len. by rewrite wr_length. Qed.

Lemma store_ok {A} (l : list A) i (v : A) : 0 <= i < len l -> store l i v = Some (wr l i v).
Proof.
  intros H. unfold store. rewrite (proj2 (Z.leb_le 0 i)), (proj2 (Z.ltb_lt i _)) by lia. done.
Qed.

(** ** Parts of vectors *)

Lemma len_nonneg {A} (l : list A) : 0 <= len l.
Proof. unfold len. lia. Qed.

Lemma len_app {A} (a b : list A) : len (a ++ b) = len a + len b.
Proof. unfold len. rewrite length_app. lia. Qed.

Lemma len_replicate {A} n (x : A) : 0 <= n -> len (replicate (Z.to_nat n) x) = n.
Proof. intros. unfold len. rewrite length_replicate. lia. Qed.

Lemma len_nil_inv {A} (l : list A) : len l = 0 -> l = [].
Proof. unfold len. destruct l; cbn; [done|lia]. Qed.

Lemma len_take {A} (l : list A) n : 0 <= n <= len l -> len (take (Z.to_nat n) l) = n.
Proof. unfold len. intros. rewrite length_take. lia. Qed.

Lemma len_drop {A} (l : list A) n : 0 <= n <= len l -> len (drop (Z.to_nat n) l) = len l - n.
Proof. unfold len. intros. rewrite length_drop. lia. Qed.

Lemma take_len {A} (l : list A) n : n = len l -> take (Z.to_nat n) l = l.
Proof. unfold len. intros ->. apply firstn_all2. lia. Qed.

Lemma take_len_app {A} (a b : list A) n : n = len a -> take (Z.to_nat n) (a ++ b) = a.
Proof. unfold len. intros ->. apply take_app_length'. lia. Qed.

Lemma drop_len_app {A} (a b : list A) n : n = len a -> drop (Z.to_nat n) (a ++ b) = b.
Proof. unfold len. intros ->. apply drop_app_length'. lia. Qed.

Lemma rd_app_l {A} (a b : list A) i : i < len a -> rd (a ++ b) i = rd a i.
Proof.
  unfold rd, len. intros H. destruct (Z.ltb_spec i 0); [done|]. apply lookup_app_l. lia.
Qed.

Lemma rd_app_r {A} (a b : list A) i : len a <= i -> rd (a ++ b) i = rd b (i - len a).
Proof.
  unfold rd, len. intros H. destruct (Z.ltb_spec i 0), (Z.ltb_spec (i - Z.of_nat (length a)) 0); try lia.
  rewrite lookup_app_r by lia. f_equal. lia.
Qed.

Lemma slice_ok {A} (P : A -> Prop) (l : list A) off n : 0 <= off -> 0 <= n -> off + n <= len l -> Forall P l ->
  exists s, slice l off n = Some s /\ len s = n /\ Forall P s.
Proof.
  intros Ho Hn Hl HP. unfold slice.
  rewrite (proj2 (Z.leb_le 0 off)), (proj2 (Z.leb_le 0 n)), (proj2 (Z.leb_le _ _) Hl) by done.
  eexists. split; [done|]. split; [|by apply Forall_take, Forall_drop].
  rewrite len_take; [done|]. rewrite len_drop; lia.
Qed.

Lemma slice_app {A} (a b c : list A) off n : off = len a -> n = len b ->
  slice (a ++ b ++ c) off n = Some b.
Proof.
  intros Ho Hn. unfold slice. pose proof (len_nonneg a). pose proof (len_nonneg b).
  pose proof (len_nonneg c). rewrite !len_app.
  rewrite !(proj2 (Z.leb_le _ _)) by lia. cbn. f_equal.
  by rewrite drop_len_app, take_len_app.
Qed.

Lemma slice_all {A} (l : list A) n : n = len l -> slice l 0 n = Some l.
Proof. intros H. rewrite <- (app_nil_r l) at 1. by apply (slice_app [] l []). Qed.

Lemma copyTo_ok {A} (P : A -> Prop) (dst src : list A) off :
  0 <= off -> off + len src <= len dst -> Forall P dst -> Forall P src ->
  exists d, copyTo dst off src = Some d /\ len d = len dst /\ Forall P d.
Proof.
  intros Ho Hl Hd Hs. unfold copyTo. rewrite !(proj2 (Z.leb_le _ _)) by lia.
  eexists. split; [done|]. pose proof (len_nonneg src). split.
  - rewrite !len_app, len_take, len_drop by lia. lia.
  - apply Forall_app; split; [by apply Forall_take|].
    apply Forall_app; split; [done|by apply Forall_drop].
Qed.

Lemma copyTo_app {A} (a b c src : list A) off : off = len a -> len src = len b ->
  copyTo (a ++ b ++ c) off src = Some (a ++ src ++ c).
Proof.
  intros Ho Hl. unfold copyTo. pose proof (len_nonneg a). pose proof (len_nonneg c).
  rewrite !len_app, !(proj2 (Z.leb_le _ _)) by lia. cbn. f_equal.
  rewrite take_len_app by done. do 2 f_equal.
  rewrite app_assoc, drop_len_app; [done|]. rewrite len_app. lia.
Qed.

Lemma copyTo_all {A} (dst src : list A) : len src = len dst -> copyTo dst 0 src = Some src.
Proof.
  intros H. rewrite <- (app_nil_r dst). rewrite (copyTo_app [] dst [] src) by done.
  by rewrite app_nil_l, app_nil_r.
Qed.

Lemma store_Forall (P : Z -> Prop) l i v : 0 <= i < len l -> Forall P l -> P v ->
  exists l', store l i v = Some l' /\ len l' = len l /\ Forall P l'.
Proof.
  intros Hi HP Hv. rewrite store_ok by done. eexists. split; [done|]. split; [apply len_wr|].
  by apply wr_Forall.
Qed.

(** The part itself. *)
Definition sl {A} (l : list A) (off n : Z) : list A := take (Z.to_nat n) (drop (Z.to_nat off) l).

Lemma slice_sl {A} (l : list A) off n : 0 <= off -> 0 <= n -> off + n <= len l ->
  slice l off n = Some (sl l off n) /\ len (sl l off n) = n.
Proof.
  intros Ho Hn Hl. unfold slice, sl. rewrite !(proj2 (Z.leb_le _ _)) by lia. split; [done|].
  rewrite len_take; [done|]. rewrite len_drop; lia.
Qed.

Lemma sl_next {A} (l : list A) off n : 0 <= off -> 0 <= n -> off + n <= len l ->
  sl l off n ++ drop (Z.to_nat (off + n)) l = drop (Z.to_nat off) l.
Proof.
  intros Ho Hn Hl. unfold sl. rewrite Z2Nat.inj_add by lia. rewrite <- drop_drop.
  apply take_drop.
Qed.

Lemma length_replicate_len {A} n (x : A) : len (replicate n x) = Z.of_nat n.
Proof. unfold len. by rewrite length_replicate. Qed.

Lemma len_cons {A} (a : A) l : len (a :: l) = 1 + len l.
Proof. unfold len. cbn. lia. Qed.

Lemma len_snoc {A} (l : list A) a : len (l ++ [a]) = len l + 1.
Proof. unfold len. rewrite length_app. cbn. lia. Qed.

Lemma u64_small x : 0 <= x < 18446744073709551616 -> u64 x = x.
Proof. apply Z.mod_small. Qed.

Notation small raw := (len raw < 9223372036854775808).

