(* ===== verification/JitTypes.v ===== *)
(** * JitTypes: the vocabulary of the JIT intermediate representation

    The enumerations and structures of [src/jit/JitIr.h].  Every C++
    [enum class X] is a Module [X] holding an inductive type with the same
    constructors, so [Kind::Move] reads [Kind.Move]; every [struct] is a
    Record whose fields carry the structure's prefix ([sem_] for
    [InstructionSemantics], [acc_] for [MemoryAccess], [mc_] for
    [MemoryContract], ...).  A [uint8_t] field is a [Z]; the [0xFF] sentinels
    keep their value.  The trailing [Count] enumerators, which only size arrays,
    have no constructor. *)

From S2P Require Import Prelude.
From stdpp Require Import base list numbers option decidable.

Open Scope Z_scope.

(** ** Enumerations *)

Module Kind.
Inductive Kind : Set :=
| Move | Alu | Shift | BitOp | Muldiv | AddrCalc | Multi | Cond | Branch
| Fpu | Unsafe.
End Kind.
Abbreviation Kind := Kind.Kind.

Module SemanticOp.
Inductive SemanticOp : Set :=
| Unknown | Nop | Move | MoveQuick | MoveSrToReg | ImmediateAlu | Bit
| AddSubQuick | AddSubExtend | AluEaToReg | AluRegToEa | AddressAlu | Test
| Clear | Negate | Complement | Extend | Swap | Exchange | CompareMemory
| Lea | Pea | Movem | Link | Unlink | SetCondition | Branch
| BranchSubroutine | DecrementBranch | JumpSubroutine | Jump
| ReturnSubroutine | ShiftRegister | Bitfield | MultiplyWord | MultiplyLong
| DivideWord | DivideLong.
End SemanticOp.
Abbreviation SemanticOp := SemanticOp.SemanticOp.

Module AluOperation.
Inductive AluOperation : Set := None | Or | And | Eor | Add | Sub | Cmp.
End AluOperation.
Abbreviation AluOperation := AluOperation.AluOperation.

Module EffectiveAddressKind.
Inductive EffectiveAddressKind : Set :=
| Invalid | DataRegister | AddressRegister | AddressIndirect | PostIncrement
| PreDecrement | Displacement | BriefIndex | FullIndex | AbsoluteWord
| AbsoluteLong | PcDisplacement | PcBriefIndex | PcFullIndex | Immediate.
End EffectiveAddressKind.
Abbreviation EffectiveAddressKind := EffectiveAddressKind.EffectiveAddressKind.

Module OperandRole.
Inductive OperandRole : Set := Source | Destination | Operand | Control.
End OperandRole.
Abbreviation OperandRole := OperandRole.OperandRole.

Module IndexIndirect.
Inductive IndexIndirect : Set := None | Preindexed | Postindexed.
End IndexIndirect.
Abbreviation IndexIndirect := IndexIndirect.IndexIndirect.

Module ControlFlowKind.
Inductive ControlFlowKind : Set :=
| None | DirectBranch | ConditionalBranch | DecrementBranch | DirectCall
| IndirectCall | DirectJump | IndirectJump | Return.
End ControlFlowKind.
Abbreviation ControlFlowKind := ControlFlowKind.ControlFlowKind.

Module MemoryDirection.
Inductive MemoryDirection : Set := Read | Write.
End MemoryDirection.
Abbreviation MemoryDirection := MemoryDirection.MemoryDirection.

Module MemoryOperand.
Inductive MemoryOperand : Set :=
| Source | Destination | Operand | Control | Stack | RegisterList.
End MemoryOperand.
Abbreviation MemoryOperand := MemoryOperand.MemoryOperand.

Module MemoryOrder.
Inductive MemoryOrder : Set :=
| None | Single | SourceThenDestination | ReadModifyWrite
| RegisterAscending | RegisterDescending | Sequential.
End MemoryOrder.
Abbreviation MemoryOrder := MemoryOrder.MemoryOrder.

Module EaCommit.
Inductive EaCommit : Set := None | BeforeAccess | AfterAccess | PerElement.
End EaCommit.
Abbreviation EaCommit := EaCommit.EaCommit.

Module FaultPhase.
Inductive FaultPhase : Set :=
| RestartInstruction | PartialWriteCommitted | LastWrite
| RestartableLastWrite.
End FaultPhase.
Abbreviation FaultPhase := FaultPhase.FaultPhase.

Module MemoryProofProtocol.
Inductive MemoryProofProtocol : Set :=
| Interpreter | None | SingleRead | SingleWrite | PreflightAll
| ReadModifyWrite | OrderedSpan | AtomicCachePair.
End MemoryProofProtocol.
Abbreviation MemoryProofProtocol := MemoryProofProtocol.MemoryProofProtocol.

Module EndReason.
Inductive EndReason : Set :=
| ControlFlow | Unsafe | LengthLimit | WindowEdge | Discontinuity | Faulted.
End EndReason.
Abbreviation EndReason := EndReason.EndReason.

#[export] Instance Kind_eq_dec : EqDecision Kind.
Proof. solve_decision. Defined.
#[export] Instance SemanticOp_eq_dec : EqDecision SemanticOp.
Proof. solve_decision. Defined.
#[export] Instance AluOperation_eq_dec : EqDecision AluOperation.
Proof. solve_decision. Defined.
#[export] Instance EffectiveAddressKind_eq_dec : EqDecision EffectiveAddressKind.
Proof. solve_decision. Defined.
#[export] Instance OperandRole_eq_dec : EqDecision OperandRole.
Proof. solve_decision. Defined.
#[export] Instance IndexIndirect_eq_dec : EqDecision IndexIndirect.
Proof. solve_decision. Defined.
#[export] Instance ControlFlowKind_eq_dec : EqDecision ControlFlowKind.
Proof. solve_decision. Defined.
#[export] Instance MemoryDirection_eq_dec : EqDecision MemoryDirection.
Proof. solve_decision. Defined.
#[export] Instance MemoryOperand_eq_dec : EqDecision MemoryOperand.
Proof. solve_decision. Defined.
#[export] Instance MemoryOrder_eq_dec : EqDecision MemoryOrder.
Proof. solve_decision. Defined.
#[export] Instance EaCommit_eq_dec : EqDecision EaCommit.
Proof. solve_decision. Defined.
#[export] Instance FaultPhase_eq_dec : EqDecision FaultPhase.
Proof. solve_decision. Defined.
#[export] Instance MemoryProofProtocol_eq_dec : EqDecision MemoryProofProtocol.
Proof. solve_decision. Defined.

(** [enum Flag]: the per-entry property bits. *)
Definition FlagNone : Z := 0.
Definition FlagReadsMem : Z := 1.
Definition FlagWritesMem : Z := 2.
Definition FlagMayTrap : Z := 4.
Definition FlagSetsCcr : Z := 8.
Definition FlagUsesCcr : Z := 16.
Definition FlagSetsX : Z := 32.

(** [enum MemoryCache]. *)
Definition MemoryCacheNone : Z := 0.
Definition MemoryCacheRead : Z := 1.
Definition MemoryCacheWrite : Z := 2.

(** ** Structures *)

Definition NoSize : Z := 0xFF.
Definition NoField : Z := 0xFF.

Record InstructionSemantics := mkSemantics {
  sem_operation : SemanticOp;
  sem_alu : AluOperation;
  sem_sizeIndex : Z;
  sem_eaMode : Z;
  sem_eaReg : Z;
  sem_registerIndex : Z;
  sem_destinationMode : Z;
  sem_destinationReg : Z;
  sem_condition : Z;
  sem_action : Z;
  sem_dynamic : bool;
  sem_left : bool;
  sem_toRegisters : bool
}.

(** The member initialisers of the C++ structure. *)
Definition InstructionSemantics0 : InstructionSemantics :=
  mkSemantics SemanticOp.Unknown AluOperation.None NoSize NoField NoField
    NoField NoField NoField NoField NoField false false false.

#[export] Instance eta_semantics : Eta InstructionSemantics := fun s =>
  mkSemantics (sem_operation s) (sem_alu s) (sem_sizeIndex s) (sem_eaMode s)
    (sem_eaReg s) (sem_registerIndex s) (sem_destinationMode s)
    (sem_destinationReg s) (sem_condition s) (sem_action s) (sem_dynamic s)
    (sem_left s) (sem_toRegisters s).

Definition set_operation := ltac:(set_field sem_operation).
Definition set_alu := ltac:(set_field sem_alu).
Definition set_sizeIndex := ltac:(set_field sem_sizeIndex).
Definition set_eaMode := ltac:(set_field sem_eaMode).
Definition set_eaReg := ltac:(set_field sem_eaReg).
Definition set_registerIndex := ltac:(set_field sem_registerIndex).
Definition set_destinationMode := ltac:(set_field sem_destinationMode).
Definition set_destinationReg := ltac:(set_field sem_destinationReg).
Definition set_condition := ltac:(set_field sem_condition).
Definition set_action := ltac:(set_field sem_action).
Definition set_dynamic := ltac:(set_field sem_dynamic).
Definition set_left := ltac:(set_field sem_left).
Definition set_toRegisters := ltac:(set_field sem_toRegisters).

(** [InstructionSemantics::valid] and [::bytes]. *)
Definition sem_valid (s : InstructionSemantics) : bool :=
  sem_operation s != SemanticOp.Unknown.
Definition sem_bytes (s : InstructionSemantics) : Z :=
  if sem_sizeIndex s <=? 2 then u8 (1 .<< sem_sizeIndex s) else 0.

Record DecodedEffectiveAddress := mkEa {
  ea_kind : EffectiveAddressKind;
  ea_role : OperandRole;
  ea_mode : Z;
  ea_reg : Z;
  ea_sizeIndex : Z;
  ea_extensionOffset : Z;
  ea_extensionWords : Z;
  ea_value : Z;
  ea_extensionAddress : Z;
  ea_indexRegister : Z;
  ea_indexShift : Z;
  ea_indexLong : bool;
  ea_baseDisplacement : Z;
  ea_outerDisplacement : Z;
  ea_baseDisplacementWords : Z;
  ea_outerDisplacementWords : Z;
  ea_indirect : IndexIndirect;
  ea_fullFormat : bool;
  ea_baseSuppressed : bool;
  ea_indexSuppressed : bool;
  ea_valid : bool
}.

Definition DecodedEffectiveAddress0 : DecodedEffectiveAddress :=
  mkEa EffectiveAddressKind.Invalid OperandRole.Operand 0xFF 0xFF NoSize 0 0 0
    0 0 0 false 0 0 0 0 IndexIndirect.None false false false false.

#[export] Instance eta_ea : Eta DecodedEffectiveAddress := fun e =>
  mkEa (ea_kind e) (ea_role e) (ea_mode e) (ea_reg e) (ea_sizeIndex e)
    (ea_extensionOffset e) (ea_extensionWords e) (ea_value e)
    (ea_extensionAddress e) (ea_indexRegister e) (ea_indexShift e)
    (ea_indexLong e) (ea_baseDisplacement e) (ea_outerDisplacement e)
    (ea_baseDisplacementWords e) (ea_outerDisplacementWords e)
    (ea_indirect e) (ea_fullFormat e) (ea_baseSuppressed e)
    (ea_indexSuppressed e) (ea_valid e).

Definition set_kind := ltac:(set_field ea_kind).
Definition set_role := ltac:(set_field ea_role).
Definition set_mode := ltac:(set_field ea_mode).
Definition set_reg := ltac:(set_field ea_reg).
Definition set_easize := ltac:(set_field ea_sizeIndex).
Definition set_extensionOffset := ltac:(set_field ea_extensionOffset).
Definition set_extensionWords := ltac:(set_field ea_extensionWords).
Definition set_value := ltac:(set_field ea_value).
Definition set_extensionAddress := ltac:(set_field ea_extensionAddress).
Definition set_indexRegister := ltac:(set_field ea_indexRegister).
Definition set_indexShift := ltac:(set_field ea_indexShift).
Definition set_indexLong := ltac:(set_field ea_indexLong).
Definition set_baseDisplacement := ltac:(set_field ea_baseDisplacement).
Definition set_outerDisplacement := ltac:(set_field ea_outerDisplacement).
Definition set_baseDisplacementWords := ltac:(set_field ea_baseDisplacementWords).
Definition set_outerDisplacementWords := ltac:(set_field ea_outerDisplacementWords).
Definition set_indirect := ltac:(set_field ea_indirect).
Definition set_fullFormat := ltac:(set_field ea_fullFormat).
Definition set_baseSuppressed := ltac:(set_field ea_baseSuppressed).
Definition set_indexSuppressed := ltac:(set_field ea_indexSuppressed).
Definition set_valid := ltac:(set_field ea_valid).

(** [DecodedEffectiveAddress::memory]. *)
Definition ea_memory (e : DecodedEffectiveAddress) : bool :=
  (ea_kind e != EffectiveAddressKind.Invalid) &&
  (ea_kind e != EffectiveAddressKind.DataRegister) &&
  (ea_kind e != EffectiveAddressKind.AddressRegister) &&
  (ea_kind e != EffectiveAddressKind.Immediate).

Record ControlFlowPlan := mkFlow {
  cf_kind : ControlFlowKind;
  cf_target : Z;
  cf_fallthrough : Z;
  cf_returnAddress : Z;
  cf_condition : Z;
  cf_targetKnown : bool;
  cf_conditional : bool;
  cf_pushesReturnAddress : bool;
  cf_valid : bool
}.

Definition ControlFlowPlan0 : ControlFlowPlan :=
  mkFlow ControlFlowKind.None 0 0 0 NoField false false false false.

#[export] Instance eta_flow : Eta ControlFlowPlan := fun c =>
  mkFlow (cf_kind c) (cf_target c) (cf_fallthrough c) (cf_returnAddress c)
    (cf_condition c) (cf_targetKnown c) (cf_conditional c)
    (cf_pushesReturnAddress c) (cf_valid c).

Definition set_flowKind := ltac:(set_field cf_kind).
Definition set_target := ltac:(set_field cf_target).
Definition set_fallthrough := ltac:(set_field cf_fallthrough).
Definition set_returnAddress := ltac:(set_field cf_returnAddress).
Definition set_flowCondition := ltac:(set_field cf_condition).
Definition set_targetKnown := ltac:(set_field cf_targetKnown).
Definition set_conditional := ltac:(set_field cf_conditional).
Definition set_pushesReturnAddress := ltac:(set_field cf_pushesReturnAddress).
Definition set_flowValid := ltac:(set_field cf_valid).

Record MemoryAccess := mkAccess {
  acc_direction : MemoryDirection;
  acc_operand : MemoryOperand;
  acc_bytes : Z;
  acc_eaMode : Z;
  acc_eaReg : Z;
  acc_eaCommit : EaCommit;
  acc_fault : FaultPhase;
  acc_cache : Z;
  acc_exactRequired : bool
}.

Definition MemoryAccess0 : MemoryAccess :=
  mkAccess MemoryDirection.Read MemoryOperand.Operand 0 0xFF 0xFF EaCommit.None
    FaultPhase.RestartInstruction MemoryCacheNone false.

#[export] Instance eta_access : Eta MemoryAccess := fun a =>
  mkAccess (acc_direction a) (acc_operand a) (acc_bytes a) (acc_eaMode a)
    (acc_eaReg a) (acc_eaCommit a) (acc_fault a) (acc_cache a)
    (acc_exactRequired a).

Definition set_eaCommit := ltac:(set_field acc_eaCommit).
Definition set_exactRequired := ltac:(set_field acc_exactRequired).

Definition MaxAccesses : Z := 4.
Definition VariableCount : Z := 0xFF.
Definition NoLastWrite : Z := 0xFF.
Definition VariableLastWrite : Z := 0xFE.

(** [mc_access] is the array of [MaxAccesses] slots. *)
Record MemoryContract := mkContract {
  mc_described : bool;
  mc_count : Z;
  mc_order : MemoryOrder;
  mc_lastWrite : Z;
  mc_cachePairProved : bool;
  mc_access : list MemoryAccess
}.

Definition MemoryContract0 : MemoryContract :=
  mkContract false 0 MemoryOrder.None NoLastWrite false
    (replicate 4 MemoryAccess0).

#[export] Instance eta_contract : Eta MemoryContract := fun c =>
  mkContract (mc_described c) (mc_count c) (mc_order c) (mc_lastWrite c)
    (mc_cachePairProved c) (mc_access c).

Definition set_described := ltac:(set_field mc_described).
Definition set_count := ltac:(set_field mc_count).
Definition set_order := ltac:(set_field mc_order).
Definition set_lastWrite := ltac:(set_field mc_lastWrite).
Definition set_cachePairProved := ltac:(set_field mc_cachePairProved).
Definition set_accesses := ltac:(set_field mc_access).

(** [c.access[i]] and [c.access[i] = a]; every index the code uses is below
    [MaxAccesses]. *)
Definition access (c : MemoryContract) (i : Z) : MemoryAccess :=
  nth (Z.to_nat i) (mc_access c) MemoryAccess0.
Definition set_access (i : Z) (a : MemoryAccess) (c : MemoryContract)
  : MemoryContract :=
  set_accesses (<[Z.to_nat i := a]> (mc_access c)) c.

Record MemoryProofOptions := mkOptions {
  opt_exactReads : bool;
  opt_exactWrites : bool;
  opt_preflightedExactSource : bool;
  opt_cacheReads : bool;
  opt_cacheWrites : bool;
  opt_cachePairs : bool;
  opt_restartableWriteRequired : bool
}.

Definition MemoryProofOptions0 : MemoryProofOptions :=
  mkOptions true true false false false false false.

Record MemoryProofPlan := mkProof {
  pp_protocol : MemoryProofProtocol;
  pp_preflightMask : Z;
  pp_exactThunkMask : Z;
  pp_cacheMask : Z;
  pp_lastWrite : Z;
  pp_lastWriteRestartable : bool
}.

Definition MemoryProofPlan0 : MemoryProofPlan :=
  mkProof MemoryProofProtocol.Interpreter 0 0 0 NoLastWrite false.

#[export] Instance eta_proof : Eta MemoryProofPlan := fun p =>
  mkProof (pp_protocol p) (pp_preflightMask p) (pp_exactThunkMask p)
    (pp_cacheMask p) (pp_lastWrite p) (pp_lastWriteRestartable p).

Definition set_protocol := ltac:(set_field pp_protocol).
Definition set_preflightMask := ltac:(set_field pp_preflightMask).
Definition set_exactThunkMask := ltac:(set_field pp_exactThunkMask).
Definition set_cacheMask := ltac:(set_field pp_cacheMask).

(** [MemoryProofPlan::valid], [::single], [::atomicCachePair] and
    [::restartableLastWrite]. *)
Definition pp_valid (p : MemoryProofPlan) : bool :=
  pp_protocol p != MemoryProofProtocol.Interpreter.
Definition pp_single (p : MemoryProofPlan) : bool :=
  (pp_protocol p == MemoryProofProtocol.SingleRead) ||
  (pp_protocol p == MemoryProofProtocol.SingleWrite).
Definition pp_atomicCachePair (p : MemoryProofPlan) : bool :=
  pp_protocol p == MemoryProofProtocol.AtomicCachePair.
Definition pp_restartableLastWrite (p : MemoryProofPlan) : bool :=
  pp_lastWriteRestartable p.

Record MemoryAccessPlan := mkToken {
  ap_protocol : MemoryProofProtocol;
  ap_index : Z;
  ap_direction : MemoryDirection;
  ap_operand : MemoryOperand;
  ap_bytes : Z;
  ap_eaCommit : EaCommit;
  ap_fault : FaultPhase;
  ap_preflight : bool;
  ap_exactThunk : bool;
  ap_exactRequired : bool;
  ap_cache : bool
}.

Definition MemoryAccessPlan0 : MemoryAccessPlan :=
  mkToken MemoryProofProtocol.Interpreter 0xFF MemoryDirection.Read
    MemoryOperand.Operand 0 EaCommit.None FaultPhase.RestartInstruction
    false false false false.

(** [MemoryAccessPlan::valid], [::mask] and [::single]. *)
Definition ap_valid (a : MemoryAccessPlan) : bool := ap_index a <? MaxAccesses.
Definition ap_mask (a : MemoryAccessPlan) : Z :=
  if ap_valid a then u8 (1 .<< ap_index a) else 0.
Definition ap_single (a : MemoryAccessPlan) : bool :=
  (ap_protocol a == MemoryProofProtocol.SingleRead) ||
  (ap_protocol a == MemoryProofProtocol.SingleWrite).

Definition MaxExtensionWords : Z := 10.

(** One guest instruction of a block. *)
Record Instr := mkInstr {
  in_pc : Z;
  in_opcode : Z;
  in_words : Z;
  in_kind : Kind;
  in_flags : Z;
  in_cycles : Z;
  in_baseCycles : Z;
  in_icacheCycles : Z;
  in_postExceptionCycles : Z;
  in_fetchWords : Z;
  in_observedNextPc : Z;
  in_terminalIrd : Z;
  in_terminalIrc : Z;
  in_terminalQueueValid : bool;
  in_iplPolls : Z;
  in_iplPollMask : Z;
  in_iplPollPosValid : bool;
  in_memory : MemoryContract;
  in_semantics : InstructionSemantics;
  in_extensions : list Z;
  in_extensionCount : Z;
  in_effectiveAddresses : list DecodedEffectiveAddress;
  in_effectiveAddressCount : Z;
  in_control : ControlFlowPlan
}.

Definition Instr0 : Instr :=
  mkInstr 0 0 1 Kind.Alu FlagNone 0 0 0 0 0 0 0 0 false 0 0 false
    MemoryContract0 InstructionSemantics0 (replicate 10 0) 0
    (replicate 2 DecodedEffectiveAddress0) 0 ControlFlowPlan0.

#[export] Instance eta_instr : Eta Instr := fun i =>
  mkInstr (in_pc i) (in_opcode i) (in_words i) (in_kind i) (in_flags i)
    (in_cycles i) (in_baseCycles i) (in_icacheCycles i)
    (in_postExceptionCycles i) (in_fetchWords i) (in_observedNextPc i)
    (in_terminalIrd i) (in_terminalIrc i) (in_terminalQueueValid i)
    (in_iplPolls i) (in_iplPollMask i) (in_iplPollPosValid i) (in_memory i)
    (in_semantics i) (in_extensions i) (in_extensionCount i)
    (in_effectiveAddresses i) (in_effectiveAddressCount i) (in_control i).

Definition set_pc := ltac:(set_field in_pc).
Definition set_opcode := ltac:(set_field in_opcode).
Definition set_words := ltac:(set_field in_words).
Definition set_instrKind := ltac:(set_field in_kind).
Definition set_flags := ltac:(set_field in_flags).
Definition set_fetchWords := ltac:(set_field in_fetchWords).
Definition set_memory := ltac:(set_field in_memory).
Definition set_semantics := ltac:(set_field in_semantics).
Definition set_extensions := ltac:(set_field in_extensions).
Definition set_extensionCount := ltac:(set_field in_extensionCount).
Definition set_effectiveAddresses := ltac:(set_field in_effectiveAddresses).
Definition set_effectiveAddressCount := ltac:(set_field in_effectiveAddressCount).
Definition set_control := ltac:(set_field in_control).

(** [Instr::extensionWord] and [Instr::extensionLong]. *)
Definition extensionWord (i : Instr) (index : Z) : Z :=
  if index <? in_extensionCount i
  then nth (Z.to_nat index) (in_extensions i) 0 else 0.
Definition extensionLong (i : Instr) (index : Z) : Z :=
  u32 (extensionWord i index .<< 16) .| extensionWord i (index + 1).

(** A translated block ([instrs] and [code] are vectors). *)
Record BlockIr := mkBlock {
  bl_entryPc : Z;
  bl_super : bool;
  bl_codeBase : Z;
  bl_codeLen : Z;
  bl_physBase : Z;
  bl_physLen : Z;
  bl_endReason : EndReason;
  bl_instrs : list Instr;
  bl_code : list Z
}.

(** [BlockIr::word], [::prefetchWord] and [::exitPc]. *)
Definition block_word (b : BlockIr) (pc : Z) : Z :=
  let i := u32 (pc - bl_entryPc b) / 2 in
  if (bl_entryPc b <=? pc) && (i <? Z.of_nat (length (bl_code b)))
  then nth (Z.to_nat i) (bl_code b) 0 else 0.
Definition prefetchWord (b : BlockIr) (pc : Z) : Z := block_word b pc.
Definition exitPc (b : BlockIr) : Z :=
  match rev (bl_instrs b) with
  | nil => bl_entryPc b
  | back :: _ => u32 (in_pc back + u32 (u32 (in_words back) * 2))
  end.
