(* ===== verification/JitDecode.v ===== *)
(** * JitDecode: opcode meaning and block classification

    The opcode-only functions of [src/jit/JitIr.h]: the encoding masks,
    [describeInstruction] (split by opcode line, each part translating one
    [if (line == ...)] statement), [classify], the branch-length decoder and
    [instrFlags].  An opcode is a [Z]; the C++ parameter type bounds it by
    65536. *)

From S2P Require Import Prelude.
From S2P Require Import JitTypes.
From stdpp Require Import base list numbers option decidable.

Open Scope Z_scope.

(** ** Encoding masks *)

Definition bitOperandEncodingAllowed (s : InstructionSemantics) : bool :=
  if (sem_operation s != SemanticOp.Bit) || (3 <? sem_action s)
     || (8 <=? sem_eaReg s) then false
  else if sem_eaMode s =? 0 then true
  else if (2 <=? sem_eaMode s) && (sem_eaMode s <=? 6) then true
  else if sem_eaMode s <>? 7 then false
  else if sem_eaReg s <=? 1 then true
  else if sem_action s <>? 0 then false
  else if sem_eaReg s <=? 3 then true
  else sem_dynamic s && (sem_eaReg s =? 4).

Definition dataAlterableEncodingAllowed (mode reg : Z) : bool :=
  (mode =? 0) || ((2 <=? mode) && (mode <=? 6)) || ((mode =? 7) && (reg <=? 1)).

Definition controlEncodingAllowed (mode reg : Z) : bool :=
  (mode =? 2) || (mode =? 5) || (mode =? 6) || ((mode =? 7) && (reg <=? 3)).

Definition moveOperandEncodingAllowed (s : InstructionSemantics) : bool :=
  if (sem_operation s != SemanticOp.Move) || (2 <? sem_sizeIndex s)
     || (8 <=? sem_eaReg s) || (8 <=? sem_destinationReg s) then false
  else
    let source := (sem_eaMode s <=? 6) ||
                  ((sem_eaMode s =? 7) && (sem_eaReg s <=? 4)) in
    if negb source || ((sem_sizeIndex s =? 0) && (sem_eaMode s =? 1)) then false
    else if sem_destinationMode s =? 1 then sem_sizeIndex s <>? 0
    else dataAlterableEncodingAllowed (sem_destinationMode s)
           (sem_destinationReg s).

Definition immediateAluOperandEncodingAllowed (s : InstructionSemantics) : bool :=
  if (sem_operation s != SemanticOp.ImmediateAlu) || (2 <? sem_sizeIndex s)
  then false
  else if dataAlterableEncodingAllowed (sem_eaMode s) (sem_eaReg s) then true
  else (sem_alu s == AluOperation.Cmp) && (sem_eaMode s =? 7)
       && (2 <=? sem_eaReg s) && (sem_eaReg s <=? 3).

Definition addSubQuickOperandEncodingAllowed (s : InstructionSemantics) : bool :=
  if (sem_operation s != SemanticOp.AddSubQuick) || (2 <? sem_sizeIndex s)
  then false
  else if sem_eaMode s =? 1 then sem_sizeIndex s <>? 0
  else dataAlterableEncodingAllowed (sem_eaMode s) (sem_eaReg s).

Definition aluRegToEaOperandEncodingAllowed (s : InstructionSemantics) : bool :=
  if (sem_operation s != SemanticOp.AluRegToEa) || (2 <? sem_sizeIndex s)
  then false
  else if sem_eaMode s =? 0 then sem_alu s == AluOperation.Eor
  else ((2 <=? sem_eaMode s) && (sem_eaMode s <=? 6)) ||
       ((sem_eaMode s =? 7) && (sem_eaReg s <=? 1)).

Definition testOperandEncodingAllowed (s : InstructionSemantics) : bool :=
  if (sem_operation s != SemanticOp.Test) || (2 <? sem_sizeIndex s) then false
  else if (sem_eaMode s =? 0) || ((2 <=? sem_eaMode s) && (sem_eaMode s <=? 6))
  then true
  else if sem_eaMode s =? 1 then sem_sizeIndex s <>? 0
  else (sem_eaMode s =? 7) && (sem_eaReg s <=? 4).

Definition unaryModifyOperandEncodingAllowed (s : InstructionSemantics) : bool :=
  ((sem_operation s == SemanticOp.Clear) ||
   (sem_operation s == SemanticOp.Negate) ||
   (sem_operation s == SemanticOp.Complement)) &&
  (sem_sizeIndex s <=? 2) &&
  dataAlterableEncodingAllowed (sem_eaMode s) (sem_eaReg s).

Definition peaOperandEncodingAllowed (s : InstructionSemantics) : bool :=
  (sem_operation s == SemanticOp.Pea) &&
  controlEncodingAllowed (sem_eaMode s) (sem_eaReg s).

(** ** Opcode meaning *)

(** 0 = <ea> to register, 1 = register to <ea>, -1 = overlapping encoding. *)
Definition memoryAluDirection (op : Z) : Z :=
  let hi := (op .>> 12) .& 0xF in
  let opmode := (op .>> 6) .& 7 in
  let mode := (op .>> 3) .& 7 in
  if (opmode =? 3) || (opmode =? 7)
  then if (hi =? 0x9) || (hi =? 0xB) || (hi =? 0xD) then 0 else -1
  else if opmode <=? 2 then 0
  else if mode <=? 1 then if (hi =? 0xB) && (mode =? 0) then 1 else -1
  else 1.

(** The lambda [set(operation, size)]. *)
Definition set_op (operation : SemanticOp) (size : Z) (s : InstructionSemantics)
  : InstructionSemantics := set_sizeIndex size (set_operation operation s).

(** The lambda [aluForImmediate]. *)
Definition aluForImmediate (kind : Z) : AluOperation :=
  if kind =? 0 then AluOperation.Or
  else if kind =? 1 then AluOperation.And
  else if kind =? 2 then AluOperation.Sub
  else if kind =? 3 then AluOperation.Add
  else if kind =? 5 then AluOperation.Eor
  else if kind =? 6 then AluOperation.Cmp
  else AluOperation.None.

Definition describeLine0 (op : Z) (s : InstructionSemantics)
  : InstructionSemantics :=
  if op .& 0x0138 =? 0x0108 then s
  else
    let mode := (op .>> 3) .& 7 in
    let dynamicBit := op .& 0xF100 =? 0x0100 in
    let staticBit := op .& 0xFF00 =? 0x0800 in
    if dynamicBit || staticBit
    then set_dynamic dynamicBit
           (set_action ((op .>> 6) .& 3)
             (set_op SemanticOp.Bit (if mode =? 0 then 2 else 0) s))
    else
      let lo := u8 op in
      if (lo =? 0x3C) || (lo =? 0x7C) || (op .& 0x0F00 =? 0x0E00) ||
         (op .& 0xFFC0 =? 0x0AC0) || (op .& 0xFFC0 =? 0x0CC0) ||
         (op =? 0x0CFC) || (op .& 0xFFC0 =? 0x00C0) ||
         (op .& 0xFFC0 =? 0x02C0) || (op .& 0xFFC0 =? 0x04C0)
      then s
      else
        let size := (op .>> 6) .& 3 in
        let alu := aluForImmediate ((op .>> 9) .& 7) in
        if (size <=? 2) && (alu != AluOperation.None)
        then set_alu alu (set_op SemanticOp.ImmediateAlu size s)
        else s.

Definition describeMove (op line : Z) (s : InstructionSemantics)
  : InstructionSemantics :=
  set_destinationReg ((op .>> 9) .& 7)
    (set_destinationMode ((op .>> 6) .& 7)
      (set_op SemanticOp.Move
        (if line =? 0x1000 then 0 else if line =? 0x3000 then 1 else 2) s)).

Definition describeLine4 (op : Z) (s : InstructionSemantics)
  : InstructionSemantics :=
  let mode := (op .>> 3) .& 7 in
  if op .& 0xFFC0 =? 0x4C00 then set_op SemanticOp.MultiplyLong 2 s
  else if op .& 0xFFC0 =? 0x4C40 then set_op SemanticOp.DivideLong 2 s
  else if op =? 0x4E71 then set_op SemanticOp.Nop NoSize s
  else if op =? 0x4E75 then set_op SemanticOp.ReturnSubroutine NoSize s
  else if op .& 0xFFF8 =? 0x4E50 then set_op SemanticOp.Link 2 s
  else if op .& 0xFFF8 =? 0x4E58 then set_op SemanticOp.Unlink 2 s
  else if op .& 0xFFC0 =? 0x4E80 then set_op SemanticOp.JumpSubroutine 2 s
  else if op .& 0xFFC0 =? 0x4EC0 then set_op SemanticOp.Jump 2 s
  else if op .& 0xFFF8 =? 0x40C0 then set_op SemanticOp.MoveSrToReg 1 s
  else if op .& 0xFFF8 =? 0x49C0
  then set_action 1 (set_op SemanticOp.Extend 2 s)
  else if op .& 0xF1C0 =? 0x41C0 then set_op SemanticOp.Lea 2 s
  else if (op .& 0xFB80 =? 0x4880) && (2 <=? mode)
  then set_toRegisters (op .& 0x0400 <>? 0)
         (set_op SemanticOp.Movem (if op .& 0x0040 =? 0 then 1 else 2) s)
  else if op .& 0xFFB8 =? 0x4880
  then set_action 0
         (set_op SemanticOp.Extend (if op .& 0x0040 =? 0 then 1 else 2) s)
  else if op .& 0xFFF8 =? 0x4840 then set_op SemanticOp.Swap 2 s
  else if (op .& 0xFFC0 =? 0x4840) && (2 <=? mode)
  then set_op SemanticOp.Pea 2 s
  else
    let size := (op .>> 6) .& 3 in
    if size <=? 2
    then
      let family := op .& 0xFF00 in
      if family =? 0x4A00 then set_op SemanticOp.Test size s
      else if family =? 0x4200 then set_op SemanticOp.Clear size s
      else if family =? 0x4400 then set_op SemanticOp.Negate size s
      else if family =? 0x4600 then set_op SemanticOp.Complement size s
      else s
    else s.

Definition describeLine5 (op : Z) (s : InstructionSemantics)
  : InstructionSemantics :=
  let s := set_condition ((op .>> 8) .& 15) s in
  if op .& 0xF0F8 =? 0x50C8 then set_op SemanticOp.DecrementBranch 1 s
  else if op .& 0xF0F8 =? 0x50F8 then InstructionSemantics0
  else if op .& 0x00C0 =? 0x00C0 then set_op SemanticOp.SetCondition 0 s
  else
    let size := (op .>> 6) .& 3 in
    if size <=? 2
    then set_alu (if op .& 0x0100 =? 0 then AluOperation.Add
                  else AluOperation.Sub)
           (set_op SemanticOp.AddSubQuick size s)
    else s.

Definition describeLine6 (op : Z) (s : InstructionSemantics)
  : InstructionSemantics :=
  let s := set_condition ((op .>> 8) .& 15) s in
  set_op (if sem_condition s =? 1 then SemanticOp.BranchSubroutine
          else SemanticOp.Branch) NoSize s.

Definition describeLine7 (op : Z) (s : InstructionSemantics)
  : InstructionSemantics :=
  if op .& 0x0100 =? 0 then set_op SemanticOp.MoveQuick 2 s else s.

(** DIVU/DIVS and MULU/MULS: [None] falls through to the ALU families. *)
Definition describeMulDiv (op line : Z) (s : InstructionSemantics)
  : option InstructionSemantics :=
  let opmode := (op .>> 6) .& 7 in
  if (line =? 0x8000) && ((opmode =? 3) || (opmode =? 7))
  then Some (set_action (if opmode =? 7 then 1 else 0)
              (set_op SemanticOp.DivideWord 1 s))
  else if (line =? 0xC000) && ((opmode =? 3) || (opmode =? 7))
  then Some (set_action (if opmode =? 7 then 1 else 0)
              (set_op SemanticOp.MultiplyWord 1 s))
  else None.

(** CMPM, EXG and ADDX/SUBX overlap the ALU families and are decoded first. *)
Definition describeOverlaps (op line : Z) (s : InstructionSemantics)
  : option InstructionSemantics :=
  if (line =? 0xB000) && (op .& 0xF138 =? 0xB108) && ((op .>> 6) .& 3 <=? 2)
  then Some (set_destinationReg ((op .>> 9) .& 7)
              (set_destinationMode 3
                (set_eaReg (op .& 7)
                  (set_eaMode 3
                    (set_op SemanticOp.CompareMemory ((op .>> 6) .& 3) s)))))
  else if (line =? 0xC000) &&
          ((op .& 0xF1F8 =? 0xC140) || (op .& 0xF1F8 =? 0xC148) ||
           (op .& 0xF1F8 =? 0xC188))
  then Some (set_action (if op .& 0x00F8 =? 0x0048 then 1
                         else if op .& 0x00F8 =? 0x0088 then 2 else 0)
              (set_eaReg (op .& 7)
                (set_registerIndex ((op .>> 9) .& 7)
                  (set_op SemanticOp.Exchange 2 s))))
  else if ((line =? 0x9000) || (line =? 0xD000)) &&
          (op .& 0xF138 =? u16 (line .| 0x0100)) && ((op .>> 6) .& 3 <=? 2)
  then Some (set_alu (if line =? 0x9000 then AluOperation.Sub
                      else AluOperation.Add)
              (set_op SemanticOp.AddSubExtend ((op .>> 6) .& 3) s))
  else None.

Definition isAluLine (line : Z) : bool :=
  (line =? 0x8000) || (line =? 0x9000) || (line =? 0xB000) ||
  (line =? 0xC000) || (line =? 0xD000).

Definition describeAlu (op : Z) (s : InstructionSemantics)
  : InstructionSemantics :=
  let direction := memoryAluDirection op in
  if direction <? 0 then s
  else
    let hi := u8 (op .>> 12) in
    let opmode := (op .>> 6) .& 7 in
    if (opmode =? 3) || (opmode =? 7)
    then
      if (hi <>? 0x9) && (hi <>? 0xB) && (hi <>? 0xD) then s
      else set_alu (if hi =? 0x9 then AluOperation.Sub
                    else if hi =? 0xB then AluOperation.Cmp
                    else AluOperation.Add)
             (set_op SemanticOp.AddressAlu (if opmode =? 3 then 1 else 2) s)
    else
      let size := if direction =? 0 then opmode else opmode - 4 in
      if (size <? 0) || (2 <? size) then s
      else
        let s := set_op (if direction =? 0 then SemanticOp.AluEaToReg
                         else SemanticOp.AluRegToEa) size s in
        if hi =? 0x8 then set_alu AluOperation.Or s
        else if hi =? 0x9 then set_alu AluOperation.Sub s
        else if hi =? 0xB
        then set_alu (if direction =? 0 then AluOperation.Cmp
                      else AluOperation.Eor) s
        else if hi =? 0xC then set_alu AluOperation.And s
        else if hi =? 0xD then set_alu AluOperation.Add s
        else set_operation SemanticOp.Unknown s.

Definition describeLineE (op : Z) (s : InstructionSemantics)
  : InstructionSemantics :=
  if op .& 0xF8C0 =? 0xE8C0
  then set_action ((op .>> 8) .& 7) (set_op SemanticOp.Bitfield NoSize s)
  else
    let size := (op .>> 6) .& 3 in
    if size <=? 2
    then set_left (op .& 0x0100 <>? 0)
           (set_dynamic (op .& 0x0020 <>? 0)
             (set_action ((op .>> 3) .& 3)
               (set_op SemanticOp.ShiftRegister size s)))
    else s.

Definition describeInstruction (op : Z) : InstructionSemantics :=
  let line := op .& 0xF000 in
  let s := set_registerIndex ((op .>> 9) .& 7)
             (set_eaReg (op .& 7)
               (set_eaMode ((op .>> 3) .& 7) InstructionSemantics0)) in
  if line =? 0x0000 then describeLine0 op s
  else if (line =? 0x1000) || (line =? 0x2000) || (line =? 0x3000)
  then describeMove op line s
  else if line =? 0x4000 then describeLine4 op s
  else if line =? 0x5000 then describeLine5 op s
  else if line =? 0x6000 then describeLine6 op s
  else if line =? 0x7000 then describeLine7 op s
  else
    describeMulDiv op line s orelse
    (describeOverlaps op line s orelse
     (if isAluLine line then describeAlu op s
      else if line =? 0xE000 then describeLineE op s
      else s)).

(** ** Classification *)

Definition classifyLine0 (op : Z) : Kind :=
  let lo := op .& 0x00FF in
  if (lo =? 0x003C) || (lo =? 0x007C) then Kind.Unsafe
  else if op .& 0x0F00 =? 0x0E00 then Kind.Unsafe
  else if (op .& 0xFFC0 =? 0x0AC0) || (op .& 0xFFC0 =? 0x0CC0)
  then Kind.Unsafe
  else if op =? 0x0CFC then Kind.Unsafe
  else if (op .& 0xFFC0 =? 0x00C0) || (op .& 0xFFC0 =? 0x02C0) ||
          (op .& 0xFFC0 =? 0x04C0) then Kind.Unsafe
  else if op .& 0x0F00 =? 0x0800 then Kind.BitOp
  else if op .& 0x0138 =? 0x0108 then Kind.Multi
  else Kind.Alu.

Definition classify4E (op : Z) : Kind :=
  if op .& 0xFFF8 =? 0x4E50 then Kind.AddrCalc
  else if op .& 0xFFF8 =? 0x4E58 then Kind.AddrCalc
  else if op =? 0x4E71 then Kind.AddrCalc
  else if op .& 0xFFC0 =? 0x4E80 then Kind.Branch
  else if op =? 0x4E75 then Kind.Branch
  else if op .& 0xFFC0 =? 0x4EC0
  then
    let m := (op .>> 3) .& 7 in
    let r := op .& 7 in
    if (m =? 2) || (m =? 5) ||
       ((m =? 7) && ((r =? 0) || (r =? 1) || (r =? 2)))
    then Kind.Branch else Kind.Unsafe
  else Kind.Unsafe.

Definition classifyLine4 (op : Z) : Kind :=
  if op .& 0xFF00 =? 0x4E00 then classify4E op
  else if op .& 0xFFF8 =? 0x40C0 then Kind.Alu
  else if (op .& 0xFFC0 =? 0x40C0) || (op .& 0xFFC0 =? 0x42C0) ||
          (op .& 0xFFC0 =? 0x44C0) || (op .& 0xFFC0 =? 0x46C0)
  then Kind.Unsafe
  else if op .& 0xFFC0 =? 0x4AC0 then Kind.Unsafe
  else if op .& 0xFFF8 =? 0x4848 then Kind.Unsafe
  else if op .& 0xFB80 =? 0x4880 then Kind.Multi
  else if op .& 0xFF80 =? 0x4C00 then Kind.Muldiv
  else if op .& 0xF1C0 =? 0x41C0 then Kind.AddrCalc
  else if op .& 0xFFC0 =? 0x4840 then Kind.AddrCalc
  else if (op .& 0xF1C0 =? 0x4180) || (op .& 0xF1C0 =? 0x4100)
  then Kind.Muldiv
  else Kind.Alu.

Definition classify (op : Z) : Kind :=
  let hi := op .& 0xF000 in
  if hi =? 0x0000 then classifyLine0 op
  else if (hi =? 0x1000) || (hi =? 0x2000) || (hi =? 0x3000) then Kind.Move
  else if hi =? 0x4000 then classifyLine4 op
  else if hi =? 0x5000
  then if op .& 0xF0F8 =? 0x50C8 then Kind.Branch
       else if op .& 0xF0F8 =? 0x50F8 then Kind.Unsafe
       else if op .& 0x00C0 =? 0x00C0 then Kind.Cond
       else Kind.Alu
  else if hi =? 0x6000 then Kind.Branch
  else if hi =? 0x7000 then Kind.Move
  else if (hi =? 0x8000) || (hi =? 0xC000)
  then if (op .& 0x01C0 =? 0x00C0) || (op .& 0x01C0 =? 0x01C0)
       then Kind.Muldiv else Kind.Alu
  else if (hi =? 0x9000) || (hi =? 0xB000) || (hi =? 0xD000) then Kind.Alu
  else if hi =? 0xA000 then Kind.Unsafe
  else if hi =? 0xE000 then Kind.Shift
  else if op .& 0xFFC0 =? 0xF200 then Kind.Fpu
  else Kind.Unsafe.

Definition endsBlock (k : Kind) : bool := k == Kind.Unsafe.
Definition endsBlockAfter (k : Kind) : bool := k == Kind.Branch.

(** ** Encoded length of a branch *)

Definition indexedExtensionWords (ext : Z) : Z :=
  if ext .& 0x0100 =? 0 then 1
  else
    let bd := (ext .>> 4) .& 3 in
    let iis := ext .& 7 in
    if (ext .& 0x0008 <>? 0) || (bd =? 0) || (iis =? 4) then 1
    else
      let base := if bd =? 2 then 1 else if bd =? 3 then 2 else 0 in
      let outer := if (iis =? 2) || (iis =? 6) then 1
                   else if (iis =? 3) || (iis =? 7) then 2 else 0 in
      1 + base + outer.

Definition branchWords (op indexExtension : Z) : Z :=
  if op .& 0xF000 =? 0x6000
  then
    let d := op .& 0xFF in
    if d =? 0x00 then 2 else if d =? 0xFF then 3 else 1
  else if op =? 0x4E75 then 1
  else if op .& 0xFF80 =? 0x4E80
  then
    let mode := (op .>> 3) .& 7 in
    let reg := op .& 7 in
    if mode =? 2 then 1
    else if mode =? 5 then 2
    else if mode =? 6 then 1 + indexedExtensionWords indexExtension
    else if mode =? 7
    then
      if reg =? 0 then 2
      else if reg =? 1 then 3
      else if reg =? 3 then 1 + indexedExtensionWords indexExtension
      else 2
    else 1
  else 2.

(** ** Trap flag *)

Definition instrFlags (op : Z) (k : Kind) : Z :=
  if k == Kind.Fpu then FlagMayTrap
  else if k != Kind.Muldiv then FlagNone
  else if sem_operation (describeInstruction op) == SemanticOp.MultiplyWord
  then FlagNone else FlagMayTrap.
