(* ===== verification/JitMemory.v ===== *)
(** * JitMemory: the data-access contract and the proof plans

    [describeMemory], [memoryProofPlan], [memoryAccessPlan] and the emitter
    cursor of [src/jit/JitIr.h].  [describeMemory] is a sequence of guarded
    early returns; each group of guards is one definition returning [None]
    when it falls through to the next. *)

From S2P Require Import Prelude.
From S2P Require Import JitTypes.
From S2P Require Import JitDecode.
From stdpp Require Import base list numbers option decidable.

Open Scope Z_scope.

(** ** Accesses *)

Definition memoryEa (mode reg : Z) : bool :=
  (2 <=? mode) && negb ((mode =? 7) && (reg =? 4)).

Definition memoryEaCommit (mode : Z) (is030 : bool) : EaCommit :=
  if mode =? 4 then EaCommit.BeforeAccess
  else if mode =? 3
  then if is030 then EaCommit.BeforeAccess else EaCommit.AfterAccess
  else EaCommit.None.

Definition memoryAccess (direction : MemoryDirection) (operand : MemoryOperand)
  (bytes mode reg : Z) (is030 : bool) (fault : FaultPhase) : MemoryAccess :=
  mkAccess direction operand bytes mode reg (memoryEaCommit mode is030) fault
    (if direction == MemoryDirection.Read then MemoryCacheRead
     else MemoryCacheWrite) false.

Definition replayableSpeculativeRead (a : MemoryAccessPlan) : bool :=
  ap_valid a && ap_single a && ap_preflight a &&
  (ap_direction a == MemoryDirection.Read) &&
  (ap_operand a == MemoryOperand.Source) &&
  (ap_fault a == FaultPhase.RestartInstruction) &&
  negb (ap_exactRequired a).

(** ** The contract of an opcode *)

(** The contract [describeMemory] starts from. *)
Definition described0 : MemoryContract := set_described true MemoryContract0.

(** The lambda [setSingle]. *)
Definition setSingle (a : MemoryAccess) (c : MemoryContract) : MemoryContract :=
  let c := set_access 0 a (set_order MemoryOrder.Single (set_count 1 c)) in
  if acc_direction a == MemoryDirection.Write then set_lastWrite 0 c else c.

(** The lambda [setRmw]. *)
Definition setRmw (bytes mode reg : Z) (is030 : bool) (operand : MemoryOperand)
  (c : MemoryContract) : MemoryContract :=
  set_lastWrite 1
    (set_access 1 (memoryAccess MemoryDirection.Write operand bytes mode reg
                     is030 FaultPhase.LastWrite)
      (set_access 0 (memoryAccess MemoryDirection.Read operand bytes mode reg
                       is030 FaultPhase.RestartInstruction)
        (set_order MemoryOrder.ReadModifyWrite (set_count 2 c)))).

(** MOVE / MOVEA: the source access precedes the destination access. *)
Definition memoryMove (op line : Z) (is030 : bool) (c : MemoryContract)
  : option MemoryContract :=
  if (line =? 0x1000) || (line =? 0x2000) || (line =? 0x3000)
  then
    let bytes := if line =? 0x1000 then 1 else if line =? 0x3000 then 2 else 4 in
    let sm := (op .>> 3) .& 7 in
    let sr := op .& 7 in
    let dm := (op .>> 6) .& 7 in
    let dr := (op .>> 9) .& 7 in
    let srcMem := memoryEa sm sr in
    let dstMem := memoryEa dm dr in
    let n := 0 in
    let '(n, c) :=
      if srcMem
      then
        let a := memoryAccess MemoryDirection.Read MemoryOperand.Source bytes
                   sm sr is030 FaultPhase.RestartInstruction in
        let a := set_exactRequired
                   (is030 && ((op =? 0x1029) || (op =? 0x1429))) a in
        (n + 1, set_access n a c)
      else (n, c) in
    let '(n, c) :=
      if dstMem
      then
        let sourceValue := (sm <=? 1) || ((sm =? 7) && (sr =? 4)) in
        let fault := if is030 && negb srcMem && sourceValue
                     then FaultPhase.RestartableLastWrite
                     else FaultPhase.LastWrite in
        let c := set_access n
                   (memoryAccess MemoryDirection.Write MemoryOperand.Destination
                      bytes dm dr is030 fault) c in
        (n + 1, set_lastWrite n c)
      else (n, c) in
    let c := set_count n c in
    let c := set_order (if n =? 0 then MemoryOrder.None
                        else if n =? 1 then MemoryOrder.Single
                        else MemoryOrder.SourceThenDestination) c in
    Some (set_cachePairProved
            ((n =? 2) && (bytes =? 4) && ((op =? 0x2F38) || (op =? 0x21DF))) c)
  else None.

(** RTS, BSR, JSR, LINK, PEA and UNLK: one implicit stack access. *)
Definition memoryStack (op line : Z) (is030 : bool) (c : MemoryContract)
  : option MemoryContract :=
  let mode := (op .>> 3) .& 7 in
  if op =? 0x4E75
  then Some (setSingle (memoryAccess MemoryDirection.Read MemoryOperand.Stack 4
                          3 7 is030 FaultPhase.RestartInstruction) c)
  else
    let bsr := (line =? 0x6000) && ((op .>> 8) .& 15 =? 1) in
    let jsr := op .& 0xFFC0 =? 0x4E80 in
    let link := op .& 0xFFF8 =? 0x4E50 in
    let pea := (op .& 0xFFC0 =? 0x4840) && (2 <=? mode) in
    if bsr || jsr || link || pea
    then Some (setSingle (memoryAccess MemoryDirection.Write MemoryOperand.Stack
                            4 4 7 is030 FaultPhase.LastWrite) c)
    else if op .& 0xFFF8 =? 0x4E58
    then Some (setSingle (memoryAccess MemoryDirection.Read MemoryOperand.Stack
                            4 2 (op .& 7) is030 FaultPhase.RestartInstruction) c)
    else None.

(** CMPM: two postincremented reads. *)
Definition memoryCmpm (op line : Z) (is030 : bool) (c : MemoryContract)
  : option MemoryContract :=
  if (line =? 0xB000) && (op .& 0xF138 =? 0xB108) && ((op .>> 6) .& 3 <=? 2)
  then
    let bytes := u8 (1 .<< ((op .>> 6) .& 3)) in
    Some (set_access 1
           (memoryAccess MemoryDirection.Read MemoryOperand.Destination bytes 3
              ((op .>> 9) .& 7) is030 FaultPhase.RestartInstruction)
           (set_access 0
             (memoryAccess MemoryDirection.Read MemoryOperand.Source bytes 3
                (op .& 7) is030 FaultPhase.RestartInstruction)
             (set_order MemoryOrder.SourceThenDestination (set_count 2 c))))
  else None.

(** MOVEM: a variable number of equal-width ordered accesses. *)
Definition memoryMovem (op : Z) (is030 : bool) (c : MemoryContract)
  : option MemoryContract :=
  let mode := (op .>> 3) .& 7 in
  let reg := op .& 7 in
  if (op .& 0xFB80 =? 0x4880) && (2 <=? mode)
  then
    let read := op .& 0x0400 <>? 0 in
    let bytes := if op .& 0x0040 =? 0 then 2 else 4 in
    let c := set_order (if mode =? 4 then MemoryOrder.RegisterDescending
                        else MemoryOrder.RegisterAscending)
               (set_count VariableCount c) in
    let a := memoryAccess
               (if read then MemoryDirection.Read else MemoryDirection.Write)
               MemoryOperand.RegisterList bytes mode reg is030
               (if read then FaultPhase.RestartInstruction
                else FaultPhase.LastWrite) in
    let c := set_access 0 (set_eaCommit EaCommit.PerElement a) c in
    Some (if read then c else set_lastWrite VariableLastWrite c)
  else None.

(** Static and dynamic bit operations: BTST reads, the others are RMW. *)
Definition memoryBit (op : Z) (is030 : bool) (c : MemoryContract)
  : option MemoryContract :=
  let mode := (op .>> 3) .& 7 in
  let reg := op .& 7 in
  let dynamicBit := op .& 0xF100 =? 0x0100 in
  let staticBit := op .& 0xFF00 =? 0x0800 in
  if (dynamicBit || staticBit) && memoryEa mode reg
  then
    if (op .>> 6) .& 3 =? 0
    then
      let a := memoryAccess MemoryDirection.Read MemoryOperand.Operand 1 mode
                 reg is030 FaultPhase.RestartInstruction in
      Some (setSingle (set_exactRequired (is030 && (op =? 0x0829)) a) c)
    else Some (setRmw 1 mode reg is030 MemoryOperand.Operand c)
  else None.

(** Immediate ALU memory destinations. *)
Definition memoryImmediate (op line : Z) (is030 : bool) (c : MemoryContract)
  : option MemoryContract :=
  let mode := (op .>> 3) .& 7 in
  let reg := op .& 7 in
  if (line =? 0x0000) && memoryEa mode reg
  then
    let kind := (op .>> 9) .& 7 in
    let sz := (op .>> 6) .& 3 in
    if (sz <=? 2) && ((kind =? 0) || (kind =? 1) || (kind =? 2) || (kind =? 3)
                      || (kind =? 5) || (kind =? 6))
    then
      let bytes := u8 (1 .<< sz) in
      if kind =? 6
      then Some (setSingle (memoryAccess MemoryDirection.Read
                              MemoryOperand.Destination bytes mode reg is030
                              FaultPhase.RestartInstruction) c)
      else Some (setRmw bytes mode reg is030 MemoryOperand.Destination c)
    else None
  else None.

(** ADDQ/SUBQ and Scc memory destinations. *)
Definition memoryLine5 (op line : Z) (is030 : bool) (c : MemoryContract)
  : option MemoryContract :=
  let mode := (op .>> 3) .& 7 in
  let reg := op .& 7 in
  if (line =? 0x5000) && (op .& 0x00C0 <>? 0x00C0) && memoryEa mode reg
  then
    let sz := (op .>> 6) .& 3 in
    Some (if sz <=? 2
          then setRmw (u8 (1 .<< sz)) mode reg is030 MemoryOperand.Destination c
          else c)
  else if (line =? 0x5000) && (op .& 0x00C0 =? 0x00C0) &&
          (op .& 0xF0F8 <>? 0x50C8) && memoryEa mode reg
  then Some (setSingle (memoryAccess MemoryDirection.Write
                          MemoryOperand.Destination 1 mode reg is030
                          FaultPhase.LastWrite) c)
  else None.

(** Word division, word multiplication and the 68020 long forms: one source
    read. *)
Definition memoryMulDiv (op line : Z) (is030 : bool) (c : MemoryContract)
  : option MemoryContract :=
  let mode := (op .>> 3) .& 7 in
  let reg := op .& 7 in
  let opmode := (op .>> 6) .& 7 in
  let sourceRead bytes :=
    if memoryEa mode reg
    then setSingle (memoryAccess MemoryDirection.Read MemoryOperand.Source bytes
                      mode reg is030 FaultPhase.RestartInstruction) c
    else c in
  if (line =? 0x8000) && ((opmode =? 3) || (opmode =? 7)) then Some (sourceRead 2)
  else if (line =? 0xC000) && ((opmode =? 3) || (opmode =? 7))
  then Some (sourceRead 2)
  else if (op .& 0xFFC0 =? 0x4C00) || (op .& 0xFFC0 =? 0x4C40)
  then Some (sourceRead 4)
  else None.

(** Register/effective-address ALU families. *)
Definition memoryAlu (op line : Z) (is030 : bool) (c : MemoryContract)
  : option MemoryContract :=
  let mode := (op .>> 3) .& 7 in
  let reg := op .& 7 in
  if isAluLine line
  then
    let direction := memoryAluDirection op in
    let opmode := (op .>> 6) .& 7 in
    let sz := if direction =? 0
              then if opmode <=? 2 then opmode
                   else if opmode =? 3 then 1 else 2
              else opmode - 4 in
    Some (if (0 <=? direction) && (0 <=? sz) && (sz <=? 2) && memoryEa mode reg
          then
            let bytes := u8 (1 .<< sz) in
            if direction =? 0
            then setSingle (memoryAccess MemoryDirection.Read
                              MemoryOperand.Source bytes mode reg is030
                              FaultPhase.RestartInstruction) c
            else setRmw bytes mode reg is030 MemoryOperand.Destination c
          else c)
  else None.

(** TST reads, CLR writes, NEG/NOT are read-modify-write. *)
Definition memoryUnary (op line : Z) (is030 : bool) (c : MemoryContract)
  : MemoryContract :=
  let mode := (op .>> 3) .& 7 in
  let reg := op .& 7 in
  if (line =? 0x4000) && ((op .>> 6) .& 3 <=? 2) && memoryEa mode reg
  then
    let bytes := u8 (1 .<< ((op .>> 6) .& 3)) in
    let family := op .& 0xFF00 in
    if family =? 0x4A00
    then
      let a := memoryAccess MemoryDirection.Read MemoryOperand.Operand bytes
                 mode reg is030 FaultPhase.RestartInstruction in
      setSingle (set_exactRequired (is030 && (op =? 0x4A11)) a) c
    else if family =? 0x4200
    then setSingle (memoryAccess MemoryDirection.Write MemoryOperand.Destination
                      bytes mode reg is030 FaultPhase.LastWrite) c
    else if (family =? 0x4400) || (family =? 0x4600)
    then setRmw bytes mode reg is030 MemoryOperand.Destination c
    else c
  else c.

Definition describeMemory (op : Z) (is030 : bool) : MemoryContract :=
  let c := described0 in
  let line := op .& 0xF000 in
  memoryMove op line is030 c orelse
  memoryStack op line is030 c orelse
  memoryCmpm op line is030 c orelse
  memoryMovem op is030 c orelse
  memoryBit op is030 c orelse
  memoryImmediate op line is030 c orelse
  memoryLine5 op line is030 c orelse
  memoryMulDiv op line is030 c orelse
  memoryAlu op line is030 c orelse
  memoryUnary op line is030 c.

(** ** The proof plan of a contract *)

(** The lambda [thunkAllowed]. *)
Definition thunkAllowed (c : MemoryContract) (o : MemoryProofOptions) (i : Z)
  : bool :=
  let a := access c i in
  if acc_exactRequired a then true
  else if acc_direction a == MemoryDirection.Read then opt_exactReads o
  else opt_exactWrites o &&
       (negb (opt_restartableWriteRequired o) ||
        (acc_fault a == FaultPhase.RestartableLastWrite)).

(** The lambda [cacheAllowed]. *)
Definition cacheAllowed (c : MemoryContract) (o : MemoryProofOptions) (i : Z)
  : bool :=
  let a := access c i in
  if acc_exactRequired a then false
  else if acc_direction a == MemoryDirection.Read
  then opt_cacheReads o && (acc_cache a .& MemoryCacheRead <>? 0)
  else opt_cacheWrites o && (acc_cache a .& MemoryCacheWrite <>? 0).

(** The negation of the long condition that rejects every three- or
    four-access contract but the crossing bitfield. *)
Definition crossingBitfieldShape (c : MemoryContract) : bool :=
  let a0 := access c 0 in
  let a1 := access c 1 in
  let a2 := access c 2 in
  let a3 := access c 3 in
  (mc_count c =? MaxAccesses) &&
  (mc_order c == MemoryOrder.Sequential) && (mc_lastWrite c =? 3) &&
  (acc_direction a0 == MemoryDirection.Read) &&
  (acc_direction a1 == MemoryDirection.Write) &&
  (acc_direction a2 == MemoryDirection.Read) &&
  (acc_direction a3 == MemoryDirection.Write) &&
  (acc_operand a0 == MemoryOperand.Operand) &&
  (acc_operand a1 == MemoryOperand.Operand) &&
  (acc_operand a2 == MemoryOperand.Operand) &&
  (acc_operand a3 == MemoryOperand.Operand) &&
  (acc_bytes a0 =? 4) && (acc_bytes a1 =? 4) &&
  (acc_bytes a2 =? 1) && (acc_bytes a3 =? 1) &&
  (acc_eaMode a1 =? acc_eaMode a0) && (acc_eaMode a2 =? acc_eaMode a0) &&
  (acc_eaMode a3 =? acc_eaMode a0) &&
  (acc_eaReg a1 =? acc_eaReg a0) && (acc_eaReg a2 =? acc_eaReg a0) &&
  (acc_eaReg a3 =? acc_eaReg a0) &&
  (acc_fault a0 == FaultPhase.RestartInstruction) &&
  (acc_fault a1 == FaultPhase.PartialWriteCommitted) &&
  (acc_fault a2 == FaultPhase.PartialWriteCommitted) &&
  (acc_fault a3 == FaultPhase.LastWrite).

Definition memoryProofPlan (c : MemoryContract) (o : MemoryProofOptions)
  : MemoryProofPlan :=
  let p := mkProof MemoryProofProtocol.Interpreter 0 0 0 (mc_lastWrite c)
             ((mc_lastWrite c <? mc_count c) && (mc_lastWrite c <? MaxAccesses)
              && (acc_fault (access c (mc_lastWrite c))
                    == FaultPhase.RestartableLastWrite)) in
  if negb (mc_described c) then p
  else if mc_count c =? 0 then set_protocol MemoryProofProtocol.None p
  else if mc_count c =? VariableCount
  then set_preflightMask 1 (set_protocol MemoryProofProtocol.OrderedSpan p)
  else if MaxAccesses <? mc_count c then p
  else if 2 <? mc_count c
  then
    if negb (crossingBitfieldShape c) then p
    else set_preflightMask (u8 ((1 .<< mc_count c) - 1))
           (set_protocol MemoryProofProtocol.PreflightAll p)
  else if mc_count c =? 1
  then
    let read := acc_direction (access c 0) == MemoryDirection.Read in
    let p := set_protocol (if read then MemoryProofProtocol.SingleRead
                           else MemoryProofProtocol.SingleWrite) p in
    let p := set_preflightMask 1 p in
    let p := if thunkAllowed c o 0 then set_exactThunkMask 1 p else p in
    if cacheAllowed c o 0 then set_cacheMask 1 p else p
  else
    let p := set_preflightMask 3 p in
    if mc_order c == MemoryOrder.ReadModifyWrite
    then set_protocol MemoryProofProtocol.ReadModifyWrite p
    else if mc_cachePairProved c && opt_cachePairs o && cacheAllowed c o 0 &&
            cacheAllowed c o 1 &&
            (acc_direction (access c 0) == MemoryDirection.Read) &&
            (acc_direction (access c 1) == MemoryDirection.Write)
    then set_cacheMask 3 (set_protocol MemoryProofProtocol.AtomicCachePair p)
    else
      let p := set_protocol MemoryProofProtocol.PreflightAll p in
      if (mc_order c == MemoryOrder.SourceThenDestination) &&
         (acc_direction (access c 0) == MemoryDirection.Read) &&
         (acc_direction (access c 1) == MemoryDirection.Write) &&
         opt_preflightedExactSource o && thunkAllowed c o 0
      then set_exactThunkMask 1 p else p.

(** ** Access tokens *)

(** The slots the token search scans. *)
Definition contractSlots (c : MemoryContract) : Z :=
  if mc_count c =? VariableCount then 1 else mc_count c.

Definition accessMatches (a : MemoryAccess) (direction : MemoryDirection)
  (operand : MemoryOperand) (bytes mode reg : Z) : bool :=
  negb ((acc_direction a != direction) || (acc_operand a != operand) ||
        (acc_bytes a <>? bytes) || (acc_eaMode a <>? mode) ||
        (acc_eaReg a <>? reg)).

(** The token minted for slot [i]. *)
Definition tokenOf (c : MemoryContract) (proof : MemoryProofPlan) (i : Z)
  : MemoryAccessPlan :=
  let a := access c i in
  let bit := u8 (1 .<< i) in
  mkToken (pp_protocol proof) (u8 i) (acc_direction a) (acc_operand a)
    (acc_bytes a) (acc_eaCommit a) (acc_fault a)
    (pp_preflightMask proof .& bit <>? 0)
    (pp_exactThunkMask proof .& bit <>? 0)
    (acc_exactRequired a)
    (pp_cacheMask proof .& bit <>? 0).

(** The loop over the slots [i], [i+1], ... ([n] of them): a second match
    returns the invalid token. *)
Fixpoint tokenScan (c : MemoryContract) (proof : MemoryProofPlan)
  (direction : MemoryDirection) (operand : MemoryOperand)
  (bytes mode reg : Z) (n : nat) (i : Z) (result : MemoryAccessPlan)
  : MemoryAccessPlan :=
  match n with
  | O => result
  | S n =>
      if negb (accessMatches (access c i) direction operand bytes mode reg)
      then tokenScan c proof direction operand bytes mode reg n (i + 1) result
      else if ap_valid result then MemoryAccessPlan0
      else tokenScan c proof direction operand bytes mode reg n (i + 1)
             (tokenOf c proof i)
  end.

Definition memoryAccessPlan (c : MemoryContract) (proof : MemoryProofPlan)
  (direction : MemoryDirection) (operand : MemoryOperand)
  (bytes mode reg : Z) : MemoryAccessPlan :=
  let result := MemoryAccessPlan0 in
  if negb (pp_valid proof) || (mc_count c =? 0) then result
  else
    let slots := contractSlots c in
    if MaxAccesses <? slots then result
    else tokenScan c proof direction operand bytes mode reg (Z.to_nat slots) 0
           result.

Definition memoryContractMask (c : MemoryContract) : Z :=
  if mc_count c =? 0 then 0
  else if mc_count c =? VariableCount then 1
  else if mc_count c <=? MaxAccesses then u8 ((1 .<< mc_count c) - 1) else 0xFF.

Definition memoryAccessesAccounted (c : MemoryContract)
  (proof : MemoryProofPlan) (consumedMask : Z) : bool :=
  pp_valid proof && (memoryContractMask c <>? 0xFF) &&
  (consumedMask =? memoryContractMask c).

(** ** The emitter cursor *)

Record InstructionMemoryPlan := mkCursor {
  cur_contract : option MemoryContract;
  cur_proof : MemoryProofPlan;
  cur_consumedMask : Z
}.

(** [InstructionMemoryPlan::access]: the token and the updated cursor. *)
Definition cursorAccess (direction : MemoryDirection) (operand : MemoryOperand)
  (bytes mode reg : Z) (p : InstructionMemoryPlan)
  : MemoryAccessPlan * InstructionMemoryPlan :=
  let a := match cur_contract p with
           | Some c => memoryAccessPlan c (cur_proof p) direction operand bytes
                         mode reg
           | None => MemoryAccessPlan0
           end in
  if negb (ap_valid a) || (cur_consumedMask p .& ap_mask a <>? 0)
  then (MemoryAccessPlan0, p)
  else (a, mkCursor (cur_contract p) (cur_proof p)
             (u8 (cur_consumedMask p .| ap_mask a))).

(** [InstructionMemoryPlan::complete]. *)
Definition cursorComplete (p : InstructionMemoryPlan) : bool :=
  match cur_contract p with
  | Some c => memoryAccessesAccounted c (cur_proof p) (cur_consumedMask p)
  | None => false
  end.

Definition instructionMemoryPlan (c : MemoryContract) (o : MemoryProofOptions)
  : InstructionMemoryPlan :=
  mkCursor (Some c) (memoryProofPlan c o) 0.

(** ** Token pairs and sequences *)

Definition memoryRmwAccessPair (read write : MemoryAccessPlan) : bool :=
  ap_valid read && ap_valid write &&
  (ap_protocol read == MemoryProofProtocol.ReadModifyWrite) &&
  (ap_protocol write == MemoryProofProtocol.ReadModifyWrite) &&
  (ap_direction read == MemoryDirection.Read) &&
  (ap_direction write == MemoryDirection.Write) &&
  (ap_operand read == ap_operand write) && (ap_bytes read =? ap_bytes write) &&
  ap_preflight read && ap_preflight write &&
  (u8 (ap_mask read .| ap_mask write) =? 3).

(** One iteration of the slot loop of [memoryRmwTailAccessSequence]. *)
Definition tailSlot (a : MemoryAccessPlan) (i : Z) : bool :=
  negb (negb (ap_valid a) || (ap_index a <>? i) ||
        (ap_protocol a != MemoryProofProtocol.PreflightAll) ||
        negb (ap_preflight a) || ap_exactThunk a || ap_cache a).

Definition memoryRmwTailAccessSequence
  (readLong writeLong readTail writeTail : MemoryAccessPlan) : bool :=
  tailSlot readLong 0 && tailSlot writeLong 1 && tailSlot readTail 2 &&
  tailSlot writeTail 3 &&
  (ap_direction readLong == MemoryDirection.Read) &&
  (ap_direction writeLong == MemoryDirection.Write) &&
  (ap_direction readTail == MemoryDirection.Read) &&
  (ap_direction writeTail == MemoryDirection.Write) &&
  (ap_operand readLong == MemoryOperand.Operand) &&
  (ap_operand writeLong == ap_operand readLong) &&
  (ap_operand readTail == ap_operand readLong) &&
  (ap_operand writeTail == ap_operand readLong) &&
  (ap_bytes readLong =? 4) && (ap_bytes writeLong =? 4) &&
  (ap_bytes readTail =? 1) && (ap_bytes writeTail =? 1) &&
  (ap_fault readLong == FaultPhase.RestartInstruction) &&
  (ap_fault writeLong == FaultPhase.PartialWriteCommitted) &&
  (ap_fault readTail == FaultPhase.PartialWriteCommitted) &&
  (ap_fault writeTail == FaultPhase.LastWrite).

(** The loop of [memoryRequiresExactAccess] over [n] slots from [i]. *)
Fixpoint exactScan (c : MemoryContract) (n : nat) (i : Z) : bool :=
  match n with
  | O => false
  | S n => if acc_exactRequired (access c i) then true else exactScan c n (i + 1)
  end.

Definition memoryRequiresExactAccess (c : MemoryContract) : bool :=
  let slots := contractSlots c in
  if MaxAccesses <? slots then false else exactScan c (Z.to_nat slots) 0.
