(* ===== verification/JitEa.v ===== *)
(** * JitEa: effective addresses, contract refinement and control flow

    The functions of [src/jit/JitIr.h] that read the extension words recorded
    on an [Instr]: [decodeEffectiveAddress], [describeEffectiveAddresses],
    [refineMemoryFromExtensions], [describeControlFlow] and
    [provedLinearControlFetch030].  A function that mutates [Instr& in]
    returns the new instruction. *)

From S2P Require Import Prelude.
From S2P Require Import JitTypes.
From S2P Require Import JitDecode.
From S2P Require Import JitMemory.
From stdpp Require Import base list numbers option decidable.

Open Scope Z_scope.

(** ** Effective-address decoding *)

(** The lambdas [word] and [need]. *)
Definition ea_word (i : Instr) (extensionOffset n : Z) : Z :=
  extensionWord i (extensionOffset + n).
Definition ea_need (i : Instr) (extensionOffset n : Z) : bool :=
  extensionOffset + n <=? in_extensionCount i.

(** [uint32_t(word(n)) << 16 | word(n + 1)]. *)
Definition ea_long (i : Instr) (extensionOffset n : Z) : Z :=
  u32 (ea_word i extensionOffset n .<< 16) .| ea_word i extensionOffset (n + 1).

(** The displacements of a full-format extension: base, then outer. *)
Definition decodeDisplacements (i : Instr) (offset : Z)
  (e : DecodedEffectiveAddress) : DecodedEffectiveAddress :=
  let cursor := 1 in
  let '(cursor, e) :=
    if ea_baseDisplacementWords e =? 1
    then (cursor + 1, set_baseDisplacement (s16 (ea_word i offset cursor)) e)
    else if ea_baseDisplacementWords e =? 2
    then (cursor + 2, set_baseDisplacement (s32 (ea_long i offset cursor)) e)
    else (cursor, e) in
  let e :=
    if ea_outerDisplacementWords e =? 1
    then set_outerDisplacement (s16 (ea_word i offset cursor)) e
    else if ea_outerDisplacementWords e =? 2
    then set_outerDisplacement (s32 (ea_long i offset cursor)) e
    else e in
  set_valid true e.

(** The MC68020 full extension word. *)
Definition decodeFullIndex (i : Instr) (offset mode ext : Z)
  (e : DecodedEffectiveAddress) : DecodedEffectiveAddress :=
  let e := set_kind (if mode =? 6 then EffectiveAddressKind.FullIndex
                     else EffectiveAddressKind.PcFullIndex) e in
  let e := set_fullFormat true e in
  let e := set_baseSuppressed (ext .& 0x0080 <>? 0) e in
  let e := set_indexSuppressed (ext .& 0x0040 <>? 0) e in
  let bd := (ext .>> 4) .& 3 in
  let iis := ext .& 7 in
  if (ext .& 0x0008 <>? 0) || (bd =? 0) || (iis =? 4) then e
  else
    let e := set_baseDisplacementWords
               (if bd =? 2 then 1 else if bd =? 3 then 2 else 0) e in
    let e := set_outerDisplacementWords
               (if (iis =? 2) || (iis =? 6) then 1
                else if (iis =? 3) || (iis =? 7) then 2 else 0) e in
    let e := set_indirect
               (if iis =? 0 then IndexIndirect.None
                else if iis <=? 3 then IndexIndirect.Preindexed
                else IndexIndirect.Postindexed) e in
    let e := set_extensionWords
               (u8 (1 + ea_baseDisplacementWords e
                      + ea_outerDisplacementWords e)) e in
    if negb (ea_need i offset (ea_extensionWords e)) then e
    else decodeDisplacements i offset e.

(** Mode 6 and mode 7.3: brief or full indexed. *)
Definition decodeIndexed (i : Instr) (offset mode : Z)
  (e : DecodedEffectiveAddress) : DecodedEffectiveAddress :=
  let e := set_kind (if mode =? 6 then EffectiveAddressKind.BriefIndex
                     else EffectiveAddressKind.PcBriefIndex) e in
  let e := set_extensionWords 1 e in
  if negb (ea_need i offset 1) then e
  else
    let ext := ea_word i offset 0 in
    let e := set_indexRegister
               (u8 (((ext .>> 12) .& 7) +
                    (if ext .& 0x8000 =? 0 then 0 else 8))) e in
    let e := set_indexLong (ext .& 0x0800 <>? 0) e in
    let e := set_indexShift ((ext .>> 9) .& 3) e in
    if ext .& 0x0100 =? 0
    then set_valid true (set_value (s8 (ext .& 0xFF)) e)
    else decodeFullIndex i offset mode ext e.

(** Mode 7, registers 0, 1, 2 and 4. *)
Definition decodeMode7 (i : Instr) (offset reg sizeIndex : Z)
  (e : DecodedEffectiveAddress) : DecodedEffectiveAddress :=
  if reg =? 0
  then set_value (s16 (ea_word i offset 0))
         (set_valid (ea_need i offset 1)
           (set_extensionWords 1
             (set_kind EffectiveAddressKind.AbsoluteWord e)))
  else if reg =? 1
  then set_value (s32 (ea_long i offset 0))
         (set_valid (ea_need i offset 2)
           (set_extensionWords 2
             (set_kind EffectiveAddressKind.AbsoluteLong e)))
  else if reg =? 2
  then set_value (s32 (u32 (ea_extensionAddress e
                            + u32 (s16 (ea_word i offset 0)))))
         (set_valid (ea_need i offset 1)
           (set_extensionWords 1
             (set_kind EffectiveAddressKind.PcDisplacement e)))
  else if reg =? 4
  then
    let words := if sizeIndex =? 2 then 2 else 1 in
    set_value (if sizeIndex =? 2 then s32 (ea_long i offset 0)
               else if sizeIndex =? 1 then s16 (ea_word i offset 0)
               else s8 (ea_word i offset 0 .& 0xFF))
      (set_valid (ea_need i offset words)
        (set_extensionWords words
          (set_kind EffectiveAddressKind.Immediate e)))
  else e.

Definition decodeEffectiveAddress (i : Instr) (role : OperandRole)
  (mode reg sizeIndex extensionOffset : Z) : DecodedEffectiveAddress :=
  let e := set_role role DecodedEffectiveAddress0 in
  let e := set_mode mode e in
  let e := set_reg reg e in
  let e := set_easize sizeIndex e in
  let e := set_extensionOffset extensionOffset e in
  let e := set_extensionAddress
             (u32 (in_pc i + 2 + u32 (extensionOffset * 2))) e in
  if mode <=? 4
  then set_valid true
         (set_kind (if mode =? 0 then EffectiveAddressKind.DataRegister
                    else if mode =? 1 then EffectiveAddressKind.AddressRegister
                    else if mode =? 2 then EffectiveAddressKind.AddressIndirect
                    else if mode =? 3 then EffectiveAddressKind.PostIncrement
                    else EffectiveAddressKind.PreDecrement) e)
  else if mode =? 5
  then set_value (s16 (ea_word i extensionOffset 0))
         (set_valid (ea_need i extensionOffset 1)
           (set_extensionWords 1
             (set_kind EffectiveAddressKind.Displacement e)))
  else if (mode =? 6) || ((mode =? 7) && (reg =? 3))
  then decodeIndexed i extensionOffset mode e
  else if mode <>? 7 then e
  else decodeMode7 i extensionOffset reg sizeIndex e.

(** The lambda [add]: the number of extension words used and the instruction
    with one more operand plan. *)
Definition addEa (role : OperandRole) (mode reg size offset : Z) (i : Instr)
  : Z * Instr :=
  let n := in_effectiveAddressCount i in
  if Z.of_nat (length (in_effectiveAddresses i)) <=? n then (0, i)
  else
    let e := decodeEffectiveAddress i role mode reg size offset in
    (ea_extensionWords e,
     set_effectiveAddressCount (u8 (n + 1))
       (set_effectiveAddresses
          (<[Z.to_nat n := e]> (in_effectiveAddresses i)) i)).

Definition describeEffectiveAddresses (i : Instr) : Instr :=
  let i := set_effectiveAddressCount 0 i in
  let s := in_semantics i in
  let mode := sem_eaMode s in
  let reg := sem_eaReg s in
  let size := sem_sizeIndex s in
  match sem_operation s with
  | SemanticOp.Move =>
      let '(used, i) := addEa OperandRole.Source mode reg size 0 i in
      snd (addEa OperandRole.Destination (sem_destinationMode s)
             (sem_destinationReg s) size used i)
  | SemanticOp.CompareMemory =>
      let '(_, i) := addEa OperandRole.Source 3 reg size 0 i in
      snd (addEa OperandRole.Destination 3 (sem_destinationReg s) size 0 i)
  | SemanticOp.ImmediateAlu =>
      let '(used, i) := addEa OperandRole.Source 7 4 size 0 i in
      snd (addEa OperandRole.Destination mode reg size used i)
  | SemanticOp.Bit =>
      let '(used, i) :=
        if negb (sem_dynamic s) then addEa OperandRole.Source 7 4 0 0 i
        else (0, i) in
      snd (addEa OperandRole.Operand mode reg size used i)
  | SemanticOp.Movem => snd (addEa OperandRole.Operand mode reg size 1 i)
  | SemanticOp.Bitfield => snd (addEa OperandRole.Operand mode reg 2 1 i)
  | SemanticOp.DivideWord | SemanticOp.MultiplyWord =>
      snd (addEa OperandRole.Source mode reg 1 0 i)
  | SemanticOp.MultiplyLong | SemanticOp.DivideLong =>
      snd (addEa OperandRole.Source mode reg 2 1 i)
  | SemanticOp.Lea | SemanticOp.Pea | SemanticOp.JumpSubroutine
  | SemanticOp.Jump =>
      snd (addEa OperandRole.Control mode reg size 0 i)
  | SemanticOp.AluEaToReg | SemanticOp.AddressAlu =>
      snd (addEa OperandRole.Source mode reg size 0 i)
  | SemanticOp.AluRegToEa | SemanticOp.AddSubQuick | SemanticOp.SetCondition
  | SemanticOp.Clear | SemanticOp.Negate | SemanticOp.Complement =>
      snd (addEa OperandRole.Destination mode reg size 0 i)
  | SemanticOp.Test => snd (addEa OperandRole.Operand mode reg size 0 i)
  | _ => i
  end.

(** The first recorded operand plan satisfying [p]: the linear scans over
    [effectiveAddresses[0 .. effectiveAddressCount - 1]]. *)
Definition scanEas (p : DecodedEffectiveAddress -> bool) (i : Instr)
  : option DecodedEffectiveAddress :=
  List.find p (take (Z.to_nat (in_effectiveAddressCount i))
                 (in_effectiveAddresses i)).

Definition findEffectiveAddress (i : Instr)
  (mode reg sizeIndex extensionOffset : Z) : option DecodedEffectiveAddress :=
  scanEas (fun e => (ea_mode e =? mode) && (ea_reg e =? reg) &&
                    (ea_sizeIndex e =? sizeIndex) &&
                    (ea_extensionOffset e =? extensionOffset)) i.

Definition immediateValue (i : Instr) (sizeIndex extensionOffset : Z) : Z :=
  if sizeIndex =? 2 then extensionLong i extensionOffset
  else if sizeIndex =? 0 then extensionWord i extensionOffset .& 0xFF
  else extensionWord i extensionOffset.

(** ** Contract refinement *)

Definition memoryBitfieldFitsLongword (ext : Z) : bool :=
  let maxBitOffset := if ext .& 0x0800 =? 0 then (ext .>> 6) .& 7 else 7 in
  let maxWidth := if ext .& 0x0020 =? 0
                  then (u32 ((ext .& 31) - 1) .& 31) + 1 else 32 in
  maxBitOffset + maxWidth <=? 32.

(** The device-aperture rule for MOVE.B #imm,$1A00(A1). *)
Definition refineExactStore (i : Instr) (is030 : bool) : Instr :=
  let m := in_memory i in
  if is030 && (in_opcode i =? 0x137C) && (2 <=? in_extensionCount i) &&
     (extensionWord i 1 =? 0x1A00) && (mc_count m =? 1) &&
     (acc_direction (access m 0) == MemoryDirection.Write) &&
     (acc_operand (access m 0) == MemoryOperand.Destination)
  then set_memory (set_access 0 (set_exactRequired true (access m 0)) m) i
  else i.

(** The contract of a memory bitfield, from its extension word. *)
Definition bitfieldContract (s : InstructionSemantics) (ext : Z) (is030 : bool)
  : MemoryContract :=
  let readOnly := (sem_action s =? 0) || (sem_action s =? 1) ||
                  (sem_action s =? 3) || (sem_action s =? 5) in
  let operand direction bytes fault :=
    memoryAccess direction MemoryOperand.Operand bytes (sem_eaMode s)
      (sem_eaReg s) is030 fault in
  if negb readOnly
  then
    let possibleTail := negb (memoryBitfieldFitsLongword ext) in
    let c := set_count (if possibleTail then 4 else 2) described0 in
    let c := set_order (if possibleTail then MemoryOrder.Sequential
                        else MemoryOrder.ReadModifyWrite) c in
    let c := set_access 0 (operand MemoryDirection.Read 4
                             FaultPhase.RestartInstruction) c in
    let c := set_access 1 (operand MemoryDirection.Write 4
                             (if possibleTail
                              then FaultPhase.PartialWriteCommitted
                              else FaultPhase.LastWrite)) c in
    let c := if possibleTail
             then set_access 3 (operand MemoryDirection.Write 1
                                  FaultPhase.LastWrite)
                    (set_access 2 (operand MemoryDirection.Read 1
                                     FaultPhase.PartialWriteCommitted) c)
             else c in
    set_lastWrite (if possibleTail then 3 else 1) c
  else
    let c := set_count (if memoryBitfieldFitsLongword ext then 1 else 2)
               described0 in
    let c := set_order (if mc_count c =? 1 then MemoryOrder.Single
                        else MemoryOrder.Sequential) c in
    let c := set_access 0 (operand MemoryDirection.Read 4
                             FaultPhase.RestartInstruction) c in
    if mc_count c =? 2
    then set_access 1 (operand MemoryDirection.Read 1
                         FaultPhase.RestartInstruction) c
    else c.

(** Pointer read, then the ordinary operand read. *)
Definition indirectReadContract (s : InstructionSemantics)
  (operand : MemoryOperand) (is030 : bool) : MemoryContract :=
  set_access 1
    (memoryAccess MemoryDirection.Read operand (u8 (1 .<< sem_sizeIndex s))
       (sem_eaMode s) (sem_eaReg s) is030 FaultPhase.RestartInstruction)
    (set_access 0
      (memoryAccess MemoryDirection.Read MemoryOperand.Control 4 (sem_eaMode s)
         (sem_eaReg s) is030 FaultPhase.RestartInstruction)
      (set_order MemoryOrder.Sequential (set_count 2 described0))).

(** Pointer read while computing a control target; JSR then pushes. *)
Definition indirectControlContract (s : InstructionSemantics) (is030 : bool)
  : MemoryContract :=
  let c := set_count (if sem_operation s == SemanticOp.JumpSubroutine
                      then 2 else 1) described0 in
  let c := set_order (if mc_count c =? 1 then MemoryOrder.Single
                      else MemoryOrder.SourceThenDestination) c in
  let c := set_access 0
             (memoryAccess MemoryDirection.Read MemoryOperand.Control 4
                (sem_eaMode s) (sem_eaReg s) is030
                FaultPhase.RestartInstruction) c in
  if mc_count c =? 2
  then set_access 1
         (memoryAccess MemoryDirection.Write MemoryOperand.Stack 4 4 7 is030
            FaultPhase.LastWrite) c
  else c.

(** The scan for the operand plan of a given role at extension offset 0. *)
Definition findRole (role : OperandRole) (i : Instr)
  : option DecodedEffectiveAddress :=
  let s := in_semantics i in
  scanEas (fun e => (ea_role e == role) && (ea_mode e =? sem_eaMode s) &&
                    (ea_reg e =? sem_eaReg s) &&
                    (ea_extensionOffset e =? 0)) i.

(** [ea && ea->valid && ea->fullFormat && ea->indirect != None]. *)
Definition indirectPlan (e : option DecodedEffectiveAddress) : bool :=
  match e with
  | Some e => ea_valid e && ea_fullFormat e &&
              (ea_indirect e != IndexIndirect.None)
  | None => false
  end.

Definition refineMemoryFromExtensions (i : Instr) (is030 : bool) : Instr :=
  let s := in_semantics i in
  let op := sem_operation s in
  if in_extensionCount i =? 0 then i
  else
    let i := refineExactStore i is030 in
    if (op == SemanticOp.Bitfield) && (sem_eaMode s <>? 0)
    then set_memory (bitfieldContract s (extensionWord i 0) is030) i
    else if (op == SemanticOp.Move) &&
            negb (memoryEa (sem_destinationMode s) (sem_destinationReg s)) &&
            indirectPlan (findRole OperandRole.Source i)
    then set_memory (indirectReadContract s MemoryOperand.Source is030) i
    else if (op == SemanticOp.Test) &&
            indirectPlan (findRole OperandRole.Operand i)
    then set_memory (indirectReadContract s MemoryOperand.Operand is030) i
    else if ((op == SemanticOp.AluEaToReg) || (op == SemanticOp.AddressAlu)) &&
            indirectPlan (findRole OperandRole.Source i)
    then set_memory (indirectReadContract s MemoryOperand.Source is030) i
    else if ((op == SemanticOp.Lea) || (op == SemanticOp.Jump) ||
             (op == SemanticOp.JumpSubroutine)) &&
            indirectPlan (findEffectiveAddress i (sem_eaMode s) (sem_eaReg s)
                            (sem_sizeIndex s) 0)
    then set_memory (indirectControlContract s is030) i
    else i.

(** ** Control flow *)

Definition branchDisplacement (i : Instr) : Z :=
  if in_words i =? 1 then s8 (in_opcode i .& 0xFF)
  else if in_words i =? 2 then s16 (extensionWord i 0)
  else s32 (extensionLong i 0).

(** The lambda [directDisplacement]. *)
Definition directDisplacement (i : Instr) (c : ControlFlowPlan)
  : ControlFlowPlan :=
  set_flowValid true
    (set_targetKnown true
      (set_target (u32 (in_pc i + 2 + u32 (branchDisplacement i))) c)).

(** JSR and JMP: the target is known for absolute and PC-displacement EAs. *)
Definition jumpFlow (i : Instr) (call : bool) (c : ControlFlowPlan)
  : ControlFlowPlan :=
  let s := in_semantics i in
  let c := set_flowKind (if call then ControlFlowKind.IndirectCall
                         else ControlFlowKind.IndirectJump) c in
  let c := set_pushesReturnAddress call c in
  let c := set_returnAddress (if call then cf_fallthrough c else 0) c in
  match findEffectiveAddress i (sem_eaMode s) (sem_eaReg s) (sem_sizeIndex s) 0
  with
  | Some e =>
      if negb (ea_valid e) || negb (ea_memory e) then c
      else
        let c :=
          if (ea_kind e == EffectiveAddressKind.AbsoluteWord) ||
             (ea_kind e == EffectiveAddressKind.AbsoluteLong) ||
             (ea_kind e == EffectiveAddressKind.PcDisplacement)
          then set_flowKind (if call then ControlFlowKind.DirectCall
                             else ControlFlowKind.DirectJump)
                 (set_targetKnown true (set_target (u32 (ea_value e)) c))
          else c in
        set_flowValid true c
  | None => c
  end.

Definition controlPlan (i : Instr) : ControlFlowPlan :=
  let s := in_semantics i in
  let c := set_flowCondition (sem_condition s)
             (set_fallthrough (u32 (in_pc i + u32 (in_words i * 2)))
               ControlFlowPlan0) in
  match sem_operation s with
  | SemanticOp.Branch =>
      directDisplacement i
        (set_conditional (sem_condition s <>? 0)
          (set_flowKind (if sem_condition s =? 0 then ControlFlowKind.DirectBranch
                         else ControlFlowKind.ConditionalBranch) c))
  | SemanticOp.BranchSubroutine =>
      directDisplacement i
        (set_returnAddress (cf_fallthrough c)
          (set_pushesReturnAddress true
            (set_flowKind ControlFlowKind.DirectCall c)))
  | SemanticOp.DecrementBranch =>
      directDisplacement i
        (set_conditional true (set_flowKind ControlFlowKind.DecrementBranch c))
  | SemanticOp.JumpSubroutine => jumpFlow i true c
  | SemanticOp.Jump => jumpFlow i false c
  | SemanticOp.ReturnSubroutine =>
      set_flowValid true (set_flowKind ControlFlowKind.Return c)
  | _ => c
  end.

Definition describeControlFlow (i : Instr) : Instr :=
  set_control (controlPlan i) i.

Definition provedLinearControlFetch030 (i : Instr) : bool :=
  let s := in_semantics i in
  let op := sem_operation s in
  let mode := sem_eaMode s in
  let reg := sem_eaReg s in
  let words := in_words i in
  let fetch := in_fetchWords i in
  if op == SemanticOp.Branch
  then (sem_condition s =? 0) && ((words =? 2) || (words =? 3)) &&
       (fetch =? words)
  else if op == SemanticOp.BranchSubroutine
  then (u8 (in_opcode i) =? 0xFF) && (words =? 3) && (fetch =? 3)
  else if (op != SemanticOp.JumpSubroutine) && (op != SemanticOp.Jump)
  then false
  else if (mode =? 5) || ((mode =? 7) && ((reg =? 0) || (reg =? 2)))
  then (words =? 2) && (fetch =? 2)
  else if (mode =? 7) && (reg =? 1) then (words =? 3) && (fetch =? 3)
  else if (op == SemanticOp.JumpSubroutine) &&
          ((mode =? 6) || ((mode =? 7) && (reg =? 3)))
  then
    if (words =? 2) && (1 <=? in_extensionCount i) &&
       (extensionWord i 0 .& 0x0100 =? 0)
    then fetch =? 2
    else (2 <=? words) && (fetch =? words + 1)
  else false.

(** ** The tracer's use of the representation ([JitEngine.cpp])

    [obs] carries the timing and queue fields the tracer observed on the CPU;
    the rest of the entry is computed from the opcode. *)
Definition traceInstr (obs : Instr) (at_ op words : Z) (is030 : bool) : Instr :=
  let i := set_words (u16 words) (set_opcode op (set_pc at_ obs)) in
  let i := set_instrKind (classify op) i in
  let i := set_flags (instrFlags op (classify op)) i in
  let i := set_memory (describeMemory op is030) i in
  set_semantics (describeInstruction op) i.

(** The extension payload copied out of the block's words. *)
Definition copyExtensions (b : BlockIr) (i : Instr) : Instr :=
  let n := u8 (Z.min (if 0 <? in_words i then in_words i - 1 else 0)
                 MaxExtensionWords) in
  let i := set_extensionCount n i in
  set_extensions
    (imap (fun k old => if Z.of_nat k <? n
                        then block_word b (u32 (in_pc i + 2 + u32 (Z.of_nat k * 2)))
                        else old) (in_extensions i)) i.

(** The per-instruction body of the finishing loop. *)
Definition materialise (b : BlockIr) (is030 : bool) (i : Instr) : Instr :=
  let i := copyExtensions b i in
  let i := describeEffectiveAddresses i in
  let i := refineMemoryFromExtensions i is030 in
  describeControlFlow i.
