(* ===== verification/JitMemoryFacts.v ===== *)
(** * JitMemoryFacts: the contract and its consumers

    Well-formedness of the contracts [describeMemory] publishes, safety of the
    proof plans, and soundness of the access tokens and of the emitter
    cursor. *)

From S2P Require Import Prelude.
From S2P Require Import JitTypes.
From S2P Require Import JitDecode.
From S2P Require Import JitMemory.
From stdpp Require Import base list numbers option decidable.

Open Scope Z_scope.

(** ** Well-formed contracts *)

(** The index of the last write among [l], whose first element has index [i];
    [d] when there is none. *)
Fixpoint lastWriteFrom (l : list MemoryAccess) (i d : Z) : Z :=
  match l with
  | [] => d
  | a :: l =>
      lastWriteFrom l (i + 1)
        (if acc_direction a == MemoryDirection.Write then i else d)
  end.

(** The accesses a fixed-count contract publishes. *)
Definition slotsOf (c : MemoryContract) : list MemoryAccess :=
  take (Z.to_nat (contractSlots c)) (mc_access c).

Definition expectedLastWrite (c : MemoryContract) : Z :=
  if mc_count c =? VariableCount
  then if acc_direction (access c 0) == MemoryDirection.Write
       then VariableLastWrite else NoLastWrite
  else lastWriteFrom (slotsOf c) 0 NoLastWrite.

(** The phase a fault on each access finds the instruction in: nothing
    written yet, a partial write committed, or the final write. *)
Fixpoint faultsFrom (l : list MemoryAccess) (wrote : bool) : bool :=
  match l with
  | [] => true
  | a :: l =>
      let write := acc_direction a == MemoryDirection.Write in
      let last := negb (existsb
        (fun b => acc_direction b == MemoryDirection.Write) l) in
      (if write && last
       then (acc_fault a == FaultPhase.LastWrite) ||
            (acc_fault a == FaultPhase.RestartableLastWrite)
       else if write || wrote
       then acc_fault a == FaultPhase.PartialWriteCommitted
       else acc_fault a == FaultPhase.RestartInstruction) &&
      faultsFrom l (wrote || write)
  end.

(** A cache token may only be granted in the access's own direction. *)
Definition cacheDirection (a : MemoryAccess) : bool :=
  acc_cache a =? (if acc_direction a == MemoryDirection.Read
                  then MemoryCacheRead else MemoryCacheWrite).

Record contract_wf (c : MemoryContract) : Prop := {
  wf_described : mc_described c = true;
  wf_slots : length (mc_access c) = 4%nat;
  wf_count : mc_count c ∈ [0; 1; 2; 4; VariableCount];
  wf_crossing : mc_count c = 4 -> crossingBitfieldShape c = true;
  wf_lastWrite : mc_lastWrite c = expectedLastWrite c;
  wf_faults : faultsFrom (slotsOf c) false = true;
  wf_cache : forallb cacheDirection (slotsOf c) = true
}.

(** The boolean of [contract_wf]. *)
Definition contract_ok (c : MemoryContract) : bool :=
  mc_described c && Nat.eqb (length (mc_access c)) 4 &&
  existsb (Z.eqb (mc_count c)) [0; 1; 2; 4; VariableCount] &&
  implb (mc_count c =? 4) (crossingBitfieldShape c) &&
  (mc_lastWrite c =? expectedLastWrite c) &&
  faultsFrom (slotsOf c) false && forallb cacheDirection (slotsOf c).

Lemma contract_ok_wf c : contract_ok c = true -> contract_wf c.
Proof.
  unfold contract_ok. rewrite !andb_true_iff, Nat.eqb_eq, Z.eqb_eq.
  intros [[[[[[? ?] Hc] Hx] ?] ?] ?]. split; try done.
  - apply existsb_exists in Hc. destruct Hc as [n [Hn He]].
    apply Z.eqb_eq in He. rewrite He. apply list_elem_of_In. exact Hn.
  - intros E. apply Z.eqb_eq in E. rewrite E in Hx. exact Hx.
Qed.

(** The identity of an access: what a backend's decode is matched against. *)
Definition sameKey (a b : MemoryAccess) : bool :=
  accessMatches a (acc_direction b) (acc_operand b) (acc_bytes b)
    (acc_eaMode b) (acc_eaReg b).

(** No two slots of a contract have the same identity. *)
Fixpoint distinctKeys (l : list MemoryAccess) : bool :=
  match l with
  | [] => true
  | a :: l => forallb (fun b => negb (sameKey a b) && negb (sameKey b a)) l
              && distinctKeys l
  end.

(** Everything checked of a contract at the point it is built. *)
Definition contract_good (c : MemoryContract) : bool :=
  contract_ok c && distinctKeys (slotsOf c).

Lemma setSingle_good d o b m r i f x :
  faultsFrom [memoryAccess d o b m r i f] false = true ->
  contract_good
    (setSingle (set_exactRequired x (memoryAccess d o b m r i f)) described0)
  = true.
Proof. destruct d, f; vm_compute; congruence. Qed.

Lemma setSingle_plain_good d o b m r i f :
  faultsFrom [memoryAccess d o b m r i f] false = true ->
  contract_good (setSingle (memoryAccess d o b m r i f) described0) = true.
Proof. exact (setSingle_good d o b m r i f false). Qed.

Lemma setRmw_good b m r i o :
  contract_good (setRmw b m r i o described0) = true.
Proof. reflexivity. Qed.

Lemma described0_good : contract_good described0 = true.
Proof. reflexivity. Qed.

#[export] Hint Resolve setSingle_good setSingle_plain_good setRmw_good
  described0_good : pom.

(** Close a stage of [describeMemory]: decide its tests, then use the lemma of
    the contract it builds. *)
Ltac stage_good :=
  intros;
  repeat match goal with
  | H : (if ?b then _ else _) = Some _ |- _ => destruct b; [|try discriminate H]
  end;
  try discriminate;
  repeat match goal with
  | H : Some _ = Some _ |- _ => injection H as <-
  end;
  split_tests; auto with pom.

Lemma memoryMove_good op line is030 c :
  memoryMove op line is030 described0 = Some c -> contract_good c = true.
Proof.
  unfold memoryMove. destruct (_ || _); [|discriminate].
  destruct (memoryEa ((op .>> 3) .& 7) _), (memoryEa ((op .>> 6) .& 7) _),
    is030; simpl negb;
    rewrite ?andb_false_r, ?andb_true_r, ?andb_true_l, ?andb_false_l;
    try destruct (((op .>> 3) .& 7 <=? 1) || _);
    intros [= <-]; reflexivity.
Qed.

Lemma memoryStack_good op line is030 c :
  memoryStack op line is030 described0 = Some c -> contract_good c = true.
Proof.
  unfold memoryStack. destruct (op =? _); [intros [= <-]; reflexivity|].
  destruct (_ || _); [intros [= <-]; reflexivity|].
  destruct (_ =? _); [intros [= <-]; reflexivity|discriminate].
Qed.

Lemma memoryCmpm_good op line is030 c :
  memoryCmpm op line is030 described0 = Some c -> contract_good c = true.
Proof.
  unfold memoryCmpm. destruct (_ && _); [intros [= <-]; reflexivity|discriminate].
Qed.

Lemma memoryMovem_good op is030 c :
  memoryMovem op is030 described0 = Some c -> contract_good c = true.
Proof.
  unfold memoryMovem. destruct (_ && _); [|discriminate].
  destruct (op .& 0x0400 =? 0), ((op .>> 3) .& 7 =? 4); intros [= <-];
    reflexivity.
Qed.

Lemma memoryBit_good op is030 c :
  memoryBit op is030 described0 = Some c -> contract_good c = true.
Proof. unfold memoryBit. destruct (_ && _); stage_good. Qed.

Lemma memoryImmediate_good op line is030 c :
  memoryImmediate op line is030 described0 = Some c -> contract_good c = true.
Proof.
  unfold memoryImmediate. destruct (_ && _); [|discriminate].
  destruct (_ && _); [|discriminate]. destruct (_ =? 6); stage_good.
Qed.

Lemma memoryLine5_good op line is030 c :
  memoryLine5 op line is030 described0 = Some c -> contract_good c = true.
Proof.
  unfold memoryLine5. destruct (_ && _); [stage_good|].
  destruct (_ && _); stage_good.
Qed.

Lemma memoryMulDiv_good op line is030 c :
  memoryMulDiv op line is030 described0 = Some c -> contract_good c = true.
Proof.
  unfold memoryMulDiv. destruct (_ && _); [stage_good|].
  destruct (_ && _); [stage_good|]. destruct (_ || _); stage_good.
Qed.

Lemma memoryAlu_good op line is030 c :
  memoryAlu op line is030 described0 = Some c -> contract_good c = true.
Proof. unfold memoryAlu. destruct (isAluLine line); stage_good. Qed.

Lemma memoryUnary_good op line is030 :
  contract_good (memoryUnary op line is030 described0) = true.
Proof. unfold memoryUnary. stage_good. Qed.

Lemma describeMemory_good op is030 :
  contract_good (describeMemory op is030) = true.
Proof.
  unfold describeMemory.
  repeat match goal with
  | |- context [match ?x with Some _ => _ | None => _ end] =>
      destruct x eqn:?
  end;
  eauto using memoryMove_good, memoryStack_good, memoryCmpm_good,
    memoryMovem_good, memoryBit_good, memoryImmediate_good, memoryLine5_good,
    memoryMulDiv_good, memoryAlu_good, memoryUnary_good.
Qed.

Lemma contract_good_wf c : contract_good c = true -> contract_wf c.
Proof.
  unfold contract_good. intros H. apply andb_true_iff in H as [H _].
  apply contract_ok_wf, H.
Qed.

(** ** Proof plans *)

(** Branch on each test of [memoryProofPlan] and evaluate the plan reached. *)
Ltac plan_cases :=
  unfold memoryProofPlan, pp_valid;
  repeat match goal with
  | |- context [if ?b then _ else _] =>
      lazymatch b with
      | context [if _ then _ else _] => fail
      | _ => destruct b eqn:?; cbn -[Z.land Z.shiftl u8 access thunkAllowed
          cacheAllowed crossingBitfieldShape]
      end
  end.

Lemma plan_preflights_mask c o :
  0 <= mc_count c < 256 -> pp_valid (memoryProofPlan c o) = true ->
  pp_preflightMask (memoryProofPlan c o) = memoryContractMask c.
Proof.
  intros Hc. unfold memoryContractMask. plan_cases; try done; unbool;
    unfold crossingBitfieldShape in *; unbool; unfold MaxAccesses in *;
    try lia; intros _.
  all: try (replace (mc_count c) with 1 by lia; reflexivity).
  all: try (replace (mc_count c) with 2 by lia; reflexivity).
  all: try (replace (mc_count c) with 4 by lia; reflexivity).
Qed.

Lemma wf_count_cases c :
  contract_wf c ->
  mc_count c = 0 \/ mc_count c = 1 \/ mc_count c = 2 \/ mc_count c = 4 \/
  mc_count c = VariableCount.
Proof.
  intros [_ _ H _ _ _ _]. apply list_elem_of_In in H. cbn in H. intuition auto.
Qed.

Lemma wf_count_range c : contract_wf c -> 0 <= mc_count c < 256.
Proof. intros H. apply wf_count_cases in H. unfold VariableCount in H. lia. Qed.

Lemma wf_slots_range c : contract_wf c -> 0 <= contractSlots c <= 4.
Proof.
  intros H. unfold contractSlots.
  destruct (wf_count_cases c H) as [-> | [-> | [-> | [-> | ->]]]]; cbn; lia.
Qed.

(** A well-formed contract always has a native protocol. *)
Lemma plan_valid c o : contract_wf c -> pp_valid (memoryProofPlan c o) = true.
Proof.
  intros H. pose proof (wf_count_cases c H) as Hc.
  destruct H as [Hd _ _ Hx _ _ _].
  destruct Hc as [Hc | [Hc | [Hc | [Hc | Hc]]]];
    unfold memoryProofPlan; rewrite Hd, Hc; cbn -[crossingBitfieldShape access
      thunkAllowed cacheAllowed];
    try reflexivity.
  - destruct (acc_direction _ == _), (thunkAllowed _ _ _), (cacheAllowed _ _ _);
      reflexivity.
  - destruct (mc_order c == _); [reflexivity|].
    destruct (_ && _); [reflexivity|]. destruct (_ && _); reflexivity.
  - rewrite (Hx Hc). reflexivity.
Qed.

Lemma testbit_1 i : Z.testbit 1 i = true -> i = 0.
Proof. intros Hi. destruct i as [|[p|p|]|p]; cbn in Hi; done. Qed.

Lemma testbit_3 i : Z.testbit 3 i = true -> i = 0 \/ i = 1.
Proof. intros Hi. destruct i as [|[[p|p|]|[p|p|]|]|p]; cbn in Hi; auto; done. Qed.

(** The masks of a plan, slot by slot. *)
Lemma plan_thunk_bit c o i :
  Z.testbit (pp_exactThunkMask (memoryProofPlan c o)) i = true ->
  i = 0 /\ thunkAllowed c o 0 = true.
Proof.
  plan_cases; rewrite ?Z.bits_0; try done; unbool; intros Hi;
    apply testbit_1 in Hi; auto.
Qed.

Lemma plan_cache_bit c o i :
  Z.testbit (pp_cacheMask (memoryProofPlan c o)) i = true ->
  (i = 0 \/ i = 1) /\ cacheAllowed c o i = true.
Proof.
  plan_cases; rewrite ?Z.bits_0; try done; unbool; intros Hi.
  all: first [apply testbit_1 in Hi as -> | apply testbit_3 in Hi as [-> | ->]];
    auto.
Qed.

Lemma thunkAllowed_spec c o i :
  thunkAllowed c o i = true ->
  acc_exactRequired (access c i) = true \/
  (acc_direction (access c i) = MemoryDirection.Read /\ opt_exactReads o = true) \/
  (acc_direction (access c i) = MemoryDirection.Write /\ opt_exactWrites o = true /\
   (opt_restartableWriteRequired o = true ->
    acc_fault (access c i) = FaultPhase.RestartableLastWrite)).
Proof.
  unfold thunkAllowed. destruct (acc_exactRequired _); [auto|].
  destruct (acc_direction _); cbn; intros H; [auto|].
  apply andb_true_iff in H as [He Hr]. right. right. repeat split; [exact He|].
  intros Hq. rewrite Hq in Hr. exact (bool_decide_eq_true_1 _ Hr).
Qed.

Lemma cacheAllowed_spec c o i :
  cacheAllowed c o i = true ->
  acc_exactRequired (access c i) = false /\
  match acc_direction (access c i) with
  | MemoryDirection.Read => opt_cacheReads o = true
  | MemoryDirection.Write => opt_cacheWrites o = true
  end.
Proof.
  unfold cacheAllowed. destruct (acc_exactRequired _); [done|].
  destruct (acc_direction _); cbn; intros H; apply andb_true_iff in H as [H _];
    auto.
Qed.

(** ** Access tokens *)

Section Tokens.
Context (c : MemoryContract) (proof : MemoryProofPlan).
Context (d : MemoryDirection) (o : MemoryOperand) (b m r : Z).

(** Slot [i] is the access asked for. *)
Let hit (i : Z) : bool := accessMatches (access c i) d o b m r.
Let scan := tokenScan c proof d o b m r.

Lemma tokenOf_valid i : 0 <= i < 4 -> ap_valid (tokenOf c proof i) = true.
Proof.
  intros H. unfold ap_valid, tokenOf. cbn. rewrite u8_small by lia.
  apply Z.ltb_lt. unfold MaxAccesses. lia.
Qed.

(** Once a token is held, a further hit voids it. *)
Lemma scan_held_hit n : forall i t j,
  ap_valid t = true -> i <= j < i + Z.of_nat n -> hit j = true ->
  scan n i t = MemoryAccessPlan0.
Proof.
  induction n as [|n IH]; intros i t j Ht Hj Hh; [lia|].
  cbn [scan tokenScan]. destruct (accessMatches _ d o b m r) eqn:E; cbn [negb].
  - by rewrite Ht.
  - apply (IH _ _ j); [exact Ht| |exact Hh].
    assert (j <> i) by (intros ->; unfold hit in Hh; congruence). lia.
Qed.

Lemma scan_held_miss n : forall i t,
  ap_valid t = true ->
  (forall k, i <= k < i + Z.of_nat n -> hit k = false) -> scan n i t = t.
Proof.
  induction n as [|n IH]; intros i t Ht Hm; [done|].
  cbn [scan tokenScan]. pose proof (Hm i ltac:(lia)) as E. unfold hit in E.
  rewrite E. cbn [negb]. apply IH; [exact Ht|]. intros k Hk. apply Hm. lia.
Qed.

(** A valid result is the token of the only hit. *)
Lemma scan_sound n : forall i t,
  ap_valid t = false -> 0 <= i -> i + Z.of_nat n <= 4 ->
  ap_valid (scan n i t) = true ->
  exists k, i <= k < i + Z.of_nat n /\ hit k = true /\
    scan n i t = tokenOf c proof k /\
    forall j, i <= j < i + Z.of_nat n -> hit j = true -> j = k.
Proof.
  induction n as [|n IH]; intros i t Ht Hi Hn Hv; [cbn in Hv; congruence|].
  cbn [scan tokenScan] in Hv |- *.
  destruct (accessMatches (access c i) d o b m r) eqn:E; cbn [negb] in *.
  - rewrite Ht in Hv |- *. cbn iota in Hv |- *.
    assert (Hu : forall j, i + 1 <= j < i + 1 + Z.of_nat n -> hit j = false).
    { intros j Hj. destruct (hit j) eqn:Hh; [|done].
      pose proof (scan_held_hit n (i + 1) (tokenOf c proof i) j
        (tokenOf_valid i ltac:(lia)) Hj Hh) as Hs.
      change (ap_valid (scan n (i + 1) (tokenOf c proof i)) = true) in Hv.
      rewrite Hs in Hv. done. }
    exists i. repeat split; [lia|lia|exact E| |].
    + apply scan_held_miss; [apply tokenOf_valid; lia|exact Hu].
    + intros j Hj Hh. destruct (Z.eq_dec j i) as [|]; [done|].
      rewrite Hu in Hh by lia. done.
  - destruct (IH (i + 1) t Ht) as [k [Hk [Hh [He Hu]]]]; [lia|lia|exact Hv|].
    exists k. repeat split; [lia|lia|exact Hh|exact He|].
    intros j Hj Hhj. destruct (Z.eq_dec j i) as [->|];
      [unfold hit in Hhj; congruence|]. apply Hu; [lia|exact Hhj].
Qed.

(** A single hit is found. *)
Lemma scan_complete n : forall i t k,
  ap_valid t = false -> 0 <= i -> i + Z.of_nat n <= 4 ->
  i <= k < i + Z.of_nat n -> hit k = true ->
  (forall j, i <= j < i + Z.of_nat n -> hit j = true -> j = k) ->
  scan n i t = tokenOf c proof k.
Proof.
  induction n as [|n IH]; intros i t k Ht Hi Hn Hk Hh Hu; [lia|].
  cbn [scan tokenScan].
  destruct (accessMatches (access c i) d o b m r) eqn:E; cbn [negb].
  - assert (k = i) as -> by (symmetry; apply Hu; [lia|exact E]). rewrite Ht.
    apply scan_held_miss; [apply tokenOf_valid; lia|]. intros j Hj.
    destruct (hit j) eqn:Hj'; [|done].
    pose proof (Hu j ltac:(lia) Hj'). lia.
  - assert (k <> i) by (intros ->; unfold hit in Hh; congruence).
    apply IH; [exact Ht|lia|lia|lia|exact Hh|].
    intros j Hj. apply Hu. lia.
Qed.
End Tokens.

Section AccessPlan.
Context (c : MemoryContract) (proof : MemoryProofPlan).
Context (d : MemoryDirection) (o : MemoryOperand) (b m r : Z).

Lemma access_plan_sound :
  ap_valid (memoryAccessPlan c proof d o b m r) = true ->
  exists k, 0 <= k < contractSlots c /\ k < 4 /\
    accessMatches (access c k) d o b m r = true /\
    memoryAccessPlan c proof d o b m r = tokenOf c proof k /\
    forall j, 0 <= j < contractSlots c ->
      accessMatches (access c j) d o b m r = true -> j = k.
Proof.
  unfold memoryAccessPlan. destruct (_ || _); [done|].
  destruct (Z.ltb_spec MaxAccesses (contractSlots c)) as [|Hs]; [done|].
  unfold MaxAccesses in Hs. intros Hv.
  destruct (Z.le_gt_cases 0 (contractSlots c)) as [H0|H0].
  2:{ replace (Z.to_nat (contractSlots c)) with 0%nat in Hv by lia. done. }
  apply scan_sound in Hv; [|done|lia|lia].
  destruct Hv as [k [Hk [Hh [He Hu]]]]. rewrite Z2Nat.id in * by lia.
  exists k. repeat split; [lia|lia|lia|exact Hh|exact He|].
  intros j Hj. apply Hu. lia.
Qed.

Lemma access_plan_complete k :
  pp_valid proof = true -> contractSlots c <= 4 ->
  0 <= k < contractSlots c ->
  accessMatches (access c k) d o b m r = true ->
  (forall j, 0 <= j < contractSlots c ->
     accessMatches (access c j) d o b m r = true -> j = k) ->
  memoryAccessPlan c proof d o b m r = tokenOf c proof k.
Proof.
  intros Hp Hs Hk Hh Hu. unfold memoryAccessPlan. rewrite Hp. cbn [negb orb].
  destruct (Z.eqb_spec (mc_count c) 0) as [E|E].
  { unfold contractSlots in Hk. rewrite E in Hk. cbn in Hk. lia. }
  destruct (Z.ltb_spec MaxAccesses (contractSlots c)); [unfold MaxAccesses in *; lia|].
  apply scan_complete; rewrite ?Z2Nat.id by lia; auto; lia.
Qed.
End AccessPlan.

(** ** The emitter cursor *)

(** What an emitter asks the cursor for. *)
Record Request := mkRequest {
  rq_direction : MemoryDirection;
  rq_operand : MemoryOperand;
  rq_bytes : Z;
  rq_mode : Z;
  rq_reg : Z
}.

(** An emitter's run: the tokens returned, in order, and the final cursor. *)
Fixpoint runCursor (rs : list Request) (p : InstructionMemoryPlan)
  : list MemoryAccessPlan * InstructionMemoryPlan :=
  match rs with
  | [] => ([], p)
  | q :: rs =>
      let '(t, p) := cursorAccess (rq_direction q) (rq_operand q) (rq_bytes q)
                       (rq_mode q) (rq_reg q) p in
      let '(ts, p) := runCursor rs p in (t :: ts, p)
  end.

(** The slots a list of tokens names. *)
Definition grantedSlots (ts : list MemoryAccessPlan) : list Z :=
  map ap_index (List.filter ap_valid ts).

(** Bit [i] of a mask is set exactly for the elements of [l]. *)
Definition maskIs (mask : Z) (l : list Z) : Prop :=
  forall i, Z.testbit mask i = true <-> i ∈ l.

Lemma maskIs_inj a b l : maskIs a l -> maskIs b l -> a = b.
Proof.
  intros Ha Hb. apply Z.bits_inj. intros i. unfold Z.eqf.
  specialize (Ha i). specialize (Hb i).
  destruct (Z.testbit a i), (Z.testbit b i); try done; intuition congruence.
Qed.

Lemma token_mask c proof k :
  0 <= k < 4 -> ap_mask (tokenOf c proof k) = 2 ^ k.
Proof.
  intros Hk. unfold ap_mask. rewrite tokenOf_valid by done. cbn.
  rewrite (u8_small k) by lia. rewrite Z.shiftl_1_l. apply u8_small.
  assert (k = 0 \/ k = 1 \/ k = 2 \/ k = 3) as [-> | [-> | [-> | ->]]] by lia; lia.
Qed.

Lemma maskIs_add mask l k :
  maskIs mask l -> (forall i, i ∈ l -> 0 <= i < 4) -> 0 <= k < 4 ->
  maskIs (u8 (mask .| 2 ^ k)) (k :: l).
Proof.
  intros Hm Hl Hk i. unfold u8. change 256 with (2 ^ 8).
  assert (Hi : Z.testbit ((mask .| 2 ^ k) mod 2 ^ 8) i
               = (Z.testbit mask i || (k =? i))).
  { destruct (Z.neg_nonneg_cases i) as [Hn|Hn].
    { rewrite !Z.testbit_neg_r by lia.
      destruct (Z.eqb_spec k i); [lia|done]. }
    destruct (Z.lt_ge_cases i 8) as [H8|H8].
    - rewrite Z.mod_pow2_bits_low, Z.lor_spec, Z.pow2_bits_eqb by lia. done.
    - rewrite Z.mod_pow2_bits_high by lia.
      destruct (Z.eqb_spec k i); [lia|]. rewrite orb_false_r.
      destruct (Z.testbit mask i) eqn:E; [|done].
      apply Hm, Hl in E. lia. }
  rewrite Hi, orb_true_iff, Z.eqb_eq, elem_of_cons, (Hm i).
  split; intros [H|H]; auto.
Qed.

(** The cursor's state after the slots [l] have been granted. *)
Record cursor_inv (c : MemoryContract) (proof : MemoryProofPlan) (l : list Z)
  (p : InstructionMemoryPlan) : Prop := {
  ci_contract : cur_contract p = Some c;
  ci_proof : cur_proof p = proof;
  ci_nodup : NoDup l;
  ci_range : forall i, i ∈ l -> 0 <= i < contractSlots c /\ i < 4;
  ci_mask : maskIs (cur_consumedMask p) l
}.

Lemma cursor_inv_init c o :
  cursor_inv c (memoryProofPlan c o) [] (instructionMemoryPlan c o).
Proof.
  split; try done.
  - constructor.
  - intros i Hi. by apply elem_of_nil in Hi.
  - intros i. cbn. rewrite Z.bits_0. split; [done|]. intros Hi.
    by apply elem_of_nil in Hi.
Qed.

(** One call either grants a fresh slot or changes nothing. *)
Lemma cursor_step c proof l p d o b m r t p' :
  cursor_inv c proof l p -> cursorAccess d o b m r p = (t, p') ->
  (ap_valid t = false /\ cursor_inv c proof l p') \/
  (ap_valid t = true /\ cursor_inv c proof (ap_index t :: l) p' /\
   t = tokenOf c proof (ap_index t)).
Proof.
  intros Hi Hc. unfold cursorAccess in Hc.
  rewrite (ci_contract _ _ _ _ Hi), (ci_proof _ _ _ _ Hi) in Hc.
  destruct (ap_valid (memoryAccessPlan c proof d o b m r)) eqn:Hv;
    cbn [negb orb] in Hc; [|injection Hc as <- <-; auto].
  destruct (access_plan_sound _ _ _ _ _ _ _ Hv) as [k [Hk [Hk4 [_ [He _]]]]].
  rewrite He in Hc. rewrite token_mask, land_pow2_zero, negb_involutive in Hc by lia.
  destruct (Z.testbit _ k) eqn:Hb; injection Hc as <- <-; [auto|].
  right. assert (Hki : ap_index (tokenOf c proof k) = k)
    by (cbn; apply u8_small; lia).
  rewrite Hki. split; [by rewrite tokenOf_valid by lia|]. split; [|done].
  destruct Hi as [H1 H2 H3 H4 H5]. split; try done.
  - constructor; [|exact H3]. rewrite <- (H5 k). congruence.
  - intros i Hin. apply elem_of_cons in Hin as [->|Hin]; [lia|auto].
  - apply maskIs_add; [exact H5| |lia]. intros i Hin. apply H4 in Hin. lia.
Qed.

Lemma cursor_run c proof rs : forall l p ts p',
  cursor_inv c proof l p -> runCursor rs p = (ts, p') ->
  cursor_inv c proof (rev (grantedSlots ts) ++ l) p' /\
  Forall (fun t => ap_valid t = true -> t = tokenOf c proof (ap_index t)) ts.
Proof.
  induction rs as [|q rs IH]; intros l p ts p' Hi Hr; cbn in Hr.
  { injection Hr as <- <-. auto. }
  destruct (cursorAccess _ _ _ _ _ p) as [t p1] eqn:Hc.
  destruct (runCursor rs p1) as [ts1 p2] eqn:Hr'. injection Hr as <- <-.
  unfold grantedSlots. cbn [List.filter].
  destruct (cursor_step _ _ _ _ _ _ _ _ _ _ _ Hi Hc) as [[Hv Hi']|[Hv [Hi' He]]];
    rewrite Hv; destruct (IH _ _ _ _ Hi' Hr') as [Hi'' Hts].
  - split; [exact Hi''|]. constructor; [congruence|exact Hts].
  - split; [|constructor; auto]. cbn [map rev]. rewrite <- app_assoc. exact Hi''.
Qed.

(** The mask of a well-formed contract has one bit per slot. *)
Lemma contract_mask_ones c :
  contract_wf c -> memoryContractMask c = Z.ones (contractSlots c).
Proof.
  intros H. unfold memoryContractMask, contractSlots.
  destruct (wf_count_cases c H) as [-> | [-> | [-> | [-> | ->]]]]; reflexivity.
Qed.

Lemma contract_mask_slots c :
  contract_wf c -> maskIs (memoryContractMask c) (seqZ 0 (contractSlots c)).
Proof.
  intros H i. rewrite contract_mask_ones by exact H.
  pose proof (wf_slots_range c H).
  rewrite Z.ones_spec_iff, elem_of_seqZ by lia. lia.
Qed.

Lemma cursor_complete_slots c o rs ts p :
  contract_wf c -> runCursor rs (instructionMemoryPlan c o) = (ts, p) ->
  cursorComplete p = true ->
  Permutation (grantedSlots ts) (seqZ 0 (contractSlots c)).
Proof.
  intros Hw Hr Hc.
  destruct (cursor_run _ _ _ _ _ _ _ (cursor_inv_init c o) Hr) as [Hi _].
  rewrite app_nil_r in Hi. destruct Hi as [H1 H2 H3 _ H5].
  unfold cursorComplete in Hc. rewrite H1 in Hc.
  unfold memoryAccessesAccounted in Hc. unbool.
  apply NoDup_Permutation; [|apply NoDup_seqZ|].
  - apply NoDup_ListNoDup. apply NoDup_ListNoDup in H3.
    apply List.NoDup_rev in H3. by rewrite rev_involutive in H3.
  - intros i. rewrite <- (contract_mask_slots c Hw i).
    match goal with H : cur_consumedMask p = _ |- _ => rewrite <- H end.
    rewrite (H5 i). rewrite !list_elem_of_In, <- in_rev. done.
Qed.

(** ** Consuming a contract in its own order *)

Definition requestOf (a : MemoryAccess) : Request :=
  mkRequest (acc_direction a) (acc_operand a) (acc_bytes a) (acc_eaMode a)
    (acc_eaReg a).

Lemma sameKey_refl a : sameKey a a = true.
Proof.
  unfold sameKey, accessMatches.
  rewrite !bool_decide_eq_true_2, !Z.eqb_refl by done. done.
Qed.

Lemma distinctKeys_nth l : forall i j,
  distinctKeys l = true -> (i < length l)%nat -> (j < length l)%nat ->
  sameKey (nth i l MemoryAccess0) (nth j l MemoryAccess0) = true -> i = j.
Proof.
  induction l as [|a l IH]; intros i j Hd Hi Hj Hs; cbn in *; [lia|].
  apply andb_true_iff in Hd as [Ha Hd]. rewrite forallb_forall in Ha.
  destruct i as [|i], j as [|j]; [done| | |f_equal; apply IH; auto; lia].
  - assert (In (nth j l MemoryAccess0) l) as Hin by (apply nth_In; lia).
    apply Ha in Hin. unbool. congruence.
  - assert (In (nth i l MemoryAccess0) l) as Hin by (apply nth_In; lia).
    apply Ha in Hin. unbool. congruence.
Qed.

Lemma nth_slots c k :
  0 <= k < contractSlots c ->
  nth (Z.to_nat k) (slotsOf c) MemoryAccess0 = access c k.
Proof.
  intros Hk. unfold slotsOf, access.
  rewrite !nth_lookup, lookup_take_lt by lia. done.
Qed.

Lemma slots_length c :
  contract_wf c -> Z.of_nat (length (slotsOf c)) = contractSlots c.
Proof.
  intros Hw. pose proof (wf_slots_range c Hw). unfold slotsOf.
  rewrite length_take, (wf_slots _ Hw). lia.
Qed.

Section Consume.
Context (c : MemoryContract) (o : MemoryProofOptions).
Hypothesis Hwf : contract_wf c.
Hypothesis Hdistinct : distinctKeys (slotsOf c) = true.

Let proof := memoryProofPlan c o.
Let ask (k : Z) : Request := requestOf (access c k).

(** Asking for slot [k] grants exactly slot [k]. *)
Lemma ask_slot k :
  0 <= k < contractSlots c ->
  memoryAccessPlan c proof (rq_direction (ask k)) (rq_operand (ask k))
    (rq_bytes (ask k)) (rq_mode (ask k)) (rq_reg (ask k)) = tokenOf c proof k.
Proof.
  intros Hk. pose proof (wf_slots_range c Hwf). pose proof (slots_length c Hwf).
  apply access_plan_complete; [by apply plan_valid|lia|exact Hk| |].
  - apply sameKey_refl.
  - intros j Hj Hm. apply Z2Nat.inj; [lia|lia|].
    apply (distinctKeys_nth (slotsOf c)); [exact Hdistinct|lia|lia|].
    rewrite !nth_slots by lia. exact Hm.
Qed.

Lemma consume_slots n : forall k l p,
  cursor_inv c proof l p -> 0 <= k -> k + Z.of_nat n <= contractSlots c ->
  (forall i, i ∈ l -> i < k) ->
  exists ts p', runCursor (map ask (seqZ k (Z.of_nat n))) p = (ts, p') /\
    cursor_inv c proof (rev (seqZ k (Z.of_nat n)) ++ l) p' /\
    Forall (fun t => ap_valid t = true) ts.
Proof.
  induction n as [|n IH]; intros k l p Hi Hk Hn Hl.
  { exists [], p. cbn. auto. }
  pose proof (wf_slots_range c Hwf) as Hs.
  rewrite seqZ_cons by lia. replace (Z.pred (Z.of_nat (S n))) with (Z.of_nat n) by lia.
  cbn [map runCursor].
  destruct (cursorAccess _ _ _ _ _ p) as [t p1] eqn:Hc.
  pose proof (cursor_step _ _ _ _ _ _ _ _ _ _ _ Hi Hc) as Hst.
  unfold cursorAccess in Hc.
  rewrite (ci_contract _ _ _ _ Hi), (ci_proof _ _ _ _ Hi), ask_slot in Hc by lia.
  rewrite tokenOf_valid, token_mask, land_pow2_zero, negb_involutive in Hc by lia.
  cbn [negb orb] in Hc.
  destruct (Z.testbit (cur_consumedMask p) k) eqn:Hb.
  { apply (ci_mask _ _ _ _ Hi) in Hb. apply Hl in Hb. lia. }
  injection Hc as <- _. rewrite tokenOf_valid in Hst by lia.
  destruct Hst as [[]|[_ [Hi1 _]]]; [done|].
  assert (Hki : ap_index (tokenOf c proof k) = k) by (cbn; apply u8_small; lia).
  rewrite Hki in Hi1.
  destruct (IH (Z.succ k) (k :: l) p1 Hi1) as [ts [p2 [Hr [Hi2 Hv]]]]; [lia|lia| |].
  { intros i Hin. apply elem_of_cons in Hin as [->|Hin]; [lia|].
    apply Hl in Hin. lia. }
  rewrite Hr. eexists _, _. split; [done|]. split.
  - cbn [rev]. rewrite <- app_assoc. exact Hi2.
  - constructor; [by apply tokenOf_valid; lia|exact Hv].
Qed.

(** The contract's own accesses, in order, complete the cursor. *)
Lemma consume_complete ts p :
  runCursor (map requestOf (slotsOf c)) (instructionMemoryPlan c o) = (ts, p) ->
  cursorComplete p = true /\ Forall (fun t => ap_valid t = true) ts.
Proof.
  intros Hr. pose proof (wf_slots_range c Hwf) as Hs.
  pose proof (slots_length c Hwf) as Hlen.
  destruct (consume_slots (Z.to_nat (contractSlots c)) 0 []
    (instructionMemoryPlan c o)) as [ts' [p' [Hr' [Hi Hv]]]];
    [apply cursor_inv_init|lia|lia| |].
  { intros i Hin. by apply elem_of_nil in Hin. }
  assert (Hmap : map ask (seqZ 0 (contractSlots c)) = map requestOf (slotsOf c)).
  { unfold ask. rewrite <- (map_map (access c) requestOf). f_equal.
    apply (nth_ext _ _ MemoryAccess0 MemoryAccess0).
    { rewrite length_map, length_seqZ. lia. }
    intros i Hlt. rewrite length_map, length_seqZ in Hlt.
    rewrite <- (Nat2Z.id i), nth_slots by lia.
    rewrite nth_lookup. rewrite list_lookup_fmap, lookup_seqZ_lt by lia.
    cbn. f_equal. lia. }
  rewrite Z2Nat.id, Hmap, Hr in Hr' by lia. injection Hr' as <- <-.
  split; [|exact Hv]. unfold cursorComplete. rewrite (ci_contract _ _ _ _ Hi).
  rewrite (ci_proof _ _ _ _ Hi).
  unfold memoryAccessesAccounted, proof. rewrite plan_valid by exact Hwf.
  cbn [andb].
  assert (cur_consumedMask p = memoryContractMask c) as ->.
  { apply (maskIs_inj _ _ (seqZ 0 (contractSlots c))).
    - intros i. rewrite (ci_mask _ _ _ _ Hi i), app_nil_r, Z2Nat.id by lia.
      rewrite !list_elem_of_In, <- in_rev. done.
    - by apply contract_mask_slots. }
  rewrite Z.eqb_refl, andb_true_r, contract_mask_ones by exact Hwf.
  assert (contractSlots c = 0 \/ contractSlots c = 1 \/ contractSlots c = 2 \/
    contractSlots c = 3 \/ contractSlots c = 4) as Hcase by lia.
  by destruct Hcase as [-> | [-> | [-> | [-> | ->]]]].
Qed.
End Consume.

Lemma plan_masks_subset c o :
  let p := memoryProofPlan c o in
  pp_exactThunkMask p .& pp_preflightMask p = pp_exactThunkMask p /\
  pp_cacheMask p .& pp_preflightMask p = pp_cacheMask p.
Proof. cbv zeta. plan_cases; auto. Qed.

(** ** Properties *)

(** C22. Every contract [describeMemory] publishes is well formed, for any
    opcode and either core: it is described, has zero, one, two or a variable
    number of accesses, its [lastWrite] is the index of its last writing
    access, each fault phase says what has been committed before that access,
    and each access is cacheable in its own direction only. *)
Theorem describeMemory_wf (op : Z) (is030 : bool) :
  contract_wf (describeMemory op is030).
Proof. apply contract_good_wf, describeMemory_good. Qed.

(** C8. The proof plan of a well-formed contract is safe under any backend
    options: it is never the interpreter fallback, its preflight mask names
    every access of the contract (so all mappings are proved before access
    zero), thunk and cache grants are preflighted accesses, an access that
    requires the exact path is never cached, and a thunk on a write that must
    be restartable is granted only to a restartable last write or to an
    access whose exact path is mandatory. *)
Theorem memoryProofPlan_safe (c : MemoryContract) (o : MemoryProofOptions)
  (Hwf : contract_wf c) :
  let p := memoryProofPlan c o in
  pp_valid p = true /\
  pp_preflightMask p = memoryContractMask c /\
  pp_exactThunkMask p .& pp_preflightMask p = pp_exactThunkMask p /\
  pp_cacheMask p .& pp_preflightMask p = pp_cacheMask p /\
  (forall i, Z.testbit (pp_cacheMask p) i = true ->
     acc_exactRequired (access c i) = false /\
     match acc_direction (access c i) with
     | MemoryDirection.Read => opt_cacheReads o = true
     | MemoryDirection.Write => opt_cacheWrites o = true
     end) /\
  (forall i, Z.testbit (pp_exactThunkMask p) i = true ->
     acc_direction (access c i) = MemoryDirection.Write ->
     opt_restartableWriteRequired o = true ->
     acc_exactRequired (access c i) = true \/
     acc_fault (access c i) = FaultPhase.RestartableLastWrite).
Proof.
  cbv zeta. pose proof (plan_masks_subset c o) as [Ht Hc].
  split; [by apply plan_valid|]. split.
  { apply plan_preflights_mask; [by apply wf_count_range|by apply plan_valid]. }
  split; [exact Ht|]. split; [exact Hc|]. split.
  - intros i Hi. apply plan_cache_bit in Hi as [_ Hi]. by apply cacheAllowed_spec in Hi.
  - intros i Hi Hw Hr. apply plan_thunk_bit in Hi as [-> Hi].
    apply thunkAllowed_spec in Hi as [Hi|[[Hi _]|[_ [_ Hi]]]]; auto; congruence.
Qed.

Definition probe_move : MemoryContract := describeMemory 0x2F38 false.

Lemma memoryProofPlan_safe_witness :
  contract_wf probe_move /\
  pp_protocol (memoryProofPlan probe_move
    (mkOptions true true false true true true false))
    = MemoryProofProtocol.AtomicCachePair /\
  pp_preflightMask (memoryProofPlan probe_move
    (mkOptions true true false true true true false)) = 3.
Proof.
  assert (H : contract_wf probe_move) by (apply contract_ok_wf; vm_compute; reflexivity).
  split; [exact H|]. split; [vm_compute; reflexivity|].
  rewrite (proj1 (proj2 (memoryProofPlan_safe probe_move _ H))).
  vm_compute. reflexivity.
Defined.

(** An access token is unambiguous: when [memoryAccessPlan] returns a valid
    token, exactly one slot of the contract has the requested direction,
    operand, width and effective address, and the token carries that slot's
    index, commit point, fault phase and grants. *)
Theorem memoryAccessPlan_unambiguous (c : MemoryContract)
  (proof : MemoryProofPlan) (d : MemoryDirection) (o : MemoryOperand)
  (b m r : Z)
  (Hv : ap_valid (memoryAccessPlan c proof d o b m r) = true) :
  exists k, 0 <= k < contractSlots c /\ k < MaxAccesses /\
    ap_index (memoryAccessPlan c proof d o b m r) = k /\
    memoryAccessPlan c proof d o b m r = tokenOf c proof k /\
    forall j, 0 <= j < contractSlots c ->
      (accessMatches (access c j) d o b m r = true <-> j = k).
Proof.
  destruct (access_plan_sound _ _ _ _ _ _ _ Hv) as [k [Hk [Hk4 [Hm [He Hu]]]]].
  exists k. rewrite He. unfold MaxAccesses. repeat split; try lia; try done.
  - cbn. apply u8_small. lia.
  - by apply Hu.
  - by intros ->.
Qed.

Lemma memoryAccessPlan_unambiguous_witness :
  let t := memoryAccessPlan probe_move
             (memoryProofPlan probe_move MemoryProofOptions0)
             MemoryDirection.Write MemoryOperand.Destination 4 4 7 in
  ap_valid t = true /\ exists k, ap_index t = k /\ 0 <= k < 2.
Proof.
  cbv zeta. split; [vm_compute; reflexivity|].
  destruct (memoryAccessPlan_unambiguous probe_move
    (memoryProofPlan probe_move MemoryProofOptions0) MemoryDirection.Write
    MemoryOperand.Destination 4 4 7) as [k [Hk [_ [Hi _]]]];
    [vm_compute; reflexivity|].
  exists k. split; [exact Hi|]. exact Hk.
Defined.

(** C23. The emitter cursor admits an instruction only when every data access
    of its contract has been emitted exactly once: for any sequence of
    requests, if the cursor ends complete, the slots of the tokens it granted
    are a permutation of the contract's slots, and every granted token is the
    contract's own. *)
Theorem cursor_accounts_exactly_once (c : MemoryContract)
  (o : MemoryProofOptions) (rs : list Request)
  (Hwf : contract_wf c)
  (Hdone : cursorComplete (snd (runCursor rs (instructionMemoryPlan c o))) = true) :
  let ts := fst (runCursor rs (instructionMemoryPlan c o)) in
  Permutation (grantedSlots ts) (seqZ 0 (contractSlots c)) /\
  Forall (fun t => ap_valid t = true ->
            t = tokenOf c (memoryProofPlan c o) (ap_index t)) ts.
Proof.
  destruct (runCursor rs _) as [ts p] eqn:Hr. cbn [fst snd] in *. split.
  - by apply (cursor_complete_slots c o rs ts p).
  - by apply (cursor_run _ _ _ _ _ _ _ (cursor_inv_init c o) Hr).
Qed.

Lemma cursor_accounts_exactly_once_witness :
  Permutation
    (grantedSlots (fst (runCursor (map requestOf (rev (slotsOf probe_move)))
       (instructionMemoryPlan probe_move MemoryProofOptions0)))) (seqZ 0 2).
Proof.
  apply (cursor_accounts_exactly_once probe_move MemoryProofOptions0
           (map requestOf (rev (slotsOf probe_move)))).
  - apply contract_ok_wf. vm_compute. reflexivity.
  - vm_compute. reflexivity.
Defined.

(** Every contract [describeMemory] publishes can be consumed: asking the
    cursor for the contract's own accesses in order grants a valid token each
    time and leaves the cursor complete, whatever the backend's options. *)
Theorem describeMemory_consumable (op : Z) (is030 : bool)
  (o : MemoryProofOptions) :
  let c := describeMemory op is030 in
  let run := runCursor (map requestOf (slotsOf c)) (instructionMemoryPlan c o) in
  cursorComplete (snd run) = true /\
  Forall (fun t => ap_valid t = true) (fst run).
Proof.
  cbv zeta. pose proof (describeMemory_good op is030) as Hg.
  destruct (runCursor _ _) as [ts p] eqn:Hr.
  apply (consume_complete _ o) in Hr; [done|by apply contract_good_wf|].
  by apply andb_true_iff in Hg as [_ Hg].
Qed.
