(* ===== verification/JitDecodeFacts.v ===== *)
(** * JitDecodeFacts: opcode meaning, classification and effective addresses

    Properties of [describeInstruction], [classify], [decodeEffectiveAddress],
    [branchWords] and the control-flow plan. *)

From S2P Require Import Prelude.
From S2P Require Import JitTypes.
From S2P Require Import JitDecode.
From S2P Require Import JitMemory.
From S2P Require Import JitEa.
From stdpp Require Import base list numbers option decidable.

Open Scope Z_scope.

(** ** Opcode lines *)

(** An opcode lies in the line its top nibble names. *)
Lemma opcode_line op :
  0 <= op < 65536 ->
  op .& 0xF000 = 4096 * (op / 4096) /\ 0 <= op / 4096 < 16.
Proof.
  intros Hop. split; [|split; [apply Z.div_pos|apply Z.div_lt_upper_bound]; lia].
  assert (op .& 0xF000 = (op / 2 ^ 12) * 2 ^ 12) as ->; [|change (2 ^ 12) with 4096; lia].
  rewrite <- Z.shiftr_div_pow2, <- Z.shiftl_mul_pow2 by lia.
  apply Z.bits_inj'. intros i Hi. rewrite Z.land_spec.
  destruct (Z.lt_ge_cases i 12) as [H|H].
  - rewrite Z.shiftl_spec_low by lia. change 0xF000 with (0xF .<< 12).
    rewrite Z.shiftl_spec_low by lia. apply andb_false_r.
  - rewrite Z.shiftl_spec, Z.shiftr_spec by lia. rewrite Z.sub_add.
    destruct (Z.lt_ge_cases i 16).
    + assert (i = 12 \/ i = 13 \/ i = 14 \/ i = 15) as [-> | [-> | [-> | ->]]] by lia;
        apply andb_true_r.
    + rewrite <- (Z.mod_small op (2 ^ 16)) by lia.
      rewrite Z.mod_pow2_bits_high by lia. done.
Qed.

(** The sixteen lines, as sixteen cases. *)
Lemma opcode_line_cases op (P : Prop) :
  0 <= op < 65536 ->
  (forall k, 0 <= k < 16 -> op .& 0xF000 = 4096 * k ->
     k * 4096 <= op < (k + 1) * 4096 -> P) -> P.
Proof.
  intros Hop H. destruct (opcode_line op Hop) as [Hl Hk].
  apply (H (op / 4096) Hk Hl). pose proof (Z.div_mod op 4096).
  pose proof (Z.mod_pos_bound op 4096). lia.
Qed.

Ltac split_lines Hop :=
  apply (opcode_line_cases _ _ Hop);
  let k := fresh "k" in let Hk := fresh "Hk" in
  let Hline := fresh "Hline" in let Hrange := fresh "Hrange" in
  intros k Hk Hline Hrange;
  assert (k = 0 \/ k = 1 \/ k = 2 \/ k = 3 \/ k = 4 \/ k = 5 \/ k = 6 \/ k = 7 \/
          k = 8 \/ k = 9 \/ k = 10 \/ k = 11 \/ k = 12 \/ k = 13 \/ k = 14 \/ k = 15)
    as Hcases by lia; clear Hk;
  repeat (destruct Hcases as [-> | Hcases]); [.. | subst k];
  match type of Hline with
  | _ = ?r => let v := eval vm_compute in r in change r with v in Hline
  end.

(** ** Control transfers *)

(** The operations that leave the straight line. *)
Definition isControl (s : InstructionSemantics) : bool :=
  match sem_operation s with
  | SemanticOp.Branch | SemanticOp.BranchSubroutine
  | SemanticOp.DecrementBranch | SemanticOp.JumpSubroutine | SemanticOp.Jump
  | SemanticOp.ReturnSubroutine => true
  | _ => false
  end.

(** What the classifier and the decoder owe each other on one opcode. *)
Definition agree (k : Kind) (s : InstructionSemantics) : bool :=
  implb (k == Kind.Branch) (isControl s) &&
  implb (isControl s)
    ((k == Kind.Branch) ||
     ((k == Kind.Unsafe) && (sem_operation s == SemanticOp.Jump))) &&
  implb (k == Kind.Unsafe)
    ((sem_operation s == SemanticOp.Unknown) ||
     (sem_operation s == SemanticOp.Jump) ||
     ((sem_operation s == SemanticOp.Bit) && (sem_eaMode s =? 7) &&
      (sem_eaReg s =? 4))).

Lemma agree_swept :
  all_from 12 0 (fun op => agree (classify op) (describeInstruction op)) = true /\
  all_from 12 4 (fun op => agree (classify op) (describeInstruction op)) = true /\
  all_from 12 5 (fun op => agree (classify op) (describeInstruction op)) = true.
Proof. vm_compute. auto. Qed.

(** Outside lines 0, 4, 5, 6 nothing transfers control. *)
Ltac agree_line H :=
  unfold classify, describeInstruction; rewrite H;
  cbn -[Z.land Z.shiftr describeMulDiv describeOverlaps describeAlu
        describeLineE describeLine6 describeLine7].

Lemma describeMulDiv_op op line s r :
  describeMulDiv op line s = Some r -> isControl r = false.
Proof.
  unfold describeMulDiv. destruct (_ && _); [by intros [= <-]|].
  destruct (_ && _); [by intros [= <-]|done].
Qed.

Lemma describeOverlaps_op op line s r :
  describeOverlaps op line s = Some r -> isControl r = false.
Proof.
  unfold describeOverlaps. destruct (_ && _); [by intros [= <-]|].
  destruct (_ && _); [by intros [= <-]|].
  destruct (_ && _); [by intros [= <-]|done].
Qed.

Lemma describeAlu_op op s : isControl s = false -> isControl (describeAlu op s) = false.
Proof. intros H. unfold describeAlu. split_tests; try exact H; reflexivity. Qed.

Lemma describeLineE_op op s : isControl s = false -> isControl (describeLineE op s) = false.
Proof. intros H. unfold describeLineE. split_tests; try exact H; reflexivity. Qed.

Lemma agree_plain k s :
  k <> Kind.Branch -> k <> Kind.Unsafe -> isControl s = false -> agree k s = true.
Proof.
  intros Hb Hu Hs. unfold agree. rewrite Hs, !(bool_decide_eq_false_2 _ Hb),
    !(bool_decide_eq_false_2 _ Hu). done.
Qed.

(** The decoder below line 8: no control transfer. *)
Lemma describe_high_plain op line s :
  isControl s = false ->
  isControl (describeMulDiv op line s orelse
    (describeOverlaps op line s orelse
     (if isAluLine line then describeAlu op s
      else if line =? 0xE000 then describeLineE op s
      else s))) = false.
Proof.
  intros Hs. destruct (describeMulDiv op line s) eqn:E1;
    [by apply describeMulDiv_op in E1|].
  destruct (describeOverlaps op line s) eqn:E2;
    [by apply describeOverlaps_op in E2|].
  split_tests; auto using describeAlu_op, describeLineE_op.
Qed.

Lemma agree_all op :
  0 <= op < 65536 -> agree (classify op) (describeInstruction op) = true.
Proof.
  intros Hop. destruct agree_swept as [S0 [S4 S5]].
  split_lines Hop.
  1: apply (all_from_sound _ _ _ S0 op); cbn; lia.
  4: apply (all_from_sound _ _ _ S4 op); cbn; lia.
  4: apply (all_from_sound _ _ _ S5 op); cbn; lia.
  all: unfold classify, describeInstruction; rewrite Hline;
    cbn -[Z.land Z.shiftr describeMulDiv describeOverlaps describeAlu
          describeLineE describeLine6 describeLine7 isAluLine agree].
  1-3: reflexivity.
  - unfold describeLine6. destruct (_ =? 1); reflexivity.
  - unfold describeLine7. destruct (_ =? 0); reflexivity.
  - destruct (_ || _); (apply agree_plain; [done|done|]);
      refine (describe_high_plain op 0x8000 _ _); reflexivity.
  - apply agree_plain; [done|done|]. refine (describe_high_plain op 0x9000 _ _); reflexivity.
  - reflexivity.
  - apply agree_plain; [done|done|]. refine (describe_high_plain op 0xB000 _ _); reflexivity.
  - destruct (_ || _); (apply agree_plain; [done|done|]);
      refine (describe_high_plain op 0xC000 _ _); reflexivity.
  - apply agree_plain; [done|done|]. refine (describe_high_plain op 0xD000 _ _); reflexivity.
  - apply agree_plain; [done|done|]. refine (describe_high_plain op 0xE000 _ _); reflexivity.
  - destruct (_ =? _); reflexivity.
Qed.

(** ** Field ranges *)

(** Operations that carry an operand size. *)
Definition isSized (o : SemanticOp) : bool :=
  match o with
  | SemanticOp.Unknown | SemanticOp.Nop | SemanticOp.Branch
  | SemanticOp.BranchSubroutine | SemanticOp.ReturnSubroutine
  | SemanticOp.Bitfield => false
  | _ => true
  end.

(** Operations with a second encoded effective address. *)
Definition hasDestination (o : SemanticOp) : bool :=
  match o with
  | SemanticOp.Move | SemanticOp.CompareMemory => true
  | _ => false
  end.

(** Operations that test a condition. *)
Definition hasCondition (o : SemanticOp) : bool :=
  match o with
  | SemanticOp.Branch | SemanticOp.BranchSubroutine
  | SemanticOp.DecrementBranch | SemanticOp.SetCondition => true
  | _ => false
  end.

(** Operations whose arithmetic is in [sem_alu]. *)
Definition hasAlu (o : SemanticOp) : bool :=
  match o with
  | SemanticOp.ImmediateAlu | SemanticOp.AddSubQuick | SemanticOp.AddSubExtend
  | SemanticOp.AluEaToReg | SemanticOp.AluRegToEa | SemanticOp.AddressAlu => true
  | _ => false
  end.

(** Number of sub-operations an operation selects with [sem_action]. *)
Definition actionCount (o : SemanticOp) : option Z :=
  match o with
  | SemanticOp.Bit | SemanticOp.ShiftRegister => Some 4
  | SemanticOp.Bitfield => Some 8
  | SemanticOp.Exchange => Some 3
  | SemanticOp.Extend | SemanticOp.MultiplyWord | SemanticOp.DivideWord => Some 2
  | _ => None
  end.

Definition in_range (n : Z) (x : Z) : Prop := 0 <= x < n.

Record semantics_wf (s : InstructionSemantics) : Prop := {
  sw_eaMode : in_range 8 (sem_eaMode s);
  sw_eaReg : in_range 8 (sem_eaReg s);
  sw_registerIndex : in_range 8 (sem_registerIndex s);
  sw_size : isSized (sem_operation s) = true -> in_range 3 (sem_sizeIndex s);
  sw_destination : hasDestination (sem_operation s) = true ->
    in_range 8 (sem_destinationMode s) /\ in_range 8 (sem_destinationReg s);
  sw_condition : hasCondition (sem_operation s) = true ->
    in_range 16 (sem_condition s);
  sw_alu : hasAlu (sem_operation s) = true -> sem_alu s <> AluOperation.None;
  sw_action : forall n, actionCount (sem_operation s) = Some n ->
    in_range n (sem_action s)
}.

Lemma in_range_7 x : in_range 8 (x .& 7).
Proof. apply land_7_range. Qed.
Lemma in_range_3 x : in_range 4 (x .& 3).
Proof. apply land_3_range. Qed.
Lemma in_range_15 x : in_range 16 (x .& 15).
Proof. apply land_15_range. Qed.

(** The record every part of the decoder starts from. *)
Definition base_wf (s : InstructionSemantics) : Prop :=
  sem_operation s = SemanticOp.Unknown /\ in_range 8 (sem_eaMode s) /\
  in_range 8 (sem_eaReg s) /\ in_range 8 (sem_registerIndex s).

(** What a part of the decoder guarantees. *)
Definition part_wf (s : InstructionSemantics) : Prop :=
  sem_operation s <> SemanticOp.Unknown -> semantics_wf s.

Lemma base_part s : base_wf s -> part_wf s.
Proof. intros [H _] H'. by contradict H'. Qed.

(** A leaf of the decoder: its fields are constants, masked, or the base's. *)
Ltac leaf_wf op :=
  lazymatch goal with
  | H : base_wf ?s |- part_wf ?s => exact (base_part s H)
  | _ => idtac
  end;
  match goal with
  | H : base_wf ?s |- _ => destruct H as [Hop [Hm [Hr Hx]]]
  end;
  let Hu := fresh "Hu" in
  intros Hu; try (exfalso; apply Hu; cbn; first [reflexivity | assumption]);
  clear Hu;
  split; cbn -[Z.land Z.shiftr]; intros; try discriminate; try assumption;
  try (match goal with H : Some _ = Some _ |- _ => injection H as <- end);
  repeat match goal with
  | |- _ /\ _ => split
  | |- in_range 8 (_ .& 7) => apply in_range_7
  | |- in_range 4 (_ .& 3) => apply in_range_3
  | |- in_range 16 (_ .& 15) => apply in_range_15
  | |- context [if ?b then _ else _] => destruct b
  end;
  try discriminate;
  try solve [unfold in_range; unbool; pose proof (land_3_range (op .>> 6));
             pose proof (land_7_range (op .>> 6)); first [lia | assumption]].

Section Parts.
Context (op : Z) (s : InstructionSemantics) (Hbase : base_wf s).

Lemma describeLine0_wf : part_wf (describeLine0 op s).
Proof. unfold describeLine0. split_tests; leaf_wf op. Qed.

Lemma describeMove_wf line : part_wf (describeMove op line s).
Proof. unfold describeMove. leaf_wf op. Qed.

Lemma describeLine4_wf : part_wf (describeLine4 op s).
Proof. unfold describeLine4. split_tests; leaf_wf op. Qed.

Lemma describeLine5_wf : part_wf (describeLine5 op s).
Proof. unfold describeLine5. split_tests; leaf_wf op. Qed.

Lemma describeLine6_wf : part_wf (describeLine6 op s).
Proof. unfold describeLine6. split_tests; leaf_wf op. Qed.

Lemma describeLine7_wf : part_wf (describeLine7 op s).
Proof. unfold describeLine7. split_tests; leaf_wf op. Qed.

Lemma describeMulDiv_wf line r :
  describeMulDiv op line s = Some r -> part_wf r.
Proof.
  unfold describeMulDiv. destruct (_ && _); [intros Hs; injection Hs as <-; leaf_wf op|].
  destruct (_ && _); [intros Hs; injection Hs as <-; leaf_wf op|done].
Qed.

Lemma describeOverlaps_wf line r :
  describeOverlaps op line s = Some r -> part_wf r.
Proof.
  unfold describeOverlaps.
  repeat match goal with
  | |- (if ?b then _ else _) = _ -> _ =>
      destruct b eqn:?; [intros Hs; injection Hs as <-; leaf_wf op|]
  end.
  done.
Qed.

Lemma describeAlu_wf : part_wf (describeAlu op s).
Proof.
  unfold describeAlu. destruct (_ <? 0) eqn:?; [leaf_wf op|].
  destruct (_ || _); [destruct (_ && _); leaf_wf op|].
  destruct (memoryAluDirection op =? 0); destruct (_ || _) eqn:?;
    split_tests; leaf_wf op.
Qed.

Lemma describeLineE_wf : part_wf (describeLineE op s).
Proof. unfold describeLineE. split_tests; leaf_wf op. Qed.
End Parts.

Lemma describeInstruction_part op : part_wf (describeInstruction op).
Proof.
  unfold describeInstruction.
  match goal with |- context [describeLine0 op ?b] => set (s := b) end.
  assert (H : base_wf s)
    by (split; [done|]; repeat split; apply land_7_range).
  destruct (_ =? 0); [by apply describeLine0_wf|].
  destruct (_ || _); [by apply describeMove_wf|].
  destruct (_ =? 0x4000); [by apply describeLine4_wf|].
  destruct (_ =? 0x5000); [by apply describeLine5_wf|].
  destruct (_ =? 0x6000); [by apply describeLine6_wf|].
  destruct (_ =? 0x7000); [by apply describeLine7_wf|].
  destruct (describeMulDiv _ _ _) eqn:E1; [by eapply describeMulDiv_wf|].
  destruct (describeOverlaps _ _ _) eqn:E2; [by eapply describeOverlaps_wf|].
  destruct (isAluLine _); [by apply describeAlu_wf|].
  destruct (_ =? 0xE000); [by apply describeLineE_wf|by apply base_part].
Qed.

(** ** Effective addresses *)

(** The extension words of an effective address, from its first word. *)
Definition eaWords (mode reg size ext : Z) : Z :=
  if mode <=? 4 then 0
  else if mode =? 5 then 1
  else if (mode =? 6) || ((mode =? 7) && (reg =? 3))
  then indexedExtensionWords ext
  else if reg =? 0 then 1
  else if reg =? 1 then 2
  else if reg =? 2 then 1
  else if reg =? 4 then if size =? 2 then 2 else 1
  else 0.

(** A reserved full-format extension word. *)
Definition reservedIndex (ext : Z) : bool :=
  (ext .& 0x0100 <>? 0) &&
  ((ext .& 0x0008 <>? 0) || ((ext .>> 4) .& 3 =? 0) || (ext .& 7 =? 4)).

(** An encodable effective address whose extension is not reserved. *)
Definition encodableEa (mode reg ext : Z) : bool :=
  if (mode =? 6) || ((mode =? 7) && (reg =? 3)) then negb (reservedIndex ext)
  else (mode <=? 6) || ((mode =? 7) && (reg <=? 4)).

Section Ea.
Context (i : Instr) (role : OperandRole) (mode reg size offset : Z).
Let e := decodeEffectiveAddress i role mode reg size offset.
Let ext := ea_word i offset 0.

(** Evaluate the decoder's record updates. *)
Ltac ea_cbn := cbn -[Z.land Z.shiftr Z.shiftl ea_word ea_long ea_need u8 u32 s8
                     s16 s32 Z.add].

Lemma decodeDisplacements_shape e0 :
  ea_extensionWords (decodeDisplacements i offset e0) = ea_extensionWords e0 /\
  ea_valid (decodeDisplacements i offset e0) = true.
Proof. unfold decodeDisplacements. split_tests; done. Qed.

Lemma decodeIndexed_shape e0 :
  ea_valid e0 = false -> ea_need i offset (indexedExtensionWords ext) = true ->
  let e1 := decodeIndexed i offset mode e0 in
  ea_extensionWords e1 = indexedExtensionWords ext /\
  ea_valid e1 = negb (reservedIndex ext).
Proof.
  intros Hv Hn. cbv zeta. unfold decodeIndexed.
  assert (Hn1 : ea_need i offset 1 = true).
  { unfold ea_need in *. apply Z.leb_le in Hn. apply Z.leb_le.
    enough (1 <= indexedExtensionWords ext) by lia.
    unfold indexedExtensionWords. split_tests; lia. }
  rewrite Hn1. cbn [negb]. fold ext. unfold reservedIndex.
  unfold indexedExtensionWords in *.
  destruct (ext .& 0x0100 =? 0) eqn:E; [done|]. cbn [negb andb].
  unfold decodeFullIndex.
  destruct (_ || _) eqn:Er; [done|].
  match goal with
  | |- context [decodeDisplacements i offset ?x] => set (full := x) in *
  end.
  assert (Hw : ea_extensionWords full = indexedExtensionWords ext).
  { unfold full, indexedExtensionWords. rewrite E, Er. ea_cbn.
    split_tests; reflexivity. }
  unfold indexedExtensionWords in Hw. rewrite E, Er in Hw.
  rewrite Hw, Hn. cbn [negb].
  destruct (decodeDisplacements_shape full) as [-> ->]. done.
Qed.

(** The decoder consumes [eaWords] words and rejects only reserved
    encodings, when the words are there. *)
Lemma decode_shape :
  0 <= mode < 8 -> ea_need i offset (eaWords mode reg size ext) = true ->
  ea_extensionWords e = eaWords mode reg size ext /\
  (0 <= reg < 8 -> ea_valid e = encodableEa mode reg ext).
Proof.
  intros Hm Hn. unfold e, decodeEffectiveAddress, eaWords, encodableEa in *.
  destruct (Z.leb_spec mode 4) as [H4|H4].
  { split; [done|]. intros _. cbn.
    destruct (Z.eqb_spec mode 6); [lia|]. destruct (Z.eqb_spec mode 7); [lia|].
    cbn. symmetry. apply orb_true_iff. left. apply Z.leb_le. lia. }
  destruct (Z.eqb_spec mode 5) as [->|H5].
  { split; [done|]. intros _. exact Hn. }
  destruct ((mode =? 6) || _) eqn:Ei.
  { destruct (decodeIndexed_shape
      (set_extensionAddress (u32 (in_pc i + 2 + u32 (offset * 2)))
        (set_extensionOffset offset (set_easize size (set_reg reg
          (set_mode mode (set_role role DecodedEffectiveAddress0))))))) as [Hw Hv];
      [done|exact Hn|]. auto. }
  apply orb_false_iff in Ei as [E6 E3]. apply Z.eqb_neq in E6.
  assert (mode = 7) as -> by lia. cbn [Z.eqb Pos.eqb negb andb orb] in *.
  unfold decodeMode7.
  destruct (Z.eqb_spec reg 0) as [->|]; [split; [done|intros _; exact Hn]|].
  destruct (Z.eqb_spec reg 1) as [->|]; [split; [done|intros _; exact Hn]|].
  destruct (Z.eqb_spec reg 2) as [->|]; [split; [done|intros _; exact Hn]|].
  destruct (Z.eqb_spec reg 4) as [->|]; [split; [done|intros _; exact Hn]|].
  split; [done|]. intros Hr. cbn. symmetry. apply Z.leb_gt.
  apply Z.eqb_neq in E3. lia.
Qed.
End Ea.

(** A valid plan reads only recorded extension words. *)
Lemma decodeIndexed_window i offset mode e0 :
  ea_valid e0 = false -> ea_valid (decodeIndexed i offset mode e0) = true ->
  offset + ea_extensionWords (decodeIndexed i offset mode e0)
    <= in_extensionCount i.
Proof.
  intros Hv. unfold decodeIndexed.
  destruct (ea_need i offset 1) eqn:Hn; cbn [negb]; [|cbn; congruence].
  destruct (_ =? 0); [intros _; by apply Z.leb_le|].
  unfold decodeFullIndex. destruct (_ || _); [cbn; congruence|].
  match goal with
  | |- context [decodeDisplacements i offset ?x] => set (full := x) in *
  end.
  destruct (ea_need i offset (ea_extensionWords full)) eqn:Hf; cbn [negb];
    [|cbn; congruence].
  destruct (decodeDisplacements_shape i offset full) as [-> _].
  intros _. by apply Z.leb_le.
Qed.

Lemma decode_window i role mode reg size offset :
  ea_valid (decodeEffectiveAddress i role mode reg size offset) = true ->
  ea_extensionWords (decodeEffectiveAddress i role mode reg size offset) = 0 \/
  offset + ea_extensionWords (decodeEffectiveAddress i role mode reg size offset)
    <= in_extensionCount i.
Proof.
  unfold decodeEffectiveAddress. destruct (mode <=? 4); [auto|].
  destruct (mode =? 5); [intros H; right; by apply Z.leb_le|].
  destruct (_ || _); [intros H; right; by apply decodeIndexed_window|].
  destruct (mode =? 7); [|done]. unfold decodeMode7. cbn [negb].
  destruct (reg =? 0); [intros H; right; by apply Z.leb_le|].
  destruct (reg =? 1); [intros H; right; by apply Z.leb_le|].
  destruct (reg =? 2); [intros H; right; by apply Z.leb_le|].
  destruct (reg =? 4); [intros H; right; by apply Z.leb_le|done].
Qed.

(** ** Branch lengths *)

Lemma control_modes mode reg :
  controlEncodingAllowed mode reg = true ->
  mode = 2 \/ mode = 5 \/ mode = 6 \/ (mode = 7 /\ reg <= 3).
Proof.
  unfold controlEncodingAllowed. rewrite !orb_true_iff, andb_true_iff,
    !Z.eqb_eq, Z.leb_le. tauto.
Qed.

Lemma branchWords_jump op ext :
  op .& 0xFF80 = 0x4E80 ->
  controlEncodingAllowed ((op .>> 3) .& 7) (op .& 7) = true ->
  branchWords op ext = 1 + eaWords ((op .>> 3) .& 7) (op .& 7) 2 ext.
Proof.
  intros Hop Hc. unfold branchWords.
  assert (H6 : op .& 0xF000 = 0x4000).
  { change 0xF000 with (0xFF80 .& 0xF000). rewrite Z.land_assoc, Hop. done. }
  assert (H75 : (op =? 0x4E75) = false).
  { apply Z.eqb_neq. intros ->. vm_compute in Hop. done. }
  rewrite H6, H75, Hop. cbn -[Z.land Z.shiftr Z.add].
  pose proof (land_7_range op). unfold eaWords.
  destruct (control_modes _ _ Hc) as [-> | [-> | [-> | [-> Hr]]]]; try done.
  assert (op .& 7 = 0 \/ op .& 7 = 1 \/ op .& 7 = 2 \/ op .& 7 = 3)
    as [-> | [-> | [-> | ->]]] by lia; reflexivity.
Qed.

(** ** Relative branches *)

(** A reference assembler for Bcc/BRA/BSR with displacement [d] from the word
    after the opcode, choosing the shortest of the three encodings. *)
Definition assembleBranch (cond d : Z) : Z * list Z :=
  let base := 0x6000 + cond * 256 in
  if (-128 <=? d) && (d <? 128) && (d <>? 0) && (d <>? -1)
  then (base + u8 d, [])
  else if (-32768 <=? d) && (d <? 32768) then (base, [u16 d])
  else (base + 0xFF, [u16 (d .>> 16); u16 d]).

(** The block holding only that branch, followed by two prefetched words. *)
Definition branchBlock (pc : Z) (code : Z * list Z) : BlockIr :=
  mkBlock pc true pc 0 0 0 EndReason.ControlFlow [] (code.1 :: code.2 ++ [0; 0]).

(** What the tracer and the finishing loop record for it. *)
Definition tracedBranch (obs : Instr) (pc : Z) (code : Z * list Z)
  (is030 : bool) : Instr :=
  materialise (branchBlock pc code) is030
    (traceInstr (set_extensions (replicate 10 0) obs) pc code.1
       (branchWords code.1 0) is030).

Lemma branch_fields cond b :
  0 <= cond < 16 -> 0 <= b < 256 ->
  let op := 0x6000 + cond * 256 + b in
  op .& 0xF000 = 0x6000 /\ (op .>> 8) .& 15 = cond /\ op .& 0xFF = b.
Proof.
  intros Hc Hb op.
  assert (Hop : 0 <= op < 65536) by (unfold op; lia).
  destruct (opcode_line op Hop) as [Hl _].
  replace (op / 4096) with 6 in Hl by (apply (Z.div_unique _ _ _ (cond * 256 + b)); unfold op; lia).
  split; [exact Hl|]. split.
  - change 15 with (2 ^ 4 - 1). rewrite land_mask_mod, Z.shiftr_div_pow2 by lia.
    change (2 ^ 8) with 256. change (2 ^ 4) with 16.
    replace (op / 256) with (0x60 + cond)
      by (apply (Z.div_unique _ _ _ b); unfold op; lia).
    symmetry. apply (Z.mod_unique _ _ 6); lia.
  - change 0xFF with (2 ^ 8 - 1). rewrite land_mask_mod by lia.
    change (2 ^ 8) with 256. symmetry.
    apply (Z.mod_unique _ _ (0x60 + cond)); unfold op; lia.
Qed.

(** Refinement leaves everything but the contract alone. *)
Lemma refine_preserves i is030 :
  exists m, refineMemoryFromExtensions i is030 = set_memory m i.
Proof.
  assert (E : exists m, refineExactStore i is030 = set_memory m i).
  { unfold refineExactStore. destruct (_ && _); [eauto|].
    exists (in_memory i). by destruct i. }
  unfold refineMemoryFromExtensions. destruct E as [m ->].
  split_tests; eauto. exists (in_memory i). by destruct i.
Qed.

Lemma describeBranch op cond :
  op .& 0xF000 = 0x6000 -> (op .>> 8) .& 15 = cond ->
  sem_operation (describeInstruction op)
    = (if cond =? 1 then SemanticOp.BranchSubroutine else SemanticOp.Branch) /\
  sem_condition (describeInstruction op) = cond.
Proof.
  intros Hl Hc. unfold describeInstruction. rewrite Hl.
  cbn -[Z.land Z.shiftr]. unfold describeLine6. cbn -[Z.land Z.shiftr].
  rewrite Hc. done.
Qed.

(** The finishing loop on a relative branch: only the contract and the plan
    change. *)
Lemma materialise_branch b is030 j cond :
  sem_operation (in_semantics j)
    = (if cond =? 1 then SemanticOp.BranchSubroutine else SemanticOp.Branch) ->
  exists m, let k := set_memory m (set_effectiveAddressCount 0
                                     (copyExtensions b j)) in
    materialise b is030 j = set_control (controlPlan k) k.
Proof.
  intros Ho. unfold materialise.
  assert (E : describeEffectiveAddresses (copyExtensions b j)
              = set_effectiveAddressCount 0 (copyExtensions b j)).
  { unfold describeEffectiveAddresses.
    change (in_semantics (set_effectiveAddressCount 0 (copyExtensions b j)))
      with (in_semantics j).
    rewrite Ho. by destruct (cond =? 1). }
  rewrite E. set (k := set_effectiveAddressCount 0 (copyExtensions b j)).
  destruct (refine_preserves k is030) as [m ->]. by exists m.
Qed.

Lemma controlPlan_set_control c i : controlPlan (set_control c i) = controlPlan i.
Proof. by destruct i. Qed.

(** The control plan of a branch, from those fields. *)
Lemma branch_plan i cond d :
  sem_operation (in_semantics i)
    = (if cond =? 1 then SemanticOp.BranchSubroutine else SemanticOp.Branch) ->
  sem_condition (in_semantics i) = cond -> branchDisplacement i = d ->
  let c := controlPlan i in
  cf_valid c = true /\ cf_targetKnown c = true /\
  cf_target c = u32 (in_pc i + 2 + d) /\
  cf_fallthrough c = u32 (in_pc i + in_words i * 2) /\
  cf_pushesReturnAddress c = (cond =? 1) /\
  cf_conditional c = ((cond <>? 0) && (cond <>? 1)) /\
  (cond = 1 -> cf_returnAddress c = cf_fallthrough c).
Proof.
  intros Ho Hc Hd. cbv zeta. unfold controlPlan. rewrite Ho, Hc.
  destruct (cond =? 1) eqn:E1; unfold directDisplacement; rewrite Hd;
    cbn -[u32 Z.add Z.mul]; autorewrite with word32; split_and!;
    try done; rewrite ?andb_true_r, ?andb_false_r; try done.
  intros ->. done.
Qed.

(** The plan the finishing loop gives a relative branch. *)
Lemma materialise_branch_plan b is030 j cond d :
  sem_operation (in_semantics j)
    = (if cond =? 1 then SemanticOp.BranchSubroutine else SemanticOp.Branch) ->
  sem_condition (in_semantics j) = cond ->
  branchDisplacement (copyExtensions b j) = d ->
  let i := materialise b is030 j in
  let c := in_control i in
  in_words i = in_words j /\
  cf_valid c = true /\ cf_targetKnown c = true /\
  cf_target c = u32 (in_pc j + 2 + d) /\
  cf_fallthrough c = u32 (in_pc j + in_words j * 2) /\
  cf_pushesReturnAddress c = (cond =? 1) /\
  cf_conditional c = ((cond <>? 0) && (cond <>? 1)) /\
  (cond = 1 -> cf_returnAddress c = cf_fallthrough c).
Proof.
  intros Ho Hc Hd. cbv zeta.
  destruct (materialise_branch b is030 j cond Ho) as [m E]. cbv zeta in E.
  rewrite E. split; [reflexivity|].
  exact (branch_plan (set_memory m (set_effectiveAddressCount 0
           (copyExtensions b j))) cond d Ho Hc Hd).
Qed.

Lemma traceInstr_fields obs pc op words is030 :
  let j := traceInstr obs pc op words is030 in
  in_pc j = pc /\ in_opcode j = op /\ in_words j = u16 words /\
  in_semantics j = describeInstruction op /\
  in_extensions j = in_extensions obs.
Proof. done. Qed.

(** The copied extension words are the block's words after the opcode. *)
Lemma copied_word b j k :
  length (in_extensions j) = 10%nat -> 0 <= k < in_words j - 1 ->
  in_words j <= 11 ->
  extensionWord (copyExtensions b j) k
    = block_word b (u32 (in_pc j + 2 + u32 (k * 2))).
Proof.
  intros Hl Hk Hw. unfold extensionWord, copyExtensions. cbn -[u32 Z.mul].
  rewrite (proj2 (Z.ltb_lt 0 (in_words j))) by lia.
  unfold MaxExtensionWords.
  rewrite u8_small, Z.min_l by lia.
  rewrite (proj2 (Z.ltb_lt k _)) by lia.
  rewrite nth_lookup, list_lookup_imap.
  destruct (in_extensions j !! Z.to_nat k) eqn:E;
    [|apply lookup_ge_None in E; lia].
  cbn -[u32 Z.mul]. rewrite Z2Nat.id by lia.
  by rewrite (proj2 (Z.ltb_lt k _)) by lia.
Qed.

(** Word [k] after the opcode of the one-branch block. *)
Lemma branchBlock_word pc code k w :
  0 <= pc -> pc + 10 < 4294967296 -> 0 <= k < 4 ->
  (code.2 ++ [0; 0]) !! Z.to_nat k = Some w ->
  block_word (branchBlock pc code) (u32 (pc + 2 + u32 (k * 2))) = w.
Proof.
  intros Hpc Hmax Hk Hw. unfold block_word. cbn -[u32 Z.mul Z.add app].
  rewrite (u32_small (k * 2)), (u32_small (pc + 2 + _)), u32_small by lia.
  replace (pc + 2 + k * 2 - pc) with ((1 + k) * 2) by lia.
  rewrite Z.div_mul by lia.
  rewrite (proj2 (Z.leb_le pc _)) by lia. cbn [andb].
  pose proof (lookup_lt_Some _ _ _ Hw).
  rewrite (proj2 (Z.ltb_lt _ _)) by (cbn [length]; lia).
  replace (Z.to_nat (1 + k)) with (S (Z.to_nat k)) by lia.
  cbn [nth]. by rewrite nth_lookup, Hw.
Qed.

Lemma assembleBranch_cases cond d :
  let base := 0x6000 + cond * 256 in
  (assembleBranch cond d = (base + u8 d, []) /\ -128 <= d < 128 /\ d <> 0 /\
     d <> -1) \/
  (assembleBranch cond d = (base, [u16 d]) /\ -32768 <= d < 32768) \/
  assembleBranch cond d = (base + 0xFF, [u16 (d .>> 16); u16 d]).
Proof.
  cbv zeta. unfold assembleBranch.
  match goal with |- context [if ?b then _ else _] => destruct b eqn:E1 end.
  { left. unbool. split_and!; first [done | lia]. }
  match goal with |- context [if ?b then _ else _] => destruct b eqn:E2 end.
  - right. left. unbool. split; [done | lia].
  - auto.
Qed.

(** The displacement recovered from the words of an assembled branch. *)
Lemma assembled_displacement cond d pc j :
  0 <= cond < 16 -> -2147483648 <= d < 2147483648 ->
  0 <= pc -> pc + 10 < 4294967296 ->
  let code := assembleBranch cond d in
  in_pc j = pc -> in_opcode j = code.1 ->
  in_words j = branchWords code.1 0 -> length (in_extensions j) = 10%nat ->
  branchWords code.1 0 = 1 + Z.of_nat (length code.2) /\
  code.1 .& 0xF000 = 0x6000 /\ (code.1 .>> 8) .& 15 = cond /\
  branchDisplacement (copyExtensions (branchBlock pc code) j) = d.
Proof.
  intros Hc Hd Hpc Hmax code Hjpc Hop Hw Hext.
  assert (Hx : forall k w, 0 <= k < in_words j - 1 -> in_words j <= 3 ->
            (code.2 ++ [0; 0]) !! Z.to_nat k = Some w ->
            extensionWord (copyExtensions (branchBlock pc code) j) k = w).
  { intros k w Hk H3 Hlook. rewrite copied_word, Hjpc by (assumption || lia).
    by apply branchBlock_word; [..|lia|]. }
  unfold branchDisplacement.
  change (in_words (copyExtensions (branchBlock pc code) j)) with (in_words j).
  change (in_opcode (copyExtensions (branchBlock pc code) j)) with (in_opcode j).
  destruct (assembleBranch_cases cond d) as [(E & Hr & Hz & Hm) | [(E & Hr) | E]];
    fold code in E; rewrite E in *; cbn [fst snd] in *; clear E code.
  - destruct (branch_fields cond (u8 d) Hc (u8_range d)) as (Hl & Hcc & Hb).
    assert (u8 d <> 0 /\ u8 d <> 255) as [H0 H255].
    { assert (s8 (u8 d) = d) as Hs by (apply s8_u8; lia).
      split; intros Heq; rewrite Heq in Hs; vm_compute in Hs; lia. }
    assert (Hbw : branchWords (0x6000 + cond * 256 + u8 d) 0 = 1).
    { unfold branchWords. rewrite Hl, Hb.
      by rewrite (proj2 (Z.eqb_neq _ _) H0), (proj2 (Z.eqb_neq _ _) H255). }
    rewrite Hbw in *. rewrite Hw, Hop, Hb.
    split_and!; try done. apply s8_u8. lia.
  - destruct (branch_fields cond 0 Hc ltac:(lia)) as (Hl & Hcc & Hb).
    rewrite Z.add_0_r in *.
    assert (Hbw : branchWords (0x6000 + cond * 256) 0 = 2)
      by (unfold branchWords; by rewrite Hl, Hb).
    rewrite Hbw in *. rewrite Hw. split_and!; try done.
    cbn [Z.eqb Pos.eqb]. rewrite (Hx 0 (u16 d)) by (lia || done).
    apply s16_u16. lia.
  - destruct (branch_fields cond 255 Hc ltac:(lia)) as (Hl & Hcc & Hb).
    assert (Hbw : branchWords (0x6000 + cond * 256 + 255) 0 = 3)
      by (unfold branchWords; by rewrite Hl, Hb).
    rewrite Hbw in *. rewrite Hw. split_and!; try done.
    cbn [Z.eqb Pos.eqb]. unfold extensionLong.
    rewrite (Hx 0 (u16 (d .>> 16))), (Hx (0 + 1) (u16 d)) by (lia || done).
    by apply s32_halves.
Qed.

(** Round trip for relative branches: assembling Bcc/BRA/BSR with any
    displacement [d] in the shortest encoding, tracing it and finishing the
    block yields a control-flow plan whose target is [pc + 2 + d], whose
    fall-through is the address after the instruction's words, which is
    conditional exactly for a real condition code and which pushes exactly for
    BSR, the return address then being the fall-through. *)
Theorem branch_roundtrip obs pc cond d is030 :
  0 <= cond < 16 -> -2147483648 <= d < 2147483648 ->
  0 <= pc -> pc + 10 < 4294967296 ->
  let code := assembleBranch cond d in
  let c := in_control (tracedBranch obs pc code is030) in
  cf_valid c = true /\ cf_targetKnown c = true /\
  cf_target c = u32 (pc + 2 + d) /\
  cf_fallthrough c = pc + 2 + 2 * Z.of_nat (length code.2) /\
  cf_pushesReturnAddress c = (cond =? 1) /\
  cf_conditional c = ((cond <>? 0) && (cond <>? 1)) /\
  (cond = 1 -> cf_returnAddress c = cf_fallthrough c).
Proof.
  intros Hc Hd Hpc Hmax. cbv zeta. unfold tracedBranch.
  set (code := assembleBranch cond d).
  destruct (traceInstr_fields (set_extensions (replicate 10 0) obs) pc code.1
              (branchWords code.1 0) is030) as (Epc & Eop & Ew & Es & Ex).
  set (j := traceInstr _ _ _ _ _) in *.
  assert (Hlen : (length code.2 <= 2)%nat).
  { unfold code. destruct (assembleBranch_cases cond d) as [(-> & _)|[(-> & _)| ->]];
      cbn; lia. }
  assert (Hbw : u16 (branchWords code.1 0) = branchWords code.1 0).
  { apply u16_small. unfold branchWords, indexedExtensionWords. split_tests; lia. }
  rewrite Hbw in Ew.
  destruct (assembled_displacement cond d pc j Hc Hd Hpc Hmax Epc Eop Ew
              ltac:(by rewrite Ex)) as (Hw & Hl & Hcond & Hdisp).
  fold code in Hw, Hl, Hcond, Hdisp.
  destruct (describeBranch _ _ Hl Hcond) as [Ho Hcc].
  rewrite <- Es in Ho, Hcc.
  destruct (materialise_branch_plan (branchBlock pc code) is030 j cond d Ho Hcc Hdisp)
    as (_ & Hv & Hk & Ht & Hf & Hp & Hcd & Hr).
  rewrite Epc, Ew, Hw in *. split_and!; auto.
  rewrite Hf. fold code. rewrite u32_small; lia.
Qed.

Lemma branch_roundtrip_witness :
  let code := assembleBranch 1 (-300) in
  cf_target (in_control (tracedBranch Instr0 0x1000 code true)) = 0x1000 + 2 - 300.
Proof.
  destruct (branch_roundtrip Instr0 0x1000 1 (-300) true) as (_ & _ & H & _);
    [lia|lia|lia|lia|]. exact H.
Defined.

(** ** Properties *)

(** Opcode patterns, a mask and a value each. *)
Definition matches (rows : list (Z * Z)) (op : Z) : bool :=
  existsb (fun r => op .& fst r =? snd r) rows.

(** The encodings a block must stop in front of, from the instruction set. *)
Definition stopsBefore : list (Z * Z) := [
  (0xF0FF, 0x003C); (0xF0FF, 0x007C);            (* immediate to CCR, to SR; any other use of that operand field *)
  (0xFF00, 0x0E00);                              (* MOVES, CAS.L, CAS2.L *)
  (0xFFC0, 0x0AC0); (0xFFC0, 0x0CC0);            (* CAS.B, CAS.W, CAS2.W *)
  (0xFFC0, 0x00C0); (0xFFC0, 0x02C0); (0xFFC0, 0x04C0);   (* CMP2, CHK2 *)
  (0xFFC8, 0x40C8); (0xFFD0, 0x40D0); (0xFFE0, 0x40E0);   (* MOVE from SR, not to a data register *)
  (0xFFC0, 0x42C0); (0xFFC0, 0x44C0); (0xFFC0, 0x46C0);   (* MOVE from CCR, to CCR, to SR *)
  (0xFFC0, 0x4AC0); (0xFFF8, 0x4848);            (* TAS and ILLEGAL, BKPT *)
  (0xFFC0, 0x4E00); (0xFFF0, 0x4E40); (0xFFF0, 0x4E60);   (* unassigned, TRAP, MOVE USP *)
  (0xFFFF, 0x4E70); (0xFFFF, 0x4E72); (0xFFFF, 0x4E73); (0xFFFF, 0x4E74);   (* RESET, STOP, RTE, RTD *)
  (0xFFFF, 0x4E76); (0xFFFF, 0x4E77); (0xFFF8, 0x4E78);   (* TRAPV, RTR, MOVEC *)
  (0xFFF0, 0x4EC0); (0xFFF8, 0x4ED8); (0xFFF8, 0x4EE0); (0xFFF8, 0x4EF0);   (* JMP by index, *)
  (0xFFFF, 0x4EFB); (0xFFFC, 0x4EFC);            (* or with a mode it does not have *)
  (0xF0F8, 0x50F8);                              (* TRAPcc, Scc absolute *)
  (0xF000, 0xA000);                              (* line A *)
  (0xFE00, 0xF000); (0xFFC0, 0xF240); (0xFF80, 0xF280); (0xFF00, 0xF300);
  (0xFC00, 0xF400); (0xF800, 0xF800)].           (* line F except the general FPU instructions F200 to F23F *)

(** The encodings that end a block as its last instruction. *)
Definition stopsAfter : list (Z * Z) := [
  (0xF000, 0x6000); (0xF0F8, 0x50C8);            (* Bcc, BRA and BSR; DBcc *)
  (0xFFC0, 0x4E80); (0xFFFF, 0x4E75);            (* JSR, RTS *)
  (0xFFF8, 0x4ED0); (0xFFF8, 0x4EE8);            (* JMP (An), JMP d16(An) *)
  (0xFFFF, 0x4EF8); (0xFFFF, 0x4EF9); (0xFFFF, 0x4EFA)].   (* JMP absolute, JMP d16(PC) *)

Lemma classify_swept :
  all_below 16 (fun op => eqb (endsBlock (classify op)) (matches stopsBefore op) &&
                          eqb (endsBlockAfter (classify op)) (matches stopsAfter op)) = true.
Proof. vm_compute. reflexivity. Qed.

(** C36. The classifier ends a block exactly where the instruction set asks for
    it.  Over all 65536 opcode words, those it refuses are exactly the privileged
    and trapping instructions, the locked ones, lines A and F (the general FPU
    instructions apart), the jumps by index and the other encodings of
    [stopsBefore]; those that end a block after them are exactly the branches,
    calls, returns and plain jumps of [stopsAfter].  It agrees with the decoder:
    every opcode the decoder calls a control transfer is one of the latter or a
    refused jump, and a refused opcode is one the decoder does not describe, a
    jump, or a bit instruction on an immediate operand (BTST Dn,#imm). *)
Theorem classify_exact op :
  0 <= op < 65536 ->
  let s := describeInstruction op in
  endsBlock (classify op) = matches stopsBefore op /\
  endsBlockAfter (classify op) = matches stopsAfter op /\
  (isControl s = true <->
     matches stopsAfter op = true \/
     (matches stopsBefore op = true /\ sem_operation s = SemanticOp.Jump)) /\
  (matches stopsBefore op = true ->
     sem_valid s = false \/ sem_operation s = SemanticOp.Jump \/
     (sem_operation s = SemanticOp.Bit /\ sem_eaMode s = 7 /\ sem_eaReg s = 4)).
Proof.
  intros Hop. pose proof (agree_all op Hop) as H. cbv zeta.
  pose proof (all_below_sound 16 _ op classify_swept Hop) as Hs. apply andb_true_iff in Hs as [<-%eqb_prop <-%eqb_prop].
  split; [done|]. split; [done|].
  unfold agree, endsBlock, endsBlockAfter, sem_valid, isControl in *.
  set (k := classify op) in *. set (s := describeInstruction op) in *.
  clearbody k s. split; [split|]; destruct k eqn:Ek; cbn in *;
    destruct (sem_operation s) eqn:E; cbn in *;
    try discriminate; try tauto;
    try (intros [E'|[_ E']]; discriminate E').
  intros _. right. right. repeat (case_bool_decide; try done). cbn in H.
  unbool. done.
Qed.

(** RTS ends a block, RTE is refused. *)
Lemma classify_exact_witness :
  endsBlockAfter (classify 0x4E75) = true /\ endsBlock (classify 0x4E73) = true.
Proof.
  split; [|exact (proj1 (classify_exact 0x4E73 ltac:(lia)))].
  exact (proj1 (proj2 (classify_exact 0x4E75 ltac:(lia)))).
Defined.

(** The module calls of the 68020 are neither refused nor the last of a block. *)
Example module_calls_pass : forall op, 0x06C0 <= op < 0x0700 -> endsBlock (classify op) = false.
Proof.
  intros op Hop.
  assert (C : forallb (fun op => negb (endsBlock (classify op))) (seqZ 0x06C0 64) = true) by (vm_compute; reflexivity).
  rewrite forallb_forall in C. apply negb_true_iff, C, list_elem_of_In, elem_of_seqZ. lia.
Qed.

(** C39. Whatever the opcode word, a described instruction has its
    effective-address and register fields below 8, a size index below 3 when
    the operation is sized, encoded destination fields, condition code, ALU
    operation and sub-operation selector in range when the operation has
    them; the [0xFF] sentinels never leak into a field the operation uses. *)
Theorem describeInstruction_wf op :
  sem_valid (describeInstruction op) = true ->
  semantics_wf (describeInstruction op).
Proof.
  intros H. apply describeInstruction_part. intros E.
  unfold sem_valid in H. rewrite E in H. discriminate H.
Qed.

Lemma describeInstruction_wf_witness :
  sem_operation (describeInstruction 0x4C40) = SemanticOp.DivideLong /\
  in_range 3 (sem_sizeIndex (describeInstruction 0x4C40)).
Proof.
  split; [reflexivity|].
  apply (sw_size _ (describeInstruction_wf 0x4C40 eq_refl)). reflexivity.
Defined.

(** Decoding an effective address consumes exactly the extension words the
    68020 encoding defines for the mode, accepts exactly the encodable
    addresses, and an accepted plan never depends on a word beyond the
    recorded payload. *)
Theorem decodeEffectiveAddress_spec i role mode reg size offset :
  0 <= mode < 8 -> 0 <= reg < 8 ->
  let e := decodeEffectiveAddress i role mode reg size offset in
  let ext := extensionWord i offset in
  (offset + eaWords mode reg size ext <= in_extensionCount i ->
     ea_extensionWords e = eaWords mode reg size ext /\
     ea_valid e = encodableEa mode reg ext) /\
  (ea_valid e = true ->
     ea_extensionWords e = 0 \/
     offset + ea_extensionWords e <= in_extensionCount i).
Proof.
  intros Hm Hr. cbv zeta. split; [|apply decode_window].
  intros Hn. replace (extensionWord i offset) with (ea_word i offset 0) in *
    by (unfold ea_word; by rewrite Z.add_0_r).
  destruct (decode_shape i role mode reg size offset Hm) as [Hw Hv];
    [by apply Z.leb_le|]. auto.
Qed.

(** MOVE.L ([4,A0],D1.L*2,8),D0: a full-format memory-indirect source. *)
Definition probe_indirect : Instr :=
  set_extensionCount 3 (set_extensions ([0x1B22; 4; 8] ++ replicate 7 0) Instr0).

Lemma decodeEffectiveAddress_spec_witness :
  ea_extensionWords
    (decodeEffectiveAddress probe_indirect OperandRole.Source 6 0 2 0) = 3 /\
  ea_valid (decodeEffectiveAddress probe_indirect OperandRole.Source 6 0 2 0)
    = true.
Proof.
  destruct (decodeEffectiveAddress_spec probe_indirect OperandRole.Source 6 0 2 0)
    as [H _]; [lia|lia|]. apply H. vm_compute. discriminate.
Defined.

(** The tracer's length table agrees with the effective-address decoder:
    for JSR and JMP with any control address, [branchWords] is one plus the
    extension words the decoder consumes. *)
Theorem branchWords_matches_decoder i role op :
  op .& 0xFF80 = 0x4E80 ->
  controlEncodingAllowed ((op .>> 3) .& 7) (op .& 7) = true ->
  let words := branchWords op (extensionWord i 0) in
  words - 1 <= in_extensionCount i ->
  words = 1 + ea_extensionWords (decodeEffectiveAddress i role
                ((op .>> 3) .& 7) (op .& 7) 2 0).
Proof.
  intros Hop Hc. cbv zeta. rewrite (branchWords_jump _ _ Hop Hc). intros Hn.
  destruct (decode_shape i role ((op .>> 3) .& 7) (op .& 7) 2 0) as [-> _].
  - apply land_7_range.
  - apply Z.leb_le. change (ea_word i 0 0) with (extensionWord i 0). lia.
  - done.
Qed.

Lemma branchWords_matches_decoder_witness :
  branchWords 0x4EB0 (extensionWord probe_indirect 0) = 4.
Proof.
  rewrite (branchWords_matches_decoder probe_indirect OperandRole.Control 0x4EB0);
    [reflexivity|reflexivity|reflexivity|]. vm_compute. discriminate.
Defined.
