(* ===== verification/JitRefineFacts.v ===== *)
(** * JitRefineFacts: contracts refined from the extension words

    The bitfield span test, the effect of [refineMemoryFromExtensions] on the
    contract, and the token shapes the emitters demand of
    read-modify-write and crossing-bitfield contracts. *)

From S2P Require Import Prelude.
From S2P Require Import JitTypes.
From S2P Require Import JitDecode.
From S2P Require Import JitMemory.
From S2P Require Import JitEa.
From S2P Require Import JitMemoryFacts.
From stdpp Require Import base list numbers option decidable.

Open Scope Z_scope.

(** ** The span of a memory bitfield *)

(** The bit offset inside the first longword and the width of the field the
    extension word [ext] selects, when the offset and width registers hold
    [dOffset] and [dWidth] (MC68020 user's manual: the byte part of the offset
    moves the address, width 0 means 32). *)
Definition fieldBit (ext dOffset : Z) : Z :=
  (if ext .& 0x0800 =? 0 then (ext .>> 6) .& 31 else dOffset) mod 8.
Definition fieldWidth (ext dWidth : Z) : Z :=
  let w := (if ext .& 0x0020 =? 0 then ext else dWidth) mod 32 in
  if w =? 0 then 32 else w.

Lemma fieldWidth_range ext d : 1 <= fieldWidth ext d <= 32.
Proof.
  unfold fieldWidth. pose proof (Z.mod_pos_bound
    (if ext .& 0x0020 =? 0 then ext else d) 32 ltac:(lia)).
  destruct (Z.eqb_spec ((if ext .& 0x0020 =? 0 then ext else d) mod 32) 0); lia.
Qed.

(** [((w - 1) & 31) + 1] on unsigned 32-bit values is [w] with 0 read as 32. *)
Lemma width_encoding w :
  0 <= w < 32 -> (u32 (w - 1) .& 31) + 1 = (if w =? 0 then 32 else w).
Proof.
  intros Hw. destruct (Z.eqb_spec w 0) as [->|Hn]; [done|].
  rewrite u32_small by lia. change 31 with (2 ^ 5 - 1).
  rewrite land_mask_mod by lia. rewrite Z.mod_small; lia.
Qed.

Lemma land_31_mod x : x .& 31 = x mod 32.
Proof. change 31 with (2 ^ 5 - 1). by rewrite land_mask_mod by lia. Qed.

Lemma land_7_mod x : x .& 7 = x mod 8.
Proof. change 7 with (2 ^ 3 - 1). by rewrite land_mask_mod by lia. Qed.

(** [memoryBitfieldFitsLongword] is exact: it holds of an extension word
    if and only if, for every value of the offset and width registers, the
    selected field ends inside the first longword. *)
Theorem memoryBitfieldFitsLongword_exact ext :
  memoryBitfieldFitsLongword ext = true <->
  forall dOffset dWidth, fieldBit ext dOffset + fieldWidth ext dWidth <= 32.
Proof.
  unfold memoryBitfieldFitsLongword. rewrite Z.leb_le.
  pose proof (fun d => Z.mod_pos_bound d 8 ltac:(lia)) as Hm.
  assert (Hb : forall d, fieldBit ext d <=
            (if ext .& 0x0800 =? 0 then (ext .>> 6) .& 7 else 7)).
  { intros d. unfold fieldBit. destruct (_ =? 0).
    - rewrite land_31_mod, land_7_mod, (Z.mod_mod_divide _ 32 8) by (by exists 4).
      lia.
    - specialize (Hm d). lia. }
  assert (Hw : forall d, fieldWidth ext d <=
            (if ext .& 0x0020 =? 0 then (u32 ((ext .& 31) - 1) .& 31) + 1 else 32)).
  { intros d. destruct (ext .& 0x0020 =? 0) eqn:E.
    - unfold fieldWidth. rewrite E, width_encoding, land_31_mod.
      + reflexivity.
      + rewrite land_31_mod. apply Z.mod_pos_bound. lia.
    - pose proof (fieldWidth_range ext d). lia. }
  split.
  - intros H d d'. specialize (Hb d). specialize (Hw d'). lia.
  - intros H. specialize (H 7 0). revert H. unfold fieldBit, fieldWidth.
    destruct (ext .& 0x0800 =? 0), (ext .& 0x0020 =? 0); intros H;
      rewrite ?width_encoding, ?land_31_mod, ?land_7_mod in *
        by (rewrite ?land_31_mod; apply Z.mod_pos_bound; lia);
      rewrite ?(Z.mod_mod_divide _ 32 8) in H by (by exists 4); exact H.
Qed.

(** ** Refinement keeps contracts well formed *)

(** The four-access contract of a crossing bitfield. *)
Lemma crossing_good m r is030 :
  let operand direction bytes fault :=
    memoryAccess direction MemoryOperand.Operand bytes m r is030 fault in
  contract_good
    (mkContract true 4 MemoryOrder.Sequential 3 false
       [operand MemoryDirection.Read 4 FaultPhase.RestartInstruction;
        operand MemoryDirection.Write 4 FaultPhase.PartialWriteCommitted;
        operand MemoryDirection.Read 1 FaultPhase.PartialWriteCommitted;
        operand MemoryDirection.Write 1 FaultPhase.LastWrite]) = true.
Proof. cbv -[Z.eqb]. by rewrite !Z.eqb_refl. Qed.

Lemma bitfieldContract_good s ext is030 :
  contract_good (bitfieldContract s ext is030) = true.
Proof.
  unfold bitfieldContract.
  match goal with |- context [negb ?r] => destruct r end; cbn [negb];
    destruct (memoryBitfieldFitsLongword ext); try reflexivity.
  apply crossing_good.
Qed.

Lemma indirectReadContract_good s operand is030 :
  operand <> MemoryOperand.Control ->
  contract_good (indirectReadContract s operand is030) = true.
Proof. intros H. destruct operand; try reflexivity; done. Qed.

Lemma indirectControlContract_good s is030 :
  let c := indirectControlContract s is030 in
  if sem_operation s == SemanticOp.JumpSubroutine
  then mc_lastWrite c = NoLastWrite /\
       contract_good (set_lastWrite 1 c) = true
  else contract_good c = true.
Proof.
  cbv zeta. unfold indirectControlContract.
  destruct (_ == _); [split|]; reflexivity.
Qed.

Lemma exactRequired_good c :
  contract_good c = true ->
  contract_good (set_access 0 (set_exactRequired true (access c 0)) c) = true.
Proof.
  unfold contract_good. rewrite !andb_true_iff. destruct c as [d n o l p acc].
  destruct acc as [|a0 [|a1 [|a2 [|a3 [|? ?]]]]]; intros [Hok Hk];
    try (unfold contract_ok in Hok; cbn in Hok; rewrite andb_false_r in Hok;
         discriminate Hok).
  pose proof (wf_count _ (contract_ok_wf _ Hok)) as Hn. cbn in Hn.
  rewrite !elem_of_cons, elem_of_nil in Hn.
  destruct a0, Hn as [-> | [-> | [-> | [-> | [-> | []]]]]]; exact (conj Hok Hk).
Qed.

Lemma refineExactStore_good i is030 :
  contract_good (in_memory i) = true ->
  contract_good (in_memory (refineExactStore i is030)) = true.
Proof.
  intros H. unfold refineExactStore.
  match goal with |- context [if ?b then _ else _] => destruct b end; [|exact H].
  by apply exactRequired_good.
Qed.

(** Operand plans do not touch the contract or the semantics. *)
Lemma describeEas_preserves i :
  in_memory (describeEffectiveAddresses i) = in_memory i /\
  in_semantics (describeEffectiveAddresses i) = in_semantics i.
Proof.
  assert (A : forall role mode reg size offset j,
    in_memory (snd (addEa role mode reg size offset j)) = in_memory j /\
    in_semantics (snd (addEa role mode reg size offset j)) = in_semantics j).
  { intros. unfold addEa. by destruct (_ <=? _). }
  assert (B : forall role mode reg size offset j u k,
    addEa role mode reg size offset j = (u, k) ->
    in_memory k = in_memory j /\ in_semantics k = in_semantics j).
  { intros * E. pose proof (A role mode reg size offset j) as H.
    rewrite E in H. exact H. }
  unfold describeEffectiveAddresses.
  set (i0 := set_effectiveAddressCount 0 i).
  change (in_semantics i) with (in_semantics i0).
  change (in_memory i) with (in_memory i0).
  destruct (sem_operation (in_semantics i0)); try apply A; try done;
    repeat match goal with
    | |- context [let '(_, _) := addEa ?a ?b ?c ?d ?e ?f in _] =>
        let E := fresh "E" in destruct (addEa a b c d e f) eqn:E;
        apply B in E as [<- <-]
    | |- context [let '(_, _) := if ?b then _ else _ in _] => destruct b
    end; apply A.
Qed.

(** The contract left by refinement, by the branch taken. *)
Lemma refine_good i is030 :
  contract_good (in_memory i) = true ->
  let m := in_memory (refineMemoryFromExtensions i is030) in
  contract_good m = true \/
  (sem_operation (in_semantics i) = SemanticOp.JumpSubroutine /\
   mc_lastWrite m = NoLastWrite /\ contract_good (set_lastWrite 1 m) = true).
Proof.
  intros H. cbv zeta. unfold refineMemoryFromExtensions.
  destruct (_ =? 0); [by left|].
  repeat match goal with
  | |- context [if ?b then set_memory _ _ else _] => destruct b eqn:?
  end; try (left; first
    [ apply bitfieldContract_good | by apply indirectReadContract_good
    | by apply refineExactStore_good ]).
  cbn [in_memory set_memory].
  pose proof (indirectControlContract_good (in_semantics i) is030) as Hc.
  cbv zeta in Hc. destruct (_ == SemanticOp.JumpSubroutine) eqn:E in Hc; [|by left].
  right. unbool. tauto.
Qed.

(** Refining a traced instruction's contract from its extension words keeps
    it well formed (described, fault phases in order, cache bits matching the
    directions, a four-access contract only in the crossing-bitfield shape),
    with one exception: a memory-indirect JSR, whose contract lists the stack
    write but records no last write, and is well formed once that write is
    recorded. *)
Theorem refineMemory_wf obs at_ op words b is030 :
  let i := describeEffectiveAddresses
             (copyExtensions b (traceInstr obs at_ op words is030)) in
  let m := in_memory (refineMemoryFromExtensions i is030) in
  contract_wf m \/
  (sem_operation (describeInstruction op) = SemanticOp.JumpSubroutine /\
   mc_lastWrite m = NoLastWrite /\ contract_wf (set_lastWrite 1 m)).
Proof.
  cbv zeta. set (j := copyExtensions b (traceInstr obs at_ op words is030)).
  destruct (describeEas_preserves j) as [Em Es].
  destruct (refine_good (describeEffectiveAddresses j) is030) as [H|(H1 & H2 & H3)].
  - rewrite Em. apply describeMemory_good.
  - left. by apply contract_good_wf.
  - right. rewrite Es in H1. split_and!; [exact H1|exact H2|].
    by apply contract_good_wf.
Qed.

(** The memory-indirect JSR: JSR ([4,A0],D1.L*2,8). *)
Definition probe_jsr : Instr :=
  refineMemoryFromExtensions
    (describeEffectiveAddresses
       (set_extensionCount 3
         (set_extensions ([0x1B22; 4; 8] ++ replicate 7 0)
           (traceInstr Instr0 0x1000 0x4EB0 4 true)))) true.

(** The exception is real: for JSR ([4,A0],D1.L*2,8) the refined contract
    publishes a stack write in slot 1 and still says that no access is the
    last write. *)
Theorem jsr_indirect_lastWrite_missing :
  mc_count (in_memory probe_jsr) = 2 /\
  acc_direction (access (in_memory probe_jsr) 1) = MemoryDirection.Write /\
  acc_fault (access (in_memory probe_jsr) 1) = FaultPhase.LastWrite /\
  mc_lastWrite (in_memory probe_jsr) = NoLastWrite.
Proof. vm_compute. auto. Qed.

(** ** Token shapes *)

(** The bitfield actions that store: BFCHG, BFCLR, BFSET and BFINS. *)
Definition storesField (action : Z) : bool :=
  negb ((action =? 0) || (action =? 1) || (action =? 3) || (action =? 5)).

(** The token a backend gets for an access of the instruction's operand. *)
Definition operandToken (c : MemoryContract) (o : MemoryProofOptions)
  (operand : MemoryOperand) (direction : MemoryDirection) (bytes mode reg : Z)
  : MemoryAccessPlan :=
  memoryAccessPlan c (memoryProofPlan c o) direction operand bytes mode reg.

(** Asking a good contract for the access in slot [k]. *)
Lemma operandToken_slot c o k d op b m r i f :
  contract_good c = true -> 0 <= k < contractSlots c ->
  access c k = memoryAccess d op b m r i f ->
  operandToken c o op d b m r = tokenOf c (memoryProofPlan c o) k.
Proof.
  intros Hg Hk Ha.
  pose proof (ask_slot c o (contract_good_wf c Hg)
                (proj2 (andb_prop _ _ Hg)) k Hk) as H.
  unfold requestOf in H. rewrite Ha in H. exact H.
Qed.

Lemma setRmw_tokens bytes mode reg is030 operand o :
  let c := setRmw bytes mode reg is030 operand described0 in
  memoryRmwAccessPair
    (operandToken c o operand MemoryDirection.Read bytes mode reg)
    (operandToken c o operand MemoryDirection.Write bytes mode reg) = true.
Proof.
  cbv zeta. set (c := setRmw bytes mode reg is030 operand described0).
  assert (Hg : contract_good c = true) by apply setRmw_good.
  rewrite (operandToken_slot c o 0 _ _ _ _ _ is030
    FaultPhase.RestartInstruction Hg ltac:(done) eq_refl).
  rewrite (operandToken_slot c o 1 _ _ _ _ _ is030
    FaultPhase.LastWrite Hg ltac:(done) eq_refl).
  unfold memoryRmwAccessPair. cbn -[Z.eqb].
  rewrite Z.eqb_refl, (bool_decide_eq_true_2 (operand = operand)) by done. done.
Qed.

Lemma crossing_tokens s ext is030 o :
  storesField (sem_action s) = true -> memoryBitfieldFitsLongword ext = false ->
  let c := bitfieldContract s ext is030 in
  let token direction bytes :=
    operandToken c o MemoryOperand.Operand direction bytes (sem_eaMode s)
      (sem_eaReg s) in
  memoryRmwTailAccessSequence (token MemoryDirection.Read 4)
    (token MemoryDirection.Write 4) (token MemoryDirection.Read 1)
    (token MemoryDirection.Write 1) = true.
Proof.
  intros Hs Hf. cbv zeta. set (c := bitfieldContract s ext is030).
  assert (Hg : contract_good c = true) by apply bitfieldContract_good.
  unfold c, bitfieldContract in *. unfold storesField in Hs. rewrite Hs, Hf in *.
  clear c. cbn [negb] in *. set (c := set_lastWrite 3 _) in *.
  rewrite (operandToken_slot c o 0 _ _ _ _ _ is030
    FaultPhase.RestartInstruction Hg ltac:(done) eq_refl).
  rewrite (operandToken_slot c o 1 _ _ _ _ _ is030
    FaultPhase.PartialWriteCommitted Hg ltac:(done) eq_refl).
  rewrite (operandToken_slot c o 2 _ _ _ _ _ is030
    FaultPhase.PartialWriteCommitted Hg ltac:(done) eq_refl).
  rewrite (operandToken_slot c o 3 _ _ _ _ _ is030
    FaultPhase.LastWrite Hg ltac:(done) eq_refl).
  assert (Hp : crossingBitfieldShape c = true)
    by exact (wf_crossing _ (contract_good_wf c Hg) eq_refl).
  unfold memoryProofPlan. rewrite Hp. reflexivity.
Qed.

(** Every storing memory bitfield hands its emitter the tokens the emitter
    insists on: a read/write pair accepted by [memoryRmwAccessPair] when the
    field always fits the longword, and otherwise the four tokens accepted by
    [memoryRmwTailAccessSequence], whatever the policy options. *)
Theorem bitfield_tokens s ext is030 o :
  storesField (sem_action s) = true ->
  let c := bitfieldContract s ext is030 in
  let token direction bytes :=
    operandToken c o MemoryOperand.Operand direction bytes (sem_eaMode s)
      (sem_eaReg s) in
  if memoryBitfieldFitsLongword ext
  then memoryRmwAccessPair (token MemoryDirection.Read 4)
         (token MemoryDirection.Write 4) = true
  else memoryRmwTailAccessSequence (token MemoryDirection.Read 4)
         (token MemoryDirection.Write 4) (token MemoryDirection.Read 1)
         (token MemoryDirection.Write 1) = true.
Proof.
  intros Hs. cbv zeta.
  destruct (memoryBitfieldFitsLongword ext) eqn:Hf;
    [|exact (crossing_tokens s ext is030 o Hs Hf)].
  unfold storesField in Hs. unfold bitfieldContract. rewrite Hs, Hf. cbn [negb].
  exact (setRmw_tokens 4 (sem_eaMode s) (sem_eaReg s) is030 MemoryOperand.Operand o).
Qed.

Lemma bitfield_tokens_witness :
  memoryRmwTailAccessSequence
    (operandToken (bitfieldContract (describeInstruction 0xEFD0) 0x07C0 true)
       MemoryProofOptions0 MemoryOperand.Operand MemoryDirection.Read 4 2 0)
    (operandToken (bitfieldContract (describeInstruction 0xEFD0) 0x07C0 true)
       MemoryProofOptions0 MemoryOperand.Operand MemoryDirection.Write 4 2 0)
    (operandToken (bitfieldContract (describeInstruction 0xEFD0) 0x07C0 true)
       MemoryProofOptions0 MemoryOperand.Operand MemoryDirection.Read 1 2 0)
    (operandToken (bitfieldContract (describeInstruction 0xEFD0) 0x07C0 true)
       MemoryProofOptions0 MemoryOperand.Operand MemoryDirection.Write 1 2 0)
  = true.
Proof.
  exact (bitfield_tokens (describeInstruction 0xEFD0) 0x07C0 true
           MemoryProofOptions0 eq_refl).
Defined.

(** ** Scc with an absolute destination *)

(** Scc <abs>: condition [cond], register field 0 ((xxx).W) or 1 ((xxx).L). *)
Definition sccAbsolute (cond reg : Z) : Z := 0x50C0 + cond * 256 + 0x38 + reg.

Lemma scc_swept :
  forallb (fun cond => forallb (fun reg =>
      let op := sccAbsolute cond reg in
      endsBlock (classify op) && negb (sem_valid (describeInstruction op)) &&
      (mc_count (describeMemory op true) =? 1) &&
      (acc_direction (access (describeMemory op true) 0) == MemoryDirection.Write))
    [0; 1]) (seqZ 0 16) = true.
Proof. vm_compute. done. Qed.

(** The TRAPcc test also catches Scc with an absolute destination: for
    every condition, [classify] refuses Scc (xxx).W and Scc (xxx).L and
    [describeInstruction] leaves them undescribed, while [describeMemory]
    publishes the one-byte write of a Scc. *)
Theorem scc_absolute_refused cond reg :
  0 <= cond < 16 -> 0 <= reg < 2 ->
  let op := sccAbsolute cond reg in
  endsBlock (classify op) = true /\
  sem_valid (describeInstruction op) = false /\
  mc_count (describeMemory op true) = 1 /\
  acc_direction (access (describeMemory op true) 0) = MemoryDirection.Write.
Proof.
  intros Hc Hr. cbv zeta. pose proof scc_swept as H. rewrite forallb_forall in H.
  specialize (H cond). rewrite <- list_elem_of_In, elem_of_seqZ in H.
  specialize (H ltac:(lia)). cbn beta in H. rewrite forallb_forall in H.
  specialize (H reg ltac:(cbn; lia)). cbv zeta in H. unbool. auto.
Qed.

Lemma scc_absolute_refused_witness :
  endsBlock (classify (sccAbsolute 2 0)) = true.
Proof. apply (scc_absolute_refused 2 0); lia. Defined.
