(* ===== verification/Via6522.v ===== *)
(** * Via6522: the versatile interface adapter

    [src/Via6522.h] and [src/Via6522.cpp].  The fields of the class are the
    fields of the record, under the same names (the trace switch apart, which
    only prints).  Registers and flags are bytes; the two counters and the
    shift countdown are C [int]s, which stay far inside their range for the
    slices the machines pass to [tick], and are plain integers here. *)

From S2P Require Import Prelude.
From stdpp Require Import base list numbers option decidable.

Open Scope Z_scope.

Record Via := mkVia {
  ora_ : Z; orb_ : Z; ddra_ : Z; ddrb_ : Z;
  inA_ : Z; inB_ : Z;
  acr_ : Z; pcr_ : Z; sr_ : Z; ifr_ : Z; ier_ : Z;
  srHostWritten_ : bool;
  shiftCount_ : Z;
  extBits_ : Z;
  mscShiftQuirk_ : bool;
  extIntCb1_ : bool;
  extByteDone_ : bool;
  pmuIntAsserted_ : bool;
  extCb1_ : bool;
  cb1_ : bool; cb2_ : bool;
  t1_ : Z; t2_ : Z;
  t1Pb7_ : bool;
  t1latch_ : Z;
  t2ll_ : Z;
  t1armed_ : bool; t2armed_ : bool;
  t2hold_ : Z;
  ca1Cleared : Z
}.

#[export] Instance eta_via : Eta Via := fun s =>
  mkVia (ora_ s) (orb_ s) (ddra_ s) (ddrb_ s) (inA_ s) (inB_ s) (acr_ s) (pcr_ s) (sr_ s)
    (ifr_ s) (ier_ s) (srHostWritten_ s) (shiftCount_ s) (extBits_ s) (mscShiftQuirk_ s)
    (extIntCb1_ s) (extByteDone_ s) (pmuIntAsserted_ s) (extCb1_ s) (cb1_ s) (cb2_ s)
    (t1_ s) (t2_ s) (t1Pb7_ s) (t1latch_ s) (t2ll_ s) (t1armed_ s) (t2armed_ s) (t2hold_ s)
    (ca1Cleared s).

Definition set_ora := ltac:(set_field ora_).
Definition set_orb := ltac:(set_field orb_).
Definition set_ddra := ltac:(set_field ddra_).
Definition set_ddrb := ltac:(set_field ddrb_).
Definition set_inA := ltac:(set_field inA_).
Definition set_inB := ltac:(set_field inB_).
Definition set_acr := ltac:(set_field acr_).
Definition set_pcr := ltac:(set_field pcr_).
Definition set_sr := ltac:(set_field sr_).
Definition set_ifr := ltac:(set_field ifr_).
Definition set_ier := ltac:(set_field ier_).
Definition set_srHostWritten := ltac:(set_field srHostWritten_).
Definition set_shiftCount := ltac:(set_field shiftCount_).
Definition set_extBits := ltac:(set_field extBits_).
Definition set_mscShiftQuirk := ltac:(set_field mscShiftQuirk_).
Definition set_extIntCb1 := ltac:(set_field extIntCb1_).
Definition set_extByteDone := ltac:(set_field extByteDone_).
Definition set_pmuIntAsserted := ltac:(set_field pmuIntAsserted_).
Definition set_extCb1 := ltac:(set_field extCb1_).
Definition set_cb1 := ltac:(set_field cb1_).
Definition set_cb2 := ltac:(set_field cb2_).
Definition set_t1 := ltac:(set_field t1_).
Definition set_t2 := ltac:(set_field t2_).
Definition set_t1Pb7 := ltac:(set_field t1Pb7_).
Definition set_t1latch := ltac:(set_field t1latch_).
Definition set_t2ll := ltac:(set_field t2ll_).
Definition set_t1armed := ltac:(set_field t1armed_).
Definition set_t2armed := ltac:(set_field t2armed_).
Definition set_t2hold := ltac:(set_field t2hold_).
Definition set_ca1Cleared := ltac:(set_field ca1Cleared).

(** A chip as constructed. *)
Definition Via0 : Via :=
  mkVia 0 0 0 0 0xFF 0xFF 0 0 0 0 0 false 0 0 false true false false true true true
    0 0 true 0 0 false false 0 0.

(** The bits of IFR and IER. *)
Definition CA2 : Z := 0x01.
Definition CA1 : Z := 0x02.
Definition SHIFT : Z := 0x04.
Definition CB2 : Z := 0x08.
Definition CB1 : Z := 0x10.
Definition TIMER2 : Z := 0x20.
Definition TIMER1 : Z := 0x40.
Definition ANY : Z := 0x80.
Definition kT2LoadTicks : Z := 2.

(** [reg |= bits] and [reg &= uint8_t(~bits)] on IFR. *)
Definition setIfr (bits : Z) (s : Via) : Via := set_ifr (ifr_ s .| bits) s.
Definition clearIfr (bits : Z) (s : Via) : Via := set_ifr (ifr_ s .& u8 (Z.lnot bits)) s.

Definition reset (s : Via) : Via :=
  mkVia 0 0 0 0 0xFF 0xFF 0 0 0 0 0 false 0 (extBits_ s) (mscShiftQuirk_ s) (extIntCb1_ s)
    (extByteDone_ s) (pmuIntAsserted_ s) (extCb1_ s) true true 0 0 true 0 0 false false 0
    (ca1Cleared s).

(** ** Pins *)

Definition portA (s : Via) : Z := u8 ((ora_ s .& ddra_ s) .| (inA_ s .& Z.lnot (ddra_ s))).

Definition portB (s : Via) : Z :=
  let pb := u8 ((orb_ s .& ddrb_ s) .| (inB_ s .& Z.lnot (ddrb_ s))) in
  if has (acr_ s) 0x80 then u8 ((pb .& 0x7F) .| (if t1Pb7_ s then 0x80 else 0)) else pb.

Definition countPb6Pulse (s : Via) : Via :=
  if t2_ s .& 0xFFFF =? 0
  then
    let s := set_t2 0xFFFF s in
    if t2armed_ s then setIfr TIMER2 (set_t2armed false s) else s
  else set_t2 ((t2_ s - 1) .& 0xFFFF) s.

Definition setInA (v : Z) (s : Via) : Via := set_inA v s.
Definition setInB (v : Z) (s : Via) : Via :=
  let s := if has (acr_ s) 0x20 && has (inB_ s) 0x40 && negb (has v 0x40)
           then countPb6Pulse s else s in
  set_inB v s.

Definition raiseCa1 : Via -> Via := setIfr CA1.
Definition raiseCa2 : Via -> Via := setIfr CA2.
Definition raiseCb1 : Via -> Via := setIfr CB1.

Definition setCb1 (level : bool) (s : Via) : Via :=
  if Bool.eqb level (cb1_ s) then s
  else
    let fell := cb1_ s && negb level in
    let s := set_cb1 level s in
    if fell then setIfr CB1 s else s.

Definition setCb2 (level : bool) (s : Via) : Via :=
  if Bool.eqb level (cb2_ s) then s
  else
    let fell := cb2_ s && negb level in
    let s := set_cb2 level s in
    if fell then setIfr CB2 s else s.

Definition irqAsserted (s : Via) : bool := (ifr_ s .& ier_ s) .& 0x7F <>? 0.

(** ** The shift register *)

Definition loadSR (v : Z) (s : Via) : Via :=
  set_shiftCount 0 (set_srHostWritten false (setIfr SHIFT (set_sr v s))).
Definition raiseShift (s : Via) : Via := set_shiftCount 0 (setIfr SHIFT s).
Definition armShiftComplete (clocks : Z) (s : Via) : Via := set_shiftCount clocks s.
Definition loadSRDevice (v : Z) (s : Via) : Via := set_sr v s.
Definition takeShiftDone (s : Via) : bool * Via := (extByteDone_ s, set_extByteDone false s).
Definition extShiftCB2Out (s : Via) : bool := has (sr_ s .>> 7) 1.

Definition shiftMode (acr : Z) : Z := u8 ((acr .>> 2) .& 7).

(** The tail of [extShiftCB1]: one more bit of the byte. *)
Definition extBitDone (s : Via) : Via :=
  let s := set_extBits (extBits_ s + 1) s in
  if 8 <=? extBits_ s
  then setIfr SHIFT (set_extByteDone true (set_extBits 0 s))
  else s.

Definition extShiftCB1 (level cb2FromPic : bool) (s : Via) : Via :=
  let rose := negb (extCb1_ s) && level in
  let fell := extCb1_ s && negb level in
  let s := set_extCb1 level s in
  let m := shiftMode (acr_ s) in
  if (m =? 3) || (mscShiftQuirk_ s && (m =? 0))
  then
    if negb rose then s
    else extBitDone (set_sr (u8 ((sr_ s .<< 1) .| (if cb2FromPic then 1 else 0))) s)
  else if m =? 7
  then
    if fell
    then if 0 <? extBits_ s
         then set_sr (u8 ((sr_ s .<< 1) .| ((sr_ s .>> 7) .& 1))) s
         else s
    else if negb rose then s
    else extBitDone s
  else s.

Definition setMscShiftQuirk (on : bool) (s : Via) : Via := set_mscShiftQuirk on s.

Definition pmuIntLevel (asserted : bool) (s : Via) : Via :=
  let s := set_pmuIntAsserted asserted s in
  if asserted then setIfr CB1 s else clearIfr CB1 s.

Definition extCb1Int (level : bool) (s : Via) : Via :=
  let rise := negb (extIntCb1_ s) && level in
  let fall := extIntCb1_ s && negb level in
  let s := set_extIntCb1 level s in
  if (rise && has (pcr_ s) 0x10) || (fall && negb (has (pcr_ s) 0x10)) then setIfr CB1 s else s.

(** ** Time *)

(** The T1 half of [tick]. *)
Definition tickT1 (n : Z) (s : Via) : bool * Via :=
  let s := set_t1 (t1_ s - n) s in
  if t1_ s <? 0
  then
    if has (acr_ s) 0x40
    then
      let s := set_t1armed true (setIfr TIMER1 s) in
      let period := t1latch_ s + 2 in
      let s := if (0 <? t1latch_ s) &&
                  has (Z.quot (- (t1_ s + 1)) period + 1) 1
               then set_t1Pb7 (negb (t1Pb7_ s)) s else s in
      (true, set_t1 (period - 1 + Z.rem (t1_ s + 1) period) s)
    else
      let hit := t1armed_ s in
      let s := if t1armed_ s then setIfr TIMER1 s else s in
      (hit, set_t1 (t1_ s .& 0xFFFF) (set_t1Pb7 true (set_t1armed false s)))
  else (false, s).

(** The T2 half, in timer mode. *)
Definition tickT2 (n : Z) (s : Via) : bool * Via :=
  if has (acr_ s) 0x20 then (false, s)
  else
    let h := Z.min n (t2hold_ s) in
    let m := if t2hold_ s <>? 0 then n - h else n in
    let s := if t2hold_ s <>? 0 then set_t2hold (u8 (t2hold_ s - h)) s else s in
    let s := set_t2 (t2_ s - m) s in
    if t2_ s <? 0
    then
      let hit := t2armed_ s in
      let s := if t2armed_ s then set_t2armed false (setIfr TIMER2 s) else s in
      (hit, set_t2 (t2_ s .& 0xFFFF) s)
    else (false, s).

(** The internally clocked shift. *)
Definition tickShift (n : Z) (s : Via) : bool * Via :=
  if 0 <? shiftCount_ s
  then
    let s := set_shiftCount (shiftCount_ s - n) s in
    if shiftCount_ s <=? 0 then (true, setIfr SHIFT (set_shiftCount 0 s)) else (false, s)
  else (false, s).

Definition tick (n : Z) (s : Via) : bool * Via :=
  let '(h1, s) := tickT1 n s in
  let '(h2, s) := tickT2 n s in
  let '(h3, s) := tickShift n s in
  (h1 || h2 || h3, s).

Definition cyclesToNextEvent (s : Via) : Z :=
  let best := 0x7fffffff in
  let best := if has (acr_ s) 0x40 || t1armed_ s then Z.min best (t1_ s + 1) else best in
  let best := if negb (has (acr_ s) 0x20) && t2armed_ s
              then Z.min best (t2_ s + 1 + t2hold_ s) else best in
  let best := if 0 <? shiftCount_ s then Z.min best (shiftCount_ s) else best in
  Z.max best 1.

(** ** The register file *)

Definition clearCaFlags (s : Via) : Via :=
  let s := if has (ifr_ s) CA1 then set_ca1Cleared (ca1Cleared s + 1) s else s in
  let s := clearIfr CA1 s in
  if pcr_ s .& 0x0A <>? 0x02 then clearIfr CA2 s else s.

Definition clearCbFlags (s : Via) : Via :=
  let s := clearIfr CB1 s in
  let s := if pmuIntAsserted_ s then setIfr CB1 s else s in
  if pcr_ s .& 0xA0 <>? 0x20 then clearIfr CB2 s else s.

Definition read (reg : Z) (s : Via) : Z * Via :=
  match reg with
  | 0 (* ORB *) => let s := clearCbFlags s in (portB s, s)
  | 1 (* ORA *) => let s := clearCaFlags s in (portA s, s)
  | 15 (* ORA_NH *) => (portA s, s)
  | 2 (* DDRB *) => (ddrb_ s, s)
  | 3 (* DDRA *) => (ddra_ s, s)
  | 4 (* T1CL *) => let s := clearIfr TIMER1 s in (u8 (t1_ s .& 0xFF), s)
  | 5 (* T1CH *) => (u8 ((t1_ s .>> 8) .& 0xFF), s)
  | 6 (* T1LL *) => (u8 (t1latch_ s), s)
  | 7 (* T1LH *) => (u8 (t1latch_ s .>> 8), s)
  | 8 (* T2CL *) => let s := clearIfr TIMER2 s in (u8 (t2_ s .& 0xFF), s)
  | 9 (* T2CH *) => (u8 ((t2_ s .>> 8) .& 0xFF), s)
  | 10 (* SR *) => let s := set_extBits 0 (clearIfr SHIFT s) in (sr_ s, s)
  | 11 (* ACR *) => (acr_ s, s)
  | 12 (* PCR *) => (pcr_ s, s)
  | 13 (* IFR *) => (u8 ((ifr_ s .& 0x7F) .| (if irqAsserted s then ANY else 0)), s)
  | 14 (* IER *) => (u8 (ier_ s .| 0x80), s)
  | _ => (0xFF, s)
  end.

Definition write (reg v : Z) (s : Via) : Via :=
  match reg with
  | 0 (* ORB *) => clearCbFlags (set_orb v s)
  | 1 (* ORA *) => clearCaFlags (set_ora v s)
  | 15 (* ORA_NH *) => set_ora v s
  | 2 (* DDRB *) => set_ddrb v s
  | 3 (* DDRA *) => set_ddra v s
  | 4 | 6 (* T1CL, T1LL *) => set_t1latch (u16 ((t1latch_ s .& 0xFF00) .| v)) s
  | 7 (* T1LH *) =>
      clearIfr TIMER1 (set_t1latch (u16 ((t1latch_ s .& 0x00FF) .| (v .<< 8))) s)
  | 5 (* T1CH *) =>
      let s := set_t1latch (u16 ((t1latch_ s .& 0x00FF) .| (v .<< 8))) s in
      clearIfr TIMER1 (set_t1Pb7 false (set_t1armed true (set_t1 (t1latch_ s) s)))
  | 8 (* T2CL *) => set_t2ll v s
  | 9 (* T2CH *) =>
      let s := set_t2armed true (set_t2 ((v .<< 8) .| t2ll_ s) s) in
      clearIfr TIMER2 (set_t2hold (if has (acr_ s) 0x20 then 0 else kT2LoadTicks) s)
  | 10 (* SR *) =>
      let s := set_extBits 0 (set_srHostWritten true (clearIfr SHIFT (set_sr v s))) in
      let m := shiftMode (acr_ s) in
      set_shiftCount (if (m <>? 0) && (m <>? 3) && (m <>? 7) then 16 else 0) s
  | 11 (* ACR *) =>
      let s := set_acr v s in
      let m := shiftMode v in
      if (m =? 0) || (m =? 3) || (m =? 7) then set_shiftCount 0 s else s
  | 12 (* PCR *) => set_pcr v s
  | 13 (* IFR *) =>
      let s := if has v CA1 then set_ca1Cleared (ca1Cleared s + 1) s else s in
      let s := clearIfr (v .& 0x7F) s in
      if pmuIntAsserted_ s then setIfr CB1 s else s
  | 14 (* IER *) =>
      if has v 0x80 then set_ier (ier_ s .| (v .& 0x7F)) s
      else set_ier (ier_ s .& u8 (Z.lnot (v .& 0x7F))) s
  | _ => s
  end.
