(* ===== verification/Via6522Facts.v ===== *)
(** * Via6522Facts: the interface adapter's timers, flags and deadline

    [tick] acts on three independent countdowns.  Each has a core, a function
    of its own few fields; the facts about slices and deadlines are proved on
    the cores and lifted by [tick_cores]. *)

From S2P Require Import Prelude.
From S2P Require Import Via6522.
From stdpp Require Import base list numbers option decidable.

Open Scope Z_scope.

(** ** The countdowns *)

(** T1: the counter, its arming and the level it drives on PB7. *)
Definition t1Run (free : bool) (latch n : Z) (c : Z * bool * bool) : bool * (Z * bool * bool) :=
  let '(t, armed, pb7) := c in
  let t := t - n in
  if t <? 0
  then if free
       then (true, (latch + 1 - (- (t + 1)) mod (latch + 2), true,
                    if (0 <? latch) && negb (Z.odd ((- (t + 1)) / (latch + 2)))
                    then negb pb7 else pb7))
       else (armed, (t mod 65536, false, true))
  else (false, (t, armed, pb7)).

(** T2 in timer mode: the counter, its load ticks and its arming. *)
Definition t2Run (n : Z) (c : Z * Z * bool) : bool * (Z * Z * bool) :=
  let '(t, hold, armed) := c in
  let h := Z.min n hold in
  let t := t - (n - h) in
  if t <? 0 then (armed, (t mod 65536, hold - h, false)) else (false, (t, hold - h, armed)).

Definition shiftRun (n c : Z) : bool * Z :=
  if 0 <? c then (if c <=? n then (true, 0) else (false, c - n)) else (false, c).

(** A countdown may be run in slices. *)
Definition slices {C} (ok : C -> Prop) (run : Z -> C -> bool * C) : Prop :=
  forall a b c, 0 <= a -> 0 <= b -> ok c ->
    run (a + b) c =
    let '(h1, c1) := run a c in let '(h2, c2) := run b c1 in (h1 || h2, c2).

Lemma sub_mod_small t m : 0 <= t < m -> t mod m = t.
Proof. intros H. by apply Z.mod_small. Qed.

Lemma t1_oneshot_slices latch : slices (fun c => 0 <= c.1.1) (t1Run false latch).
Proof.
  intros a b [[t armed] pb7] Ha Hb Hc. cbn in Hc. unfold t1Run.
  destruct (Z.ltb_spec (t - a) 0).
  - rewrite (proj2 (Z.ltb_lt (t - (a + b)) 0)) by lia.
    pose proof (Z.mod_pos_bound (t - a) 65536 ltac:(lia)) as R.
    assert (E : (t - (a + b)) mod 65536 = ((t - a) mod 65536 - b) mod 65536).
    { rewrite Zminus_mod_idemp_l. f_equal. lia. }
    rewrite E. destruct (Z.ltb_spec ((t - a) mod 65536 - b) 0).
    + by rewrite orb_false_r.
    + rewrite sub_mod_small by lia. by rewrite orb_false_r.
  - replace (t - (a + b)) with (t - a - b) by lia. by destruct (_ <? 0).
Qed.

Lemma t1_free_slices latch : 0 <= latch -> slices (fun c => 0 <= c.1.1) (t1Run true latch).
Proof.
  intros Hl a b [[t armed] pb7] Ha Hb Hc. cbn in Hc. unfold t1Run.
  set (P := latch + 2). destruct (Z.ltb_spec (t - a) 0).
  - rewrite (proj2 (Z.ltb_lt (t - (a + b)) 0)) by lia.
    pose proof (Z.div_mod (- (t - a + 1)) P ltac:(lia)) as D.
    pose proof (Z.mod_pos_bound (- (t - a + 1)) P ltac:(lia)) as R.
    set (q := - (t - a + 1) / P) in *. set (r := (- (t - a + 1)) mod P) in *.
    pose proof (Z.div_mod (r + b) P ltac:(lia)) as D2.
    pose proof (Z.mod_pos_bound (r + b) P ltac:(lia)) as R2.
    replace (- (t - (a + b) + 1)) with (r + b + q * P) by lia.
    rewrite Z.div_add, Z.mod_add by lia.
    destruct (Z.ltb_spec (latch + 1 - r - b) 0) as [L|L].
    + replace (- (latch + 1 - r - b + 1)) with (r + b + (-1) * P) by lia.
      rewrite Z.div_add, Z.mod_add by lia. cbn [orb]. do 3 f_equal.
      rewrite !Z.odd_add. destruct (0 <? latch), (Z.odd q), (Z.odd ((r + b) / P)), pb7;
        reflexivity.
    + assert (E : (r + b) / P = 0) by (apply Z.div_small; lia).
      rewrite E in *. rewrite (Z.mod_small (r + b)) by lia. cbn [orb Z.add].
      do 3 f_equal. lia.
  - replace (t - (a + b)) with (t - a - b) by lia. by destruct (_ <? 0).
Qed.

Lemma t2_slices : slices (fun c => 0 <= c.1.1 /\ 0 <= c.1.2) t2Run.
Proof.
  intros a b [[t hold] armed] Ha Hb [Ht Hh]. cbn in Ht, Hh. unfold t2Run.
  set (u := a - Z.min a hold). set (w := b - Z.min b (hold - Z.min a hold)).
  assert (Eh : hold - Z.min a hold - Z.min b (hold - Z.min a hold) = hold - Z.min (a + b) hold)
    by lia.
  replace (a + b - Z.min (a + b) hold) with (u + w) by lia.
  assert (Hu : 0 <= u) by lia. assert (Hw : 0 <= w) by lia.
  destruct (Z.ltb_spec (t - u) 0).
  - rewrite (proj2 (Z.ltb_lt (t - (u + w)) 0)) by lia. fold w. rewrite Eh.
    pose proof (Z.mod_pos_bound (t - u) 65536 ltac:(lia)) as R.
    assert (E : (t - (u + w)) mod 65536 = ((t - u) mod 65536 - w) mod 65536).
    { rewrite Zminus_mod_idemp_l. f_equal. lia. }
    rewrite E. destruct (Z.ltb_spec ((t - u) mod 65536 - w) 0).
    + by rewrite orb_false_r.
    + rewrite sub_mod_small by lia. by rewrite orb_false_r.
  - fold w. rewrite Eh. replace (t - (u + w)) with (t - u - w) by lia. by destruct (_ <? 0).
Qed.

Lemma shift_slices : slices (fun _ => True) shiftRun.
Proof.
  intros a b c Ha Hb _. unfold shiftRun.
  destruct (Z.ltb_spec 0 c); [|by rewrite (proj2 (Z.ltb_ge _ _)) by lia].
  destruct (Z.leb_spec c a); [by rewrite (proj2 (Z.leb_le _ _)) by lia|].
  rewrite (proj2 (Z.ltb_lt 0 (c - a))) by lia.
  destruct (Z.leb_spec c (a + b)), (Z.leb_spec (c - a) b); try done; try lia.
  cbn. f_equal. lia.
Qed.

(** ** Well-formed chips *)

(** The counters are in range, and T1 drives PB7 low only while armed. *)
Record via_ok (s : Via) : Prop := {
  vo_t1 : 0 <= t1_ s <= 65536;
  vo_t2 : 0 <= t2_ s < 65536;
  vo_hold : 0 <= t2hold_ s <= kT2LoadTicks;
  vo_latch : 0 <= t1latch_ s < 65536;
  vo_t2ll : byte (t2ll_ s);
  vo_ifr : byte (ifr_ s);
  vo_ier : byte (ier_ s);
  vo_shift : 0 <= shiftCount_ s;
  vo_pb7 : t1Pb7_ s = false -> t1armed_ s = true
}.

Definition flagBits (h1 h2 h3 : bool) : Z :=
  (if h1 then TIMER1 else 0) .| ((if h2 then TIMER2 else 0) .| (if h3 then SHIFT else 0)).

Definition core1 (s : Via) := (t1_ s, t1armed_ s, t1Pb7_ s).
Definition core2 (s : Via) := (t2_ s, t2hold_ s, t2armed_ s).

Definition run1 (n : Z) (s : Via) := t1Run (has (acr_ s) 0x40) (t1latch_ s) n (core1 s).
Definition run2 (n : Z) (s : Via) :=
  if has (acr_ s) 0x20 then (false, core2 s) else t2Run n (core2 s).

(** The chip after its countdowns have run. *)
Definition after (c1 : Z * bool * bool) (c2 : Z * Z * bool) (c3 f : Z) (s : Via) : Via :=
  let '(t, armed, pb7) := c1 in
  let '(u, hold, armed2) := c2 in
  set_ifr (ifr_ s .| f)
    (set_t1 t (set_t1armed armed (set_t1Pb7 pb7
      (set_t2 u (set_t2hold hold (set_t2armed armed2 (set_shiftCount c3 s))))))).

Lemma has_odd x : has x 1 = Z.odd x.
Proof.
  unfold has. rewrite land_1_mod, Zmod_odd. by destruct (Z.odd x).
Qed.

Lemma land_ffff x : x .& 0xFFFF = x mod 65536.
Proof. change 0xFFFF with (2 ^ 16 - 1). by rewrite land_mask_mod by lia. Qed.

Lemma tickT1_core n s :
  via_ok s ->
  tickT1 n s =
  let '(h, (t, armed, pb7)) := run1 n s in
  (h, set_ifr (ifr_ s .| (if h then TIMER1 else 0))
        (set_t1 t (set_t1armed armed (set_t1Pb7 pb7 s)))).
Proof.
  intros Hs. pose proof (vo_latch s Hs) as Hl.
  unfold tickT1, run1, t1Run, core1, setIfr. cbn [t1_ set_t1 acr_].
  destruct (Z.ltb_spec (t1_ s - n) 0); [|by cbn; rewrite Z.lor_0_r; destruct s].
  destruct (has (acr_ s) 0x40) eqn:Ea;
    cbn [t1_ acr_ t1latch_ t1armed_ t1Pb7_ set_t1 set_t1armed set_ifr ifr_].
  - rewrite has_odd, Z.odd_add. change (Z.odd 1) with true.
    rewrite Z.quot_div_nonneg by lia.
    assert (E : Z.rem (t1_ s - n + 1) (t1latch_ s + 2) =
                - ((- (t1_ s - n + 1)) mod (t1latch_ s + 2))).
    { rewrite <- (Z.rem_mod_nonneg (- _)) by lia. rewrite Z.rem_opp_l by lia. lia. }
    rewrite xorb_true_r. destruct (_ && _); cbn; rewrite E;
      (replace (t1latch_ s + 2 - 1 + - _) with
         (t1latch_ s + 1 - (- (t1_ s - n + 1)) mod (t1latch_ s + 2)) by lia); reflexivity.
  - rewrite land_ffff. by destruct (t1armed_ s); rewrite ?Z.lor_0_r.
Qed.

Lemma tickT2_core n s :
  0 <= t2hold_ s <= 2 -> 0 <= n ->
  tickT2 n s =
  let '(h, (t, hold, armed)) := run2 n s in
  (h, set_ifr (ifr_ s .| (if h then TIMER2 else 0))
        (set_t2 t (set_t2hold hold (set_t2armed armed s)))).
Proof.
  intros Hh Hn.
  unfold tickT2, run2, t2Run, core2, setIfr.
  destruct (has (acr_ s) 0x20); [by cbn; rewrite Z.lor_0_r; destruct s|].
  assert (E : u8 (t2hold_ s - Z.min n (t2hold_ s)) = t2hold_ s - Z.min n (t2hold_ s))
    by (apply u8_small; lia).
  destruct (Z.eqb_spec (t2hold_ s) 0) as [E0|N]; cbn [negb t2_ t2armed_ set_t2hold set_t2];
    rewrite ?E.
  - rewrite E0, Z.min_r, !Z.sub_0_r by lia.
    destruct (Z.ltb_spec (t2_ s - n) 0); [rewrite land_ffff; destruct (t2armed_ s) eqn:Ea|];
      cbn; rewrite ?Z.lor_0_r, ?land_ffff; destruct s; cbn in *; by subst.
  - destruct (Z.ltb_spec (t2_ s - (n - Z.min n (t2hold_ s))) 0);
      [rewrite land_ffff; destruct (t2armed_ s) eqn:Ea|];
      cbn; rewrite ?Z.lor_0_r, ?land_ffff; destruct s; cbn in *; by subst.
Qed.

Lemma tickShift_core n s :
  tickShift n s =
  let '(h, c) := shiftRun n (shiftCount_ s) in
  (h, set_ifr (ifr_ s .| (if h then SHIFT else 0)) (set_shiftCount c s)).
Proof.
  unfold tickShift, shiftRun, setIfr. cbn [shiftCount_ set_shiftCount].
  destruct (0 <? shiftCount_ s); [|by cbn; rewrite Z.lor_0_r; destruct s].
  destruct (Z.leb_spec (shiftCount_ s - n) 0), (Z.leb_spec (shiftCount_ s) n); try lia;
    cbn; by rewrite ?Z.lor_0_r.
Qed.

(** [tick] runs the three countdowns and collects their flags. *)
Lemma tick_cores n s :
  via_ok s -> 0 <= n ->
  tick n s =
  let '(h1, c1) := run1 n s in
  let '(h2, c2) := run2 n s in
  let '(h3, c3) := shiftRun n (shiftCount_ s) in
  (h1 || h2 || h3, after c1 c2 c3 (flagBits h1 h2 h3) s).
Proof.
  intros Hs Hn. unfold tick. rewrite tickT1_core by exact Hs.
  destruct (run1 n s) as [h1 [[t armed] pb7]].
  rewrite tickT2_core by (cbn; apply Hs || exact Hn).
  match goal with |- context [run2 n ?u] => change (run2 n u) with (run2 n s) end.
  destruct (run2 n s) as [h2 [[u hold] armed2]]. rewrite tickShift_core.
  cbn [shiftCount_ set_ifr set_t1 set_t1armed set_t1Pb7 set_t2 set_t2hold set_t2armed].
  destruct (shiftRun n (shiftCount_ s)) as [h3 c3]. f_equal. unfold after, flagBits.
  cbn [ifr_ set_ifr set_t1 set_t1armed set_t1Pb7 set_t2 set_t2hold set_t2armed set_shiftCount].
  by rewrite <- !Z.lor_assoc.
Qed.

Lemma flagBits_or h1 h2 h3 k1 k2 k3 :
  flagBits (h1 || k1) (h2 || k2) (h3 || k3) = flagBits h1 h2 h3 .| flagBits k1 k2 k3.
Proof. destruct h1, h2, h3, k1, k2, k3; reflexivity. Qed.

Lemma run1_ok n s h t armed pb7 :
  via_ok s -> 0 <= n -> run1 n s = (h, (t, armed, pb7)) ->
  0 <= t <= 65536 /\ (pb7 = false -> armed = true).
Proof.
  intros Hs Hn. pose proof (vo_t1 s Hs). pose proof (vo_latch s Hs). pose proof (vo_pb7 s Hs).
  unfold run1, t1Run, core1. destruct (Z.ltb_spec (t1_ s - n) 0).
  - destruct (has _ _).
    + pose proof (Z.mod_pos_bound (- (t1_ s - n + 1)) (t1latch_ s + 2) ltac:(lia)).
      intros [= <- <- <- <-]. split; [lia|done].
    + pose proof (Z.mod_pos_bound (t1_ s - n) 65536 ltac:(lia)).
      intros [= <- <- <- <-]. split; [lia|done].
  - intros [= <- <- <- <-]. split; [lia|done].
Qed.

Lemma run2_ok n s h t hold armed :
  via_ok s -> 0 <= n -> run2 n s = (h, (t, hold, armed)) ->
  0 <= t < 65536 /\ 0 <= hold <= kT2LoadTicks.
Proof.
  intros Hs Hn. pose proof (vo_t2 s Hs). pose proof (vo_hold s Hs).
  unfold run2, t2Run, core2, kT2LoadTicks in *. destruct (has _ _).
  - intros [= <- <- <- <-]. lia.
  - destruct (Z.ltb_spec (t2_ s - (n - Z.min n (t2hold_ s))) 0); intros [= <- <- <- <-]; [|lia].
    pose proof (Z.mod_pos_bound (t2_ s - (n - Z.min n (t2hold_ s))) 65536 ltac:(lia)). lia.
Qed.

Lemma shiftRun_ok n c h d : 0 <= n -> 0 <= c -> shiftRun n c = (h, d) -> 0 <= d.
Proof.
  unfold shiftRun. intros Hn Hc. destruct (0 <? c); [destruct (Z.leb_spec c n)|];
    intros [= <- <-]; lia.
Qed.

Lemma flagBits_u8 h1 h2 h3 : byte (flagBits h1 h2 h3).
Proof. destruct h1, h2, h3; vm_compute; split; congruence. Qed.

Lemma tick_ok n s : via_ok s -> 0 <= n -> via_ok (tick n s).2.
Proof.
  intros Hs Hn. rewrite tick_cores by assumption.
  destruct (run1 n s) as [h1 [[t armed] pb7]] eqn:E1.
  destruct (run2 n s) as [h2 [[u hold] armed2]] eqn:E2.
  destruct (shiftRun n (shiftCount_ s)) as [h3 c3] eqn:E3.
  apply run1_ok in E1; [|done..]. apply run2_ok in E2; [|done..].
  apply shiftRun_ok in E3; [|lia|apply Hs]. cbn [snd after].
  split; cbn; try tauto; try apply Hs. apply lor_u8; [apply Hs|apply flagBits_u8].
Qed.

Lemma run1_slices s : via_ok s -> forall a b, 0 <= a -> 0 <= b ->
  run1 (a + b) s =
  let '(h1, c1) := run1 a s in
  let '(h2, c2) := t1Run (has (acr_ s) 0x40) (t1latch_ s) b c1 in (h1 || h2, c2).
Proof.
  intros Hs a b Ha Hb. unfold run1. pose proof (vo_t1 s Hs). pose proof (vo_latch s Hs).
  destruct (has (acr_ s) 0x40);
    [apply t1_free_slices|apply t1_oneshot_slices]; cbn; lia.
Qed.

Lemma run2_slices s : via_ok s -> forall a b, 0 <= a -> 0 <= b ->
  run2 (a + b) s =
  let '(h1, c1) := run2 a s in
  let '(h2, c2) := if has (acr_ s) 0x20 then (false, c1) else t2Run b c1 in (h1 || h2, c2).
Proof.
  intros Hs a b Ha Hb. unfold run2. pose proof (vo_t2 s Hs). pose proof (vo_hold s Hs).
  destruct (has (acr_ s) 0x20); [done|]. apply t2_slices; cbn; lia.
Qed.

(** C15. Slicing time does not change what the chip does: ticking [a + b]
    cycles at once, as the machines batch it, leaves the same registers,
    counters, flags and PB7 level as ticking [a] and then [b], and reports a
    hit exactly when one of the two slices does. *)
Theorem tick_split (s : Via) (a b : Z) (Hs : via_ok s) (Ha : 0 <= a) (Hb : 0 <= b) :
  tick (a + b) s =
  let '(h1, s1) := tick a s in let '(h2, s2) := tick b s1 in (h1 || h2, s2).
Proof.
  pose proof (tick_ok a s Hs Ha) as Hs1. rewrite (tick_cores (a + b)) by (done || lia).
  rewrite (tick_cores a) in * by assumption.
  rewrite (run1_slices s Hs a b), (run2_slices s Hs a b) by assumption.
  rewrite (shift_slices a b (shiftCount_ s)) by done.
  destruct (run1 a s) as [h1 [[t armed] pb7]] eqn:E1.
  destruct (run2 a s) as [h2 [[u hold] armed2]] eqn:E2.
  destruct (shiftRun a (shiftCount_ s)) as [h3 c3].
  rewrite tick_cores by assumption. unfold run1 at 1, run2 at 1, core1, core2.
  cbn [after acr_ t1latch_ t1_ t1armed_ t1Pb7_ t2_ t2hold_ t2armed_ shiftCount_
    set_ifr set_t1 set_t1armed set_t1Pb7 set_t2 set_t2hold set_t2armed set_shiftCount].
  destruct (t1Run _ _ b _) as [k1 [[t' armed'] pb7']].
  destruct (if has (acr_ s) 0x20 then _ else _) as [k2 [[u' hold'] armed2']].
  destruct (shiftRun b c3) as [k3 c3']. f_equal.
  - destruct h1, h2, h3, k1, k2, k3; reflexivity.
  - rewrite flagBits_or. unfold after. cbn. by rewrite Z.lor_assoc.
Qed.

(** T1 free-running with period 12, T2 loading, a byte being shifted. *)
Definition probeVia : Via :=
  write 10 0x5A (write 9 0 (write 8 20 (write 5 0 (write 4 10 (write 11 0x58 Via0))))).

Lemma Via0_ok : via_ok Via0.
Proof. split; cbn; unfold byte, kT2LoadTicks; (lia || done). Qed.

Lemma probe_ok : via_ok probeVia.
Proof. split; vm_compute; repeat split; congruence. Qed.

Lemma tick_split_witness :
  (tick 37 probeVia).1 = true /\
  tick (5 + 32) probeVia =
  let '(h1, s1) := tick 5 probeVia in let '(h2, s2) := tick 32 s1 in (h1 || h2, s2).
Proof.
  split; [vm_compute; reflexivity|].
  apply (tick_split probeVia 5 32); [exact probe_ok|lia|lia].
Defined.

(** ** The event deadline *)

Definition t1Waits (s : Via) : bool := has (acr_ s) 0x40 || t1armed_ s.
Definition t2Waits (s : Via) : bool := negb (has (acr_ s) 0x20) && t2armed_ s.

Lemma deadline_bounds s n :
  via_ok s -> n < cyclesToNextEvent s -> 0 < n ->
  (t1Waits s = true -> n <= t1_ s) /\ (t2Waits s = true -> n <= t2_ s + t2hold_ s) /\
  (0 < shiftCount_ s -> n < shiftCount_ s).
Proof.
  intros Hs. unfold cyclesToNextEvent. fold (t1Waits s) (t2Waits s).
  pose proof (vo_t1 s Hs). pose proof (vo_t2 s Hs). pose proof (vo_hold s Hs).
  destruct (t1Waits s), (t2Waits s), (Z.ltb_spec 0 (shiftCount_ s)); lia.
Qed.

Lemma run1_quiet s n :
  via_ok s -> 0 <= n -> (t1Waits s = true -> n <= t1_ s) ->
  exists t, run1 n s = (false, (t, t1armed_ s, t1Pb7_ s)).
Proof.
  intros Hs Hn Hq. unfold run1, t1Run, core1, t1Waits in *. pose proof (vo_pb7 s Hs) as Hp.
  destruct (Z.ltb_spec (t1_ s - n) 0); [|eauto].
  destruct (has _ _); [specialize (Hq eq_refl); lia|].
  destruct (t1armed_ s); [specialize (Hq eq_refl); lia|]. destruct (t1Pb7_ s); [eauto|].
  by specialize (Hp eq_refl).
Qed.

Lemma run2_quiet s n :
  via_ok s -> 0 <= n -> (t2Waits s = true -> n <= t2_ s + t2hold_ s) ->
  exists t hold, run2 n s = (false, (t, hold, t2armed_ s)).
Proof.
  intros Hs Hn Hq. unfold run2, t2Run, core2, t2Waits in *.
  pose proof (vo_t2 s Hs). pose proof (vo_hold s Hs).
  destruct (has _ _); [eauto|]. cbn [negb andb] in Hq.
  destruct (Z.ltb_spec (t2_ s - (n - Z.min n (t2hold_ s))) 0); [|eauto].
  destruct (t2armed_ s); [specialize (Hq eq_refl); lia|eauto].
Qed.

Lemma shiftRun_quiet n c : 0 <= n -> (0 < c -> n < c) -> (shiftRun n c).1 = false.
Proof.
  intros Hn Hq. unfold shiftRun. destruct (Z.ltb_spec 0 c); [|done].
  destruct (Z.leb_spec c n); [lia|done].
Qed.

Lemma tick_quiet s n :
  via_ok s -> 0 < n < cyclesToNextEvent s ->
  let '(h, u) := tick n s in
  h = false /\ ifr_ u = ifr_ s /\ t1Pb7_ u = t1Pb7_ s /\ t1armed_ u = t1armed_ s /\
  t2armed_ u = t2armed_ s.
Proof.
  intros Hs Hn. destruct (deadline_bounds s n Hs) as (Q1 & Q2 & Q3); [lia|lia|].
  rewrite tick_cores by (done || lia).
  destruct (run1_quiet s n Hs ltac:(lia) Q1) as (t & ->).
  destruct (run2_quiet s n Hs ltac:(lia) Q2) as (u & hold & ->).
  pose proof (shiftRun_quiet n (shiftCount_ s) ltac:(lia) Q3) as E.
  destruct (shiftRun n (shiftCount_ s)) as [h c]. cbn in E. subst h. unfold after, flagBits.
  cbn. by rewrite Z.lor_0_r.
Qed.

(** At the deadline one of the countdowns that were waited for hits. *)
Lemma tick_deadline s :
  via_ok s -> cyclesToNextEvent s < 0x7fffffff ->
  (tick (cyclesToNextEvent s) s).1 = true.
Proof.
  intros Hs Hd. pose proof (vo_t1 s Hs). pose proof (vo_t2 s Hs). pose proof (vo_hold s Hs).
  set (d := cyclesToNextEvent s) in *.
  assert (Hc : (t1Waits s = true /\ d = t1_ s + 1) \/
               (t2Waits s = true /\ d = t2_ s + 1 + t2hold_ s) \/
               (0 < shiftCount_ s /\ d = shiftCount_ s)).
  { subst d. unfold cyclesToNextEvent in *. fold (t1Waits s) (t2Waits s) in *.
    destruct (t1Waits s), (t2Waits s), (Z.ltb_spec 0 (shiftCount_ s)); lia. }
  rewrite tick_cores by (done || lia).
  assert (Hh : (run1 d s).1 || (run2 d s).1 || (shiftRun d (shiftCount_ s)).1 = true).
  { destruct Hc as [[W E]|[[W E]|[W E]]]; apply orb_true_iff.
    - left. apply orb_true_iff. left. unfold run1, t1Run, core1, t1Waits in *.
      rewrite (proj2 (Z.ltb_lt _ _)) by lia. by destruct (has _ _).
    - left. apply orb_true_iff. right. unfold run2, t2Run, core2, t2Waits in *.
      destruct (has _ _); [done|]. rewrite (proj2 (Z.ltb_lt _ _)) by lia. exact W.
    - right. unfold shiftRun. rewrite (proj2 (Z.ltb_lt _ _)) by lia.
      by rewrite (proj2 (Z.leb_le _ _)) by lia. }
  by destruct (run1 d s), (run2 d s), (shiftRun d (shiftCount_ s)).
Qed.

(** C25. The event deadline is exact: before [cyclesToNextEvent] cycles have
    passed the chip changes no flag, no arming and not the PB7 level and
    reports nothing, so the machine may sleep that long; and when the deadline
    is not the never-value, an event happens at it. *)
Theorem cyclesToNextEvent_exact (s : Via) (Hs : via_ok s) :
  (forall n, 0 < n < cyclesToNextEvent s ->
     (tick n s).1 = false /\ ifr_ (tick n s).2 = ifr_ s /\
     t1Pb7_ (tick n s).2 = t1Pb7_ s /\ t1armed_ (tick n s).2 = t1armed_ s /\
     t2armed_ (tick n s).2 = t2armed_ s) /\
  (cyclesToNextEvent s < 0x7fffffff -> (tick (cyclesToNextEvent s) s).1 = true).
Proof.
  split; [|by apply tick_deadline]. intros n Hn. pose proof (tick_quiet s n Hs Hn) as H.
  by destruct (tick n s).
Qed.

Lemma cyclesToNextEvent_exact_witness :
  cyclesToNextEvent probeVia = 11 /\ (tick 10 probeVia).1 = false /\
  (tick 11 probeVia).1 = true.
Proof.
  destruct (cyclesToNextEvent_exact probeVia probe_ok) as [Hq Hd].
  assert (E : cyclesToNextEvent probeVia = 11) by (vm_compute; reflexivity).
  split; [exact E|]. split; [apply (Hq 10); rewrite E; lia|]. rewrite <- E. apply Hd.
  rewrite E. lia.
Defined.

(** ** Every operation keeps the chip well formed *)

Inductive Op : Type :=
| Reset
| Read (reg : Z)
| Write (reg v : Z)
| SetInA (v : Z)
| SetInB (v : Z)
| Tick (n : Z)
| RaiseCa1
| RaiseCa2
| RaiseCb1
| SetCb1 (level : bool)
| SetCb2 (level : bool)
| LoadSR (v : Z)
| RaiseShift
| ArmShiftComplete (clocks : Z)
| LoadSRDevice (v : Z)
| TakeShiftDone
| ExtShiftCB1 (level cb2FromPic : bool)
| SetMscShiftQuirk (on : bool)
| PmuIntLevel (asserted : bool)
| ExtCb1Int (level : bool).

Definition perform (op : Op) (s : Via) : Via :=
  match op with
  | Reset => reset s
  | Read reg => (read reg s).2
  | Write reg v => write reg v s
  | SetInA v => setInA v s
  | SetInB v => setInB v s
  | Tick n => (tick n s).2
  | RaiseCa1 => raiseCa1 s
  | RaiseCa2 => raiseCa2 s
  | RaiseCb1 => raiseCb1 s
  | SetCb1 level => setCb1 level s
  | SetCb2 level => setCb2 level s
  | LoadSR v => loadSR v s
  | RaiseShift => raiseShift s
  | ArmShiftComplete clocks => armShiftComplete clocks s
  | LoadSRDevice v => loadSRDevice v s
  | TakeShiftDone => (takeShiftDone s).2
  | ExtShiftCB1 level cb2 => extShiftCB1 level cb2 s
  | SetMscShiftQuirk on => setMscShiftQuirk on s
  | PmuIntLevel asserted => pmuIntLevel asserted s
  | ExtCb1Int level => extCb1Int level s
  end.

(** Arguments of their C types; time does not run backwards. *)
Definition op_ok (op : Op) : Prop :=
  match op with
  | Write _ v => byte v
  | Tick n => 0 <= n
  | ArmShiftComplete clocks => 0 <= clocks
  | _ => True
  end.

Definition performAll (ops : list Op) (s : Via) : Via := foldl (fun s op => perform op s) s ops.

(** What an operation that leaves the timers alone must keep. *)
Definition same_timers (s u : Via) : Prop :=
  t1_ u = t1_ s /\ t2_ u = t2_ s /\ t2hold_ u = t2hold_ s /\ t1latch_ u = t1latch_ s /\
  t2ll_ u = t2ll_ s /\ t1Pb7_ u = t1Pb7_ s /\ t1armed_ u = t1armed_ s.

Lemma same_ok s u :
  via_ok s -> same_timers s u -> byte (ifr_ u) -> byte (ier_ u) -> 0 <= shiftCount_ u ->
  via_ok u.
Proof.
  intros Hs (E1 & E2 & E3 & E4 & E5 & E6 & E7) Hi He Hc.
  split; rewrite ?E1, ?E2, ?E3, ?E4, ?E5, ?E6, ?E7; try assumption; apply Hs.
Qed.

Lemma flag_u8 bits :
  In bits [CA2; CA1; SHIFT; CB2; CB1; TIMER2; TIMER1; ANY] -> byte bits.
Proof.
  cbn. unfold CA2, CA1, SHIFT, CB2, CB1, TIMER2, TIMER1, ANY, byte. lia.
Qed.

Ltac flags :=
  repeat match goal with
  | |- byte (_ .| _) => apply lor_u8
  | |- byte (_ .& _) => apply land_u8
  | |- byte ?b => apply (flag_u8 b); cbn; tauto
  end.

(** An operation that only touches ports, flags and the shift register. *)
Ltac same_by Hs :=
  apply (same_ok _ _ Hs); [by unfold same_timers|cbn; flags; apply Hs|cbn; apply Hs|
    cbn; try apply Hs; lia].

Lemma clearCa_ok s : via_ok s -> via_ok (clearCaFlags s).
Proof. intros Hs. unfold clearCaFlags. repeat case_match; same_by Hs. Qed.

Lemma clearCb_ok s : via_ok s -> via_ok (clearCbFlags s).
Proof. intros Hs. unfold clearCbFlags. repeat case_match; same_by Hs. Qed.

Lemma read_ok reg s : via_ok s -> via_ok (read reg s).2.
Proof.
  intros Hs. unfold read. repeat case_match; cbn [snd];
    auto using clearCa_ok, clearCb_ok; same_by Hs.
Qed.

Lemma set_orb_ok v s : via_ok s -> via_ok (set_orb v s).
Proof. intros Hs. same_by Hs. Qed.
Lemma set_ora_ok v s : via_ok s -> via_ok (set_ora v s).
Proof. intros Hs. same_by Hs. Qed.

Lemma write_ok reg v s : byte v -> via_ok s -> via_ok (write reg v s).
Proof.
  intros Hv Hs. unfold write. pose proof (u16_range) as Hu.
  assert (Hw : 0 <= (v .<< 8) .| t2ll_ s < 65536).
  { pose proof (vo_t2ll s Hs). unfold byte in *. rewrite shiftl_lor_low by lia. lia. }
  repeat case_match; subst; auto using clearCa_ok, clearCb_ok, set_orb_ok, set_ora_ok;
    try same_by Hs;
    (split; cbn; try (apply Hs || apply Hu); flags; try (apply Hs || done); unfold kT2LoadTicks;
     try (pose proof (Hu ((t1latch_ s .& 255) .| (v .<< 8))); lia); try lia).
  all: try (repeat case_match; lia).
  all: first [exact Hv | apply land_u8, Hv | idtac].
Qed.

Lemma pulse_ok s : via_ok s -> via_ok (countPb6Pulse s).
Proof.
  intros Hs. unfold countPb6Pulse. rewrite land_ffff.
  pose proof (Z.mod_pos_bound (t2_ s - 1) 65536 ltac:(lia)).
  repeat case_match; (split; cbn; rewrite ?land_ffff; flags; try apply Hs; lia).
Qed.

Lemma perform_ok op s : op_ok op -> via_ok s -> via_ok (perform op s).
Proof.
  intros Ho Hs. destruct op; cbn [perform op_ok] in *.
  - unfold reset. split; cbn; unfold byte, kT2LoadTicks; (lia || done).
  - by apply read_ok.
  - by apply write_ok.
  - same_by Hs.
  - unfold setInB. set (u := if _ : bool then _ else _).
    assert (Hu : via_ok u) by (subst u; case_match; auto using pulse_ok). same_by Hu.
  - by apply tick_ok.
  - same_by Hs.
  - same_by Hs.
  - same_by Hs.
  - unfold setCb1. repeat case_match; (done || same_by Hs).
  - unfold setCb2. repeat case_match; (done || same_by Hs).
  - same_by Hs.
  - same_by Hs.
  - same_by Hs.
  - same_by Hs.
  - same_by Hs.
  - unfold extShiftCB1, extBitDone. repeat case_match; same_by Hs.
  - same_by Hs.
  - unfold pmuIntLevel. case_match; same_by Hs.
  - unfold extCb1Int. repeat case_match; same_by Hs.
Qed.

(** A chip driven by any sequence of operations from power-on keeps its
    counters, latches and flags in range, and drives PB7 low only while T1 is
    armed (which is what makes the event deadline sound). *)
Theorem via_reachable_ok (ops : list Op) (H : Forall op_ok ops) : via_ok (performAll ops Via0).
Proof.
  unfold performAll. generalize Via0_ok. generalize Via0.
  induction H as [|op ops Ho _ IH]; intros s Hs; [exact Hs|]. cbn. apply IH.
  by apply perform_ok.
Qed.

Lemma via_reachable_ok_witness :
  via_ok (performAll [Write 11 0x40; Write 5 1; Tick 300; Read 4; Reset; Tick 5] Via0).
Proof. apply via_reachable_ok. repeat constructor; cbn; unfold byte; lia. Defined.

(** ** The PMU interrupt level *)

Definition level_held (s : Via) : Prop :=
  pmuIntAsserted_ s = true -> Z.testbit (ifr_ s) 4 = true.

Lemma set_bit4 s : Z.testbit (ifr_ (setIfr CB1 s)) 4 = true.
Proof. unfold setIfr. cbn [ifr_ set_ifr]. by rewrite Z.lor_spec, orb_true_r. Qed.

(** Setting flags keeps the level's flag, and so does clearing others. *)
Lemma setIfr_level bits s : level_held s -> level_held (setIfr bits s).
Proof. intros H E. unfold setIfr. cbn [ifr_ set_ifr]. by rewrite Z.lor_spec, (H E). Qed.

Lemma clearIfr_level bits s :
  Z.testbit bits 4 = false -> level_held s -> level_held (clearIfr bits s).
Proof.
  intros Hb H E. unfold clearIfr. cbn [ifr_ set_ifr]. rewrite Z.land_spec, (H E). unfold u8.
  change 256 with (2 ^ 8). rewrite Z.mod_pow2_bits_low, Z.lnot_spec, Hb by lia. done.
Qed.

Lemma tick_level n s : via_ok s -> 0 <= n -> level_held s -> level_held (tick n s).2.
Proof.
  intros Hs Hn H. rewrite tick_cores by assumption.
  destruct (run1 n s) as [h1 [[t armed] pb7]], (run2 n s) as [h2 [[u hold] armed2]],
    (shiftRun n (shiftCount_ s)) as [h3 c3]. intros E. cbn [snd after ifr_ set_ifr] in *.
  by rewrite Z.lor_spec, (H E).
Qed.

Lemma clearCa_level s : level_held s -> level_held (clearCaFlags s).
Proof.
  intros H. unfold clearCaFlags. repeat case_match;
    repeat (apply clearIfr_level; [reflexivity|]); exact H.
Qed.

Lemma clearCb_level s : level_held (clearCbFlags s).
Proof.
  unfold clearCbFlags. destruct (pmuIntAsserted_ (clearIfr CB1 s)) eqn:E.
  - repeat case_match; repeat (apply clearIfr_level; [reflexivity|]); intros _; apply set_bit4.
  - repeat case_match; intros E'; cbn in *; congruence.
Qed.

Lemma read_level reg s : level_held s -> level_held (read reg s).2.
Proof.
  intros H. unfold read. repeat case_match; cbn [snd];
    auto using clearCa_level, clearCb_level; try exact H;
    by apply (clearIfr_level _ s).
Qed.

Lemma write_level reg v s : level_held s -> level_held (write reg v s).
Proof.
  intros H. unfold write.
  repeat case_match; try exact H; auto using clearCa_level, clearCb_level;
    try (by apply clearIfr_level); try (intros _; apply set_bit4);
    try (intros E; cbn in *; congruence).
  all: by apply (clearIfr_level SHIFT s).
Qed.

Lemma perform_level op s :
  op_ok op -> op <> Reset -> via_ok s -> level_held s -> level_held (perform op s).
Proof.
  intros Ho Hr Hs H. destruct op; cbn [perform op_ok] in *; try done; try exact H;
    try (by apply (setIfr_level _ s)).
  - by apply read_level.
  - by apply write_level.
  - unfold setInB, countPb6Pulse. repeat case_match; try exact H; by apply (setIfr_level _ s).
  - by apply tick_level.
  - unfold setCb1. repeat case_match; try exact H. by apply (setIfr_level _ s).
  - unfold setCb2. repeat case_match; try exact H. by apply (setIfr_level _ s).
  - unfold extShiftCB1, extBitDone. repeat case_match; try exact H; by apply (setIfr_level _ s).
  - unfold pmuIntLevel. case_match; [intros _; apply set_bit4|]. intros E. cbn in E. congruence.
  - unfold extCb1Int. repeat case_match; try exact H. by apply (setIfr_level _ s).
Qed.

(** While the power manager holds its interrupt line, IFR.CB1 stays set
    through any sequence of register accesses, acknowledgements and ticks; the
    exception is [reset], after which the line is still held and the flag is
    clear. *)
Theorem pmu_level_holds (ops : list Op) (H : Forall (fun op => op_ok op /\ op <> Reset) ops) :
  let s := performAll ops Via0 in
  (pmuIntAsserted_ s = true -> Z.testbit (ifr_ s) 4 = true) /\
  (pmuIntAsserted_ (reset s) = pmuIntAsserted_ s /\ ifr_ (reset s) = 0).
Proof.
  cbv zeta. split; [|done].
  assert (G : forall s, via_ok s -> level_held s -> level_held (performAll ops s)).
  { induction H as [|op ops [Ho Hr] _ IH]; intros s Hs Hl; [exact Hl|]. cbn.
    apply IH; [by apply perform_ok|by apply perform_level]. }
  apply G; [exact Via0_ok|done].
Qed.

Lemma pmu_level_holds_witness :
  let s := performAll [PmuIntLevel true; Write 13 0x7F; Read 0] Via0 in
  pmuIntAsserted_ s = true /\ Z.testbit (ifr_ s) 4 = true /\
  pmuIntAsserted_ (reset s) = true /\ ifr_ (reset s) = 0.
Proof.
  destruct (pmu_level_holds [PmuIntLevel true; Write 13 0x7F; Read 0]) as (H & E & F).
  - repeat constructor; cbn; unfold byte; (lia || discriminate).
  - cbv zeta. split; [reflexivity|]. split; [by apply H|]. split; [by rewrite E|exact F].
Defined.

(** ** Latencies *)

Lemma testbit_set x b k : Z.testbit (x .| b) k = Z.testbit x k || Z.testbit b k.
Proof. apply Z.lor_spec. Qed.

Lemma clear_spec bits k s :
  0 <= k < 8 -> Z.testbit (ifr_ (clearIfr bits s)) k = Z.testbit (ifr_ s) k && negb (Z.testbit bits k).
Proof.
  intros Hk. unfold clearIfr. cbn [ifr_ set_ifr]. rewrite Z.land_spec. unfold u8.
  change 256 with (2 ^ 8). by rewrite Z.mod_pow2_bits_low, Z.lnot_spec by lia.
Qed.

Lemma flagBits_6 h1 h2 h3 : Z.testbit (flagBits h1 h2 h3) 6 = h1.
Proof. by destruct h1, h2, h3. Qed.
Lemma flagBits_5 h1 h2 h3 : Z.testbit (flagBits h1 h2 h3) 5 = h2.
Proof. by destruct h1, h2, h3. Qed.

Lemma tick_flags n s :
  via_ok s -> 0 <= n ->
  Z.testbit (ifr_ (tick n s).2) 6 = Z.testbit (ifr_ s) 6 || (run1 n s).1 /\
  Z.testbit (ifr_ (tick n s).2) 5 = Z.testbit (ifr_ s) 5 || (run2 n s).1.
Proof.
  intros Hs Hn. rewrite tick_cores by assumption.
  destruct (run1 n s) as [h1 [[t armed] pb7]], (run2 n s) as [h2 [[u hold] armed2]],
    (shiftRun n (shiftCount_ s)) as [h3 c3]. cbn [fst snd after ifr_ set_ifr].
  by rewrite !testbit_set, flagBits_6, flagBits_5.
Qed.

(** Two byte writes make a latch. *)
Lemma latch_bytes old lo hi :
  0 <= old < 65536 -> byte lo -> byte hi ->
  u16 ((u16 ((old .& 0xFF00) .| lo) .& 0x00FF) .| (hi .<< 8)) = hi * 256 + lo.
Proof.
  unfold byte. intros Ho Hl Hh.
  assert (E : u16 ((old .& 0xFF00) .| lo) .& 0x00FF = lo).
  { unfold u16. change 65536 with (2 ^ 16). rewrite <- Z.land_ones by lia.
    rewrite <- Z.land_assoc. change (Z.ones 16 .& 255) with 255.
    rewrite Z.land_lor_distr_l, <- Z.land_assoc. change (0xFF00 .& 255) with 0.
    rewrite Z.land_0_r, Z.lor_0_l. change 255 with (Z.ones 8).
    rewrite Z.land_ones by lia. by apply Z.mod_small. }
  rewrite E, Z.lor_comm, shiftl_lor_low by lia. apply u16_small. lia.
Qed.

Definition loadT1 (lo hi : Z) (s : Via) : Via := write 5 hi (write 4 lo s).
Definition loadT2 (lo hi : Z) (s : Via) : Via := write 9 hi (write 8 lo s).

Lemma loadT1_fields lo hi s :
  via_ok s -> byte lo -> byte hi ->
  t1_ (loadT1 lo hi s) = hi * 256 + lo /\ t1latch_ (loadT1 lo hi s) = hi * 256 + lo /\
  t1armed_ (loadT1 lo hi s) = true /\ Z.testbit (ifr_ (loadT1 lo hi s)) 6 = false.
Proof.
  intros Hs Hl Hh. pose proof (latch_bytes _ lo hi (vo_latch s Hs) Hl Hh) as E.
  split_and!; [exact E|exact E|done|].
  unfold loadT1, write. rewrite clear_spec by lia. apply andb_false_r.
Qed.

Lemma loadT2_fields lo hi s :
  via_ok s -> byte lo -> byte hi -> has (acr_ s) 0x20 = false ->
  t2_ (loadT2 lo hi s) = hi * 256 + lo /\ t2hold_ (loadT2 lo hi s) = 2 /\
  t2armed_ (loadT2 lo hi s) = true /\ Z.testbit (ifr_ (loadT2 lo hi s)) 5 = false.
Proof.
  intros Hs Hl Hh Ha. unfold byte in *. split_and!.
  - cbn. rewrite shiftl_lor_low by lia. lia.
  - cbn. by rewrite Ha.
  - done.
  - unfold loadT2, write. rewrite clear_spec by lia. apply andb_false_r.
Qed.

Lemma loadT1_ok lo hi s : via_ok s -> byte lo -> byte hi -> via_ok (loadT1 lo hi s).
Proof. unfold loadT1. auto using write_ok. Qed.
Lemma loadT2_ok lo hi s : via_ok s -> byte lo -> byte hi -> via_ok (loadT2 lo hi s).
Proof. unfold loadT2. auto using write_ok. Qed.
Lemma loadT1_acr lo hi s : acr_ (loadT1 lo hi s) = acr_ s.
Proof. reflexivity. Qed.
Lemma loadT2_acr lo hi s : acr_ (loadT2 lo hi s) = acr_ s.
Proof. reflexivity. Qed.

(** A counter about to be flagged: when its flag rises. *)
Lemma t1_rises n s :
  via_ok s -> 0 <= n -> t1armed_ s = true -> Z.testbit (ifr_ s) 6 = false ->
  Z.testbit (ifr_ (tick n s).2) 6 = (t1_ s + 1 <=? n).
Proof.
  intros Hs Hn Ha Hf. rewrite (proj1 (tick_flags n _ Hs Hn)), Hf.
  unfold run1, t1Run, core1. rewrite Ha.
  destruct (Z.ltb_spec (t1_ s - n) 0), (Z.leb_spec (t1_ s + 1) n); try lia;
    [by destruct (has _ _)|done].
Qed.

Lemma t2_rises n s :
  via_ok s -> 0 <= n -> t2armed_ s = true -> Z.testbit (ifr_ s) 5 = false ->
  has (acr_ s) 0x20 = false ->
  Z.testbit (ifr_ (tick n s).2) 5 = (t2_ s + t2hold_ s + 1 <=? n).
Proof.
  intros Hs Hn Ha Hf Hm. rewrite (proj2 (tick_flags n _ Hs Hn)), Hf.
  pose proof (vo_t2 s Hs). pose proof (vo_hold s Hs).
  unfold run2, t2Run, core2. rewrite Ha, Hm.
  destruct (Z.ltb_spec (t2_ s - (n - Z.min n (t2hold_ s))) 0),
    (Z.leb_spec (t2_ s + t2hold_ s + 1) n); try lia; done.
Qed.

(** A free-running T1 reloads when it underflows. *)
Lemma t1_reloads s :
  via_ok s -> has (acr_ s) 0x40 = true ->
  t1_ (tick (t1_ s + 1) s).2 = t1latch_ s + 1 /\ t1armed_ (tick (t1_ s + 1) s).2 = true.
Proof.
  intros Hs Hf. pose proof (vo_t1 s Hs). pose proof (vo_latch s Hs).
  rewrite tick_cores by (done || lia). unfold run1, t1Run, core1. rewrite Hf.
  replace (t1_ s - (t1_ s + 1)) with (-1) by lia. cbn [Z.ltb Z.compare].
  destruct (run2 _ _) as [h2 [[u hold] armed2]], (shiftRun _ _) as [h3 c3].
  cbn [snd after t1_ t1armed_ set_ifr set_t1 set_t1armed set_t1Pb7 set_t2 set_t2hold
    set_t2armed set_shiftCount].
  change (- (-1 + 1)) with 0. rewrite Z.mod_0_l by lia. split; [lia|done].
Qed.

Lemma clear_ok bits s : via_ok s -> via_ok (clearIfr bits s).
Proof. intros Hs. same_by Hs. Qed.
Lemma clear_t1 bits s : t1_ (clearIfr bits s) = t1_ s /\ t1armed_ (clearIfr bits s) = t1armed_ s.
Proof. done. Qed.

(** Timer latencies in cycles: after loading [N] through the registers, T1
    raises its flag exactly from cycle [N + 1] on and, in timer mode, T2
    exactly from cycle [N + 3] on; in free-run mode the next T1 interrupt
    comes [N + 2] cycles after the first. *)
Theorem timer_latencies (s : Via) (lo hi n : Z)
  (Hs : via_ok s) (Hl : byte lo) (Hh : byte hi) (Hn : 0 <= n) :
  let N := hi * 256 + lo in
  Z.testbit (ifr_ (tick n (loadT1 lo hi s)).2) 6 = (N + 1 <=? n) /\
  (has (acr_ s) 0x20 = false ->
     Z.testbit (ifr_ (tick n (loadT2 lo hi s)).2) 5 = (N + 3 <=? n)) /\
  (has (acr_ s) 0x40 = true ->
     Z.testbit (ifr_ (tick n (clearIfr TIMER1 (tick (N + 1) (loadT1 lo hi s)).2)).2) 6
     = (N + 2 <=? n)).
Proof.
  cbv zeta.
  destruct (loadT1_fields lo hi s Hs Hl Hh) as (Et & El & Ea & Ef).
  pose proof (loadT1_ok lo hi s Hs Hl Hh) as O1. pose proof (loadT2_ok lo hi s Hs Hl Hh) as O2.
  split_and!.
  - by rewrite t1_rises, Et by assumption.
  - intros Hm. destruct (loadT2_fields lo hi s Hs Hl Hh Hm) as (Eu & Eh & Ea2 & Ef2).
    rewrite t2_rises, Eu, Eh by (by rewrite ?loadT2_acr). f_equal. lia.
  - intros Hf. rewrite <- Et at 1. rewrite <- (loadT1_acr lo hi) in Hf.
    destruct (t1_reloads _ O1 Hf) as [Er Ar].
    assert (Ov : via_ok (tick (t1_ (loadT1 lo hi s) + 1) (loadT1 lo hi s)).2)
      by (apply tick_ok; [done|rewrite Et; unfold byte in *; lia]).
    revert Er Ar Ov. generalize (tick (t1_ (loadT1 lo hi s) + 1) (loadT1 lo hi s)).2.
    intros v Er Ar Ov. destruct (clear_t1 TIMER1 v) as [C1 C2].
    rewrite t1_rises, C1, Er, El by
      (first [by apply clear_ok | by rewrite C2 | assumption
             | rewrite clear_spec by lia; apply andb_false_r]).
    f_equal. lia.
Qed.

Lemma timer_latencies_witness :
  Z.testbit (ifr_ (tick 258 (loadT2 0 1 Via0)).2) 5 = false /\
  Z.testbit (ifr_ (tick 259 (loadT2 0 1 Via0)).2) 5 = true.
Proof.
  destruct (timer_latencies Via0 0 1 258) as (_ & H & _);
    [exact Via0_ok|unfold byte; lia|unfold byte; lia|lia|].
  destruct (timer_latencies Via0 0 1 259) as (_ & H' & _);
    [exact Via0_ok|unfold byte; lia|unfold byte; lia|lia|].
  split; [rewrite (H eq_refl)|rewrite (H' eq_refl)]; reflexivity.
Defined.

(** ** The flag registers *)

Lemma mask7_bit x k : 0 <= k < 7 -> Z.testbit (x .& 0x7F) k = Z.testbit x k.
Proof.
  intros Hk. change 0x7F with (Z.ones 7).
  by rewrite Z.land_spec, Z.ones_spec_low, andb_true_r by lia.
Qed.

Lemma mask7_high x k : 7 <= k -> Z.testbit (x .& 0x7F) k = false.
Proof.
  intros Hk. change 0x7F with (Z.ones 7).
  by rewrite Z.land_spec, Z.ones_spec_high, andb_false_r by lia.
Qed.

Lemma irq_iff s :
  irqAsserted s = true <->
  exists k, 0 <= k < 7 /\ Z.testbit (ifr_ s) k = true /\ Z.testbit (ier_ s) k = true.
Proof.
  unfold irqAsserted. rewrite negb_true_iff, Z.eqb_neq. split.
  - intros Hn.
    assert (Hd : existsb (fun k => Z.testbit ((ifr_ s .& ier_ s) .& 0x7F) k) (seqZ 0 7) = true).
    { apply not_false_is_true. intros Hf. apply Hn. apply Z.bits_inj_0. intros k.
      destruct (Z.lt_ge_cases k 0); [by apply Z.testbit_neg_r|].
      destruct (Z.lt_ge_cases k 7); [|by apply mask7_high].
      apply not_true_is_false. intros Ht. assert (E : existsb (fun k => Z.testbit
        ((ifr_ s .& ier_ s) .& 0x7F) k) (seqZ 0 7) = true); [|congruence].
      apply existsb_exists. exists k. split; [|exact Ht].
      apply list_elem_of_In, elem_of_seqZ. lia. }
    apply existsb_exists in Hd as (k & Hk & Ht). apply list_elem_of_In, elem_of_seqZ in Hk.
    exists k. rewrite mask7_bit, Z.land_spec in Ht by lia. apply andb_true_iff in Ht.
    split; [lia|exact Ht].
  - intros (k & Hk & Hi & He) E.
    assert (Ht : Z.testbit ((ifr_ s .& ier_ s) .& 0x7F) k = true)
      by (rewrite mask7_bit, Z.land_spec, Hi, He by lia; done).
    rewrite E, Z.bits_0 in Ht. done.
Qed.

Lemma read_ifr_bits s k :
  0 <= k < 8 ->
  Z.testbit (read 13 s).1 k = if k =? 7 then irqAsserted s else Z.testbit (ifr_ s) k.
Proof.
  intros Hk. cbn [read fst]. rewrite u8_bit, Z.lor_spec by lia. unfold ANY.
  destruct (Z.eqb_spec k 7) as [->|N].
  - rewrite mask7_high by lia. by destruct (irqAsserted s).
  - rewrite mask7_bit by lia.
    assert (E : Z.testbit (if irqAsserted s then 0x80 else 0) k = false).
    { destruct (irqAsserted s); [|apply Z.bits_0]. change 0x80 with (2 ^ 7).
      apply Z.pow2_bits_false. lia. }
    by rewrite E, orb_false_r.
Qed.

Lemma write_ifr_bits v s k :
  0 <= k < 7 ->
  Z.testbit (ifr_ (write 13 v s)) k =
  (Z.testbit (ifr_ s) k && negb (Z.testbit v k)) || (pmuIntAsserted_ s && (k =? 4)).
Proof.
  intros Hk. cbn [write]. set (u := if has v CA1 then _ else s).
  assert (Eu : ifr_ u = ifr_ s /\ pmuIntAsserted_ u = pmuIntAsserted_ s)
    by (subst u; by destruct (has v CA1)).
  destruct Eu as [Ei Ep]. change (pmuIntAsserted_ (clearIfr (v .& 0x7F) u)) with (pmuIntAsserted_ u).
  rewrite Ep, <- Ei, <- (mask7_bit v k), <- clear_spec by lia.
  destruct (pmuIntAsserted_ s); [|by rewrite orb_false_r].
  unfold setIfr. cbn [ifr_ set_ifr]. rewrite Z.lor_spec. f_equal. unfold CB1.
  change 0x10 with (2 ^ 4). rewrite Z.pow2_bits_eqb by lia. apply Z.eqb_sym.
Qed.

Lemma write_ier_bits v s k :
  0 <= k < 7 ->
  Z.testbit (ier_ (write 14 v s)) k =
  if Z.testbit v k then Z.testbit v 7 else Z.testbit (ier_ s) k.
Proof.
  intros Hk. cbn [write]. unfold has. change 0x80 with (2 ^ 7).
  rewrite land_pow2_zero, negb_involutive by lia. destruct (Z.testbit v 7);
    cbn [ier_ set_ier].
  - rewrite Z.lor_spec, mask7_bit by lia. by destruct (Z.testbit v k), (Z.testbit (ier_ s) k).
  - rewrite Z.land_spec, u8_bit, Z.lnot_spec, mask7_bit by lia.
    by destruct (Z.testbit v k), (Z.testbit (ier_ s) k).
Qed.

(** The flag registers: reading IFR shows the seven flags and, in bit 7,
    whether an enabled one is set, without changing the chip; writing ones to
    IFR clears exactly those flags (a held PMU level excepted); writing IER
    sets or clears, according to bit 7, exactly the enables written as one. *)
Theorem flag_registers (s : Via) (v k : Z) (Hk : 0 <= k < 7) :
  Z.testbit (read 13 s).1 k = Z.testbit (ifr_ s) k /\
  (Z.testbit (read 13 s).1 7 = true <->
     exists j, 0 <= j < 7 /\ Z.testbit (ifr_ s) j = true /\ Z.testbit (ier_ s) j = true) /\
  (read 13 s).2 = s /\
  Z.testbit (ifr_ (write 13 v s)) k =
    (Z.testbit (ifr_ s) k && negb (Z.testbit v k)) || (pmuIntAsserted_ s && (k =? 4)) /\
  Z.testbit (ier_ (write 14 v s)) k =
    (if Z.testbit v k then Z.testbit v 7 else Z.testbit (ier_ s) k).
Proof.
  split_and!; auto using write_ifr_bits, write_ier_bits.
  - rewrite read_ifr_bits by lia. by rewrite (proj2 (Z.eqb_neq k 7)) by lia.
  - rewrite read_ifr_bits by lia. exact (irq_iff s).
Qed.

Lemma flag_registers_witness :
  Z.testbit (ifr_ (write 13 0x40 (raiseCa1 (setIfr TIMER1 Via0)))) 1 = true.
Proof.
  destruct (flag_registers (raiseCa1 (setIfr TIMER1 Via0)) 0x40 1) as (_ & _ & _ & E & _);
    [lia|]. rewrite E. reflexivity.
Defined.
