(* ===== verification/Rtc.v ===== *)
(** * Rtc: the clock and parameter memory chip

    [src/Rtc.h] and [src/Rtc.cpp].  The record has the fields of the class
    (the trace switch apart, which only prints); [phase_] is its enumeration.
    A battery file is a list of bytes, or nothing when it cannot be opened. *)

From S2P Require Import Prelude.
From stdpp Require Import base list numbers option decidable.

Open Scope Z_scope.

Inductive Phase : Set := CMD | WRITE_DATA | READ_DATA | XP_ADDR | XP_WRITE | DONE.

#[export] Instance phase_eq : EqDecision Phase.
Proof. solve_decision. Defined.

Record Rtc := mkRtc {
  seconds_ : Z;
  pram_ : list Z;
  writeProtect_ : bool;
  phase_ : Phase;
  bitCnt_ : Z;
  shift_ : Z;
  cmd_ : Z;
  outData_ : Z;
  out_ : Z;
  xpAddr_ : Z;
  enabled_ : bool;
  lastClk_ : bool;
  appleTalkPram_ : bool
}.

#[export] Instance eta_rtc : Eta Rtc := fun s =>
  mkRtc (seconds_ s) (pram_ s) (writeProtect_ s) (phase_ s) (bitCnt_ s) (shift_ s) (cmd_ s)
    (outData_ s) (out_ s) (xpAddr_ s) (enabled_ s) (lastClk_ s) (appleTalkPram_ s).

Definition set_seconds := ltac:(set_field seconds_).
Definition set_pram := ltac:(set_field pram_).
Definition set_writeProtect := ltac:(set_field writeProtect_).
Definition set_phase := ltac:(set_field phase_).
Definition set_bitCnt := ltac:(set_field bitCnt_).
Definition set_shift := ltac:(set_field shift_).
Definition set_cmd := ltac:(set_field cmd_).
Definition set_outData := ltac:(set_field outData_).
Definition set_out := ltac:(set_field out_).
Definition set_xpAddr := ltac:(set_field xpAddr_).
Definition set_enabled := ltac:(set_field enabled_).
Definition set_lastClk := ltac:(set_field lastClk_).
Definition set_appleTalkPram := ltac:(set_field appleTalkPram_).

Definition Rtc0 : Rtc :=
  mkRtc 0 (replicate 256 0) false CMD 0 0 0 0 1 0 false false false.

Definition configure (appleTalkPram : bool) (s : Rtc) : Rtc := set_appleTalkPram appleTalkPram s.

Definition rtc_reset (s : Rtc) : Rtc :=
  set_lastClk false (set_enabled false (set_out 1 (set_cmd 0 (set_shift 0
    (set_bitCnt 0 (set_phase CMD s)))))).

Definition dataBit (s : Rtc) : Z := out_ s.
Definition tickSecond (s : Rtc) : Rtc := set_seconds (u32 (seconds_ s + 1)) s.
Definition setSeconds (n : Z) (s : Rtc) : Rtc := set_seconds n s.

(** [pram_[addr]] and [pram_[addr] = v]; the index is a byte. *)
Definition xpram (addr : Z) (s : Rtc) : Z := default 0 (rd (pram_ s) addr).
Definition setXpram (addr v : Z) (s : Rtc) : Rtc := set_pram (wr (pram_ s) addr v) s.

(** ** The cold-start image *)

Definition kFactory : list (Z * Z) :=
  [(0x0C, 0x4E); (0x0D, 0x75); (0x0E, 0x4D); (0x0F, 0x63); (0x01, 0x80);
   (0x08, 0x13); (0x09, 0x88); (0x0A, 0x00); (0x0B, 0xCC);
   (0x10, 0xA8); (0x11, 0x00); (0x12, 0x00); (0x13, 0x22);
   (0x14, 0xCC); (0x15, 0x0A); (0x16, 0xCC); (0x17, 0x0A);
   (0x1C, 0x00); (0x1D, 0x02); (0x1E, 0x63); (0x1F, 0x00);
   (0x76, 0x00); (0x77, 0x01)].

Definition hadSig (s : Rtc) : bool :=
  (xpram 0x0C s =? 0x4E) && (xpram 0x0D s =? 0x75) &&
  (xpram 0x0E s =? 0x4D) && (xpram 0x0F s =? 0x63).

Definition factoryDefaults (s : Rtc) : Rtc :=
  let s := if negb (hadSig s)
           then foldl (fun s p => setXpram p.1 p.2 s) (set_pram (replicate 256 0) s) kFactory
           else s in
  setXpram 0x13 (if appleTalkPram_ s then 0x21 else 0x22) s.

(** ** The battery file *)

Definition loadPram (file : option (list Z)) (s : Rtc) : bool * Rtc :=
  match file with
  | None => (false, s)
  | Some b =>
      if Nat.ltb (length b) 256 then (false, s) else (true, set_pram (take 256 b) s)
  end.

Definition savePram (s : Rtc) : list Z := pram_ s.

(** ** Registers *)

Definition readReg (cmd : Z) (s : Rtc) : Z :=
  let addr := (cmd .>> 2) .& 0x1F in
  if addr <? 8 then u8 (seconds_ s .>> (8 * (addr .& 3)))
  else if addr <? 12 then xpram addr s
  else if addr <? 16 then 0x00
  else xpram addr s.

Definition writeReg (cmd v : Z) (s : Rtc) : Rtc :=
  let addr := (cmd .>> 2) .& 0x1F in
  if addr =? 13 then set_writeProtect (v .& 0x80 <>? 0) s
  else if addr =? 12 then s
  else if writeProtect_ s then s
  else if addr <? 8
  then set_seconds ((seconds_ s .& u32 (Z.lnot (u32 (0xFF .<< (8 * (addr .& 3)))))) .|
                    u32 (v .<< (8 * (addr .& 3)))) s
  else if addr <? 12 then setXpram addr v s
  else if addr <? 16 then s
  else setXpram addr v s.

(** ** The serial engine *)

(** A byte has been shifted in ([bitCnt_] is back to zero). *)
Definition byteDone (s : Rtc) : Rtc :=
  match phase_ s with
  | CMD =>
      let s := set_shift 0 (set_cmd (shift_ s) s) in
      if cmd_ s .& 0x78 =? 0x38 then set_phase XP_ADDR s
      else if cmd_ s .& 0x80 <>? 0
      then set_bitCnt 8 (set_outData (readReg (cmd_ s) s) (set_phase READ_DATA s))
      else set_phase WRITE_DATA s
  | XP_ADDR =>
      let s := set_xpAddr (u8 (((cmd_ s .& 7) .<< 5) .| ((shift_ s .& 0x7C) .>> 2))) s in
      let s := set_shift 0 s in
      if cmd_ s .& 0x80 <>? 0
      then set_bitCnt 8 (set_outData (xpram (xpAddr_ s) s) (set_phase READ_DATA s))
      else set_phase XP_WRITE s
  | XP_WRITE =>
      let s := if negb (writeProtect_ s) then setXpram (xpAddr_ s) (shift_ s) s else s in
      set_phase DONE (set_shift 0 s)
  | _ => set_phase DONE (set_shift 0 (writeReg (cmd_ s) (shift_ s) s))
  end.

(** The [switch] on a falling clock edge. *)
Definition fallingEdge (dataOut : bool) (s : Rtc) : Rtc :=
  match phase_ s with
  | CMD | WRITE_DATA | XP_ADDR | XP_WRITE =>
      let s := set_shift (u8 ((shift_ s .<< 1) .| (if dataOut then 1 else 0))) s in
      let s := set_bitCnt (bitCnt_ s + 1) s in
      if bitCnt_ s <? 8 then s else byteDone (set_bitCnt 0 s)
  | READ_DATA =>
      if 0 <? bitCnt_ s
      then
        let s := set_bitCnt (bitCnt_ s - 1) s in
        set_out ((outData_ s .>> bitCnt_ s) .& 1) s
      else set_out 1 (set_phase DONE s)
  | DONE => s
  end.

Definition setLines (enable clock dataOut : bool) (s : Rtc) : Rtc :=
  if negb enable
  then
    set_lastClk clock (set_out 1 (set_shift 0 (set_bitCnt 0 (set_phase CMD
      (set_enabled false s)))))
  else
    let s := if negb (enabled_ s)
             then set_shift 0 (set_bitCnt 0 (set_phase CMD (set_enabled true s))) else s in
    let falling := negb clock && lastClk_ s in
    let s := set_lastClk clock s in
    if negb falling then s else fallingEdge dataOut s.
