(* ===== verification/RtcFacts.v ===== *)
(** * RtcFacts: transactions with the clock chip

    The host side of the wire is written down here as the ROM drives it: data
    is set while the clock is high and the chip samples it, or presents its
    bit, on the falling edge.  A transaction selects the chip and clocks whole
    bytes, most significant bit first. *)

From S2P Require Import Prelude.
From S2P Require Import Rtc.
From stdpp Require Import base list numbers option decidable.

Open Scope Z_scope.

(** ** The host's side *)

Definition select (s : Rtc) : Rtc := setLines true true true (setLines false true true s).
Definition deselect (s : Rtc) : Rtc := setLines false true true s.
Definition clockBit (b : bool) (s : Rtc) : Rtc :=
  setLines true false b (setLines true true b s).

(** The bits of a byte, the most significant first. *)
Definition bitsOf (v : Z) : list bool := map (fun k => Z.testbit v (7 - k)) (seqZ 0 8).

Definition sendByte (v : Z) (s : Rtc) : Rtc := foldl (fun s b => clockBit b s) s (bitsOf v).

(** Eight clocks, the presented bits collected into a byte. *)
Definition recvByte (s : Rtc) : Z * Rtc :=
  foldl (fun '(acc, s) _ => let s := clockBit true s in (2 * acc + dataBit s, s))
    (0, s) (seqZ 0 8).

(** ** One clock *)

(** A selected chip between two clocks. *)
Definition ready (s : Rtc) : Prop := enabled_ s = true.

Lemma clockBit_edge b s :
  ready s -> clockBit b s = fallingEdge b (set_lastClk false s).
Proof.
  unfold ready. intros H. unfold clockBit, setLines. cbn [negb]. rewrite H. cbn [negb andb].
  cbn. rewrite H. cbn. by destruct s.
Qed.

Definition shifting (p : Phase) : bool :=
  match p with CMD | WRITE_DATA | XP_ADDR | XP_WRITE => true | _ => false end.

(** The register after a bit has been shifted in. *)
Definition shiftIn (sh : Z) (b : bool) : Z := u8 ((sh .<< 1) .| (if b then 1 else 0)).

Lemma clockBit_shift b s :
  ready s -> shifting (phase_ s) = true -> bitCnt_ s < 7 ->
  clockBit b s =
  set_lastClk false (set_bitCnt (bitCnt_ s + 1) (set_shift (shiftIn (shift_ s) b) s)).
Proof.
  intros Hr Hp Hb. rewrite clockBit_edge by exact Hr. unfold fallingEdge.
  cbn [phase_ set_lastClk]. destruct (phase_ s) eqn:E; try discriminate Hp;
    cbn; rewrite (proj2 (Z.ltb_lt _ _)) by lia; destruct s; cbn in *; by subst.
Qed.

Lemma clockBit_last b s :
  ready s -> shifting (phase_ s) = true -> bitCnt_ s = 7 ->
  clockBit b s =
  byteDone (set_lastClk false (set_bitCnt 0 (set_shift (shiftIn (shift_ s) b) s))).
Proof.
  intros Hr Hp Hb. rewrite clockBit_edge by exact Hr. unfold fallingEdge.
  cbn [phase_ set_lastClk]. destruct (phase_ s) eqn:E; try discriminate Hp; cbn; by rewrite Hb.
Qed.

(** Eight bits shifted into an empty register are the byte. *)
Lemma shiftIn_byte v : byte v -> foldl shiftIn 0 (bitsOf v) = v.
Proof.
  intros Hv. apply Z.eqb_eq.
  apply (all_below_sound 8 (fun v => foldl shiftIn 0 (bitsOf v) =? v)); [|exact Hv].
  vm_compute. reflexivity.
Qed.

Lemma sendBits_shift l : forall s,
  ready s -> shifting (phase_ s) = true -> bitCnt_ s + Z.of_nat (length l) <= 7 -> l <> [] ->
  foldl (fun s b => clockBit b s) s l =
  set_lastClk false (set_bitCnt (bitCnt_ s + Z.of_nat (length l))
    (set_shift (foldl shiftIn (shift_ s) l) s)).
Proof.
  induction l as [|b l IH]; intros s Hr Hp Hb Hne; [done|]. cbn [foldl length] in *.
  rewrite clockBit_shift by (done || lia). destruct (decide (l = [])) as [->|Hn]; [done|].
  rewrite IH; [|exact Hr|exact Hp|cbn; lia|exact Hn]. cbn.
  replace (bitCnt_ s + 1 + Z.of_nat (length l)) with (bitCnt_ s + Z.of_nat (S (length l)))
    by lia. done.
Qed.

(** A whole byte sent to a chip waiting for one. *)
Definition awaiting (p : Phase) (s : Rtc) : Prop :=
  ready s /\ phase_ s = p /\ bitCnt_ s = 0 /\ shift_ s = 0.

Lemma sendByte_done v p s :
  byte v -> awaiting p s -> shifting p = true ->
  sendByte v s = byteDone (set_lastClk false (set_shift v s)).
Proof.
  intros Hv (Hr & Hp & Hb & Hs) Hsh. unfold sendByte.
  assert (E : exists l b, bitsOf v = l ++ [b] /\ length l = 7%nat).
  { exists (take 7 (bitsOf v)), (Z.testbit v 0). done. }
  destruct E as (l & b & E & Hl). pose proof (shiftIn_byte v Hv) as Ev.
  rewrite E, foldl_app in Ev. rewrite E, foldl_app. cbn [foldl] in Ev |- *.
  rewrite sendBits_shift; [|done|by rewrite Hp|lia|by intros ->].
  rewrite clockBit_last; [|exact Hr|cbn; by rewrite Hp|cbn; lia].
  cbn [shift_ set_lastClk set_bitCnt set_shift]. rewrite Hs, Ev.
  destruct s; cbn in *; by subst.
Qed.

(** Reading: eight clocks present the latched byte. *)
Definition presenting (n : Z) (s : Rtc) : Prop :=
  ready s /\ phase_ s = READ_DATA /\ bitCnt_ s = n.

Lemma clockBit_present n s :
  presenting n s -> 0 < n ->
  clockBit true s =
  set_lastClk false (set_out ((outData_ s .>> (n - 1)) .& 1) (set_bitCnt (n - 1) s)).
Proof.
  intros (Hr & Hp & Hb) Hn. rewrite clockBit_edge by exact Hr. unfold fallingEdge.
  cbn [phase_ set_lastClk]. rewrite Hp. cbn. rewrite Hb, (proj2 (Z.ltb_lt _ _)) by lia.
  destruct s; cbn in *; by subst.
Qed.

(** The low [m] bits of [d], appended to [acc]. *)
Fixpoint presented (d : Z) (m : nat) (acc : Z) : Z :=
  match m with
  | O => acc
  | S m => presented d m (2 * acc + (d .>> Z.of_nat m) .& 1)
  end.

Lemma presented_byte d : byte d -> presented d 8 0 = d.
Proof.
  intros Hd. apply Z.eqb_eq.
  apply (all_below_sound 8 (fun d => presented d 8 0 =? d)); [|exact Hd].
  vm_compute. reflexivity.
Qed.

Lemma recv_bits (l : list Z) : forall acc s,
  presenting (Z.of_nat (length l)) s -> l <> [] ->
  foldl (fun '(acc, s) _ => let s := clockBit true s in (2 * acc + dataBit s, s)) (acc, s) l =
  (presented (outData_ s) (length l) acc,
   set_lastClk false (set_out (outData_ s .& 1) (set_bitCnt 0 s))).
Proof.
  induction l as [|k l IH]; intros acc s Hp Hne; [done|]. cbn [foldl length presented] in *.
  rewrite (clockBit_present _ _ Hp) by lia. unfold dataBit.
  replace (Z.of_nat (S (length l)) - 1) with (Z.of_nat (length l)) by lia.
  destruct (decide (l = [])) as [->|Hn]; [cbn; by rewrite Z.shiftr_0_r|].
  rewrite IH; [done| |exact Hn]. destruct Hp as (Hr & Hp & _). by split_and!.
Qed.

Lemma recvByte_data s :
  presenting 8 s -> byte (outData_ s) ->
  recvByte s = (outData_ s, set_lastClk false (set_out (outData_ s .& 1) (set_bitCnt 0 s))).
Proof.
  intros Hp Hd. unfold recvByte. rewrite recv_bits by done.
  by rewrite presented_byte.
Qed.

(** ** Bytes of a transaction *)

(** What the battery keeps. *)
Definition battery (s : Rtc) : Z * list Z * bool := (seconds_ s, pram_ s, writeProtect_ s).

Lemma select_awaits s : awaiting CMD (select s) /\ battery (select s) = battery s.
Proof. done. Qed.

Lemma deselect_battery s : battery (deselect s) = battery s.
Proof. done. Qed.

Lemma send_command c s :
  byte c -> awaiting CMD s ->
  let u := sendByte c s in
  cmd_ u = c /\ battery u = battery s /\ ready u /\
  (c .& 0x78 = 0x38 -> awaiting XP_ADDR u) /\
  (c .& 0x78 <> 0x38 -> c .& 0x80 = 0 -> awaiting WRITE_DATA u) /\
  (c .& 0x78 <> 0x38 -> c .& 0x80 <> 0 -> presenting 8 u /\ outData_ u = readReg c s).
Proof.
  intros Hc Ha. cbv zeta. rewrite (sendByte_done c CMD) by done.
  destruct Ha as (Hr & Hp & Hb & Hs). unfold byteDone, awaiting, presenting, ready in *.
  cbn [phase_ set_lastClk set_shift]. rewrite Hp.
  cbn [shift_ cmd_ set_cmd set_shift set_lastClk].
  destruct (Z.eqb_spec (c .& 0x78) 0x38); [by cbn|].
  destruct (Z.eqb_spec (c .& 0x80) 0); by cbn.
Qed.

Lemma send_address a s :
  byte a -> awaiting XP_ADDR s ->
  let u := sendByte a s in
  let addr := u8 (((cmd_ s .& 7) .<< 5) .| ((a .& 0x7C) .>> 2)) in
  battery u = battery s /\ xpAddr_ u = addr /\
  (cmd_ s .& 0x80 = 0 -> awaiting XP_WRITE u) /\
  (cmd_ s .& 0x80 <> 0 -> presenting 8 u /\ outData_ u = xpram addr s).
Proof.
  intros Hc Ha. cbv zeta. rewrite (sendByte_done a XP_ADDR) by done.
  destruct Ha as (Hr & Hp & Hb & Hs). unfold byteDone, awaiting, presenting, ready in *.
  cbn [phase_ set_lastClk set_shift]. rewrite Hp.
  cbn [cmd_ set_xpAddr set_shift set_lastClk].
  destruct (Z.eqb_spec (cmd_ s .& 0x80) 0); by cbn.
Qed.

Lemma send_xpData v s :
  byte v -> awaiting XP_WRITE s ->
  battery (sendByte v s) =
  (seconds_ s, if writeProtect_ s then pram_ s else wr (pram_ s) (xpAddr_ s) v, writeProtect_ s).
Proof.
  intros Hv Ha. rewrite (sendByte_done v XP_WRITE) by done.
  destruct Ha as (_ & Hp & _). unfold byteDone. cbn [phase_ set_lastClk set_shift]. rewrite Hp.
  cbn [writeProtect_ set_shift set_lastClk]. unfold battery.
  by destruct (writeProtect_ s) eqn:E; cbn; rewrite E.
Qed.

Lemma send_regData v s :
  byte v -> awaiting WRITE_DATA s ->
  battery (sendByte v s) = battery (writeReg (cmd_ s) v s).
Proof.
  intros Hv Ha. rewrite (sendByte_done v WRITE_DATA) by done.
  destruct Ha as (_ & Hp & _). unfold byteDone. cbn [phase_ set_lastClk set_shift]. rewrite Hp.
  unfold battery, writeReg. cbn. by repeat case_match.
Qed.

Lemma recv_battery s : presenting 8 s -> byte (outData_ s) ->
  (recvByte s).1 = outData_ s /\ battery (recvByte s).2 = battery s.
Proof. intros Hp Hd. by rewrite recvByte_data. Qed.

(** ** Transactions *)

Definition xpCommand (read : bool) (addr : Z) : Z :=
  (if read then 0xB8 else 0x38) .| (addr .>> 5).
Definition xpLow (addr : Z) : Z := (addr .& 31) .<< 2.

Definition xpWrite (addr v : Z) (s : Rtc) : Rtc :=
  deselect (sendByte v (sendByte (xpLow addr) (sendByte (xpCommand false addr) (select s)))).

Definition xpRead (addr : Z) (s : Rtc) : Z * Rtc :=
  let '(v, s) := recvByte (sendByte (xpLow addr) (sendByte (xpCommand true addr) (select s))) in
  (v, deselect s).

Definition regCommand (read : bool) (reg : Z) : Z :=
  (if read then 0x81 else 0x01) .| (reg .<< 2).

Definition regWrite (reg v : Z) (s : Rtc) : Rtc :=
  deselect (sendByte v (sendByte (regCommand false reg) (select s))).

Definition regRead (reg : Z) (s : Rtc) : Z * Rtc :=
  let '(v, s) := recvByte (sendByte (regCommand true reg) (select s)) in (v, deselect s).

(** The encodings, checked for every address. *)
Definition xp_encodes (addr : Z) : bool :=
  forallb (fun r : bool =>
    let c := xpCommand r addr in
    (0 <=? c) && (c <? 256) && (c .& 0x78 =? 0x38) && ((c .& 0x80 =? 0) == negb r) &&
    (u8 (((c .& 7) .<< 5) .| ((xpLow addr .& 0x7C) .>> 2)) =? addr)) [true; false] &&
  (0 <=? xpLow addr) && (xpLow addr <? 256).

Lemma xp_encoding addr (r : bool) :
  byte addr ->
  let c := xpCommand r addr in
  byte c /\ c .& 0x78 = 0x38 /\ (c .& 0x80 = 0 <-> r = false) /\
  u8 (((c .& 7) .<< 5) .| ((xpLow addr .& 0x7C) .>> 2)) = addr /\ byte (xpLow addr).
Proof.
  intros Ha. cbv zeta.
  assert (H : xp_encodes addr = true)
    by (apply (all_below_sound 8 xp_encodes); [vm_compute; reflexivity|exact Ha]).
  unfold xp_encodes in H. cbn [forallb] in H. unbool. unfold byte.
  destruct r; split_and!; try assumption; try done; try lia; unbool; split; intros E; try done;
    rewrite E in *; try done.
Qed.

(** ** The memory of the chip *)

Record rtc_ok (s : Rtc) : Prop := {
  ro_pram : length (pram_ s) = 256%nat;
  ro_bytes : Forall byte (pram_ s);
  ro_seconds : 0 <= seconds_ s < 4294967296
}.

Lemma xpram_byte addr s : rtc_ok s -> byte (xpram addr s).
Proof.
  intros Hs. unfold xpram. destruct (rd (pram_ s) addr) as [v|] eqn:E; cbn;
    [|unfold byte; lia]. exact (rd_Forall _ _ _ _ (ro_bytes s Hs) E).
Qed.

Lemma xpram_battery a s u : battery u = battery s -> xpram a u = xpram a s.
Proof. unfold battery, xpram. by intros [= _ -> _]. Qed.

Lemma xpWrite_battery addr v s :
  byte addr -> byte v ->
  battery (xpWrite addr v s) =
  (seconds_ s, if writeProtect_ s then pram_ s else wr (pram_ s) addr v, writeProtect_ s).
Proof.
  intros Ha Hv. destruct (xp_encoding addr false Ha) as (Bc & Ec & Er & Ea & Bl).
  destruct (send_command _ _ Bc (proj1 (select_awaits s))) as (E1 & E2 & _ & Hx & _).
  specialize (Hx Ec). unfold xpWrite. set (s1 := sendByte (xpCommand false addr) _) in *.
  clearbody s1.
  destruct (send_address _ s1 Bl Hx) as (E3 & E4 & Hw & _). rewrite E1 in *.
  rewrite Ea in E4. specialize (Hw (proj2 Er eq_refl)).
  set (s2 := sendByte (xpLow addr) s1) in *. clearbody s2.
  rewrite deselect_battery, send_xpData, E4 by assumption.
  rewrite (proj2 (select_awaits s)) in E2. unfold battery in *. rewrite E2 in E3.
  injection E3 as -> -> ->. reflexivity.
Qed.

Lemma xpRead_value addr s :
  rtc_ok s -> byte addr ->
  (xpRead addr s).1 = xpram addr s /\ battery (xpRead addr s).2 = battery s.
Proof.
  intros Hs Ha. destruct (xp_encoding addr true Ha) as (Bc & Ec & Er & Ea & Bl).
  destruct (send_command _ _ Bc (proj1 (select_awaits s))) as (E1 & E2 & _ & Hx & _).
  specialize (Hx Ec). unfold xpRead. set (s1 := sendByte (xpCommand true addr) _) in *.
  clearbody s1.
  destruct (send_address _ s1 Bl Hx) as (E3 & E4 & _ & Hr). rewrite E1, Ea in *.
  destruct Hr as [Hp Eo]; [intros E; apply Er in E; discriminate E|].
  rewrite (proj2 (select_awaits s)) in E2. rewrite (xpram_battery _ _ _ E2) in Eo.
  set (s2 := sendByte (xpLow addr) s1) in *. clearbody s2.
  destruct (recv_battery s2 Hp) as [Ev Eb]; [rewrite Eo; by apply xpram_byte|].
  destruct (recvByte s2) as [w s3]. cbn [fst snd] in *. split; [congruence|].
  rewrite deselect_battery. congruence.
Qed.

Lemma write_keeps_ok addr v s u :
  rtc_ok s -> byte v -> byte addr ->
  battery u = (seconds_ s, if writeProtect_ s then pram_ s else wr (pram_ s) addr v,
               writeProtect_ s) -> rtc_ok u.
Proof.
  intros Hs Hv Ha [= E1 E2 E3]. split; rewrite ?E1, ?E2; [| |apply Hs];
    destruct (writeProtect_ s); try apply Hs.
  - rewrite wr_length. apply Hs.
  - apply wr_Forall; [apply Hs|exact Hv].
Qed.

Lemma stored_cell addr v a s u :
  rtc_ok s -> byte addr -> byte v -> byte a ->
  battery u = (seconds_ s, if writeProtect_ s then pram_ s else wr (pram_ s) addr v,
               writeProtect_ s) ->
  rtc_ok u /\ seconds_ u = seconds_ s /\
  xpram a u = (if negb (writeProtect_ s) && (a =? addr) then v else xpram a s).
Proof.
  intros Hs Haddr Hv Ha E. split; [by apply (write_keeps_ok addr v s)|].
  injection E as E1 E2 E3. split; [exact E1|]. unfold xpram. rewrite E2.
  destruct (writeProtect_ s); cbn [negb andb]; [done|]. unfold byte in *.
  rewrite rd_wr by (rewrite ?(ro_pram s Hs); lia). by destruct (a =? addr).
Qed.

(** ** Properties *)

(** C16. The extended protocol is a memory: on an unlocked chip, whatever state
    an aborted transaction left its shifter in, writing [v] at any of the 256
    addresses and reading back over the wire yields [v] there, what was stored
    at every other address, and leaves the clock alone; on a locked chip the
    same transaction changes nothing. *)
Theorem xpram_roundtrip (s : Rtc) (addr v a : Z)
  (Hs : rtc_ok s) (Haddr : byte addr) (Hv : byte v) (Ha : byte a) :
  let u := xpWrite addr v s in
  rtc_ok u /\ seconds_ u = seconds_ s /\
  (xpRead a u).1 =
    (if negb (writeProtect_ s) && (a =? addr) then v else xpram a s) /\
  battery (xpRead a u).2 = battery u.
Proof.
  destruct (stored_cell addr v a s (xpWrite addr v s)) as (Hu & E1 & E2);
    [assumption..|by apply xpWrite_battery|].
  destruct (xpRead_value a (xpWrite addr v s) Hu Ha) as [Ev Eb]. cbv zeta.
  rewrite Ev. exact (conj Hu (conj E1 (conj E2 Eb))).
Qed.

Lemma Rtc0_ok : rtc_ok Rtc0.
Proof. split; [done| |cbn; lia]. apply Forall_replicate. unfold byte. lia. Qed.

Lemma xpram_roundtrip_witness : (xpRead 0xE7 (xpWrite 0xE7 0x5A Rtc0)).1 = 0x5A.
Proof.
  destruct (xpram_roundtrip Rtc0 0xE7 0x5A 0xE7) as (_ & _ & E & _);
    [exact Rtc0_ok|unfold byte; lia..|]. exact E.
Defined.

(** ** The lock *)

(** A sequence of line changes: /enable, clock and data. *)
Definition runLines (l : list (bool * bool * bool)) (s : Rtc) : Rtc :=
  foldl (fun s '(e, c, d) => setLines e c d s) s l.

(** The line change completes a write of the write-protect register with its
    top bit clear: the chip is enabled, the clock falls, and the bit on the
    data line is the eighth of the data byte. *)
Definition unlocks (line : bool * bool * bool) (s : Rtc) : Prop :=
  let '(e, c, d) := line in
  (e = true /\ enabled_ s = true /\ c = false /\ lastClk_ s = true) /\
  (phase_ s = WRITE_DATA /\ (cmd_ s .>> 2) .& 0x1F = 13 /\ 8 <= bitCnt_ s + 1) /\
  u8 ((shift_ s .<< 1) .| (if d then 1 else 0)) .& 0x80 = 0.

#[export] Instance unlocks_dec line s : Decision (unlocks line s).
Proof. destruct line as [[e c] d]. unfold unlocks. apply _. Defined.

Lemma writeReg_locked c v s : writeProtect_ s = true ->
  ((c .>> 2) .& 0x1F = 13 -> v .& 0x80 <> 0) -> battery (writeReg c v s) = battery s.
Proof.
  intros Hw Hc. unfold writeReg. rewrite Hw. destruct (Z.eqb_spec ((c .>> 2) .& 0x1F) 13) as [E|E].
  - rewrite (proj2 (Z.eqb_neq _ _) (Hc E)). unfold battery. cbn. by rewrite Hw.
  - by case_match.
Qed.

(** A byte is complete on a locked chip. *)
Lemma byteDone_locked s : writeProtect_ s = true -> shifting (phase_ s) = true ->
  (phase_ s = WRITE_DATA -> (cmd_ s .>> 2) .& 0x1F = 13 -> shift_ s .& 0x80 <> 0) ->
  battery (byteDone s) = battery s.
Proof.
  intros Hw Hp Hn. unfold byteDone in *.
  destruct (phase_ s) eqn:E; try discriminate Hp.
  - cbn. by repeat case_match.
  - rewrite <- (writeReg_locked (cmd_ s) (shift_ s) s) by auto. reflexivity.
  - cbn. by repeat case_match.
  - rewrite Hw. reflexivity.
Qed.

Lemma edge_locked (d : bool) s : writeProtect_ s = true ->
  (phase_ s = WRITE_DATA -> (cmd_ s .>> 2) .& 0x1F = 13 -> 8 <= bitCnt_ s + 1 ->
   u8 ((shift_ s .<< 1) .| (if d then 1 else 0)) .& 0x80 <> 0) ->
  battery (fallingEdge d s) = battery s.
Proof.
  intros Hw Hn. unfold fallingEdge. set (v := u8 _) in *. clearbody v.
  destruct (phase_ s) eqn:E; try (by repeat case_match);
    (cbv zeta; case_match eqn:Eb; [reflexivity|]);
    (rewrite byteDone_locked; [reflexivity|exact Hw|cbn; by rewrite E|]);
    cbn [phase_ cmd_ shift_ set_bitCnt set_shift] in *; try congruence.
  intros _ Hc. cbn in Eb. apply Z.ltb_ge in Eb. by apply Hn.
Qed.

Lemma setLines_locked line s : writeProtect_ s = true -> ~ unlocks line s ->
  battery (setLines line.1.1 line.1.2 line.2 s) = battery s.
Proof.
  destruct line as [[e c] d]. intros Hw Hn. unfold setLines, unlocks in *. cbn [fst snd]. destruct e; cbn [negb]; [|reflexivity].
  destruct (enabled_ s) eqn:Ee; cbn [negb];
    match goal with |- context [if ?b then _ else _] => destruct b eqn:Ef; [reflexivity|] end.
  - cbn in Ef. apply negb_false_iff, andb_true_iff in Ef as [Ec%negb_true_iff El].
    rewrite edge_locked; [reflexivity|exact Hw|]. cbn. intros. tauto.
  - by rewrite edge_locked.
Qed.

(** And it does unlock. *)
Lemma unlocks_unlock line s : unlocks line s -> writeProtect_ (setLines line.1.1 line.1.2 line.2 s) = false.
Proof.
  destruct line as [[e c] d]. intros ((-> & He & -> & Hl) & (Hp & Hc & Hb) & Hv). unfold setLines. cbn [fst snd negb].
  rewrite He. cbn -[fallingEdge]. rewrite Hl. cbn [negb andb]. unfold fallingEdge. cbn -[u8 Z.land Z.lor Z.shiftl Z.shiftr Z.ltb]. rewrite Hp.
  cbn -[u8 Z.land Z.lor Z.shiftl Z.shiftr Z.ltb]. rewrite (proj2 (Z.ltb_ge _ _)) by lia.
  unfold byteDone, writeReg. cbn -[u8 Z.land Z.lor Z.shiftl Z.shiftr]. rewrite ?Hp, ?Hc.
  cbn -[u8 Z.land Z.lor Z.shiftl Z.shiftr]. by rewrite Hv.
Qed.

(** C26. The lock holds: no sequence of line changes whatever, complete or
    aborted transactions in either protocol, alters the clock, the memory or
    the lock of a write-protected chip, unless one of them is the last edge of
    a completed write of the write-protect register whose byte has its top bit
    clear.  That one does unlock the chip. *)
Theorem lock_holds (l : list (bool * bool * bool)) (s : Rtc) (Hw : writeProtect_ s = true) :
  (battery (runLines l s) = battery s \/
   exists k line, l !! k = Some line /\ unlocks line (runLines (take k l) s)) /\
  (forall line, unlocks line s -> writeProtect_ (runLines [line] s) = false).
Proof.
  split; [|intros [[e c] d]; exact (unlocks_unlock (e, c, d) s)].
  revert s Hw. induction l as [|line l IH]; intros s Hw; [by left|].
  destruct (decide (unlocks line s)) as [Hl|Hn]; [right; by exists 0%nat, line|].
  pose proof (setLines_locked line s Hw Hn) as E. destruct line as [[e c] d]. cbn [fst snd] in E.
  destruct (IH (setLines e c d s)) as [Hb|(k & line & Hk & Hu)].
  - by injection E as _ _ ->.
  - left. cbn [runLines foldl]. unfold runLines in Hb. by rewrite Hb.
  - right. by exists (S k), line.
Qed.

(** A locked chip: an aborted write of the write-protect register changes
    nothing; a completed one unlocks. *)
Definition regLines (cmd : Z) : list (bool * bool * bool) :=
  flat_map (fun i => let d := Z.testbit cmd i in [(true, true, d); (true, false, d)]) [7; 6; 5; 4; 3; 2; 1; 0].

Lemma lock_holds_witness :
  battery (runLines (regLines 0x34 ++ take 14 (regLines 0) ++ [(false, true, false)])
             (set_writeProtect true Rtc0)) = battery (set_writeProtect true Rtc0) /\
  writeProtect_ (runLines (regLines 0x34 ++ regLines 0) (set_writeProtect true Rtc0)) = false.
Proof.
  split; [|vm_compute; reflexivity].
  set (l := regLines 0x34 ++ take 14 (regLines 0) ++ [(false, true, false)]).
  destruct (proj1 (lock_holds l (set_writeProtect true Rtc0) eq_refl)) as [E|(k & line & Hk & Hu)]; [exact E|].
  exfalso. assert (C : forallb (fun k => match l !! k with
      | Some line => negb (bool_decide (unlocks line (runLines (take k l) (set_writeProtect true Rtc0))))
      | None => true end) (seq 0 31) = true) by (vm_compute; reflexivity).
  rewrite forallb_forall in C. assert (Hlt : (k < 31)%nat) by exact (lookup_lt_Some _ _ _ Hk).
  specialize (C k ltac:(apply in_seq; lia)). rewrite Hk in C. by rewrite bool_decide_true in C.
Defined.

(** ** The classic registers *)

Definition classicReg (r : Z) : Prop := 0 <= r < 32 /\ ~ 12 <= r < 16.

(** Registers 0-3 and 4-7 are the same four bytes of the clock. *)
Definition aliases (r q : Z) : bool :=
  if (r <? 8) && (q <? 8) then r .& 3 =? q .& 3 else r =? q.

Definition reg_encodes (r : Z) : bool :=
  forallb (fun b : bool =>
    let c := regCommand b r in
    (0 <=? c) && (c <? 256) && ((c .& 0x78 =? 0x38) == ((r =? 14) || (r =? 15))) &&
    ((c .& 0x80 =? 0) == negb b) && ((c .>> 2) .& 0x1F =? r)) [true; false].

Lemma reg_encoding r (b : bool) :
  classicReg r ->
  let c := regCommand b r in
  byte c /\ c .& 0x78 <> 0x38 /\ (c .& 0x80 = 0 <-> b = false) /\ (c .>> 2) .& 0x1F = r.
Proof.
  intros [Hr Hn]. cbv zeta.
  assert (H : forallb reg_encodes (seqZ 0 32) = true) by (vm_compute; reflexivity).
  rewrite forallb_forall in H. specialize (H r ltac:(apply list_elem_of_In, elem_of_seqZ; lia)).
  unfold reg_encodes in H. cbn [forallb] in H.
  rewrite (proj2 (Z.eqb_neq r 14)), (proj2 (Z.eqb_neq r 15)) in H by lia.
  unbool. unfold byte.
  destruct b; split_and!; try assumption; try lia;
    try (intros E; rewrite E in *; discriminate);
    split; intros E; try done; rewrite E in *; discriminate.
Qed.

(** Replacing one byte of the clock. *)
Definition mergeByte (x i v : Z) : Z :=
  (x .& u32 (Z.lnot (u32 (0xFF .<< (8 * i))))) .| u32 (v .<< (8 * i)).

Lemma u32_bit x k : 0 <= k < 32 -> Z.testbit (u32 x) k = Z.testbit x k.
Proof.
  intros Hk. unfold u32. change 4294967296 with (2 ^ 32). by rewrite Z.mod_pow2_bits_low by lia.
Qed.

Lemma byte_high v k : byte v -> 8 <= k -> Z.testbit v k = false.
Proof.
  unfold byte. intros Hv Hk. rewrite <- (Z.mod_small v (2 ^ 8)) by lia.
  by apply Z.mod_pow2_bits_high.
Qed.

Lemma mergeByte_bit x i v k :
  byte v -> 0 <= i < 4 -> 0 <= k < 32 ->
  Z.testbit (mergeByte x i v) k =
  if k / 8 =? i then Z.testbit v (k mod 8) else Z.testbit x k.
Proof.
  intros Hv Hi Hk. unfold mergeByte.
  rewrite Z.lor_spec, Z.land_spec, !u32_bit, Z.lnot_spec, u32_bit, !Z.shiftl_spec by lia.
  pose proof (Z.div_mod k 8 ltac:(lia)) as D. pose proof (Z.mod_pos_bound k 8 ltac:(lia)) as M.
  change 0xFF with (Z.ones 8). destruct (Z.eqb_spec (k / 8) i) as [<-|N].
  - rewrite Z.ones_spec_low, andb_false_r by lia. cbn. f_equal. lia.
  - assert (Ho : Z.testbit (Z.ones 8) (k - 8 * i) = false /\ Z.testbit v (k - 8 * i) = false).
    { destruct (Z.lt_ge_cases (k - 8 * i) 0); [by rewrite !Z.testbit_neg_r by lia|].
      rewrite Z.ones_spec_high by lia. split; [done|]. apply byte_high; [done|lia]. }
    destruct Ho as [-> ->]. by rewrite andb_true_r, orb_false_r.
Qed.

Lemma mergeByte_byte x i v j :
  byte v -> 0 <= i < 4 -> 0 <= j < 4 ->
  u8 (mergeByte x i v .>> (8 * j)) = if j =? i then v else u8 (x .>> (8 * j)).
Proof.
  intros Hv Hi Hj. apply Z.bits_inj'. intros k Hk.
  destruct (Z.lt_ge_cases k 8) as [H8|H8].
  - rewrite u8_bit, Z.shiftr_spec, mergeByte_bit by (assumption || lia).
    replace ((k + 8 * j) / 8) with j
      by (apply (Z.div_unique_pos _ _ _ k); lia).
    replace ((k + 8 * j) mod 8) with k by (apply (Z.mod_unique_pos _ _ j); lia).
    destruct (j =? i); [done|]. by rewrite u8_bit, Z.shiftr_spec by lia.
  - rewrite (byte_high (u8 _)) by (apply u8_range || lia).
    symmetry. destruct (j =? i); apply byte_high; (done || apply u8_range).
Qed.

Lemma mergeByte_range x i v :
  0 <= x < 4294967296 -> 0 <= mergeByte x i v < 4294967296.
Proof.
  intros Hx. unfold mergeByte. pose proof (u32_range (v .<< (8 * i))).
  set (m := u32 (Z.lnot _)). set (w := u32 (v .<< _)) in *.
  split; [apply Z.lor_nonneg; split; [apply Z.land_nonneg; lia|lia]|].
  assert (Hl : 0 <= x .& m) by (apply Z.land_nonneg; lia).
  destruct (Z.eq_dec ((x .& m) .| w) 0) as [->|Hn]; [lia|].
  change 4294967296 with (2 ^ 32). apply Z.log2_lt_pow2.
  - pose proof (proj2 (Z.lor_nonneg (x .& m) w) ltac:(lia)). lia.
  - rewrite Z.log2_lor by lia. apply Z.max_lub_lt.
    + eapply Z.le_lt_trans; [apply Z.log2_land; [lia|apply u32_range]|].
      apply Z.min_lt_iff. left. destruct (Z.eq_dec x 0) as [->|]; [done|].
      apply Z.log2_lt_pow2; lia.
    + destruct (Z.eq_dec w 0) as [->|]; [done|]. apply Z.log2_lt_pow2; lia.
Qed.

(** The value of a classic register. *)
Definition regValue (r : Z) (s : Rtc) : Z :=
  if r <? 8 then u8 (seconds_ s .>> (8 * (r .& 3))) else xpram r s.

Lemma readReg_value c r s : (c .>> 2) .& 0x1F = r -> classicReg r -> readReg c s = regValue r s.
Proof.
  intros Hc [_ Hn]. unfold readReg, regValue. rewrite Hc. repeat case_match; unbool; try done; lia.
Qed.

Lemma regValue_byte r s : rtc_ok s -> byte (regValue r s).
Proof. intros Hs. unfold regValue. case_match; [apply u8_range|by apply xpram_byte]. Qed.

Lemma regValue_battery r s u : battery u = battery s -> regValue r u = regValue r s.
Proof. intros E. unfold regValue. rewrite (xpram_battery r _ _ E). by injection E as -> _ _. Qed.

Lemma writeReg_value c r q v s :
  (c .>> 2) .& 0x1F = r -> classicReg r -> classicReg q -> byte v -> rtc_ok s ->
  writeProtect_ s = false ->
  rtc_ok (writeReg c v s) /\
  regValue q (writeReg c v s) = if aliases q r then v else regValue q s.
Proof.
  intros Hc [Hr Hn] [Hq Hm] Hv Hs Hw. unfold writeReg. rewrite Hc, Hw.
  rewrite (proj2 (Z.eqb_neq r 13)), (proj2 (Z.eqb_neq r 12)) by lia.
  pose proof (land_3_range r). pose proof (land_3_range q). pose proof (ro_pram s Hs) as Hl.
  unfold aliases, regValue. destruct (Z.ltb_spec r 8).
  - change (_ .| _) with (mergeByte (seconds_ s) (r .& 3) v). split.
    + split; cbn; [apply Hs..|]. by apply mergeByte_range, Hs.
    + destruct (Z.ltb_spec q 8); cbn [andb].
      * cbn [seconds_ set_seconds]. by rewrite mergeByte_byte.
      * rewrite (proj2 (Z.eqb_neq q r)) by lia. done.
  - assert (E : (if r <? 12 then setXpram r v s else if r <? 16 then s else setXpram r v s)
                = setXpram r v s) by (repeat case_match; unbool; try done; lia).
    rewrite E, andb_false_r. split.
    + split; cbn; [by rewrite wr_length|apply wr_Forall; [apply Hs|done]|apply Hs].
    + destruct (Z.ltb_spec q 8); [rewrite (proj2 (Z.eqb_neq q r)) by lia; done|].
      unfold xpram. cbn [pram_ setXpram set_pram]. rewrite rd_wr by lia.
      by destruct (q =? r).
Qed.

Lemma regWrite_battery r v s :
  classicReg r -> byte v ->
  exists c t, (c .>> 2) .& 0x1F = r /\ battery t = battery s /\
    battery (regWrite r v s) = battery (writeReg c v t).
Proof.
  intros Hr Hv. destruct (reg_encoding r false Hr) as (Bc & Ec & Er & Ea).
  destruct (send_command _ _ Bc (proj1 (select_awaits s))) as (E1 & E2 & _ & _ & Hw & _).
  specialize (Hw Ec (proj2 Er eq_refl)). unfold regWrite.
  rewrite (proj2 (select_awaits s)) in E2.
  set (s1 := sendByte (regCommand false r) _) in *. clearbody s1.
  exists (cmd_ s1), s1. rewrite deselect_battery, send_regData by assumption.
  rewrite E1. auto.
Qed.

Lemma regRead_value r s :
  rtc_ok s -> classicReg r ->
  (regRead r s).1 = regValue r s /\ battery (regRead r s).2 = battery s.
Proof.
  intros Hs Hr. destruct (reg_encoding r true Hr) as (Bc & Ec & Er & Ea).
  destruct (send_command _ _ Bc (proj1 (select_awaits s))) as (E1 & E2 & _ & _ & _ & Hp).
  destruct Hp as [Hp Eo]; [exact Ec|intros E; apply Er in E; discriminate E|].
  rewrite (readReg_value _ r _ Ea Hr), (regValue_battery _ _ _ (proj2 (select_awaits s))) in Eo.
  rewrite (proj2 (select_awaits s)) in E2. unfold regRead.
  set (s1 := sendByte (regCommand true r) _) in *. clearbody s1.
  destruct (recv_battery s1 Hp) as [Ev Eb]; [rewrite Eo; by apply regValue_byte|].
  destruct (recvByte s1) as [w s2]. cbn [fst snd] in *.
  rewrite deselect_battery. split; congruence.
Qed.

Lemma battery_ok s u : battery u = battery s -> rtc_ok s -> rtc_ok u.
Proof. intros [= E1 E2 E3] Hs. split; rewrite ?E1, ?E2; apply Hs. Qed.

(** The classic protocol is a memory too: on an unlocked chip, writing [v]
    to a clock or memory register and reading any register back over the wire
    yields [v] in the register written and its alias (the clock's four bytes
    answer at 0-3 and at 4-7) and what was there in every other. *)
Theorem classic_roundtrip (s : Rtc) (r q v : Z)
  (Hs : rtc_ok s) (Hr : classicReg r) (Hq : classicReg q) (Hv : byte v)
  (Hw : writeProtect_ s = false) :
  rtc_ok (regWrite r v s) /\
  (regRead q (regWrite r v s)).1 = (if aliases q r then v else (regRead q s).1).
Proof.
  destruct (regWrite_battery r v s Hr Hv) as (c & t & Ec & Et & E).
  assert (Ht : rtc_ok t) by (by apply (battery_ok s)).
  assert (Hwt : writeProtect_ t = false) by (by injection Et as _ _ ->).
  destruct (writeReg_value c r q v t Ec Hr Hq Hv Ht Hwt) as [Ho Ev].
  pose proof (battery_ok _ _ E Ho) as Hu. split; [exact Hu|].
  rewrite (proj1 (regRead_value q _ Hu Hq)), (proj1 (regRead_value q s Hs Hq)).
  by rewrite (regValue_battery q _ _ E), Ev, (regValue_battery q _ _ Et).
Qed.

Lemma classic_roundtrip_witness : (regRead 6 (regWrite 2 0x9C Rtc0)).1 = 0x9C.
Proof.
  destruct (classic_roundtrip Rtc0 2 6 0x9C) as [_ E];
    [exact Rtc0_ok|unfold classicReg; lia|unfold classicReg; lia|unfold byte; lia|done|].
  exact E.
Defined.

(** ** The engine's own invariant *)

(** The bit counter and the latched bytes stay in range, so that the shifts
    are defined and the memory is indexed inside its 256 bytes. *)
Record engine_ok (s : Rtc) : Prop := {
  eo_rtc : rtc_ok s;
  eo_cnt : 0 <= bitCnt_ s <= (if phase_ s is READ_DATA then 8 else 7);
  eo_shift : byte (shift_ s);
  eo_cmd : byte (cmd_ s);
  eo_data : byte (outData_ s);
  eo_addr : byte (xpAddr_ s);
  eo_out : 0 <= out_ s <= 1
}.

Lemma wr_rtc_ok addr v s : byte v -> rtc_ok s -> rtc_ok (setXpram addr v s).
Proof.
  intros Hv Hs. split; cbn; [rewrite wr_length|apply wr_Forall; [|done]|]; apply Hs.
Qed.

Lemma writeReg_ok c v s : byte v -> rtc_ok s -> rtc_ok (writeReg c v s).
Proof.
  intros Hv Hs. unfold writeReg. repeat case_match; auto using wr_rtc_ok;
    try (split; cbn; apply Hs).
  change (_ .| _) with (mergeByte (seconds_ s) (((c .>> 2) .& 31) .& 3) v).
  split; cbn; [apply Hs..|]. apply mergeByte_range, Hs.
Qed.

Lemma byteDone_ok s :
  engine_ok s -> bitCnt_ s = 0 -> shifting (phase_ s) = true -> engine_ok (byteDone s).
Proof.
  intros Hs H0 Hp. pose proof (eo_rtc s Hs) as Hr. pose proof (eo_shift s Hs) as Hsh.
  assert (Hread : byte (readReg (shift_ s) s)).
  { unfold readReg. repeat case_match; auto using xpram_byte; try apply u8_range.
    unfold byte. lia. }
  unfold byteDone. destruct (phase_ s) eqn:E; try discriminate Hp.
  - cbn. repeat case_match; (split; cbn; rewrite ?H0; try apply Hs; try done; try lia;
      try (split; apply Hr); unfold byte; lia).
  - pose proof (writeReg_ok (cmd_ s) (shift_ s) s Hsh Hr) as Hw.
    assert (Ek : forall c v, let u := writeReg c v s in
      bitCnt_ u = bitCnt_ s /\ cmd_ u = cmd_ s /\ outData_ u = outData_ s /\
      xpAddr_ u = xpAddr_ s /\ out_ u = out_ s)
      by (intros c v; unfold writeReg; cbv zeta; by repeat case_match).
    destruct (Ek (cmd_ s) (shift_ s)) as (E1 & E2 & E3 & E4 & E5).
    split; cbn; rewrite ?E1, ?E2, ?E3, ?E4, ?E5, ?H0; try apply Hs; try lia;
      [split; apply Hw|unfold byte; lia].
  - pose proof (xpram_byte (u8 (((cmd_ s .& 7) .<< 5) .| ((shift_ s .& 0x7C) .>> 2))) s Hr).
    cbn. repeat case_match; (split; cbn; rewrite ?H0; try apply Hs; try apply u8_range;
      try done; try lia; try (split; apply Hr); unfold byte; lia).
  - pose proof (wr_rtc_ok (xpAddr_ s) (shift_ s) s Hsh Hr) as Hw.
    destruct (writeProtect_ s); (split; cbn; rewrite ?H0; try apply Hs; try lia;
      [split; (apply Hr || apply Hw)|unfold byte; lia]).
Qed.

Lemma edge_ok d s : engine_ok s -> engine_ok (fallingEdge d s).
Proof.
  intros Hs. pose proof (eo_cnt s Hs) as Hc. unfold fallingEdge.
  destruct (phase_ s) eqn:E; try exact Hs; cbv zeta.
  3:{ destruct (Z.ltb_spec 0 (bitCnt_ s)).
      - split; cbn; rewrite ?E; try apply Hs; try lia; [split; apply Hs|].
        set (w := outData_ s .>> _). rewrite land_1_mod.
        pose proof (Z.mod_pos_bound w 2 ltac:(lia)). lia.
      - split; cbn; try apply Hs; try lia. split; apply Hs. }
  all: case_match; unbool; cbn in *;
    [split; cbn; rewrite ?E; try apply Hs; try apply u8_range; try lia; split; apply Hs|].
  all: apply byteDone_ok; [|done|cbn; by rewrite E];
    split; cbn; rewrite ?E; try apply Hs; try apply u8_range; try lia; split; apply Hs.
Qed.

Lemma setLines_ok e c d s : engine_ok s -> engine_ok (setLines e c d s).
Proof.
  intros Hs. assert (Hi : forall en cl o, 0 <= o <= 1 -> engine_ok (set_lastClk cl (set_out o
    (set_shift 0 (set_bitCnt 0 (set_phase CMD (set_enabled en s))))))).
  { intros en cl o Ho. split; cbn; try apply Hs; try lia; [split; apply Hs|unfold byte; lia]. }
  unfold setLines. destruct e; cbn [negb]; [|apply Hi; lia].
  set (u := if negb (enabled_ s) then _ else s).
  assert (Hu : engine_ok u).
  { subst u. destruct (enabled_ s); cbn [negb]; [exact Hs|]. pose proof (eo_out s Hs).
    split; cbn; try apply Hs; try lia; [split; apply Hs|unfold byte; lia]. }
  clearbody u. assert (Hl : engine_ok (set_lastClk c u))
    by (split; cbn; try apply Hu; split; apply Hu).
  case_match; [exact Hl|by apply edge_ok].
Qed.

Lemma foldl_writes_ok l s :
  Forall (fun p : Z * Z => byte p.2) l -> rtc_ok s ->
  rtc_ok (foldl (fun s p => setXpram p.1 p.2 s) s l).
Proof.
  intros Hl. revert s. induction Hl as [|p l Hp _ IH]; intros s Hs; [exact Hs|].
  cbn [foldl]. apply IH. by apply wr_rtc_ok.
Qed.

Lemma blank_ok s : rtc_ok s -> rtc_ok (set_pram (replicate 256 0) s).
Proof.
  intros Hs. split; cbn [pram_ set_pram seconds_]; [done| |apply Hs].
  apply Forall_replicate. unfold byte. lia.
Qed.

Lemma factory_ok s : rtc_ok s -> rtc_ok (factoryDefaults s).
Proof.
  intros Hs. unfold factoryDefaults. cbv zeta. apply wr_rtc_ok.
  { case_match; unfold byte; lia. }
  case_match; [|exact Hs]. apply foldl_writes_ok; [|by apply blank_ok].
  unfold kFactory. repeat (constructor; [cbn; unfold byte; lia|]).
  constructor.
Qed.

(** What the chip's other fields see of the cold-start image. *)
Lemma factory_engine s : exists p, factoryDefaults s = set_pram p s.
Proof.
  unfold factoryDefaults. cbv zeta. destruct (negb (hadSig s)).
  - assert (G : forall l q, exists p, foldl (fun s p => setXpram p.1 p.2 s) (set_pram q s) l =
                                      set_pram p s).
    { induction l as [|a l IH]; intros q; [by exists q|]. cbn [foldl]. apply (IH (wr q a.1 a.2)). }
    destruct (G kFactory (replicate 256 0)) as [p ->]. eexists. reflexivity.
  - eexists. reflexivity.
Qed.

(** The operations of the chip. *)
Inductive RtcOp : Type :=
| Lines (enable clock dataOut : bool)
| ResetRtc
| TickSecond
| SetSeconds (n : Z)
| SetXpram (addr v : Z)
| FactoryDefaults
| LoadPram (file : option (list Z))
| Configure (appleTalkPram : bool).

Definition rtcPerform (op : RtcOp) (s : Rtc) : Rtc :=
  match op with
  | Lines e c d => setLines e c d s
  | ResetRtc => rtc_reset s
  | TickSecond => tickSecond s
  | SetSeconds n => setSeconds n s
  | SetXpram addr v => setXpram addr v s
  | FactoryDefaults => factoryDefaults s
  | LoadPram file => (loadPram file s).2
  | Configure b => configure b s
  end.

Definition rtcOp_ok (op : RtcOp) : Prop :=
  match op with
  | SetSeconds n => 0 <= n < 4294967296
  | SetXpram addr v => byte addr /\ byte v
  | LoadPram (Some b) => Forall byte b
  | _ => True
  end.

Lemma memory_engine s u :
  engine_ok s -> rtc_ok u -> phase_ u = phase_ s -> bitCnt_ u = bitCnt_ s ->
  shift_ u = shift_ s -> cmd_ u = cmd_ s -> outData_ u = outData_ s -> xpAddr_ u = xpAddr_ s ->
  out_ u = out_ s -> engine_ok u.
Proof.
  intros Hs Hu E1 E2 E3 E4 E5 E6 E7.
  split; rewrite ?E1, ?E2, ?E3, ?E4, ?E5, ?E6, ?E7; try exact Hu; apply Hs.
Qed.

Lemma rtcPerform_ok op s : rtcOp_ok op -> engine_ok s -> engine_ok (rtcPerform op s).
Proof.
  intros Ho Hs. pose proof (eo_rtc s Hs) as Hr. destruct op; cbn [rtcPerform rtcOp_ok] in *.
  - by apply setLines_ok.
  - split; cbn; try apply Hs; try (split; apply Hr); unfold byte; lia.
  - apply (memory_engine s); try done. split; cbn; try apply Hr. apply u32_range.
  - apply (memory_engine s); try done. split; cbn; try apply Hr. exact Ho.
  - apply (memory_engine s); try done. apply wr_rtc_ok; [apply Ho|exact Hr].
  - pose proof (factory_ok s Hr) as Hf. destruct (factory_engine s) as [p E].
    rewrite E in *. by apply (memory_engine s).
  - destruct file as [b|]; [|exact Hs]. cbn [loadPram].
    destruct (Nat.ltb_spec (length b) 256); [exact Hs|]. cbn [snd].
    apply (memory_engine s); try done. split; cbn [pram_ set_pram seconds_].
    + rewrite length_take. lia.
    + by apply Forall_take.
    + apply Hr.
  - apply (memory_engine s); try done. split; apply Hr.
Qed.

Lemma Rtc0_engine : engine_ok Rtc0.
Proof. split; cbn; unfold byte; try lia. exact Rtc0_ok. Qed.

(** From power-on, any sequence of line changes, resets, ticks and battery
    operations keeps 256 memory bytes, a 32-bit clock and the shifter's
    counter and latches in range: no shift amount is negative or over 7 and
    every memory index is inside the array. *)
Theorem rtc_reachable_ok (ops : list RtcOp) (H : Forall rtcOp_ok ops) :
  engine_ok (foldl (fun s op => rtcPerform op s) Rtc0 ops).
Proof.
  generalize Rtc0_engine. generalize Rtc0.
  induction H as [|op ops Ho _ IH]; intros s Hs; [exact Hs|]. cbn [foldl]. apply IH.
  by apply rtcPerform_ok.
Qed.

Lemma rtc_reachable_ok_witness :
  engine_ok (foldl (fun s op => rtcPerform op s) Rtc0
               [FactoryDefaults; SetSeconds 5; Lines true true true; Lines true false true;
                TickSecond; ResetRtc]).
Proof. apply rtc_reachable_ok. repeat constructor; cbn; try done; lia. Defined.
