(* ===== verification/Gcr.v ===== *)
(** * Gcr: the 6-and-2 group code of the Sony drive

    The part of [src/SonyDrive.cpp] that turns a track of the image into disk
    nibbles and back: [encodeTrackGcr], [decodeGcrBytes] and the sector
    accesses they make.  The record holds what these functions read and write.
    The views of the medium that the drive recomputes from the image (byte
    stream, cells, flux) are not part of it: [encodeTrackGcr] returns the
    stream it appends.  The medium is an image, not a native flux recording
    ([medium_.native] is false).  A 16-bit stream entry carries the self-sync tag
    [kSync]; what the head delivers is its low byte. *)

From S2P Require Import Prelude.
From stdpp Require Import base list numbers option decidable.

Open Scope Z_scope.

(** ** The group code *)

Definition kGcr6 : list Z :=
  [0x96; 0x97; 0x9a; 0x9b; 0x9d; 0x9e; 0x9f; 0xa6;
   0xa7; 0xab; 0xac; 0xad; 0xae; 0xaf; 0xb2; 0xb3;
   0xb4; 0xb5; 0xb6; 0xb7; 0xb9; 0xba; 0xbb; 0xbc;
   0xbd; 0xbe; 0xbf; 0xcb; 0xcd; 0xce; 0xcf; 0xd3;
   0xd6; 0xd7; 0xd9; 0xda; 0xdb; 0xdc; 0xdd; 0xde;
   0xdf; 0xe5; 0xe6; 0xe7; 0xe9; 0xea; 0xeb; 0xec;
   0xed; 0xee; 0xef; 0xf2; 0xf3; 0xf4; 0xf5; 0xf6;
   0xf7; 0xf9; 0xfa; 0xfb; 0xfc; 0xfd; 0xfe; 0xff].

(** [kGcr6[x]]; every index the code uses is masked to six bits. *)
Definition gcr6 (x : Z) : Z := default 0 (rd kGcr6 x).

(** The table [inv] as its initialisation fills it. *)
Definition inv : list Z :=
  Eval vm_compute in
    foldl (fun t i => wr t (gcr6 i) i) (replicate 256 (-1)) (seqZ 0 0x40).

Definition gcr6Inv (v : Z) : Z := default (-1) (rd inv v).

Definition kSync : Z := 0x200.

Definition gcr6Encode (va vb vc : Z) (lastGroup : bool) : list Z :=
  [gcr6 (((va .>> 2) .& 0x30) .| ((vb .>> 4) .& 0x0c) .| ((vc .>> 6) .& 0x03));
   gcr6 (va .& 0x3f); gcr6 (vb .& 0x3f)] ++
  (if lastGroup then [] else [gcr6 (vc .& 0x3f)]).

(** ** The drive *)

Record SonyDrive := mkDrive {
  track_ : Z;
  side1_ : bool;
  doubleSided_ : bool;
  hd_ : bool;
  writeProtected_ : bool;
  image_ : list Z;
  tags_ : list Z;
  dirty_ : bool
}.

#[export] Instance eta_drive : Eta SonyDrive := fun d =>
  mkDrive (track_ d) (side1_ d) (doubleSided_ d) (hd_ d) (writeProtected_ d) (image_ d)
    (tags_ d) (dirty_ d).

Definition set_image := ltac:(set_field image_).
Definition set_tags := ltac:(set_field tags_).
Definition set_dirty := ltac:(set_field dirty_).

Definition hasDisk (d : SonyDrive) : bool := negb (bool_decide (image_ d = [])).

Definition sectorsInTrack (track : Z) : Z := 12 - (track .>> 4).
Definition sectorsInTrackHd : Z := 18.

Definition imageOffset (d : SonyDrive) (track side sector : Z) : Z :=
  if hd_ d
  then track * 2 * 18 * 512 + side * 18 * 512 + sector * 512
  else
    let off := foldl (fun off t => off + sectorsInTrack t * (if doubleSided_ d then 2 else 1) * 512)
                 0 (seqZ 0 track) in
    let off := if side <>? 0 then off + sectorsInTrack track * 512 else off in
    off + sector * 512.

(** [memcpy] of [n] bytes out of and into an array. *)
Definition bytesAt (l : list Z) (off : Z) (n : nat) : list Z := take n (drop (Z.to_nat off) l).
Definition putBlock (l : list Z) (off : Z) (b : list Z) : list Z :=
  take (Z.to_nat off) l ++ b ++ drop (Z.to_nat off + length b) l.

Definition sideOf (side1 : bool) : Z := if side1 then 1 else 0.

Definition writeSector (track side sector : Z) (data : list Z) (d : SonyDrive)
  : bool * SonyDrive :=
  if negb (hasDisk d) || writeProtected_ d then (false, d)
  else
    let ns := if hd_ d then sectorsInTrackHd else sectorsInTrack track in
    if (track <? 0) || (79 <? track) || (side <? 0) ||
       ((if doubleSided_ d then 1 else 0) <? side) || (sector <? 0) || (ns <=? sector)
    then (false, d)
    else
      let off := imageOffset d track side sector in
      if Z.of_nat (length (image_ d)) <? off + 512 then (false, d)
      else (true, set_dirty true (set_image (putBlock (image_ d) off data) d)).

Definition readSector (d : SonyDrive) (track side sector : Z) : option (list Z) :=
  if negb (hasDisk d) then None
  else
    let ns := if hd_ d then sectorsInTrackHd else sectorsInTrack track in
    if (track <? 0) || (79 <? track) || (sector <? 0) || (ns <=? sector) then None
    else
      let off := imageOffset d track side sector in
      if Z.of_nat (length (image_ d)) <? off + 512 then None
      else Some (bytesAt (image_ d) off 512).

(** ** Encoding *)

(** The three running sums. *)
Definition Sums : Type := Z * Z * Z.

Definition rotl1 (cc : Z) : Z := u8 ((cc .<< 1) .| (cc .>> 7)).

(** The body of the group loop: the nibbles of group [i] and the new sums. *)
Definition encodeGroup (buf : list Z) (i : Z) (st : Sums) : list Z * Sums :=
  let '(ca, cb, cc) := st in
  let va := default 0 (rd buf (3 * i)) in
  let vb := default 0 (rd buf (3 * i + 1)) in
  let vc := if i <>? 174 then default 0 (rd buf (3 * i + 2)) else 0 in
  let cc := rotl1 cc in
  let suma := ca + va + (cc .& 1) in
  let ca := u8 suma in
  let va := va .^ cc in
  let sumb := cb + vb + (suma .>> 8) in
  let cb := u8 sumb in
  let vb := vb .^ ca in
  let cc := if i <>? 174 then u8 (cc + vc + (sumb .>> 8)) else cc in
  let vc := vc .^ cb in
  (gcr6Encode va vb vc (i =? 174), (ca, cb, cc)).

Fixpoint encodeGroups (buf : list Z) (groups : list Z) (st : Sums) : list Z * Sums :=
  match groups with
  | [] => ([], st)
  | i :: groups =>
      let '(nibs, st) := encodeGroup buf i st in
      let '(rest, st) := encodeGroups buf groups st in
      (nibs ++ rest, st)
  end.

(** The 175 groups and the four checksum nibbles. *)
Definition encodeBuf (buf : list Z) : list Z :=
  let '(nibs, (ca, cb, cc)) := encodeGroups buf (seqZ 0 175) (0, 0, 0) in
  nibs ++ gcr6Encode ca cb cc false.

(** 12 tags, 512 data bytes and the pad. *)
Definition sectorBuf (d : SonyDrive) (sector : Z) : list Z :=
  let off := imageOffset d (track_ d) (sideOf (side1_ d)) sector in
  (if off / 512 * 12 + 12 <=? Z.of_nat (length (tags_ d))
   then bytesAt (tags_ d) (off / 512 * 12) 12 else replicate 12 0) ++
  (if off + 512 <=? Z.of_nat (length (image_ d))
   then bytesAt (image_ d) off 512 else replicate 512 0) ++ [0].

Definition addressField (d : SonyDrive) (sector : Z) : list Z :=
  let sideByte := u8 ((if side1_ d then 0x20 else 0x00) .|
                      (if track_ d .& 0x40 <>? 0 then 1 else 0)) in
  let format := if doubleSided_ d then 0x22 else 0x02 in
  replicate 38 (kSync .| 0xFF) ++ [0xD5; 0xAA; 0x96] ++
  [gcr6 (track_ d .& 0x3F); gcr6 (sector .& 0x3F); gcr6 (sideByte .& 0x3F);
   gcr6 (format .& 0x3F);
   gcr6 ((((track_ d .^ sector) .^ sideByte) .^ format) .& 0x3F)] ++
  [0xDE; 0xAA; kSync .| 0xFF].

Definition dataField (d : SonyDrive) (sector : Z) : list Z :=
  replicate 6 (kSync .| 0xFF) ++ [0xD5; 0xAA; 0xAD] ++ [gcr6 (sector .& 0x3F)] ++
  encodeBuf (sectorBuf d sector) ++ [0xDE; 0xAA; kSync .| 0xFF; kSync .| 0xFF].

(** The 2:1 interleave. *)
Definition physOrder (ns : Z) : list Z :=
  (foldl (fun '(phys, si) i =>
     let phys := wr phys si i in
     let si := (si + 2) mod ns in
     (phys, if si =? 0 then si + 1 else si)) (replicate 12 0, 0) (seqZ 0 ns)).1.

Definition encodeTrackGcr (d : SonyDrive) : list Z :=
  let ns := sectorsInTrack (track_ d) in
  mjoin (map (fun s =>
    let sector := default 0 (rd (physOrder ns) s) in
    addressField d sector ++ dataField d sector) (seqZ 0 ns)).

(** ** Decoding

    The scan position is the suffix of the nibbles that starts there. *)

(** [(n & 0x3F) | ((h0 << k) & 0xC0)]. *)
Definition joinBits (n h0 k : Z) : Z := u8 ((n .& 0x3F) .| ((h0 .<< k) .& 0xC0)).

(** A group of four nibbles, or three for the last. *)
Definition pullGroup (lastGroup : bool) (l : list Z) : option (Z * Z * Z * Z * list Z) :=
  match l with
  | a :: b :: c :: l =>
      let h0 := gcr6Inv a in
      let n1 := gcr6Inv b in
      let n2 := gcr6Inv c in
      if lastGroup
      then if (h0 <? 0) || (n1 <? 0) || (n2 <? 0) then None else Some (h0, n1, n2, 0, l)
      else
        match l with
        | e :: l =>
            let n3 := gcr6Inv e in
            if (h0 <? 0) || (n1 <? 0) || (n2 <? 0) || (n3 <? 0) then None
            else Some (h0, n1, n2, n3, l)
        | [] => None
        end
  | _ => None
  end.

(** The body of the group loop: the bytes it stores, the sums, what is left. *)
Definition decodeGroup (i : Z) (st : Sums) (l : list Z) : option (list Z * Sums * list Z) :=
  let '(ca, cb, cc) := st in
  '(h0, n1, n2, n3, l) ← pullGroup (i =? 174) l;
  let va := joinBits n1 h0 2 in
  let vb := joinBits n2 h0 4 in
  let vc := if i <>? 174 then joinBits n3 h0 6 else 0 in
  let cc := rotl1 cc in
  let va := va .^ cc in
  let suma := ca + va + (cc .& 1) in
  let ca := u8 suma in
  let vb := vb .^ ca in
  let sumb := cb + vb + (suma .>> 8) in
  let cb := u8 sumb in
  let vc := vc .^ cb in
  if i <>? 174
  then Some ([va; vb; vc], (ca, cb, u8 (cc + vc + (sumb .>> 8))), l)
  else Some ([va; vb], (ca, cb, cc), l).

Fixpoint decodeGroups (groups : list Z) (st : Sums) (l : list Z)
  : option (list Z * Sums * list Z) :=
  match groups with
  | [] => Some ([], st, l)
  | i :: groups =>
      '(bytes, st, l) ← decodeGroup i st l;
      '(rest, st, l) ← decodeGroups groups st l;
      Some (bytes ++ rest, st, l)
  end.

(** The groups and the checksum: the bytes of the sector and what follows. *)
Definition decodeBuf (l : list Z) : option (list Z * list Z) :=
  '(sdata, (ca, cb, cc), l) ← decodeGroups (seqZ 0 175) (0, 0, 0) l;
  '(h0, w1, w2, w3, l) ← pullGroup false l;
  if negb (ca =? joinBits w1 h0 2) || negb (cb =? joinBits w2 h0 4) ||
     negb (cc =? joinBits w3 h0 6)
  then None else Some (sdata, l).

(** Storing a decoded sector, once per sector of a scan. *)
Definition commitSector (side1 : bool) (sector : Z) (sdata : list Z)
  (st : list Z * Z * SonyDrive) : list Z * Z * SonyDrive :=
  let '(done, committed, d) := st in
  if existsb (Z.eqb sector) done then st
  else
    let tag := imageOffset d (track_ d) (sideOf side1) sector / 512 * 12 in
    let d := if negb (writeProtected_ d) && (tag + 12 <=? Z.of_nat (length (tags_ d)))
             then set_tags (putBlock (tags_ d) tag (take 12 sdata)) d else d in
    let '(ok, d) := writeSector (track_ d) (sideOf side1) sector (take 512 (drop 12 sdata)) d in
    (done ++ [sector], if ok then committed + 1 else committed, d).

(** One position of the scan: a verified field and what follows it. *)
Definition fieldHere (ns : Z) (l : list Z) : option (Z * list Z * list Z) :=
  match l with
  | 0xD5 :: 0xAA :: 0xAD :: a :: l =>
      let sector := gcr6Inv a in
      if (sector <? 0) || (ns <=? sector) then None
      else '(sdata, l) ← decodeBuf l; Some (sector, sdata, l)
  | _ => None
  end.

Fixpoint scan (fuel : nat) (ns : Z) (side1 : bool) (l : list Z) (st : list Z * Z * SonyDrive)
  : list Z * Z * SonyDrive :=
  match fuel with
  | O => st
  | S fuel =>
      if Nat.ltb (length l) 707 then st
      else
        match fieldHere ns l with
        | Some (sector, sdata, l) => scan fuel ns side1 l (commitSector side1 sector sdata st)
        | None => scan fuel ns side1 (tail l) st
        end
  end.

Definition decodeGcrBytes (nib : list Z) (side1 : bool) (d : SonyDrive) : Z * SonyDrive :=
  if writeProtected_ d || (side1 && negb (doubleSided_ d)) then (0, d)
  else
    let '(_, committed, d) :=
      scan (length nib) (sectorsInTrack (track_ d)) side1 nib ([], 0, d) in
    (committed, d).
