(* ===== verification/GcrFacts.v ===== *)
(** * GcrFacts: a track survives the group code

    The decoder inverts the encoder group by group (the running sums are the
    same on both sides), a data field never contains a mark, and so the scan
    of a whole encoded track finds every sector. *)

From S2P Require Import Prelude.
From S2P Require Import Gcr.
From stdpp Require Import base list numbers option decidable.

Open Scope Z_scope.

(** ** Nibbles *)

(** A data nibble decodes, and is neither [D5] nor [AA]. *)
Definition dataNibble (v : Z) : Prop := 0 <= gcr6Inv v /\ v <> 0xD5 /\ v <> 0xAA /\ byte v.

Lemma gcr6_inv x : 0 <= x < 64 -> gcr6Inv (gcr6 x) = x.
Proof.
  intros Hx. apply Z.eqb_eq.
  apply (all_below_sound 6 (fun x => gcr6Inv (gcr6 x) =? x)); [vm_compute; reflexivity|exact Hx].
Qed.

Lemma gcr6_data x : 0 <= x < 64 -> dataNibble (gcr6 x).
Proof.
  intros Hx. split; [rewrite gcr6_inv by exact Hx; lia|].
  assert (H : (negb (gcr6 x =? 0xD5) && negb (gcr6 x =? 0xAA) && (0 <=? gcr6 x) &&
               (gcr6 x <? 256)) = true).
  { apply (all_below_sound 6 (fun x => negb (gcr6 x =? 0xD5) && negb (gcr6 x =? 0xAA) &&
      (0 <=? gcr6 x) && (gcr6 x <? 256))); [vm_compute; reflexivity|exact Hx]. }
  unbool. unfold byte. auto.
Qed.

Lemma land_63_range x : 0 <= x .& 0x3f < 64.
Proof.
  change 0x3f with (2 ^ 6 - 1). rewrite land_mask_mod by lia. apply (Z.mod_pos_bound _ (2 ^ 6)). lia.
Qed.

(** The three pairs of high bits in one nibble. *)
Definition highs (va vb vc : Z) : Z :=
  ((va .>> 2) .& 0x30) .| ((vb .>> 4) .& 0x0c) .| ((vc .>> 6) .& 0x03).

(** The pairs do not overlap, so each can be read back; the check runs over
    one byte and the four values the other two pairs can have. *)
Definition pairsCheck (v : Z) : bool :=
  forallb (fun p => forallb (fun q =>
    let h1 := ((v .>> 2) .& 0x30) .| (4 * p) .| q in
    let h2 := (16 * p) .| ((v .>> 4) .& 0x0c) .| q in
    let h3 := (16 * p) .| (4 * q) .| ((v .>> 6) .& 0x03) in
    (joinBits (v .& 0x3f) h1 2 =? v) && (joinBits (v .& 0x3f) h2 4 =? v) &&
    (joinBits (v .& 0x3f) h3 6 =? v) && (0 <=? h1) && (h1 <? 64)) [0; 1; 2; 3]) [0; 1; 2; 3].

Lemma pairs_checked v : byte v -> pairsCheck v = true.
Proof.
  intros Hv. apply (all_below_sound 8 pairsCheck); [vm_compute; reflexivity|exact Hv].
Qed.

Lemma pair_range v : byte v ->
  exists p, In p [0; 1; 2; 3] /\ (v .>> 2) .& 0x30 = 16 * p /\ (v .>> 4) .& 0x0c = 4 * p /\
    (v .>> 6) .& 0x03 = p.
Proof.
  intros Hv.
  assert (H : existsb (fun p => ((v .>> 2) .& 0x30 =? 16 * p) && ((v .>> 4) .& 0x0c =? 4 * p) &&
                                ((v .>> 6) .& 0x03 =? p)) [0; 1; 2; 3] = true).
  { apply (all_below_sound 8 (fun v => existsb (fun p => ((v .>> 2) .& 0x30 =? 16 * p) &&
      ((v .>> 4) .& 0x0c =? 4 * p) && ((v .>> 6) .& 0x03 =? p)) [0; 1; 2; 3]));
      [vm_compute; reflexivity|exact Hv]. }
  apply existsb_exists in H as (p & Hp & H). exists p. unbool. auto.
Qed.

Lemma highs_split va vb vc :
  byte va -> byte vb -> byte vc ->
  0 <= highs va vb vc < 64 /\
  joinBits (va .& 0x3f) (highs va vb vc) 2 = va /\
  joinBits (vb .& 0x3f) (highs va vb vc) 4 = vb /\
  joinBits (vc .& 0x3f) (highs va vb vc) 6 = vc.
Proof.
  intros Ha Hb Hc. unfold highs.
  pose proof (pairs_checked va Ha) as Ca. pose proof (pairs_checked vb Hb) as Cb.
  pose proof (pairs_checked vc Hc) as Cc. unfold pairsCheck in Ca, Cb, Cc.
  rewrite forallb_forall in Ca, Cb, Cc.
  destruct (pair_range va Ha) as (p & Ip & A1 & _ & _).
  destruct (pair_range vb Hb) as (q & Iq & _ & B2 & _).
  destruct (pair_range vc Hc) as (r & Ir & _ & _ & C3).
  specialize (Ca q Iq). specialize (Cb p Ip). specialize (Cc p Ip).
  rewrite forallb_forall in Ca, Cb, Cc.
  specialize (Ca r Ir). specialize (Cb r Ir). specialize (Cc q Iq).
  rewrite A1, B2, C3 in *. unbool. split_and!; assumption.
Qed.

(** ** One group *)

Lemma pull_encode va vb vc (last : bool) rest :
  byte va -> byte vb -> byte vc ->
  pullGroup last (gcr6Encode va vb vc last ++ rest) =
  Some (highs va vb vc, va .& 0x3f, vb .& 0x3f, if last then 0 else vc .& 0x3f, rest).
Proof.
  intros Ha Hb Hc. destruct (highs_split va vb vc Ha Hb Hc) as (Hh & _).
  pose proof (land_63_range va). pose proof (land_63_range vb). pose proof (land_63_range vc).
  unfold gcr6Encode. fold (highs va vb vc).
  destruct last; cbn [pullGroup app]; rewrite !gcr6_inv by assumption;
    rewrite !(proj2 (Z.ltb_ge _ 0)) by lia; done.
Qed.

Lemma encode_data va vb vc (last : bool) :
  byte va -> byte vb -> byte vc -> Forall dataNibble (gcr6Encode va vb vc last).
Proof.
  intros Ha Hb Hc. destruct (highs_split va vb vc Ha Hb Hc) as (Hh & _).
  unfold gcr6Encode. fold (highs va vb vc).
  destruct last; cbn [app]; repeat constructor; apply gcr6_data; auto using land_63_range.
Qed.

Lemma lxor_twice x y : (x .^ y) .^ y = x.
Proof. by rewrite Z.lxor_assoc, Z.lxor_nilpotent, Z.lxor_0_r. Qed.

Definition bytes_ok (l : list Z) : Prop := Forall byte l.

Lemma rd_default_byte l i : bytes_ok l -> byte (default 0 (rd l i)).
Proof.
  intros Hl. destruct (rd l i) as [v|] eqn:E; cbn; [|unfold byte; lia].
  exact (rd_Forall _ _ _ _ Hl E).
Qed.

(** The bytes of group [i]. *)
Definition groupBytes (buf : list Z) (i : Z) : list Z :=
  default 0 (rd buf (3 * i)) :: default 0 (rd buf (3 * i + 1)) ::
  (if i =? 174 then [] else [default 0 (rd buf (3 * i + 2))]).

Definition sums_ok (st : Sums) : Prop := byte st.1.1 /\ byte st.1.2 /\ byte st.2.

Lemma rotl1_byte cc : byte (rotl1 cc).
Proof. apply u8_range. Qed.

(** The decoder follows the encoder through a group, whatever the sums. *)
Lemma group_roundtrip buf i st rest :
  bytes_ok buf -> sums_ok st ->
  let '(nibs, st') := encodeGroup buf i st in
  decodeGroup i st (nibs ++ rest) = Some (groupBytes buf i, st', rest) /\
  sums_ok st' /\ Forall dataNibble nibs /\ length nibs = (if Z.eqb i 174 then 3%nat else 4%nat).
Proof.
  intros Hb. destruct st as [[ca cb] cc]. intros (Ba & Bb & Bc). cbn [fst snd] in *.
  unfold encodeGroup, decodeGroup, groupBytes.
  pose proof (rd_default_byte buf (3 * i) Hb) as V1.
  pose proof (rd_default_byte buf (3 * i + 1) Hb) as V2.
  pose proof (rd_default_byte buf (3 * i + 2) Hb) as V3.
  set (va := default 0 (rd buf (3 * i))) in *.
  set (vb := default 0 (rd buf (3 * i + 1))) in *.
  set (w := default 0 (rd buf (3 * i + 2))) in *.
  set (r := rotl1 cc). pose proof (rotl1_byte cc : byte r) as Br.
  set (suma := ca + va + (r .& 1)). set (sumb := cb + vb + (suma .>> 8)).
  pose proof (u8_range suma : byte (u8 suma)). pose proof (u8_range sumb : byte (u8 sumb)).
  set (vc := if i <>? 174 then w else 0).
  assert (Bv : byte vc) by (subst vc; destruct (i =? 174); cbn; [unfold byte; lia|exact V3]).
  assert (Hx : byte (va .^ r) /\ byte (vb .^ u8 suma) /\ byte (vc .^ u8 sumb))
    by (auto using lxor_byte). destruct Hx as (Xa & Xb & Xc).
  destruct (highs_split _ _ _ Xa Xb Xc) as (_ & J1 & J2 & J3).
  rewrite pull_encode by assumption. cbn [mbind option_bind].
  rewrite J1, J2, !lxor_twice. fold suma. fold sumb. fold r in J1 |- *.
  split; [|split; [|split; [by apply encode_data|by destruct (i =? 174)]]].
  - subst vc. destruct (i =? 174); cbn [negb] in *; [done|]. by rewrite J3, lxor_twice.
  - subst vc. destruct (i =? 174); cbn [negb]; split_and!; cbn; try assumption;
      try apply u8_range; apply rotl1_byte.
Qed.

(** ** A sector *)

Definition groupLength (i : Z) : nat := if Z.eqb i 174 then 3%nat else 4%nat.

Lemma groups_roundtrip buf groups : forall st rest,
  bytes_ok buf -> sums_ok st ->
  let '(nibs, st') := encodeGroups buf groups st in
  decodeGroups groups st (nibs ++ rest) = Some (mjoin (map (groupBytes buf) groups), st', rest) /\
  sums_ok st' /\ Forall dataNibble nibs /\ length nibs = sum_list (map groupLength groups).
Proof.
  induction groups as [|i groups IH]; intros st rest Hb Hst; [done|].
  cbn [encodeGroups decodeGroups map].
  pose proof (fun rest => group_roundtrip buf i st rest Hb Hst) as Hg.
  destruct (encodeGroup buf i st) as [nibs st1]. destruct (Hg []) as (_ & Hs1 & Hd1 & Hl1).
  specialize (IH st1 rest Hb Hs1). destruct (encodeGroups buf groups st1) as [nibs2 st2].
  destruct IH as (E2 & Hs2 & Hd2 & Hl2). rewrite <- app_assoc.
  rewrite (proj1 (Hg (nibs2 ++ rest))). cbn [mbind option_bind]. rewrite E2.
  split; [done|]. split; [done|]. split; [by apply Forall_app|].
  rewrite length_app, Hl1, Hl2. done.
Qed.

(** The groups cover the buffer. *)
Lemma groupBytes_take buf (n : nat) : forall k,
  (k + n <= 174)%nat -> length buf = 525%nat ->
  mjoin (map (groupBytes buf) (seqZ (Z.of_nat k) (Z.of_nat n))) =
  take (3 * n) (drop (3 * k) buf).
Proof.
  induction n as [|n IH]; intros k Hk Hl; [done|].
  rewrite Nat2Z.inj_succ, seqZ_cons, Z.pred_succ by lia. cbn [map mjoin list_join].
  rewrite <- Nat2Z.inj_succ, IH by lia. unfold groupBytes.
  rewrite (proj2 (Z.eqb_neq _ _)) by lia.
  assert (Hr : forall j, (j < 525)%nat -> exists v, buf !! j = Some v /\ rd buf (Z.of_nat j) = Some v).
  { intros j Hj. destruct (lookup_lt_is_Some_2 buf j) as [v E]; [lia|]. exists v. split; [done|].
    unfold rd. by rewrite (proj2 (Z.ltb_ge _ _)), Nat2Z.id by lia. }
  destruct (Hr (3 * k)%nat ltac:(lia)) as (a & La & Ra).
  destruct (Hr (3 * k + 1)%nat ltac:(lia)) as (b & Lb & Rb).
  destruct (Hr (3 * k + 2)%nat ltac:(lia)) as (c & Lc & Rc).
  replace (3 * Z.of_nat k) with (Z.of_nat (3 * k)) by lia.
  replace (Z.of_nat (3 * k) + 1) with (Z.of_nat (3 * k + 1)) by lia.
  replace (Z.of_nat (3 * k) + 2) with (Z.of_nat (3 * k + 2)) by lia.
  rewrite Ra, Rb, Rc. cbn [default].
  rewrite (drop_S _ _ _ La). replace (S (3 * k))%nat with (3 * k + 1)%nat by lia.
  rewrite (drop_S _ _ _ Lb). replace (S (3 * k + 1))%nat with (3 * k + 2)%nat by lia.
  rewrite (drop_S _ _ _ Lc). replace (S (3 * k + 2))%nat with (3 * S k)%nat by lia.
  replace (3 * S n)%nat with (S (S (S (3 * n)))) by lia. done.
Qed.

Lemma groupBytes_all buf :
  length buf = 525%nat -> mjoin (map (groupBytes buf) (seqZ 0 175)) = take 524 buf.
Proof.
  intros Hl. change 175 with (174 + 1). rewrite seqZ_app by lia.
  rewrite map_app, join_app.
  pose proof (groupBytes_take buf 174 0 ltac:(lia) Hl) as E.
  change (Z.of_nat 0) with 0 in E. change (Z.of_nat 174) with 174 in E. rewrite E.
  change (drop (3 * 0) buf) with buf.
  change (0 + 174) with 174. change (seqZ 174 1) with [174]. cbn [map mjoin list_join].
  unfold groupBytes. cbn [Z.eqb Pos.eqb]. rewrite app_nil_r.
  destruct (lookup_lt_is_Some_2 buf 522) as [a La]; [lia|].
  destruct (lookup_lt_is_Some_2 buf 523) as [b Lb]; [lia|].
  change (rd buf (3 * 174)) with (buf !! 522%nat).
  change (rd buf (3 * 174 + 1)) with (buf !! 523%nat). rewrite La, Lb. cbn [default].
  rewrite (take_S_r _ 523 b Lb), (take_S_r _ 522 a La), <- app_assoc. done.
Qed.

Lemma encodeBuf_spec buf rest :
  bytes_ok buf -> length buf = 525%nat ->
  decodeBuf (encodeBuf buf ++ rest) = Some (take 524 buf, rest) /\
  Forall dataNibble (encodeBuf buf) /\ length (encodeBuf buf) = 703%nat.
Proof.
  intros Hb Hl. unfold encodeBuf, decodeBuf.
  assert (H0 : sums_ok (0, 0, 0)) by (unfold sums_ok, byte; cbn; lia).
  pose proof (fun rest => groups_roundtrip buf (seqZ 0 175) (0, 0, 0) rest Hb H0) as Hg.
  destruct (encodeGroups buf (seqZ 0 175) (0, 0, 0)) as [nibs [[ca cb] cc]].
  destruct (Hg (gcr6Encode ca cb cc false ++ rest)) as (E & (Ba & Bb & Bc) & Hd & Hn).
  cbn [fst snd] in *. rewrite <- app_assoc, E. cbn [mbind option_bind].
  rewrite pull_encode by assumption. cbn [mbind option_bind].
  destruct (highs_split ca cb cc Ba Bb Bc) as (_ & -> & -> & ->).
  rewrite !Z.eqb_refl. cbn [negb orb]. rewrite groupBytes_all by exact Hl.
  split; [done|]. split; [apply Forall_app; auto using encode_data|].
  rewrite length_app, Hn. vm_compute. reflexivity.
Qed.

(** ** Scanning *)

Lemma scan_short fuel ns side l st : (length l < 707)%nat -> scan fuel ns side l st = st.
Proof.
  intros Hl. destruct fuel; [done|]. cbn [scan]. by rewrite (proj2 (Nat.ltb_lt _ _) Hl).
Qed.

Lemma scan_step fuel ns side a l st :
  fieldHere ns (a :: l) = None -> scan (S fuel) ns side (a :: l) st = scan fuel ns side l st.
Proof.
  intros Hn. cbn [scan]. destruct (Nat.ltb_spec (length (a :: l)) 707) as [Hs|_].
  - symmetry. apply scan_short. cbn in Hs. lia.
  - by rewrite Hn.
Qed.

Lemma fieldHere_other ns a l : a <> 0xD5 -> fieldHere ns (a :: l) = None.
Proof.
  intros Ha. unfold fieldHere. destruct a as [|p|]; try done.
  repeat (destruct p as [p|p|]; try done).
Qed.

(** No mark starts inside a stretch without [D5]. *)
Lemma scan_quiet ns side pre : forall fuel rest st,
  Forall (fun a => a <> 0xD5) pre -> (length (pre ++ rest) <= fuel)%nat ->
  exists fuel', (length rest <= fuel')%nat /\
    scan fuel ns side (pre ++ rest) st = scan fuel' ns side rest st.
Proof.
  induction pre as [|a pre IH]; intros fuel rest st Hq Hf; [by exists fuel|].
  inversion_clear Hq as [|? ? Ha Hp]. destruct fuel as [|fuel]; [cbn in Hf; lia|].
  destruct (IH fuel rest st Hp) as (fuel' & Hf' & E); [cbn in Hf; lia|].
  exists fuel'. split; [exact Hf'|]. rewrite <- E. cbn [app].
  by apply scan_step, fieldHere_other.
Qed.

(** The address mark is not a data mark. *)
Lemma scan_address ns side fuel rest st :
  (length (0xD5%Z :: 0xAA%Z :: 0x96%Z :: rest) <= fuel)%nat ->
  exists fuel', (length rest <= fuel')%nat /\
    scan fuel ns side (0xD5 :: 0xAA :: 0x96 :: rest) st = scan fuel' ns side rest st.
Proof.
  intros Hf. destruct fuel as [|fuel]; [cbn in Hf; lia|].
  rewrite scan_step by reflexivity.
  apply (scan_quiet ns side [0xAA; 0x96]); [repeat constructor; done|cbn in *; lia].
Qed.

Lemma scan_field ns side sector buf fuel rest st :
  bytes_ok buf -> length buf = 525%nat -> 0 <= sector < ns -> ns <= 64 ->
  let l := [0xD5; 0xAA; 0xAD] ++ [gcr6 (sector .& 0x3F)] ++ encodeBuf buf ++ rest in
  (length l <= fuel)%nat ->
  exists fuel', (length rest <= fuel')%nat /\
    scan fuel ns side l st =
    scan fuel' ns side rest (commitSector side sector (take 524 buf) st).
Proof.
  intros Hb Hl Hs Hn. cbv zeta. cbn [app]. intros Hf.
  destruct (encodeBuf_spec buf rest Hb Hl) as (Ed & _ & El).
  destruct fuel as [|fuel]; [cbn in Hf; lia|]. cbn [length] in Hf. rewrite length_app, El in Hf.
  exists fuel. split; [lia|].
  assert (Eh : fieldHere ns (0xD5 :: 0xAA :: 0xAD :: gcr6 (sector .& 0x3F) :: encodeBuf buf ++ rest)
               = Some (sector, take 524 buf, rest)).
  { unfold fieldHere. change 0x3F with (2 ^ 6 - 1). rewrite land_mask_mod by lia.
    rewrite Z.mod_small by lia. rewrite gcr6_inv by lia.
    rewrite (proj2 (Z.ltb_ge _ _)), (proj2 (Z.leb_gt _ _)) by lia. cbn [orb].
    by rewrite Ed. }
  cbn [scan]. rewrite Eh. destruct (Nat.ltb_spec (length (0xD5 :: 0xAA :: 0xAD ::
    gcr6 (sector .& 0x3F) :: encodeBuf buf ++ rest)) 707) as [Hlt|_]; [|done].
  cbn [length] in Hlt. rewrite length_app, El in Hlt. lia.
Qed.

(** ** A sector on the track *)

(** What the head delivers. *)
Definition nibbles (l : list Z) : list Z := map u8 l.

Lemma nibbles_bytes l : Forall dataNibble l -> nibbles l = l.
Proof.
  induction 1 as [|a l (_ & _ & _ & Ha) _ IH]; [done|]. cbn. f_equal; [by apply u8_small|exact IH].
Qed.

Lemma gcr6_masked x : nibbles [gcr6 (x .& 0x3F)] = [gcr6 (x .& 0x3F)].
Proof. apply nibbles_bytes. repeat constructor; apply gcr6_data, land_63_range. Qed.

Lemma gcr6_quiet x : u8 (gcr6 (x .& 0x3F)) <> 0xD5.
Proof.
  destruct (gcr6_data (x .& 0x3F) (land_63_range x)) as (_ & H & _ & Hb).
  by rewrite u8_small.
Qed.

Lemma map_replicate {A B} (f : A -> B) n x : map f (replicate n x) = replicate n (f x).
Proof. induction n as [|n IH]; [done|]. cbn. by rewrite IH. Qed.

(** The gaps and the address field contain no data mark. *)
Lemma scan_addressField ns side d sector fuel rest st :
  let l := nibbles (addressField d sector ++ replicate 6 (kSync .| 0xFF)) in
  (length (l ++ rest) <= fuel)%nat ->
  exists fuel', (length rest <= fuel')%nat /\
    scan fuel ns side (l ++ rest) st = scan fuel' ns side rest st.
Proof.
  cbv zeta. unfold addressField, nibbles.
  rewrite !map_app, !map_replicate, <- !app_assoc. change (u8 (kSync .| 0xFF)) with 255.
  set (fields := map u8 [gcr6 _; gcr6 _; gcr6 _; gcr6 _; gcr6 _]).
  assert (Hq : Forall (fun a => a <> 0xD5) fields)
    by (subst fields; repeat constructor; apply gcr6_quiet).
  clearbody fields. change (map u8 [0xD5; 0xAA; 0x96]) with [0xD5; 0xAA; 0x96].
  change (map u8 [0xDE; 0xAA; kSync .| 0xFF]) with [0xDE; 0xAA; 0xFF]. intros Hf.
  assert (Hr : forall n, Forall (fun a => a <> 0xD5) (replicate n 255))
    by (intros n; apply Forall_replicate; done).
  destruct (scan_quiet ns side (replicate 38 255) fuel _ st (Hr _) Hf) as (f1 & Hf1 & ->).
  cbn [app] in Hf1 |- *.
  destruct (scan_address ns side f1 _ st Hf1) as (f2 & Hf2 & ->).
  replace (fields ++ 0xDE :: 0xAA :: 0xFF :: replicate 6 255 ++ rest)
    with ((fields ++ [0xDE; 0xAA; 0xFF] ++ replicate 6 255) ++ rest) in *
    by (by rewrite <- !app_assoc).
  apply scan_quiet; [|exact Hf2]. repeat (apply Forall_app_2 || apply Hr || done).
  repeat constructor; done.
Qed.

Definition sectorNibbles (d : SonyDrive) (sector : Z) : list Z :=
  nibbles (addressField d sector ++ dataField d sector).

Lemma field_split pre gap g enc rest :
  nibbles [g] = [g] -> nibbles enc = enc ->
  nibbles (pre ++ gap ++ [0xD5; 0xAA; 0xAD] ++ [g] ++ enc ++
    [0xDE; 0xAA; kSync .| 0xFF; kSync .| 0xFF]) ++ rest =
  nibbles (pre ++ gap) ++
    ([0xD5; 0xAA; 0xAD] ++ [g] ++ enc ++ ([0xDE; 0xAA; 0xFF; 0xFF] ++ rest)).
Proof.
  unfold nibbles. intros Eg Ee. rewrite !map_app, <- !app_assoc, Eg, Ee. reflexivity.
Qed.

Lemma scan_sector ns side d sector fuel rest st :
  bytes_ok (sectorBuf d sector) -> length (sectorBuf d sector) = 525%nat ->
  0 <= sector < ns -> ns <= 64 ->
  (length (sectorNibbles d sector ++ rest) <= fuel)%nat ->
  exists fuel', (length rest <= fuel')%nat /\
    scan fuel ns side (sectorNibbles d sector ++ rest) st =
    scan fuel' ns side rest (commitSector side sector (take 524 (sectorBuf d sector)) st).
Proof.
  intros Hb Hl Hs Hn. unfold sectorNibbles, dataField.
  destruct (encodeBuf_spec (sectorBuf d sector) [] Hb Hl) as (_ & Hd & _).
  set (buf := sectorBuf d sector) in *. clearbody buf.
  rewrite (field_split _ _ _ (encodeBuf buf) rest (gcr6_masked sector) (nibbles_bytes _ Hd)).
  intros Hf.
  destruct (scan_addressField ns side d sector fuel _ st Hf) as (f1 & Hf1 & ->).
  destruct (scan_field ns side sector buf f1 _ st Hb Hl Hs Hn Hf1) as (f2 & Hf2 & ->).
  apply (scan_quiet ns side [0xDE; 0xAA; 0xFF; 0xFF]); [repeat constructor; done|exact Hf2].
Qed.

Lemma scan_sectors ns side d sectors : forall fuel st,
  (forall s, s ∈ sectors -> bytes_ok (sectorBuf d s) /\ length (sectorBuf d s) = 525%nat /\
     0 <= s < ns) -> ns <= 64 ->
  (length (mjoin (map (sectorNibbles d) sectors)) <= fuel)%nat ->
  scan fuel ns side (mjoin (map (sectorNibbles d) sectors)) st =
  foldl (fun st s => commitSector side s (take 524 (sectorBuf d s)) st) st sectors.
Proof.
  induction sectors as [|s sectors IH]; intros fuel st Hs Hn Hf.
  { apply scan_short. cbn. lia. }
  cbn [map mjoin list_join foldl] in *.
  destruct (Hs s ltac:(by left)) as (Hb & Hl & Hr).
  destruct (scan_sector ns side d s fuel _ st Hb Hl Hr Hn Hf) as (f1 & Hf1 & ->).
  apply IH; [|exact Hn|exact Hf1]. intros q Hq. apply Hs. by right.
Qed.

(** ** The order of the sectors *)

Definition trackOrder (ns : Z) : list Z :=
  map (fun s => default 0 (rd (physOrder ns) s)) (seqZ 0 ns).

(** Every sector number once, for each of the five speed zones. *)
Lemma trackOrder_all ns :
  8 <= ns <= 12 -> NoDup (trackOrder ns) /\ forall s, s ∈ trackOrder ns <-> 0 <= s < ns.
Proof.
  intros Hn.
  assert (H : forallb (fun ns => bool_decide (NoDup (trackOrder ns)) &&
      forallb (fun s => bool_decide (s ∈ trackOrder ns)) (seqZ 0 ns) &&
      forallb (fun s => (0 <=? s) && (s <? ns)) (trackOrder ns)) [8; 9; 10; 11; 12] = true)
    by (vm_compute; reflexivity).
  rewrite forallb_forall in H. specialize (H ns ltac:(cbn; lia)). unbool.
  match goal with H1 : forallb _ (seqZ 0 ns) = true, H2 : forallb _ (trackOrder ns) = true |- _ =>
    rewrite forallb_forall in H1, H2; rename H1 into Hin, H2 into Hrange end.
  split; [done|]. intros s. split.
  - intros Hs. apply list_elem_of_In in Hs. apply Hrange in Hs. unbool. lia.
  - intros Hs. specialize (Hin s). rewrite bool_decide_eq_true in Hin. apply Hin.
    apply list_elem_of_In, elem_of_seqZ. lia.
Qed.

Lemma zones track : 0 <= track < 80 -> 8 <= sectorsInTrack track <= 12.
Proof.
  intros Ht. unfold sectorsInTrack. rewrite Z.shiftr_div_pow2 by lia.
  pose proof (Z.div_pos track (2 ^ 4) ltac:(lia) ltac:(lia)).
  pose proof (Z.div_lt_upper_bound track (2 ^ 4) 5 ltac:(lia) ltac:(lia)). lia.
Qed.

Lemma track_nibbles d :
  nibbles (encodeTrackGcr d) =
  mjoin (map (sectorNibbles d) (trackOrder (sectorsInTrack (track_ d)))).
Proof.
  unfold encodeTrackGcr, trackOrder. generalize (seqZ 0 (sectorsInTrack (track_ d))).
  intros l. induction l as [|s l IH]; [done|]. cbn [map mjoin list_join] in *.
  unfold nibbles in *. rewrite map_app. f_equal. exact IH.
Qed.

(** ** Blocks of an array *)

Lemma bytesAt_rd l off n k :
  0 <= off -> 0 <= k -> rd (bytesAt l off n) k = if k <? Z.of_nat n then rd l (off + k) else None.
Proof.
  intros Ho Hk. unfold rd, bytesAt. rewrite !(proj2 (Z.ltb_ge _ 0)) by lia.
  destruct (Z.ltb_spec k (Z.of_nat n)).
  - rewrite lookup_take_lt, lookup_drop by lia. f_equal. lia.
  - apply lookup_take_ge. lia.
Qed.

Lemma bytesAt_length l off n :
  0 <= off -> off + Z.of_nat n <= Z.of_nat (length l) -> length (bytesAt l off n) = n.
Proof. intros Ho Hl. unfold bytesAt. rewrite length_take, length_drop. lia. Qed.

Lemma putBlock_length l off b :
  0 <= off -> off + Z.of_nat (length b) <= Z.of_nat (length l) ->
  length (putBlock l off b) = length l.
Proof.
  intros Ho Hl. unfold putBlock. rewrite !length_app, length_take, length_drop. lia.
Qed.

Lemma putBlock_rd l off b k :
  0 <= off -> off + Z.of_nat (length b) <= Z.of_nat (length l) -> 0 <= k ->
  rd (putBlock l off b) k =
  if (off <=? k) && (k <? off + Z.of_nat (length b)) then rd b (k - off) else rd l k.
Proof.
  intros Ho Hl Hk. unfold rd, putBlock. rewrite (proj2 (Z.ltb_ge k 0)) by lia.
  destruct (Z.leb_spec off k); cbn [andb].
  - rewrite lookup_app_r by (rewrite length_take; lia). rewrite length_take.
    destruct (Z.ltb_spec k (off + Z.of_nat (length b))).
    + rewrite lookup_app_l by lia. rewrite (proj2 (Z.ltb_ge (k - off) 0)) by lia. f_equal. lia.
    + rewrite lookup_app_r by lia. rewrite lookup_drop. f_equal. lia.
  - rewrite lookup_app_l by (rewrite length_take; lia). apply lookup_take_lt. lia.
Qed.

(** [c] is [b] with the blocks [todo] of size [n], counted from [start], taken
    from [a]. *)
Definition merged (n start : Z) (a b : list Z) (todo : list Z) (c : list Z) : Prop :=
  length c = length b /\
  forall k, 0 <= k -> rd c k = if decide ((k - start) / n ∈ todo) then rd a k else rd b k.

Lemma merged_nil n start a b : merged n start a b [] b.
Proof. split; [done|]. intros k _. rewrite decide_False; [done|]. apply not_elem_of_nil. Qed.

Lemma merged_put n start a b c todo s :
  0 < n -> 0 <= start -> 0 <= s -> start + n * s + n <= Z.of_nat (length a) ->
  start + n * s + n <= Z.of_nat (length b) ->
  merged n start a b todo c ->
  merged n start a b (todo ++ [s])
    (putBlock c (start + n * s) (bytesAt a (start + n * s) (Z.to_nat n))).
Proof.
  intros Hn Hst Hs Ha Hb [Hl Hm].
  assert (Hbl : Z.of_nat (length (bytesAt a (start + n * s) (Z.to_nat n))) = n)
    by (rewrite bytesAt_length; nia).
  split; [rewrite putBlock_length; [done|nia|lia]|].
  intros k Hk. rewrite putBlock_rd by (nia || lia). rewrite Hbl.
  pose proof (Z.div_mod (k - start) n ltac:(lia)) as D.
  pose proof (Z.mod_pos_bound (k - start) n ltac:(lia)) as M.
  destruct (decide ((k - start) / n = s)) as [E|N].
  - rewrite E in D. rewrite (proj2 (Z.leb_le _ _)), (proj2 (Z.ltb_lt _ _)) by lia. cbn [andb].
    rewrite bytesAt_rd by nia. rewrite Z2Nat.id, (proj2 (Z.ltb_lt _ _)) by lia.
    rewrite decide_True by (rewrite E; apply elem_of_app; right; by left). f_equal. lia.
  - assert (Ho : (start + n * s <=? k) && (k <? start + n * s + n) = false).
    { apply not_true_is_false. intros H. unbool. apply N.
      symmetry. apply (Z.div_unique_pos _ _ _ (k - start - n * s)); lia. }
    rewrite Ho, Hm by lia. apply decide_ext. rewrite elem_of_app, list_elem_of_singleton. tauto.
Qed.

(** ** Where a track lives *)

Definition trackBase (d : SonyDrive) : Z := imageOffset d (track_ d) (sideOf (side1_ d)) 0.

(** The drive holds a group-coded disk with the whole track under the head. *)
Record holds (d : SonyDrive) : Prop := {
  ho_hd : hd_ d = false;
  ho_track : 0 <= track_ d < 80;
  ho_side : side1_ d = true -> doubleSided_ d = true;
  ho_image : trackBase d + 512 * sectorsInTrack (track_ d) <= Z.of_nat (length (image_ d));
  ho_tags : trackBase d / 512 * 12 + 12 * sectorsInTrack (track_ d)
            <= Z.of_nat (length (tags_ d));
  ho_bytes : bytes_ok (image_ d) /\ bytes_ok (tags_ d)
}.

Lemma imageOffset_sector d side s :
  hd_ d = false ->
  imageOffset d (track_ d) side s = imageOffset d (track_ d) side 0 + 512 * s.
Proof. intros Hh. unfold imageOffset. rewrite Hh. cbv zeta. lia. Qed.

Lemma zone_sum (f : Z -> Z) l : forall q,
  (forall t, t ∈ l -> 0 <= f t) -> 0 <= q ->
  exists r, 0 <= r /\ foldl (fun off t => off + f t * 512) (q * 512) l = r * 512.
Proof.
  induction l as [|t l IH]; intros q Hf Hq; [by exists q|]. cbn [foldl].
  replace (q * 512 + f t * 512) with ((q + f t) * 512) by lia.
  apply IH; [intros u Hu; apply Hf; by right|]. pose proof (Hf t ltac:(by left)). lia.
Qed.

Lemma trackBase_blocks d :
  holds d -> exists q, 0 <= q /\ trackBase d = q * 512.
Proof.
  intros Hd. pose proof (ho_track d Hd) as Ht. unfold trackBase, imageOffset.
  rewrite (ho_hd d Hd). cbv zeta.
  destruct (zone_sum (fun t => sectorsInTrack t * (if doubleSided_ d then 2 else 1))
              (seqZ 0 (track_ d)) 0) as (r & Hr & E); [|lia|].
  { intros t Hin. apply elem_of_seqZ in Hin. pose proof (zones t ltac:(lia)).
    destruct (doubleSided_ d); lia. }
  rewrite Z.mul_0_l in E. rewrite E. pose proof (zones (track_ d) Ht).
  destruct (sideOf (side1_ d) <>? 0);
    [exists (r + sectorsInTrack (track_ d))|exists r]; lia.
Qed.

Definition tagBase (d : SonyDrive) : Z := trackBase d / 512 * 12.

Lemma tag_offset d s :
  holds d -> imageOffset d (track_ d) (sideOf (side1_ d)) s / 512 * 12 = tagBase d + 12 * s.
Proof.
  intros Hd. rewrite imageOffset_sector by apply Hd. fold (trackBase d). unfold tagBase.
  destruct (trackBase_blocks d Hd) as (q & Hq & ->).
  replace (q * 512 + 512 * s) with ((q + s) * 512) by lia. rewrite !Z.div_mul by lia. lia.
Qed.

(** The buffer of a sector of the track. *)
Lemma sectorBuf_parts d s :
  holds d -> 0 <= s < sectorsInTrack (track_ d) ->
  sectorBuf d s = bytesAt (tags_ d) (tagBase d + 12 * s) 12 ++
                  bytesAt (image_ d) (trackBase d + 512 * s) 512 ++ [0] /\
  length (bytesAt (tags_ d) (tagBase d + 12 * s) 12) = 12%nat /\
  length (bytesAt (image_ d) (trackBase d + 512 * s) 512) = 512%nat.
Proof.
  intros Hd Hs. pose proof (ho_image d Hd). pose proof (ho_tags d Hd).
  destruct (trackBase_blocks d Hd) as (q & Hq & E).
  assert (0 <= tagBase d) by (unfold tagBase; rewrite E, Z.div_mul; lia).
  unfold sectorBuf. rewrite tag_offset, imageOffset_sector by (done || apply Hd).
  fold (trackBase d). fold (tagBase d) in *.
  rewrite !(proj2 (Z.leb_le _ _)) by lia.
  split_and!; [done|apply bytesAt_length; lia..].
Qed.

Lemma bytesAt_bytes l off n : bytes_ok l -> bytes_ok (bytesAt l off n).
Proof. intros Hl. by apply Forall_take, Forall_drop. Qed.

Lemma sectorBuf_ok d s :
  holds d -> 0 <= s < sectorsInTrack (track_ d) ->
  bytes_ok (sectorBuf d s) /\ length (sectorBuf d s) = 525%nat /\
  take 12 (take 524 (sectorBuf d s)) = bytesAt (tags_ d) (tagBase d + 12 * s) 12 /\
  take 512 (drop 12 (take 524 (sectorBuf d s))) =
    bytesAt (image_ d) (trackBase d + 512 * s) 512.
Proof.
  intros Hd Hs. destruct (sectorBuf_parts d s Hd Hs) as (-> & Lt & Li).
  pose proof (ho_bytes d Hd) as [Bi Bt].
  pose proof (bytesAt_bytes _ (tagBase d + 12 * s) 12 Bt) as B1.
  pose proof (bytesAt_bytes _ (trackBase d + 512 * s) 512 Bi) as B2.
  set (a := bytesAt _ _ 12) in *. set (b := bytesAt _ _ 512) in *. clearbody a b.
  split_and!.
  - apply Forall_app_2; [done|]. apply Forall_app_2; [done|]. repeat constructor; unfold byte; lia.
  - rewrite !length_app, Lt, Li. done.
  - rewrite take_take. change (12 `min` 524)%nat with 12%nat. rewrite <- Lt. apply take_app_length.
  - rewrite app_assoc.
    rewrite (take_app_length' (a ++ b)) by (rewrite length_app, Lt, Li; done).
    rewrite drop_app_length' by done. apply take_ge. lia.
Qed.

(** A drive with the same geometry and head position. *)
Definition same_place (d e : SonyDrive) : Prop :=
  track_ e = track_ d /\ doubleSided_ e = doubleSided_ d /\ hd_ e = hd_ d.

Lemma same_offset d e t side s :
  same_place d e -> imageOffset e t side s = imageOffset d t side s.
Proof. intros (_ & Hd & Hh). unfold imageOffset. by rewrite Hd, Hh. Qed.

(** The scan so far: the sectors [todo] have been copied from [d]. *)
Record progress (d e0 : SonyDrive) (todo : list Z) (st : list Z * Z * SonyDrive) : Prop := {
  pr_done : st.1.1 = todo;
  pr_count : st.1.2 = Z.of_nat (length todo);
  pr_place : same_place d st.2;
  pr_wp : writeProtected_ st.2 = false;
  pr_image : merged 512 (trackBase d) (image_ d) (image_ e0) todo (image_ st.2);
  pr_tags : merged 12 (tagBase d) (tags_ d) (tags_ e0) todo (tags_ st.2)
}.

Lemma existsb_notin (s : Z) l : s ∉ l -> existsb (Z.eqb s) l = false.
Proof.
  intros H. apply not_true_is_false. intros E. apply existsb_exists in E as (x & Hx & Ex).
  apply Z.eqb_eq in Ex. subst x. apply H. by apply list_elem_of_In.
Qed.

(** Storing a sector succeeds when the image holds the track. *)
Lemma writeSector_run d e s data :
  holds d -> same_place d e -> writeProtected_ e = false ->
  0 <= s < sectorsInTrack (track_ d) ->
  trackBase d + 512 * s + 512 <= Z.of_nat (length (image_ e)) ->
  writeSector (track_ e) (sideOf (side1_ d)) s data e =
  (true, set_dirty true (set_image (putBlock (image_ e) (trackBase d + 512 * s) data) e)).
Proof.
  intros Hd Hp Hw Hs Hl. pose proof (ho_track d Hd). destruct (trackBase_blocks d Hd) as (q & Hq & Eq).
  unfold writeSector. rewrite Hw.
  assert (Hk : hasDisk e = true).
  { unfold hasDisk. rewrite bool_decide_eq_false_2; [done|]. intros E. rewrite E in Hl. cbn in Hl. lia. }
  rewrite Hk. cbn [negb orb]. destruct Hp as (Et & Es & Eh). rewrite Eh, (ho_hd d Hd), Et, Es.
  assert (Hside : (sideOf (side1_ d) <? 0) = false /\
                  ((if doubleSided_ d then 1 else 0) <? sideOf (side1_ d)) = false).
  { pose proof (ho_side d Hd) as Hsd. destruct (side1_ d); [rewrite Hsd by done|];
      cbn; split; try done. by destruct (doubleSided_ d). }
  destruct Hside as [-> ->].
  rewrite !(proj2 (Z.ltb_ge _ _)), (proj2 (Z.leb_gt _ _)) by lia. cbn [orb].
  rewrite (same_offset d e), imageOffset_sector by (done || apply Hd). fold (trackBase d).
  by rewrite (proj2 (Z.ltb_ge _ _)) by lia.
Qed.

Lemma commit_progress d e0 todo st s :
  holds d -> length (image_ e0) = length (image_ d) -> length (tags_ e0) = length (tags_ d) ->
  0 <= s < sectorsInTrack (track_ d) -> s ∉ todo -> progress d e0 todo st ->
  progress d e0 (todo ++ [s])
    (commitSector (side1_ d) s (take 524 (sectorBuf d s)) st).
Proof.
  intros Hd Hli Hlt Hs Hnew [P1 P2 P3 P4 P5 P6]. destruct st as [[done c] e].
  cbn [fst snd] in *. subst done c.
  destruct (sectorBuf_ok d s Hd Hs) as (_ & _ & Et & Ei).
  pose proof (ho_image d Hd). pose proof (ho_tags d Hd). fold (tagBase d) in *.
  destruct (trackBase_blocks d Hd) as (q & Hq & Eq).
  assert (Hb : 0 <= trackBase d) by lia.
  assert (Ht : 0 <= tagBase d) by (unfold tagBase; rewrite Eq, Z.div_mul; lia).
  destruct P5 as [L5 M5], P6 as [L6 M6].
  assert (Etag : imageOffset e (track_ e) (sideOf (side1_ d)) s / 512 * 12 = tagBase d + 12 * s).
  { rewrite (same_offset d e) by exact P3. rewrite (proj1 P3). by apply tag_offset. }
  unfold commitSector. rewrite existsb_notin by exact Hnew.
  rewrite Et, Ei, Etag, P4. cbn [negb andb]. rewrite (proj2 (Z.leb_le _ _)) by lia.
  set (e1 := set_tags _ e).
  rewrite (writeSector_run d e1) by (done || (change (image_ e1) with (image_ e); lia)).
  split; cbn [fst snd track_ writeProtected_ image_ tags_ set_dirty set_image set_tags e1].
  - done.
  - rewrite length_app. cbn. lia.
  - done.
  - exact P4.
  - apply (merged_put 512); try lia. by split.
  - apply (merged_put 12); try lia. by split.
Qed.

Lemma commits_progress d e0 sectors : forall todo st,
  holds d -> length (image_ e0) = length (image_ d) -> length (tags_ e0) = length (tags_ d) ->
  (forall s, s ∈ sectors -> 0 <= s < sectorsInTrack (track_ d)) -> NoDup (todo ++ sectors) ->
  progress d e0 todo st ->
  progress d e0 (todo ++ sectors)
    (foldl (fun st s => commitSector (side1_ d) s (take 524 (sectorBuf d s)) st) st sectors).
Proof.
  induction sectors as [|s sectors IH]; intros todo st Hd Hi Ht Hs Hn Hp.
  { by rewrite app_nil_r. }
  cbn [foldl]. replace (todo ++ s :: sectors) with ((todo ++ [s]) ++ sectors) in *
    by (by rewrite <- app_assoc).
  apply IH; try assumption; [intros q Hq; apply Hs; by right|].
  apply commit_progress; try assumption; [apply Hs; by left|].
  apply list.NoDup_app in Hn as (Hn & _).
  apply list.NoDup_app in Hn as (_ & Hn & _).
  intros Hin. apply (Hn s Hin). by left.
Qed.

Lemma merged_all n start a b c ns todo :
  0 < n -> (forall s, s ∈ todo <-> 0 <= s < ns) -> merged n start a b todo c ->
  forall k, 0 <= k ->
    rd c k = if (start <=? k) && (k <? start + n * ns) then rd a k else rd b k.
Proof.
  intros Hn Ht [_ Hm] k Hk. rewrite Hm by exact Hk.
  pose proof (Z.div_mod (k - start) n ltac:(lia)) as D.
  pose proof (Z.mod_pos_bound (k - start) n ltac:(lia)) as M.
  destruct (decide _) as [Hin|Hout]; rewrite Ht in *.
  - rewrite (proj2 (Z.leb_le _ _)), (proj2 (Z.ltb_lt _ _)) by nia. done.
  - destruct (Z.leb_spec start k), (Z.ltb_spec k (start + n * ns)); try done.
    exfalso. apply Hout. nia.
Qed.

(** The scan of an encoded track. *)
Lemma decode_encoded d e :
  holds d -> same_place d e -> writeProtected_ e = false ->
  length (image_ e) = length (image_ d) -> length (tags_ e) = length (tags_ d) ->
  let order := trackOrder (sectorsInTrack (track_ d)) in
  exists st, decodeGcrBytes (nibbles (encodeTrackGcr d)) (side1_ d) e = (st.1.2, st.2) /\
    progress d e order st.
Proof.
  intros Hd Hp Hw Hi Ht. cbv zeta.
  pose proof (zones (track_ d) (ho_track d Hd)) as Hz.
  destruct (trackOrder_all _ Hz) as [Hnd Hall].
  unfold decodeGcrBytes. rewrite Hw, (proj1 (proj2 Hp)).
  assert (Hside : side1_ d && negb (doubleSided_ d) = false).
  { pose proof (ho_side d Hd) as H. destruct (side1_ d); [by rewrite H|done]. }
  rewrite Hside. cbn [orb]. rewrite (proj1 Hp), track_nibbles.
  rewrite (scan_sectors (sectorsInTrack (track_ d)) (side1_ d) d) by
    (reflexivity || lia || (intros s Hs; apply Hall in Hs;
       destruct (sectorBuf_ok d s Hd Hs) as (H1 & H2 & _); auto)).
  pose proof (commits_progress d e (trackOrder (sectorsInTrack (track_ d))) [] ([], 0, e) Hd Hi Ht)
    as H. specialize (H (fun s Hs => proj1 (Hall s) Hs) Hnd).
  assert (H0 : progress d e [] ([], 0, e)) by (split; auto using merged_nil).
  specialize (H H0). cbn [app] in H.
  destruct (foldl _ _ _) as [[dn c] f]. exists (dn, c, f). by split.
Qed.

Lemma trackOrder_length ns : 0 <= ns -> Z.of_nat (length (trackOrder ns)) = ns.
Proof. intros Hn. unfold trackOrder. rewrite length_map, length_seqZ. lia. Qed.

Lemma bytesAt_ext a b off n :
  0 <= off -> (forall k, off <= k < off + Z.of_nat n -> rd a k = rd b k) ->
  bytesAt a off n = bytesAt b off n.
Proof.
  intros Ho H. apply list_eq. intros i.
  assert (E : forall l, bytesAt l off n !! i = rd (bytesAt l off n) (Z.of_nat i))
    by (intros l; unfold rd; rewrite (proj2 (Z.ltb_ge _ _)), Nat2Z.id by lia; done).
  rewrite !E, !bytesAt_rd by lia. destruct (Z.ltb_spec (Z.of_nat i) (Z.of_nat n)); [|done].
  apply H. lia.
Qed.

(** ** Properties *)

(** A sector survives the group code: whatever 525 bytes the buffer holds,
    decoding the 703 nibbles the encoder writes recovers the 12 tags and 512
    data bytes and accepts the checksum, whatever follows on the track; and
    none of the nibbles is a mark byte ([D5] or [AA]). *)
Theorem sector_roundtrip (buf rest : list Z)
  (Hb : Forall byte buf) (Hl : length buf = 525%nat) :
  decodeBuf (encodeBuf buf ++ rest) = Some (take 524 buf, rest) /\
  length (encodeBuf buf) = 703%nat /\
  Forall (fun v => v <> 0xD5 /\ v <> 0xAA) (encodeBuf buf).
Proof.
  destruct (encodeBuf_spec buf rest Hb Hl) as (E & Hd & Hn). split_and!; [exact E|exact Hn|].
  eapply Forall_impl; [|exact Hd]. intros v (_ & H1 & H2 & _). auto.
Qed.

Definition probeBuf : list Z := map (fun i => u8 (i * 7 + i / 3)) (seqZ 0 525).

Lemma probeBuf_ok : Forall byte probeBuf /\ length probeBuf = 525%nat.
Proof.
  split; [|vm_compute; reflexivity]. apply Forall_map, Forall_forall.
  intros i _. apply u8_range.
Qed.

Lemma sector_roundtrip_witness :
  decodeBuf (encodeBuf probeBuf ++ [0xDE; 0xAA]) = Some (take 524 probeBuf, [0xDE; 0xAA]).
Proof. apply sector_roundtrip; apply probeBuf_ok. Defined.

(** C5. A track survives the drive: reading the nibbles of an encoded track
    back through the field scan, on any disk of the same geometry that is not
    write protected, commits every sector of the track, makes its bytes and
    tags those of the source disk, whatever the interleave, and leaves every
    other byte and tag of the target disk as it was. *)
Theorem track_roundtrip (d e : SonyDrive)
  (Hd : holds d) (Hp : same_place d e) (Hw : writeProtected_ e = false)
  (Hi : length (image_ e) = length (image_ d)) (Ht : length (tags_ e) = length (tags_ d)) :
  let ns := sectorsInTrack (track_ d) in
  let '(committed, f) := decodeGcrBytes (nibbles (encodeTrackGcr d)) (side1_ d) e in
  committed = ns /\
  (forall k, 0 <= k ->
     rd (image_ f) k =
     if (trackBase d <=? k) && (k <? trackBase d + 512 * ns) then rd (image_ d) k
     else rd (image_ e) k) /\
  (forall k, 0 <= k ->
     rd (tags_ f) k =
     if (tagBase d <=? k) && (k <? tagBase d + 12 * ns) then rd (tags_ d) k
     else rd (tags_ e) k).
Proof.
  cbv zeta. destruct (decode_encoded d e Hd Hp Hw Hi Ht) as (st & -> & P).
  pose proof (zones (track_ d) (ho_track d Hd)) as Hz.
  destruct (trackOrder_all _ Hz) as [_ Hall]. split_and!.
  - rewrite (pr_count _ _ _ _ P). apply trackOrder_length. lia.
  - apply (merged_all 512 _ _ _ _ _ _ ltac:(lia) Hall (pr_image _ _ _ _ P)).
  - apply (merged_all 12 _ _ _ _ _ _ ltac:(lia) Hall (pr_tags _ _ _ _ P)).
Qed.

(** Two single-sided disks of one cylinder, one filled and one blank. *)
Definition probeDisk (v : Z) : SonyDrive :=
  mkDrive 0 false false false false (replicate (Z.to_nat 6144) v) (replicate (Z.to_nat 144) v)
    false.

Lemma probeDisk_holds v : byte v -> holds (probeDisk v).
Proof.
  intros Hv. split; unfold probeDisk; cbn [hd_ track_ side1_ doubleSided_ image_ tags_];
    rewrite ?length_replicate, ?Z2Nat.id by lia; try done; try lia.
  - unfold bytes_ok. split; by apply Forall_replicate.
Qed.

Lemma track_roundtrip_witness :
  exists c f,
    decodeGcrBytes (nibbles (encodeTrackGcr (probeDisk 0xE5))) false (probeDisk 0) = (c, f) /\
    c = 12 /\ rd (image_ f) 6000 = Some 0xE5.
Proof.
  pose proof (track_roundtrip (probeDisk 0xE5) (probeDisk 0)) as H.
  specialize (H (probeDisk_holds 0xE5 ltac:(unfold byte; lia))).
  specialize (H (conj eq_refl (conj eq_refl eq_refl)) eq_refl).
  unfold probeDisk at 1 2 3 4 in H. cbn [image_ tags_] in H.
  rewrite !length_replicate in H. specialize (H eq_refl eq_refl). cbv zeta in H.
  change (side1_ (probeDisk 0xE5)) with false in H.
  destruct (decodeGcrBytes _ false (probeDisk 0)) as [c f]. exists c, f.
  destruct H as (Hc & Hi & _). split; [reflexivity|]. split; [exact Hc|].
  rewrite Hi by lia. unfold probeDisk. cbn [image_]. vm_compute. reflexivity.
Defined.
