(* ===== verification/Dart.v ===== *)
(** * Dart: the compressed chunks of a DART archive

    [src/DartLzh.h] whole: the adaptive Huffman tree, the distance code, and
    the 4 KB window from which matches are copied.  An array is a list; a read
    or write outside one, and a loop that would not end, is [None].  A refusal
    of the code ([return false], the value -1) is a value.  [size_t]
    arithmetic wraps at 64 bits; the output block, which the code fills from
    the front, is the list of the bytes stored so far. *)

From S2P Require Import Prelude Vectors.
From stdpp Require Import base list numbers option decidable.

Open Scope Z_scope.

Module DartLzh.

Definition kSymbols : Z := 314.
Definition kNodes : Z := 627.
Definition kRoot : Z := 626.

Record Lzh := mkLzh {
  frequency_ : list Z;
  parent_ : list Z;
  child_ : list Z;
  bit_ : Z
}.

(** One turn of the second loop of the constructor, for the pair [i], [i+1]. *)
Definition joinPair (s : Lzh) (j : Z) : Lzh :=
  let i := 2 * (j - kSymbols) in
  mkLzh (wr (frequency_ s) j
           (u32 (default 0 (rd (frequency_ s) i) + default 0 (rd (frequency_ s) (i + 1)))))
        (wr (wr (parent_ s) (i + 1) j) i j)
        (wr (child_ s) j i) (bit_ s).

Definition leaf (s : Lzh) (i : Z) : Lzh :=
  mkLzh (wr (frequency_ s) i 1) (wr (parent_ s) (i + kNodes) i)
        (wr (child_ s) i (i + kNodes)) (bit_ s).

Definition newLzh : Lzh :=
  let s := mkLzh (replicate 628 0) (replicate 941 0) (replicate 627 0) 0 in
  let s := foldl leaf s (seqZ 0 kSymbols) in
  let s := foldl joinPair s (seqZ kSymbols (kRoot - kSymbols + 1)) in
  mkLzh (wr (frequency_ s) kNodes 0xFFFF) (parent_ s) (child_ s) (bit_ s).

Section Input.
Context (input : list Z).

Definition bit (s : Lzh) : Z * Lzh :=
  match rd input (bit_ s / 8) with
  | None => (-1, s)
  | Some b => ((b .>> (7 - bit_ s mod 8)) .& 1,
               mkLzh (frequency_ s) (parent_ s) (child_ s) (u64 (bit_ s + 1)))
  end.

(** [while (weight > frequency_[++other]) {}]. *)
Fixpoint scanUp (fuel : nat) (freq : list Z) (weight other : Z) : option Z :=
  match fuel with
  | O => None
  | S fuel =>
      f ← rd freq (other + 1);
      if f <? weight then scanUp fuel freq weight (other + 1) else Some (other + 1)
  end.

(** The parents of what hangs below a node: a leaf's slot, or both children. *)
Definition adopt (parent : list Z) (c node : Z) : option (list Z) :=
  parent ← store parent c node;
  if c <? kNodes then store parent (c + 1) node else Some parent.

(** [node] changes places with [other]. *)
Definition exchange (s : Lzh) (node other weight : Z) : option Lzh :=
  fo ← rd (frequency_ s) other;
  freq ← store (frequency_ s) node fo;
  freq ← store freq other weight;
  a ← rd (child_ s) node;
  b ← rd (child_ s) other;
  parent ← adopt (parent_ s) a other;
  parent ← adopt parent b node;
  child ← store (child_ s) other a;
  child ← store child node b;
  Some (mkLzh freq parent child (bit_ s)).

(** One turn of the loop of [update], without its test. *)
Definition promoteNode (s : Lzh) (node : Z) : option (Lzh * Z) :=
  f ← rd (frequency_ s) node;
  let weight := u32 (f + 1) in
  freq ← store (frequency_ s) node weight;
  let s := mkLzh freq (parent_ s) (child_ s) (bit_ s) in
  next ← rd freq (node + 1);
  if next <? weight then
    other ← scanUp 628 freq weight (node + 1);
    let other := other - 1 in
    s ← exchange s node other weight;
    Some (s, other)
  else Some (s, node).

Fixpoint updateLoop (fuel : nat) (s : Lzh) (node : Z) : option Lzh :=
  match fuel with
  | O => None
  | S fuel =>
      r ← promoteNode s node;
      let (s, node) := r : Lzh * Z in
      node ← rd (parent_ s) node;
      if node =? 0 then Some s else updateLoop fuel s node
  end.

Definition update (s : Lzh) (symbol : Z) : option Lzh :=
  node ← rd (parent_ s) (symbol + kNodes);
  updateLoop 627 s node.

(** The loop of [symbol]: -1 when the input ends. *)
Fixpoint walk (fuel : nat) (s : Lzh) (node : Z) : option (Z * Lzh) :=
  if node <? kNodes then
    match fuel with
    | O => None
    | S fuel =>
        let (value, s) := bit s in
        if value <? 0 then Some (-1, s) else
        node ← rd (child_ s) (node + value);
        walk fuel s node
    end
  else Some (node, s).

Definition symbol (s : Lzh) : option (Z * Lzh) :=
  node ← rd (child_ s) kRoot;
  r ← walk 627 s node;
  let (node, s) := r : Z * Lzh in
  if node <? 0 then Some (-1, s) else
  let node := node - kNodes in
  s ← update s node;
  Some (node, s).

Definition counts : list Z := [0; 0; 0; 1; 3; 8; 12; 24; 16].

(** [n] more bits below the value read so far. *)
Fixpoint lowBits (n : nat) (low : Z) (s : Lzh) : Z * Lzh :=
  match n with
  | O => (low, s)
  | S n =>
      let (next, s) := bit s in
      if next <? 0 then (-1, s) else lowBits n (low * 2 + next) s
  end.

Fixpoint distanceLoop (cs : list Z) (code first base : Z) (s : Lzh) : Z * Lzh :=
  match cs with
  | [] => (-1, s)
  | count :: cs =>
      let (value, s) := bit s in
      if value <? 0 then (-1, s) else
      let code := code * 2 + value in
      if (first <=? code) && (code <? first + count) then
        let (low, s) := lowBits 6 0 s in
        if low <? 0 then (-1, s) else ((base + code - first) * 64 + low, s)
      else distanceLoop cs code ((first + count) * 2) (base + count) s
  end.

Definition distance (s : Lzh) : Z * Lzh := distanceLoop (drop 1 counts) 0 0 0 s.

Definition kChunk : Z := 20960.

(** What [expand] keeps: the window, the head and the bytes produced. *)
Record Expand := mkExpand { window : list Z; head : Z; output : list Z }.

Definition emit (x : Expand) (b : Z) : option Expand :=
  window ← store (window x) (head x) b;
  if len (output x) <? kChunk
  then Some (mkExpand window ((head x + 1) .& 4095) (output x ++ [b])) else None.

Fixpoint copyMatch (n : nat) (source : Z) (x : Expand) : option Expand :=
  match n with
  | O => Some x
  | S n =>
      if len (output x) <? kChunk then
        b ← rd (window x) source;
        x ← emit x b;
        copyMatch n ((source + 1) .& 4095) x
      else Some x
  end.

(** [Some None]: the input ended or is malformed. *)
Fixpoint expandLoop (fuel : nat) (s : Lzh) (x : Expand) : option (option (list Z)) :=
  if len (output x) <? kChunk then
    match fuel with
    | O => None
    | S fuel =>
        r ← symbol s;
        let (value, s) := r : Z * Lzh in
        if value <? 0 then Some None else
        if value <? 256 then
          x ← emit x (u8 value);
          expandLoop fuel s x
        else
          let (offset, s) := distance s in
          if offset <? 0 then Some None else
          x ← copyMatch (Z.to_nat (value - 253)) (u64 (head x - offset - 1) .& 4095) x;
          expandLoop fuel s x
    end
  else Some (Some (output x)).

Definition Expand0 : Expand := mkExpand (replicate 4096 0) (4096 - 60) [].
Definition expand : option (option (list Z)) := expandLoop 20961 newLzh Expand0.
End Input.
End DartLzh.
