(* ===== verification/DartTreeFacts.v ===== *)
(** * DartTreeFacts: the adaptive Huffman tree

    The three arrays of [DartLzh] as functions: weights, first child, parent.
    [Tree n] is the invariant of [update] on its way up: nodes are sorted by
    weight, an inner node weighs as much as its two children, children stand
    below their parent, and only at [n] one count is still owed.  Promoting a
    node passes the debt to its parent; the root's is the end of the loop. *)

From S2P Require Import Prelude Vectors.
From S2P Require Import Dart.
From stdpp Require Import base list numbers option decidable.

Import DartLzh.
Open Scope Z_scope.

(** ** Arrays as functions *)

Definition at_ (l : list Z) (i : Z) : Z := default 0 (rd l i).

Lemma rd_at l i : 0 <= i < len l -> rd l i = Some (at_ l i).
Proof. intros H. unfold at_. destruct (rd_Some l i H) as [x ->]. done. Qed.

Lemma at_wr_eq l i v j : 0 <= i < len l -> 0 <= j -> at_ (wr l i v) j = if j =? i then v else at_ l j.
Proof. intros Hi Hj. unfold at_. rewrite rd_wr by done. by destruct (j =? i). Qed.

(** ** The invariant *)

Record Tree (n : Z) (f c p : Z -> Z) : Prop := {
  tr_pos : forall i, 0 <= i <= 626 -> 1 <= f i;
  tr_sorted : forall i, 0 <= i < 626 -> f i <= f (i + 1);
  tr_end : f 627 = 65535;
  tr_child : forall i, 0 <= i <= 626 ->
    0 <= c i /\ c i + 1 < i /\ p (c i) = i /\ p (c i + 1) = i \/
    627 <= c i < 941 /\ p (c i) = i;
  tr_node : forall j, 0 <= j < 626 ->
    j < p j <= 626 /\ (c (p j) = j \/ c (p j) + 1 = j);
  tr_symbol : forall j, 627 <= j < 941 -> 0 <= p j <= 626 /\ c (p j) = j;
  tr_root : p 626 = 0;
  tr_sum : forall i, 0 <= i <= 626 -> c i < 627 ->
    f i + (if i =? n then 1 else 0) = f (c i) + f (c i + 1)
}.

Section Tree.
Context {n : Z} {f c p : Z -> Z}.
Hypothesis T : Tree n f c p.

Lemma sorted_le i j : 0 <= i -> i <= j <= 626 -> f i <= f j.
Proof.
  intros Hi Hj. replace j with (i + Z.of_nat (Z.to_nat (j - i))) by lia.
  assert (Hb : i + Z.of_nat (Z.to_nat (j - i)) <= 626) by lia. revert Hb.
  induction (Z.to_nat (j - i)) as [|k IH]; intros Hb; [rewrite Z.add_0_r; lia|].
  pose proof (tr_sorted _ _ _ _ T (i + Z.of_nat k) ltac:(lia)).
  replace (i + Z.of_nat (S k)) with (i + Z.of_nat k + 1) by lia. lia.
Qed.

(** What weighs less stands below. *)
Lemma light_below i j : 0 <= i <= 626 -> 0 <= j <= 626 -> f i < f j -> i < j.
Proof. intros Hi Hj H. destruct (Z.lt_ge_cases i j); [done|]. pose proof (sorted_le j i). lia. Qed.

(** A parent that owes nothing outweighs each child. *)
Lemma parent_heavier j : 0 <= j < 626 -> p j <> n -> f j < f (p j).
Proof.
  intros Hj Hn. destruct (tr_node _ _ _ _ T j Hj) as [Hr Hc].
  destruct (tr_child _ _ _ _ T (p j) ltac:(lia)) as [(H0 & H1 & _)|[H _]]; [|lia].
  pose proof (tr_sum _ _ _ _ T (p j) ltac:(lia) ltac:(lia)) as Hs.
  rewrite (proj2 (Z.eqb_neq _ _) Hn) in Hs.
  pose proof (tr_pos _ _ _ _ T (c (p j)) ltac:(lia)).
  pose proof (tr_pos _ _ _ _ T (c (p j) + 1) ltac:(lia)).
  destruct Hc as [E|E];
    [replace (f j) with (f (c (p j))) by (by rewrite E)|replace (f j) with (f (c (p j) + 1)) by (by rewrite E)]; lia.
Qed.

(** ** Promoting a node in place *)

Lemma bump_tree f' : 0 <= n <= 626 -> f n + 1 <= f (n + 1) ->
  (forall j, 0 <= j -> f' j = if j =? n then f n + 1 else f j) ->
  Tree (if n =? 626 then -1 else p n) f' c p.
Proof.
  intros Hn Hnext Ef. destruct T as [H1 H2 H3 H4 H5 H6 H7 H8].
  split.
  - intros i Hi. rewrite Ef by lia. specialize (H1 i Hi). destruct (Z.eqb_spec i n); subst; lia.
  - intros i Hi. rewrite !Ef by lia. specialize (H2 i Hi).
    destruct (Z.eqb_spec i n), (Z.eqb_spec (i + 1) n); subst; lia.
  - rewrite Ef by lia. destruct (Z.eqb_spec 627 n); lia.
  - done.
  - done.
  - done.
  - done.
  - intros i Hi Hci. specialize (H8 i Hi Hci).
    destruct (H4 i Hi) as [(A0 & A1 & A2 & A3)|[A _]]; [|lia]. rewrite !Ef by lia.
    destruct (Z.eqb_spec i n) as [Ei|Hin].
    + subst i. destruct (Z.eqb_spec (c n) n); [lia|]. destruct (Z.eqb_spec (c n + 1) n); [lia|].
      destruct (Z.eqb_spec n (if n =? 626 then -1 else p n)) as [E|]; [|lia].
      destruct (Z.eqb_spec n 626); [lia|]. destruct (H5 n ltac:(lia)). lia.
    + destruct (Z.eqb_spec n 626) as [->|Hn6].
      * destruct (Z.eqb_spec (c i) 626); [lia|]. destruct (Z.eqb_spec (c i + 1) 626); [lia|].
        destruct (Z.eqb_spec i (-1)); lia.
      * destruct (H5 n ltac:(lia)) as [B1 B2].
        destruct (Z.eqb_spec (c i) n) as [E|Hc1].
        -- assert (p n = i) as -> by congruence. rewrite Z.eqb_refl.
           destruct (Z.eqb_spec (c i + 1) n); [lia|]. rewrite E in *. lia.
        -- destruct (Z.eqb_spec (c i + 1) n) as [E|Hc2].
           ++ assert (p n = i) as -> by congruence. rewrite Z.eqb_refl. rewrite E in *. lia.
           ++ destruct (Z.eqb_spec i (p n)) as [->|]; [lia|]. lia.
Qed.

(** ** Exchanging two nodes of the same weight *)

(** [j] hangs below a node whose child entry is [x]. *)
Definition under (x j : Z) : bool := (j =? x) || (x <? 627) && (j =? x + 1).

Lemma under_iff x j : under x j = true <-> j = x \/ x < 627 /\ j = x + 1.
Proof. unfold under. rewrite orb_true_iff, andb_true_iff, !Z.eqb_eq, Z.ltb_lt. done. Qed.

(** What hangs below [i] are the nodes whose parent is [i]. *)
Lemma under_parent i j : 0 <= i <= 626 -> under (c i) j = true -> p j = i.
Proof.
  intros Hi D%under_iff.
  destruct (tr_child _ _ _ _ T i Hi) as [(A0 & A1 & A2 & A3)|[A B]].
  - destruct D as [->|[_ ->]]; done.
  - destruct D as [->|[? _]]; [done|lia].
Qed.

Lemma parent_under j : 0 <= j < 626 \/ 627 <= j < 941 -> under (c (p j)) j = true.
Proof.
  intros Hj. apply under_iff.
  destruct Hj as [Hj|Hj].
  - destruct (tr_node _ _ _ _ T j Hj) as [_ [E|E]]; [by left|right; lia].
  - destruct (tr_symbol _ _ _ _ T j Hj) as [_ E]. by left.
Qed.

Section Swap.
Context (o : Z) (f' c' p' : Z -> Z).
Hypothesis Hn : 0 <= n < o.
Hypothesis Ho : o <= 626.
Hypothesis Heq : f o = f n.
Hypothesis Hnext : f n + 1 <= f (o + 1).
Hypothesis Ef : forall j, 0 <= j -> f' j = if j =? o then f n + 1 else f j.
Hypothesis Ec : forall j, 0 <= j -> c' j = if j =? n then c o else if j =? o then c n else c j.
Hypothesis Ep : forall j, 0 <= j ->
  p' j = if under (c o) j then n else if under (c n) j then o else p j.

(** The root is heavier than [n], and so is the parent of [n]. *)
Lemma swap_inner : o < 626 /\ o < p o /\ p n <> o.
Proof.
  destruct (tr_node _ _ _ _ T n ltac:(lia)) as [Hr _].
  assert (Hh : f n < f (p n)) by (apply (parent_heavier n); lia).
  assert (Hnp : p n <> o) by (intros E; rewrite E in Hh; lia).
  pose proof (sorted_le (p n) 626 ltac:(lia) ltac:(lia)).
  assert (o <> 626) by (intros ->; lia).
  destruct (tr_node _ _ _ _ T o ltac:(lia)). lia.
Qed.

(** The children of [o] weigh less than [n]. *)
Lemma swap_below : c o < 627 -> 0 <= c o /\ c o + 1 < n.
Proof.
  intros Hc. destruct (tr_child _ _ _ _ T o ltac:(lia)) as [(A0 & A1 & A2 & A3)|[A _]]; [|lia].
  pose proof (tr_sum _ _ _ _ T o ltac:(lia) Hc) as Hs.
  rewrite (proj2 (Z.eqb_neq o n)) in Hs by lia.
  pose proof (tr_pos _ _ _ _ T (c o) ltac:(lia)). pose proof (tr_pos _ _ _ _ T (c o + 1) ltac:(lia)).
  split; [lia|]. apply light_below; lia.
Qed.

(** Nobody but what hung below the two changes parents. *)
Lemma swap_parent j : 0 <= j <= 626 \/ 627 <= j < 941 -> p j <> n -> p j <> o -> p' j = p j.
Proof.
  intros Hj N1 N2. rewrite Ep by lia.
  destruct (under (c o) j) eqn:E1; [apply under_parent in E1; lia|].
  destruct (under (c n) j) eqn:E2; [apply under_parent in E2; lia|done].
Qed.

Lemma swap_adopt i j : 0 <= j -> (i = n \/ i = o) -> under (c i) j = true ->
  p' j = if i =? o then n else o.
Proof.
  intros Hj Hi Hu. rewrite Ep by done. destruct Hi as [->| ->].
  - rewrite (proj2 (Z.eqb_neq n o)) by lia. destruct (under (c o) j) eqn:E; [|by rewrite Hu].
    apply under_parent in E; [|lia]. apply under_parent in Hu; lia.
  - by rewrite Z.eqb_refl, Hu.
Qed.

Lemma swap_child i : 0 <= i <= 626 ->
  0 <= c' i /\ c' i + 1 < i /\ p' (c' i) = i /\ p' (c' i + 1) = i \/
  627 <= c' i < 941 /\ p' (c' i) = i.
Proof.
  intros Hi. rewrite Ec by lia. pose proof swap_below as Hb.
  destruct (Z.eqb_spec i n) as [Ei|Hin]; [|destruct (Z.eqb_spec i o) as [Ei|Hio]].
  - subst i. destruct (tr_child _ _ _ _ T o ltac:(lia)) as [(A0 & A1 & A2 & A3)|[A B]].
    + left. specialize (Hb ltac:(lia)).
      rewrite !(swap_adopt o) by (try (apply under_iff); lia || auto). rewrite Z.eqb_refl. lia.
    + right. rewrite (swap_adopt o) by (try (apply under_iff); lia || auto). rewrite Z.eqb_refl. lia.
  - subst i. destruct (tr_child _ _ _ _ T n ltac:(lia)) as [(A0 & A1 & A2 & A3)|[A B]].
    + left. rewrite !(swap_adopt n) by (try (apply under_iff); lia || auto).
      rewrite (proj2 (Z.eqb_neq n o)) by lia. lia.
    + right. rewrite (swap_adopt n) by (try (apply under_iff); lia || auto).
      rewrite (proj2 (Z.eqb_neq n o)) by lia. lia.
  - destruct (tr_child _ _ _ _ T i Hi) as [(A0 & A1 & A2 & A3)|[A B]].
    + left. rewrite !swap_parent by lia. lia.
    + right. rewrite swap_parent by lia. lia.
Qed.

(** Where a node hangs afterwards. *)
Lemma swap_home j : 0 <= j < 626 \/ 627 <= j < 941 ->
  (p j = n /\ p' j = o \/ p j = o /\ p' j = n \/ p j <> n /\ p j <> o /\ p' j = p j) /\ c' (p' j) = c (p j).
Proof.
  intros Hj. assert (Hu := parent_under j Hj).
  destruct (Z.eq_dec (p j) n) as [E|N1]; [|destruct (Z.eq_dec (p j) o) as [E|N2]].
  - rewrite E in Hu. assert (P := swap_adopt n j ltac:(lia) (or_introl eq_refl) Hu).
    rewrite (proj2 (Z.eqb_neq n o)) in P by lia. rewrite P, E. split; [auto|].
    rewrite Ec by lia. rewrite (proj2 (Z.eqb_neq o n)), Z.eqb_refl by lia. done.
  - rewrite E in Hu. assert (P := swap_adopt o j ltac:(lia) (or_intror eq_refl) Hu).
    rewrite Z.eqb_refl in P. rewrite P, E. split; [auto|]. rewrite Ec by lia. by rewrite Z.eqb_refl.
  - assert (P := swap_parent j ltac:(lia) N1 N2). rewrite P. split; [auto|].
    assert (0 <= p j).
    { destruct Hj as [Hj|Hj]; [destruct (tr_node _ _ _ _ T j Hj)|destruct (tr_symbol _ _ _ _ T j Hj)]; lia. }
    rewrite Ec by lia. by rewrite (proj2 (Z.eqb_neq _ n)), (proj2 (Z.eqb_neq _ o)) by lia.
Qed.

Lemma swap_sum i : 0 <= i <= 626 -> c' i < 627 ->
  f' i + (if i =? p o then 1 else 0) = f' (c' i) + f' (c' i + 1).
Proof.
  intros Hi. rewrite Ec by lia. destruct swap_inner as (I1 & I2 & I3). pose proof swap_below as Hb.
  destruct (Z.eqb_spec i n) as [Ei|Hin]; [|destruct (Z.eqb_spec i o) as [Ei|Hio]]; intros Hc.
  - subst i. specialize (Hb Hc). rewrite !Ef by lia.
    rewrite !(proj2 (Z.eqb_neq _ o)), (proj2 (Z.eqb_neq n (p o))) by lia.
    pose proof (tr_sum _ _ _ _ T o ltac:(lia) Hc) as Hs. rewrite (proj2 (Z.eqb_neq o n)) in Hs by lia. lia.
  - subst i. destruct (tr_child _ _ _ _ T n ltac:(lia)) as [(A0 & A1 & _)|[A _]]; [|lia]. rewrite !Ef by lia.
    rewrite Z.eqb_refl, !(proj2 (Z.eqb_neq _ o)), (proj2 (Z.eqb_neq o (p o))) by lia.
    pose proof (tr_sum _ _ _ _ T n ltac:(lia) Hc) as Hs. rewrite Z.eqb_refl in Hs. lia.
  - destruct (tr_child _ _ _ _ T i Hi) as [(A0 & A1 & A2 & A3)|[A _]]; [|lia]. rewrite !Ef by lia.
    pose proof (tr_sum _ _ _ _ T i Hi Hc) as Hs. rewrite (proj2 (Z.eqb_neq i n)) in Hs by lia.
    rewrite (proj2 (Z.eqb_neq i o)) by lia.
    destruct (tr_node _ _ _ _ T o ltac:(lia)) as [_ Ho'].
    destruct (Z.eqb_spec i (p o)) as [Eip|Nip].
    + rewrite <- Eip in Ho'. destruct Ho' as [E|E].
      * rewrite E, Z.eqb_refl, (proj2 (Z.eqb_neq (o + 1) o)) by lia. rewrite E in Hs. lia.
      * rewrite (proj2 (Z.eqb_neq (c i) o)) by lia. rewrite E, Z.eqb_refl. rewrite E in Hs. lia.
    + destruct (Z.eqb_spec (c i) o); [congruence|]. destruct (Z.eqb_spec (c i + 1) o); [congruence|]. lia.
Qed.

(** The debt of [n], promoted to [o], is now its parent's. *)
Lemma swap_tree : Tree (p o) f' c' p' /\ p' o = p o /\ o < 626.
Proof.
  destruct swap_inner as (I1 & I2 & I3).
  assert (Hpo : p' o = p o) by (apply swap_parent; lia).
  split; [|done]. destruct T as [H1 H2 H3 H4 H5 H6 H7 H8]. split.
  - intros i Hi. rewrite Ef by lia. specialize (H1 i Hi). destruct (Z.eqb_spec i o); [|lia].
    pose proof (tr_pos _ _ _ _ T n ltac:(lia)). lia.
  - intros i Hi. rewrite !Ef by lia. specialize (H2 i Hi).
    destruct (Z.eqb_spec i o) as [Ei|]; destruct (Z.eqb_spec (i + 1) o) as [Ej|]; try lia.
    + subst i. lia.
    + assert (f (i + 1) = f n) by (by rewrite Ej). lia.
  - rewrite Ef by lia. rewrite (proj2 (Z.eqb_neq 627 o)) by lia. done.
  - apply swap_child.
  - intros j Hj. destruct (swap_home j (or_introl Hj)) as [Hp Hc]. rewrite Hc.
    destruct (H5 j Hj) as [Hr Hcj]. split; [|done].
    destruct Hp as [[E ->]|[[E ->]|(_ & _ & ->)]]; try lia.
    assert (Hco : c o < 627) by (rewrite <- E; lia). pose proof (swap_below Hco). rewrite E in Hcj. lia.
  - intros j Hj. destruct (swap_home j (or_intror Hj)) as [Hp Hc]. rewrite Hc.
    destruct (H6 j Hj) as [Hr Hcj]. split; [lia|done].
  - assert (Hno : forall i, 0 <= i < 626 -> under (c i) 626 = false).
    { intros i Hi. destruct (under (c i) 626) eqn:E; [|done]. apply under_iff in E.
      destruct (H4 i ltac:(lia)) as [(? & ? & _)|[? _]]; lia. }
    rewrite Ep, !Hno by lia. done.
  - apply swap_sum.
Qed.
End Swap.
End Tree.

(** ** The arrays *)

Record Lists (s : Lzh) : Prop := {
  ls_freq : len (frequency_ s) = 628;
  ls_parent : len (parent_ s) = 941;
  ls_child : len (child_ s) = 627
}.

Definition treeOf (n : Z) (s : Lzh) : Prop :=
  Tree n (at_ (frequency_ s)) (at_ (child_ s)) (at_ (parent_ s)).

Definition weight (s : Lzh) : Z := at_ (frequency_ s) kRoot.

Lemma adopt_ok parent c node : len parent = 941 -> 0 <= c < 941 ->
  exists parent', adopt parent c node = Some parent' /\ len parent' = 941 /\
    forall j, 0 <= j -> at_ parent' j = if under c j then node else at_ parent j.
Proof.
  intros Hl Hc. unfold adopt, under, kNodes. rewrite store_ok by lia. cbn.
  destruct (Z.ltb_spec c 627).
  - rewrite store_ok by (rewrite len_wr; lia). eexists. split; [done|]. rewrite !len_wr. split; [done|].
    intros j Hj. rewrite at_wr_eq by (rewrite ?len_wr; lia). rewrite at_wr_eq by lia.
    by destruct (j =? c), (j =? c + 1).
  - eexists. split; [done|]. rewrite len_wr. split; [done|].
    intros j Hj. rewrite at_wr_eq by lia. by destruct (j =? c).
Qed.

Lemma exchange_ok s n o w : Lists s -> 0 <= n < o -> o <= 626 ->
  0 <= at_ (child_ s) n < 941 -> 0 <= at_ (child_ s) o < 941 ->
  exists s', exchange s n o w = Some s' /\ Lists s' /\ bit_ s' = bit_ s /\
    (forall j, 0 <= j -> at_ (frequency_ s') j =
       if j =? o then w else if j =? n then at_ (frequency_ s) o else at_ (frequency_ s) j) /\
    (forall j, 0 <= j -> at_ (child_ s') j =
       if j =? n then at_ (child_ s) o else if j =? o then at_ (child_ s) n else at_ (child_ s) j) /\
    (forall j, 0 <= j -> at_ (parent_ s') j =
       if under (at_ (child_ s) o) j then n else if under (at_ (child_ s) n) j then o
       else at_ (parent_ s) j).
Proof.
  intros [L1 L2 L3] Hn Ho Hc1 Hc2. unfold exchange.
  rewrite (rd_at (frequency_ s)) by lia. cbn. rewrite !store_ok by (rewrite ?len_wr; lia). cbn.
  rewrite store_ok by (rewrite len_wr; lia). cbn. rewrite !(rd_at (child_ s)) by lia. cbn.
  destruct (adopt_ok (parent_ s) (at_ (child_ s) n) o L2 Hc1) as (p1 & -> & P1 & Q1). cbn.
  destruct (adopt_ok p1 (at_ (child_ s) o) n P1 Hc2) as (p2 & -> & P2 & Q2). cbn.
  rewrite !store_ok by (rewrite ?len_wr; lia). cbn. rewrite store_ok by (rewrite len_wr; lia).
  eexists. split; [done|]. cbn. split; [by split; cbn; rewrite ?len_wr|]. split; [done|].
  split; [|split]; intros j Hj.
  - rewrite !at_wr_eq by (rewrite ?len_wr; lia). done.
  - rewrite !at_wr_eq by (rewrite ?len_wr; lia). done.
  - by rewrite Q2, Q1.
Qed.

(** The scan ends before the sentinel. *)
Lemma scanUp_ok freq w k : len freq = 628 -> at_ freq 627 >= w -> forall other,
  0 <= other <= 626 -> 627 - other <= Z.of_nat k ->
  exists o, scanUp k freq w other = Some (o + 1) /\ other <= o <= 626 /\ w <= at_ freq (o + 1) /\
    forall j, other < j <= o -> at_ freq j < w.
Proof.
  intros Hl He. induction k as [|k IH]; intros other Ho Hk; [lia|]. cbn [scanUp].
  rewrite rd_at by lia. cbn. destruct (Z.ltb_spec (at_ freq (other + 1)) w) as [Hw|Hw].
  - assert (other <> 626) by (intros ->; change (626 + 1) with 627 in *; lia).
    destruct (IH (other + 1) ltac:(lia) ltac:(lia)) as (o & E & Hr & H1 & H2).
    exists o. split; [done|]. split; [lia|]. split; [done|]. intros j Hj.
    destruct (Z.eq_dec j (other + 1)) as [->|]; [done|apply H2; lia].
  - exists other. split; [done|]. split; [lia|]. split; [done|]. lia.
Qed.

Lemma promoteNode_ok s n : Lists s -> treeOf n s -> 0 <= n <= 626 -> weight s + 1 < 65535 ->
  exists s' m, promoteNode s n = Some (s', m) /\ Lists s' /\ bit_ s' = bit_ s /\
    n <= m <= 626 /\ (m = 626 -> n = 626) /\
    treeOf (if m =? 626 then -1 else at_ (parent_ s') m) s' /\
    weight s' = weight s + (if m =? 626 then 1 else 0).
Proof.
  intros HL T Hn Hw. destruct (HL) as [L1 L2 L3]. unfold promoteNode, weight, kRoot in *.
  set (f := at_ (frequency_ s)) in *.
  assert (Hf : 1 <= f n <= f 626) 
    by (split; [by apply (tr_pos _ _ _ _ T)|apply (sorted_le T); lia]).
  rewrite rd_at by lia. fold f. bnd. rewrite store_ok by lia. bnd. rewrite (u32_small (f n + 1)) by lia.
  rewrite rd_at by (rewrite len_wr; lia). bnd. rewrite at_wr_eq by lia. fold f.
  rewrite (proj2 (Z.eqb_neq (n + 1) n)) by lia.
  set (fr := wr (frequency_ s) n (f n + 1)).
  assert (Efr : forall j, 0 <= j -> at_ fr j = if j =? n then f n + 1 else f j)
    by (intros j Hj; unfold fr; by rewrite at_wr_eq by lia).
  assert (Lfr : len fr = 628) by (unfold fr; by rewrite len_wr).
  destruct (Z.ltb_spec (f (n + 1)) (f n + 1)) as [Hlt|Hge].
  - assert (n <> 626) by (intros ->; change (626 + 1) with 627 in *; pose proof (tr_end _ _ _ _ T); unfold f in *; lia).
    destruct (scanUp_ok fr (f n + 1) 628 Lfr) with (other := n + 1) as (o & -> & Hr & H1 & H2).
    { rewrite Efr, (proj2 (Z.eqb_neq 627 n)) by lia. pose proof (tr_end _ _ _ _ T). unfold f in *. lia. }
    { lia. } { lia. }
    bnd. replace (o + 1 - 1) with o by lia.
    set (s1 := mkLzh fr (parent_ s) (child_ s) (bit_ s)).
    assert (Hcr : forall i, 0 <= i <= 626 -> 0 <= at_ (child_ s) i < 941).
    { intros i Hi. destruct (tr_child _ _ _ _ T i Hi); lia. }
    destruct (exchange_ok s1 n o (f n + 1)) as (s' & -> & HL' & Eb & Ef & Ec & Ep);
      [by split|lia|lia|by apply Hcr; lia|by apply Hcr; lia|]. cbn [frequency_ child_ parent_ s1] in *.
    bnd. exists s', o. split; [done|]. split; [done|]. split; [done|]. split; [lia|].
    assert (Hle : f o <= f n).
    { destruct (Z.eq_dec o (n + 1)) as [->|]; [lia|]. specialize (H2 o ltac:(lia)).
      rewrite Efr, (proj2 (Z.eqb_neq o n)) in H2 by lia. lia. }
    assert (Heq : f o = f n) by (pose proof (sorted_le T n o ltac:(lia) ltac:(lia)); unfold f in *; lia).
    assert (Hnext : f n + 1 <= f (o + 1)) by (rewrite Efr, (proj2 (Z.eqb_neq (o + 1) n)) in H1 by lia; done).
    assert (Ef' : forall j, 0 <= j -> at_ (frequency_ s') j = if j =? o then f n + 1 else f j).
    { intros j Hj. rewrite Ef by done. rewrite !Efr by lia. rewrite (proj2 (Z.eqb_neq o n)) by lia.
      destruct (Z.eqb_spec j o); [done|]. destruct (Z.eqb_spec j n) as [->|]; done. }
    assert (Hno : 0 <= n < o) by lia. destruct (swap_tree T o _ _ _ Hno (proj2 Hr) Heq Hnext Ef' Ec Ep) as (T' & Epo & I1).
    rewrite (proj2 (Z.eqb_neq o 626)), Epo by lia. split; [lia|]. split; [exact T'|].
    rewrite Ef', (proj2 (Z.eqb_neq 626 o)) by lia. unfold f. lia.
  - exists (mkLzh fr (parent_ s) (child_ s) (bit_ s)), n. split; [done|]. split; [by split|].
    split; [done|]. split; [lia|]. split; [done|]. split.
    + exact (bump_tree T (at_ fr) Hn Hge Efr).
    + cbn [frequency_]. rewrite Efr by lia. destruct (Z.eqb_spec 626 n), (Z.eqb_spec n 626); subst; lia.
Qed.

(** [update] counts the symbol once along its path and ends at the root. *)
Lemma updateLoop_ok k : forall s n, Lists s -> treeOf n s -> 0 <= n <= 626 -> weight s + 1 < 65535 ->
  627 - n <= Z.of_nat k ->
  exists s', updateLoop k s n = Some s' /\ Lists s' /\ treeOf (-1) s' /\ bit_ s' = bit_ s /\
    weight s' = weight s + 1.
Proof.
  induction k as [|k IH]; intros s n HL T Hn Hw Hk; [lia|]. cbn [updateLoop].
  destruct (promoteNode_ok s n HL T Hn Hw) as (s1 & m & -> & HL1 & Eb & Hm & Hroot & T1 & Ew). bnd.
  rewrite rd_at by (rewrite (ls_parent _ HL1); lia). bnd.
  revert T1 Ew. destruct (Z.eqb_spec m 626) as [->|Hm6]; intros T1 Ew.
  - rewrite (tr_root _ _ _ _ T1). bnd. exists s1. done.
  - destruct (tr_node _ _ _ _ T1 m ltac:(lia)) as [Hp _].
    rewrite (proj2 (Z.eqb_neq _ 0)) by lia.
    destruct (IH s1 (at_ (parent_ s1) m)) as (s' & -> & HL' & T' & Eb' & Ew'); [done|done|lia|lia|lia|].
    exists s'. split; [done|]. split; [done|]. split; [done|]. split; [congruence|lia].
Qed.

Lemma leaf_pending s n : treeOf (-1) s -> 0 <= n <= 626 -> 627 <= at_ (child_ s) n -> treeOf n s.
Proof.
  intros [H1 H2 H3 H4 H5 H6 H7 H8] Hn Hc. split; try done. intros i Hi Hci.
  rewrite (proj2 (Z.eqb_neq i n)) by (intros ->; lia). specialize (H8 i Hi Hci).
  by rewrite (proj2 (Z.eqb_neq i (-1))) in H8 by lia.
Qed.

Lemma update_ok s k : Lists s -> treeOf (-1) s -> 0 <= k < 314 -> weight s + 1 < 65535 ->
  exists s', update s k = Some s' /\ Lists s' /\ treeOf (-1) s' /\ bit_ s' = bit_ s /\
    weight s' = weight s + 1.
Proof.
  intros HL T Hk Hw. unfold update, kNodes. rewrite rd_at by (rewrite (ls_parent _ HL); lia). bnd.
  destruct (tr_symbol _ _ _ _ T (k + 627) ltac:(lia)) as [Hp Hc].
  apply updateLoop_ok; [done| |lia|done|lia]. apply leaf_pending; [done|lia|lia].
Qed.
