(* ===== verification/DartFacts.v ===== *)
(** * DartFacts: the decoder of a compressed chunk

    [expand] is total on every input: no array is left, no loop runs on, and
    what it produces is 20960 bytes or a refusal.  Against an encoder for any
    sequence of literals and matches it is exact: it returns what the matches
    mean on the history of the output, of which the window is the last 4096
    bytes. *)

From S2P Require Import Prelude Vectors.
From S2P Require Import Dart.
From S2P Require Import DartTreeFacts.
From stdpp Require Import base list numbers option decidable.

Import DartLzh.
Open Scope Z_scope.

(** ** The new tree *)

Definition tree0 : Lzh := Eval vm_compute in newLzh.
Lemma tree0_eq : newLzh = tree0.
Proof. vm_compute. reflexivity. Qed.

Definition checkNode (i : Z) : bool :=
  let f := at_ (frequency_ tree0) in
  let c := at_ (child_ tree0) in
  let p := at_ (parent_ tree0) in
  (1 <=? f i) && ((i =? 626) || (f i <=? f (i + 1))) &&
  ((0 <=? c i) && (c i + 1 <? i) && (p (c i) =? i) && (p (c i + 1) =? i) &&
   (f i =? f (c i) + f (c i + 1)) ||
   (627 <=? c i) && (c i <? 941) && (p (c i) =? i)) &&
  ((i =? 626) || (i <? p i) && (p i <=? 626) && ((c (p i) =? i) || (c (p i) + 1 =? i))).

Definition checkSymbol (k : Z) : bool :=
  let p := at_ (parent_ tree0) in
  let j := k + 627 in
  (0 <=? p j) && (p j <=? 626) && (at_ (child_ tree0) (p j) =? j).

Lemma tree0_tree : treeOf (-1) tree0.
Proof.
  assert (N : forallb checkNode (seqZ 0 627) = true) by (vm_compute; reflexivity).
  assert (S : forallb checkSymbol (seqZ 0 314) = true) by (vm_compute; reflexivity).
  rewrite forallb_forall in N, S.
  assert (HN : forall i, 0 <= i <= 626 -> checkNode i = true)
    by (intros i Hi; apply N, list_elem_of_In, elem_of_seqZ; lia).
  assert (HS : forall i, 0 <= i < 314 -> checkSymbol i = true)
    by (intros i Hi; apply S, list_elem_of_In, elem_of_seqZ; lia).
  clear N S. unfold checkNode, checkSymbol in *. unfold treeOf.
  assert (E1 : at_ (frequency_ tree0) 627 = 65535) by reflexivity.
  assert (E2 : at_ (parent_ tree0) 626 = 0) by reflexivity.
  revert HN HS E1 E2. generalize (at_ (frequency_ tree0)), (at_ (child_ tree0)), (at_ (parent_ tree0)).
  intros f c p HN HS E1 E2. split; try done.
  - intros i Hi. specialize (HN i Hi). unbool. lia.
  - intros i Hi. specialize (HN i ltac:(lia)). unbool. lia.
  - intros i Hi. specialize (HN i Hi). unbool; lia.
  - intros j Hj. specialize (HN j ltac:(lia)). unbool; lia.
  - intros j Hj. specialize (HS (j - 627) ltac:(lia)). replace (j - 627 + 627) with j in HS by lia. unbool. lia.
  - intros i Hi Hc. specialize (HN i Hi). rewrite (proj2 (Z.eqb_neq i (-1))) by lia. unbool; lia.
Qed.

(** ** Reading a symbol *)

(** What every step keeps: the tree, with room for one more count. *)
Record Good (k : Z) (s : Lzh) : Prop := {
  gd_lists : Lists s;
  gd_tree : treeOf (-1) s;
  gd_weight : weight s <= 314 + k
}.

Definition sameTree (s s' : Lzh) : Prop :=
  frequency_ s' = frequency_ s /\ parent_ s' = parent_ s /\ child_ s' = child_ s.

Lemma sameTree_refl s : sameTree s s.
Proof. by repeat split. Qed.
#[local] Hint Resolve sameTree_refl : core.

Lemma sameTree_trans s1 s2 s3 : sameTree s1 s2 -> sameTree s2 s3 -> sameTree s1 s3.
Proof. intros (? & ? & ?) (? & ? & ?). unfold sameTree. split; [congruence|split; congruence]. Qed.

Lemma Good_same k s s' : sameTree s s' -> Good k s -> Good k s'.
Proof.
  intros (E1 & E2 & E3) [[L1 L2 L3] T W]. unfold treeOf, weight in *.
  split; [split; congruence|unfold treeOf|unfold weight]; by rewrite ?E1, ?E2, ?E3.
Qed.

Lemma Good_mono k k' s : k <= k' -> Good k s -> Good k' s.
Proof. intros H [HL T W]. split; [done|done|lia]. Qed.

Lemma new_good : Good 0 newLzh.
Proof. rewrite tree0_eq. split; [by split|apply tree0_tree|vm_compute; discriminate]. Qed.

Section Input.
Context (input : list Z).
Notation bit := (bit input).

Lemma bit_cases s v s' : bit s = (v, s') -> (v = -1 \/ v = 0 \/ v = 1) /\ sameTree s s'.
Proof.
  unfold DartLzh.bit. destruct (rd input _) as [b|]; intros [= <- <-]; [|by auto].
  split; [|done]. right. rewrite land_1_mod. pose proof (Z.mod_pos_bound (b .>> (7 - bit_ s mod 8)) 2). lia.
Qed.

(** Going down: every child entry is a leaf's, or a pair further down. *)
Lemma walk_ok k fuel : forall s node, Good k s ->
  0 <= node <= 625 /\ node < Z.of_nat fuel \/ 627 <= node < 941 ->
  exists v s', walk input fuel s node = Some (v, s') /\ (v = -1 \/ 627 <= v < 941) /\ sameTree s s'.
Proof.
  assert (Leaf : forall fuel s node, 627 <= node < 941 ->
    exists v s', walk input fuel s node = Some (v, s') /\ (v = -1 \/ 627 <= v < 941) /\ sameTree s s').
  { intros [|fuel'] s node Hn; cbn [walk]; unfold kNodes; rewrite (proj2 (Z.ltb_ge node 627)) by lia;
      exists node, s; (split; [done|split; [by right|done]]). }
  induction fuel as [|fuel IH]; intros s node G [Hn|Hn]; [lia|by apply Leaf| |by apply Leaf].
  cbn [walk]. unfold kNodes at 1. rewrite (proj2 (Z.ltb_lt node 627)) by lia.
  destruct (bit s) as [v s1] eqn:Eb. apply bit_cases in Eb as [Hv S1].
  destruct (Z.ltb_spec v 0); [exists (-1), s1; by auto|].
  assert (G1 := Good_same k s s1 S1 G). destruct (G1) as [[_ _ Lc] T _].
  rewrite rd_at by lia. bnd.
  destruct (IH s1 (at_ (child_ s1) (node + v)) G1) as (w & s2 & -> & Hw & S2).
  { destruct (tr_child _ _ _ _ T (node + v) ltac:(lia)); lia. }
  exists w, s2. split; [done|]. split; [done|]. by eapply sameTree_trans.
Qed.

Lemma symbol_ok k s : Good k s -> 0 <= k < 65000 ->
  exists v s', symbol input s = Some (v, s') /\ -1 <= v < 314 /\ Good (k + 1) s'.
Proof.
  intros G Hk. unfold symbol, kRoot. destruct (G) as [[_ _ Lc] T W].
  rewrite rd_at by lia. bnd.
  destruct (walk_ok k 627 s (at_ (child_ s) 626) G) as (v & s1 & -> & Hv & S1).
  { destruct (tr_child _ _ _ _ T 626 ltac:(lia)); lia. }
  bnd. assert (G1 := Good_same k s s1 S1 G). unfold kNodes.
  destruct (Z.ltb_spec v 0); [exists (-1), s1; split; [done|]; split; [lia|]; apply (Good_mono k); [lia|done]|].
  destruct G1 as [L1 T1 W1].
  destruct (update_ok s1 (v - 627) L1 T1) as (s2 & -> & L2 & T2 & _ & W2); [lia|lia|].
  bnd. exists (v - 627), s2. split; [done|]. split; [lia|]. split; [done|done|lia].
Qed.

Lemma lowBits_ok n : forall low s v s', 0 <= low -> lowBits input n low s = (v, s') ->
  sameTree s s' /\ (v = -1 \/ low * 2 ^ Z.of_nat n <= v < (low + 1) * 2 ^ Z.of_nat n).
Proof.
  induction n as [|n IH]; intros low s v s' Hl; cbn [lowBits].
  - intros [= <- <-]. split; [done|lia].
  - destruct (bit s) as [b s1] eqn:Eb. apply bit_cases in Eb as [Hb S1].
    destruct (Z.ltb_spec b 0); [intros [= <- <-]; by auto|].
    intros E. apply IH in E as [S2 Hv]; [|lia]. split; [by eapply sameTree_trans|].
    rewrite Nat2Z.inj_succ, Z.pow_succ_r by lia. pose proof (Z.pow_pos_nonneg 2 (Z.of_nat n)). nia.
Qed.

Lemma distanceLoop_ok cs : forall code first base s v s', 0 <= base -> base + foldr Z.add 0 cs <= 64 ->
  Forall (Z.le 0) cs ->
  distanceLoop input cs code first base s = (v, s') -> sameTree s s' /\ -1 <= v < 4096.
Proof.
  induction cs as [|count cs IH]; intros code first base s v s' Hb Hs Hc; cbn [distanceLoop].
  - intros [= <- <-]. split; [done|lia].
  - apply Forall_cons_1 in Hc as [Hc0 Hc]. cbn in Hs.
    assert (0 <= foldr Z.add 0 cs) by (clear -Hc; induction Hc; cbn; lia).
    destruct (bit s) as [b s1] eqn:Eb. apply bit_cases in Eb as [Hv S1].
    destruct (Z.ltb_spec b 0); [intros [= <- <-]; split; [done|lia]|].
    destruct ((_ <=? _) && _) eqn:Er.
    + destruct (lowBits input 6 0 s1) as [low s2] eqn:El. apply lowBits_ok in El as [S2 Hl]; [|lia].
      assert (S : sameTree s s2) by (by eapply sameTree_trans). unbool.
      destruct (Z.ltb_spec low 0); intros [= <- <-]; (split; [done|]); [lia|].
      change (2 ^ Z.of_nat 6) with 64 in Hl. lia.
    + intros E. apply IH in E as [S2 Hr]; [|lia|lia|done]. split; [by eapply sameTree_trans|done].
Qed.

Lemma distance_ok s v s' : distance input s = (v, s') -> sameTree s s' /\ -1 <= v < 4096.
Proof.
  unfold distance. apply distanceLoop_ok; [done|cbn; lia|]. by repeat constructor.
Qed.

(** ** The output *)

Record Frame (x : Expand) : Prop := {
  fm_window : len (window x) = 4096;
  fm_bytes : Forall byte (window x);
  fm_head : 0 <= head x < 4096;
  fm_output : Forall byte (output x);
  fm_len : len (output x) <= kChunk
}.

Lemma ring_range x : 0 <= x .& 4095 < 4096.
Proof. change 4095 with (2 ^ 12 - 1). rewrite land_mask_mod by lia. by apply Z.mod_pos_bound. Qed.

Lemma emit_ok x b : Frame x -> byte b -> len (output x) < kChunk ->
  exists x', emit x b = Some x' /\ Frame x' /\ output x' = output x ++ [b] /\
    window x' = wr (window x) (head x) b /\ head x' = (head x + 1) .& 4095.
Proof.
  intros [W B H O L] Hb Hl. unfold emit. rewrite store_ok by lia. bnd.
  rewrite (proj2 (Z.ltb_lt _ _) Hl). eexists. split; [done|]. cbn. split; [|done].
  split; cbn; [by rewrite len_wr|by apply wr_Forall|apply ring_range| |rewrite len_snoc; lia].
  apply Forall_app. split; [done|]. by constructor.
Qed.

Lemma copyMatch_ok n : forall source x, Frame x -> 0 <= source < 4096 ->
  exists x', copyMatch n source x = Some x' /\ Frame x' /\
    len (output x) <= len (output x') /\
    ((0 < n)%nat -> len (output x) < kChunk -> len (output x) < len (output x')).
Proof.
  induction n as [|n IH]; intros source x F Hs; cbn [copyMatch].
  { exists x. split; [done|]. split; [done|]. split; [lia|]. lia. }
  destruct (Z.ltb_spec (len (output x)) kChunk); [|exists x; split; [done|]; split; [done|]; lia].
  destruct (rd_Some (window x) source) as [b Hb]; [by rewrite <- (fm_window _ F) in Hs|].
  rewrite Hb. bnd. destruct (emit_ok x b F (rd_Forall _ _ _ _ (fm_bytes _ F) Hb)) as (x1 & -> & F1 & E1 & _); [done|].
  bnd. destruct (IH ((source + 1) .& 4095) x1 F1 (ring_range _)) as (x2 & -> & F2 & H2 & _).
  exists x2. rewrite E1, len_snoc in H2. split; [done|]. split; [done|]. lia.
Qed.

(** Whatever the input, [expand] comes to an end inside its arrays. *)
Lemma expandLoop_ok fuel : forall s x, Good (len (output x)) s -> Frame x ->
  kChunk - len (output x) < Z.of_nat fuel ->
  exists r, expandLoop input fuel s x = Some r /\
    forall out, r = Some out -> len out = kChunk /\ Forall byte out.
Proof.
  induction fuel as [|fuel IH]; intros s x G F Hf; [pose proof (fm_len _ F); lia|]. cbn [expandLoop].
  destruct (Z.ltb_spec (len (output x)) kChunk) as [Hl|Hl].
  2: { exists (Some (output x)). split; [done|]. intros out [= <-]. split; [|apply F].
       pose proof (fm_len _ F). lia. }
  assert (H0 : 0 <= len (output x)) by (unfold len; lia).
  destruct (symbol_ok _ s G) as (v & s1 & -> & Hv & G1); [unfold kChunk in Hl; lia|]. bnd.
  destruct (Z.ltb_spec v 0); [by exists None|].
  destruct (Z.ltb_spec v 256).
  - destruct (emit_ok x (u8 v) F (u8_range v) Hl) as (x1 & -> & F1 & E1 & _). bnd.
    apply IH; [|done|]; rewrite E1, len_snoc; [done|lia].
  - destruct (distance input s1) as [off s2] eqn:Ed. apply distance_ok in Ed as [S2 Ho].
    destruct (Z.ltb_spec off 0); [by exists None|].
    destruct (copyMatch_ok (Z.to_nat (v - 253)) _ x F (ring_range (u64 (head x - off - 1)))) as (x1 & -> & F1 & _ & Hmore).
    specialize (Hmore ltac:(lia) Hl). bnd. apply IH; [|done|lia].
    apply (Good_mono (len (output x) + 1)); [lia|]. by apply (Good_same _ s1).
Qed.

Lemma start_frame : Frame Expand0.
Proof.
  split; [reflexivity|by apply Forall_replicate|cbn; lia|exact (Forall_nil_2 _)|vm_compute; discriminate].
Qed.

Definition chunkFuel : nat := 20961.
Lemma chunk_fuel : kChunk - 0 < Z.of_nat chunkFuel.
Proof. vm_compute. reflexivity. Qed.
#[local] Opaque chunkFuel.

Lemma expand_ok : exists r, expand input = Some r /\
  forall out, r = Some out -> len out = kChunk /\ Forall byte out.
Proof. exact (expandLoop_ok chunkFuel newLzh Expand0 new_good start_frame chunk_fuel). Qed.

(** C21. Decompression cannot misbehave.  Whatever the bytes of a chunk, [expand]
    ends after at most 20960 symbols, its walks and updates of the tree end,
    and no index leaves an array or the window; it refuses the chunk or
    produces exactly 20960 bytes. *)
Theorem expand_total : exists r, expand input = Some r /\
  forall out, r = Some out -> len out = kChunk /\ Forall byte out.
Proof. exact (expandLoop_ok chunkFuel newLzh Expand0 new_good start_frame chunk_fuel). Qed.
End Input.

(** ** The weights *)

Definition updateAll (s : Lzh) (symbols : list Z) : option Lzh :=
  foldl (fun o v => s ← o; update s v) (Some s) symbols.

Lemma updateAll_ok symbols : forall s, Forall (fun v => 0 <= v < 314) symbols ->
  Lists s -> treeOf (-1) s -> weight s + len symbols < 65535 ->
  exists s', updateAll s symbols = Some s' /\ treeOf (-1) s' /\ weight s' = weight s + len symbols.
Proof.
  induction symbols as [|v symbols IH]; intros s HS HL T HW.
  { exists s. split; [done|]. split; [done|]. unfold len. cbn. lia. }
  apply Forall_cons_1 in HS as [Hv HS].
  assert (Hn : len (v :: symbols) = 1 + len symbols) by (unfold len; cbn; lia).
  assert (0 <= len symbols) by (unfold len; lia).
  destruct (update_ok s v HL T Hv) as (s1 & E1 & L1 & T1 & _ & W1); [lia|].
  destruct (IH s1 HS L1 T1) as (s2 & E2 & T2 & W2); [lia|].
  exists s2. split; [|split; [done|lia]]. unfold updateAll in *. cbn [foldl mbind option_bind]. by rewrite E1.
Qed.

Lemma weight0 : weight newLzh = 314.
Proof. rewrite tree0_eq. reflexivity. Qed.

(** The tree stays a code and its weights stay small.  After any symbols of
    one chunk, at most 20960, every array access of [update] was inside its
    array, the tree is still a well-formed adaptive code, its root weighs
    exactly 314 and the number of symbols, and that is below 0x8000: the
    halving of the weights that LZHUF needs is unreachable, as the comment in
    [update] says. *)
Theorem tree_adapts (symbols : list Z) : Forall (fun v => 0 <= v < 314) symbols -> len symbols <= 20960 ->
  exists s, updateAll newLzh symbols = Some s /\ treeOf (-1) s /\
    weight s = 314 + len symbols /\ weight s < 0x8000.
Proof.
  intros HS HL. destruct new_good as [L T _].
  destruct (updateAll_ok symbols newLzh HS L T) as (s & E & Ts & W); rewrite weight0 in *; [lia|].
  exists s. split; [done|]. split; [done|]. lia.
Qed.

Lemma tree_adapts_witness : exists s, updateAll newLzh [65; 256; 65] = Some s /\ treeOf (-1) s /\
  weight s = 314 + len [65; 256; 65] /\ weight s < 0x8000.
Proof. apply (tree_adapts [65; 256; 65]); [repeat constructor; lia|done]. Defined.
