(* ===== verification/DartCodec.v ===== *)
(** * DartCodec: the compressed form of a DART chunk

    A reference for the format: a chunk is a sequence of literals and matches;
    a match copies from the bytes already produced, zeros before the first.
    The encoder writes the path of each symbol in the adaptive tree, then the
    canonical code of a match's distance.  The decoder of [Dart] gives back
    what the sequence stands for. *)

From S2P Require Import Prelude Vectors Dart DartTreeFacts DartFacts.
From stdpp Require Import base list numbers option decidable.

Import DartLzh.
Open Scope Z_scope.

(** ** Bits *)

Definition byteBits (b : Z) : list Z := map (fun i => (b .>> (7 - i)) .& 1) (seqZ 0 8).
Definition bitsOf (input : list Z) : list Z := flat_map byteBits input.

Lemma bitsOf_lookup input : forall k, 0 <= k ->
  rd (bitsOf input) k = option_map (fun b => (b .>> (7 - k mod 8)) .& 1) (rd input (k / 8)).
Proof.
  induction input as [|b input IH]; intros k Hk; cbn [bitsOf flat_map].
  { unfold rd. rewrite !(proj2 (Z.ltb_ge _ 0)) by (lia || apply Z.div_pos; lia). done. }
  fold (bitsOf input). change (b :: input) with ([b] ++ input).
  destruct (Z.lt_ge_cases k 8) as [H8|H8].
  - rewrite Z.mod_small, Z.div_small by lia. rewrite rd_app_l by (by change (len (byteBits b)) with 8).
    unfold rd. rewrite (proj2 (Z.ltb_ge k 0)) by lia. change (0 <? 0) with false. cbn [app Z.to_nat lookup list_lookup].
    unfold byteBits. rewrite list_lookup_fmap, lookup_seqZ_lt by lia. cbn.
    by rewrite Z2Nat.id by lia.
  - rewrite rd_app_r by (by change (len (byteBits b)) with 8). change (len (byteBits b)) with 8.
    rewrite IH by lia. rewrite rd_app_r by (change (len [b]) with 1; apply Z.div_le_lower_bound; lia).
    change (len [b]) with 1.
    assert (Ed : k / 8 = (k - 8) / 8 + 1) by (rewrite <- Z.div_add by lia; f_equal; lia).
    assert (Em : k mod 8 = (k - 8) mod 8) by (rewrite <- (Z.mod_add (k - 8) 1) by lia; f_equal; lia).
    by rewrite Ed, Em, Z.add_simpl_r.
Qed.

(** The bits the decoder has yet to read. *)
Definition remain (input : list Z) (s : Lzh) : list Z := drop (Z.to_nat (bit_ s)) (bitsOf input).

Definition Reading (input : list Z) (s : Lzh) : Prop :=
  0 <= bit_ s /\ len input < 1152921504606846976.

Lemma bit_next input s v rest : Reading input s -> remain input s = v :: rest ->
  exists s', bit input s = (v, s') /\ sameTree s s' /\ remain input s' = rest /\ Reading input s'.
Proof.
  intros [H0 HL] HR.
  assert (E : rd (bitsOf input) (bit_ s) = Some v).
  { unfold rd. rewrite (proj2 (Z.ltb_ge _ 0)) by lia.
    rewrite <- (Nat.add_0_r (Z.to_nat (bit_ s))), <- lookup_drop. fold (remain input s). by rewrite HR. }
  rewrite bitsOf_lookup in E by done. unfold bit. destruct (rd input (bit_ s / 8)) as [b|] eqn:Eb; [|done].
  injection E as <-. eexists. split; [done|]. split; [done|].
  apply rd_lt in Eb. fold (len input) in Eb. pose proof (Z.div_mod (bit_ s) 8 ltac:(done)).
  pose proof (Z.mod_pos_bound (bit_ s) 8 ltac:(done)).
  assert (Eu : u64 (bit_ s + 1) = bit_ s + 1) by (apply Z.mod_small; lia).
  split; [|split; cbn [bit_]; rewrite ?Eu; lia].
  unfold remain in *. cbn [bit_]. rewrite Eu.
  replace (Z.to_nat (bit_ s + 1)) with (S (Z.to_nat (bit_ s))) by lia.
  rewrite <- Nat.add_1_r, <- drop_drop. rewrite HR. done.
Qed.

(** ** The path of a symbol *)

(** Down from the pair at [node]. *)
Fixpoint go (child : Z -> Z) (node : Z) (bs : list Z) : option Z :=
  match bs with
  | [] => if node <? kNodes then None else Some node
  | b :: bs => if node <? kNodes then go child (child (node + b)) bs else None
  end.

Fixpoint pathUp (fuel : nat) (s : Lzh) (node : Z) (bs : list Z) : list Z :=
  match fuel with
  | O => bs
  | S fuel =>
      if node =? kRoot then bs else
      let p := at_ (parent_ s) node in
      pathUp fuel s p ((if at_ (child_ s) p =? node then 0 else 1) :: bs)
  end.

Definition symbolBits (s : Lzh) (symbol : Z) : list Z :=
  pathUp 626 s (at_ (parent_ s) (symbol + kNodes)) [].

Lemma pathUp_len fuel s : forall node bs, (length (pathUp fuel s node bs) <= fuel + length bs)%nat.
Proof.
  induction fuel as [|fuel IH]; intros node bs; cbn [pathUp]; [lia|].
  destruct (_ =? _); [lia|]. etransitivity; [apply IH|]. cbn. lia.
Qed.

Lemma pathUp_bits fuel s : forall node bs, Forall (fun b => b = 0 \/ b = 1) bs ->
  Forall (fun b => b = 0 \/ b = 1) (pathUp fuel s node bs).
Proof.
  induction fuel as [|fuel IH]; intros node bs H; cbn [pathUp]; [done|].
  destruct (_ =? _); [done|]. apply IH. constructor; [|done]. destruct (_ =? _); auto.
Qed.

Lemma pathUp_go s v fuel : treeOf (-1) s -> forall node bs, 0 <= node <= 626 -> 626 - node <= Z.of_nat fuel ->
  go (at_ (child_ s)) (at_ (child_ s) node) bs = Some v ->
  go (at_ (child_ s)) (at_ (child_ s) kRoot) (pathUp fuel s node bs) = Some v.
Proof.
  intros T. induction fuel as [|fuel IH]; intros node bs Hn Hf E; cbn [pathUp].
  { replace kRoot with node by (unfold kRoot; lia). done. }
  destruct (Z.eqb_spec node kRoot) as [->|HN]; [done|]. unfold kRoot in HN.
  destruct (tr_node _ _ _ _ T node) as [Hp Hc]; [lia|].
  set (p := at_ (parent_ s) node) in *. apply IH; [lia|lia|]. cbn [go]. unfold kNodes.
  destruct (tr_child _ _ _ _ T p) as [Hk|Hk]; [lia| |lia].
  rewrite (proj2 (Z.ltb_lt _ _)) by lia.
  replace (at_ (child_ s) p + _) with node; [done|]. destruct (Z.eqb_spec (at_ (child_ s) p) node); lia.
Qed.

Lemma symbolBits_go s v : treeOf (-1) s -> 0 <= v < 314 ->
  go (at_ (child_ s)) (at_ (child_ s) kRoot) (symbolBits s v) = Some (v + kNodes).
Proof.
  intros T Hv. destruct (tr_symbol _ _ _ _ T (v + kNodes)) as [Hp Hc]; [unfold kNodes; lia|].
  unfold symbolBits. apply pathUp_go; [done|lia|lia|]. rewrite Hc. cbn [go]. unfold kNodes.
  by rewrite (proj2 (Z.ltb_ge _ _)) by lia.
Qed.

Lemma walk_go input k bs : forall fuel s node rest v, Good k s -> Reading input s ->
  Forall (fun b => b = 0 \/ b = 1) bs -> 0 <= node <= 625 \/ 627 <= node < 941 -> (length bs <= fuel)%nat ->
  go (at_ (child_ s)) node bs = Some v -> remain input s = bs ++ rest ->
  exists s', walk input fuel s node = Some (v, s') /\ sameTree s s' /\ remain input s' = rest /\ Reading input s'.
Proof.
  induction bs as [|b bs IH]; intros fuel s node rest v G HR HB Hn Hf E Er; cbn [go] in E.
  { destruct (node <? kNodes) eqn:El; [done|]. injection E as <-. exists s.
    split; [destruct fuel; cbn [walk]; by rewrite El|]. split; [apply sameTree_refl|]. done. }
  destruct (node <? kNodes) eqn:El; [|done]. destruct fuel as [|fuel]; [cbn in Hf; lia|].
  cbn [walk]. rewrite El. destruct (bit_next input s b (bs ++ rest)) as (s1 & -> & S1 & R1 & HR1); [done|done|].
  apply Forall_cons_1 in HB as [Hb HB]. rewrite (proj2 (Z.ltb_ge b 0)) by lia.
  assert (G1 := Good_same k s s1 S1 G). destruct (G1) as [[_ _ Lc] T _].
  apply Z.ltb_lt in El. unfold kNodes in El. rewrite rd_at by lia. bnd.
  destruct S1 as (S1a & S1b & S1c). rewrite <- S1c in E.
  destruct (IH fuel s1 (at_ (child_ s1) (node + b)) rest v) as (s2 & -> & S2 & R2 & HR2); try done.
  { destruct (tr_child _ _ _ _ T (node + b)); lia. }
  { cbn in Hf. lia. }
  exists s2. split; [done|]. split; [by eapply sameTree_trans|]. done.
Qed.

(** ** The tree after a symbol does not depend on the place in the input *)

Definition withBit (b : Z) (s : Lzh) : Lzh := mkLzh (frequency_ s) (parent_ s) (child_ s) b.

(** Case analysis on each step of a computation in the option monad. *)
Ltac steps :=
  repeat (bnd; match goal with
    | |- context [mbind _ ?x] => destruct x; cbn [mbind option_bind option_map]
    | |- context [if ?x then _ else _] => destruct x
    end); try done.

Lemma exchange_bit b s node other w :
  exchange (withBit b s) node other w = option_map (withBit b) (exchange s node other w).
Proof.
  destruct s as [f p c b0]. unfold exchange, withBit. cbn [frequency_ parent_ child_ bit_]. steps.
Qed.

Lemma promoteNode_bit b s node :
  promoteNode (withBit b s) node = option_map (fun r => (withBit b (fst r), snd r)) (promoteNode s node).
Proof.
  destruct s as [f p c b0]. unfold promoteNode. cbn [withBit frequency_ parent_ child_ bit_].
  destruct (rd f node) as [w|]; [|done]. bnd. destruct (store f node _) as [f1|]; [|done]. bnd.
  destruct (rd f1 _) as [next|]; [|done]. bnd. destruct (next <? _); [|done].
  destruct (scanUp _ _ _ _) as [other|]; [|done]. bnd.
  change (mkLzh f1 p c b) with (withBit b (mkLzh f1 p c b0)). rewrite exchange_bit.
  by destruct (exchange _ _ _ _).
Qed.

Lemma updateLoop_bit b fuel : forall s node,
  updateLoop fuel (withBit b s) node = option_map (withBit b) (updateLoop fuel s node).
Proof.
  induction fuel as [|fuel IH]; intros s node; cbn [updateLoop]; [done|].
  rewrite promoteNode_bit. destruct (promoteNode s node) as [[s1 n1]|]; [|done].
  cbn [option_map mbind option_bind fst snd]. cbn [withBit parent_].
  destruct (rd (parent_ s1) n1) as [n2|]; [|done]. bnd. destruct (n2 =? 0); [done|apply IH].
Qed.

Lemma update_same es s v es' : sameTree es s -> update es v = Some es' ->
  exists s', update s v = Some s' /\ sameTree es' s' /\ bit_ s' = bit_ s.
Proof.
  intros (E1 & E2 & E3) E. exists (withBit (bit_ s) es'). split; [|done].
  replace s with (withBit (bit_ s) es) at 1 by (destruct s; cbn in *; subst; done).
  unfold update in *. cbn [withBit parent_] in *. destruct (rd (parent_ es) (v + kNodes)) as [n|]; [|done].
  cbn [mbind option_bind] in *. by rewrite updateLoop_bit, E.
Qed.

Lemma symbolBits_same s s' v : sameTree s s' -> symbolBits s' v = symbolBits s v.
Proof.
  intros (_ & E2 & E3). unfold symbolBits. rewrite E2. generalize 626%nat, (at_ (parent_ s) (v + kNodes)), (@nil Z).
  intros fuel. induction fuel as [|fuel IH]; intros node bs; cbn [pathUp]; [done|]. by rewrite E2, E3, IH.
Qed.

Lemma symbol_encoded input k es s v rest : Good k es -> 0 <= k < 65000 -> sameTree es s -> Reading input s ->
  0 <= v < 314 -> remain input s = symbolBits es v ++ rest ->
  exists es' s', symbol input s = Some (v, s') /\ update es v = Some es' /\ Good (k + 1) es' /\
    sameTree es' s' /\ Reading input s' /\ remain input s' = rest.
Proof.
  intros Ge Hk St HR Hv Er. assert (G := Good_same k es s St Ge). destruct (G) as [[_ _ Lc] T W].
  unfold symbol, kRoot. rewrite rd_at by lia. bnd. rewrite <- (symbolBits_same es s v St) in Er.
  destruct (walk_go input k (symbolBits s v) 627 s (at_ (child_ s) 626) rest (v + kNodes))
    as (s1 & -> & S1 & R1 & HR1); try done.
  { apply pathUp_bits. constructor. }
  { destruct (tr_child _ _ _ _ T 626); lia. }
  { unfold symbolBits. etransitivity; [apply pathUp_len|]. cbn [length]. lia. }
  { by apply symbolBits_go. }
  bnd. unfold kNodes. rewrite (proj2 (Z.ltb_ge _ 0)) by lia. replace (v + 627 - 627) with v by lia.
  destruct Ge as [L1 T1 W1]. destruct (update_ok es v L1 T1) as (es' & Eu & L2 & T2 & _ & W2); [lia|lia|].
  destruct (update_same es s1 v es') as (s2 & -> & S2 & B2); [by eapply sameTree_trans|done|].
  bnd. exists es', s2. split; [done|]. split; [done|]. split; [split; [done|done|lia]|]. split; [done|].
  unfold Reading, remain in *. by rewrite B2.
Qed.

(** ** Distances *)

(** [n] bits of [v], the highest first. *)
Fixpoint bitsN (n : nat) (v : Z) : list Z :=
  match n with
  | O => []
  | S n => v / 2 ^ Z.of_nat n mod 2 :: bitsN n v
  end.

(** The canonical code: the values of each length in turn, from [first]. *)
Fixpoint canon (cs : list Z) (n : nat) (first base hi : Z) : list Z :=
  match cs with
  | [] => []
  | count :: cs =>
      if hi - base <? count then bitsN n (first + (hi - base))
      else canon cs (S n) ((first + count) * 2) (base + count) hi
  end.

Definition distanceBits (offset : Z) : list Z :=
  canon (drop 1 counts) 1 0 0 (offset / 64) ++ bitsN 6 (offset mod 64).

Lemma lowBits_bits input n : forall low s v rest, Reading input s -> 0 <= low ->
  remain input s = bitsN n v ++ rest ->
  exists s', lowBits input n low s = (low * 2 ^ Z.of_nat n + v mod 2 ^ Z.of_nat n, s') /\ sameTree s s' /\
    Reading input s' /\ remain input s' = rest.
Proof.
  induction n as [|n IH]; intros low s v rest HR Hl Er; cbn [lowBits bitsN app] in *.
  { exists s. change (2 ^ Z.of_nat 0) with 1. rewrite Z.mod_1_r, Z.mul_1_r, Z.add_0_r.
    split; [done|]. split; [apply sameTree_refl|done]. }
  destruct (bit_next input s _ _ HR Er) as (s1 & -> & S1 & R1 & HR1).
  set (P := 2 ^ Z.of_nat n) in *. assert (HP : 0 < P) by (apply Z.pow_pos_nonneg; lia).
  pose proof (Z.mod_pos_bound (v / P) 2 ltac:(done)) as Hb. rewrite (proj2 (Z.ltb_ge _ 0)) by lia.
  destruct (IH (low * 2 + v / P mod 2) s1 v rest) as (s2 & -> & S2 & HR2 & R2); [done|lia|done|].
  exists s2. split; [|split; [by eapply sameTree_trans|done]]. f_equal.
  rewrite Nat2Z.inj_succ, Z.pow_succ_r by lia. fold P. rewrite (Z.mul_comm 2 P), Z.rem_mul_r by lia. lia.
Qed.

(** The prefix alone, on a list. *)
Fixpoint prefix (cs : list Z) (code first base : Z) (bs : list Z) : option (Z * list Z) :=
  match cs, bs with
  | count :: cs, b :: bs =>
      let code := code * 2 + b in
      if (first <=? code) && (code <? first + count) then Some (base + code - first, bs)
      else prefix cs code ((first + count) * 2) (base + count) bs
  | _, _ => None
  end.

Lemma distanceLoop_prefix input cs : forall code first base s bs hi lo rest, Reading input s ->
  Forall (fun b => b = 0 \/ b = 1) bs -> prefix cs code first base bs = Some (hi, []) -> 0 <= lo < 64 ->
  remain input s = bs ++ bitsN 6 lo ++ rest ->
  exists s', distanceLoop input cs code first base s = (hi * 64 + lo, s') /\ sameTree s s' /\
    Reading input s' /\ remain input s' = rest.
Proof.
  induction cs as [|count cs IH]; intros code first base s bs hi lo rest HR HB E Hlo Er; [done|].
  destruct bs as [|b bs]; [done|]. cbn [prefix distanceLoop] in *. apply Forall_cons_1 in HB as [Hb HB].
  destruct (bit_next input s b (bs ++ bitsN 6 lo ++ rest)) as (s1 & -> & S1 & R1 & HR1); [done|done|].
  rewrite (proj2 (Z.ltb_ge b 0)) by lia. destruct ((_ <=? _) && _).
  - injection E as <- ->. cbn [app] in R1.
    destruct (lowBits_bits input 6 0 s1 lo rest) as (s2 & -> & S2 & HR2 & R2); [done|lia|done|].
    change (0 * 2 ^ Z.of_nat 6) with 0. change (2 ^ Z.of_nat 6) with 64. rewrite Z.mod_small, Z.add_0_l by lia.
    rewrite (proj2 (Z.ltb_ge lo 0)) by lia. exists s2. split; [done|]. split; [by eapply sameTree_trans|done].
  - destruct (IH _ _ _ s1 bs hi lo rest HR1 HB E Hlo R1) as (s2 & -> & S2 & HR2 & R2).
    exists s2. split; [done|]. split; [by eapply sameTree_trans|done].
Qed.

Definition isBit (b : Z) : bool := (b =? 0) || (b =? 1).

(** The sixty-four codes, one by one. *)
Lemma canon_prefix hi : 0 <= hi < 64 ->
  prefix (drop 1 counts) 0 0 0 (canon (drop 1 counts) 1 0 0 hi) = Some (hi, []) /\
  Forall (fun b => b = 0 \/ b = 1) (canon (drop 1 counts) 1 0 0 hi) /\
  (length (canon (drop 1 counts) 1 0 0 hi) <= 8)%nat.
Proof.
  intros Hh.
  assert (C : forallb (fun hi => bool_decide (prefix (drop 1 counts) 0 0 0 (canon (drop 1 counts) 1 0 0 hi) = Some (hi, [])) &&
     forallb isBit (canon (drop 1 counts) 1 0 0 hi) &&
     (length (canon (drop 1 counts) 1 0 0 hi) <=? 8)%nat) (seqZ 0 64) = true) by (vm_compute; reflexivity).
  rewrite forallb_forall in C. specialize (C hi ltac:(apply list_elem_of_In, elem_of_seqZ; lia)).
  apply andb_true_iff in C as [C C3]. apply andb_true_iff in C as [C1 C2].
  split; [by apply bool_decide_eq_true_1 in C1|]. split; [|by apply Nat.leb_le].
  apply Forall_forall. intros b Hb. rewrite forallb_forall in C2.
  specialize (C2 b Hb). unfold isBit in C2. rewrite orb_true_iff, !Z.eqb_eq in C2. done.
Qed.

Lemma distance_encoded input s offset rest : Reading input s -> 0 <= offset < 4096 ->
  remain input s = distanceBits offset ++ rest ->
  exists s', distance input s = (offset, s') /\ sameTree s s' /\ Reading input s' /\ remain input s' = rest.
Proof.
  intros HR Ho Er. unfold distanceBits in Er. rewrite <- app_assoc in Er.
  assert (Hh : 0 <= offset / 64 < 64) by (split; [apply Z.div_pos; lia|apply Z.div_lt_upper_bound; lia]).
  destruct (canon_prefix _ Hh) as (E & HB & _). pose proof (Z.mod_pos_bound offset 64 ltac:(done)).
  destruct (distanceLoop_prefix input (drop 1 counts) 0 0 0 s _ _ (offset mod 64) rest HR HB E) as (s' & Ed & S & R); [done|done|].
  exists s'. unfold distance. rewrite Ed. split; [|done]. f_equal. pose proof (Z.div_mod offset 64 ltac:(done)). lia.
Qed.

(** ** Sequences of literals and matches *)

Inductive token := Lit (b : Z) | Match (length offset : Z).

Definition Token (t : token) : Prop :=
  match t with Lit b => byte b | Match n offset => 3 <= n <= 60 /\ 0 <= offset < 4096 end.

(** The byte [offset + 1] places back, zero before the first. *)
Definition back (out : list Z) (offset : Z) : Z := default 0 (rd out (len out - 1 - offset)).

Fixpoint copy (n : nat) (offset : Z) (out : list Z) : list Z :=
  match n with
  | O => out
  | S n => copy n offset (out ++ [back out offset])
  end.

(** What the sequence stands for. *)
Definition lz1 (out : list Z) (t : token) : list Z :=
  match t with Lit b => out ++ [b] | Match n offset => copy (Z.to_nat n) offset out end.
Definition lz (out : list Z) (ts : list token) : list Z := foldl lz1 out ts.

Definition symbolOf (t : token) : Z := match t with Lit b => b | Match n _ => n + 253 end.
Definition extra (t : token) : list Z := match t with Lit _ => [] | Match _ offset => distanceBits offset end.

(** The bits of the sequence, the tree adapted after each symbol. *)
Fixpoint encode (s : Lzh) (ts : list token) : list Z :=
  match ts with
  | [] => []
  | t :: ts =>
      symbolBits s (symbolOf t) ++ extra t ++
      match update s (symbolOf t) with Some s => encode s ts | None => [] end
  end.

Lemma copy_grows n offset : forall out, out `prefix_of` copy n offset out.
Proof. induction n as [|n IH]; intros out; cbn [copy]; [done|]. etransitivity; [|apply IH]. by eexists. Qed.

Lemma lz_grows ts : forall out, out `prefix_of` lz out ts.
Proof.
  induction ts as [|t ts IH]; intros out; cbn; [done|]. etransitivity; [|apply IH].
  destruct t; [by eexists|apply copy_grows].
Qed.

Lemma take_grown (out l : list Z) n : out `prefix_of` l -> len out = n -> take (Z.to_nat n) l = out.
Proof. intros [k ->] H. by apply take_len_app. Qed.

(** ** The window is the last 4096 bytes *)

Definition Ring (x : Expand) : Prop :=
  forall k, 0 <= k < 4096 -> rd (window x) ((head x - 1 - k) mod 4096) = Some (back (output x) k).

Lemma ring_mod x : x .& 4095 = x mod 4096.
Proof. change 4095 with (2 ^ 12 - 1). by rewrite land_mask_mod. Qed.

Lemma back_snoc out b k : 0 <= k -> back (out ++ [b]) k = if k =? 0 then b else back out (k - 1).
Proof.
  intros Hk. unfold back. rewrite len_snoc. destruct (Z.eqb_spec k 0) as [->|].
  - rewrite rd_app_r by lia. by replace (len out + 1 - 1 - 0 - len out) with 0 by lia.
  - rewrite rd_app_l by lia. do 2 f_equal. lia.
Qed.

Lemma emit_window x b : Frame x -> Ring x -> byte b -> len (output x) < kChunk ->
  exists x', emit x b = Some x' /\ Frame x' /\ Ring x' /\ output x' = output x ++ [b] /\
    head x' = (head x + 1) mod 4096.
Proof.
  intros F W Hb Hl. destruct (emit_ok x b F Hb Hl) as (x' & E & F' & Eo & Ew & Eh).
  rewrite ring_mod in Eh. exists x'. split; [done|]. split; [done|]. split; [|done].
  intros k Hk. destruct F as [Lw _ Hh _ _]. rewrite Ew, Eo, Eh, back_snoc by lia.
  assert (Ei : ((head x + 1) mod 4096 - 1 - k) mod 4096 = (head x - k) mod 4096).
  { rewrite <- Z.sub_add_distr, Zminus_mod_idemp_l. f_equal. lia. }
  rewrite Ei, rd_wr; [|unfold len in Lw; lia|apply Z.mod_pos_bound; lia].
  destruct (Z.eqb_spec k 0) as [->|Hn].
  - rewrite Z.sub_0_r, Z.mod_small, Z.eqb_refl by lia. done.
  - rewrite (proj2 (Z.eqb_neq _ _)); [rewrite <- W by lia; do 2 f_equal; lia|].
    intros Ec. assert (Hd : (head x - k) mod 4096 = head x - k \/ (head x - k) mod 4096 = head x - k + 4096).
    { destruct (Z.lt_ge_cases (head x - k) 0).
      - right. rewrite <- (Z.mod_add _ 1) by lia. rewrite Z.mod_small; lia.
      - left. apply Z.mod_small. lia. }
    lia.
Qed.

(** A match copied from the window is the match of the reference, cut at the
    end of the chunk. *)
Lemma copyMatch_window n offset : 0 <= offset < 4096 -> forall x, Frame x -> Ring x ->
  exists x', copyMatch n ((head x - offset - 1) mod 4096) x = Some x' /\ Frame x' /\ Ring x' /\
    output x' = take (Z.to_nat kChunk) (copy n offset (output x)).
Proof.
  intros Ho. induction n as [|n IH]; intros x F W; cbn [copyMatch copy].
  { exists x. split; [done|]. split; [done|]. split; [done|]. symmetry. apply take_ge.
    pose proof (fm_len _ F). unfold len in *. lia. }
  destruct (Z.ltb_spec (len (output x)) kChunk) as [Hl|Hl].
  - replace (head x - offset - 1) with (head x - 1 - offset) by lia. rewrite W by done. bnd.
    assert (Hb : byte (back (output x) offset)).
    { unfold back. destruct (rd (output x) _) as [b|] eqn:Eb; cbn; [|unfold byte; lia].
      exact (rd_Forall byte _ _ _ (fm_output _ F) Eb). }
    destruct (emit_window x _ F W Hb Hl) as (x1 & -> & F1 & W1 & O1 & H1). bnd.
    destruct (IH x1 F1 W1) as (x2 & E2 & F2 & W2 & O2). exists x2. rewrite <- O1. split; [|done].
    rewrite <- E2. f_equal. rewrite ring_mod, H1.
    rewrite Zplus_mod_idemp_l. rewrite <- !Z.sub_add_distr, Zminus_mod_idemp_l. f_equal. lia.
  - exists x. split; [done|]. split; [done|]. split; [done|]. symmetry.
    apply take_grown; [|pose proof (fm_len _ F); lia].
    etransitivity; [|apply copy_grows]. by eexists.
Qed.

Lemma window0 : Ring Expand0.
Proof.
  intros k Hk. unfold Expand0, back. cbn [window head output]. change (len (@nil Z)) with 0.
  pose proof (Z.mod_pos_bound (4096 - 60 - 1 - k) 4096 ltac:(done)) as Hm.
  unfold rd. rewrite (proj2 (Z.ltb_ge _ 0)), (proj2 (Z.ltb_lt (0 - 1 - k) 0)) by lia.
  rewrite lookup_replicate_2 by lia. done.
Qed.

Lemma take_prefix (a l : list Z) n : a `prefix_of` l -> (n <= length a)%nat -> take n a = take n l.
Proof. intros [k ->] H. by rewrite take_app_le. Qed.

(** The decoder when the chunk is full. *)
Lemma expandLoop_full input fuel s x l : Frame x -> kChunk <= len l ->
  output x = take (Z.to_nat kChunk) l -> expandLoop input fuel s x = Some (Some (take (Z.to_nat kChunk) l)).
Proof.
  intros F Hl E. assert (len (output x) = kChunk) by (rewrite E; apply len_take; unfold kChunk in *; lia).
  destruct fuel; cbn [expandLoop]; rewrite (proj2 (Z.ltb_ge _ _)) by lia; by rewrite E.
Qed.

Lemma copy_len n offset : forall out, len (copy n offset out) = len out + Z.of_nat n.
Proof. induction n as [|n IH]; intros out; cbn [copy]; [lia|]. rewrite IH, len_snoc. lia. Qed.

Lemma kChunk_val : kChunk = 20960.
Proof. reflexivity. Qed.
#[local] Opaque kChunk.

Lemma encode_cons es t ts : encode es (t :: ts) = symbolBits es (symbolOf t) ++ extra t ++
  match update es (symbolOf t) with Some s => encode s ts | None => [] end.
Proof. reflexivity. Qed.

Lemma lz_cons out t ts : lz out (t :: ts) = lz (lz1 out t) ts.
Proof. reflexivity. Qed.

Section Decode.
Context (input : list Z).

(** One token: its symbol, then its distance, and the output that follows. *)
Lemma expandLoop_token fuel k es s x t rest : Token t -> Good k es -> 0 <= k < 65000 -> sameTree es s ->
  Reading input s -> Frame x -> Ring x -> len (output x) < kChunk ->
  remain input s = symbolBits es (symbolOf t) ++ extra t ++ rest ->
  exists es' s' x', expandLoop input (S fuel) s x = expandLoop input fuel s' x' /\
    update es (symbolOf t) = Some es' /\ Good (k + 1) es' /\ sameTree es' s' /\ Reading input s' /\
    remain input s' = rest /\ Frame x' /\ Ring x' /\ output x' = take (Z.to_nat kChunk) (lz1 (output x) t).
Proof.
  intros Ht Ge Hk St HR F W Hl Er. cbn [expandLoop]. rewrite (proj2 (Z.ltb_lt _ _) Hl).
  assert (Hv : 0 <= symbolOf t < 314) by (clear - Ht; destruct t; cbn [Token symbolOf] in *; unfold byte in *; lia).
  destruct (symbol_encoded input k es s (symbolOf t) (extra t ++ rest)) as
    (es' & s1 & -> & Eu & G1 & S1 & HR1 & R1); try done. bnd.
  rewrite (proj2 (Z.ltb_ge _ 0)) by lia. destruct t as [b|n offset]; cbn [symbolOf extra lz1 Token app] in *.
  - rewrite (proj2 (Z.ltb_lt b 256)) by (unfold byte in *; lia).
    replace (u8 b) with b by (symmetry; by apply Z.mod_small).
    destruct (emit_window x b F W Ht Hl) as (x' & -> & F' & W' & O' & _). bnd.
    exists es', s1, x'. do 8 (split; [done|]). rewrite O'. symmetry. apply take_ge.
    assert (H : len (output x ++ [b]) = len (output x) + 1) by apply len_snoc. unfold len in *. lia.
  - rewrite (proj2 (Z.ltb_ge _ 256)) by lia. destruct Ht as [Hn Ho].
    destruct (distance_encoded input s1 offset rest) as (s2 & -> & S2 & HR2 & R2); [done|done|done|].
    rewrite (proj2 (Z.ltb_ge offset 0)) by lia.
    replace (u64 (head x - offset - 1) .& 4095) with ((head x - offset - 1) mod 4096).
    2: { rewrite ring_mod. unfold u64. change 18446744073709551616 with (4096 * 4503599627370496).
         rewrite Z.rem_mul_r, Z.mul_comm, Z.mod_add, Z.mod_mod by lia. done. }
    destruct (copyMatch_window (Z.to_nat n) offset Ho x F W) as (x' & E' & F' & W' & O').
    replace (Z.to_nat (n + 253 - 253)) with (Z.to_nat n) by lia. rewrite E'. bnd.
    exists es', s2, x'. split; [done|]. split; [done|]. split; [done|]. split; [by eapply sameTree_trans|].
    by do 4 (split; [done|]).
Qed.

Lemma expandLoop_tokens ts : forall fuel es s x rest, Forall Token ts -> Good (len (output x)) es ->
  sameTree es s -> Reading input s -> Frame x -> Ring x -> remain input s = encode es ts ++ rest ->
  kChunk - len (output x) <= Z.of_nat fuel -> kChunk <= len (lz (output x) ts) ->
  expandLoop input fuel s x = Some (Some (take (Z.to_nat kChunk) (lz (output x) ts))).
Proof.
  induction ts as [|t ts IH]; intros fuel es s x rest HT G St HR F W Er Hf Hlz.
  { cbn [lz foldl] in *. apply expandLoop_full; [done|done|]. symmetry. apply take_ge.
    pose proof (fm_len _ F). unfold len in *. lia. }
  apply Forall_cons_1 in HT as [Ht HT]. rewrite lz_cons in *.
  destruct (Z.lt_ge_cases (len (output x)) kChunk) as [Hl|Hl].
  2: { apply expandLoop_full; [done|done|]. symmetry. apply take_grown; [|pose proof (fm_len _ F); lia].
       apply (lz_grows (t :: ts)). }
  destruct fuel as [|fuel]; [lia|]. rewrite encode_cons in Er.
  assert (Hk : 0 <= len (output x) < 65000) by (pose proof (len_nonneg (output x)); rewrite kChunk_val in Hl; lia).
  destruct (expandLoop_token fuel (len (output x)) es s x t
    (match update es (symbolOf t) with Some s => encode s ts | None => [] end ++ rest))
    as (es' & s' & x' & -> & Eu & G' & S' & HR' & R' & F' & W' & O'); try done.
  { by rewrite Er, <- !app_assoc. }
  rewrite Eu in R'.
  assert (Hg : len (output x) + 1 <= len (lz1 (output x) t)).
  { destruct t as [b|n o]; cbn [lz1 Token] in *; [rewrite len_snoc; lia|]. rewrite copy_len. lia. }
  destruct (Z.lt_ge_cases (len (lz1 (output x) t)) kChunk) as [Hs|Hs].
  - rewrite take_ge in O' by (unfold len in *; lia). rewrite <- O' in *.
    apply (IH fuel es' s' x' rest); try done; [|lia]. apply (Good_mono (len (output x) + 1)); [lia|done].
  - rewrite (expandLoop_full input fuel s' x' (lz1 (output x) t)) by done. do 2 f_equal.
    apply take_prefix; [apply lz_grows|]. unfold len in Hs. lia.
Qed.
End Decode.

Lemma remain_new input : remain input newLzh = bitsOf input.
Proof. unfold remain. rewrite tree0_eq. reflexivity. Qed.

Lemma reading_new input : len input < 1152921504606846976 -> Reading input newLzh.
Proof. intros H. split; [rewrite tree0_eq; cbn; lia|done]. Qed.

Lemma expand_fuel input : expand input = expandLoop input chunkFuel newLzh Expand0.
Proof. reflexivity. Qed.

Lemma fuel_enough : kChunk - len (output Expand0) <= Z.of_nat chunkFuel.
Proof. apply Z.lt_le_incl, chunk_fuel. Qed.

#[local] Opaque chunkFuel.

(** C7. A compressed DART chunk decodes to what it stands for.  For every
    sequence of literals and matches (of 3 to 60 bytes, up to 4096 back, before
    the start of the chunk included) that fills a chunk, and every input that
    begins with its bits in the adaptive code, [expand] returns the chunk's
    20960 bytes; a last match that runs over the end is cut there. *)
Theorem expand_decodes input ts rest : Forall Token ts -> kChunk <= len (lz [] ts) ->
  len input < 1152921504606846976 -> bitsOf input = encode newLzh ts ++ rest ->
  expand input = Some (Some (take (Z.to_nat kChunk) (lz [] ts))).
Proof.
  intros HT Hl Hi Eb.
  assert (Er : remain input newLzh = encode newLzh ts ++ rest) by (by rewrite <- Eb; apply remain_new).
  rewrite expand_fuel.
  exact (expandLoop_tokens input ts chunkFuel newLzh newLzh Expand0 rest HT new_good
           (sameTree_refl newLzh) (reading_new input Hi) start_frame window0 Er fuel_enough Hl).
Qed.

(** ** An encoder *)

Definition Bits (bs : list Z) : Prop := Forall (fun b => b = 0 \/ b = 1) bs.

Fixpoint pack (n : nat) (bs : list Z) : list Z :=
  match n with
  | O => []
  | S n => foldl (fun v b => v * 2 + b) 0 (take 8 bs) :: pack n (drop 8 bs)
  end.

Lemma pack_len n : forall bs, length (pack n bs) = n.
Proof. induction n as [|n IH]; intros bs; cbn [pack length]; [done|]. by rewrite IH. Qed.

Lemma pack_bits n : forall bs, Bits bs -> length bs = (8 * n)%nat -> bitsOf (pack n bs) = bs.
Proof.
  induction n as [|n IH]; intros bs HB Hl.
  { destruct bs; [done|cbn in Hl; lia]. }
  do 8 (destruct bs as [|? bs]; [cbn in Hl; lia|apply Forall_cons_1 in HB as [? HB]]).
  cbn [pack take drop]. rewrite take_0, drop_0. unfold bitsOf. cbn [flat_map]. fold (bitsOf (pack n bs)).
  assert (Hn : length bs = (8 * n)%nat) by (rewrite Nat.mul_succ_r in Hl; cbn [length] in Hl; lia).
  rewrite (IH bs HB Hn).
  repeat match goal with H : _ = 0 \/ _ = 1 |- _ => destruct H as [-> | ->] end; reflexivity.
Qed.

Lemma bitsN_bits n v : Bits (bitsN n v).
Proof.
  induction n as [|n IH]; cbn [bitsN]; constructor; [|done].
  pose proof (Z.mod_pos_bound (v / 2 ^ Z.of_nat n) 2 ltac:(done)). lia.
Qed.

Lemma distanceBits_ok offset : 0 <= offset < 4096 ->
  Bits (distanceBits offset) /\ (length (distanceBits offset) <= 14)%nat.
Proof.
  intros Ho. destruct (canon_prefix (offset / 64)) as (_ & HB & HL);
    [split; [apply Z.div_pos; lia|apply Z.div_lt_upper_bound; lia]|].
  unfold distanceBits. split; [apply Forall_app; split; [done|apply bitsN_bits]|].
  rewrite length_app. change (length (bitsN 6 (offset mod 64))) with 6%nat. lia.
Qed.

Lemma encode_ok ts : Forall Token ts -> forall s, Bits (encode s ts) /\ (length (encode s ts) <= 640 * length ts)%nat.
Proof.
  induction 1 as [|t ts Ht _ IH]; intros s; cbn [encode]; [split; [constructor|done]|].
  assert (Hx : Bits (extra t) /\ (length (extra t) <= 14)%nat).
  { destruct t as [b|n o]; cbn [extra Token] in *; [split; [constructor|cbn; lia]|]. apply distanceBits_ok; tauto. }
  assert (Hs : Bits (symbolBits s (symbolOf t)) /\ (length (symbolBits s (symbolOf t)) <= 626)%nat).
  { split; [apply pathUp_bits; constructor|]. unfold symbolBits. etransitivity; [apply pathUp_len|].
    cbn [length]. lia. }
  destruct Hx as [X1 X2], Hs as [S1 S2].
  destruct (update s (symbolOf t)) as [s'|].
  - destruct (IH s') as [E1 E2]. split; [by repeat (apply Forall_app; split)|]. rewrite !length_app. cbn [length]. lia.
  - split; [by repeat (apply Forall_app; split)|]. rewrite !length_app. cbn [length]. lia.
Qed.

(** The bytes of a sequence: its bits, and zeros up to a whole byte. *)
Definition compress (ts : list token) : list Z :=
  let bs := encode newLzh ts in
  let n := (length bs / 8 + 1)%nat in
  pack n (bs ++ replicate (8 * n - length bs) 0).

Lemma compress_ok ts : Forall Token ts ->
  (exists rest, bitsOf (compress ts) = encode newLzh ts ++ rest) /\ len (compress ts) <= 80 * len ts + 1.
Proof.
  intros HT. destruct (encode_ok ts HT newLzh) as [HB HL]. unfold compress.
  set (bs := encode newLzh ts) in *. clearbody bs.
  pose proof (Nat.div_mod_eq (length bs) 8). pose proof (Nat.mod_upper_bound (length bs) 8 ltac:(done)).
  split.
  - eexists. rewrite pack_bits; [done| |].
    + apply Forall_app. split; [done|]. apply Forall_replicate. by left.
    + rewrite length_app, length_replicate. lia.
  - unfold len. rewrite pack_len. lia.
Qed.

Lemma lz1_len out t : len (lz1 out t) = len out + match t with Lit _ => 1 | Match n _ => Z.max 0 n end.
Proof. destruct t as [b|n o]; cbn [lz1]; [apply len_snoc|]. rewrite copy_len. lia. Qed.

(** A letter, then matches with the byte before it. *)
Definition letters (n : nat) : list token := Lit 65 :: replicate n (Match 60 0).

Lemma letters_ok n : Forall Token (letters n) /\ 1 + 60 * Z.of_nat n <= len (lz [] (letters n)).
Proof.
  split; [constructor; [cbn; unfold byte; lia|apply Forall_replicate; cbn; lia]|].
  assert (G : forall out, len out + 60 * Z.of_nat n <= len (lz out (replicate n (Match 60 0)))).
  { induction n as [|n IH]; intros out; [cbn; lia|]. cbn [replicate]. rewrite lz_cons.
    specialize (IH (lz1 out (Match 60 0))). rewrite lz1_len in IH. lia. }
  unfold letters. rewrite lz_cons. specialize (G (lz1 [] (Lit 65))). rewrite lz1_len in G.
  change (len (@nil Z)) with 0 in G. lia.
Qed.

(** A chunk of one letter, compressed. *)
Lemma expand_decodes_witness :
  expand (compress (letters 350)) = Some (Some (take (Z.to_nat kChunk) (lz [] (letters 350)))).
Proof.
  destruct (letters_ok 350) as [HT HG]. destruct (compress_ok (letters 350) HT) as [[rest Er] HL].
  apply (expand_decodes (compress (letters 350)) (letters 350) rest HT); [|change (len (letters 350)) with 351 in HL; lia|exact Er].
  rewrite kChunk_val. lia.
Defined.
