(* ===== verification/SaveState.v ===== *)
(** * SaveState: the archives of a saved state

    [src/SaveState.h] and [src/SaveState.cpp]: the reader with its bounds and
    its failure flag, the encodings both archives share, the zero-run form of
    bulk buffers, the chunk container, the fingerprint.  The template [one],
    which picks an encoding by the type of its argument, is a record of the two
    directions ([Codec]) with one value per kind of type; a class's [visit] is
    the list of its fields, used by both.  [None] is undefined behaviour.  The
    reason a reader may carry beside its flag is not modelled. *)

From S2P Require Import Prelude Vectors.
From stdpp Require Import base list numbers option decidable.

Open Scope Z_scope.

(** ** The reader *)

Record Reader := mkReader { p_ : list Z; at_ : Z; ok_ : bool }.

Definition n_ (r : Reader) : Z := len (p_ r).
Definition newReader (data : list Z) : Reader := mkReader data 0 true.
Definition fail (r : Reader) : Reader := mkReader (p_ r) (at_ r) false.
Definition remaining (r : Reader) : Z := if ok_ r then u64 (n_ r - at_ r) else 0.

Definition takeBytes (n : Z) (r : Reader) : bool * Reader :=
  if negb (ok_ r) || (u64 (n_ r - at_ r) <? n) then (false, fail r)
  else (true, mkReader (p_ r) (at_ r + n) true).

(** [bytes]: [n] of them, zeros when they are not there. *)
Definition readBytes (n : Z) (r : Reader) : option (list Z * Reader) :=
  match takeBytes n r with
  | (false, r) => Some (replicate (Z.to_nat n) 0, r)
  | (true, r) => b ← slice (p_ r) (at_ r - n) n; Some (b, r)
  end.

(** ** Variable-length integers *)

(** The [do] loop of [Writer::varint]; a 64-bit value takes ten turns at most. *)
Fixpoint varintLoop (fuel : nat) (v : Z) : list Z :=
  match fuel with
  | O => []
  | S fuel =>
      let byte := u8 (v .& 0x7F) in
      let v := v .>> 7 in
      if v <>? 0 then (byte .| 0x80) :: varintLoop fuel v else [byte]
  end.

Definition putVarint (v : Z) : list Z := varintLoop 10 (u64 v).

(** The loop of [Reader::varint], [n] turns to go. *)
Fixpoint getVarintLoop (n : nat) (shift v : Z) (r : Reader) : option (Z * Reader) :=
  match n with
  | O => Some (0, fail r)
  | S n =>
      match takeBytes 1 r with
      | (false, r) => Some (0, r)
      | (true, r) =>
          byte ← rd (p_ r) (at_ r - 1);
          let v := v .| u64 ((byte .& 0x7F) .<< shift) in
          if byte .& 0x80 =? 0 then Some (v, r) else getVarintLoop n (shift + 7) v r
      end
  end.

Definition getVarint (r : Reader) : option (Z * Reader) := getVarintLoop 10 0 0 r.

(** ** Encodings *)

(** Both directions of [one] for a type: the bytes of a value, and a value from
    a reader; reading starts from the object's old value. *)
Record Codec (A : Type) := mkCodec {
  put : A -> list Z;
  get : A -> Reader -> option (A * Reader)
}.
Arguments mkCodec {A} put get.
Arguments put {A} c a.
Arguments get {A} c old r.

Definition umod (size : nat) (x : Z) : Z := x mod 2 ^ (8 * Z.of_nat size).

(** [static_cast<T>] of an unsigned value of the same size. *)
Definition toSigned (size : nat) (x : Z) : Z :=
  if x <? 2 ^ (8 * Z.of_nat size - 1) then x else x - 2 ^ (8 * Z.of_nat size).

Fixpoint orBytes (size : nat) (p : list Z) (base : Z) (js : list Z) (uv : Z) : option Z :=
  match js with
  | [] => Some uv
  | i :: js =>
      q ← rd p (base + i);
      orBytes size p base js (uv .| umod size (q .<< (8 * i)))
  end.

Definition putInt (size : nat) (x : Z) : list Z :=
  map (fun i => u8 (umod size x .>> (8 * i))) (seqZ 0 (Z.of_nat size)).

Definition getInt (size : nat) (signed : bool) (r : Reader) : option (Z * Reader) :=
  match takeBytes (Z.of_nat size) r with
  | (false, r) => Some (0, r)
  | (true, r) =>
      uv ← orBytes size (p_ r) (at_ r - Z.of_nat size) (seqZ 0 (Z.of_nat size)) 0;
      Some (if signed then toSigned size uv else uv, r)
  end.

Definition intC (size : nat) (signed : bool) : Codec Z :=
  mkCodec (putInt size) (fun _ => getInt size signed).

Definition boolC : Codec bool :=
  mkCodec (fun x => putInt 1 (if x : bool then 1 else 0))
    (fun _ r => x ← getInt 1 false r; let (raw, r) := x : Z * Reader in Some (raw <>? 0, r)).

(** The elements of a sequence that has its length. *)
Fixpoint getEach {A} (c : Codec A) (xs : list A) (r : Reader) : option (list A * Reader) :=
  match xs with
  | [] => Some ([], r)
  | x :: xs =>
      a ← get c x r;
      let (x, r) := a : A * Reader in
      b ← getEach c xs r;
      let (xs, r) := b : list A * Reader in
      Some (x :: xs, r)
  end.

Definition putEach {A} (c : Codec A) (xs : list A) : list Z := flat_map (put c) xs.

(** An array: its elements only. *)
Definition arrayC {A} (c : Codec A) : Codec (list A) := mkCodec (putEach c) (getEach c).

(** A vector or a deque; [zero] is the value a new element has. *)
Definition seqC {A} (c : Codec A) (zero : A) : Codec (list A) :=
  mkCodec (fun xs => putVarint (len xs) ++ putEach c xs)
    (fun _ r =>
       a ← getVarint r;
       let (n, r) := a : Z * Reader in
       if negb (ok_ r) || (u64 (remaining r + 1) <? n) then Some ([], fail r) else
       getEach c (replicate (Z.to_nat n) zero) r).

Definition stringC : Codec (list Z) :=
  mkCodec (fun xs => putVarint (len xs) ++ xs)
    (fun _ r =>
       a ← getVarint r;
       let (n, r) := a : Z * Reader in
       if negb (ok_ r) || (remaining r <? n) then Some ([], fail r) else
       s ← slice (p_ r) (at_ r) n;
       Some (s, snd (takeBytes n r))).

(** ** Classes *)

(** A field of a class: its encoding, how it is read and replaced. *)
Record Field (S : Type) := mkField {
  fieldType : Type;
  fieldCodec : Codec fieldType;
  fieldGet : S -> fieldType;
  fieldSet : fieldType -> S -> S
}.
Arguments mkField {S fieldType} fieldCodec fieldGet fieldSet.
Arguments fieldType {S} f.
Arguments fieldCodec {S} f.
Arguments fieldGet {S} f s.
Arguments fieldSet {S} f v s.

Section Visit.
Context {S : Type}.

Definition putFields (fs : list (Field S)) (s : S) : list Z :=
  flat_map (fun f => put (fieldCodec f) (fieldGet f s)) fs.

Fixpoint getFields (fs : list (Field S)) (s : S) (r : Reader) : option (S * Reader) :=
  match fs with
  | [] => Some (s, r)
  | f :: fs =>
      a ← get (fieldCodec f) (fieldGet f s) r;
      let (v, r) := a : fieldType f * Reader in
      getFields fs (fieldSet f v s) r
  end.

(** [visit] of a class, and of one that refuses some values it loads. *)
Definition visitC (fs : list (Field S)) : Codec S := mkCodec (putFields fs) (getFields fs).

Definition checkedC (c : Codec S) (valid : S -> bool) : Codec S :=
  mkCodec (put c)
    (fun s r =>
       a ← get c s r;
       let (s, r) := a : S * Reader in
       Some (s, if valid s then r else fail r)).
End Visit.

(** ** Bulk buffers *)

Definition kMinZeroRun : nat := 4.
Definition kMaxBlob : Z := 1073741824.

(** Zeros at the front. *)
Fixpoint zeroRun (l : list Z) : nat :=
  match l with
  | b :: l => if b =? 0 then S (zeroRun l) else 0%nat
  | [] => 0%nat
  end.

(** How far the literal run at the front goes. *)
Fixpoint literalRun (fuel : nat) (l : list Z) : nat :=
  match fuel with
  | O => 0%nat
  | S fuel =>
      match l with
      | [] => 0%nat
      | b :: t =>
          if b =? 0 then
            let k := zeroRun l in
            if (kMinZeroRun <=? k)%nat then 0%nat else (k + literalRun fuel (drop k l))%nat
          else S (literalRun fuel t)
      end
  end.

(** The loop of [Writer::blob] on what is left of the buffer. *)
Fixpoint blobLoop (fuel : nat) (l : list Z) : list Z :=
  match fuel with
  | O => []
  | S fuel =>
      match l with
      | [] => []
      | _ =>
          let z := zeroRun l in
          let l := drop z l in
          let lit := literalRun (length l) l in
          putVarint (Z.of_nat z) ++ putVarint (Z.of_nat lit) ++ firstn lit l ++
          blobLoop fuel (drop lit l)
      end
  end.

Definition putBlob (v : list Z) : list Z := putVarint (len v) ++ blobLoop (length v) v.

(** The loop of [Reader::blob]. *)
Fixpoint getBlobLoop (fuel : nat) (v : list Z) (out : Z) (r : Reader) : option (list Z * Reader) :=
  if out <? len v then
    match fuel with
    | O => None
    | S fuel =>
        a ← getVarint r;
        let (z, r) := a : Z * Reader in
        a ← getVarint r;
        let (lit, r) := a : Z * Reader in
        if negb (ok_ r) then Some ([], r) else
        if u64 (len v - out) <? z then Some ([], fail r) else
        let out := out + z in
        if u64 (len v - out) <? lit then Some ([], fail r) else
        a ← readBytes lit r;
        let (b, r) := a : list Z * Reader in
        v ← copyTo v out b;
        let out := out + lit in
        if negb (ok_ r) then Some ([], r) else
        if (z =? 0) && (lit =? 0) then Some ([], fail r) else
        getBlobLoop fuel v out r
    end
  else Some (v, r).

Definition getBlob (r : Reader) : option (list Z * Reader) :=
  a ← getVarint r;
  let (total, r) := a : Z * Reader in
  if negb (ok_ r) || (kMaxBlob <? total) then Some ([], fail r) else
  getBlobLoop (Z.to_nat total) (replicate (Z.to_nat total) 0) 0 r.

Definition blobC : Codec (list Z) := mkCodec putBlob (fun _ => getBlob).

(** ** Chunks *)

(** The constructor of [Chunk]: the buffer, and where the length goes. *)
Definition openChunk (out tag : list Z) : list Z * Z :=
  (out ++ tag ++ replicate 4 0, len out + len tag).

(** Its destructor. *)
Definition closeChunk (b : list Z) (lenAt : Z) : list Z :=
  let n := u32 (len b - lenAt - 4) in
  foldl (fun b i => wr b (lenAt + i) (u8 (n .>> (8 * i)))) b (seqZ 0 4).

Definition chunk (out tag body : list Z) : list Z :=
  let (b, lenAt) := openChunk out tag in closeChunk (b ++ body) lenAt.

Record ChunkView := mkView { tag : list Z; data : list Z }.

Definition isTag (v : ChunkView) (t : list Z) : bool := tag v == t.

(** [None] inside: no further chunk.  The bytes from [cur] to [end]. *)
Definition nextChunk (cur : list Z) : option (option (ChunkView * list Z)) :=
  if len cur <? 8 then Some None else
  t ← slice cur 0 4;
  n ← orBytes 4 cur 4 (seqZ 0 4) 0;
  if u64 (len cur - 8) <? n then Some None else
  body ← slice cur 8 n;
  Some (Some (mkView t body, drop (Z.to_nat (8 + n)) cur)).

(** ** The fingerprint *)

Definition hashStep (h b : Z) : Z := u64 ((h .^ b) * 1099511628211).
Definition hash (p : list Z) : Z := foldl hashStep 1469598103934665603 p.
