(* ===== verification/SaveFacts.v ===== *)
(** * SaveFacts: the laws of the archives

    Every encoding satisfies three laws ([Lawful]): a value is read back from
    its own bytes, reading any bytes at all is defined and only moves the
    cursor forward or sets the failure flag, and a read that succeeds does so
    as well on a longer input.  Containers and classes inherit them from their
    parts.  The zero-run form of a buffer is read back exactly, in as many turns
    of the loop as it has runs. *)

From S2P Require Import Prelude Vectors SaveState.
From stdpp Require Import base list numbers option decidable sets.

Open Scope Z_scope.

(** ** Readers *)

Definition Valid (r : Reader) : Prop := 0 <= at_ r <= n_ r /\ small (p_ r).

(** What is left to read. *)
Definition ahead (r : Reader) : list Z := drop (Z.to_nat (at_ r)) (p_ r).

Definition advance (r : Reader) (n : Z) : Reader := mkReader (p_ r) (at_ r + n) true.

(** [r'] is [r] after some reads. *)
Record Follows (r r' : Reader) : Prop := {
  fo_data : p_ r' = p_ r;
  fo_at : at_ r <= at_ r' <= n_ r;
  fo_ok : ok_ r' = true -> ok_ r = true
}.

Definition extend (r : Reader) (more : list Z) : Reader := mkReader (p_ r ++ more) (at_ r) (ok_ r).

(** [r] stands before [bs]. *)
Definition Before (r : Reader) (bs : list Z) : Prop := Valid r /\ ok_ r = true /\ ahead r = bs.

Lemma advance_0 r : ok_ r = true -> advance r 0 = r.
Proof. destruct r as [p a o]. cbn. intros ->. unfold advance. cbn. by rewrite Z.add_0_r. Qed.

Lemma advance_add r m n : advance (advance r m) n = advance r (m + n).
Proof. unfold advance. cbn [p_ at_]. by rewrite Z.add_assoc. Qed.

Lemma follows_refl r : Valid r -> Follows r r.
Proof. intros [H _]. split; [done|lia|done]. Qed.

Lemma follows_trans r1 r2 r3 : Follows r1 r2 -> Follows r2 r3 -> Follows r1 r3.
Proof.
  intros [D1 A1 O1] [D2 A2 O2]. unfold n_ in *. split; [congruence|rewrite D1 in A2; unfold n_; lia|tauto].
Qed.

Lemma follows_fail r r' : Follows r r' -> Follows r (fail r').
Proof. intros [D A O]. by split. Qed.

Lemma follows_valid r r' : Valid r -> Follows r r' -> Valid r'.
Proof. intros [V S] [D A O]. unfold Valid, n_ in *. rewrite D. split; [lia|done]. Qed.

Lemma ahead_len r : Valid r -> len (ahead r) = n_ r - at_ r.
Proof. intros [V _]. unfold ahead, n_ in *. by rewrite len_drop. Qed.

(** The three parts of the data. *)
Lemma data_split r bs rest : Before r (bs ++ rest) ->
  exists pre, p_ r = pre ++ bs ++ rest /\ len pre = at_ r.
Proof.
  intros (V & O & E). exists (firstn (Z.to_nat (at_ r)) (p_ r)). split.
  - rewrite <- E. unfold ahead. by rewrite take_drop.
  - apply len_take. apply V.
Qed.

Lemma before_advance r bs rest : Before r (bs ++ rest) -> Before (advance r (len bs)) rest.
Proof.
  intros HB. destruct (data_split r bs rest HB) as (pre & Ep & Lp). destruct HB as ([V S] & O & E).
  pose proof (len_nonneg bs). pose proof (len_nonneg rest).
  split; [|split; [done|]].
  - split; [|done]. unfold n_ in *. cbn. rewrite Ep, !len_app. lia.
  - unfold ahead. cbn. rewrite Ep, app_assoc. apply drop_len_app. rewrite len_app. lia.
Qed.

Lemma before_len r bs : Before r bs -> len bs = n_ r - at_ r /\ 0 <= n_ r - at_ r < 9223372036854775808.
Proof.
  intros (V & O & E). rewrite <- E, ahead_len by done. destruct V as [V S]. unfold n_ in *. split; [done|lia].
Qed.

(** ** Reading a number of bytes *)

Lemma take_cases n r : 0 <= n -> Valid r ->
  takeBytes n r = (true, advance r n) /\ ok_ r = true /\ n <= n_ r - at_ r /\ Follows r (advance r n) \/
  takeBytes n r = (false, fail r) /\ (ok_ r = false \/ n_ r - at_ r < n).
Proof.
  intros Hn [V S]. unfold takeBytes, n_ in *. rewrite u64_small by lia.
  destruct (ok_ r) eqn:O; cbn [negb orb]; [|by right; auto].
  destruct (Z.ltb_spec (len (p_ r) - at_ r) n); [right; split; [done|lia]|]. left.
  split; [done|]. split; [done|]. split; [lia|]. split; [done|cbn; unfold n_; lia|done].
Qed.

Lemma take_before r bs rest : Before r (bs ++ rest) -> takeBytes (len bs) r = (true, advance r (len bs)).
Proof.
  intros HB. destruct (before_len _ _ HB) as [L _]. rewrite len_app in L.
  pose proof (len_nonneg rest). destruct HB as (V & O & _).
  destruct (take_cases (len bs) r (len_nonneg bs) V) as [(E & _)|(_ & [Ho|Ho])]; [done|congruence|lia].
Qed.

Lemma take_stable n r r' more : takeBytes n r = (true, r') -> Valid r -> Valid (extend r more) ->
  takeBytes n (extend r more) = (true, extend r' more).
Proof.
  unfold takeBytes. cbn [extend p_ at_ ok_ n_]. intros E [V S] [V' S']. unfold n_ in *. cbn [extend p_ at_] in *.
  destruct (ok_ r); [|done]. cbn [negb orb] in *. rewrite len_app in *.
  pose proof (len_nonneg more). rewrite u64_small in E |- * by lia.
  destruct (Z.ltb_spec (len (p_ r) - at_ r) n); [done|]. injection E as <-.
  rewrite (proj2 (Z.ltb_ge _ _)) by lia. done.
Qed.

(** ** The laws *)

(** [like]: what reading leaves as it was (the length of an array, the parts of
    an object its [visit] does not name); [fits]: the values the type has. *)
Record Lawful {A} (c : Codec A) (like : relation A) (fits : A -> Prop) : Prop := {
  lw_like : Equivalence like;
  lw_roundtrip : forall a0 a r rest, like a0 a -> fits a -> Before r (put c a ++ rest) ->
    get c a0 r = Some (a, advance r (len (put c a)));
  lw_total : forall a0 r, Valid r ->
    exists a r', get c a0 r = Some (a, r') /\ like a0 a /\ Follows r r';
  lw_stable : forall a0 r a r' more, Valid r -> Valid (extend r more) ->
    get c a0 r = Some (a, r') -> ok_ r' = true ->
    get c a0 (extend r more) = Some (a, extend r' more)
}.

Definition anything {A} : relation A := fun _ _ => True.
#[export] Instance anything_equiv {A} : Equivalence (@anything A).
Proof. by split. Qed.

Lemma valid_extend_follows r r' more : Follows r r' -> Valid (extend r more) -> Valid r' -> Valid (extend r' more).
Proof.
  intros [D A O] [V S] [V' S']. unfold Valid, n_ in *. cbn [extend p_ at_] in *. rewrite D in *.
  rewrite len_app in *. pose proof (len_nonneg more). lia.
Qed.

(** ** Integers *)

Lemma umod_range size x : 0 <= umod size x < 2 ^ (8 * Z.of_nat size).
Proof. apply Z.mod_pos_bound, Z.pow_pos_nonneg; lia. Qed.

(** The low [8 * k] bits of a value, put together byte by byte. *)
Lemma orBytes_bytes size p base v : 0 <= v < 2 ^ (8 * Z.of_nat size) -> forall n k,
  (k + n = size)%nat ->
  (forall i, 0 <= i < Z.of_nat size -> rd p (base + i) = Some (u8 (v .>> (8 * i)))) ->
  orBytes size p base (seqZ (Z.of_nat k) (Z.of_nat n)) (v mod 2 ^ (8 * Z.of_nat k)) = Some v.
Proof.
  intros Hv. induction n as [|n IH]; intros k Hk Hp.
  { replace k with size by lia. cbn. by rewrite Z.mod_small. }
  rewrite seqZ_cons by lia. cbn [orBytes]. rewrite Hp by lia. cbn [mbind option_bind].
  replace (Z.pred (Z.of_nat (S n))) with (Z.of_nat n) by lia.
  replace (Z.succ (Z.of_nat k)) with (Z.of_nat (S k)) by lia.
  rewrite <- (IH (S k)) by (done || lia). f_equal.
  set (K := 8 * Z.of_nat k). assert (HK : 0 <= K) by (unfold K; lia).
  replace (8 * Z.of_nat (S k)) with (K + 8) by (unfold K; lia).
  rewrite Z.shiftr_div_pow2 by lia. unfold u8. rewrite Z.pow_add_r, Z.rem_mul_r by lia.
  assert (0 < 2 ^ K) by (apply Z.pow_pos_nonneg; lia).
  pose proof (Z.mod_pos_bound v (2 ^ K) ltac:(done)). pose proof (Z.mod_pos_bound (v / 2 ^ K) 256 ltac:(done)).
  set (b := v / 2 ^ K mod 256) in *. assert (Eu : umod size (b .<< K) = b .<< K).
  { apply Z.mod_small. split; [apply Z.shiftl_nonneg; lia|]. rewrite Z.shiftl_mul_pow2 by lia.
    apply Z.lt_le_trans with (256 * 2 ^ K); [nia|]. change 256 with (2 ^ 8). rewrite <- Z.pow_add_r by lia.
    apply Z.pow_le_mono_r; unfold K; lia. }
  rewrite Eu, Z.lor_comm, shiftl_lor_low by lia. change (2 ^ 8) with 256. fold b. lia.
Qed.

Lemma orBytes_total size p base js : forall uv, (forall i, i ∈ js -> 0 <= base + i < len p) ->
  0 <= uv < 2 ^ (8 * Z.of_nat size) ->
  exists v, orBytes size p base js uv = Some v /\ 0 <= v < 2 ^ (8 * Z.of_nat size).
Proof.
  induction js as [|i js IH]; intros uv Hj Hu; cbn [orBytes]; [by eauto|].
  destruct (rd_Some p (base + i)) as [q ->]; [apply Hj; set_solver|]. cbn [mbind option_bind].
  apply IH; [intros j Hj'; apply Hj; set_solver|].
  pose proof (umod_range size (q .<< (8 * i))) as Hm. set (x := umod size _) in *. clearbody x.
  rewrite <- (Z.mod_small uv (2 ^ (8 * Z.of_nat size))), <- (Z.mod_small x (2 ^ (8 * Z.of_nat size))) by lia.
  rewrite <- !Z.land_ones, <- Z.land_lor_distr_l, Z.land_ones by lia. apply Z.mod_pos_bound. lia.
Qed.

Lemma rd_app_Some {A} (l more : list A) i a : rd l i = Some a -> rd (l ++ more) i = Some a.
Proof. intros E. pose proof (rd_lt _ _ _ E). rewrite rd_app_l; [done|unfold len; lia]. Qed.

Lemma slice_app_Some {A} (l more : list A) off n s : slice l off n = Some s -> slice (l ++ more) off n = Some s.
Proof.
  unfold slice. destruct ((0 <=? off) && _ && _) eqn:E; [|done]. intros [= <-].
  apply andb_true_iff in E as [E E3]. apply andb_true_iff in E as [E1 E2].
  apply Z.leb_le in E1, E2, E3. rewrite len_app. pose proof (len_nonneg more).
  rewrite !(proj2 (Z.leb_le _ _)) by lia. cbn [andb]. f_equal. unfold len in *.
  rewrite drop_app_le, take_app_le by (rewrite ?length_drop; lia). done.
Qed.

Lemma orBytes_stable size p base js more : forall uv v,
  orBytes size p base js uv = Some v -> orBytes size (p ++ more) base js uv = Some v.
Proof.
  induction js as [|i js IH]; intros uv v; cbn [orBytes]; [done|].
  destruct (rd p (base + i)) as [q|] eqn:E; [|done]. rewrite (rd_app_Some _ _ _ _ E). bnd. apply IH.
Qed.

Lemma putInt_len size x : len (putInt size x) = Z.of_nat size.
Proof. unfold putInt, len. rewrite length_map, length_seqZ. lia. Qed.

Lemma putInt_rd size x i : 0 <= i < Z.of_nat size -> rd (putInt size x) i = Some (u8 (umod size x .>> (8 * i))).
Proof.
  intros Hi. unfold rd, putInt. rewrite (proj2 (Z.ltb_ge i 0)) by lia.
  rewrite list_lookup_fmap, lookup_seqZ_lt by lia. cbn. do 3 f_equal. lia.
Qed.

Definition InInt (size : nat) (signed : bool) (x : Z) : Prop :=
  if signed then - 2 ^ (8 * Z.of_nat size - 1) <= x < 2 ^ (8 * Z.of_nat size - 1)
  else 0 <= x < 2 ^ (8 * Z.of_nat size).

Lemma signed_back size (signed : bool) x : (0 < size)%nat -> InInt size signed x ->
  (if signed then toSigned size (umod size x) else umod size x) = x.
Proof.
  intros Hs. unfold InInt, toSigned, umod. destruct signed; [|apply Z.mod_small].
  set (K := 8 * Z.of_nat size). assert (EK : 2 ^ K = 2 * 2 ^ (K - 1)).
  { rewrite <- Z.pow_succ_r by (unfold K; lia). f_equal. lia. }
  intros Hx. destruct (Z.lt_ge_cases x 0).
  - rewrite <- (Z.mod_add x 1) by lia. rewrite Z.mod_small by lia. rewrite (proj2 (Z.ltb_ge _ _)) by lia. lia.
  - rewrite Z.mod_small, (proj2 (Z.ltb_lt _ _)) by lia. done.
Qed.

Lemma orBytes_put size x pre rest :
  orBytes size (pre ++ putInt size x ++ rest) (len pre) (seqZ 0 (Z.of_nat size)) 0 = Some (umod size x).
Proof.
  pose proof (orBytes_bytes size (pre ++ putInt size x ++ rest) (len pre) (umod size x) (umod_range size x) size 0%nat) as H.
  change (8 * Z.of_nat 0) with 0 in H. rewrite Z.mod_1_r in H. apply H; [lia|]. intros i Hi.
  rewrite rd_app_r by lia. replace (len pre + i - len pre) with i by lia.
  rewrite rd_app_l by (rewrite putInt_len; lia). by apply putInt_rd.
Qed.

Lemma intC_lawful size signed : (0 < size)%nat -> Lawful (intC size signed) anything (InInt size signed).
Proof.
  intros Hs. split; [apply _|..]; cbn [intC put get].
  - intros _ x r rest _ Hx HB. unfold getInt. pose proof (take_before r (putInt size x) rest HB) as Et.
    rewrite putInt_len in Et |- *. rewrite Et. destruct (data_split r _ rest HB) as (pre & Ep & Lp).
    cbn [advance p_ at_]. rewrite Z.add_simpl_r, Ep, <- Lp, orBytes_put. bnd. by rewrite signed_back.
  - intros a0 r HV. unfold getInt. destruct (take_cases (Z.of_nat size) r) as [(-> & O & L & F)|(-> & _)]; [lia|done| |].
    + destruct (orBytes_total size (p_ r) (at_ r) (seqZ 0 (Z.of_nat size)) 0) as (v & E & _).
      * intros i Hi. apply elem_of_seqZ in Hi. destruct HV as [V S]. unfold n_ in *. lia.
      * split; [done|]. apply Z.pow_pos_nonneg; lia.
      * cbn [advance p_ at_]. rewrite Z.add_simpl_r, E. bnd. do 2 eexists. split; [done|]. by split.
    + do 2 eexists. split; [done|]. split; [done|]. by apply follows_fail, follows_refl.
  - intros a0 r a r' more HV HV'. unfold getInt.
    destruct (takeBytes (Z.of_nat size) r) as [[] r1] eqn:Et; [|unfold takeBytes in Et].
    + rewrite (take_stable _ _ _ _ Et HV HV'). cbn [extend p_ at_].
      destruct (orBytes size (p_ r1) _ _ 0) as [v|] eqn:E; [|done]. rewrite (orBytes_stable _ _ _ _ more _ _ E).
      bnd. by intros [= <- <-] _.
    + destruct (_ || _); [|done]. injection Et as <-. by intros [= <- <-].
Qed.

(** ** Variable-length integers *)

Lemma low7 v : v .& 0x7F = v mod 128.
Proof. change 0x7F with (2 ^ 7 - 1). by rewrite land_mask_mod. Qed.

Lemma low7_byte v : u8 (v .& 0x7F) = v mod 128.
Proof.
  rewrite low7. apply Z.mod_small. pose proof (Z.mod_pos_bound v 128 ltac:(done)). lia.
Qed.

(** A byte with and without the continuation bit. *)
Lemma continued x : 0 <= x < 128 -> (x .| 0x80) .& 0x7F = x /\ (x .| 0x80) .& 0x80 <> 0 /\
  x .& 0x7F = x /\ x .& 0x80 = 0.
Proof.
  intros Hx. assert (C : forallb (fun x => ((x .| 0x80) .& 0x7F =? x) && negb ((x .| 0x80) .& 0x80 =? 0) &&
    (x .& 0x7F =? x) && (x .& 0x80 =? 0)) (seqZ 0 128) = true) by (vm_compute; reflexivity).
  rewrite forallb_forall in C. specialize (C x ltac:(apply list_elem_of_In, elem_of_seqZ; lia)). unbool. auto.
Qed.

Lemma acc_byte acc b shift : 0 <= shift -> 0 <= acc < 2 ^ shift -> 0 <= b -> b * 2 ^ shift < 18446744073709551616 ->
  acc .| u64 (b .<< shift) = acc + b * 2 ^ shift.
Proof.
  intros Hs Ha Hb Hl. rewrite u64_small by (rewrite Z.shiftl_mul_pow2 by lia; nia).
  rewrite Z.lor_comm, shiftl_lor_low by lia. lia.
Qed.

Lemma getVarintLoop_put rest : forall n v acc r, 0 <= v -> 0 <= acc < 2 ^ (70 - 7 * Z.of_nat n) ->
  (n <= 10)%nat -> (0 < n)%nat -> v * 2 ^ (70 - 7 * Z.of_nat n) < 18446744073709551616 ->
  Before r (varintLoop n v ++ rest) ->
  getVarintLoop n (70 - 7 * Z.of_nat n) acc r =
  Some (acc + v * 2 ^ (70 - 7 * Z.of_nat n), advance r (len (varintLoop n v))).
Proof.
  induction n as [|n IH]; intros v acc r Hv Ha Hn H0 Hl HB; [lia|]. cbn [getVarintLoop varintLoop] in *.
  set (sh := 70 - 7 * Z.of_nat (S n)) in *. assert (Hsh : 0 <= sh) by (unfold sh; lia).
  assert (HP : 0 < 2 ^ sh) by (apply Z.pow_pos_nonneg; lia).
  rewrite low7_byte in *. pose proof (Z.mod_pos_bound v 128 ltac:(done)) as Hm.
  pose proof (Z.div_mod v 128 ltac:(done)) as Hd. rewrite Z.shiftr_div_pow2 in * by lia. change (2 ^ 7) with 128 in *.
  assert (Hq : 0 <= v / 128) by (apply Z.div_pos; lia).
  destruct (continued (v mod 128) Hm) as (C1 & C2 & C3 & C4).
  set (b := if v / 128 <>? 0 then v mod 128 .| 0x80 else v mod 128).
  set (tl := if v / 128 <>? 0 then varintLoop n (v / 128) else []).
  assert (Eb : (if v / 128 <>? 0 then (v mod 128 .| 0x80) :: varintLoop n (v / 128) else [v mod 128]) = b :: tl)
    by (unfold b, tl; by destruct (v / 128 <>? 0)).
  rewrite Eb in HB |- *. change ((b :: tl) ++ rest) with ([b] ++ tl ++ rest) in HB.
  pose proof (take_before r [b] (tl ++ rest) HB) as Et. change (len [b]) with 1 in Et. rewrite Et.
  destruct (data_split r [b] (tl ++ rest) HB) as (pre & Ep & Lp). apply before_advance in HB. change (len [b]) with 1 in HB.
  cbn [advance p_ at_]. rewrite Z.add_simpl_r.
  assert (Er : rd (p_ r) (at_ r) = Some b) by (rewrite Ep, rd_app_r by lia; by rewrite Lp, Z.sub_diag).
  rewrite Er. bnd. assert (C5 : b .& 0x7F = v mod 128) by (unfold b; by destruct (v / 128 <>? 0)).
  rewrite C5, acc_byte by (lia || nia). rewrite len_cons.
  destruct (Z.eqb_spec (v / 128) 0) as [E0|E0]; cbn [negb] in b, tl.
  - unfold b, tl. rewrite C4. cbn [Z.eqb len length]. do 3 f_equal. rewrite E0 in Hd. nia.
  - unfold b at 1. rewrite (proj2 (Z.eqb_neq _ _) C2).
    assert (Esh : sh + 7 = 70 - 7 * Z.of_nat n) by (unfold sh; lia).
    assert (EP : 2 ^ (70 - 7 * Z.of_nat n) = 2 ^ sh * 128) by (rewrite <- Esh, Z.pow_add_r by lia; done).
    assert (Hle : v / 128 * (2 ^ sh * 128) <= v * 2 ^ sh) by nia.
    assert (Hn0 : (0 < n)%nat).
    { destruct n; [|lia]. exfalso. change (70 - 7 * Z.of_nat 0) with 70 in EP. rewrite <- EP in Hle.
      change (2 ^ 70) with 1180591620717411303424 in Hle. nia. }
    rewrite Esh, (IH (v / 128) (acc + v mod 128 * 2 ^ sh)).
    + rewrite EP. unfold advance. cbn [p_ at_]. f_equal. f_equal; [nia|]. f_equal. unfold tl. lia.
    + lia.
    + rewrite EP. nia.
    + lia.
    + lia.
    + rewrite EP. nia.
    + exact HB.
Qed.

Lemma getVarintLoop_total : forall n shift acc r, Valid r ->
  exists v r', getVarintLoop n shift acc r = Some (v, r') /\ Follows r r'.
Proof.
  induction n as [|n IH]; intros shift acc r HV; cbn [getVarintLoop].
  { do 2 eexists. split; [done|]. by apply follows_fail, follows_refl. }
  destruct (take_cases 1 r) as [(-> & O & L & F)|(-> & _)]; [lia|done| |].
  - destruct (rd_Some (p_ r) (at_ r)) as [b Eb]; [destruct HV; unfold n_, len in *; lia|].
    cbn [advance p_ at_]. rewrite Z.add_simpl_r, Eb. bnd. destruct (_ =? 0); [by do 2 eexists|].
    destruct (IH (shift + 7) (acc .| u64 ((b .& 0x7F) .<< shift)) (advance r 1)) as (v & r' & E & F').
    { eauto using follows_valid. }
    exists v, r'. split; [done|eauto using follows_trans].
  - do 2 eexists. split; [done|]. by apply follows_fail, follows_refl.
Qed.

Lemma getVarintLoop_stable more : forall n shift acc r v r', Valid r -> Valid (extend r more) ->
  getVarintLoop n shift acc r = Some (v, r') -> ok_ r' = true ->
  getVarintLoop n shift acc (extend r more) = Some (v, extend r' more).
Proof.
  induction n as [|n IH]; intros shift acc r v r' HV HV'; cbn [getVarintLoop].
  { by intros [= <- <-]. }
  destruct (take_cases 1 r) as [(Et & O & L & F)|(-> & _)]; [lia|done| |by intros [= <- <-]].
  rewrite Et, (take_stable _ _ _ _ Et HV HV'). cbn [extend advance p_ at_].
  destruct (rd (p_ r) _) as [b|] eqn:Eb; [|done]. rewrite (rd_app_Some _ more _ _ Eb). bnd.
  destruct (_ =? 0); [by intros [= <- <-]|]. apply (IH _ _ (advance r 1)); [eauto using follows_valid|].
  eapply valid_extend_follows; [exact F|done|eauto using follows_valid].
Qed.

Definition varintC : Codec Z := mkCodec putVarint (fun _ => getVarint).
Definition U64 (v : Z) : Prop := 0 <= v < 18446744073709551616.

Lemma varintC_lawful : Lawful varintC anything U64.
Proof.
  split; [apply _|..]; cbn [varintC put get].
  - intros _ v r rest _ Hv HB. unfold putVarint in *. rewrite u64_small in * by done.
    pose proof (getVarintLoop_put rest 10 v 0 r) as H. change (70 - 7 * Z.of_nat 10) with 0 in H.
    rewrite Z.mul_1_r in H. apply H; try done; lia || apply Hv.
  - intros a0 r HV. destruct (getVarintLoop_total 10 0 0 r HV) as (v & r' & E & F). by exists v, r'.
  - intros a0 r v r' more HV HV'. by apply getVarintLoop_stable.
Qed.

Lemma putVarint_nonempty v : 0 < len (putVarint v).
Proof.
  unfold putVarint. cbn [varintLoop].
  match goal with |- context [if ?b then ?x :: ?l else _] => destruct b; rewrite len_cons; pose proof (len_nonneg l) end;
    [lia|change (len (@nil Z)) with 0; lia].
Qed.

(** ** Booleans *)

Lemma boolC_lawful : Lawful boolC anything (fun _ => True).
Proof.
  pose proof (intC_lawful 1 false ltac:(lia)) as L. split; [apply _|..]; cbn [boolC put get].
  - intros _ x r rest _ _ HB. pose proof (lw_roundtrip _ _ _ L 0 (if x then 1 else 0) r rest I) as H.
    cbn [intC put get] in H. rewrite H; [bnd; by destruct x|by destruct x|done].
  - intros a0 r HV. destruct (lw_total _ _ _ L 0 r HV) as (v & r' & E & _ & F). cbn [intC get] in E. rewrite E. bnd.
    by do 2 eexists.
  - intros a0 r x r' more HV HV' E O. destruct (getInt 1 false r) as [[v r1]|] eqn:Ei; [|done].
    cbn [mbind option_bind] in E. injection E as <- <-.
    pose proof (lw_stable _ _ _ L 0 r v r1 more HV HV' Ei O) as H. cbn [intC get] in H. by rewrite H.
Qed.

(** ** Sequences *)

Lemma getVarint_nonneg r n r' : getVarint r = Some (n, r') -> 0 <= n.
Proof.
  unfold getVarint. assert (G : forall k shift acc r, 0 <= acc -> getVarintLoop k shift acc r = Some (n, r') -> 0 <= n);
    [|by apply G].
  induction k as [|k IH]; intros shift acc r0 Ha; cbn [getVarintLoop]; [intros [= <- _]; lia|].
  destruct (takeBytes 1 r0) as [[] r1]; [|intros [= <- _]; lia]. destruct (rd _ _) as [b|]; [|done]. bnd.
  assert (0 <= acc .| u64 ((b .& 0x7F) .<< shift)) by (apply Z.lor_nonneg; split; [done|by apply Z.mod_pos_bound]).
  destruct (_ =? 0); [by intros [= <- _]|by apply IH].
Qed.

Lemma remaining_extend r more : Valid r -> Valid (extend r more) -> ok_ r = true ->
  remaining (extend r more) = remaining r + len more.
Proof.
  intros [V S] [V' S'] O. unfold remaining, n_ in *. cbn [extend p_ at_ ok_] in *. rewrite O, len_app in *.
  pose proof (len_nonneg more). rewrite !u64_small by lia. lia.
Qed.

Section Sequences.
Context {A : Type} (c : Codec A) (like : relation A) (fits : A -> Prop) (L : Lawful c like fits).

Lemma getEach_put xs : forall xs0 r rest, Forall2 like xs0 xs -> Forall fits xs -> Before r (putEach c xs ++ rest) ->
  getEach c xs0 r = Some (xs, advance r (len (putEach c xs))).
Proof.
  induction xs as [|x xs IH]; intros xs0 r rest HL HF HB; inversion HL as [|x0 ? ? ? Hx Hxs]; subst; cbn [getEach].
  { destruct HB as (_ & O & _). change (len (putEach c [])) with 0. by rewrite advance_0. }
  apply Forall_cons_1 in HF as [Hf HF]. cbn [putEach flat_map] in *. fold (putEach c xs) in *. rewrite <- app_assoc in HB.
  rewrite (lw_roundtrip _ _ _ L x0 x r _ Hx Hf HB). bnd.
  apply before_advance in HB. rewrite (IH _ _ rest Hxs HF HB). bnd. by rewrite advance_add, len_app.
Qed.

Lemma getEach_total xs0 : forall r, Valid r -> exists xs r', getEach c xs0 r = Some (xs, r') /\
  Forall2 like xs0 xs /\ Follows r r'.
Proof.
  induction xs0 as [|x0 xs0 IH]; intros r HV; cbn [getEach].
  { do 2 eexists. split; [done|]. split; [constructor|by apply follows_refl]. }
  destruct (lw_total _ _ _ L x0 r HV) as (x & r1 & -> & Hx & F1). bnd.
  destruct (IH r1) as (xs & r2 & -> & Hxs & F2); [eauto using follows_valid|]. bnd.
  do 2 eexists. split; [done|]. split; [by constructor|eauto using follows_trans].
Qed.

Lemma getEach_stable more xs0 : forall r xs r', Valid r -> Valid (extend r more) ->
  getEach c xs0 r = Some (xs, r') -> ok_ r' = true -> getEach c xs0 (extend r more) = Some (xs, extend r' more).
Proof.
  induction xs0 as [|x0 xs0 IH]; intros r xs r' HV HV'; cbn [getEach]; [by intros [= <- <-]|].
  destruct (lw_total _ _ _ L x0 r HV) as (x & r1 & E1 & Hx & F1). rewrite E1. bnd.
  assert (V1 : Valid r1) by (eauto using follows_valid).
  destruct (getEach_total xs0 r1 V1) as (xs1 & r2 & E2 & _ & F2). rewrite E2. bnd. intros [= <- <-] O.
  rewrite (lw_stable _ _ _ L x0 r x r1 more HV HV' E1) by (by apply F2). bnd.
  rewrite (IH r1 xs1 r2 V1) by (done || eauto using valid_extend_follows). done.
Qed.

Lemma arrayC_lawful n : Lawful (arrayC c) (Forall2 like) (fun xs => len xs = n /\ Forall fits xs).
Proof.
  destruct L as [E _ _ _]. split; cbn [arrayC put get].
  - split; [intros xs; induction xs; constructor; [reflexivity|done]
           |intros xs ys; induction 1; constructor; [by symmetry|done]|].
    intros xs ys zs H. revert zs. induction H; intros zs Hz; inversion Hz; subst; constructor; [by etransitivity|auto].
  - intros xs0 xs r rest HL [_ HF] HB. by eapply getEach_put.
  - intros xs0 r HV. by apply getEach_total.
  - intros xs0 r xs r' more. apply getEach_stable.
Qed.

Lemma putEach_len xs : (forall x, fits x -> 0 < len (put c x)) -> Forall fits xs -> len xs <= len (putEach c xs).
Proof.
  intros HP. induction 1 as [|x xs Hx _ IH]; [done|]. cbn [putEach flat_map]. fold (putEach c xs).
  rewrite len_cons, len_app. pose proof (HP x Hx). lia.
Qed.

Lemma seqC_lawful zero : (forall x, fits x -> 0 < len (put c x)) -> (forall x, fits x -> like zero x) ->
  Lawful (seqC c zero) anything (Forall fits).
Proof.
  intros HP HZ. split; [apply _|..]; cbn [seqC put get].
  - intros _ xs r rest _ HF HB. rewrite <- app_assoc in HB. pose proof (before_len _ _ HB) as [HL HB2].
    pose proof (putEach_len xs HP HF) as Hn. rewrite !len_app in HL. pose proof (len_nonneg rest).
    pose proof (len_nonneg (putVarint (len xs))). pose proof (len_nonneg xs).
    pose proof (lw_roundtrip _ _ _ varintC_lawful 0 (len xs) r _ I ltac:(unfold U64; lia) HB) as Ev.
    cbn [varintC put get] in Ev. rewrite Ev. bnd. apply before_advance in HB.
    destruct (before_len _ _ HB) as [HL2 HB3]. rewrite len_app in HL2. unfold remaining. cbn [advance ok_ negb orb n_ p_ at_] in *.
    unfold n_ in *. cbn [advance p_ at_] in *.
    rewrite (u64_small (len (p_ r) - _)) by lia. rewrite u64_small, (proj2 (Z.ltb_ge _ _)) by lia.
    rewrite (getEach_put xs _ _ rest); [|..|done|done].
    + by rewrite advance_add, len_app.
    + unfold len. rewrite Nat2Z.id. clear -HF HZ. induction HF; cbn; constructor; auto.
  - intros a0 r HV. destruct (lw_total _ _ _ varintC_lawful 0 r HV) as (n & r1 & E & _ & F).
    cbn [varintC get] in E. rewrite E. bnd. destruct (_ || _).
    + do 2 eexists. split; [done|]. split; [done|]. by apply follows_fail.
    + destruct (getEach_total (replicate (Z.to_nat n) zero) r1) as (xs & r2 & -> & _ & F2); [eauto using follows_valid|].
      do 2 eexists. split; [done|]. split; [done|eauto using follows_trans].
  - intros a0 r xs r' more HV HV'. destruct (lw_total _ _ _ varintC_lawful 0 r HV) as (n & r1 & E & _ & F).
    cbn [varintC get] in E. rewrite E. bnd. assert (V1 : Valid r1) by (eauto using follows_valid).
    assert (V1' : Valid (extend r1 more)) by (eauto using valid_extend_follows).
    destruct (ok_ r1) eqn:O1; cbn [negb orb]; [|by intros [= <- <-]].
    destruct (Z.ltb_spec (u64 (remaining r1 + 1)) n) as [|Hn]; [by intros [= <- <-]|]. intros E2 O2.
    pose proof (lw_stable _ _ _ varintC_lawful 0 r n r1 more HV HV' E O1) as Ev. cbn [varintC get] in Ev. rewrite Ev. bnd.
    rewrite (remaining_extend r1 more) by done. pose proof (len_nonneg more). cbn [extend ok_]. rewrite O1. cbn [negb orb].
    assert (HR : forall q, Valid q -> 0 <= remaining q < 9223372036854775808).
    { intros q [V S]. unfold remaining, n_ in *. destruct (ok_ q); [rewrite u64_small|]; lia. }
    pose proof (HR r1 V1). pose proof (HR _ V1') as HR2. rewrite remaining_extend in HR2 by done.
    rewrite u64_small in Hn |- * by lia. rewrite (proj2 (Z.ltb_ge _ _)) by lia. by apply getEach_stable.
Qed.
End Sequences.

Lemma stringC_lawful : Lawful stringC anything (fun _ => True).
Proof.
  split; [apply _|..]; cbn [stringC put get].
  - intros _ xs r rest _ _ HB. rewrite <- app_assoc in HB. pose proof (before_len _ _ HB) as [HL HB2].
    rewrite !len_app in HL. pose proof (len_nonneg rest). pose proof (len_nonneg (putVarint (len xs))). pose proof (len_nonneg xs).
    pose proof (lw_roundtrip _ _ _ varintC_lawful 0 (len xs) r _ I ltac:(unfold U64; lia) HB) as Ev.
    cbn [varintC put get] in Ev. rewrite Ev. bnd. apply before_advance in HB.
    destruct (before_len _ _ HB) as [HL2 HB3]. rewrite len_app in HL2.
    destruct (data_split _ _ _ HB) as (pre & Ep & Lp). rewrite (take_before _ _ _ HB).
    unfold remaining. cbn [advance ok_ negb orb p_ at_ snd] in *. unfold n_ in *. cbn [advance p_ at_] in *.
    rewrite u64_small, (proj2 (Z.ltb_ge _ _)), <- Lp, Ep by lia. rewrite slice_app by done. bnd.
    unfold advance. cbn [p_ at_]. rewrite Ep, len_app. do 3 f_equal. lia.
  - intros a0 r HV. destruct (lw_total _ _ _ varintC_lawful 0 r HV) as (n & r1 & E & _ & F).
    cbn [varintC get] in E. rewrite E. bnd. assert (V1 : Valid r1) by eauto using follows_valid.
    destruct (ok_ r1) eqn:O; cbn [negb orb].
    2: { do 2 eexists. split; [done|]. split; [done|by apply follows_fail]. }
    destruct (Z.ltb_spec (remaining r1) n) as [|Hn].
    { do 2 eexists. split; [done|]. split; [done|by apply follows_fail]. }
    assert (H0 : 0 <= n) by (by eapply getVarint_nonneg).
    destruct (V1) as [V S]. unfold remaining in Hn. rewrite O in Hn. unfold n_ in *. rewrite u64_small in Hn by lia.
    destruct (slice_sl (p_ r1) (at_ r1) n) as [-> _]; [lia..|]. bnd.
    destruct (take_cases n r1 H0 V1) as [(-> & _ & _ & F2)|(-> & [Ho|Ho])]; [|congruence|unfold n_ in Ho; lia].
    do 2 eexists. split; [done|]. split; [done|]. cbn [snd]. eauto using follows_trans.
  - intros a0 r xs r' more HV HV'. destruct (lw_total _ _ _ varintC_lawful 0 r HV) as (n & r1 & E & _ & F).
    cbn [varintC get] in E. rewrite E. bnd. assert (V1 : Valid r1) by eauto using follows_valid.
    assert (V1' : Valid (extend r1 more)) by eauto using valid_extend_follows.
    destruct (ok_ r1) eqn:O1; cbn [negb orb]; [|by intros [= <- <-]].
    destruct (Z.ltb_spec (remaining r1) n) as [|Hn]; [by intros [= <- <-]|].
    pose proof (lw_stable _ _ _ varintC_lawful 0 r n r1 more HV HV' E O1) as Ev. cbn [varintC get] in Ev. rewrite Ev. bnd.
    rewrite (remaining_extend r1 more) by done. pose proof (len_nonneg more). cbn [extend ok_]. rewrite O1. cbn [negb orb].
    rewrite (proj2 (Z.ltb_ge _ _)) by lia. cbn [extend p_ at_].
    destruct (slice (p_ r1) (at_ r1) n) as [s|] eqn:Es; [|done]. rewrite (slice_app_Some _ more _ _ _ Es). bnd.
    destruct (takeBytes n r1) as [[] r2] eqn:Et; cbn [snd]; intros [= <- <-] O2.
    + by rewrite (take_stable _ _ _ _ Et V1 V1').
    + unfold takeBytes in Et. destruct (_ || _); [|done]. by injection Et as <-.
Qed.

(** ** Classes *)

Section Classes.
Context {S : Type} (likeS : relation S) (fitsS : S -> Prop) {EQ : Equivalence likeS}.

(** A field whose encoding is lawful and whose replacement keeps the rest. *)
Definition FieldOk (f : Field S) : Prop :=
  exists like fits, Lawful (fieldCodec f) like fits /\
    (forall s0 s, likeS s0 s -> like (fieldGet f s0) (fieldGet f s)) /\
    (forall s, fitsS s -> fits (fieldGet f s)) /\
    (forall s v, like (fieldGet f s) v -> likeS s (fieldSet f v s)).

(** The fields of [s] put into [s0]. *)
Definition restore (fs : list (Field S)) (s s0 : S) : S :=
  foldl (fun s0 f => fieldSet f (fieldGet f s) s0) s0 fs.

Lemma getFields_put fs : forall s0 s r rest, Forall FieldOk fs -> likeS s0 s -> fitsS s ->
  Before r (putFields fs s ++ rest) ->
  getFields fs s0 r = Some (restore fs s s0, advance r (len (putFields fs s))).
Proof.
  induction fs as [|f fs IH]; intros s0 s r rest HF HL Hs HB; cbn [getFields].
  { destruct HB as (_ & O & _). change (len (putFields [] s)) with 0. by rewrite advance_0. }
  apply Forall_cons_1 in HF as [(like & fits & L & H1 & H2 & H3) HF].
  cbn [putFields flat_map] in *. fold (putFields fs s) in *. rewrite <- app_assoc in HB.
  rewrite (lw_roundtrip _ _ _ L _ (fieldGet f s) r _ (H1 _ _ HL) (H2 _ Hs) HB). bnd.
  apply before_advance in HB.
  rewrite (IH (fieldSet f (fieldGet f s) s0) s _ rest HF); [| |done|done].
  - by rewrite advance_add, len_app.
  - transitivity s0; [|done]. symmetry. by apply H3, H1.
Qed.

Lemma getFields_total fs : forall s0 r, Forall FieldOk fs -> Valid r ->
  exists s r', getFields fs s0 r = Some (s, r') /\ likeS s0 s /\ Follows r r'.
Proof.
  induction fs as [|f fs IH]; intros s0 r HF HV; cbn [getFields].
  { do 2 eexists. split; [done|]. split; [done|by apply follows_refl]. }
  apply Forall_cons_1 in HF as [(like & fits & L & H1 & H2 & H3) HF].
  destruct (lw_total _ _ _ L (fieldGet f s0) r HV) as (v & r1 & -> & Hv & F1). bnd.
  destruct (IH (fieldSet f v s0) r1 HF) as (s & r2 & -> & Hs & F2); [eauto using follows_valid|].
  do 2 eexists. split; [done|]. split; [by etransitivity; [apply H3|]|eauto using follows_trans].
Qed.

Lemma getFields_stable more fs : forall s0 r s r', Forall FieldOk fs -> Valid r -> Valid (extend r more) ->
  getFields fs s0 r = Some (s, r') -> ok_ r' = true -> getFields fs s0 (extend r more) = Some (s, extend r' more).
Proof.
  induction fs as [|f fs IH]; intros s0 r s r' HF HV HV'; cbn [getFields]; [by intros [= <- <-]|].
  apply Forall_cons_1 in HF as [(like & fits & L & H1 & H2 & H3) HF].
  destruct (lw_total _ _ _ L (fieldGet f s0) r HV) as (v & r1 & E1 & Hv & F1). rewrite E1. bnd.
  assert (V1 : Valid r1) by eauto using follows_valid. intros E O.
  assert (O1 : ok_ r1 = true).
  { destruct (getFields_total fs (fieldSet f v s0) r1 HF V1) as (s2 & r2 & E2 & _ & F2). rewrite E2 in E.
    injection E as <- <-. by apply F2. }
  rewrite (lw_stable _ _ _ L _ r v r1 more HV HV' E1 O1). bnd. apply IH; eauto using valid_extend_follows.
Qed.

Lemma visitC_lawful fs : Forall FieldOk fs -> (forall s0 s, likeS s0 s -> fitsS s -> restore fs s s0 = s) ->
  Lawful (visitC fs) likeS fitsS.
Proof.
  intros HF HR. split; [done|..]; cbn [visitC put get].
  - intros s0 s r rest HL Hs HB. rewrite (getFields_put fs s0 s r rest) by done. by rewrite HR.
  - intros s0 r HV. by apply getFields_total.
  - intros s0 r s r' more. by apply getFields_stable.
Qed.

Lemma checkedC_lawful c valid : Lawful c likeS fitsS -> (forall s, fitsS s -> valid s = true) ->
  Lawful (checkedC c valid) likeS fitsS.
Proof.
  intros L HV. split; [done|..]; cbn [checkedC put get].
  - intros s0 s r rest HL Hs HB. rewrite (lw_roundtrip _ _ _ L s0 s r rest) by done. bnd. by rewrite HV.
  - intros s0 r HVr. destruct (lw_total _ _ _ L s0 r HVr) as (s & r' & -> & Hs & F). bnd.
    do 2 eexists. split; [done|]. split; [done|]. destruct (valid s); [done|by apply follows_fail].
  - intros s0 r s r' more HVr HVr' E O. destruct (get c s0 r) as [[s1 r1]|] eqn:E1; [|done]. cbn [mbind option_bind] in E.
    injection E as -> <-. destruct (valid s) eqn:Ev; [|done].
    rewrite (lw_stable _ _ _ L s0 r s r1 more HVr HVr' E1 O). bnd. by rewrite Ev.
Qed.
End Classes.

(** A field of a plain type, whatever the object. *)
Lemma plain_field {S A} (likeS : relation S) (fitsS : S -> Prop) (c : Codec A) (g : S -> A) (st : A -> S -> S) fits :
  Lawful c anything fits -> (forall s, fitsS s -> fits (g s)) -> (forall s v, likeS s (st v s)) ->
  FieldOk likeS fitsS (mkField c g st).
Proof. intros L H1 H2. exists anything, fits. by split_and!. Qed.

(** ** Truncation *)

(** A value is never read from less than its bytes. *)
Lemma cut_fails {A} (c : Codec A) like fits (L : Lawful c like fits) a0 a r cut more :
  like a0 a -> fits a -> Before r cut -> cut ++ more = put c a -> more <> [] -> Valid (extend r more) ->
  exists a' r', get c a0 r = Some (a', r') /\ ok_ r' = false.
Proof.
  intros HL Hf HB Ec Hm HV'. destruct (HB) as (HV & O & Ea).
  destruct (lw_total _ _ _ L a0 r HV) as (a' & r' & E & _ & F). exists a', r'. split; [done|].
  destruct (ok_ r') eqn:O'; [exfalso|done].
  pose proof (lw_stable _ _ _ L a0 r a' r' more HV HV' E O') as E2.
  assert (HB' : Before (extend r more) (put c a ++ [])).
  { split; [done|]. split; [done|]. rewrite app_nil_r, <- Ec, <- Ea. unfold ahead. cbn [extend p_ at_].
    apply drop_app_le. destruct HV as [V _]. unfold n_, len in V. lia. }
  rewrite (lw_roundtrip _ _ _ L a0 a _ [] HL Hf HB') in E2. injection E2 as _ E2.
  assert (Et : at_ r + len (put c a) = at_ r') by (by inversion E2).
  destruct F as [_ HA _]. destruct (before_len _ _ HB) as [HL2 _].
  rewrite <- Ec, len_app in Et. destruct more; [done|]. rewrite len_cons in Et. pose proof (len_nonneg more). lia.
Qed.

(** ** Runs *)

Lemma zeroRun_le l : (zeroRun l <= length l)%nat.
Proof. induction l as [|b l IH]; cbn; [lia|]. destruct (b =? 0); lia. Qed.

Lemma zeroRun_zeros l : firstn (zeroRun l) l = replicate (zeroRun l) 0.
Proof.
  induction l as [|b l IH]; cbn; [done|]. destruct (Z.eqb_spec b 0) as [->|]; [|done]. cbn. by rewrite IH.
Qed.

Lemma literalRun_le fuel : forall l, (literalRun fuel l <= length l)%nat.
Proof.
  induction fuel as [|fuel IH]; intros [|b t]; cbn [literalRun]; try (cbn; lia).
  destruct (b =? 0); [|cbn; specialize (IH t); lia]. destruct (_ <=? _)%nat; [lia|].
  pose proof (zeroRun_le (b :: t)). specialize (IH (drop (zeroRun (b :: t)) (b :: t))). rewrite length_drop in IH. lia.
Qed.

(** Zeros, then a literal: one of the two is there. *)
Lemma runs_progress b t : let l := b :: t in
  (1 <= zeroRun l + literalRun (length (drop (zeroRun l) l)) (drop (zeroRun l) l))%nat.
Proof.
  cbn zeta. destruct (Z.eqb_spec b 0) as [->|Hb]; [cbn; lia|].
  replace (zeroRun (b :: t)) with 0%nat by (cbn; by rewrite (proj2 (Z.eqb_neq _ _) Hb)).
  cbn [drop length literalRun]. rewrite (proj2 (Z.eqb_neq _ _) Hb). lia.
Qed.

(** ** Raw bytes *)

Lemma readBytes_put bs r rest : Before r (bs ++ rest) -> readBytes (len bs) r = Some (bs, advance r (len bs)).
Proof.
  intros HB. unfold readBytes. rewrite (take_before r bs rest HB).
  destruct (data_split r bs rest HB) as (pre & Ep & Lp). cbn [advance p_ at_].
  rewrite Z.add_simpl_r, <- Lp, Ep, slice_app by done. done.
Qed.

Lemma readBytes_total n r : 0 <= n -> Valid r ->
  exists bs r', readBytes n r = Some (bs, r') /\ len bs = n /\ Follows r r'.
Proof.
  intros Hn HV. unfold readBytes. destruct (take_cases n r Hn HV) as [(-> & O & L & F)|(-> & _)].
  - cbn [advance p_ at_]. rewrite Z.add_simpl_r. destruct (slice_sl (p_ r) (at_ r) n) as [-> Ls];
      [apply HV|done|unfold n_ in L; lia|]. bnd. do 2 eexists. done.
  - do 2 eexists. split; [done|]. split; [by apply len_replicate|by apply follows_fail, follows_refl].
Qed.

Lemma readBytes_stable more n r bs r' : Valid r -> Valid (extend r more) -> 0 <= n ->
  readBytes n r = Some (bs, r') -> ok_ r' = true -> readBytes n (extend r more) = Some (bs, extend r' more).
Proof.
  intros HV HV' Hn. unfold readBytes. destruct (take_cases n r Hn HV) as [(Et & _)|(-> & _)]; [|by intros [= <- <-]].
  rewrite Et, (take_stable _ _ _ _ Et HV HV'). cbn [extend advance p_ at_].
  destruct (slice _ _ _) as [s|] eqn:Es; [|done]. rewrite (slice_app_Some _ more _ _ _ Es). bnd. by intros [= <- <-].
Qed.

(** ** The round trip *)

Lemma varint_back v r rest : U64 v -> Before r (putVarint v ++ rest) ->
  getVarint r = Some (v, advance r (len (putVarint v))) /\ Before (advance r (len (putVarint v))) rest.
Proof.
  intros Hv HB. split; [|by apply before_advance].
  exact (lw_roundtrip _ _ _ varintC_lawful 0 v r rest I Hv HB).
Qed.

(** One turn of the reader on the two runs at the front. *)
Lemma getBlobLoop_step fuel filled z lit tail r rest : let v := filled ++ replicate (z + length lit + tail) 0 in
  (1 <= z + length lit)%nat -> len v <= kMaxBlob ->
  Before r (putVarint (Z.of_nat z) ++ putVarint (len lit) ++ lit ++ rest) ->
  exists r', getBlobLoop (S fuel) v (len filled) r =
    getBlobLoop fuel ((filled ++ replicate z 0 ++ lit) ++ replicate tail 0) (len (filled ++ replicate z 0 ++ lit)) r' /\
    r' = advance r (len (putVarint (Z.of_nat z) ++ putVarint (len lit) ++ lit)) /\ Before r' rest.
Proof.
  intros v Hp Hl HB. pose proof (len_nonneg filled). unfold kMaxBlob in Hl.
  assert (Lv : len v = len filled + Z.of_nat z + len lit + Z.of_nat tail)
    by (unfold v; rewrite len_app, length_replicate_len; unfold len; lia).
  pose proof (len_nonneg lit). cbn [getBlobLoop].
  rewrite (proj2 (Z.ltb_lt (len filled) (len v))) by (unfold len in *; lia).
  destruct (varint_back (Z.of_nat z) r _ ltac:(unfold U64; lia) HB) as [-> HB1]. bnd.
  destruct (varint_back (len lit) _ _ ltac:(unfold U64; lia) HB1) as [-> HB2]. bnd.
  rewrite (readBytes_put lit _ rest HB2). apply before_advance in HB2. cbn [advance ok_ negb].
  rewrite !u64_small, !(proj2 (Z.ltb_ge _ _)) by lia. bnd.
  assert (Ec : copyTo v (len filled + Z.of_nat z) lit = Some ((filled ++ replicate z 0 ++ lit) ++ replicate tail 0)).
  { unfold v. rewrite !replicate_add, <- !app_assoc, (app_assoc filled), (app_assoc filled).
    rewrite copyTo_app; [done|rewrite len_app, length_replicate_len; lia|rewrite length_replicate_len; done]. }
  rewrite Ec. bnd. cbn [advance ok_ negb]. replace ((Z.of_nat z =? 0) && (len lit =? 0)) with false.
  2: { symmetry. apply andb_false_iff. rewrite !Z.eqb_neq. unfold len. lia. }
  eexists. split; [f_equal; rewrite !len_app, length_replicate_len; lia|]. split; [|exact HB2].
  by rewrite !advance_add, !len_app, Z.add_assoc.
Qed.

Lemma getBlobLoop_put rest : forall fuel wfuel l filled r, (length l <= fuel)%nat -> (length l <= wfuel)%nat ->
  len (filled ++ l) <= kMaxBlob -> Before r (blobLoop wfuel l ++ rest) ->
  getBlobLoop fuel (filled ++ replicate (length l) 0) (len filled) r =
  Some (filled ++ l, advance r (len (blobLoop wfuel l))).
Proof.
  induction fuel as [|fuel IH]; intros wfuel [|b t] filled r Hf Hw Hl HB; [|cbn in Hf; lia| |].
  1,2: cbn [length replicate]; rewrite app_nil_r; cbn [getBlobLoop]; rewrite Z.ltb_irrefl;
    replace (blobLoop wfuel []) with (@nil Z) by (by destruct wfuel); change (len (@nil Z)) with 0;
    rewrite advance_0 by apply HB; done.
  destruct wfuel as [|wfuel]; [cbn in Hw; lia|]. cbn [blobLoop] in *. set (l := b :: t) in *.
  pose proof (runs_progress b t) as Hp. fold l in Hp. cbn zeta in Hp.
  pose proof (zeroRun_le l) as Hz. pose proof (zeroRun_zeros l) as Ez. set (z := zeroRun l) in *.
  set (l1 := drop z l) in *. pose proof (literalRun_le (length l1) l1) as Hlit. set (k := literalRun (length l1) l1) in *.
  assert (El : l = replicate z 0 ++ firstn k l1 ++ drop k l1).
  { rewrite <- Ez. unfold l1. by rewrite take_drop, take_drop. }
  assert (Lk : length (firstn k l1) = k) by (rewrite length_take; lia).
  assert (Ln : length l = (z + length (firstn k l1) + length (drop k l1))%nat)
    by (rewrite El at 1; rewrite !length_app, length_replicate; lia).
  replace (Z.of_nat k) with (len (firstn k l1)) in HB |- * by (unfold len; lia).
  rewrite Ln. rewrite <- !app_assoc in HB.
  destruct (getBlobLoop_step fuel filled z (firstn k l1) (length (drop k l1)) r (blobLoop wfuel (drop k l1) ++ rest))
    as (r' & -> & Er & HB').
  - lia.
  - rewrite <- Ln. rewrite len_app in Hl |- *. rewrite length_replicate_len. exact Hl.
  - exact HB.
  - rewrite (IH wfuel).
    + rewrite Er, advance_add, !len_app. f_equal. f_equal; [rewrite <- !app_assoc; by rewrite <- El|].
      f_equal. lia.
    + rewrite Ln in Hf. lia.
    + rewrite Ln in Hw. lia.
    + rewrite <- !app_assoc, <- El. exact Hl.
    + exact HB'.
Qed.

(** ** Any bytes *)

Lemma varint_total r : Valid r -> exists v r', getVarint r = Some (v, r') /\ 0 <= v /\ Follows r r' /\ Valid r'.
Proof.
  intros HV. destruct (lw_total _ _ _ varintC_lawful 0 r HV) as (v & r' & E & _ & F). exists v, r'.
  split; [done|]. split; [by eapply getVarint_nonneg|]. split; [done|eauto using follows_valid].
Qed.

Lemma varint_stable more r v r' : Valid r -> Valid (extend r more) -> getVarint r = Some (v, r') -> ok_ r' = true ->
  getVarint (extend r more) = Some (v, extend r' more).
Proof. intros HV HV' E O. exact (lw_stable _ _ _ varintC_lawful 0 r v r' more HV HV' E O). Qed.

Lemma getBlobLoop_total : forall fuel v out r, Valid r -> 0 <= out <= len v -> len v <= kMaxBlob ->
  len v - out <= Z.of_nat fuel ->
  exists v' r', getBlobLoop fuel v out r = Some (v', r') /\ Follows r r' /\ (ok_ r' = true -> len v' = len v).
Proof.
  induction fuel as [|fuel IH]; intros v out r HV Ho Hv Hf; cbn [getBlobLoop].
  { rewrite (proj2 (Z.ltb_ge _ _)) by lia. do 2 eexists. split; [done|]. by split; [apply follows_refl|]. }
  destruct (Z.ltb_spec out (len v)).
  2: { do 2 eexists. split; [done|]. by split; [apply follows_refl|]. }
  destruct (varint_total r HV) as (z & r1 & -> & Hz & F1 & V1). bnd.
  destruct (varint_total r1 V1) as (lit & r2 & -> & Hlit & F2 & V2). bnd.
  assert (F12 : Follows r r2) by eauto using follows_trans. unfold kMaxBlob in Hv.
  assert (Bad : exists v' r', Some ([], fail r2) = Some (v', r') /\ Follows r r' /\ (ok_ r' = true -> len (v' : list Z) = len v)).
  { do 2 eexists. split; [done|]. split; [by apply follows_fail|done]. }
  destruct (ok_ r2) eqn:O2; cbn [negb]; [|do 2 eexists; split; [done|]; split; [done|congruence]].
  rewrite (u64_small (len v - out)) by lia. destruct (Z.ltb_spec (len v - out) z); [exact Bad|].
  rewrite u64_small by lia. destruct (Z.ltb_spec (len v - (out + z)) lit); [exact Bad|].
  destruct (readBytes_total lit r2 Hlit V2) as (bs & r3 & -> & Lb & F3). bnd.
  assert (F13 : Follows r r3) by eauto using follows_trans.
  destruct (copyTo_ok (fun _ => True) v bs (out + z)) as (v1 & -> & Lv1 & _); [lia|lia|by apply Forall_true..|]. bnd.
  destruct (ok_ r3) eqn:O3; cbn [negb]; [|do 2 eexists; split; [done|]; split; [done|congruence]].
  destruct ((z =? 0) && (lit =? 0)) eqn:Ep.
  { do 2 eexists. split; [done|]. split; [by apply follows_fail|done]. }
  assert (1 <= z + lit) by (apply andb_false_iff in Ep; rewrite !Z.eqb_neq in Ep; lia).
  destruct (IH v1 (out + z + lit) r3) as (v2 & r4 & -> & F4 & L4); [eauto using follows_valid|lia|unfold kMaxBlob; lia|lia|].
  do 2 eexists. split; [done|]. split; [eauto using follows_trans|]. intros O. rewrite L4 by done. lia.
Qed.

Lemma getBlobLoop_stable more : forall fuel v out r v' r', Valid r -> Valid (extend r more) ->
  getBlobLoop fuel v out r = Some (v', r') -> ok_ r' = true ->
  getBlobLoop fuel v out (extend r more) = Some (v', extend r' more).
Proof.
  induction fuel as [|fuel IH]; intros v out r v' r' HV HV'; cbn [getBlobLoop];
    (destruct (out <? len v); [|by intros [= <- <-]]); [done|].
  destruct (varint_total r HV) as (z & r1 & E1 & Hz & F1 & V1). rewrite E1. bnd.
  destruct (varint_total r1 V1) as (lit & r2 & E2 & Hlit & F2 & V2). rewrite E2. bnd.
  assert (V1' : Valid (extend r1 more)) by eauto using valid_extend_follows.
  assert (V2' : Valid (extend r2 more)) by eauto using valid_extend_follows.
  destruct (ok_ r2) eqn:O2; cbn [negb]; [|intros [= <- <-]; congruence].
  rewrite (varint_stable more r z r1 HV HV' E1) by (by apply F2). bnd.
  rewrite (varint_stable more r1 lit r2 V1 V1' E2 O2). bnd. cbn [extend ok_]. rewrite O2. cbn [negb].
  destruct (_ <? z); [by intros [= <- <-]|]. destruct (_ <? lit); [by intros [= <- <-]|].
  destruct (readBytes_total lit r2 Hlit V2) as (bs & r3 & E3 & Lb & F3). rewrite E3. bnd.
  destruct (copyTo v (out + z) bs) as [v1|] eqn:Ec; [|done]. bnd.
  destruct (ok_ r3) eqn:O3; cbn [negb]; [|intros [= <- <-]; congruence].
  rewrite (readBytes_stable more lit r2 bs r3 V2 V2' Hlit E3 O3). bnd. rewrite Ec. bnd. cbn [extend ok_]. rewrite O3.
  cbn [negb]. destruct (_ && _); [by intros [= <- <-]|].
  apply IH; [eauto using follows_valid|]. eauto using valid_extend_follows, follows_valid.
Qed.

Definition Blob (v : list Z) : Prop := len v <= kMaxBlob.

Lemma blobC_lawful : Lawful blobC anything Blob.
Proof.
  split; [apply _|..]; cbn [blobC put get].
  - intros _ v r rest _ Hv HB. unfold putBlob, getBlob, Blob, kMaxBlob in *. rewrite <- app_assoc in HB.
    pose proof (len_nonneg v).
    destruct (varint_back (len v) r _ ltac:(unfold U64; lia) HB) as [-> HB1]. bnd. cbn [advance ok_ negb orb].
    rewrite (proj2 (Z.ltb_ge _ _)) by lia.
    pose proof (getBlobLoop_put rest (length v) (length v) v [] (advance r (len (putVarint (len v))))) as G.
    cbn [app] in G. change (len (@nil Z)) with 0 in G. replace (Z.to_nat (len v)) with (length v) by (unfold len; lia).
    rewrite G; [|lia|lia|exact Hv|exact HB1]. by rewrite advance_add, len_app.
  - intros a0 r HV. unfold getBlob. destruct (varint_total r HV) as (n & r1 & -> & Hn & F1 & V1). bnd.
    destruct (ok_ r1); cbn [negb orb]; [|do 2 eexists; split; [done|]; split; [done|by apply follows_fail]].
    destruct (Z.ltb_spec kMaxBlob n); [do 2 eexists; split; [done|]; split; [done|by apply follows_fail]|].
    destruct (getBlobLoop_total (Z.to_nat n) (replicate (Z.to_nat n) 0) 0 r1 V1) as (v & r2 & -> & F2 & _);
      rewrite ?len_replicate; try lia. do 2 eexists. split; [done|]. split; [done|]. eauto using follows_trans.
  - intros a0 r v r' more HV HV'. unfold getBlob. destruct (varint_total r HV) as (n & r1 & E1 & Hn & F1 & V1).
    rewrite E1. bnd. destruct (ok_ r1) eqn:O1; cbn [negb orb]; [|by intros [= <- <-]].
    destruct (kMaxBlob <? n) eqn:En; [by intros [= <- <-]|].
    rewrite (varint_stable more r n r1 HV HV' E1 O1). bnd. cbn [extend ok_]. rewrite O1, En. cbn [negb orb].
    apply getBlobLoop_stable; eauto using valid_extend_follows.
Qed.

(** ** Bytes *)

Lemma any_lengths {A} (l l' : list A) : length l = length l' <-> Forall2 anything l l'.
Proof.
  split; [|by induction 1; cbn; congruence]. revert l'. induction l; intros [|? ?]; cbn; try done; constructor; [done|auto].
Qed.

Lemma bytesC_lawful : Lawful (seqC (intC 1 false) 0) anything (Forall byte).
Proof. eapply seqC_lawful; [apply (intC_lawful 1 false); lia|intros x _; by vm_compute|done]. Qed.
