(* ===== verification/SaveMachine.v ===== *)
(** * SaveMachine: saving and restoring a machine

    [src/SaveStateMachines.cpp]: the header, the three chunks, the checks before
    anything is changed, and the rollback of a load that fails half-way; from
    [src/LleSession.h] the registry whose word the header carries.  [saveT] and
    [loadT] are templates over the machine, here the class [Machine]. *)

From S2P Require Import Prelude Vectors SaveState.
From stdpp Require Import base list numbers option decidable.

Open Scope Z_scope.

(** ** The registry of a session *)

Record Registry := mkRegistry { hleModules_ : Z; qualified_ : bool; requested_ : bool }.

Definition beginSession (strict : bool) : Registry := mkRegistry 0 false strict.
Definition activateHle (module : Z) (r : Registry) : Registry :=
  mkRegistry (hleModules_ r .| module) false (requested_ r).
Definition setQualified (on : bool) (r : Registry) : Registry :=
  mkRegistry (hleModules_ r) (on && (hleModules_ r =? 0)) (requested_ r).
Definition qualified (r : Registry) : bool := qualified_ r && (hleModules_ r =? 0).

Definition SnapshotStrict : Z := 1.
Definition SnapshotQualified : Z := 2.
Definition SnapshotHleShift : Z := 8.

Definition snapshotFlags (r : Registry) : Z :=
  (if requested_ r then SnapshotStrict else 0) .| (if qualified r then SnapshotQualified else 0) .|
  u32 (hleModules_ r .<< SnapshotHleShift).
Definition snapshotHleModules (flags : Z) : Z := flags .>> SnapshotHleShift.

(** ** The header *)

Definition kMagic : list Z := [80; 79; 77; 54; 56; 75; 83; 83].
Definition kVersion : Z := 28.

Record Header := mkHeader {
  version : Z;
  machineKind : Z;
  romChecksum : Z;
  ramSize : Z;
  emuCycles : Z;
  conformance : Z
}.

#[export] Instance eta_header : Eta Header := fun h =>
  mkHeader (version h) (machineKind h) (romChecksum h) (ramSize h) (emuCycles h) (conformance h).
Definition set_version := ltac:(set_field version).
Definition set_machineKind := ltac:(set_field machineKind).
Definition set_romChecksum := ltac:(set_field romChecksum).
Definition set_ramSize := ltac:(set_field ramSize).
Definition set_emuCycles := ltac:(set_field emuCycles).
Definition set_conformance := ltac:(set_field conformance).

Definition newHeader : Header := mkHeader kVersion 0 0 0 0 0.

Definition headerC : Codec Header := visitC [
  mkField (intC 4 false) version set_version;
  mkField (intC 4 false) machineKind set_machineKind;
  mkField (intC 4 false) romChecksum set_romChecksum;
  mkField (intC 8 false) ramSize set_ramSize;
  mkField (intC 8 false) emuCycles set_emuCycles;
  mkField (intC 4 false) conformance set_conformance].

Definition kHead : list Z := [72; 69; 65; 68].
Definition kCpu : list Z := [67; 80; 85; 32].
Definition kMach : list Z := [77; 65; 67; 72].

(** ** A machine *)

Class Machine (Mem Cpu : Type) := {
  memC : Codec Mem;
  cpuC : Codec Cpu;
  romChecksumOf : Mem -> Z;
  ramBytes : Mem -> Z;
  machineClock : Cpu -> Z
}.

(** What a load answers; the code words each refusal. *)
Inductive Verdict :=
| NotSaveState | TruncatedHeader | OtherVersion | OtherMachine | OtherRom | NotQualified | OtherRam
| NoHeader | NoChunk | CorruptMachine | CorruptCpu
| Restored (unknown : Z).

Definition restored (v : Verdict) : bool := match v with Restored _ => true | _ => false end.

Section Machine.
Context {Mem Cpu : Type} `{Machine Mem Cpu}.

Definition headerOf (reg : Registry) (mem : Mem) (cpu : Cpu) (kind : Z) : Header :=
  mkHeader kVersion (u32 kind) (romChecksumOf mem) (ramBytes mem) (u64 (machineClock cpu)) (snapshotFlags reg).

Definition saveT (reg : Registry) (mem : Mem) (cpu : Cpu) (kind : Z) : list Z :=
  let out := kMagic in
  let out := chunk out kHead (put headerC (headerOf reg mem cpu kind)) in
  let out := chunk out kCpu (put cpuC cpu) in
  chunk out kMach (put memC mem).

(** The checks on a header chunk; [None] inside: it passes. *)
Definition checkHeader (reg : Registry) (mem : Mem) (kind : Z) (transactional : bool) (body : list Z)
    : option (option Verdict) :=
  a ← get headerC newHeader (newReader body);
  let (h, r) := a : Header * Reader in
  Some (
    if negb (ok_ r) then Some TruncatedHeader else
    if version h <>? kVersion then Some OtherVersion else
    if machineKind h <>? u32 kind then Some OtherMachine else
    if romChecksum h <>? romChecksumOf mem then Some OtherRom else
    if requested_ reg && ((conformance h .& SnapshotQualified =? 0) ||
                          (snapshotHleModules (conformance h) <>? 0)) then Some NotQualified else
    if transactional && (ramSize h <>? ramBytes mem) then Some OtherRam else None).

(** What the first pass has found. *)
Record Found := mkFound {
  haveHead : bool;
  cpuChunk : option (list Z);
  machChunk : option (list Z);
  unknown : Z
}.

(** The first pass over the chunks: a refusal, or what it found. *)
Fixpoint findChunks (fuel : nat) (reg : Registry) (mem : Mem) (kind : Z) (transactional : bool)
    (p : list Z) (f : Found) : option (Verdict + Found) :=
  match fuel with
  | O => None
  | S fuel =>
      n ← nextChunk p;
      match n with
      | None => Some (inr f)
      | Some (cv, p) =>
          if isTag cv kHead then
            c ← checkHeader reg mem kind transactional (data cv);
            match c with
            | Some v => Some (inl v)
            | None => findChunks fuel reg mem kind transactional p
                        (mkFound true (cpuChunk f) (machChunk f) (unknown f))
            end
          else if isTag cv kCpu then
            findChunks fuel reg mem kind transactional p
              (mkFound (haveHead f) (Some (data cv)) (machChunk f) (unknown f))
          else if isTag cv kMach then
            findChunks fuel reg mem kind transactional p
              (mkFound (haveHead f) (cpuChunk f) (Some (data cv)) (unknown f))
          else
            findChunks fuel reg mem kind transactional p
              (mkFound (haveHead f) (cpuChunk f) (machChunk f) (unknown f + 1))
      end
  end.

(** [loadT] but for what it does with a machine it has half changed. *)
Definition loadWith (transactional : bool) (reject : Mem -> Cpu -> option (Mem * Cpu))
    (reg : Registry) (mem : Mem) (cpu : Cpu) (kind : Z) (file : list Z) : option (Mem * Cpu * Verdict) :=
  if len file <? len kMagic then Some (mem, cpu, NotSaveState) else
  magic ← slice file 0 (len kMagic);
  if magic != kMagic then Some (mem, cpu, NotSaveState) else
  f ← findChunks (S (length file)) reg mem kind transactional (drop (length kMagic) file)
        (mkFound false None None 0);
  match f with
  | inl v => Some (mem, cpu, v)
  | inr f =>
      if negb (haveHead f) then Some (mem, cpu, NoHeader) else
      match cpuChunk f, machChunk f with
      | Some cpuBytes, Some machBytes =>
          a ← get memC mem (newReader machBytes);
          let (mem, r) := a : Mem * Reader in
          if negb (ok_ r) then
            b ← reject mem cpu; let (mem, cpu) := b : Mem * Cpu in Some (mem, cpu, CorruptMachine)
          else
          a ← get cpuC cpu (newReader cpuBytes);
          let (cpu, r) := a : Cpu * Reader in
          if negb (ok_ r) then
            b ← reject mem cpu; let (mem, cpu) := b : Mem * Cpu in Some (mem, cpu, CorruptCpu)
          else Some (mem, cpu, Restored (unknown f))
      | _, _ => Some (mem, cpu, NoChunk)
      end
  end.

(** The load of the rollback, which is not transactional. *)
Definition rollbackT (reg : Registry) (kind : Z) (rollback : list Z) (mem : Mem) (cpu : Cpu) : option (Mem * Cpu) :=
  r ← loadWith false (fun mem cpu => Some (mem, cpu)) reg mem cpu kind rollback;
  let '(mem, cpu, _) := r in Some (mem, cpu).

(** [load]: the state before the load is saved first, and put back if it fails. *)
Definition loadT (reg : Registry) (mem : Mem) (cpu : Cpu) (kind : Z) (file : list Z) : option (Mem * Cpu * Verdict) :=
  loadWith true (rollbackT reg kind (saveT reg mem cpu kind)) reg mem cpu kind file.
End Machine.
