(* ===== verification/SaveMachineFacts.v ===== *)
(** * SaveMachineFacts: the container, and what a load restores

    A chunk that has been written is found again with its tag and its bytes;
    any bytes are scanned without leaving the file; what is left of a chunk
    that was cut short is not taken for one.  Then [saveT] and [loadT] for any
    machine whose two halves have lawful encodings; the properties are in
    SaveProps. *)

From S2P Require Import Prelude Vectors SaveState SaveFacts SaveMachine.
From stdpp Require Import base list numbers option decidable sets.

Open Scope Z_scope.

(** ** Writing *)

Lemma wr_mid {A} (pre post : list A) (x v : A) i : i = len pre -> wr (pre ++ x :: post) i v = pre ++ v :: post.
Proof.
  intros ->. unfold wr, len. rewrite Nat2Z.id, insert_app_r_alt by lia. by rewrite Nat.sub_diag.
Qed.

(** The bytes of a chunk. *)
Definition chunkBytes (tag body : list Z) : list Z := tag ++ putInt 4 (len body) ++ body.

Lemma closeChunk_put pre body : len body < 4294967296 ->
  closeChunk (pre ++ [0; 0; 0; 0] ++ body) (len pre) = pre ++ putInt 4 (len body) ++ body.
Proof.
  intros Hb. pose proof (len_nonneg body). unfold closeChunk.
  replace (u32 (len (pre ++ [0; 0; 0; 0] ++ body) - len pre - 4)) with (umod 4 (len body)).
  2: { rewrite !len_app. change (len [0; 0; 0; 0]) with 4. unfold umod, u32. f_equal. lia. }
  change (seqZ 0 4) with [0; 1; 2; 3]. cbn [foldl].
  cbn [app]. rewrite (wr_mid pre) by lia.
  do 3 (rewrite cons_middle, app_assoc, wr_mid by (rewrite !len_snoc; lia)).
  by rewrite <- !app_assoc.
Qed.

Lemma chunk_bytes out tag body : len body < 4294967296 -> chunk out tag body = out ++ chunkBytes tag body.
Proof.
  intros Hb. unfold chunk, openChunk, chunkBytes. rewrite app_assoc, <- (app_assoc (out ++ tag)), <- len_app.
  change (replicate 4 0) with [0; 0; 0; 0]. rewrite closeChunk_put by done. by rewrite <- app_assoc.
Qed.

Lemma chunkBytes_len tag body : len tag = 4 -> len (chunkBytes tag body) = 8 + len body.
Proof. intros Ht. unfold chunkBytes. rewrite !len_app, putInt_len. lia. Qed.

(** ** Reading *)

Lemma nextChunk_put tag body rest : len tag = 4 -> len body < 4294967296 -> small (chunkBytes tag body ++ rest) ->
  nextChunk (chunkBytes tag body ++ rest) = Some (Some (mkView tag body, rest)).
Proof.
  intros Ht Hb Hs. pose proof (len_nonneg body). pose proof (len_nonneg rest). unfold nextChunk.
  pose proof (chunkBytes_len tag body Ht) as Hl. rewrite len_app, Hl in *.
  rewrite (proj2 (Z.ltb_ge _ _)) by lia. unfold chunkBytes. rewrite <- !app_assoc.
  pose proof (slice_app [] tag (putInt 4 (len body) ++ body ++ rest) 0 4 eq_refl (eq_sym Ht)) as Es.
  cbn [app] in Es. rewrite Es. bnd.
  pose proof (orBytes_put 4 (len body) tag (body ++ rest)) as E. rewrite Ht in E. change (Z.of_nat 4) with 4 in E. rewrite E. bnd.
  replace (umod 4 (len body)) with (len body) by (symmetry; apply Z.mod_small; change (2 ^ (8 * Z.of_nat 4)) with 4294967296; lia).
  rewrite u64_small, (proj2 (Z.ltb_ge _ _)) by lia. rewrite (app_assoc tag).
  rewrite (slice_app _ body) by (rewrite ?len_app, ?putInt_len; lia). bnd. do 4 f_equal.
  rewrite app_assoc. apply drop_len_app. rewrite !len_app, putInt_len. lia.
Qed.

(** Any bytes: a chunk, smaller than what it was found in, or none. *)
Lemma nextChunk_total p : small p ->
  nextChunk p = Some None \/
  exists cv rest, nextChunk p = Some (Some (cv, rest)) /\ len rest + 8 + len (data cv) = len p /\ len (tag cv) = 4.
Proof.
  intros Hs. unfold nextChunk. destruct (Z.ltb_spec (len p) 8); [by left|].
  destruct (slice_sl p 0 4) as [-> Lt]; [lia..|]. bnd.
  destruct (orBytes_total 4 p 4 (seqZ 0 4) 0) as (n & -> & Hn); [intros i Hi; apply elem_of_seqZ in Hi; lia|done|]. bnd.
  rewrite u64_small by lia. destruct (Z.ltb_spec (len p - 8) n); [by left|]. right.
  destruct (slice_sl p 8 n) as [-> Ls]; [lia..|]. bnd. do 2 eexists. split; [done|]. cbn [data tag].
  rewrite len_drop, Ls by lia. lia.
Qed.

(** Less than a whole chunk is none. *)
Lemma nextChunk_cut tag body cut more : len tag = 4 -> len body < 4294967296 ->
  cut ++ more = chunkBytes tag body -> more <> [] -> nextChunk cut = Some None.
Proof.
  intros Ht Hb Ec Hm. assert (Hl : len cut < 8 + len body).
  { rewrite <- (chunkBytes_len tag body Ht), <- Ec, len_app. destruct more; [done|]. rewrite len_cons.
    pose proof (len_nonneg more). lia. }
  unfold nextChunk. destruct (Z.ltb_spec (len cut) 8) as [|H8]; [done|].
  destruct (slice_sl cut 0 4) as [-> _]; [lia..|]. bnd.
  destruct (orBytes_total 4 cut 4 (seqZ 0 4) 0) as (n & E & Hn); [intros i Hi; apply elem_of_seqZ in Hi; lia|done|].
  rewrite E. bnd. apply (orBytes_stable _ _ _ _ more) in E. rewrite Ec in E. unfold chunkBytes in E.
  pose proof (orBytes_put 4 (len body) tag body) as E2. rewrite Ht in E2. change (Z.of_nat 4) with 4 in E2. rewrite E2 in E.
  injection E as <-. pose proof (len_nonneg body).
  replace (umod 4 (len body)) with (len body) by (symmetry; apply Z.mod_small; change (2 ^ (8 * Z.of_nat 4)) with 4294967296; lia).
  rewrite u64_small, (proj2 (Z.ltb_lt _ _)) by lia. done.
Qed.

(** ** The header *)

Record HeaderFits (h : Header) : Prop := {
  hf_version : 0 <= version h < 4294967296;
  hf_machineKind : 0 <= machineKind h < 4294967296;
  hf_romChecksum : 0 <= romChecksum h < 4294967296;
  hf_ramSize : 0 <= ramSize h < 18446744073709551616;
  hf_emuCycles : 0 <= emuCycles h < 18446744073709551616;
  hf_conformance : 0 <= conformance h < 4294967296
}.

Lemma headerC_lawful : Lawful headerC anything HeaderFits.
Proof.
  apply visitC_lawful; [apply _| |].
  - repeat constructor; eapply plain_field; try apply intC_lawful; try lia; try done; by intros h [].
  - by intros [] [] _ _.
Qed.

Lemma put_headerC_len h : len (put headerC h) = 32.
Proof. cbn [headerC visitC put putFields flat_map fieldCodec fieldGet intC]. rewrite !len_app, !putInt_len. done. Qed.

Lemma snapshotFlags_range r : 0 <= snapshotFlags r < 4294967296.
Proof.
  assert (H : 0 <= u32 (hleModules_ r .<< SnapshotHleShift) < 4294967296) by (by apply Z.mod_pos_bound).
  unfold snapshotFlags. set (x := u32 _) in *. clearbody x.
  set (a := if requested_ r then _ else _). set (b := if qualified r then _ else _).
  assert (Hab : 0 <= a .| b < 4294967296) by (unfold a, b; destruct (requested_ r), (qualified r); vm_compute; split; congruence).
  set (y := a .| b) in *. clearbody y. split; [apply Z.lor_nonneg; lia|].
  rewrite <- (Z.mod_small y 4294967296), <- (Z.mod_small x 4294967296) by lia.
  change 4294967296 with (2 ^ 32) in *. rewrite <- !Z.land_ones, <- Z.land_lor_distr_l, Z.land_ones by lia.
  by apply Z.mod_pos_bound.
Qed.

(** ** Lawful machines *)

(** [likeM], [likeC]: what a load leaves as it was; the ROM is part of it. *)
Class LawfulMachine {Mem Cpu} (M : Machine Mem Cpu) (likeM : relation Mem) (fitsM : Mem -> Prop)
    (likeC : relation Cpu) (fitsC : Cpu -> Prop) : Prop := {
  lm_mem : Lawful memC likeM fitsM;
  lm_cpu : Lawful cpuC likeC fitsC;
  lm_rom : forall m m', likeM m m' -> romChecksumOf m = romChecksumOf m';
  lm_rom_range : forall m, fitsM m -> 0 <= romChecksumOf m < 4294967296;
  lm_ram_range : forall m, fitsM m -> 0 <= ramBytes m < 18446744073709551616
}.

(** A machine whose chunks have a length that fits its field. *)
Record Storable {Mem Cpu} {M : Machine Mem Cpu} (fitsM : Mem -> Prop) (fitsC : Cpu -> Prop)
    (mem : Mem) (cpu : Cpu) : Prop := {
  so_mem : fitsM mem;
  so_cpu : fitsC cpu;
  so_memLen : len (put memC mem) < 4294967296;
  so_cpuLen : len (put cpuC cpu) < 4294967296
}.

(** The session may load what [reg] saves. *)
Definition Admits (reg0 reg : Registry) : Prop := requested_ reg0 = true -> qualified reg = true.

Lemma qualified_flags reg : qualified reg = true ->
  snapshotFlags reg .& SnapshotQualified <> 0 /\ snapshotHleModules (snapshotFlags reg) = 0.
Proof.
  intros Q. unfold snapshotFlags. rewrite Q. unfold qualified in Q. apply andb_true_iff in Q as [_ Q].
  apply Z.eqb_eq in Q. rewrite Q. destruct (requested_ reg); by vm_compute.
Qed.

Section Facts.
Context {Mem Cpu : Type} {M : Machine Mem Cpu} {likeM fitsM likeC fitsC} {LM : LawfulMachine M likeM fitsM likeC fitsC}.
Implicit Types (mem : Mem) (cpu : Cpu).

(** ** The bytes of a saved machine *)

Lemma saveT_bytes reg mem cpu kind : len (put cpuC cpu) < 4294967296 -> len (put memC mem) < 4294967296 ->
  saveT reg mem cpu kind = kMagic ++ chunkBytes kHead (put headerC (headerOf reg mem cpu kind)) ++
    chunkBytes kCpu (put cpuC cpu) ++ chunkBytes kMach (put memC mem).
Proof.
  intros Hc Hm. unfold saveT. rewrite !chunk_bytes by (done || by rewrite put_headerC_len). by rewrite <- !app_assoc.
Qed.

Lemma saveT_len reg mem cpu kind : len (put cpuC cpu) < 4294967296 -> len (put memC mem) < 4294967296 ->
  len (saveT reg mem cpu kind) = 64 + len (put cpuC cpu) + len (put memC mem).
Proof.
  intros Hc Hm. rewrite saveT_bytes by done. rewrite !len_app, !chunkBytes_len, put_headerC_len by done.
  change (len kMagic) with 8. lia.
Qed.

(** ** The checks *)

Lemma newReader_valid bs : small bs -> Valid (newReader bs).
Proof. intros Hs. split; [cbn; unfold n_; pose proof (len_nonneg bs); cbn in *; lia|done]. Qed.

Lemma newReader_before bs : small bs -> Before (newReader bs) (bs ++ []).
Proof. intros Hs. split; [by apply newReader_valid|]. split; [done|]. by rewrite app_nil_r. Qed.

Lemma headerOf_fits reg mem cpu kind : fitsM mem -> HeaderFits (headerOf reg mem cpu kind).
Proof.
  intros Hm. split; cbn [headerOf version machineKind romChecksum ramSize emuCycles conformance]; try done.
  - by apply Z.mod_pos_bound.
  - by apply lm_rom_range.
  - by apply lm_ram_range.
  - by apply Z.mod_pos_bound.
  - apply snapshotFlags_range.
Qed.

Lemma checkHeader_own reg0 reg mem0 mem cpu kind tr : fitsM mem -> likeM mem0 mem -> Admits reg0 reg ->
  (tr = true -> ramBytes mem0 = ramBytes mem) ->
  checkHeader reg0 mem0 kind tr (put headerC (headerOf reg mem cpu kind)) = Some None.
Proof.
  intros Hm HL HA HR. unfold checkHeader.
  rewrite (lw_roundtrip _ _ _ headerC_lawful newHeader (headerOf reg mem cpu kind) _ [] I (headerOf_fits reg mem cpu kind Hm)).
  2: { apply newReader_before. by rewrite put_headerC_len. }
  bnd. cbn [advance ok_ negb headerOf version machineKind romChecksum ramSize conformance].
  rewrite (lm_rom _ _ HL), !Z.eqb_refl. cbn [negb].
  replace (requested_ reg0 && _) with false.
  2: { destruct (requested_ reg0) eqn:Er; [|done]. destruct (qualified_flags reg (HA Er)) as [F1 F2].
       rewrite F2, (proj2 (Z.eqb_neq _ _) F1). done. }
  destruct tr; cbn [andb]; [|done]. by rewrite HR, Z.eqb_refl.
Qed.

Lemma unqualified_flags reg : qualified reg = false -> snapshotFlags reg .& SnapshotQualified = 0.
Proof.
  intros Q. unfold snapshotFlags. rewrite Q, Z.lor_0_r, Z.land_lor_distr_l.
  replace (u32 _ .& _) with 0; [by destruct (requested_ reg)|]. symmetry.
  unfold u32. change 4294967296 with (2 ^ 32). rewrite <- Z.land_ones by lia.
  apply Z.bits_inj'. intros i Hi. rewrite !Z.land_spec, Z.bits_0.
  destruct (Z.eq_dec i 1) as [->|Hi1]; [by rewrite Z.shiftl_spec_low|].
  change SnapshotQualified with (2 ^ 1). by rewrite Z.pow2_bits_false, andb_false_r.
Qed.

Lemma checkHeader_unqualified reg0 reg mem0 mem cpu kind tr : fitsM mem -> likeM mem0 mem ->
  requested_ reg0 = true -> qualified reg = false ->
  checkHeader reg0 mem0 kind tr (put headerC (headerOf reg mem cpu kind)) = Some (Some NotQualified).
Proof.
  intros Hm HL HQ HA. unfold checkHeader.
  rewrite (lw_roundtrip _ _ _ headerC_lawful newHeader (headerOf reg mem cpu kind) _ [] I (headerOf_fits reg mem cpu kind Hm)).
  2: { apply newReader_before. by rewrite put_headerC_len. }
  bnd. cbn [advance ok_ negb headerOf version machineKind romChecksum ramSize conformance].
  by rewrite (lm_rom _ _ HL), !Z.eqb_refl, HQ, (unqualified_flags reg HA).
Qed.

Lemma checkHeader_total reg mem kind tr body : small body ->
  checkHeader reg mem kind tr body = Some None \/
  exists v, checkHeader reg mem kind tr body = Some (Some v) /\ restored v = false.
Proof.
  intros Hs. unfold checkHeader.
  destruct (lw_total _ _ _ headerC_lawful newHeader (newReader body) (newReader_valid _ Hs)) as (h & r & -> & _). bnd.
  repeat (case_match; [right; eexists; split; [done|done]|]). by left.
Qed.

(** ** The first pass *)

Lemma findChunks_head reg mem kind tr fuel body p f : len body < 4294967296 -> small (chunkBytes kHead body ++ p) ->
  findChunks (S fuel) reg mem kind tr (chunkBytes kHead body ++ p) f =
    (c ← checkHeader reg mem kind tr body;
     match c with
     | Some v => Some (inl v)
     | None => findChunks fuel reg mem kind tr p (mkFound true (cpuChunk f) (machChunk f) (unknown f))
     end).
Proof. intros Hb Hs. cbn [findChunks]. rewrite nextChunk_put by done. done. Qed.

Lemma findChunks_cpu reg mem kind tr fuel body p f : len body < 4294967296 -> small (chunkBytes kCpu body ++ p) ->
  findChunks (S fuel) reg mem kind tr (chunkBytes kCpu body ++ p) f =
  findChunks fuel reg mem kind tr p (mkFound (haveHead f) (Some body) (machChunk f) (unknown f)).
Proof. intros Hb Hs. cbn [findChunks]. rewrite nextChunk_put by done. done. Qed.

Lemma findChunks_mach reg mem kind tr fuel body p f : len body < 4294967296 -> small (chunkBytes kMach body ++ p) ->
  findChunks (S fuel) reg mem kind tr (chunkBytes kMach body ++ p) f =
  findChunks fuel reg mem kind tr p (mkFound (haveHead f) (cpuChunk f) (Some body) (unknown f)).
Proof. intros Hb Hs. cbn [findChunks]. rewrite nextChunk_put by done. done. Qed.

Definition SmallFound (f : Found) : Prop :=
  (forall b, cpuChunk f = Some b -> small b) /\ (forall b, machChunk f = Some b -> small b).

Lemma findChunks_total reg mem kind tr : forall fuel p f, small p -> (length p < fuel)%nat -> SmallFound f ->
  (exists v, findChunks fuel reg mem kind tr p f = Some (inl v) /\ restored v = false) \/
  (exists f', findChunks fuel reg mem kind tr p f = Some (inr f') /\ SmallFound f').
Proof.
  induction fuel as [|fuel IH]; intros p f Hs Hf HF; [lia|]. cbn [findChunks].
  destruct (nextChunk_total p Hs) as [->|(cv & q & -> & Hl & _)]; bnd; [by right; eauto|].
  pose proof (len_nonneg q). pose proof (len_nonneg (data cv)).
  assert (Hq : (length q < fuel)%nat) by (unfold len in Hl; lia). assert (Hsq : small q) by lia.
  assert (Hd : small (data cv)) by lia. destruct HF as [HF1 HF2].
  destruct (isTag cv kHead).
  { destruct (checkHeader_total reg mem kind tr (data cv) Hd) as [->|(v & -> & Hv)]; bnd; [|by left; eauto].
    by apply IH. }
  destruct (isTag cv kCpu); [apply IH; [done..|]; split; cbn; [by intros b [= <-]|done]|].
  destruct (isTag cv kMach); [apply IH; [done..|]; split; cbn; [done|by intros b [= <-]]|].
  by apply IH.
Qed.

Lemma findChunks_saved reg0 reg mem0 mem cpu kind tr fuel : (4 <= fuel)%nat ->
  Storable fitsM fitsC mem cpu -> likeM mem0 mem -> Admits reg0 reg -> (tr = true -> ramBytes mem0 = ramBytes mem) ->
  findChunks fuel reg0 mem0 kind tr (chunkBytes kHead (put headerC (headerOf reg mem cpu kind)) ++
    chunkBytes kCpu (put cpuC cpu) ++ chunkBytes kMach (put memC mem)) (mkFound false None None 0) =
  Some (inr (mkFound true (Some (put cpuC cpu)) (Some (put memC mem)) 0)).
Proof.
  intros Hf [Hm Hc Lm Lc] HL HA HR. do 4 (destruct fuel as [|fuel]; [lia|]).
  rewrite findChunks_head, (checkHeader_own reg0 reg mem0 mem cpu kind tr Hm HL HA HR).
  2: by rewrite put_headerC_len.
  2: { rewrite !len_app, !chunkBytes_len, put_headerC_len by done. lia. }
  bnd. rewrite findChunks_cpu by (done || rewrite len_app, !chunkBytes_len by done; lia).
  rewrite <- (app_nil_r (chunkBytes kMach (put memC mem))).
  rewrite findChunks_mach by (done || rewrite app_nil_r, chunkBytes_len by done; lia). done.
Qed.

(** ** The whole load *)

Lemma loadWith_saved tr reject reg0 reg mem0 cpu0 mem cpu kind :
  Storable fitsM fitsC mem cpu -> likeM mem0 mem -> likeC cpu0 cpu -> Admits reg0 reg ->
  (tr = true -> ramBytes mem0 = ramBytes mem) ->
  loadWith tr reject reg0 mem0 cpu0 kind (saveT reg mem cpu kind) = Some (mem, cpu, Restored 0).
Proof.
  intros HS HL HLc HA HR. destruct (HS) as [Hm Hc Lm Lc]. unfold loadWith.
  pose proof (len_nonneg (put cpuC cpu)). pose proof (len_nonneg (put memC mem)).
  pose proof (saveT_len reg mem cpu kind Lc Lm) as L.
  rewrite L. change (len kMagic) with 8. rewrite (proj2 (Z.ltb_ge _ _)) by lia.
  assert (Hf : (4 <= S (length (saveT reg mem cpu kind)))%nat) by (unfold len in L; lia).
  set (fuel := S (length (saveT reg mem cpu kind))) in *. clearbody fuel.
  rewrite saveT_bytes by done. set (tail := chunkBytes kHead _ ++ _).
  pose proof (slice_app [] kMagic tail 0 8 eq_refl eq_refl) as Es. cbn [app] in Es. rewrite Es. bnd.
  rewrite bool_decide_true by done. cbn [negb]. rewrite (drop_app_length kMagic tail). unfold tail.
  rewrite (findChunks_saved reg0 reg mem0 mem cpu kind tr fuel Hf HS HL HA HR). bnd. cbn [haveHead cpuChunk machChunk negb].
  rewrite (lw_roundtrip _ _ _ lm_mem mem0 mem _ [] HL Hm) by (apply newReader_before; lia). bnd. cbn [advance ok_ negb].
  rewrite (lw_roundtrip _ _ _ lm_cpu cpu0 cpu _ [] HLc Hc) by (apply newReader_before; lia). done.
Qed.

(** A file of a session that did not qualify, in one that asks for it. *)
Lemma loadWith_unqualified tr reject reg0 reg mem0 cpu0 mem cpu kind :
  Storable fitsM fitsC mem cpu -> likeM mem0 mem -> requested_ reg0 = true -> qualified reg = false ->
  loadWith tr reject reg0 mem0 cpu0 kind (saveT reg mem cpu kind) = Some (mem0, cpu0, NotQualified).
Proof.
  intros HS HL HQ HA. destruct (HS) as [Hm Hc Lm Lc]. unfold loadWith.
  pose proof (len_nonneg (put cpuC cpu)). pose proof (len_nonneg (put memC mem)).
  pose proof (saveT_len reg mem cpu kind Lc Lm) as L.
  rewrite L. change (len kMagic) with 8. rewrite (proj2 (Z.ltb_ge _ _)) by lia.
  rewrite saveT_bytes by done. set (tail := chunkBytes kHead _ ++ _).
  pose proof (slice_app [] kMagic tail 0 8 eq_refl eq_refl) as Es. cbn [app] in Es. rewrite Es. bnd.
  rewrite bool_decide_true by done. cbn [negb]. rewrite (drop_app_length kMagic tail). unfold tail.
  rewrite findChunks_head, (checkHeader_unqualified reg0 reg mem0 mem cpu kind tr Hm HL HQ HA); [done|..].
  - by rewrite put_headerC_len.
  - rewrite !len_app, !chunkBytes_len, put_headerC_len by done. lia.
Qed.

(** The rollback puts back what a half-done load has changed. *)
Lemma rollbackT_back reg mem cpu mem1 cpu1 kind : Storable fitsM fitsC mem cpu -> Admits reg reg ->
  likeM mem mem1 -> likeC cpu cpu1 -> rollbackT reg kind (saveT reg mem cpu kind) mem1 cpu1 = Some (mem, cpu).
Proof.
  intros HS HA HL HLc. pose proof (lw_like _ _ _ lm_mem). pose proof (lw_like _ _ _ lm_cpu). unfold rollbackT.
  by rewrite (loadWith_saved false _ reg reg) by (done || by symmetry).
Qed.

(** In a session that is strict and has not qualified it puts back nothing. *)
Lemma rollbackT_refused reg mem cpu mem1 cpu1 kind : Storable fitsM fitsC mem cpu ->
  requested_ reg = true -> qualified reg = false -> likeM mem mem1 ->
  rollbackT reg kind (saveT reg mem cpu kind) mem1 cpu1 = Some (mem1, cpu1).
Proof.
  intros HS H1 H2 HL. pose proof (lw_like _ _ _ lm_mem). unfold rollbackT.
  by rewrite (loadWith_unqualified false _ reg reg) by (done || by symmetry).
Qed.

(** A load that is defined, and restores or refuses; refusing leaves the machine
    as it was when [back] holds, and before anything has been read into it. *)
Definition Atomic (back : Prop) (mem : Mem) (cpu : Cpu) (res : option (Mem * Cpu * Verdict)) : Prop :=
  exists mem' cpu' v, res = Some (mem', cpu', v) /\ likeM mem mem' /\ likeC cpu cpu' /\
    (restored v = false -> back \/ v <> CorruptMachine /\ v <> CorruptCpu -> mem' = mem /\ cpu' = cpu).

Lemma atomic_refused back mem cpu v : restored v = false -> Atomic back mem cpu (Some (mem, cpu, v)).
Proof.
  intros Hv. pose proof (lw_like _ _ _ lm_mem). pose proof (lw_like _ _ _ lm_cpu).
  exists mem, cpu, v. by split_and!.
Qed.

Lemma loadWith_atomic back reject reg mem cpu kind file : small file ->
  (forall mem1 cpu1, likeM mem mem1 -> likeC cpu cpu1 -> exists mem2 cpu2, reject mem1 cpu1 = Some (mem2, cpu2) /\
     likeM mem mem2 /\ likeC cpu cpu2 /\ (back -> mem2 = mem /\ cpu2 = cpu)) ->
  Atomic back mem cpu (loadWith true reject reg mem cpu kind file).
Proof.
  intros Hs HR. pose proof (lw_like _ _ _ lm_mem). pose proof (lw_like _ _ _ lm_cpu). unfold loadWith.
  change (len kMagic) with 8. destruct (Z.ltb_spec (len file) 8); [by apply atomic_refused|].
  destruct (slice_sl file 0 8) as [-> _]; [lia..|]. bnd. destruct (bool_decide _); cbn [negb]; [|by apply atomic_refused].
  destruct (findChunks_total reg mem kind true (S (length file)) (drop (length kMagic) file) (mkFound false None None 0))
    as [(v & -> & Hv)|(f & -> & HF1 & HF2)]; [..|by apply atomic_refused|].
  { change (length kMagic) with (Z.to_nat 8). rewrite len_drop by lia. lia. }
  { rewrite length_drop. lia. }
  { by split. }
  bnd. destruct (haveHead f); cbn [negb]; [|by apply atomic_refused].
  destruct (cpuChunk f) as [cb|]; [|by apply atomic_refused]. destruct (machChunk f) as [mb|]; [|by apply atomic_refused].
  destruct (lw_total _ _ _ lm_mem mem (newReader mb)) as (mem1 & r1 & -> & Lm & _); [by apply newReader_valid, HF2|]. bnd.
  destruct (ok_ r1); cbn [negb].
  2: { destruct (HR mem1 cpu) as (m & c & -> & L1 & L2 & HB); [done|done|]. bnd. exists m, c, CorruptMachine.
       split_and!; try done. intros _ [|[]]; [by apply HB|done]. }
  destruct (lw_total _ _ _ lm_cpu cpu (newReader cb)) as (cpu1 & r2 & -> & Lc & _); [by apply newReader_valid, HF1|]. bnd.
  destruct (ok_ r2); cbn [negb].
  2: { destruct (HR mem1 cpu1) as (m & c & -> & L1 & L2 & HB); [done|done|]. bnd. exists m, c, CorruptCpu.
       split_and!; try done. intros _ [|[]]; [by apply HB|done]. }
  by exists mem1, cpu1, (Restored (unknown f)).
Qed.

(** ** Truncation *)

(** A strict prefix of two parts stops in the first or in the second. *)
Lemma cut_app {A} (cut more a b : list A) : cut ++ more = a ++ b -> more <> [] ->
  (exists k, cut ++ k = a /\ k <> []) \/ (exists cut', cut = a ++ cut' /\ cut' ++ more = b).
Proof.
  intros E Hm. apply app_eq_app in E as (k & [[-> ->]|[-> ->]]); [right; eauto|].
  destruct k as [|x k]; [right; exists []; by rewrite !app_nil_r|left; eauto].
Qed.

(** The first pass over a saved file that was cut finds no machine chunk. *)
Lemma findChunks_cut reg0 reg mem0 mem cpu kind tr fuel cut more : (4 <= fuel)%nat ->
  len (put cpuC cpu) < 4294967296 -> len (put memC mem) < 4294967296 -> more <> [] ->
  cut ++ more = chunkBytes kHead (put headerC (headerOf reg mem cpu kind)) ++
    chunkBytes kCpu (put cpuC cpu) ++ chunkBytes kMach (put memC mem) ->
  (exists v, findChunks fuel reg0 mem0 kind tr cut (mkFound false None None 0) = Some (inl v) /\ restored v = false) \/
  (exists f, findChunks fuel reg0 mem0 kind tr cut (mkFound false None None 0) = Some (inr f) /\
     (haveHead f = false \/ machChunk f = None)).
Proof.
  intros Hf Lc Lm Hmore Ec. do 4 (destruct fuel as [|fuel]; [lia|]).
  assert (Stop : forall n f t b k k', len t = 4 -> len b < 4294967296 -> k ++ k' = chunkBytes t b -> k' <> [] ->
    findChunks (S n) reg0 mem0 kind tr k f = Some (inr f)).
  { intros n f t b k k' Ht Hb E Hk. cbn [findChunks]. by rewrite (nextChunk_cut t b k k'). }
  assert (Ls : len cut <= 48 + len (put cpuC cpu) + len (put memC mem) + 8).
  { apply (f_equal len) in Ec. rewrite !len_app, !chunkBytes_len, put_headerC_len in Ec by done.
    pose proof (len_nonneg more). lia. }
  assert (Hh : len (put headerC (headerOf reg mem cpu kind)) < 4294967296) by (by rewrite put_headerC_len).
  apply cut_app in Ec as [(k & E & Hk)|(cut2 & -> & Ec)]; [| |done].
  { right. rewrite (Stop _ _ kHead _ cut k eq_refl Hh E Hk). eauto. }
  pose proof (len_nonneg cut2). rewrite findChunks_head by (done || lia).
  destruct (checkHeader_total reg0 mem0 kind tr (put headerC (headerOf reg mem cpu kind))) as [->|(v & -> & Hv)];
    [lia| |left; eauto]. bnd. right.
  rewrite len_app, chunkBytes_len, put_headerC_len in Ls by done. apply cut_app in Ec as [(k & E & Hk)|(cut3 & -> & Ec)]; [| |done].
  - rewrite (Stop _ _ kCpu _ cut2 k eq_refl Lc E Hk). eauto.
  - rewrite findChunks_cpu by (done || lia). rewrite (Stop _ _ kMach _ cut3 more eq_refl Lm Ec Hmore). eauto.
Qed.

Lemma loadWith_cut tr reject reg0 reg mem0 cpu0 mem cpu kind file more :
  len (put cpuC cpu) < 4294967296 -> len (put memC mem) < 4294967296 ->
  file ++ more = saveT reg mem cpu kind -> more <> [] ->
  exists v, loadWith tr reject reg0 mem0 cpu0 kind file = Some (mem0, cpu0, v) /\ restored v = false.
Proof.
  intros Lc Lm Ef Hmore. rewrite saveT_bytes in Ef by done. unfold loadWith. change (len kMagic) with 8.
  destruct (Z.ltb_spec (len file) 8) as [|H8]; [by eauto|].
  apply cut_app in Ef as [(k & E & Hk)|(cut & -> & Ec)]; [| |done].
  { exfalso. apply (f_equal len) in E. rewrite len_app in E. change (len kMagic) with 8 in E. destruct k; [done|].
    rewrite len_cons in E. pose proof (len_nonneg k). lia. }
  pose proof (slice_app [] kMagic cut 0 8 eq_refl eq_refl) as Es. cbn [app] in Es. rewrite Es. bnd.
  rewrite bool_decide_true by done. cbn [negb]. rewrite (drop_app_length kMagic cut).
  set (fuel := S (length (kMagic ++ cut))). assert (Hf : (4 <= fuel)%nat) by (unfold fuel; rewrite length_app; cbn; lia).
  clearbody fuel. destruct (findChunks_cut reg0 reg mem0 mem cpu kind tr fuel cut more Hf Lc Lm Hmore Ec)
    as [(v & -> & Hv)|(f & -> & Hm)]; bnd; [by eauto|].
  destruct (haveHead f); cbn [negb]; [|by eauto]. destruct Hm as [| ->]; [done|]. destruct (cpuChunk f); by eauto.
Qed.
End Facts.
