(* ===== verification/SaveProps.v ===== *)
(** * SaveProps: saving and loading a machine

    The properties of the saved states, for every machine whose memory and CPU
    have lawful encodings; the witnesses run them on a small machine with a ROM
    and a RAM. *)

From S2P Require Import Prelude Vectors SaveState SaveFacts SaveMachine SaveMachineFacts.
From stdpp Require Import base list numbers option decidable sets.

Open Scope Z_scope.

(** ** A small machine *)

Record Board := mkBoard { romSum : Z; ram : list Z }.

Definition boardC : Codec Board :=
  visitC [mkField blobC ram (fun v b => mkBoard (romSum b) v)].

#[export] Instance board_machine : Machine Board Z := {|
  memC := boardC;
  cpuC := intC 4 false;
  romChecksumOf := romSum;
  ramBytes := fun b => len (ram b);
  machineClock := fun pc => pc
|}.

Definition SameRom (b b' : Board) : Prop := romSum b = romSum b'.
Definition BoardFits (b : Board) : Prop := 0 <= romSum b < 4294967296 /\ Blob (ram b).

#[export] Instance sameRom_equiv : Equivalence SameRom.
Proof. split; repeat intro; unfold SameRom in *; congruence. Qed.

#[export] Instance board_lawful : LawfulMachine board_machine SameRom BoardFits anything (InInt 4 false).
Proof.
  split.
  - apply visitC_lawful; [apply _| |].
    + repeat constructor. eapply plain_field; [apply blobC_lawful|by intros b []|done].
    + intros [] [] H _. cbn in *. unfold SameRom in H. cbn in H. by subst.
  - by apply intC_lawful; lia.
  - done.
  - by intros b [].
  - intros b [_ H]. cbn. pose proof (len_nonneg (ram b)). unfold Blob, kMaxBlob in H. lia.
Qed.

Definition board1 : Board := mkBoard 77 [0; 0; 0; 0; 0; 7; 0; 9].
Definition board2 : Board := mkBoard 77 [1; 2; 3; 4; 5; 6; 7; 8].
Definition strict : Registry := beginSession true.
Definition strictQualified : Registry := setQualified true strict.

Lemma board1_storable : Storable BoardFits (InInt 4 false) board1 4096.
Proof. split; [by vm_compute|by vm_compute|by vm_compute|by vm_compute]. Qed.
Lemma board2_storable : Storable BoardFits (InInt 4 false) board2 8192.
Proof. split; [by vm_compute|by vm_compute|by vm_compute|by vm_compute]. Qed.

(** C11. Saving and loading, for a machine whose fields each have an encoding
    that reads back what it wrote ([LawfulMachine]).  Loading the file [save]
    wrote into a machine with the same RAM size that agrees with the saved one
    on what no visit covers ([likeM], [likeC]: the ROM, the wiring), whatever
    its visited fields hold, gives back exactly the memory and CPU that were
    saved -- except in a session that asks for a qualified snapshot when the one
    that saved was not: then, and only then, it is refused and nothing changes.
    The chunks must have lengths that fit their fields ([Storable]). *)
Theorem save_load_restores {Mem Cpu} {M : Machine Mem Cpu} {likeM fitsM likeC fitsC}
    {LM : LawfulMachine M likeM fitsM likeC fitsC} reg0 reg (mem0 mem : Mem) (cpu0 cpu : Cpu) kind :
  Storable fitsM fitsC mem cpu -> likeM mem0 mem -> likeC cpu0 cpu -> ramBytes mem0 = ramBytes mem ->
  loadT reg0 mem0 cpu0 kind (saveT reg mem cpu kind) =
  Some (if requested_ reg0 && negb (qualified reg) then (mem0, cpu0, NotQualified) else (mem, cpu, Restored 0)).
Proof.
  intros HS HL HC HR. unfold loadT. destruct (requested_ reg0 && negb (qualified reg)) eqn:E.
  - apply andb_true_iff in E as [E1 E2]. apply negb_true_iff in E2. by apply loadWith_unqualified.
  - apply loadWith_saved; [done..| |done]. intros E1. rewrite E1 in E. by apply negb_false_iff.
Qed.

Lemma save_load_restores_witness :
  loadT (beginSession false) board2 8192 3 (saveT strictQualified board1 4096 3) = Some (board1, 4096, Restored 0) /\
  loadT strict board2 8192 3 (saveT (beginSession false) board1 4096 3) = Some (board2, 8192, NotQualified).
Proof.
  split.
  - exact (save_load_restores (beginSession false) strictQualified board2 board1 8192 4096 3 board1_storable eq_refl I eq_refl).
  - exact (save_load_restores strict (beginSession false) board2 board1 8192 4096 3 board1_storable eq_refl I eq_refl).
Defined.

(** C12. A load is atomic, for a machine with lawful encodings in a state that
    can be saved.  On any file at all and in any session it is defined and
    changes nothing that no visit covers; and either it restores a state or it
    leaves the memory and the CPU exactly as they were, also when it fails
    half-way through the machine's fields.  One case is excepted, and
    [rollback_refused] below shows that it has to be: a session that asks for a
    qualified snapshot and is not qualified itself refuses its own rollback, so
    that a file found corrupt after reading has begun leaves what was read. *)
Theorem load_atomic {Mem Cpu} {M : Machine Mem Cpu} {likeM fitsM likeC fitsC}
    {LM : LawfulMachine M likeM fitsM likeC fitsC} reg (mem : Mem) (cpu : Cpu) kind file :
  Storable fitsM fitsC mem cpu -> small file ->
  exists mem' cpu' v, loadT reg mem cpu kind file = Some (mem', cpu', v) /\
    likeM mem mem' /\ likeC cpu cpu' /\
    (restored v = false ->
     (requested_ reg = true -> qualified reg = true) \/ v <> CorruptMachine /\ v <> CorruptCpu ->
     mem' = mem /\ cpu' = cpu).
Proof.
  intros HS Hs. apply loadWith_atomic; [done|]. intros mem1 cpu1 HL HC.
  pose proof (lw_like _ _ _ lm_mem). pose proof (lw_like _ _ _ lm_cpu).
  destruct (requested_ reg) eqn:E1; [destruct (qualified reg) eqn:E2|].
  - exists mem, cpu. split; [by apply rollbackT_back; [..|intros _|done|done]|done].
  - exists mem1, cpu1. split; [by apply rollbackT_refused|]. split; [done|]. split; [done|]. intros HQ. by specialize (HQ eq_refl).
  - exists mem, cpu. split; [apply rollbackT_back; try done; intros E; congruence|done].
Qed.

(** A snapshot whose machine chunk ends in the middle of the RAM. *)
Definition damaged : list Z :=
  chunk (chunk (chunk kMagic kHead (put headerC (headerOf strictQualified board1 4096 3)))
    kCpu (put cpuC 4096)) kMach (firstn 5 (put boardC board1)).

Lemma load_atomic_witness :
  loadT strictQualified board2 8192 3 damaged = Some (board2, 8192, CorruptMachine) /\
  exists mem' cpu' v, loadT strictQualified board2 8192 3 damaged = Some (mem', cpu', v) /\
    SameRom board2 mem' /\ anything 8192 cpu' /\ (restored v = false -> mem' = board2 /\ cpu' = 8192).
Proof.
  split; [by vm_compute|].
  destruct (load_atomic strictQualified board2 8192 3 damaged board2_storable ltac:(by vm_compute))
    as (mem' & cpu' & v & E & L1 & L2 & H). exists mem', cpu', v. split; [exact E|]. split; [exact L1|]. split; [exact L2|].
  intros Hv. exact (H Hv (or_introl (fun _ => eq_refl))).
Defined.

(** The condition on the session is needed: in one that is strict but has not
    qualified, the rollback is refused for that reason, and a damaged snapshot
    empties the RAM. *)
Theorem rollback_refused : exists file,
  loadT strict board2 8192 3 file = Some (mkBoard 77 [], 8192, CorruptMachine).
Proof. exists damaged. by vm_compute. Qed.

(** C19. A file cut short anywhere, be it by one byte, is refused, and the
    machine is left as it was, in every session and whatever it was doing. *)
Theorem truncated_refused {Mem Cpu} {M : Machine Mem Cpu} reg0 reg (mem0 mem : Mem) (cpu0 cpu : Cpu) kind file more :
  len (put cpuC cpu) < 4294967296 -> len (put memC mem) < 4294967296 ->
  file ++ more = saveT reg mem cpu kind -> more <> [] ->
  exists v, loadT reg0 mem0 cpu0 kind file = Some (mem0, cpu0, v) /\ restored v = false.
Proof. apply loadWith_cut. Qed.

Lemma truncated_refused_witness : exists v,
  loadT strict board2 8192 3 (removelast (saveT strictQualified board1 4096 3)) = Some (board2, 8192, v) /\
  restored v = false.
Proof.
  refine (truncated_refused strict strictQualified board2 board1 8192 4096 3
    (removelast (saveT strictQualified board1 4096 3)) [9] _ _ _ _); [by vm_compute..|done].
Defined.

(** ** The fingerprint *)

Definition kPrimeInverse : Z := 14886173955864302971.

Lemma hashStep_back h b : U64 h -> 0 <= b < 256 -> u64 (hashStep h b * kPrimeInverse) = h .^ b.
Proof.
  intros Hh Hb. unfold hashStep, u64. rewrite Z.mul_mod_idemp_l by done.
  rewrite <- Z.mul_assoc, Z.mul_mod by done.
  replace (1099511628211 * kPrimeInverse mod 18446744073709551616) with 1 by (by vm_compute).
  rewrite Z.mul_1_r, Z.mod_mod by done. apply Z.mod_small.
  unfold U64 in Hh. split; [apply Z.lxor_nonneg; lia|].
  destruct (Z.eq_dec (h .^ b) 0) as [->|]; [done|]. assert (0 <= h .^ b) by (apply Z.lxor_nonneg; lia).
  change 18446744073709551616 with (2 ^ 64) in *. apply Z.log2_lt_pow2; [lia|].
  eapply Z.le_lt_trans; [apply Z.log2_lxor; lia|]. apply Z.max_lub_lt.
  - destruct (Z.eq_dec h 0) as [->|]; [done|]. apply Z.log2_lt_pow2; lia.
  - destruct (Z.eq_dec b 0) as [->|]; [done|]. apply Z.log2_lt_pow2; lia.
Qed.

Lemma hashStep_inj h h' b b' : U64 h -> U64 h' -> 0 <= b < 256 -> 0 <= b' < 256 ->
  hashStep h b = hashStep h' b' -> h .^ b = h' .^ b'.
Proof. intros. rewrite <- (hashStep_back h b), <- (hashStep_back h' b') by done. congruence. Qed.

Lemma hash_inj q : forall h h', U64 h -> U64 h' -> Forall (fun b => 0 <= b < 256) q ->
  foldl hashStep h q = foldl hashStep h' q -> h = h'.
Proof.
  induction q as [|b q IH]; intros h h' Hh Hh' HF E; [done|]. apply Forall_cons_1 in HF as [Hb HF]. cbn [foldl] in E.
  apply IH in E; [|by apply Z.mod_pos_bound|by apply Z.mod_pos_bound|done].
  apply hashStep_inj in E; [|done..]. apply (f_equal (fun x => x .^ b)) in E.
  by rewrite !Z.lxor_assoc, !Z.lxor_nilpotent, !Z.lxor_0_r in E.
Qed.

(** The fingerprint of a file sees every change of a single byte, wherever
    it is and whatever comes before and after it. *)
Theorem hash_detects p b b' q : 0 <= b < 256 -> 0 <= b' < 256 -> Forall (fun x => 0 <= x < 256) q -> b <> b' ->
  hash (p ++ b :: q) <> hash (p ++ b' :: q).
Proof.
  intros Hb Hb' HF Hne E. unfold hash in E. rewrite !foldl_app in E. cbn [foldl] in E. set (h := foldl _ _ p) in E.
  assert (Hh : U64 h).
  { unfold h. destruct p as [|x p _] using rev_ind; [done|]. rewrite foldl_snoc. by apply Z.mod_pos_bound. }
  apply hash_inj in E; [|by apply Z.mod_pos_bound|by apply Z.mod_pos_bound|done].
  apply hashStep_inj in E; [|done..]. apply (f_equal (fun x => h .^ x)) in E.
  by rewrite <- !Z.lxor_assoc, Z.lxor_nilpotent, !Z.lxor_0_l in E.
Qed.

Lemma hash_detects_witness : hash ([80; 79] ++ 77 :: [54; 56]) <> hash ([80; 79] ++ 78 :: [54; 56]).
Proof. apply (hash_detects [80; 79] 77 78 [54; 56]); [lia..| |done]. repeat constructor; lia. Defined.
