(* ===== verification/AdbBus.v ===== *)
(** * AdbBus: the keyboard and the mouse on the desktop bus

    [src/AdbBus.h] and [src/AdbBus.cpp], the command-level bus of the machines
    that run without the firmware of their ADB controller.  The record has the
    fields of the class.  [None] is undefined behaviour: the sum of two C
    [int]s that does not fit. *)

From S2P Require Import Prelude Vectors.
From stdpp Require Import base list numbers option decidable.

Open Scope Z_scope.

Record AdbBus := mkAdb {
  keyQueue_ : list Z;
  mdx_ : Z;
  mdy_ : Z;
  mbtn_ : bool;
  mbtnSent_ : bool;
  kbdAddr_ : Z;
  mouseAddr_ : Z
}.

#[export] Instance eta_adb : Eta AdbBus := fun s =>
  mkAdb (keyQueue_ s) (mdx_ s) (mdy_ s) (mbtn_ s) (mbtnSent_ s) (kbdAddr_ s) (mouseAddr_ s).

Definition set_keyQueue := ltac:(set_field keyQueue_).
Definition set_mdx := ltac:(set_field mdx_).
Definition set_mdy := ltac:(set_field mdy_).
Definition set_mbtn := ltac:(set_field mbtn_).
Definition set_mbtnSent := ltac:(set_field mbtnSent_).
Definition set_kbdAddr := ltac:(set_field kbdAddr_).
Definition set_mouseAddr := ltac:(set_field mouseAddr_).

Definition Adb0 : AdbBus := mkAdb [] 0 0 false false 2 3.

Definition reset (s : AdbBus) : AdbBus := mkAdb [] 0 0 false false 2 3.

Definition keyPending (s : AdbBus) : bool := match keyQueue_ s with [] => false | _ => true end.
Definition mousePending (s : AdbBus) : bool :=
  (mdx_ s <>? 0) || (mdy_ s <>? 0) || (mbtn_ s != mbtnSent_ s).
Definition srqPending (s : AdbBus) : bool := keyPending s || mousePending s.

(** [std::clamp]. *)
Definition clamp (v lo hi : Z) : Z := if v <? lo then lo else if hi <? v then hi else v.

Definition addInt (a b : Z) : option Z :=
  if (-2147483648 <=? a + b) && (a + b <=? 2147483647) then Some (a + b) else None.

Definition keyEvent (adbCode : Z) (down : bool) (s : AdbBus) : AdbBus :=
  set_keyQueue (keyQueue_ s ++ [u8 ((if down then 0x00 else 0x80) .| (adbCode .& 0x7F))]) s.

Definition mouseMove (dx dy : Z) (s : AdbBus) : option AdbBus :=
  x ← addInt (mdx_ s) dx;
  let s := set_mdx (clamp x (-256) 256) s in
  y ← addInt (mdy_ s) dy;
  Some (set_mdy (clamp y (-256) 256) s).

Definition mouseButton (down : bool) (s : AdbBus) : AdbBus := set_mbtn down s.

(** The byte of a report and the motion that stays. *)
Definition clamp7 (v : Z) : Z * Z := let d := clamp v (-64) 63 in (u8 (d .& 0x7F), v - d).

Definition talkKeyboard (reg : Z) (s : AdbBus) : list Z * AdbBus :=
  if reg =? 0 then
    match keyQueue_ s with
    | [] => ([0xFF; 0xFF], s)
    | k0 :: q =>
        let s := set_keyQueue q s in
        match q with
        | [] => ([k0; 0xFF], s)
        | k1 :: q => ([k0; k1], set_keyQueue q s)
        end
    end
  else if reg =? 2 then ([0xFF; 0xFF], s)
  else if reg =? 3 then ([u8 (0x60 .| kbdAddr_ s); 0x05], s)
  else ([], s).

Definition talkMouse (reg : Z) (s : AdbBus) : list Z * AdbBus :=
  if reg =? 0 then
    let (dy, my) := clamp7 (mdy_ s) in
    let s := set_mdy my s in
    let (dx, mx) := clamp7 (mdx_ s) in
    let s := set_mdx mx s in
    let s := set_mbtnSent (mbtn_ s) s in
    ([u8 ((if mbtn_ s then 0x00 else 0x80) .| dy); u8 (0x80 .| dx)], s)
  else if reg =? 3 then ([u8 (0x60 .| mouseAddr_ s); 0x01], s)
  else ([], s).

Definition listen (addr reg : Z) (data : list Z) (s : AdbBus) : AdbBus :=
  match data with
  | d0 :: d1 :: _ =>
      if (reg =? 3) && ((d1 =? 0x00) || (d1 =? 0xFE)) then
        let newAddr := d0 .& 0x0F in
        if addr =? kbdAddr_ s then set_kbdAddr newAddr s
        else if addr =? mouseAddr_ s then set_mouseAddr newAddr s
        else s
      else s
  | _ => s
  end.

(** [command]: the answer (empty: a timeout) and the bus after it. *)
Definition command (cmd : Z) (data : list Z) (s : AdbBus) : list Z * AdbBus :=
  let addr := cmd .>> 4 in
  let op := (cmd .>> 2) .& 3 in
  let reg := cmd .& 3 in
  if cmd .& 0x0F =? 0 then ([], set_mouseAddr 3 (set_kbdAddr 2 s))
  else if (op =? 3) && (addr =? kbdAddr_ s) then talkKeyboard reg s
  else if (op =? 3) && (addr =? mouseAddr_ s) then talkMouse reg s
  else if op =? 2 then ([], listen addr reg data s)
  else ([], s).
