(* ===== verification/AdbFacts.v ===== *)
(** * AdbFacts: what reaches the guest

    The bus as the host and the guest drive it: input events from one side,
    commands from the other, in any order.  Keys arrive in order and exactly
    once, motion is conserved, and polling makes the bus quiet. *)

From S2P Require Import Prelude Vectors AdbBus.
From stdpp Require Import base list numbers option decidable.

Open Scope Z_scope.

(** ** Runs *)

Inductive AdbOp : Type :=
| Key (adbCode : Z) (down : bool)
| Move (dx dy : Z)
| Button (down : bool)
| Command (cmd : Z) (data : list Z).

Definition adbPerform (op : AdbOp) (s : AdbBus) : option (list Z * AdbBus) :=
  match op with
  | Key c d => Some ([], keyEvent c d s)
  | Move dx dy => s ← mouseMove dx dy s; Some ([], s)
  | Button d => Some ([], mouseButton d s)
  | Command c data => Some (command c data s)
  end.

(** The run and the answer of each operation, with the state it met. *)
Fixpoint adbRun (ops : list AdbOp) (s : AdbBus) : option (list (AdbBus * AdbOp * list Z) * AdbBus) :=
  match ops with
  | [] => Some ([], s)
  | op :: ops =>
      a ← adbPerform op s;
      let (answer, s') := a : list Z * AdbBus in
      b ← adbRun ops s';
      let (log, s'') := b : list (AdbBus * AdbOp * list Z) * AdbBus in
      Some ((s, op, answer) :: log, s'')
  end.

(** Motion a host event may carry. *)
Definition adbOp_ok (op : AdbOp) : Prop :=
  match op with
  | Move dx dy => -2147483392 <= dx <= 2147483391 /\ -2147483392 <= dy <= 2147483391
  | Command c data => byte c /\ Forall byte data
  | _ => True
  end.

Record adb_ok (s : AdbBus) : Prop := {
  ao_keys : Forall byte (keyQueue_ s);
  ao_mdx : -256 <= mdx_ s <= 256;
  ao_mdy : -256 <= mdy_ s <= 256;
  ao_kbd : 0 <= kbdAddr_ s < 16;
  ao_mouse : 0 <= mouseAddr_ s < 16
}.

Lemma clamp_range v lo hi : lo <= hi -> lo <= clamp v lo hi <= hi.
Proof. unfold clamp. intros. repeat case_match; unbool; lia. Qed.

Lemma clamp_id v lo hi : lo <= v <= hi -> clamp v lo hi = v.
Proof. unfold clamp. intros. repeat case_match; unbool; lia. Qed.

Lemma clamp7_range v : -256 <= v <= 256 -> -256 <= (clamp7 v).2 <= 256.
Proof. intros Hv. unfold clamp7, clamp. cbn [snd]. repeat case_match; unbool; lia. Qed.

Lemma listen_ok addr reg data s : adb_ok s -> adb_ok (listen addr reg data s).
Proof.
  intros Hs. assert (Hn : forall d, 0 <= d .& 0x0F < 16).
  { intros d. change 0x0F with (2 ^ 4 - 1). rewrite land_mask_mod by lia. by apply Z.mod_pos_bound. }
  unfold listen. destruct data as [|d0 [|d1 ?]]; try done. specialize (Hn d0).
  repeat case_match; try done; split; cbn; try apply Hs; lia.
Qed.

Lemma talkKeyboard_ok reg s : adb_ok s -> adb_ok (talkKeyboard reg s).2.
Proof.
  intros Hs. pose proof (ao_keys s Hs) as Hk. unfold talkKeyboard.
  destruct (reg =? 0); [|by repeat case_match]. destruct (keyQueue_ s) as [|k0 [|k1 q]]; cbn [snd]; [done|..];
    repeat (apply Forall_cons_1 in Hk as [_ Hk]); split; cbn; try done; apply Hs.
Qed.

Lemma talkMouse_ok reg s : adb_ok s -> adb_ok (talkMouse reg s).2.
Proof.
  intros Hs. pose proof (clamp7_range _ (ao_mdx s Hs)). pose proof (clamp7_range _ (ao_mdy s Hs)).
  unfold talkMouse. destruct (reg =? 0); [|by repeat case_match].
  destruct (clamp7 (mdy_ s)) as [dy my]. cbn [mdx_ set_mdy]. destruct (clamp7 (mdx_ s)) as [dx mx]. cbn [snd] in *.
  split; cbn; try done; apply Hs.
Qed.

Lemma adbPerform_ok op s : adbOp_ok op -> adb_ok s -> exists a s', adbPerform op s = Some (a, s') /\ adb_ok s'.
Proof.
  intros Ho Hs. destruct op as [c d|dx dy|d|c data]; cbn [adbPerform adbOp_ok] in *.
  - do 2 eexists. split; [done|]. split; cbn; try apply Hs. apply Forall_app. split; [apply Hs|].
    constructor; [apply u8_range|done].
  - pose proof (ao_mdx s Hs). pose proof (ao_mdy s Hs). unfold mouseMove, addInt.
    rewrite !(proj2 (Z.leb_le _ _)) by lia. cbn [andb mbind option_bind mdy_ set_mdx].
    rewrite !(proj2 (Z.leb_le _ _)) by lia. cbn. do 2 eexists. split; [done|].
    split; cbn; try apply Hs; by apply clamp_range.
  - do 2 eexists. split; [done|]. split; cbn; apply Hs.
  - destruct (command c data s) as [a s'] eqn:E. do 2 eexists. split; [done|].
    replace s' with (command c data s).2 by (by rewrite E). unfold command.
    repeat case_match; cbn [snd]; auto using talkKeyboard_ok, talkMouse_ok, listen_ok.
    split; cbn; try apply Hs; lia.
Qed.

Lemma adbRun_ok ops : forall s, Forall adbOp_ok ops -> adb_ok s -> exists log s', adbRun ops s = Some (log, s') /\ adb_ok s'.
Proof.
  induction ops as [|op ops IH]; intros s HF Hs; cbn [adbRun]; [by eauto|]. apply Forall_cons_1 in HF as [Ho HF].
  destruct (adbPerform_ok op s Ho Hs) as (a & s1 & -> & H1). bnd.
  destruct (IH s1 HF H1) as (log & s2 & -> & H2). bnd. by eauto.
Qed.

Lemma Adb0_ok : adb_ok Adb0.
Proof. split; cbn; try done; lia. Qed.

(** ** Keys *)

(** The transition a key event means. *)
Definition transition (op : AdbOp) : list Z :=
  match op with
  | Key c down => [u8 ((if down then 0x00 else 0x80) .| (c .& 0x7F))]
  | _ => []
  end.

(** The bytes that are not the filler of an answer. *)
Definition noFiller (l : list Z) : list Z := filter (fun b => b <> 0xFF) l.

(** What a guest takes from an answer to Talk register 0 of the keyboard: the
    bytes that are not the filler. *)
Definition taken (e : AdbBus * AdbOp * list Z) : list Z :=
  let '(s, op, answer) := e in
  match op with
  | Command c _ =>
      if (c .& 0x0F =? 0x0C) && (c .>> 4 =? kbdAddr_ s) then noFiller answer else []
  | _ => []
  end.

(** No key whose release is the filler. *)
Definition plainKey (op : AdbOp) : Prop :=
  match op with Key c down => down = true \/ c .& 0x7F <> 0x7F | _ => True end.

Definition plainQueue (s : AdbBus) : Prop := Forall (fun b => b <> 0xFF) (keyQueue_ s).

Lemma noFiller_plain (l : list Z) : Forall (fun b => b <> 0xFF) l -> noFiller l = l.
Proof. unfold noFiller. induction 1; [done|]. rewrite filter_cons_True by done. by f_equal. Qed.

Lemma noFiller_app a b : noFiller (a ++ b) = noFiller a ++ noFiller b.
Proof. unfold noFiller. induction a as [|x a IH]; [done|]. cbn [app]. rewrite !filter_cons. case_decide; cbn [app]; by rewrite IH. Qed.

Lemma low7_bits c : 0 <= c .& 0x7F < 128.
Proof. change 0x7F with (2 ^ 7 - 1). rewrite land_mask_mod by lia. by apply Z.mod_pos_bound. Qed.

Lemma transition_plain op : plainKey op -> Forall (fun b => b <> 0xFF) (transition op).
Proof.
  destruct op as [c down|?|?|?]; cbn; try constructor; [|constructor].
  pose proof (low7_bits c) as Hc. set (x := c .& 0x7F) in *. clearbody x.
  assert (C : forallb (fun x => negb (u8 (0x00 .| x) =? 0xFF) && ((x =? 0x7F) || negb (u8 (0x80 .| x) =? 0xFF))) (seqZ 0 128) = true)
    by (vm_compute; reflexivity).
  rewrite forallb_forall in C. specialize (C x ltac:(apply list_elem_of_In, elem_of_seqZ; lia)).
  apply andb_true_iff in C as [C1 C2]. apply negb_true_iff, Z.eqb_neq in C1. apply orb_true_iff in C2.
  rewrite Z.eqb_eq, negb_true_iff, Z.eqb_neq in C2. destruct down; [done|]. destruct H; [done|]. tauto.
Qed.

(** The fields of a command byte. *)
Lemma command_fields c : byte c -> (c .& 0x0F =? 0x0C) = (((c .>> 2) .& 3 =? 3) && (c .& 3 =? 0)) /\
  ((c .& 0x0F =? 0) = true -> ((c .>> 2) .& 3 =? 3) = false).
Proof.
  intros Hc. assert (C : forallb (fun c => eqb (c .& 0x0F =? 0x0C) (((c .>> 2) .& 3 =? 3) && (c .& 3 =? 0)) &&
    implb (c .& 0x0F =? 0) (negb ((c .>> 2) .& 3 =? 3))) (seqZ 0 256) = true) by (vm_compute; reflexivity).
  rewrite forallb_forall in C. unfold byte in Hc. specialize (C c ltac:(apply list_elem_of_In, elem_of_seqZ; lia)).
  apply andb_true_iff in C as [C1 C2]. apply eqb_prop in C1. split; [done|]. intros E. rewrite E in C2. by apply negb_true_iff.
Qed.

Lemma listen_keys addr reg data s : keyQueue_ (listen addr reg data s) = keyQueue_ s.
Proof. unfold listen. destruct data as [|d0 [|d1 ?]]; repeat case_match; done. Qed.

Lemma talkMouse_keys reg s : keyQueue_ (talkMouse reg s).2 = keyQueue_ s.
Proof. unfold talkMouse. repeat case_match; done. Qed.

Lemma talkKeyboard_keys reg s :
  (if reg =? 0 then noFiller (talkKeyboard reg s).1 else []) ++ noFiller (keyQueue_ (talkKeyboard reg s).2) =
  noFiller (keyQueue_ s).
Proof.
  unfold talkKeyboard. destruct (reg =? 0); [|by repeat case_match].
  assert (F : noFiller [0xFF] = []) by reflexivity.
  destruct (keyQueue_ s) as [|k0 [|k1 q]] eqn:Eq; cbn [fst snd keyQueue_ set_keyQueue].
  - by rewrite Eq.
  - change [k0; 0xFF] with ([k0] ++ [0xFF]). by rewrite noFiller_app, F, !app_nil_r.
  - change (k0 :: k1 :: q) with ([k0; k1] ++ q). by rewrite noFiller_app.
Qed.

Lemma perform_keys op s a s' : adbOp_ok op -> adbPerform op s = Some (a, s') ->
  taken (s, op, a) ++ noFiller (keyQueue_ s') = noFiller (keyQueue_ s) ++ noFiller (transition op).
Proof.
  intros Ho. destruct op as [c d|dx dy|d|c data]; cbn [adbPerform taken transition adbOp_ok] in *;
    try change (noFiller []) with (@nil Z); rewrite ?app_nil_r.
  - intros [= <- <-]. apply noFiller_app.
  - unfold mouseMove. destruct (addInt _ dx); [|done]. bnd. destruct (addInt _ dy); [|done]. bnd. by intros [= <- <-].
  - by intros [= <- <-].
  - intros [= E]. destruct (command_fields c (proj1 Ho)) as [-> F2]. unfold command in E.
    destruct (c .& 0x0F =? 0) eqn:E0; [rewrite F2 by done; by injection E as <- <-|].
    destruct ((c .>> 2) .& 3 =? 3); cbn [andb] in *.
    + destruct (c .>> 4 =? kbdAddr_ s).
      * rewrite andb_true_r. pose proof (talkKeyboard_keys (c .& 3) s) as HT. rewrite E in HT. exact HT.
      * rewrite andb_false_r. destruct (c .>> 4 =? mouseAddr_ s).
        -- replace s' with (talkMouse (c .& 3) s).2 by (by rewrite E). cbn [app]. by rewrite talkMouse_keys.
        -- destruct ((c .>> 2) .& 3 =? 2); injection E as <- <-; cbn [app]; by rewrite ?listen_keys.
    + destruct ((c .>> 2) .& 3 =? 2); injection E as <- <-; cbn [app]; by rewrite ?listen_keys.
Qed.

(** Nothing but what the host reported gets into the queue. *)
Lemma perform_queue (P : Z -> Prop) op s a s' : Forall P (keyQueue_ s) -> Forall P (transition op) ->
  adbPerform op s = Some (a, s') -> Forall P (keyQueue_ s').
Proof.
  intros Hq Ht. destruct op as [c d|dx dy|d|c data]; cbn [adbPerform transition] in *.
  - intros [= <- <-]. by apply Forall_app.
  - unfold mouseMove. destruct (addInt _ dx); [|done]. bnd. destruct (addInt _ dy); [|done]. bnd. by intros [= <- <-].
  - by intros [= <- <-].
  - intros [= E]. replace s' with (command c data s).2 by (by rewrite E). clear E. unfold command.
    repeat case_match; cbn [snd]; rewrite ?talkMouse_keys, ?listen_keys; try done.
    unfold talkKeyboard. destruct (c .& 3 =? 0); [|repeat case_match; exact Hq].
    destruct (keyQueue_ s) as [|k0 [|k1 q]] eqn:Eq; cbn; [by rewrite Eq|done|].
    by apply Forall_cons_1 in Hq as [_ [_ Hq]%Forall_cons_1].
Qed.

Lemma adbRun_keys ops : forall s log s', Forall adbOp_ok ops -> adbRun ops s = Some (log, s') ->
  flat_map taken log ++ noFiller (keyQueue_ s') = noFiller (keyQueue_ s) ++ noFiller (flat_map transition ops) /\
  (Forall plainKey ops -> plainQueue s -> plainQueue s').
Proof.
  induction ops as [|op ops IH]; intros s log s' HO; cbn [adbRun].
  { intros [= <- <-]. cbn. by rewrite app_nil_r. }
  apply Forall_cons_1 in HO as [Ho HO].
  destruct (adbPerform op s) as [[a s1]|] eqn:E; [|done]. bnd. destruct (adbRun ops s1) as [[log1 s2]|] eqn:E2; [|done].
  bnd. intros [= <- <-]. destruct (IH s1 log1 s2 HO E2) as [IH1 IH2]. cbn [flat_map]. split.
  - by rewrite <- app_assoc, IH1, noFiller_app, !app_assoc, (perform_keys op s a s1 Ho E).
  - intros [Hk HK]%Forall_cons_1 HP. apply IH2; [done|]. eapply perform_queue; [exact HP|by apply transition_plain|exact E].
Qed.

Lemma plain_transitions ops : Forall plainKey ops -> Forall (fun b => b <> 0xFF) (flat_map transition ops).
Proof. induction 1; cbn; [constructor|]. apply Forall_app. split; [by apply transition_plain|done]. Qed.

(** Keys are delivered in order and exactly once: from power-on, however
    key events, mouse events and commands are interleaved -- the keyboard moved
    to other addresses in between included -- what the guest has taken from the
    keyboard's answers, followed by what is still queued, is the sequence of
    transitions the host reported.  The run is defined.  The release of key
    $7F is left out: its code is the filler of an empty answer. *)
Theorem adb_keys_in_order ops : Forall adbOp_ok ops -> Forall plainKey ops ->
  exists log s, adbRun ops Adb0 = Some (log, s) /\ flat_map taken log ++ keyQueue_ s = flat_map transition ops.
Proof.
  intros HO HK. destruct (adbRun_ok ops Adb0 HO Adb0_ok) as (log & s & E & _). exists log, s. split; [done|].
  destruct (adbRun_keys ops Adb0 log s HO E) as [K P]. specialize (P HK ltac:(constructor)).
  rewrite (noFiller_plain (keyQueue_ s)) in K by done. rewrite K, (noFiller_plain (flat_map transition ops)) by (by apply plain_transitions). done.
Qed.

Lemma adb_keys_in_order_witness : exists log s,
  adbRun [Key 10 true; Key 11 true; Key 10 false; Command 0x2C []; Command 0x2B [0x67; 0xFE]; Command 0x7C []] Adb0 =
    Some (log, s) /\
  flat_map taken log ++ keyQueue_ s = flat_map transition
    [Key 10 true; Key 11 true; Key 10 false; Command 0x2C []; Command 0x2B [0x67; 0xFE]; Command 0x7C []].
Proof.
  apply adb_keys_in_order; [repeat constructor; cbn; lia|].
  repeat (apply Forall_cons_2; [first [by left | by right | done]|]). by apply Forall_nil.
Defined.

(** The release of key $7F and an empty queue give the same answer. *)
Theorem power_key_release_lost :
  (command 0x2C [] (keyEvent 0x7F false Adb0)).1 = (command 0x2C [] Adb0).1 /\ keyEvent 0x7F false Adb0 <> Adb0.
Proof. by vm_compute. Qed.

(** ** Motion *)

(** A report's seven bits as the guest reads them. *)
Definition motion (b : Z) : Z := let x := b .& 0x7F in if x <? 64 then x else x - 128.

(** What the guest adds up: the answers to Talk register 0 of the mouse. *)
Definition moved (e : AdbBus * AdbOp * list Z) : Z * Z :=
  let '(s, op, answer) := e in
  match op, answer with
  | Command c _, [b0; b1] =>
      if (c .& 0x0F =? 0x0C) && negb (c .>> 4 =? kbdAddr_ s) && (c .>> 4 =? mouseAddr_ s)
      then (motion b1, motion b0) else (0, 0)
  | _, _ => (0, 0)
  end.

Definition pushed (op : AdbOp) : Z * Z := match op with Move dx dy => (dx, dy) | _ => (0, 0) end.

(** The guest polls often enough: no move takes the pending motion over the
    256 counts the bus holds. *)
Definition kept (e : AdbBus * AdbOp * list Z) : Prop :=
  let '(s, op, _) := e in
  match op with Move dx dy => -256 <= mdx_ s + dx <= 256 /\ -256 <= mdy_ s + dy <= 256 | _ => True end.

Definition plus2 (a b : Z * Z) : Z * Z := (a.1 + b.1, a.2 + b.2).
Definition total {A} (f : A -> Z * Z) (l : list A) : Z * Z := foldr (fun x acc => plus2 (f x) acc) (0, 0) l.

(** A report says what it takes away. *)
Lemma clamp7_report v : -256 <= v <= 256 ->
  let (b, rest) := clamp7 v in (motion b + rest = v) /\ 0 <= b < 128 /\ Z.abs rest <= Z.max 0 (Z.abs v - 63).
Proof.
  intros Hv. assert (C : forallb (fun v => let (b, rest) := clamp7 v in
    (motion b + rest =? v) && (0 <=? b) && (b <? 128) && (Z.abs rest <=? Z.max 0 (Z.abs v - 63))) (seqZ (-256) 513) = true)
    by (vm_compute; reflexivity).
  rewrite forallb_forall in C. specialize (C v ltac:(apply list_elem_of_In, elem_of_seqZ; lia)).
  destruct (clamp7 v). unbool. auto.
Qed.

Lemma motion_high hi b : hi = 0 \/ hi = 0x80 -> 0 <= b < 128 -> motion (u8 (hi .| b)) = motion b.
Proof.
  intros Hh Hb. assert (C : forallb (fun b => (motion (u8 (0 .| b)) =? motion b) && (motion (u8 (0x80 .| b)) =? motion b))
    (seqZ 0 128) = true) by (vm_compute; reflexivity).
  rewrite forallb_forall in C. specialize (C b ltac:(apply list_elem_of_In, elem_of_seqZ; lia)). unbool.
  destruct Hh as [->| ->]; tauto.
Qed.

Lemma talkMouse_report s : adb_ok s -> exists b0 b1 s', talkMouse 0 s = ([b0; b1], s') /\
  motion b1 + mdx_ s' = mdx_ s /\ motion b0 + mdy_ s' = mdy_ s /\
  Z.abs (mdx_ s') <= Z.max 0 (Z.abs (mdx_ s) - 63) /\ Z.abs (mdy_ s') <= Z.max 0 (Z.abs (mdy_ s) - 63) /\
  mbtn_ s' = mbtn_ s /\ mbtnSent_ s' = mbtn_ s /\ kbdAddr_ s' = kbdAddr_ s /\ mouseAddr_ s' = mouseAddr_ s.
Proof.
  intros Hs. pose proof (clamp7_report _ (ao_mdx s Hs)) as Rx. pose proof (clamp7_report _ (ao_mdy s Hs)) as Ry.
  unfold talkMouse. cbn [Z.eqb]. destruct (clamp7 (mdy_ s)) as [dy my]. cbn [mdx_ set_mdy].
  destruct (clamp7 (mdx_ s)) as [dx mx]. do 3 eexists. split; [done|]. cbn.
  rewrite !motion_high by (try apply Rx; try apply Ry; destruct (mbtn_ s); auto). destruct Rx as (? & ? & ?), Ry as (? & ? & ?).
  by split_and!.
Qed.

Lemma listen_motion addr reg data s : mdx_ (listen addr reg data s) = mdx_ s /\ mdy_ (listen addr reg data s) = mdy_ s.
Proof. unfold listen. destruct data as [|d0 [|d1 ?]]; repeat case_match; done. Qed.

Lemma talkKeyboard_motion reg s : mdx_ (talkKeyboard reg s).2 = mdx_ s /\ mdy_ (talkKeyboard reg s).2 = mdy_ s.
Proof. unfold talkKeyboard. repeat case_match; done. Qed.

Definition pending (s : AdbBus) : Z * Z := (mdx_ s, mdy_ s).

Lemma pending_same s s' : mdx_ s' = mdx_ s /\ mdy_ s' = mdy_ s -> plus2 (0, 0) (pending s') = plus2 (pending s) (0, 0).
Proof. intros [E1 E2]. unfold plus2, pending. cbn. rewrite E1, E2, !Z.add_0_r. done. Qed.

(** A command that is not a report of the mouse moves nothing. *)
Lemma command_motion c data s a s' : byte c -> adb_ok s -> command c data s = (a, s') ->
  plus2 (moved (s, Command c data, a)) (pending s') = plus2 (pending s) (0, 0).
Proof.
  intros Hc Hs E. assert (Quiet : forall t, mdx_ t = mdx_ s /\ mdy_ t = mdy_ s -> moved (s, Command c data, a) = (0, 0) ->
    plus2 (moved (s, Command c data, a)) (pending t) = plus2 (pending s) (0, 0)) by (intros t Ht ->; by apply pending_same).
  destruct (command_fields c Hc) as [F1 F2]. unfold command in E.
  assert (Mute : a = [] -> moved (s, Command c data, a) = (0, 0)) by (by intros ->).
  destruct (c .& 0x0F =? 0); [injection E as <- <-; by apply Quiet; [|apply Mute]|].
  assert (Off : (c .& 0x0F =? 0x0C) && negb (c .>> 4 =? kbdAddr_ s) && (c .>> 4 =? mouseAddr_ s) = false ->
    moved (s, Command c data, a) = (0, 0)) by (intros E'; cbn [moved]; rewrite E'; by destruct a as [|? [|? [|]]]).
  destruct ((c .>> 2) .& 3 =? 3) eqn:E3; cbn [andb] in *.
  2: { destruct ((c .>> 2) .& 3 =? 2); injection E as <- <-; (apply Quiet; [|by apply Mute]); [apply listen_motion|done]. }
  destruct (c .>> 4 =? kbdAddr_ s) eqn:Ek; [|destruct (c .>> 4 =? mouseAddr_ s) eqn:Em].
  - apply Quiet; [|apply Off; by rewrite andb_false_r]. replace s' with (talkKeyboard (c .& 3) s).2 by (by rewrite E).
    apply talkKeyboard_motion.
  - destruct (c .& 3 =? 0) eqn:E0.
    + apply Z.eqb_eq in E0. rewrite E0 in E. destruct (talkMouse_report s Hs) as (b0 & b1 & t & Et & X & Y & _).
      rewrite Et in E. injection E as <- <-. cbn [moved]. rewrite F1, Ek, Em. unfold plus2, pending. cbn. by rewrite X, Y, !Z.add_0_r.
    + apply Quiet; [|apply Off; by rewrite F1]. unfold talkMouse in E. rewrite E0 in E.
      destruct (c .& 3 =? 3); by injection E as <- <-.
  - destruct ((c .>> 2) .& 3 =? 2); injection E as <- <-; (apply Quiet; [|by apply Mute]); [apply listen_motion|done].
Qed.

Lemma perform_motion op s a s' : adbOp_ok op -> adb_ok s -> adbPerform op s = Some (a, s') -> kept (s, op, a) ->
  plus2 (moved (s, op, a)) (pending s') = plus2 (pending s) (pushed op).
Proof.
  intros Ho Hs E HK. destruct op as [c d|dx dy|d|c data]; cbn [adbPerform adbOp_ok kept pushed] in *.
  - injection E as <- <-. by apply pending_same.
  - unfold mouseMove in E. destruct (addInt (mdx_ s) dx) as [x|] eqn:Ex; [|done]. cbn [mbind option_bind mdy_ set_mdx] in E.
    destruct (addInt (mdy_ s) dy) as [y|] eqn:Ey; [|done]. injection E as <- <-. unfold addInt in *.
    destruct (_ && _); [|done]. destruct (_ && _); [|done]. injection Ex as <-. injection Ey as <-.
    unfold plus2, pending. cbn. by rewrite !clamp_id by lia.
  - injection E as <- <-. by apply pending_same.
  - injection E as E. apply (command_motion c data s a s'); [apply Ho|done|done].
Qed.

Lemma plus2_assoc a b c : plus2 (plus2 a b) c = plus2 a (plus2 b c).
Proof. unfold plus2. cbn. by rewrite !Z.add_assoc. Qed.
Lemma plus2_comm a b : plus2 a b = plus2 b a.
Proof. unfold plus2. by rewrite (Z.add_comm a.1), (Z.add_comm a.2). Qed.

Lemma adbRun_motion ops : forall s log s', Forall adbOp_ok ops -> adb_ok s -> adbRun ops s = Some (log, s') ->
  Forall kept log -> plus2 (total moved log) (pending s') = plus2 (pending s) (total pushed ops).
Proof.
  induction ops as [|op ops IH]; intros s log s' HO Hs; cbn [adbRun].
  { intros [= <- <-] _. apply plus2_comm. }
  apply Forall_cons_1 in HO as [Ho HO]. destruct (adbPerform_ok op s Ho Hs) as (a & s1 & E & H1). rewrite E. bnd.
  destruct (adbRun ops s1) as [[log1 s2]|] eqn:E2; [|done]. bnd. intros [= <- <-] HK. apply Forall_cons_1 in HK as [Hk HK].
  cbn [total foldr]. fold (total moved log1). fold (total pushed ops).
  rewrite plus2_assoc, (IH s1 log1 s2 HO H1 E2 HK), <- plus2_assoc, (perform_motion op s a s1 Ho Hs E Hk). by rewrite plus2_assoc.
Qed.

(** C32. The mouse loses no motion: in every run from power-on in which the
    guest polls before 256 counts pile up, the motion it has read from the
    mouse's reports, in both axes and with their signs, plus the motion still
    pending is the motion the host pushed. *)
Theorem adb_motion_conserved ops log s : Forall adbOp_ok ops -> adbRun ops Adb0 = Some (log, s) -> Forall kept log ->
  plus2 (total moved log) (pending s) = total pushed ops.
Proof.
  intros HO E HK. rewrite (adbRun_motion ops Adb0 log s HO Adb0_ok E HK). unfold plus2. cbn. by destruct (total pushed ops).
Qed.

Lemma adb_motion_conserved_witness :
  match adbRun [Move 100 (-70); Command 0x3C []; Move (-3) 2; Command 0x3C []] Adb0 with
  | Some (log, s) => plus2 (total moved log) (pending s) = (97, -68) /\ pending s = (0, 0)
  | None => False
  end.
Proof.
  pose proof (adb_motion_conserved [Move 100 (-70); Command 0x3C []; Move (-3) 2; Command 0x3C []]) as H.
  destruct (adbRun _ Adb0) as [[log s]|] eqn:E; [|by vm_compute in E]. split.
  - apply H; [repeat constructor; cbn; lia|done|]. vm_compute in E. injection E as <- _. repeat constructor; cbn; lia.
  - vm_compute in E. by injection E as _ <-.
Defined.









