(* ===== verification/SaveDevices.v ===== *)
(** * SaveDevices: what each device puts into a saved state

    The [visit] of the devices modelled elsewhere, as lists of fields in their
    order: the VIA ([src/Via6522.h]), the clock chip ([src/Rtc.h]), the desktop
    bus ([src/AdbBus.h]); and the retained tracks of a floppy with their
    operations and their check of what is loaded
    ([src/FloppyTrackMedium.h]). *)

From S2P Require Import Prelude Vectors Via6522 Rtc AdbBus SaveState.
From stdpp Require Import base list numbers option decidable.

Open Scope Z_scope.

Definition u8C : Codec Z := intC 1 false.
Definition u16C : Codec Z := intC 2 false.
Definition u32C : Codec Z := intC 4 false.
Definition i32C : Codec Z := intC 4 true.
Definition i64C : Codec Z := intC 8 true.

(** ** The VIA *)

Module ViaVisit.
Import Via6522.
Definition viaC : Codec Via := visitC [
  mkField u8C ora_ set_ora; mkField u8C orb_ set_orb; mkField u8C ddra_ set_ddra; mkField u8C ddrb_ set_ddrb;
  mkField u8C inA_ set_inA; mkField u8C inB_ set_inB;
  mkField u8C acr_ set_acr; mkField u8C pcr_ set_pcr; mkField u8C sr_ set_sr; mkField u8C ifr_ set_ifr; mkField u8C ier_ set_ier;
  mkField boolC srHostWritten_ set_srHostWritten; mkField i32C shiftCount_ set_shiftCount; mkField i32C extBits_ set_extBits;
  mkField boolC extCb1_ set_extCb1; mkField boolC cb1_ set_cb1; mkField boolC cb2_ set_cb2;
  mkField i32C t1_ set_t1; mkField i32C t2_ set_t2; mkField u16C t1latch_ set_t1latch; mkField u8C t2ll_ set_t2ll;
  mkField boolC t1armed_ set_t1armed; mkField boolC t2armed_ set_t2armed; mkField i64C ca1Cleared set_ca1Cleared;
  mkField boolC pmuIntAsserted_ set_pmuIntAsserted; mkField boolC t1Pb7_ set_t1Pb7; mkField u8C t2hold_ set_t2hold].
End ViaVisit.

(** ** The clock chip *)

Module RtcVisit.
Import Rtc.

(** [phase_] is an [int] there.  A value outside the enumeration meets no case
    of the switch that uses it, as [DONE]. *)
Definition phaseNumber (p : Phase) : Z :=
  match p with CMD => 0 | WRITE_DATA => 1 | READ_DATA => 2 | XP_ADDR => 3 | XP_WRITE => 4 | DONE => 5 end.
Definition phaseOf (n : Z) : Phase :=
  if n =? 0 then CMD else if n =? 1 then WRITE_DATA else if n =? 2 then READ_DATA
  else if n =? 3 then XP_ADDR else if n =? 4 then XP_WRITE else DONE.

Definition phaseC : Codec Phase :=
  mkCodec (fun p => put i32C (phaseNumber p))
    (fun p r => x ← get i32C (phaseNumber p) r; let (n, r) := x : Z * Reader in Some (phaseOf n, r)).

Definition rtcC : Codec Rtc := visitC [
  mkField u32C seconds_ set_seconds; mkField (arrayC u8C) pram_ set_pram; mkField boolC writeProtect_ set_writeProtect;
  mkField phaseC phase_ set_phase; mkField i32C bitCnt_ set_bitCnt;
  mkField u8C shift_ set_shift; mkField u8C cmd_ set_cmd; mkField u8C outData_ set_outData; mkField u8C out_ set_out;
  mkField u8C xpAddr_ set_xpAddr; mkField boolC enabled_ set_enabled; mkField boolC lastClk_ set_lastClk].
End RtcVisit.

(** ** The desktop bus *)

Module AdbVisit.
Import AdbBus.
Definition adbC : Codec AdbBus := visitC [
  mkField (seqC u8C 0) keyQueue_ set_keyQueue; mkField i32C mdx_ set_mdx; mkField i32C mdy_ set_mdy;
  mkField boolC mbtn_ set_mbtn; mkField boolC mbtnSent_ set_mbtnSent;
  mkField u8C kbdAddr_ set_kbdAddr; mkField u8C mouseAddr_ set_mouseAddr].
End AdbVisit.

(** ** The retained tracks of a floppy *)

Definition kMaxRevolution : Z := 15667200 * 1024.

Record Track := mkTrack { present : bool; revolution : Z; decodeClock : Z; edges : list Z }.

#[export] Instance eta_track : Eta Track := fun t => mkTrack (present t) (revolution t) (decodeClock t) (edges t).
Definition set_present := ltac:(set_field present).
Definition set_revolution := ltac:(set_field revolution).
Definition set_decodeClock := ltac:(set_field decodeClock).
Definition set_edges := ltac:(set_field edges).

Definition noTrack : Track := mkTrack false 0 0 [].

(** [std::is_sorted] and [std::adjacent_find]. *)
Fixpoint is_sorted (l : list Z) : bool :=
  match l with a :: ((b :: _) as t) => negb (b <? a) && is_sorted t | _ => true end.
Fixpoint adjacent_equal (l : list Z) : bool :=
  match l with a :: ((b :: _) as t) => (a =? b) || adjacent_equal t | _ => false end.

Definition badTrack (t : Track) : bool :=
  (revolution t <? 0) || (kMaxRevolution <? revolution t) || (decodeClock t <? 0) || (kMaxRevolution <? decodeClock t) ||
  (negb (present t) && ((revolution t <>? 0) || (decodeClock t <>? 0) || negb (edges t == []))) ||
  (present t && (revolution t =? 0)) || negb (is_sorted (edges t)) ||
  match edges t with [] => false | front :: q => (front <? 0) || (revolution t <=? List.last q front) end ||
  adjacent_equal (edges t).

Definition trackC : Codec Track :=
  checkedC (visitC [
    mkField boolC present set_present; mkField i64C revolution set_revolution;
    mkField i64C decodeClock set_decodeClock; mkField (seqC i64C 0) edges set_edges])
    (fun t => negb (badTrack t)).

Record TrackMedium := mkMedium { native : bool; tracks : list Track }.

#[export] Instance eta_medium : Eta TrackMedium := fun m => mkMedium (native m) (tracks m).
Definition set_native := ltac:(set_field native).
Definition set_tracks := ltac:(set_field tracks).

Definition newMedium : TrackMedium := mkMedium false (replicate 160 noTrack).

Definition clear (m : TrackMedium) : TrackMedium := mkMedium false (map (fun _ => noTrack) (tracks m)).
Definition retain (index : Z) (edges : list Z) (rev clock : Z) (m : TrackMedium) : TrackMedium :=
  if (0 <=? index) && (index <? 160) && (0 <? rev)
  then set_tracks (wr (tracks m) index (mkTrack true rev clock edges)) m else m.
Definition invalidate (index : Z) (m : TrackMedium) : TrackMedium :=
  if (0 <=? index) && (index <? 160) then set_tracks (wr (tracks m) index noTrack) m else m.

Definition mediumC : Codec TrackMedium := visitC [
  mkField boolC native set_native; mkField (arrayC trackC) tracks set_tracks].
