(* ===== verification/SaveDevicesFacts.v ===== *)
(** * SaveDevicesFacts: devices across a save and a load

    The encodings of the devices are lawful, so a device that is saved and
    loaded into another of its kind is the one that was saved; what the [visit]
    of a device leaves out is what the two must have in common.  A track that
    is loaded without failure is well-formed, whatever the bytes. *)

From S2P Require Import Prelude Vectors Via6522 Rtc RtcFacts AdbBus AdbFacts SaveState SaveFacts SaveDevices.
From S2P Require Import SaveMachineFacts.
From stdpp Require Import base list numbers option decidable sets sorting.

Open Scope Z_scope.

Lemma u8C_lawful : Lawful u8C anything byte.
Proof. apply (intC_lawful 1 false). lia. Qed.
Lemma u16C_lawful : Lawful u16C anything (fun x => 0 <= x < 65536).
Proof. apply (intC_lawful 2 false). lia. Qed.
Lemma u32C_lawful : Lawful u32C anything (fun x => 0 <= x < 4294967296).
Proof. apply (intC_lawful 4 false). lia. Qed.
Lemma i32C_lawful : Lawful i32C anything (InInt 4 true).
Proof. apply intC_lawful. lia. Qed.
Lemma i64C_lawful : Lawful i64C anything (InInt 8 true).
Proof. apply intC_lawful. lia. Qed.

Create HintDb codecs.
#[export] Hint Resolve u8C_lawful u16C_lawful u32C_lawful i32C_lawful i64C_lawful boolC_lawful : codecs.

(** ** The VIA *)

Module ViaFacts.
Import Via6522 ViaVisit.

Record ViaFits (s : Via) : Prop := {
  vf_ports : byte (ora_ s) /\ byte (orb_ s) /\ byte (ddra_ s) /\ byte (ddrb_ s) /\ byte (inA_ s) /\ byte (inB_ s);
  vf_control : byte (acr_ s) /\ byte (pcr_ s) /\ byte (sr_ s) /\ byte (ifr_ s) /\ byte (ier_ s);
  vf_shift : InInt 4 true (shiftCount_ s) /\ InInt 4 true (extBits_ s);
  vf_timers : InInt 4 true (t1_ s) /\ InInt 4 true (t2_ s) /\ 0 <= t1latch_ s < 65536 /\ byte (t2ll_ s) /\ byte (t2hold_ s);
  vf_count : InInt 8 true (ca1Cleared s)
}.

(** What the chip's [visit] leaves out: a strap, and two of its latches. *)
Definition SameStraps (s s' : Via) : Prop :=
  mscShiftQuirk_ s = mscShiftQuirk_ s' /\ extIntCb1_ s = extIntCb1_ s' /\ extByteDone_ s = extByteDone_ s'.

#[export] Instance sameStraps_equiv : Equivalence SameStraps.
Proof. split; repeat intro; unfold SameStraps in *; intuition congruence. Qed.

Lemma viaC_lawful : Lawful viaC SameStraps ViaFits.
Proof.
  apply visitC_lawful; [apply _| |].
  - repeat (apply Forall_cons_2; [eapply plain_field; [eauto with codecs|intros s []; intuition|done]|]). apply Forall_nil_2.
  - intros [] [] (E1 & E2 & E3) _. cbn in *. by subst.
Qed.
End ViaFacts.

(** ** The clock chip *)

Module RtcSave.
Import Rtc RtcVisit RtcFacts.

Lemma phaseC_lawful : Lawful phaseC anything (fun _ => True).
Proof.
  pose proof i32C_lawful as L. split; [apply _|..]; cbn [phaseC put get].
  - intros p0 p r rest _ _ HB.
    rewrite (lw_roundtrip _ _ _ L _ (phaseNumber p) r rest I) by (done || destruct p; by vm_compute). bnd. by destruct p.
  - intros p r HV. destruct (lw_total _ _ _ L (phaseNumber p) r HV) as (n & r' & -> & _ & F). bnd.
    do 2 eexists. split; [done|]. by split.
  - intros p0 r p r' more HV HV' E O. destruct (get i32C _ r) as [[n r1]|] eqn:E1; [|done]. cbn [mbind option_bind] in E.
    injection E as <- <-. by rewrite (lw_stable _ _ _ L _ r n r1 more HV HV' E1 O).
Qed.

Definition SameModel (s s' : Rtc) : Prop :=
  appleTalkPram_ s = appleTalkPram_ s' /\ length (pram_ s) = length (pram_ s').

#[export] Instance sameModel_equiv : Equivalence SameModel.
Proof. split; repeat intro; unfold SameModel in *; intuition congruence. Qed.

Lemma rtcC_lawful : Lawful rtcC SameModel engine_ok.
Proof.
  apply visitC_lawful; [apply _| |].
  - apply Forall_cons_2; [eapply plain_field; [eauto with codecs|intros s H; apply H|done]|].
    apply Forall_cons_2.
    { exists (Forall2 anything), (fun xs => len xs = 256 /\ Forall byte xs). split_and!.
      - apply arrayC_lawful, u8C_lawful.
      - intros s0 s [_ E]. by apply any_lengths.
      - intros s H. split; [|apply H]. pose proof (ro_pram s (eo_rtc s H)) as E. cbn. unfold len. by rewrite E.
      - intros s v H. split; [done|]. by apply any_lengths. }
    repeat (apply Forall_cons_2; [eapply plain_field; [eauto using phaseC_lawful with codecs| |done]|]); [..|apply Forall_nil_2];
      intros s H; try done; try apply H; pose proof (eo_cnt s H); pose proof (eo_out s H); cbn; unfold InInt, byte; try lia.
    change (-2147483648 <= bitCnt_ s < 2147483648). destruct (phase_ s); lia.
  - intros [] [] [E1 E2] _. cbn in *. by subst.
Qed.
End RtcSave.

(** ** The desktop bus *)

Module AdbSave.
Import AdbBus AdbFacts AdbVisit.

Lemma adbC_lawful : Lawful adbC anything adb_ok.
Proof.
  apply visitC_lawful; [apply _| |].
  - repeat (apply Forall_cons_2; [eapply plain_field; [eauto using bytesC_lawful with codecs| |done]|]); [..|apply Forall_nil_2];
      intros s [A B C D E]; try done; unfold InInt, byte; cbn; lia.
  - by intros [] [] _ _.
Qed.
End AdbSave.

(** ** Tracks *)

(** A track as the reading code expects it: on a present one, the edges rise
    strictly inside the revolution. *)
Record TrackOk (t : Track) : Prop := {
  to_rev : 0 <= revolution t <= kMaxRevolution;
  to_clock : 0 <= decodeClock t <= kMaxRevolution;
  to_absent : present t = false -> t = noTrack;
  to_present : present t = true -> 0 < revolution t;
  to_sorted : StronglySorted Z.lt (edges t);
  to_range : Forall (fun e => 0 <= e < revolution t) (edges t)
}.

(** Sorted without equal neighbours is sorted strictly. *)
Lemma strict_sorted l : is_sorted l = true -> adjacent_equal l = false -> StronglySorted Z.lt l.
Proof.
  intros H1 H2. apply Sorted_StronglySorted; [intros x y z; lia|]. revert H1 H2.
  induction l as [|a [|b l] IH]; [by constructor|by constructor|]. cbn [is_sorted adjacent_equal].
  intros H1 H2. apply andb_true_iff in H1 as [H1 H1']. apply orb_false_iff in H2 as [H2 H2'].
  apply negb_true_iff, Z.ltb_ge in H1. apply Z.eqb_neq in H2. constructor; [auto|]. constructor. lia.
Qed.

Lemma sorted_tests l : StronglySorted Z.lt l -> is_sorted l = true /\ adjacent_equal l = false.
Proof.
  intros H. apply StronglySorted_Sorted in H. induction H as [|a l _ [IH1 IH2] Hd]; [done|].
  destruct Hd as [|b l Hb]; [done|]. cbn [is_sorted adjacent_equal] in *.
  rewrite (proj2 (Z.ltb_ge b a)), (proj2 (Z.eqb_neq a b)), IH2 by lia. by rewrite IH1.
Qed.

Lemma last_default (l : list Z) z a b : List.last (z :: l) a = List.last (z :: l) b.
Proof. revert z. induction l as [|y l IH]; intros z; [done|]. exact (IH y). Qed.

(** The first and the last bound all of a sorted list. *)
Lemma sorted_bounds a l lo hi : StronglySorted Z.lt (a :: l) -> lo <= a -> List.last l a < hi ->
  Forall (fun e => lo <= e < hi) (a :: l).
Proof.
  revert a. induction l as [|b l IH]; intros a HS Ha Hl; [repeat constructor; (done || lia)|].
  inversion HS as [|? ? HS' HF]; subst. apply Forall_cons_1 in HF as [Hab _].
  assert (Hb : Forall (fun e => lo <= e < hi) (b :: l)).
  { apply IH; [done|lia|]. destruct l as [|z l]; [done|]. rewrite (last_default l z b a). exact Hl. }
  constructor; [|done]. apply Forall_cons_1 in Hb as [Hb _]. lia.
Qed.

Lemma last_in (l : list Z) a P : P a -> Forall P l -> P (List.last l a).
Proof. intros Ha HF. revert a Ha. induction HF as [|b l Hb HF IH]; intros a Ha; [done|]. cbn. destruct l; [done|]. by apply IH. Qed.

Lemma badTrack_ok t : badTrack t = false -> TrackOk t.
Proof.
  unfold badTrack. rewrite !orb_false_iff. intros [[[[[[[[H1 H2] H3] H4] H5] H6] H7] H8] H9].
  apply Z.ltb_ge in H1, H2, H3, H4. apply negb_false_iff in H7. pose proof (strict_sorted _ H7 H9) as HS.
  split; [lia|lia|..].
  - intros E. rewrite E in H5. cbn [negb andb] in H5. apply orb_false_iff in H5 as [H5 H5c].
    apply orb_false_iff in H5 as [H5a H5b]. apply negb_false_iff in H5a, H5b, H5c. apply Z.eqb_eq in H5a, H5b.
    apply bool_decide_eq_true in H5c. destruct t as [pr re de ed]. cbn in *. by subst.
  - intros E. rewrite E in H6. cbn [andb] in H6. apply Z.eqb_neq in H6. lia.
  - done.
  - destruct (edges t) as [|a l]; [done|]. apply orb_false_iff in H8 as [H8 H8']. apply Z.ltb_ge in H8. apply Z.leb_gt in H8'.
    by apply sorted_bounds.
Qed.

Lemma ok_badTrack t : TrackOk t -> badTrack t = false.
Proof.
  intros [H1 H2 H3 H4 H5 H6]. destruct (sorted_tests _ H5) as [S1 S2]. unfold badTrack.
  rewrite S1, S2, (proj2 (Z.ltb_ge (revolution t) 0)), (proj2 (Z.ltb_ge kMaxRevolution (revolution t))),
    (proj2 (Z.ltb_ge (decodeClock t) 0)), (proj2 (Z.ltb_ge kMaxRevolution (decodeClock t))) by lia. cbn [orb negb].
  assert (E8 : match edges t with [] => false | front :: q => (front <? 0) || (revolution t <=? List.last q front) end = false).
  { destruct (edges t) as [|a l]; [done|]. apply Forall_cons_1 in H6 as [Ha Hl].
    pose proof (last_in l a (fun e => 0 <= e < revolution t) Ha Hl) as Hz. cbn beta in Hz.
    rewrite (proj2 (Z.ltb_ge _ _)), (proj2 (Z.leb_gt _ _)) by lia. done. }
  rewrite E8. destruct (present t) eqn:E; cbn [negb andb orb].
  - rewrite (proj2 (Z.eqb_neq _ _)); [done|]. specialize (H4 eq_refl). lia.
  - by rewrite (H3 eq_refl).
Qed.

Lemma trackFields_lawful : Lawful (visitC [
    mkField boolC present set_present; mkField i64C revolution set_revolution;
    mkField i64C decodeClock set_decodeClock; mkField (seqC i64C 0) edges set_edges]) anything TrackOk.
Proof.
  assert (HK : forall x, 0 <= x <= kMaxRevolution -> InInt 8 true x)
    by (intros x; unfold kMaxRevolution; intros; change (-9223372036854775808 <= x < 9223372036854775808); lia).
  assert (HE : Lawful (seqC i64C 0) anything (Forall (InInt 8 true)))
    by (eapply seqC_lawful; [apply i64C_lawful|intros x _; by vm_compute|done]).
  apply visitC_lawful; [apply _| |by intros [] [] _ _].
  repeat (apply Forall_cons_2; [eapply plain_field; [eauto with codecs| |done]|]); [..|apply Forall_nil_2];
    intros t H; try done; [apply HK, H..|]. pose proof (to_rev t H).
  eapply Forall_impl; [apply (to_range t H)|]. intros x Hx. apply HK. cbn in Hx. lia.
Qed.

Lemma trackC_lawful : Lawful trackC anything TrackOk.
Proof. apply checkedC_lawful; [apply _|apply trackFields_lawful|]. intros t Ht. by rewrite ok_badTrack. Qed.

(** ** The medium *)

Definition MediumOk (m : TrackMedium) : Prop := len (tracks m) = 160 /\ Forall TrackOk (tracks m).
Definition SameCount (m m' : TrackMedium) : Prop := length (tracks m) = length (tracks m').

#[export] Instance sameCount_equiv : Equivalence SameCount.
Proof. split; repeat intro; unfold SameCount in *; congruence. Qed.

Lemma mediumC_lawful : Lawful mediumC SameCount MediumOk.
Proof.
  apply visitC_lawful; [apply _| |by intros [] [] _ _].
  apply Forall_cons_2; [eapply plain_field; [eauto with codecs|done|done]|]. apply Forall_cons_2; [|apply Forall_nil_2].
  exists (Forall2 anything), (fun xs => len xs = 160 /\ Forall TrackOk xs). split_and!.
  - apply arrayC_lawful, trackC_lawful.
  - intros m0 m E. by apply any_lengths.
  - done.
  - intros m v E. by apply any_lengths.
Qed.

(** ** The desktop bus and the clock chip *)

(** C20. No keystroke is lost or doubled across a restore.  When the bus is saved
    at any point of a run and loaded into a bus in any other state, the keys the
    guest took before the save and takes after the load, followed by those still
    queued, are the transitions the host reported in both parts, in order.  The
    code $FF, the release of key $7F, is the filler of an answer and is left out
    on both sides: the guest never sees it; when the host reports none, nothing
    is left out. *)
Theorem adb_keys_across_restore ops1 ops2 log1 s1 s0 r rest :
  Forall adbOp_ok (ops1 ++ ops2) -> adbRun ops1 Adb0 = Some (log1, s1) ->
  Before r (put AdbVisit.adbC s1 ++ rest) ->
  exists s r' log2 s2, get AdbVisit.adbC s0 r = Some (s, r') /\ ok_ r' = true /\ adbRun ops2 s = Some (log2, s2) /\
    flat_map taken (log1 ++ log2) ++ noFiller (keyQueue_ s2) = noFiller (flat_map transition (ops1 ++ ops2)) /\
    (Forall plainKey (ops1 ++ ops2) -> flat_map taken (log1 ++ log2) ++ keyQueue_ s2 = flat_map transition (ops1 ++ ops2)).
Proof.
  intros HO E1 HB. apply Forall_app in HO as [HO1 HO2].
  destruct (adbRun_ok ops1 Adb0 HO1 Adb0_ok) as (log1' & s1' & E1' & H1). rewrite E1 in E1'. injection E1' as <- <-.
  destruct (adbRun_keys ops1 Adb0 log1 s1 HO1 E1) as [K1 P1]. cbn [Adb0 keyQueue_] in K1. change (noFiller []) with (@nil Z) in K1.
  destruct (adbRun_ok ops2 s1 HO2 H1) as (log2 & s2 & E2 & _). destruct (adbRun_keys ops2 s1 log2 s2 HO2 E2) as [K2 P2].
  exists s1, (advance r (len (put AdbVisit.adbC s1))), log2, s2. split; [by apply (lw_roundtrip _ _ _ AdbSave.adbC_lawful s0 s1 r rest)|].
  split; [done|]. split; [done|].
  assert (G : flat_map taken (log1 ++ log2) ++ noFiller (keyQueue_ s2) = noFiller (flat_map transition (ops1 ++ ops2)))
    by (by rewrite !flat_map_app, <- app_assoc, K2, app_assoc, K1, noFiller_app).
  split; [exact G|]. intros HK. rewrite <- (noFiller_plain (keyQueue_ s2)), G; [by apply noFiller_plain, plain_transitions|].
  apply Forall_app in HK as [HK1 HK2]. apply P2; [done|]. apply P1; [done|constructor].
Qed.

(** Key $7F is released while others wait: its release alone is missing. *)
Lemma adb_keys_across_restore_witness :
  let saved := put AdbVisit.adbC (keyEvent 11 true (keyEvent 10 true Adb0)) in
  exists s r' log2 s2, get AdbVisit.adbC (keyEvent 44 true Adb0) (newReader saved) = Some (s, r') /\ ok_ r' = true /\
    adbRun [Key 0x7F false; Key 10 false; Command 0x2C []] s = Some (log2, s2) /\
    flat_map taken (([(Adb0, Key 10 true, []); (keyEvent 10 true Adb0, Key 11 true, [])]) ++ log2) ++ noFiller (keyQueue_ s2) =
    [10; 11; 0x8A].
Proof.
  destruct (adb_keys_across_restore [Key 10 true; Key 11 true] [Key 0x7F false; Key 10 false; Command 0x2C []]
    ([(Adb0, Key 10 true, []); (keyEvent 10 true Adb0, Key 11 true, [])]) (keyEvent 11 true (keyEvent 10 true Adb0))
    (keyEvent 44 true Adb0) (newReader (put AdbVisit.adbC (keyEvent 11 true (keyEvent 10 true Adb0)))) [])
    as (s & r' & log2 & s2 & H1 & H2 & H3 & H4 & _).
  - repeat constructor; cbn; lia.
  - by vm_compute.
  - apply newReader_before. by vm_compute.
  - exists s, r', log2, s2. split; [exact H1|]. split; [exact H2|]. split; [exact H3|]. rewrite H4. by vm_compute.
Defined.

(** C34. The clock chip resumes where it stood: whatever it has been through since
    power-on -- half a command shifted in between two clock edges included -- its
    saved bytes, loaded into a chip of the same model in any state, give back
    exactly the chip that was saved, its clock, its 256 bytes of memory and the
    place in the transaction. *)
Theorem rtc_survives_restore ops s0 r rest : let s := foldl (fun s op => rtcPerform op s) Rtc0 ops in
  Forall rtcOp_ok ops -> RtcSave.SameModel s0 s -> Before r (put RtcVisit.rtcC s ++ rest) ->
  get RtcVisit.rtcC s0 r = Some (s, advance r (len (put RtcVisit.rtcC s))).
Proof.
  intros s HO HL HB. apply (lw_roundtrip _ _ _ RtcSave.rtcC_lawful s0 s r rest); [done| |done].
  clear -HO. subst s. generalize Rtc0_engine. generalize Rtc0.
  induction HO as [|op ops Ho _ IH]; intros s Hs; [exact Hs|]. cbn [foldl]. apply IH. by apply rtcPerform_ok.
Qed.

Lemma rtc_survives_restore_witness :
  let s := foldl (fun s op => rtcPerform op s) Rtc0 [FactoryDefaults; SetSeconds 5; Lines true true true; Lines true false true] in
  bitCnt_ s = 1 /\ get RtcVisit.rtcC Rtc0 (newReader (put RtcVisit.rtcC s)) =
    Some (s, advance (newReader (put RtcVisit.rtcC s)) (len (put RtcVisit.rtcC s))).
Proof.
  split; [by vm_compute|].
  refine (rtc_survives_restore [FactoryDefaults; SetSeconds 5; Lines true true true; Lines true false true] Rtc0 _ [] _ _ _).
  - repeat constructor; cbn; lia.
  - by vm_compute.
  - apply newReader_before. by vm_compute.
Defined.

(** A file may leave the chip with a bit counter its shifts are undefined for:
    its [visit] takes any number. *)
Theorem rtc_counter_unchecked : exists bytes s r,
  get RtcVisit.rtcC Rtc0 (newReader bytes) = Some (s, r) /\ ok_ r = true /\ phase_ s = READ_DATA /\ bitCnt_ s = 100.
Proof.
  exists (put RtcVisit.rtcC (Rtc.set_bitCnt 100 (Rtc.set_phase READ_DATA Rtc0))). do 2 eexists.
  split; [vm_compute; reflexivity|]. by vm_compute.
Qed.

(** Two VIAs whose saved bytes are the same, and one of them takes an interrupt
    at the next edge of CB1 that the other misses: the edge detector is not
    saved. *)
Theorem via_edge_lost : exists s s' : Via,
  put ViaVisit.viaC s = put ViaVisit.viaC s' /\ has (ifr_ (extCb1Int true s)) CB1 = true /\ has (ifr_ (extCb1Int true s')) CB1 = false.
Proof.
  exists (extCb1Int false (set_pcr 0x10 Via0)), (set_pcr 0x10 Via0). by vm_compute.
Qed.

(** ** Tracks *)

(** An element that fails makes the rest fail. *)
Lemma getEach_checked {A} (c : Codec A) like fits (P : A -> Prop) (L : Lawful c like fits) :
  (forall a0 r a r', Valid r -> get c a0 r = Some (a, r') -> ok_ r' = true -> P a) ->
  forall xs0 r xs r', Valid r -> getEach c xs0 r = Some (xs, r') -> ok_ r' = true -> Forall P xs.
Proof.
  intros HP. induction xs0 as [|x0 xs0 IH]; intros r xs r' HV; cbn [getEach]; [by intros [= <- _]|].
  destruct (lw_total _ _ _ L x0 r HV) as (x & r1 & E1 & _ & F1). rewrite E1. bnd.
  assert (V1 : Valid r1) by eauto using follows_valid.
  destruct (getEach_total c like fits L xs0 r1 V1) as (xs1 & r2 & E2 & _ & F2). rewrite E2. bnd. intros [= <- <-] O.
  constructor; [apply (HP x0 r x r1 HV E1); by apply F2|by apply (IH r1 xs1 r2)].
Qed.

Lemma track_loaded t0 r t r' : Valid r -> get trackC t0 r = Some (t, r') -> ok_ r' = true -> TrackOk t.
Proof.
  intros HV E O. cbn [trackC checkedC get] in E. destruct (get (visitC _) t0 r) as [[t1 r1]|]; [|done].
  cbn [mbind option_bind] in E. injection E as <- <-.
  apply badTrack_ok. destruct (badTrack t1); [done|done].
Qed.

(** C35. What the medium hands on is well-formed, whatever the file: reading the
    160 tracks of a floppy from any bytes is defined, and unless the reader is
    left failing, every track's edges rise strictly inside its revolution, its
    times are in their bounds and an absent track is empty. *)
Theorem medium_loads_wellformed m0 r : Valid r -> len (tracks m0) = 160 ->
  exists m r', get mediumC m0 r = Some (m, r') /\ Follows r r' /\ (ok_ r' = true -> MediumOk m).
Proof.
  intros HV HL. destruct (lw_total _ _ _ mediumC_lawful m0 r HV) as (m & r' & E & HC & F). exists m, r'.
  split; [done|]. split; [done|]. intros O. unfold SameCount in HC. split; [unfold len in *; lia|].
  cbn [mediumC visitC get getFields fieldCodec fieldGet fieldSet] in E.
  destruct (lw_total _ _ _ boolC_lawful (native m0) r HV) as (b & r1 & E1 & _ & F1). cbn [get boolC] in E1, E. rewrite E1 in E. cbn [mbind option_bind] in E.
  assert (V1 : Valid r1) by eauto using follows_valid. cbn [arrayC get] in E.
  destruct (getEach trackC _ r1) as [[ts r2]|] eqn:E2; [|done]. cbn [mbind option_bind] in E. injection E as <- <-.
  exact (getEach_checked trackC anything TrackOk TrackOk trackC_lawful track_loaded _ r1 ts r2 V1 E2 O).
Qed.

Lemma medium_loads_wellformed_witness :
  (exists m r', get mediumC newMedium (newReader (put mediumC (retain 3 [5; 900; 901] 2000 16 newMedium))) = Some (m, r') /\
    Follows (newReader (put mediumC (retain 3 [5; 900; 901] 2000 16 newMedium))) r' /\ (ok_ r' = true -> MediumOk m)) /\
  (exists m r', get mediumC newMedium (newReader (put mediumC (retain 3 [5; 901; 900] 2000 16 newMedium))) = Some (m, r') /\ ok_ r' = false).
Proof.
  split.
  - apply (medium_loads_wellformed newMedium); [apply newReader_valid; by vm_compute|by vm_compute].
  - do 2 eexists. split; [vm_compute; reflexivity|done].
Defined.
