(* ===== verification/FloppyImage.v ===== *)
(** * FloppyImage: the host files a floppy comes from

    [src/DartImage.h], [src/Dc42Image.h], [src/MoofImage.h] and
    [src/FloppyFileImage.h] whole: the two sector containers, the flux
    container, and the provenance a drive keeps so as to write a changed disk
    back the way it was read; and from [src/SonyDriveMedia.cpp] what the drive
    does with a file when a disk goes in and when it is flushed.  Vectors are lists of bytes.  [None] is
    undefined behaviour (a read or write outside a vector, a loop that would
    not end); a refusal of the code is a value.  The output stream is an
    interface, [OStream], with what the library documents of it. *)

From S2P Require Import Prelude Vectors Dart Gcr SaveState SaveDevices.
From stdpp Require Import base list numbers option decidable.

Open Scope Z_scope.

Notation refused := (Some None).

(** ** The stream written to *)

Class OStream (T : Type) := {
  put : T -> list Z -> T;
  good : T -> bool
}.

(** A stream still good after a write holds what it held and all of the write. *)
Class OStreamLaws (T : Type) `{OStream T} := {
  written : T -> list Z;
  put_good : forall s b, good (put s b) = true -> good s = true /\ written (put s b) = written s ++ b
}.

Module dart.

Definition be16 (p : list Z) (i : Z) : option Z :=
  a ← rd p i;
  b ← rd p (i + 1);
  Some (u16 ((a .<< 8) .| b)).

Definition candidate (raw : list Z) : option bool :=
  if len raw <? 4 then Some false else
  r0 ← rd raw 0;
  if 2 <? r0 then Some false else
  size ← be16 raw 2;
  Some ((size =? 400) || (size =? 800) || (size =? 1440)).

(** The loop over [j]: one word of the input, [n] times. *)
Fixpoint fillPairs (n : nat) (raw : list Z) (read : Z) (block : list Z) (i : Z) : option (list Z) :=
  match n with
  | O => Some block
  | S n =>
      a ← rd raw read;
      block ← store block i a;
      b ← rd raw (read + 1);
      block ← store block (i + 1) b;
      fillPairs n raw read block (i + 2)
  end.

(** The run-length chunk between [read] and [stop]. *)
Fixpoint rleLoop (fuel : nat) (raw : list Z) (stop read written : Z) (block : list Z)
    : option (option (list Z)) :=
  if read <? stop then
    match fuel with
    | O => None
    | S fuel =>
        if u64 (stop - read) <? 2 then refused else
        word ← be16 raw read;
        let read := read + 2 in
        let count := if word <? 0x8000 then word else word - 65536 in
        let amount := (if count <? 0 then - count else count) * 2 in
        if (count =? 0) || (u64 (len block - written) <? amount) then refused else
        if 0 <? count then
          if u64 (stop - read) <? amount then refused else
          bytes ← slice raw read amount;
          block ← copyTo block written bytes;
          rleLoop fuel raw stop (read + amount) (written + amount) block
        else
          if u64 (stop - read) <? 2 then refused else
          block ← fillPairs (Z.to_nat (amount / 2)) raw read block written;
          rleLoop fuel raw stop (read + 2) (written + amount) block
    end
  else if written <>? len block then refused else Some (Some block).

Definition decodeChunk (raw : list Z) (mode offset bytes : Z) (stored : bool)
    : option (option (list Z)) :=
  let block := replicate (Z.to_nat DartLzh.kChunk) 0 in
  if stored then
    src ← slice raw offset (len block);
    block ← copyTo block 0 src;
    Some (Some block)
  else if mode =? 1 then
    input ← slice raw offset bytes;
    DartLzh.expand input
  else rleLoop (S (length raw)) raw (offset + bytes) offset 0 block.

(** The loop over the table of lengths, [n] entries to go. *)
Fixpoint unpackLoop (n : nat) (raw : list Z) (kib i offset : Z) (data decodedTags : list Z)
    : option (option (Z * list Z * list Z)) :=
  match n with
  | O => Some (Some (offset, data, decodedTags))
  | S n =>
      length ← be16 raw (4 + i * 2);
      if kib / 20 <=? i then
        if length <>? 0 then refused else unpackLoop n raw kib (i + 1) offset data decodedTags
      else if length =? 0 then refused else
      mode ← rd raw 0;
      let stored := (length =? 0xffff) || ((mode =? 2) && (length =? 20960)) in
      if (mode =? 2) && negb stored then refused else
      let bytes := if stored then 20960 else if mode =? 0 then length * 2 else length in
      if u64 (len raw - offset) <? bytes then refused else
      r ← decodeChunk raw mode offset bytes stored;
      match r with
      | None => refused
      | Some block =>
          d ← slice block 0 20480;
          t ← slice block 20480 (len block - 20480);
          if (kib =? 1440) && existsb (fun b => b <>? 0) t then refused else
          unpackLoop n raw kib (i + 1) (offset + bytes) (data ++ d) (decodedTags ++ t)
      end
  end.

Definition entriesOf (kib : Z) : Z := if kib =? 1440 then 72 else 40.

(** The new contents of [raw] and [tags]; both keep their own on a refusal. *)
Definition unpack (raw : list Z) : option (option (list Z * list Z)) :=
  c ← candidate raw;
  if negb c then refused else
  kib ← be16 raw 2;
  media ← rd raw 1;
  if negb (((media =? 1) && ((kib =? 400) || (kib =? 800))) || ((media =? 16) && (kib =? 1440)))
  then refused else
  let prefix := 4 + entriesOf kib * 2 in
  if len raw <? prefix then refused else
  r ← unpackLoop (Z.to_nat (entriesOf kib)) raw kib 0 prefix [] [];
  match r with
  | None => refused
  | Some (offset, data, decodedTags) =>
      if offset <>? len raw then refused else
      Some (Some (data, if kib =? 1440 then [] else decodedTags))
  end.

Definition header (kib : Z) : list Z :=
  let h := replicate (Z.to_nat (4 + entriesOf kib * 2)) 0 in
  let h := wr h 1 (if kib =? 1440 then 16 else 1) in
  let h := wr (wr h 2 (u8 (kib .>> 8))) 3 (u8 kib) in
  foldl (fun h i => wr h i 0xff) h (seqZ 4 (kib / 20 * 2)).

Section Write.
Context {T : Type} `{OStream T}.

Fixpoint writeChunks (n : nat) (kib i : Z) (data tags : list Z) (out : T) : option T :=
  match n with
  | O => Some out
  | S n =>
      d ← slice data (i * 20480) 20480;
      t ← (if kib =? 1440 then Some (replicate 480 0) else slice tags (i * 480) 480);
      writeChunks n kib (i + 1) data tags (put (put out d) t)
  end.

Definition write (out : T) (data tags : list Z) : option (T * bool) :=
  let kib := len data / 1024 in
  if ((kib <>? 400) && (kib <>? 800) && (kib <>? 1440)) || (len data <>? kib * 1024) ||
     ((kib <>? 1440) && (len tags <>? len data / 512 * 12)) ||
     ((kib =? 1440) && (len tags <>? 0))
  then Some (out, false) else
  out ← writeChunks (Z.to_nat (kib / 20)) kib 0 data tags (put out (header kib));
  Some (out, good out).
End Write.
End dart.

Module dc42.

Definition be32 (p : list Z) (i : Z) : option Z :=
  a ← rd p i; b ← rd p (i + 1); c ← rd p (i + 2); d ← rd p (i + 3);
  Some (u32 (a .<< 24) .| u32 (b .<< 16) .| u32 (c .<< 8) .| d).

Definition put32 (p : list Z) (i v : Z) : option (list Z) :=
  p ← store p i (u8 (v .>> 24));
  p ← store p (i + 1) (u8 (v .>> 16));
  p ← store p (i + 2) (u8 (v .>> 8));
  store p (i + 3) (u8 v).

(** [n] words from [i]. *)
Fixpoint checksumLoop (n : nat) (data : list Z) (i sum : Z) : option Z :=
  match n with
  | O => Some sum
  | S n =>
      a ← rd data i;
      b ← rd data (i + 1);
      let sum := u32 (sum + (u32 (a .<< 8) .| b)) in
      checksumLoop n data (i + 2) ((sum .>> 1) .| u32 (sum .<< 31))
  end.

(** [checksum(data + off, size)]. *)
Definition checksum (data : list Z) (off size : Z) : option Z :=
  checksumLoop (Z.to_nat (size / 2)) data off 0.

Definition nonzeroTags (tags : list Z) : bool := existsb (fun b => b <>? 0) tags.

(** The answer, and the new [raw], [header] and [tags]. *)
Definition unpack (raw : list Z) : option (bool * list Z * list Z * list Z) :=
  if len raw <? 0x54 then Some (true, raw, [], []) else
  r52 ← rd raw 0x52;
  r53 ← rd raw 0x53;
  if (r52 <>? 1) || (r53 <>? 0) then Some (true, raw, [], []) else
  dataSize ← be32 raw 0x40;
  tagSize ← be32 raw 0x44;
  if (1474560 <? dataSize) || (len raw <? u64 (0x54 + dataSize + tagSize)) ||
     ((tagSize <>? 0) &&
      (((dataSize <>? 409600) && (dataSize <>? 819200)) || (tagSize <>? dataSize / 512 * 12)))
  then Some (false, raw, [], []) else
  header ← slice raw 0 0x54;
  tags ← slice raw (0x54 + dataSize) tagSize;
  data ← slice raw 0x54 dataSize;
  Some (true, data, header, tags).

Section Write.
Context {T : Type} `{OStream T}.

(** The stream, the header, which the code updates in place, and the answer. *)
Definition write (out : T) (header data tags : list Z) : option (T * list Z * bool) :=
  if len header <>? 0x54 then Some (out, header, false) else
  had ← be32 header 0x44;
  let tagSize := if (had <>? 0) || nonzeroTags tags then len tags else 0 in
  header ← put32 header 0x40 (u32 (len data));
  header ← put32 header 0x44 (u32 tagSize);
  sum ← checksum data 0 (len data);
  header ← put32 header 0x48 sum;
  sum ← (if 12 <? tagSize then checksum tags 12 (tagSize - 12) else Some 0);
  header ← put32 header 0x4c sum;
  let out := put (put out header) data in
  out ← (if tagSize <>? 0 then t ← slice tags 0 tagSize; Some (put out t) else Some out);
  Some (out, header, good out).
End Write.
End dc42.

(** [src/MoofImage.h]: a medium kept as the flux transitions of its tracks. *)

Module moof.

Definition kMaxBytes : Z := 33554432.

Definition le32 (p : list Z) (i : Z) : option Z :=
  a ← rd p i; b ← rd p (i + 1); c ← rd p (i + 2); d ← rd p (i + 3);
  Some (a .| u32 (b .<< 8) .| u32 (c .<< 16) .| u32 (d .<< 24)).

Definition le16 (p : list Z) (i : Z) : option Z :=
  a ← rd p i; b ← rd p (i + 1); Some (u16 (a .| (b .<< 8))).

Definition crc32Bit (value : Z) : Z := (value .>> 1) .^ (0xedb88320 .& u32 (0 - (value .& 1))).
Definition crc (bytes : list Z) : Z :=
  u32 (Z.lnot (foldl (fun value byte => Nat.iter 8 crc32Bit (value .^ byte)) 0xffffffff bytes)).

(** The characters of the names of the format. *)
Definition kMoof : list Z := [77; 79; 79; 70].
Definition kSignature : list Z := kMoof ++ [0xff; 0x0a; 0x0d; 0x0a].
Definition kInfo : list Z := [73; 78; 70; 79].
Definition kTmap : list Z := [84; 77; 65; 80].
Definition kTrks : list Z := [84; 82; 75; 83].
Definition kFlux : list Z := [70; 76; 85; 88].

Definition candidate (bytes : list Z) : bool := (4 <=? len bytes) && (take 4 bytes == kMoof).

Definition ticks (units : Z) : Z := u64 (units * 20054016) / 10000.

Record Image := mkImage { medium : TrackMedium; type : Z; protectedDisk : bool }.

(** The spans and offsets the walk over the chunks finds. *)
Record Chunks := mkChunks {
  info : list Z; map_ : list Z; descriptors : list Z; flux : list Z;
  dataStart : Z; dataEnd : Z; fluxOffset : Z
}.

Definition assign (target chunk : list Z) (minimum : Z) : option (list Z) :=
  if (target != []) || (len chunk <? minimum) then None else Some chunk.

(** One chunk at [offset]; [None] is the refusal. *)
Definition takeChunk (id : list Z) (offset length : Z) (chunk : list Z) (c : Chunks) : option Chunks :=
  if id == kInfo then
    if (offset <>? 12) || (length <>? 60) then None else
    t ← assign (info c) chunk 60;
    Some (mkChunks t (map_ c) (descriptors c) (flux c) (dataStart c) (dataEnd c) (fluxOffset c))
  else if id == kTmap then
    if length <>? 160 then None else
    t ← assign (map_ c) chunk 160;
    Some (mkChunks (info c) t (descriptors c) (flux c) (dataStart c) (dataEnd c) (fluxOffset c))
  else if id == kTrks then
    t ← assign (descriptors c) chunk 1280;
    Some (mkChunks (info c) (map_ c) t (flux c) (offset + 8 + 1280) (offset + 8 + length) (fluxOffset c))
  else if id == kFlux then
    if length <>? 160 then None else
    t ← assign (flux c) chunk 160;
    Some (mkChunks (info c) (map_ c) (descriptors c) t (dataStart c) (dataEnd c) offset)
  else Some c.

Fixpoint chunkLoop (fuel : nat) (bytes : list Z) (offset : Z) (c : Chunks) : option (option Chunks) :=
  if offset <? len bytes then
    match fuel with
    | O => None
    | S fuel =>
        if u64 (len bytes - offset) <? 8 then refused else
        length ← le32 bytes (offset + 4);
        if u64 (len bytes - offset - 8) <? length then refused else
        chunk ← slice bytes (offset + 8) length;
        id ← slice bytes offset 4;
        match takeChunk id offset length chunk c with
        | None => refused
        | Some c => chunkLoop fuel bytes (offset + 8 + length) c
        end
    end
  else Some (Some c).

(** The loop over the deltas of a flux track, [n] to go. *)
Fixpoint fluxLoop (n : nat) (bytes : list Z) (at_ elapsed interval : Z) (edges : list Z)
    : option (option (Z * Z * list Z)) :=
  match n with
  | O => Some (Some (elapsed, interval, edges))
  | S n =>
      delta ← rd bytes at_;
      let interval := u64 (interval + delta) in
      if delta =? 255 then fluxLoop n bytes (at_ + 1) elapsed interval edges else
      if interval =? 0 then refused else
      let elapsed := u64 (elapsed + interval) in
      if 8000000 <? elapsed then refused else
      fluxLoop n bytes (at_ + 1) elapsed 0 (edges ++ [ticks elapsed])
  end.

(** The last transition becomes the origin: [edges.back() = 0] and
    [std::rotate]. *)
Definition wrapLast (edges : list Z) : list Z :=
  let edges := wr edges (len edges - 1) 0 in
  drop (length edges - 1) edges ++ take (length edges - 1) edges.

(** The loop over the bits of a bitstream track. *)
Fixpoint bitLoop (n : nat) (bytes : list Z) (begin bit clock : Z) (edges : list Z) : option (list Z) :=
  match n with
  | O => Some edges
  | S n =>
      b ← rd bytes (begin + bit / 8);
      bitLoop n bytes begin (bit + 1) clock
        (if b .& (0x80 .>> (bit .& 7)) <>? 0 then edges ++ [ticks (u64 (bit * clock))] else edges)
  end.

(** The track of one descriptor. *)
Definition decodeTrack (bytes : list Z) (c : Chunks) (clock entry : Z) (isFlux : bool) : option (option Track) :=
  begin ← le16 (descriptors c) (entry * 8);
  size ← le16 (descriptors c) (entry * 8 + 2);
  count ← le32 (descriptors c) (entry * 8 + 4);
  let begin := begin * 512 in
  let size := size * 512 in
  let required := if isFlux then count else (count + 7) / 8 in
  if (count =? 0) || (size =? 0) || (size <? required) || (begin <? dataStart c) ||
     (dataEnd c <? begin) || (u64 (dataEnd c - begin) <? size) ||
     ((if isFlux then 500000 else 8000000) <? count) then refused else
  if isFlux then
    r ← fluxLoop (Z.to_nat count) bytes begin 0 0 [];
    match r with
    | None => refused
    | Some (elapsed, interval, edges) =>
        if (interval <>? 0) || (elapsed =? 0) || (edges == []) then refused else
        Some (Some (mkTrack true (ticks elapsed) (ticks clock) (wrapLast edges)))
    end
  else if 8000000 <? u64 (count * clock) then refused else
    edges ← bitLoop (Z.to_nat count) bytes begin 0 clock [];
    Some (Some (mkTrack true (ticks (u64 (count * clock))) (ticks clock) edges)).

(** The loop over the physical tracks, [n] to go; [tracks] are those decoded. *)
Fixpoint trackLoop (n : nat) (bytes : list Z) (c : Chunks) (kind clock : Z) (hasFlux : bool)
    (physical : Z) (tracks : list Track) (totalEdges : Z) : option (option (list Track)) :=
  match n with
  | O => Some (Some tracks)
  | S n =>
      f ← (if hasFlux then rd (flux c) physical else Some 255);
      let isFlux := hasFlux && (f <>? 255) in
      entry ← (if isFlux then rd (flux c) physical else rd (map_ c) physical);
      if (kind =? 1) && (physical .& 1 <>? 0) && (entry <>? 255) then refused else
      if entry =? 255 then trackLoop n bytes c kind clock hasFlux (physical + 1) tracks totalEdges else
      if 160 <=? entry then refused else
      r ← decodeTrack bytes c clock entry isFlux;
      match r with
      | None => refused
      | Some track =>
          tracks ← store tracks physical track;
          let totalEdges := totalEdges + len (edges track) in
          if 20000000 <? totalEdges then refused else
          trackLoop n bytes c kind clock hasFlux (physical + 1) tracks totalEdges
      end
  end.

Definition unpack (bytes : list Z) : option (option Image) :=
  if (len bytes <? 80) || (kMaxBytes <? len bytes) then refused else
  magic ← slice bytes 0 8;
  if magic != kSignature then refused else
  checksum ← le32 bytes 8;
  body ← slice bytes 12 (len bytes - 12);
  if (checksum <>? 0) && (checksum <>? crc body) then refused else
  r ← chunkLoop (length bytes) bytes 12 (mkChunks [] [] [] [] 0 0 0);
  match r with
  | None => refused
  | Some c =>
      if (info c == []) || (map_ c == []) || (descriptors c == []) then refused else
      i0 ← rd (info c) 0; i1 ← rd (info c) 1; i2 ← rd (info c) 2;
      i3 ← rd (info c) 3; i4 ← rd (info c) 4;
      if (i0 <? 1) || (i1 <? 1) || (3 <? i1) || (1 <? i2) || (1 <? i3) || (i4 =? 0) then refused else
      fluxBlock ← le16 (info c) 40;
      largest ← le16 (info c) 42;
      let hasFlux := (fluxBlock <>? 0) && (largest <>? 0) in
      if hasFlux && ((flux c == []) || (fluxBlock * 512 <>? fluxOffset c)) then refused else
      if negb hasFlux && ((flux c != []) || (fluxBlock <>? 0) || (largest <>? 0)) then refused else
      r ← trackLoop 160 bytes c i1 i4 hasFlux 0 (tracks newMedium) 0;
      match r with
      | None => refused
      | Some tracks => Some (Some (mkImage (mkMedium true tracks) i1 (i2 <>? 0)))
      end
  end.

Definition put32 (bytes : list Z) (offset value : Z) : option (list Z) :=
  bytes ← store bytes offset (u8 value);
  bytes ← store bytes (offset + 1) (u8 (value .>> 8));
  bytes ← store bytes (offset + 2) (u8 (value .>> 16));
  store bytes (offset + 3) (u8 (value .>> 24)).

Definition put16 (bytes : list Z) (offset value : Z) : option (list Z) :=
  bytes ← store bytes offset (u8 value);
  store bytes (offset + 1) (u8 (value .>> 8)).

(** [n] bytes from [off] set to [v]: [std::fill]. *)
Definition fillBytes (bytes : list Z) (off n v : Z) : option (list Z) := copyTo bytes off (replicate (Z.to_nat n) v).

(** "POM68K native tracks". *)
Definition creator : list Z :=
  [80; 79; 77; 54; 56; 75; 32; 110; 97; 116; 105; 118; 101; 32; 116; 114; 97; 99; 107; 115].

(** A new chunk, zeroed, at the end; the offset of its contents. *)
Definition addChunk (bytes id : list Z) (size : Z) : option (list Z * Z) :=
  let begin := len bytes in
  bytes ← copyTo (bytes ++ replicate (Z.to_nat (8 + size)) 0) begin id;
  bytes ← put32 bytes (begin + 4) size;
  Some (bytes, begin + 8).

(** Undefined where the signed product would overflow. *)
Definition units (value : Z) : option Z :=
  let x := value * 10000 + 10027008 in
  if (-9223372036854775808 <=? value * 10000) && (x <? 9223372036854775808)
  then Some (u64 (Z.quot x 20054016)) else None.

Fixpoint edgeLoop (edges : list Z) (count start : Z) (bytes : list Z) : option (list Z) :=
  match edges with
  | [] => Some bytes
  | edge :: edges =>
      u ← units edge;
      let bit := u mod count in
      b ← rd bytes (start + bit / 8);
      bytes ← store bytes (start + bit / 8) (u8 (b .| (0x80 .>> (bit .& 7))));
      edgeLoop edges count start bytes
  end.

(** One present track: the file so far and the largest track, or the refusal. *)
Definition writeTrack (track : Track) (map trks i : Z) (bytes : list Z) (largest : Z)
    : option (option (list Z * Z)) :=
  if (revolution track <=? 0) || (ticks 8000000 <? revolution track) then refused else
  count ← units (revolution track);
  let blocks := (count + 4095) / 4096 in
  if (count =? 0) || (kMaxBytes <? u64 (len bytes + blocks * 512)) then refused else
  let start := len bytes in
  let bytes := bytes ++ replicate (Z.to_nat (blocks * 512)) 0 in
  bytes ← store bytes (map + i) (u8 i);
  bytes ← put16 bytes (trks + i * 8) (u16 (start / 512));
  bytes ← put16 bytes (trks + i * 8 + 2) (u16 blocks);
  bytes ← put32 bytes (trks + i * 8 + 4) (u32 count);
  bytes ← edgeLoop (edges track) count start bytes;
  Some (Some (bytes, Z.max largest (u16 blocks))).

Fixpoint writeTracks (tracks : list Track) (map trks i : Z) (bytes : list Z) (largest : Z)
    : option (option (list Z * Z)) :=
  match tracks with
  | [] => Some (Some (bytes, largest))
  | track :: tracks =>
      if negb (present track) then writeTracks tracks map trks (i + 1) bytes largest else
      r ← writeTrack track map trks i bytes largest;
      match r with
      | None => refused
      | Some (bytes, largest) => writeTracks tracks map trks (i + 1) bytes largest
      end
  end.

(** The chunks of the original that are kept as they are. *)
Fixpoint keepLoop (fuel : nat) (original : list Z) (offset : Z) (bytes : list Z) : option (option (list Z)) :=
  if offset <? len original then
    match fuel with
    | O => None
    | S fuel =>
        if u64 (len original - offset) <? 8 then refused else
        size ← le32 original (offset + 4);
        let size := size + 8 in
        if u64 (len original - offset) <? size then refused else
        id ← slice original offset 4;
        if (id != kTmap) && (id != kTrks) && (id != kFlux) then
          if kMaxBytes <? u64 (len bytes + size) then refused else
          part ← slice original offset size;
          keepLoop fuel original (offset + size) (bytes ++ part)
        else keepLoop fuel original (offset + size) bytes
    end
  else Some (Some bytes).

(** The file for a medium; [None] inside is the refusal. *)
Definition encodeFile (m : TrackMedium) (original : list Z) (protect : bool) : option (option (list Z)) :=
  if negb (native m) || (len original <? 80) then refused else
  bytes ← slice original 0 80;
  bytes ← store bytes 22 (if protect then 1 else 0);
  bytes ← store bytes 24 1;
  bytes ← fillBytes bytes 25 32 32;
  bytes ← copyTo bytes 25 creator;
  bytes ← put16 bytes 60 0;
  bytes ← put16 bytes 62 0;
  r ← addChunk bytes kTmap 160;
  let '(bytes, map) := r : list Z * Z in
  bytes ← fillBytes bytes map (len bytes - map) 255;
  r ← addChunk bytes kTrks 1280;
  let '(bytes, trks) := r : list Z * Z in
  r ← writeTracks (tracks m) map trks 0 bytes 0;
  match r with
  | None => refused
  | Some (bytes, largest) =>
      bytes ← put32 bytes (trks - 4) (u32 (len bytes - trks));
      bytes ← put16 bytes 58 largest;
      r ← keepLoop (length original) original 80 bytes;
      match r with
      | None => refused
      | Some bytes =>
          body ← slice bytes 12 (len bytes - 12);
          bytes ← put32 bytes 8 (crc body);
          Some (Some bytes)
      end
  end.

Definition write {T} `{OStream T} (out : T) (m : TrackMedium) (original : list Z) (protect : bool)
    : option (T * bool) :=
  r ← encodeFile m original protect;
  match r with
  | None => Some (out, false)
  | Some bytes => let out := put out bytes in Some (out, good out)
  end.
End moof.

Module FloppyFileImage.

Inductive Format := Raw | Dc42 | Dart.
#[export] Instance Format_eq_dec : EqDecision Format.
Proof. solve_decision. Defined.

Record FloppyFileImage := mkFile { format_ : Format; header_ : list Z }.

Definition clear : FloppyFileImage := mkFile Raw [].
Definition wrapped (f : FloppyFileImage) : bool := format_ f != Raw.

(** [std::tolower] of the "C" locale. *)
Definition tolower (c : Z) : Z := if (65 <=? c) && (c <=? 90) then c + 32 else c.

Definition suffix (path : list Z) : list Z :=
  map tolower (if 5 <=? len path then drop (length path - 5) path else path).

(** The characters of ".dart". *)
Definition dotDart : list Z := [46; 100; 97; 114; 116].

Definition unpack (raw tags path : list Z)
    : option (bool * FloppyFileImage * list Z * list Z) :=
  isDart ← (if suffix path == dotDart then Some true else
            if (len raw <>? 409600) && (len raw <>? 819200) && (len raw <>? 1474560)
            then dart.candidate raw else Some false);
  if isDart : bool then
    r ← dart.unpack raw;
    match r with
    | None => Some (false, clear, raw, tags)
    | Some (data, tags) => Some (true, mkFile Dart [], data, tags)
    end
  else
    r ← dc42.unpack raw;
    let '(ok, raw, header, tags) := r in
    Some (ok, mkFile (if ok && (header != []) then Dc42 else Raw) header, raw, tags).

Section Write.
Context {T : Type} `{OStream T}.

Definition write (f : FloppyFileImage) (out : T) (data tags : list Z)
    : option (T * FloppyFileImage * bool) :=
  match format_ f with
  | Dart => r ← dart.write out data tags; let (out, ok) := r : T * bool in Some (out, f, ok)
  | Dc42 =>
      r ← dc42.write out (header_ f) data tags;
      let '(out, header, ok) := r in
      Some (out, mkFile Dc42 header, ok)
  | Raw => Some (out, f, false)
  end.
End Write.

(** [visit] of a loading archive: the format's byte and the header it read.
    [None] inside: [ar.fail()]. *)
Definition visitLoad (format : Z) (header : list Z) : option (option FloppyFileImage) :=
  if (format =? 0) || (format =? 2) then
    Some (if header != [] then None else Some (mkFile (if format =? 0 then Raw else Dart) header))
  else if (format <>? 1) || (len header <>? 84) then refused else
  a ← rd header 82;
  if a <>? 1 then refused else
  b ← rd header 83;
  if b <>? 0 then refused else Some (Some (mkFile Dc42 header)).

(** [visit] of a saving archive. *)
Definition visitSave (f : FloppyFileImage) : Z * list Z :=
  (match format_ f with Raw => 0 | Dc42 => 1 | Dart => 2 end, header_ f).
End FloppyFileImage.

(** ** The drive: insertion and flush of a disk that comes from a container *)

Module SonyMedia.
Import FloppyFileImage.

Definition kSize800K : Z := 819200.
Definition kSize400K : Z := 409600.
Definition kSize1440K : Z := 1474560.

(** The drive of [Gcr], what it remembers of the host file, and the medium and
    the file of a disk kept as flux. *)
Record Slot := mkSlot {
  drive : SonyDrive; path_ : list Z; fileImage_ : FloppyFileImage;
  medium_ : TrackMedium; nativeFile_ : list Z
}.

(** The fields of [Slot] that [insertImage] sets; [None] is the refusal. *)
Definition insertImage (data : list Z) (s : Slot) : option Slot :=
  if (len data <>? kSize800K) && (len data <>? kSize400K) && (len data <>? kSize1440K) then None else
  let hd := len data =? kSize1440K in
  Some (mkSlot
    (mkDrive 0 false (len data <>? kSize400K) hd (writeProtected_ (drive s)) data
       (replicate (Z.to_nat (if hd then 0 else len data / 512 * 12)) 0) false)
    [] clear (SaveDevices.clear (medium_ s)) []).

(** The characters of ".moof". *)
Definition dotMoof : list Z := [46; 109; 111; 111; 102].

Definition takenForMoof (raw path : list Z) : bool := moof.candidate raw || (suffix path == dotMoof).

(** The drive after a MOOF file has been read. *)
Definition insertNative (raw backing : list Z) (imported : moof.Image) (s : Slot) : Slot :=
  mkSlot (mkDrive 0 false (moof.type imported <>? 1) (moof.type imported =? 3)
            (moof.protectedDisk imported) [] [] false)
         backing clear (moof.medium imported) raw.

(** [insert] from the point where the file has been opened: [raw] holds its
    bytes, [path] is the name given and [backing] the file it stands for.  The
    answer and the drive. *)
Definition insertFile (raw path backing : list Z) (s : Slot) : option (bool * Slot) :=
  if moof.kMaxBytes <? len raw then Some (false, s) else
  if takenForMoof raw path then
    r ← moof.unpack raw;
    match r with
    | None => Some (false, s)
    | Some imported => Some (true, insertNative raw backing imported s)
    end
  else
  r ← FloppyFileImage.unpack raw [] backing;
  let '(ok, fileImage, raw, tags) := r in
  if negb ok then Some (false, s) else
  match insertImage raw s with
  | None => Some (false, s)
  | Some s =>
      let d := if tags != [] then set_tags tags (drive s) else drive s in
      Some (true, mkSlot (set_dirty false d) backing fileImage (medium_ s) (nativeFile_ s))
  end.

(** The write of [flushToFile] to its temporary file; the flag tells whether
    the file may replace the old one. *)
Definition flushMedium {T} `{OStream T} (out : T) (s : Slot) : option (T * Slot * bool) :=
  if native (medium_ s) then
    r ← moof.write out (medium_ s) (nativeFile_ s) (writeProtected_ (drive s));
    let '(out, ok) := r : T * bool in
    Some (out, s, ok && good out)
  else if wrapped (fileImage_ s) then
    r ← FloppyFileImage.write (fileImage_ s) out (image_ (drive s)) (tags_ (drive s));
    let '(out, f, ok) := r in
    Some (out, mkSlot (drive s) (path_ s) f (medium_ s) (nativeFile_ s), ok && good out)
  else
    let out := put out (image_ (drive s)) in
    Some (out, s, good out).
End SonyMedia.
