(* ===== verification/FloppyFacts.v ===== *)
(** * FloppyFacts: the floppy containers

    Every length and offset of a container is checked before it is used; the
    run-length form is decoded to what it stands for; a disk written back to
    its container is read again as the same disk.  For Disk Copy 4.2: the fields
    of the header after it is written, that the file is read back as the disk it
    was written from, and that what a drive remembers of the file is always what
    a saved state accepts. *)

From S2P Require Import Prelude Vectors Dart DartTreeFacts DartFacts SaveState SaveDevices SaveDevicesFacts FloppyImage.
From stdpp Require Import base list numbers option decidable sorting.

Open Scope Z_scope.

(** ** DART: every access is inside its vector *)

Module DartSafe.
Import dart.

Lemma be16_ok p i : Forall byte p -> 0 <= i -> i + 1 < len p ->
  exists w, be16 p i = Some w /\ 0 <= w < 65536.
Proof.
  intros HP Hi Hl. unfold be16.
  destruct (rd_Some p i) as [a ->]; [unfold len in *; lia|].
  destruct (rd_Some p (i + 1)) as [b ->]; [unfold len in *; lia|].
  bnd. eexists. split; [done|]. apply u16_range.
Qed.

Lemma fillPairs_ok n : forall raw read block i, Forall byte raw -> Forall byte block ->
  0 <= read -> read + 1 < len raw -> 0 <= i -> i + 2 * Z.of_nat n <= len block ->
  exists b, fillPairs n raw read block i = Some b /\ len b = len block /\ Forall byte b.
Proof.
  induction n as [|n IH]; intros raw read block i Hr Hb H0 Hl Hi Hn; cbn [fillPairs]; [by eauto|].
  destruct (rd_Some raw read) as [a Ea]; [unfold len in *; lia|].
  destruct (rd_Some raw (read + 1)) as [b Eb]; [unfold len in *; lia|].
  rewrite Ea. bnd. destruct (store_Forall byte block i a) as (b1 & -> & L1 & F1);
    [lia|done|exact (rd_Forall byte _ _ _ Hr Ea)|].
  rewrite Eb. bnd. destruct (store_Forall byte b1 (i + 1) b) as (b2 & -> & L2 & F2);
    [lia|done|exact (rd_Forall byte _ _ _ Hr Eb)|].
  bnd. destruct (IH raw read b2 (i + 2)) as (b3 & -> & L3 & F3); try done; try lia.
  exists b3. split; [done|]. split; [lia|done].
Qed.

Lemma rleLoop_ok fuel : forall raw stop read written block, Forall byte raw -> Forall byte block ->
  small raw -> len block = 20960 ->
  0 <= read <= stop -> stop <= len raw -> 0 <= written <= len block -> stop - read < Z.of_nat fuel ->
  exists r, rleLoop fuel raw stop read written block = Some r /\
    forall b, r = Some b -> len b = 20960 /\ Forall byte b.
Proof.
  induction fuel as [|fuel IH]; intros raw stop read written block Hr Hb Hs Hk Hd He Hw Hf; [lia|].
  cbn [rleLoop]. destruct (Z.ltb_spec read stop) as [Hlt|].
  2: { destruct (Z.eqb_spec written (len block)); cbn; eexists; (split; [done|]); [|done].
       by intros b [= <-]. }
  destruct (Z.ltb_spec (u64 (stop - read)) 2) as [|H2]; [by exists None|].
  rewrite u64_small in H2 by lia.
  destruct (be16_ok raw read) as (w & -> & Hwd); [done|lia|lia|]. bnd.
  set (count := if w <? 0x8000 then w else w - 65536).
  assert (Hc : -32768 <= count < 32768) by (unfold count; destruct (Z.ltb_spec w 0x8000); lia).
  clearbody count. set (amount := (if count <? 0 then - count else count) * 2).
  assert (Ha : 0 <= amount <= 65536 /\ amount = 2 * (amount / 2)).
  { unfold amount. split; [destruct (Z.ltb_spec count 0); lia|]. rewrite Z.div_mul; lia. }
  clearbody amount. destruct ((count =? 0) || _) eqn:Eg; [by exists None|]. unbool.
  match goal with H : amount <= u64 _ |- _ => rewrite u64_small in H by lia end.
  destruct (Z.ltb_spec 0 count).
  - destruct (Z.ltb_spec (u64 (stop - (read + 2))) amount) as [|Hm]; [by exists None|].
    rewrite u64_small in Hm by lia.
    destruct (slice_ok byte raw (read + 2) amount) as (bytes & -> & Lb & Fb); [lia..|done|]. bnd.
    destruct (copyTo_ok byte block bytes written) as (b1 & -> & L1 & F1); [lia|lia|done|done|]. bnd.
    apply IH; try done; lia.
  - destruct (Z.ltb_spec (u64 (stop - (read + 2))) 2) as [|Hm]; [by exists None|].
    rewrite u64_small in Hm by lia.
    destruct (fillPairs_ok (Z.to_nat (amount / 2)) raw (read + 2) block written) as (b1 & -> & L1 & F1);
      [done|done|lia..|]. bnd.
    apply IH; try done; lia.
Qed.

Lemma block0 : len (replicate (Z.to_nat DartLzh.kChunk) 0) = 20960 /\
  Forall byte (replicate (Z.to_nat DartLzh.kChunk) 0).
Proof. split; [by rewrite len_replicate|by apply Forall_replicate]. Qed.

Lemma decodeChunk_ok raw mode offset bytes (stored : bool) : Forall byte raw -> small raw ->
  0 <= offset -> 0 <= bytes -> offset + bytes <= len raw -> (stored = true -> bytes = 20960) ->
  exists r, decodeChunk raw mode offset bytes stored = Some r /\
    forall b, r = Some b -> len b = 20960 /\ Forall byte b.
Proof.
  intros HF Hs Ho Hb Hl Hst. unfold decodeChunk. destruct block0 as [L0 F0].
  generalize dependent (replicate (Z.to_nat DartLzh.kChunk) 0). intros blk L0 F0.
  destruct stored.
  - rewrite L0. destruct (slice_ok byte raw offset 20960) as (src & -> & L1 & F1); [lia|lia|lia|done|]. bnd.
    destruct (copyTo_ok byte blk src 0) as (b1 & -> & L2 & F2); [lia|lia|done|done|]. bnd.
    eexists. split; [done|]. intros b [= <-]. split; [lia|done].
  - destruct (mode =? 1).
    + destruct (slice_ok byte raw offset bytes) as (src & -> & L1 & F1); [lia|lia|lia|done|]. bnd.
      apply expand_ok.
    + apply rleLoop_ok; try done; unfold len in *; lia.
Qed.

(** The sizes the loop has reached: offsets inside the file, whole chunks. *)
Lemma unpackLoop_ok n : forall raw kib i offset data tags, Forall byte raw -> small raw ->
  0 <= i -> 0 <= offset <= len raw -> 4 + (i + Z.of_nat n) * 2 <= len raw ->
  0 <= kib / 20 <= i + Z.of_nat n ->
  Forall byte data -> Forall byte tags ->
  len data = 20480 * Z.min i (kib / 20) -> len tags = 480 * Z.min i (kib / 20) ->
  exists r, unpackLoop n raw kib i offset data tags = Some r /\
    forall o d t, r = Some (o, d, t) ->
      len d = 20480 * (kib / 20) /\ len t = 480 * (kib / 20) /\ Forall byte d /\ Forall byte t.
Proof.
  induction n as [|n IH]; intros raw kib i offset data tags HF Hs Hi Ho Hn Hk Fd Ft Ld Lt; cbn [unpackLoop].
  { eexists. split; [done|]. intros o d t [= <- <- <-]. rewrite Z.min_r in * by lia. done. }
  destruct (be16_ok raw (4 + i * 2)) as (w & -> & Hw); [done|lia|lia|]. bnd.
  destruct (Z.leb_spec (kib / 20) i) as [Hc|Hc].
  { destruct (w =? 0); cbn; [|by exists None].
    rewrite Z.min_r in * by lia. apply IH; try done; rewrite ?Z.min_r by lia; try lia. }
  destruct (Z.eqb_spec w 0); [by exists None|].
  destruct (rd_Some raw 0) as [mode ->]; [unfold len in *; lia|]. bnd.
  set (stored := (w =? 0xffff) || _). destruct ((mode =? 2) && negb stored); [by exists None|].
  set (bytes := if stored then 20960 else if mode =? 0 then w * 2 else w).
  assert (Hby : 0 <= bytes <= 131072 /\ (stored = true -> bytes = 20960)).
  { unfold bytes. destruct stored; [lia|]. split; [destruct (mode =? 0); lia|done]. }
  clearbody bytes stored. destruct (Z.ltb_spec (u64 (len raw - offset)) bytes) as [|Hr]; [by exists None|].
  rewrite u64_small in Hr by lia.
  destruct (decodeChunk_ok raw mode offset bytes stored) as (r & -> & Hblk); [done|done|lia..|tauto|]. bnd.
  destruct r as [block|]; [|by exists None]. destruct (Hblk block eq_refl) as [Lb Fb].
  destruct (slice_ok byte block 0 20480) as (d & -> & L1 & F1); [lia..|done|].
  destruct (slice_ok byte block 20480 (len block - 20480)) as (t & -> & L2 & F2); [lia..|done|]. bnd.
  destruct ((kib =? 1440) && _); [by exists None|].
  rewrite Z.min_l in * by lia.
  apply IH; try done; rewrite ?len_app, ?Forall_app, ?Z.min_l by lia; try done; lia.
Qed.

Definition Mac (kib : Z) : Prop := kib = 400 \/ kib = 800 \/ kib = 1440.

Lemma candidate_ok raw : Forall byte raw -> exists c, candidate raw = Some c /\
  (c = true -> 4 <= len raw /\ exists kib, be16 raw 2 = Some kib /\ Mac kib).
Proof.
  intros HF. unfold candidate. destruct (Z.ltb_spec (len raw) 4); [by exists false|].
  destruct (rd_Some raw 0) as [r0 ->]; [unfold len in *; lia|]. bnd.
  destruct (2 <? r0); [by exists false|].
  destruct (be16_ok raw 2) as (k & -> & _); [done|lia|lia|]. bnd. eexists. split; [done|].
  intros E. split; [done|]. exists k. split; [done|]. unfold Mac.
  rewrite !orb_true_iff, !Z.eqb_eq in E. tauto.
Qed.

Lemma unpack_ok raw : Forall byte raw -> small raw ->
  exists r, unpack raw = Some r /\
    forall data tags, r = Some (data, tags) -> Forall byte data /\ Forall byte tags /\
      exists kib, be16 raw 2 = Some kib /\ Mac kib /\ len data = kib * 1024 /\
        len tags = if kib =? 1440 then 0 else len data / 512 * 12.
Proof.
  intros HF Hs. unfold unpack. destruct (candidate_ok raw HF) as (c & -> & Hc). bnd.
  destruct c; cbn [negb]; [|by exists None].
  destruct Hc as (H4 & kib & Ek & HM); [done|]. rewrite Ek. bnd.
  destruct (rd_Some raw 1) as [media ->]; [unfold len in *; lia|]. bnd.
  destruct (negb _); [by exists None|].
  destruct (Z.ltb_spec (len raw) (4 + entriesOf kib * 2)); [by exists None|].
  assert (He : 40 <= entriesOf kib <= 72 /\ 0 <= kib / 20 <= entriesOf kib)
    by (destruct HM as [-> | [-> | ->]]; split; vm_compute; split; discriminate).
  destruct (unpackLoop_ok (Z.to_nat (entriesOf kib)) raw kib 0 (4 + entriesOf kib * 2) [] [])
    as (r & -> & Hr); try done; try lia; try (rewrite Z.min_l by lia; done).
  bnd. destruct r as [[[o d] t]|]; [|by exists None].
  destruct (Hr o d t eq_refl) as (Ld & Lt & Fd & Ft).
  destruct (negb _); [by exists None|]. eexists. split; [done|]. intros data tags [= <- <-].
  split; [done|]. split; [by destruct (kib =? 1440)|]. exists kib. split; [done|]. split; [done|].
  destruct HM as [-> | [-> | ->]]; (split; [rewrite Ld; reflexivity|]); cbn [Z.eqb Pos.eqb]; [..|done];
    rewrite Ld, Lt; reflexivity.
Qed.
End DartSafe.

(** ** DART: what is written is read again *)

Module DartTrip.
Import dart.

(** The tags of chunk [i] as they are in the file. *)
Definition chunkTags (kib i : Z) (tags : list Z) : list Z :=
  if kib =? 1440 then replicate 480 0 else sl tags (i * 480) 480.

Fixpoint body (n : nat) (kib i : Z) (data tags : list Z) : list Z :=
  match n with
  | O => []
  | S n => (sl data (i * 20480) 20480 ++ chunkTags kib i tags) ++ body n kib (i + 1) data tags
  end.

(** A disk of [kib] kilobytes: its data, and its tags unless it is an MFM one. *)
Record Disk (kib : Z) (data tags : list Z) : Prop := {
  dk_kib : DartSafe.Mac kib;
  dk_data : len data = kib * 1024;
  dk_tags : len tags = if kib =? 1440 then 0 else kib / 20 * 480
}.

Lemma mac_chunks kib : DartSafe.Mac kib -> kib * 1024 = 20480 * (kib / 20) /\ 20 <= kib / 20 <= 72 /\
  kib / 20 <= entriesOf kib.
Proof. intros [-> | [-> | ->]]; (split; [reflexivity|]; split; [vm_compute; split; discriminate|vm_compute; discriminate]). Qed.

Section Disk.
Context (kib : Z) (data tags : list Z) (D : Disk kib data tags).

Lemma data_slice i : 0 <= i < kib / 20 ->
  slice data (i * 20480) 20480 = Some (sl data (i * 20480) 20480) /\ len (sl data (i * 20480) 20480) = 20480.
Proof.
  intros Hi. destruct D as [M L _]. destruct (mac_chunks kib M) as (E & _ & _). apply slice_sl; lia.
Qed.

Lemma tags_slice i : 0 <= i < kib / 20 ->
  (if kib =? 1440 then Some (replicate 480 0) else slice tags (i * 480) 480) = Some (chunkTags kib i tags) /\
  len (chunkTags kib i tags) = 480.
Proof.
  intros Hi. destruct D as [M _ L]. unfold chunkTags. destruct (kib =? 1440); [done|].
  apply slice_sl; lia.
Qed.

Lemma writeChunks_ok {T} `{OStreamLaws T} n : forall i (out : T), 0 <= i -> i + Z.of_nat n <= kib / 20 ->
  exists out', writeChunks n kib i data tags out = Some out' /\
    (good out' = true -> good out = true /\ written out' = written out ++ body n kib i data tags).
Proof.
  induction n as [|n IH]; intros i out Hi Hn; cbn [writeChunks body].
  { exists out. rewrite app_nil_r. done. }
  destruct (data_slice i) as [-> _]; [lia|]. destruct (tags_slice i) as [-> _]; [lia|]. bnd.
  destruct (IH (i + 1) (put (put out (sl data (i * 20480) 20480)) (chunkTags kib i tags)))
    as (out' & -> & Hg); [lia|lia|].
  exists out'. split; [done|]. intros G. apply Hg in G as [G E].
  apply put_good in G as [G E2]. apply put_good in G as [G E3].
  split; [done|]. by rewrite E, E2, E3, <- !app_assoc.
Qed.

(** One stored chunk is read as it was written. *)
Lemma unpackLoop_stored m i pre x y post d t : let raw := pre ++ (x ++ y) ++ post in
  small raw -> rd raw 0 = Some 0 -> i < kib / 20 -> be16 raw (4 + i * 2) = Some 0xffff ->
  len x = 20480 -> len y = 480 -> (kib =? 1440) && existsb (fun b => b <>? 0) y = false ->
  unpackLoop (S m) raw kib i (len pre) d t =
  unpackLoop m raw kib (i + 1) (len (pre ++ x ++ y)) (d ++ x) (t ++ y).
Proof.
  intros raw Hs H0 Hi HB L1 L2 Hz. cbn [unpackLoop]. rewrite HB. bnd.
  rewrite (proj2 (Z.leb_gt _ _)) by lia. rewrite H0. bnd.
  assert (Lb : len (x ++ y) = 20960) by (rewrite len_app; lia).
  assert (Lr : len raw = len pre + 20960 + len post) by (unfold raw; rewrite len_app, len_app; lia).
  pose proof (len_nonneg pre). pose proof (len_nonneg post).
  rewrite u64_small by lia. cbn [Z.eqb Pos.eqb orb andb negb].
  rewrite (proj2 (Z.ltb_ge _ _)) by lia.
  unfold decodeChunk. destruct DartSafe.block0 as [B0 _].
  generalize dependent (replicate (Z.to_nat DartLzh.kChunk) 0). intros zero B0. rewrite B0.
  assert (Es : slice raw (len pre) 20960 = Some (x ++ y)) by (by apply slice_app).
  rewrite Es. bnd. rewrite copyTo_all by lia. bnd. rewrite Lb.
  assert (E1 : slice (x ++ y) 0 20480 = Some x) by (by apply (slice_app [])).
  assert (E2 : slice (x ++ y) 20480 (20960 - 20480) = Some y).
  { rewrite <- (app_nil_r y) at 1. apply slice_app; lia. }
  rewrite E1, E2. bnd. rewrite Hz, (len_app pre), Lb. done.
Qed.

Lemma chunkTags_zero i : (kib =? 1440) && existsb (fun b => b <>? 0) (chunkTags kib i tags) = false.
Proof. unfold chunkTags. destruct (kib =? 1440); [|done]. vm_compute. reflexivity. Qed.

(** Past the last chunk nothing of the disk is left. *)
Lemma past_end i : kib / 20 <= i -> drop (Z.to_nat (i * 20480)) data = [] /\
  (kib <> 1440 -> drop (Z.to_nat (i * 480)) tags = []).
Proof.
  intros Hi. destruct D as [M Ld Lt]. destruct (mac_chunks kib M) as (Ek & Hk & _).
  split; [|intros HN; rewrite (proj2 (Z.eqb_neq _ _) HN) in Lt]; apply drop_ge; unfold len in *; lia.
Qed.

(** Reading the chunks back: [pre] is the header and the chunks already read. *)
Lemma unpackLoop_body m : forall n i pre d t, let raw := pre ++ body n kib i data tags in
  small raw -> rd raw 0 = Some 0 -> 0 <= i -> Z.of_nat n = Z.max 0 (kib / 20 - i) ->
  (forall j, i <= j < i + Z.of_nat m -> be16 raw (4 + j * 2) = Some (if j <? kib / 20 then 0xffff else 0)) ->
  kib / 20 <= i + Z.of_nat m ->
  exists t', unpackLoop m raw kib i (len pre) d t =
    Some (Some (len raw, d ++ drop (Z.to_nat (i * 20480)) data, t')) /\
    (kib <> 1440 -> t' = t ++ drop (Z.to_nat (i * 480)) tags).
Proof.
  induction m as [|m IH]; intros n i pre d t raw Hs H0 Hi Hn HB Hm.
  { assert (n = 0%nat) by lia. subst n raw. cbn [body unpackLoop]. rewrite app_nil_r.
    destruct (past_end i) as [-> Ht]; [lia|]. exists t. rewrite app_nil_r. split; [done|].
    intros HN. by rewrite Ht, app_nil_r. }
  destruct (Z.ltb_spec i (kib / 20)) as [Hlt|Hge].
  - destruct n as [|n]; [lia|].
    set (x := sl data (i * 20480) 20480). set (y := chunkTags kib i tags).
    assert (HB0 : be16 raw (4 + i * 2) = Some 0xffff) by (rewrite HB, (proj2 (Z.ltb_lt _ _) Hlt) by lia; done).
    unfold raw. cbn [body]. rewrite (unpackLoop_stored m i pre x y (body n kib (i + 1) data tags)); try done;
      [|by apply data_slice|by apply tags_slice|apply chunkTags_zero].
    assert (Er : raw = (pre ++ x ++ y) ++ body n kib (i + 1) data tags) by (unfold raw; cbn [body]; by rewrite <- !app_assoc).
    fold x y. change (pre ++ (x ++ y) ++ body n kib (i + 1) data tags) with raw. clearbody raw. subst raw.
    destruct (IH n (i + 1) (pre ++ x ++ y) (d ++ x) (t ++ y)) as (t' & -> & Ht);
      [done|done|lia|lia|intros; apply HB; lia|lia|].
    destruct D as [M Ld Lt]. destruct (mac_chunks kib M) as (Ek & Hk & _). exists t'. split.
    + rewrite <- (app_assoc d). do 5 f_equal. replace ((i + 1) * 20480) with (i * 20480 + 20480) by lia.
      apply sl_next; lia.
    + intros HN. rewrite Ht, <- app_assoc by done. f_equal. unfold y, chunkTags.
      rewrite (proj2 (Z.eqb_neq _ _) HN) in *.
      replace ((i + 1) * 480) with (i * 480 + 480) by lia. apply sl_next; lia.
  - assert (n = 0%nat) by lia. subst n. cbn [unpackLoop]. rewrite HB by lia. bnd.
    rewrite (proj2 (Z.leb_le _ _) Hge), (proj2 (Z.ltb_ge _ _) Hge). cbn [Z.eqb negb].
    destruct (IH 0%nat (i + 1) pre d t) as (t' & E & Ht); [done|done|lia|lia|intros; apply HB; lia|lia|].
    exists t'. unfold raw. cbn [body] in *. rewrite E.
    destruct (past_end i) as [-> H1]; [lia|]. destruct (past_end (i + 1)) as [-> H2]; [lia|].
    split; [done|]. intros HN. rewrite Ht by done. by rewrite H1, H2.
Qed.
End Disk.

(** The header's table: [ffff] for each chunk, zero after. *)
Lemma header_ok kib : DartSafe.Mac kib ->
  len (header kib) = 4 + entriesOf kib * 2 /\ rd (header kib) 0 = Some 0 /\
  rd (header kib) 1 = Some (if kib =? 1440 then 16 else 1) /\ be16 (header kib) 2 = Some kib /\
  forall j, 0 <= j < entriesOf kib -> be16 (header kib) (4 + j * 2) = Some (if j <? kib / 20 then 0xffff else 0).
Proof.
  intros HM.
  assert (HF : forallb (fun j => bool_decide (be16 (header kib) (4 + j * 2) =
                          Some (if j <? kib / 20 then 0xffff else 0))) (seqZ 0 (entriesOf kib)) = true)
    by (destruct HM as [-> | [-> | ->]]; vm_compute; reflexivity).
  do 4 (split; [destruct HM as [-> | [-> | ->]]; vm_compute; reflexivity|]).
  intros j Hj. rewrite forallb_forall in HF. apply (bool_decide_eq_true_1 _), HF.
  apply list_elem_of_In, elem_of_seqZ. lia.
Qed.

Lemma be16_app_l a b i : i + 1 < len a -> be16 (a ++ b) i = be16 a i.
Proof. intros H. unfold be16. by rewrite !rd_app_l by lia. Qed.

Definition archive (kib : Z) (data tags : list Z) : list Z :=
  header kib ++ body (Z.to_nat (kib / 20)) kib 0 data tags.

Lemma body_len kib data tags (D : Disk kib data tags) n : forall i, 0 <= i -> i + Z.of_nat n <= kib / 20 ->
  len (body n kib i data tags) = 20960 * Z.of_nat n.
Proof.
  induction n as [|n IH]; intros i Hi Hn; cbn [body]; [done|].
  rewrite !len_app, IH by lia.
  destruct (data_slice kib data tags D i) as [_ ->]; [lia|].
  destruct (tags_slice kib data tags D i) as [_ ->]; lia.
Qed.

Lemma archive_len kib data tags : Disk kib data tags ->
  len (archive kib data tags) = 4 + entriesOf kib * 2 + 20960 * (kib / 20).
Proof.
  intros D. destruct (header_ok kib (dk_kib _ _ _ D)) as (Lh & _).
  destruct (mac_chunks kib (dk_kib _ _ _ D)) as (_ & Hk & _).
  unfold archive. rewrite len_app, Lh, (body_len kib data tags D) by lia. lia.
Qed.

Lemma archive_candidate kib data tags : Disk kib data tags -> candidate (archive kib data tags) = Some true.
Proof.
  intros D. pose proof (archive_len _ _ _ D) as L. destruct D as [M _ _].
  destruct (header_ok kib M) as (Lh & H0 & _ & H2 & _). destruct (mac_chunks kib M) as (_ & Hk & He).
  unfold candidate. rewrite (proj2 (Z.ltb_ge _ _)) by lia. unfold archive.
  rewrite rd_app_l, H0 by lia. bnd. cbn [Z.ltb Z.compare].
  rewrite be16_app_l, H2 by lia. bnd. by destruct M as [-> | [-> | ->]].
Qed.

Lemma unpack_archive kib data tags : Disk kib data tags ->
  unpack (archive kib data tags) = Some (Some (data, tags)).
Proof.
  intros D. unfold unpack. rewrite (archive_candidate _ _ _ D). bnd. cbn [negb].
  pose proof (archive_len _ _ _ D) as L. destruct (D) as [M Ld Lt].
  destruct (header_ok kib M) as (Lh & H0 & H1 & H2 & HB). destruct (mac_chunks kib M) as (Ek & Hk & He).
  unfold archive. rewrite be16_app_l, H2 by lia. bnd. rewrite rd_app_l, H1 by lia. bnd.
  replace (negb _) with false by (by destruct M as [-> | [-> | ->]]). fold (archive kib data tags).
  rewrite L, (proj2 (Z.ltb_ge _ _)) by lia. rewrite <- Lh at 1.
  assert (72 >= entriesOf kib) by (unfold entriesOf; destruct (_ =? _); lia).
  destruct (unpackLoop_body kib data tags D (Z.to_nat (entriesOf kib)) (Z.to_nat (kib / 20)) 0
             (header kib) [] []) as (t' & E & Ht).
  - fold (archive kib data tags). lia.
  - by rewrite rd_app_l by lia.
  - lia.
  - lia.
  - intros j Hj. rewrite be16_app_l by lia. apply HB. lia.
  - lia.
  - fold (archive kib data tags) in E. rewrite E. bnd. rewrite L, Z.eqb_refl. cbn [negb].
    change (drop (Z.to_nat (0 * 20480)) data) with data in *. do 3 f_equal.
    destruct (Z.eqb_spec kib 1440) as [->|HN]; [|by rewrite Ht].
    symmetry. by apply len_nil_inv.
Qed.

Lemma dart_write_refused {T} `{OStream T} (out : T) data tags :
  (forall kib, ~ Disk kib data tags) -> write out data tags = Some (out, false).
Proof.
  intros HN. unfold write. destruct (_ || _) eqn:E; [done|]. exfalso. apply (HN (len data / 1024)).
  set (kib := len data / 1024) in *. clearbody kib. rewrite !orb_false_iff in E.
  destruct E as [[[E1 E2] E3] E4]. apply negb_false_iff, Z.eqb_eq in E2.
  assert (M : DartSafe.Mac kib).
  { unfold DartSafe.Mac. destruct (Z.eqb_spec kib 400), (Z.eqb_spec kib 800), (Z.eqb_spec kib 1440); auto. done. }
  split; [done|done|]. destruct M as [-> | [-> | ->]]; cbn in E3, E4 |- *.
  - apply negb_false_iff, Z.eqb_eq in E3. by rewrite E2 in E3.
  - apply negb_false_iff, Z.eqb_eq in E3. by rewrite E2 in E3.
  - by apply negb_false_iff, Z.eqb_eq in E4.
Qed.

Lemma dart_write_ok {T} `{OStreamLaws T} (out : T) kib data tags : Disk kib data tags ->
  exists out', write out data tags = Some (out', good out') /\
    (good out' = true -> good out = true /\ written out' = written out ++ archive kib data tags).
Proof.
  intros D. destruct (D) as [M Ld Lt]. unfold write. rewrite Ld, Z.div_mul by lia.
  replace ((_ || _) || _) with false.
  2: { rewrite Lt. destruct M as [-> | [-> | ->]]; reflexivity. }
  destruct (mac_chunks kib M) as (_ & Hk & _).
  destruct (writeChunks_ok kib data tags D (Z.to_nat (kib / 20)) 0 (put out (header kib)))
    as (out' & -> & Hg); [lia|lia|]. bnd.
  exists out'. split; [done|]. intros G. apply Hg in G as [G E]. apply put_good in G as [G E2].
  split; [done|]. unfold archive. by rewrite E, E2, app_assoc.
Qed.
End DartTrip.

Module Dc42Facts.
Import dc42.

(** ** Big-endian fields *)

Lemma be32_value p i a b c d : rd p i = Some a -> rd p (i + 1) = Some b -> rd p (i + 2) = Some c ->
  rd p (i + 3) = Some d -> byte a -> byte b -> byte c -> byte d ->
  be32 p i = Some (((a * 256 + b) * 256 + c) * 256 + d).
Proof.
  unfold byte. intros Ea Eb Ec Ed Ha Hb Hc Hd. unfold be32. rewrite Ea, Eb, Ec, Ed. bnd. f_equal.
  rewrite !u32_small by (rewrite Z.shiftl_mul_pow2 by lia; lia).
  assert (S : forall x y m n k, m = n + k -> 0 <= n -> 0 <= k -> 0 <= y < 2 ^ k ->
            (x .<< m) .| (y .<< n) = (x * 2 ^ k + y) .<< n).
  { intros x y m n k -> Hn Hk Hy. rewrite Z.add_comm, <- Z.shiftl_shiftl, <- Z.shiftl_lor by lia.
    by rewrite shiftl_lor_low. }
  rewrite (S a b 24 16 8), (S (a * 2 ^ 8 + b) c 16 8 8) by lia.
  rewrite shiftl_lor_low by lia. lia.
Qed.

Definition Byte84 (h : list Z) : Prop := len h = 84 /\ Forall byte h.

Lemma u8_is_byte x : byte (u8 x).
Proof. apply u8_range. Qed.
#[local] Hint Resolve u8_is_byte : core.

Lemma four_bytes v : 0 <= v < 4294967296 ->
  v = ((u8 (v .>> 24) * 256 + u8 (v .>> 16)) * 256 + u8 (v .>> 8)) * 256 + u8 v.
Proof.
  intros Hv. unfold u8. rewrite !Z.shiftr_div_pow2 by lia.
  change (2 ^ 24) with (256 * (256 * 256)). change (2 ^ 16) with (256 * 256). change (2 ^ 8) with 256.
  rewrite <- !Z.div_div by lia.
  rewrite (Z.mod_small (v / 256 / 256 / 256) 256).
  - pose proof (Z.div_mod v 256 ltac:(done)). pose proof (Z.div_mod (v / 256) 256 ltac:(done)).
    pose proof (Z.div_mod (v / 256 / 256) 256 ltac:(done)). lia.
  - rewrite !Z.div_div by lia. split; [apply Z.div_pos; lia|apply Z.div_lt_upper_bound; lia].
Qed.

Lemma put32_ok p i v : Forall byte p -> 0 <= i -> i + 3 < len p -> 0 <= v < 4294967296 ->
  exists p', put32 p i v = Some p' /\ len p' = len p /\ Forall byte p' /\ be32 p' i = Some v /\
    forall j, 0 <= j -> j < i \/ i + 4 <= j -> rd p' j = rd p j.
Proof.
  intros HF Hi Hl Hv. unfold put32. rewrite store_ok by lia. bnd.
  rewrite store_ok by (rewrite ?len_wr; lia). bnd. rewrite store_ok by (rewrite ?len_wr; lia). bnd.
  rewrite store_ok by (rewrite ?len_wr; lia). eexists. split; [done|].
  rewrite !len_wr. split; [done|]. split; [by repeat apply wr_Forall|].
  assert (R : forall (q : list Z) j k x, len q = len p -> 0 <= j < len p -> 0 <= k ->
            rd (wr q j x) k = if k =? j then Some x else rd q k)
    by (intros q j k x Hq Hj Hk; apply rd_wr; unfold len in *; lia).
  split.
  - assert (Ev : v = ((u8 (v .>> 24) * 256 + u8 (v .>> 16)) * 256 + u8 (v .>> 8)) * 256 + u8 v)
      by (by apply four_bytes).
    rewrite Ev at 5. apply be32_value; try apply u8_is_byte;
      repeat rewrite R by (rewrite ?len_wr; lia);
      repeat match goal with |- context [?x =? ?y] =>
        first [rewrite (proj2 (Z.eqb_eq x y)) by lia | rewrite (proj2 (Z.eqb_neq x y)) by lia] end; done.
  - intros j Hj Hout. repeat rewrite R by (rewrite ?len_wr; lia).
    rewrite !(proj2 (Z.eqb_neq _ _)) by lia. done.
Qed.

Lemma be32_ext p q i : (forall j, i <= j < i + 4 -> rd p j = rd q j) -> be32 p i = be32 q i.
Proof. intros H. unfold be32. by rewrite !H by lia. Qed.

Lemma be32_ok p i : Forall byte p -> 0 <= i -> i + 3 < len p ->
  exists v, be32 p i = Some v /\ 0 <= v < 4294967296.
Proof.
  intros HF Hi Hl.
  assert (R : forall j, 0 <= j < len p -> exists a, rd p j = Some a /\ byte a).
  { intros j Hj. destruct (rd_Some p j) as [a Ea]; [unfold len in *; lia|]. exists a.
    split; [done|exact (rd_Forall byte _ _ _ HF Ea)]. }
  destruct (R i) as (a & Ea & Ha); [lia|]. destruct (R (i + 1)) as (b & Eb & Hb); [lia|].
  destruct (R (i + 2)) as (c & Ec & Hc); [lia|]. destruct (R (i + 3)) as (d & Ed & Hd); [lia|].
  eexists. split; [by eapply be32_value|]. unfold byte in *. lia.
Qed.

(** ** The checksum *)

Lemma lor_range n x y : 0 <= n -> 0 <= x < 2 ^ n -> 0 <= y < 2 ^ n -> 0 <= x .| y < 2 ^ n.
Proof.
  intros Hn Hx Hy. rewrite <- (Z.mod_small x (2 ^ n)), <- (Z.mod_small y (2 ^ n)) by lia.
  rewrite <- !Z.land_ones, <- Z.land_lor_distr_l, Z.land_ones by lia. apply Z.mod_pos_bound. lia.
Qed.

Lemma rotate_range s : 0 <= s < 4294967296 -> 0 <= (s .>> 1) .| u32 (s .<< 31) < 4294967296.
Proof.
  intros Hs. apply (lor_range 32); [lia| |apply u32_range]. rewrite Z.shiftr_div_pow2 by lia.
  split; [apply Z.div_pos; lia|apply Z.div_lt_upper_bound; lia].
Qed.

Lemma checksumLoop_ok n : forall data i sum, Forall byte data -> 0 <= i -> i + 2 * Z.of_nat n <= len data ->
  0 <= sum < 4294967296 -> exists s, checksumLoop n data i sum = Some s /\ 0 <= s < 4294967296.
Proof.
  induction n as [|n IH]; intros data i sum HF Hi Hn Hs; cbn [checksumLoop]; [by eauto|].
  destruct (rd_Some data i) as [a ->]; [unfold len in *; lia|].
  destruct (rd_Some data (i + 1)) as [b ->]; [unfold len in *; lia|]. bnd.
  apply IH; [done|lia|lia|]. apply rotate_range, u32_range.
Qed.

Lemma checksum_ok data off size : Forall byte data -> 0 <= off -> 0 <= size -> off + size <= len data ->
  exists s, checksum data off size = Some s /\ 0 <= s < 4294967296.
Proof.
  intros HF Ho Hs Hl. unfold checksum. apply checksumLoop_ok; [done|done| |lia].
  rewrite Z2Nat.id by (apply Z.div_pos; lia). pose proof (Z.mul_div_le size 2). lia.
Qed.

(** ** Reading *)

(** The lengths of the disk and of its tags that the reader accepts. *)
Definition Sizes (dataSize tagSize : Z) : Prop :=
  0 <= dataSize <= 1474560 /\ 0 <= tagSize /\
  (tagSize = 0 \/ (dataSize = 409600 \/ dataSize = 819200) /\ tagSize = dataSize / 512 * 12).

(** The two bytes by which a Disk Copy file is known. *)
Definition Marked (h : list Z) : Prop := rd h 0x52 = Some 1 /\ rd h 0x53 = Some 0.

Lemma sizes_refused dataSize tagSize : 0 <= dataSize -> 0 <= tagSize ->
  (1474560 <? dataSize) = false ->
  (tagSize <>? 0) && (((dataSize <>? 409600) && (dataSize <>? 819200)) || (tagSize <>? dataSize / 512 * 12)) = false <->
  Sizes dataSize tagSize.
Proof.
  intros Hd Ht Hm. apply Z.ltb_ge in Hm. unfold Sizes. rewrite andb_false_iff, orb_false_iff, andb_false_iff, !negb_false_iff, !Z.eqb_eq.
  intuition lia.
Qed.

(** What the reader answers: the file as it is, with nothing beside it, or the
    header, the disk and its tags, cut from the front of the file. *)
Definition Read (raw : list Z) (ok : bool) (data header tags : list Z) : Prop :=
  (header = [] /\ tags = [] /\ data = raw \/
   ok = true /\ Marked header /\ len header = 84 /\ Sizes (len data) (len tags) /\
   exists pad, raw = header ++ data ++ tags ++ pad) /\
  Forall byte data /\ Forall byte header /\ Forall byte tags.

Lemma unpack_total raw : Forall byte raw -> small raw ->
  exists ok data header tags, unpack raw = Some (ok, data, header, tags) /\ Read raw ok data header tags.
Proof.
  intros HF Hs. unfold unpack.
  assert (Pass : forall ok, exists ok' data header tags,
    Some (ok, raw, [], []) = Some (ok', data, header, tags) /\ Read raw ok' data header tags).
  { intros ok. exists ok, raw, [], []. split; [done|]. split; [by left|]. by repeat split. }
  destruct (Z.ltb_spec (len raw) 0x54); [apply Pass|].
  destruct (rd_Some raw 0x52) as [m1 E1]; [unfold len in *; lia|]. rewrite E1.
  destruct (rd_Some raw 0x53) as [m2 E2]; [unfold len in *; lia|]. rewrite E2. bnd.
  destruct ((m1 <>? 1) || _) eqn:Em; [apply Pass|].
  apply orb_false_iff in Em as [M1 M2]. apply negb_false_iff, Z.eqb_eq in M1, M2. subst m1 m2.
  destruct (be32_ok raw 0x40) as (dataSize & -> & Hd); [done|lia|lia|].
  destruct (be32_ok raw 0x44) as (tagSize & -> & Ht); [done|lia|lia|]. bnd.
  destruct (((1474560 <? dataSize) || _) || _) eqn:Eg; [apply Pass|].
  rewrite !orb_false_iff in Eg. destruct Eg as [[G1 G2] G3].
  apply sizes_refused in G3; [|lia|lia|done]. apply Z.ltb_ge in G2. rewrite u64_small in G2 by lia.
  destruct (slice_sl raw 0 0x54) as [-> L1]; [lia..|].
  destruct (slice_sl raw (0x54 + dataSize) tagSize) as [-> L2]; [lia..|].
  destruct (slice_sl raw 0x54 dataSize) as [-> L3]; [lia..|]. bnd.
  do 4 eexists. split; [done|]. split; [right|unfold sl; by split_and!; apply Forall_take, Forall_drop].
  assert (Er : raw = sl raw 0 0x54 ++ sl raw 0x54 dataSize ++
               sl raw (0x54 + dataSize) tagSize ++ drop (Z.to_nat (0x54 + dataSize + tagSize)) raw)
    by (rewrite !sl_next by lia; done).
  split; [done|]. split; [|split; [done|]; split; [by rewrite L2, L3|eauto]].
  by split; [rewrite <- E1|rewrite <- E2]; rewrite Er at 2; rewrite rd_app_l by lia.
Qed.

(** A file laid out as the writer lays it out is read as what it holds. *)
Lemma unpack_laid header data tags : Marked header -> len header = 84 ->
  be32 header 0x40 = Some (len data) -> be32 header 0x44 = Some (len tags) ->
  Sizes (len data) (len tags) -> small (header ++ data ++ tags) ->
  unpack (header ++ data ++ tags) = Some (true, data, header, tags).
Proof.
  intros [M1 M2] Lh Ed Et HS Hs. pose proof (len_nonneg data). pose proof (len_nonneg tags).
  assert (L : len (header ++ data ++ tags) = 84 + len data + len tags) by (rewrite !len_app; lia).
  unfold unpack. rewrite L, (proj2 (Z.ltb_ge _ _)) by lia.
  rewrite !rd_app_l by lia. rewrite M1, M2. bnd. cbn [Z.eqb Pos.eqb negb orb].
  rewrite !(be32_ext (header ++ _) header) by (intros; apply rd_app_l; lia). rewrite Ed, Et. bnd.
  destruct (HS) as (HD & _ & _). rewrite L in Hs. rewrite u64_small by lia.
  rewrite (proj2 (Z.ltb_ge _ (len data))), (proj2 (Z.ltb_ge (84 + len data + len tags) _)) by lia.
  assert (G : (1474560 <? len data) = false) by (apply Z.ltb_ge; lia).
  rewrite (proj2 (sizes_refused (len data) (len tags) ltac:(lia) ltac:(lia) G) HS). cbn [orb].
  assert (E1 : slice (header ++ data ++ tags) 0 84 = Some header) by (by apply (slice_app [])).
  rewrite E1. bnd.
  assert (E2 : slice (header ++ data ++ tags) (84 + len data) (len tags) = Some tags).
  { rewrite app_assoc. rewrite <- (app_nil_r tags) at 1. apply slice_app; [rewrite len_app; lia|done]. }
  rewrite E2. bnd. by rewrite slice_app.
Qed.

(** ** Writing *)

(** The tags that go into the file: none when they are all zero and the file
    had none. *)
Definition keptTags (header tags : list Z) : list Z :=
  if bool_decide (be32 header 0x44 = Some 0) && negb (nonzeroTags tags) then [] else tags.

(** The header after a write: its two lengths and its two checksums, the rest
    as it was. *)
Record Updated (header header' data tags : list Z) : Prop := {
  up_len : len header' = 84;
  up_bytes : Forall byte header';
  up_data : be32 header' 0x40 = Some (len data);
  up_tags : be32 header' 0x44 = Some (len tags);
  up_sum : be32 header' 0x48 = checksum data 0 (len data);
  up_tagsum : be32 header' 0x4c = if 12 <? len tags then checksum tags 12 (len tags - 12) else Some 0;
  up_rest : forall j, 0 <= j < 0x40 \/ 0x50 <= j -> rd header' j = rd header j
}.

Lemma dc42_write_refused {T} `{OStream T} (out : T) header data tags : len header <> 84 ->
  write out header data tags = Some (out, header, false).
Proof. intros HN. unfold write. by rewrite (proj2 (Z.eqb_neq _ _) HN). Qed.

Lemma tagsum_ok tags : Forall byte tags ->
  exists s, (if 12 <? len tags then checksum tags 12 (len tags - 12) else Some 0) = Some s /\ 0 <= s < 4294967296.
Proof.
  intros HF. destruct (Z.ltb_spec 12 (len tags)); [|by exists 0]. apply checksum_ok; [done|lia..].
Qed.

(** The four stores into the header. *)
Lemma header_update header n t s s' : Forall byte header -> len header = 84 ->
  0 <= n < 4294967296 -> 0 <= t < 4294967296 -> 0 <= s < 4294967296 -> 0 <= s' < 4294967296 ->
  exists h1 h2 h3 h4, put32 header 0x40 n = Some h1 /\ put32 h1 0x44 t = Some h2 /\
    put32 h2 0x48 s = Some h3 /\ put32 h3 0x4c s' = Some h4 /\ len h4 = 84 /\ Forall byte h4 /\
    be32 h4 0x40 = Some n /\ be32 h4 0x44 = Some t /\ be32 h4 0x48 = Some s /\ be32 h4 0x4c = Some s' /\
    forall j, 0 <= j < 0x40 \/ 0x50 <= j -> rd h4 j = rd header j.
Proof.
  intros HF HL Hn Ht Hs Hs'.
  destruct (put32_ok header 0x40 n) as (h1 & E1 & L1 & F1 & B1 & R1); [done|lia..|].
  destruct (put32_ok h1 0x44 t) as (h2 & E2 & L2 & F2 & B2 & R2); [done|lia..|].
  destruct (put32_ok h2 0x48 s) as (h3 & E3 & L3 & F3 & B3 & R3); [done|lia..|].
  destruct (put32_ok h3 0x4c s') as (h4 & E4 & L4 & F4 & B4 & R4); [done|lia..|].
  exists h1, h2, h3, h4. do 4 (split; [done|]). split; [lia|]. split; [done|].
  split; [rewrite <- B1|split; [rewrite <- B2|split; [rewrite <- B3|split; [done|]]]];
    [apply be32_ext..|]; intros j Hj.
  - by rewrite R4, R3, R2 by lia.
  - by rewrite R4, R3 by lia.
  - by rewrite R4 by lia.
  - by rewrite R4, R3, R2, R1 by lia.
Qed.

Lemma dc42_write_ok {T} `{OStreamLaws T} (out : T) header data tags :
  Forall byte header -> len header = 84 -> Forall byte data -> Forall byte tags ->
  len data < 4294967296 -> len tags < 4294967296 ->
  exists out' header', write out header data tags = Some (out', header', good out') /\
    Updated header header' data (keptTags header tags) /\
    (good out' = true -> good out = true /\
       written out' = written out ++ header' ++ data ++ keptTags header tags).
Proof.
  intros HF HL Fd Ft Ld Lt. unfold write. rewrite HL. cbn [Z.eqb Pos.eqb negb].
  destruct (be32_ok header 0x44) as (had & Eh & _); [done|lia|lia|]. rewrite Eh. bnd.
  set (kept := keptTags header tags).
  assert (K : (if (had <>? 0) || nonzeroTags tags then len tags else 0) = len kept /\ Forall byte kept /\
              0 <= len kept < 4294967296 /\ (kept = tags \/ kept = [])).
  { pose proof (len_nonneg tags). unfold kept, keptTags. rewrite Eh. destruct (Z.eqb_spec had 0) as [->|HN].
    - rewrite bool_decide_true by done. cbn. destruct (nonzeroTags tags); cbn; split_and!; auto; unfold len in *; cbn in *; lia.
    - rewrite bool_decide_false by congruence. cbn. split_and!; auto; lia. }
  destruct K as (-> & Fk & Hk & Kt). rewrite !u32_small by (pose proof (len_nonneg data); lia).
  destruct (checksum_ok data 0 (len data)) as (s & Es & Hs); [done|lia|apply len_nonneg|lia|].
  destruct (tagsum_ok kept Fk) as (s' & Es' & Hs').
  destruct (header_update header (len data) (len kept) s s') as
    (h1 & h2 & h3 & h4 & E1 & E2 & E3 & E4 & L4 & F4 & B1 & B2 & B3 & B4 & R); try done.
  { pose proof (len_nonneg data). lia. }
  rewrite E1. bnd. rewrite E2. bnd. rewrite Es. bnd. rewrite E3. bnd.
  replace (if 12 <? len kept then checksum tags 12 (len kept - 12) else Some 0) with (Some s')
    by (destruct Kt as [->|E0]; [done|]; rewrite E0 in Es' |- *; done).
  bnd. rewrite E4. bnd.
  assert (U : Updated header h4 data kept) by (split; [done|done|done|done|by rewrite Es|by rewrite Es'|done]).
  destruct (Z.eqb_spec (len kept) 0) as [E0|E0]; cbn [negb].
  - apply len_nil_inv in E0. rewrite E0, app_nil_r in *. bnd. do 2 eexists. split; [done|]. split; [done|].
    intros G. apply put_good in G as [G W1]. apply put_good in G as [G W2].
    split; [done|]. by rewrite W1, W2, <- app_assoc.
  - destruct Kt as [->|Kt]; [|by rewrite Kt in E0]. rewrite slice_all by done. bnd.
    do 2 eexists. split; [done|]. split; [done|].
    intros G. apply put_good in G as [G W0]. apply put_good in G as [G W1]. apply put_good in G as [G W2].
    split; [done|]. by rewrite W0, W1, W2, <- !app_assoc.
Qed.
End Dc42Facts.

(** ** MOOF: every access is inside the file, every track is one the drive can
    turn *)

Module MoofFacts.
Import moof.

Lemma le16_ok p i : 0 <= i -> i + 1 < len p -> exists w, le16 p i = Some w /\ 0 <= w < 65536.
Proof.
  intros Hi Hl. unfold le16. destruct (rd_Some p i) as [a ->]; [unfold len in *; lia|].
  destruct (rd_Some p (i + 1)) as [b ->]; [unfold len in *; lia|]. bnd. eexists. split; [done|]. apply u16_range.
Qed.

Lemma le32_ok p i : Forall byte p -> 0 <= i -> i + 3 < len p -> exists w, le32 p i = Some w /\ 0 <= w < 4294967296.
Proof.
  intros HP Hi Hl. unfold le32.
  destruct (rd_Some p i) as [a Ea]; [unfold len in *; lia|]. rewrite Ea.
  destruct (rd_Some p (i + 1)) as [b ->]; [unfold len in *; lia|].
  destruct (rd_Some p (i + 2)) as [c ->]; [unfold len in *; lia|].
  destruct (rd_Some p (i + 3)) as [d ->]; [unfold len in *; lia|]. bnd. eexists. split; [done|].
  assert (Ha : 0 <= a < 4294967296) by (pose proof (rd_Forall byte _ _ _ HP Ea) as B; unfold byte in B; lia).
  assert (G : forall x y, 0 <= x < 4294967296 -> 0 <= y < 4294967296 -> 0 <= x .| y < 4294967296).
  { intros x y Hx Hy. apply (Dc42Facts.lor_range 32); [lia|done|done]. }
  repeat apply G; done || apply u32_range.
Qed.

(** Ticks of a whole second at most, with the order of the units. *)
Lemma ticks_exact u : 0 <= u <= 8000000 -> ticks u = u * 20054016 / 10000.
Proof. intros H. unfold ticks. by rewrite u64_small by lia. Qed.

Lemma ticks_lt u v : 0 <= u < v -> v <= 8000000 -> ticks u < ticks v.
Proof.
  intros H Hv. rewrite !ticks_exact by lia.
  apply Z.lt_le_trans with ((u * 20054016 / 10000) + 2005); [lia|].
  pose proof (Z.mul_div_le (u * 20054016) 10000). apply Z.div_le_lower_bound; lia.
Qed.

Lemma ticks_range u : 0 <= u <= 8000000 -> 0 <= ticks u <= kMaxRevolution.
Proof.
  intros H. rewrite ticks_exact by lia. split; [apply Z.div_pos; lia|].
  unfold kMaxRevolution. apply Z.div_le_upper_bound; lia.
Qed.

(** What the walk over the chunks keeps: a span it has found is as long as its
    kind, and the tracks lie in the file. *)
Record ChunksOk (bytes : list Z) (c : Chunks) : Prop := {
  ck_info : info c = [] \/ len (info c) = 60;
  ck_map : map_ c = [] \/ len (map_ c) = 160;
  ck_desc : descriptors c = [] \/ 1280 <= len (descriptors c);
  ck_flux : flux c = [] \/ len (flux c) = 160;
  ck_data : 0 <= dataStart c /\ dataEnd c <= len bytes;
  ck_bytes : Forall byte (info c) /\ Forall byte (map_ c) /\ Forall byte (descriptors c) /\ Forall byte (flux c)
}.

Lemma assign_ok target chunk n t : assign target chunk n = Some t -> t = chunk /\ n <= len chunk.
Proof.
  unfold assign. destruct (negb _ || _) eqn:E; [done|]. intros [= <-]. unbool. split; [done|lia].
Qed.

Lemma takeChunk_ok bytes id offset length chunk c c' : ChunksOk bytes c -> Forall byte chunk -> len chunk = length ->
  0 <= offset -> offset + 8 + length <= len bytes ->
  takeChunk id offset length chunk c = Some c' -> ChunksOk bytes c'.
Proof.
  intros [A B C D [E1 E2] (F1 & F2 & F3 & F4)] HF HL Ho Hb. unfold takeChunk.
  destruct (id == kInfo); [destruct (_ || _) eqn:G; [done|]|destruct (id == kTmap); [destruct (_ <>? 160) eqn:G; [done|]|
    destruct (id == kTrks); [|destruct (id == kFlux); [destruct (_ <>? 160) eqn:G; [done|]|by intros [= <-]]]]].
  all: destruct (assign _ _ _) as [t|] eqn:Ea; [|done]; cbn [mbind option_bind]; intros [= <-];
    apply assign_ok in Ea as [-> Hn]; unbool; split; cbn [info map_ descriptors flux dataStart dataEnd]; auto; lia.
Qed.

Lemma chunkLoop_ok fuel : forall bytes offset c, Forall byte bytes -> small bytes -> ChunksOk bytes c ->
  0 <= offset -> len bytes - offset <= Z.of_nat fuel ->
  exists r, chunkLoop fuel bytes offset c = Some r /\ forall c', r = Some c' -> ChunksOk bytes c'.
Proof.
  induction fuel as [|fuel IH]; intros bytes offset c HF Hs HC Ho Hf; cbn [chunkLoop];
    destruct (Z.ltb_spec offset (len bytes)); try lia; try (eexists; split; [done|]; by intros c' [= <-]).
  rewrite u64_small by lia. destruct (Z.ltb_spec (len bytes - offset) 8); [by exists None|].
  destruct (le32_ok bytes (offset + 4)) as (n & -> & Hn); [done|lia|lia|]. bnd.
  rewrite u64_small by lia. destruct (Z.ltb_spec (len bytes - offset - 8) n); [by exists None|].
  destruct (slice_ok byte bytes (offset + 8) n) as (chunk & -> & Lc & Fc); [lia..|done|].
  destruct (slice_ok byte bytes offset 4) as (id & -> & _ & _); [lia..|done|]. bnd.
  destruct (takeChunk id offset n chunk c) as [c'|] eqn:E; [|by exists None].
  apply IH; try done; [|lia..]. eapply (takeChunk_ok bytes id offset n chunk c); [done|done|done|lia|lia|exact E].
Qed.

(** A rising sequence of ticks, all up to [hi] units. *)
Definition Rising (l : list Z) (hi : Z) : Prop :=
  StronglySorted Z.lt l /\ Forall (fun e => 0 <= e <= ticks hi) l.

Lemma sorted_snoc l x : StronglySorted Z.lt l -> Forall (fun e => e < x) l -> StronglySorted Z.lt (l ++ [x]).
Proof.
  induction 1 as [|a l HS IH HF]; intros HX; cbn [app]; [repeat constructor|].
  apply Forall_cons_1 in HX as [Ha HX]. constructor; [by apply IH|]. apply Forall_app. split; [done|by constructor].
Qed.

Lemma rising_snoc l hi u : Rising l hi -> 0 <= hi < u -> u <= 8000000 -> Rising (l ++ [ticks u]) u.
Proof.
  intros [HS HF] Hh Hu. pose proof (ticks_lt hi u Hh Hu). pose proof (ticks_range u ltac:(lia)). split.
  - apply sorted_snoc; [done|]. eapply Forall_impl; [exact HF|]. cbn. intros; lia.
  - apply Forall_app. split; [|repeat constructor; lia]. eapply Forall_impl; [exact HF|]. cbn. intros; lia.
Qed.

Lemma fluxLoop_ok n : forall bytes at_ elapsed interval edges, Forall byte bytes ->
  0 <= at_ -> at_ + Z.of_nat n <= len bytes -> 0 <= elapsed <= 8000000 ->
  0 <= interval -> interval + 255 * Z.of_nat n < 1000000000 ->
  Rising edges elapsed -> Forall (fun e => 0 < e) edges ->
  (edges = [] -> elapsed = 0) -> (forall e, last edges = Some e -> e = ticks elapsed) ->
  exists r, fluxLoop n bytes at_ elapsed interval edges = Some r /\
    forall el iv es, r = Some (el, iv, es) -> 0 <= el <= 8000000 /\ Rising es el /\ Forall (fun e => 0 < e) es /\
      (forall e, last es = Some e -> e = ticks el).
Proof.
  induction n as [|n IH]; intros bytes at_ elapsed interval edges HF Ha Hl He Hi Hb HR HP HN HL; cbn [fluxLoop].
  { eexists. split; [done|]. by intros el iv es [= <- <- <-]. }
  destruct (rd_Some bytes at_) as [delta Ed]; [unfold len in *; lia|]. rewrite Ed. bnd.
  pose proof (rd_Forall byte _ _ _ HF Ed) as Bd. unfold byte in Bd. rewrite u64_small by lia.
  destruct (delta =? 255); [apply IH; try done; lia|].
  destruct (Z.eqb_spec (interval + delta) 0); [by exists None|]. rewrite u64_small by lia.
  destruct (Z.ltb_spec 8000000 (elapsed + (interval + delta))); [by exists None|].
  pose proof (ticks_lt 0 (elapsed + (interval + delta)) ltac:(lia) ltac:(lia)) as H0. change (ticks 0) with 0 in H0.
  apply IH; try done; try lia.
  - eapply rising_snoc; [exact HR|lia|lia].
  - apply Forall_app. split; [done|by repeat constructor].
  - by destruct edges.
  - intros e. rewrite last_snoc. congruence.
Qed.

(** The last of a rising sequence moved to the front as the origin. *)
Lemma wrapLast_snoc l x : wrapLast (l ++ [x]) = 0 :: l.
Proof.
  unfold wrapLast. rewrite len_snoc. replace (len l + 1 - 1) with (len l) by lia.
  assert (E : wr (l ++ [x]) (len l) 0 = l ++ [0]).
  { unfold wr, len. rewrite Nat2Z.id. rewrite insert_app_r_alt by lia. by rewrite Nat.sub_diag. }
  rewrite E, length_app. cbn [length]. replace (length l + 1 - 1)%nat with (length l) by lia.
  by rewrite drop_app_length, take_app_length.
Qed.

Lemma wrapLast_ok es el : Rising es el -> Forall (fun e => 0 < e) es -> 0 <= el <= 8000000 -> es <> [] ->
  (forall e, last es = Some e -> e = ticks el) ->
  StronglySorted Z.lt (wrapLast es) /\ Forall (fun e => 0 <= e < ticks el) (wrapLast es) /\ 0 < ticks el.
Proof.
  intros [HS _] HP He HN HL. destruct (exists_last HN) as (l & x & ->). rewrite last_snoc in HL.
  rewrite (HL x eq_refl) in *. rewrite wrapLast_snoc. apply Forall_app in HP as [HP HX].
  apply Forall_cons_1 in HX as [HX _].
  assert (HB : StronglySorted Z.lt l /\ Forall (fun e => e < ticks el) l).
  { clear -HS. induction l as [|a l IH]; [by split; constructor|]. cbn [app] in HS. inversion HS as [|? ? HS' HF]; subst.
    destruct (IH HS') as [S1 F1]. apply Forall_app in HF as [HF Hx]. apply Forall_cons_1 in Hx as [Hx _].
    split; by constructor. }
  destruct HB as [S1 F1]. split; [|split; [|done]].
  - constructor; [done|]. done.
  - constructor; [lia|]. rewrite Forall_forall in HP, F1 |- *. intros e Hin. specialize (HP e Hin). specialize (F1 e Hin). lia.
Qed.

Lemma bitLoop_ok n : forall bytes begin bit clock edges, 0 <= begin -> 0 <= bit ->
  begin + (bit + Z.of_nat n + 7) / 8 <= len bytes -> 1 <= clock <= 255 ->
  (bit + Z.of_nat n) * clock <= 8000000 ->
  StronglySorted Z.lt edges -> Forall (fun e => 0 <= e < ticks (bit * clock)) edges ->
  exists es, bitLoop n bytes begin bit clock edges = Some es /\ StronglySorted Z.lt es /\
    Forall (fun e => 0 <= e < ticks ((bit + Z.of_nat n) * clock)) es.
Proof.
  induction n as [|n IH]; intros bytes begin bit clock edges Hb H0 Hl Hc Hm HS HF; cbn [bitLoop].
  { exists edges. by rewrite Z.add_0_r. }
  assert (Hd : 0 <= bit / 8 /\ bit / 8 + 1 <= (bit + Z.of_nat (S n) + 7) / 8).
  { split; [apply Z.div_pos; lia|]. rewrite <- Z.div_add by lia. apply Z.div_le_mono; lia. }
  destruct (rd_Some bytes (begin + bit / 8)) as [b ->]; [unfold len in *; lia|]. bnd.
  assert (Hlt : ticks (bit * clock) < ticks ((bit + 1) * clock)) by (apply ticks_lt; nia).
  pose proof (ticks_range (bit * clock) ltac:(nia)).
  replace (bit + Z.of_nat (S n)) with (bit + 1 + Z.of_nat n) in * by lia.
  assert (HF' : Forall (fun e => 0 <= e < ticks ((bit + 1) * clock)) edges)
    by (eapply Forall_impl; [exact HF|]; cbn; intros; lia).
  apply IH; try done; try lia; destruct (negb _); try done; rewrite u64_small by nia.
  - apply sorted_snoc; [done|]. eapply Forall_impl; [exact HF|]. cbn. intros; lia.
  - apply Forall_app. split; [done|]. repeat constructor; lia.
Qed.

Lemma decodeTrack_ok bytes c clock entry isFlux : Forall byte bytes -> small bytes -> ChunksOk bytes c ->
  descriptors c <> [] -> 1 <= clock <= 255 -> 0 <= entry < 160 ->
  exists r, decodeTrack bytes c clock entry isFlux = Some r /\ forall t, r = Some t -> TrackOk t.
Proof.
  intros HF Hs [_ _ [D|D] _ [HD HE] (_ & _ & FD & _)] HN Hc He; [done|]. unfold decodeTrack.
  destruct (le16_ok (descriptors c) (entry * 8)) as (b & -> & Hb); [lia|lia|]. bnd.
  destruct (le16_ok (descriptors c) (entry * 8 + 2)) as (z & -> & Hz); [lia|lia|]. bnd.
  destruct (le32_ok (descriptors c) (entry * 8 + 4)) as (n & -> & Hn); [done|lia|lia|]. bnd.
  destruct (_ || _ || _ || _ || _ || _ || _) eqn:G; [by exists None|]. unbool.
  rewrite u64_small in * by lia. pose proof (ticks_range clock ltac:(lia)) as Rc.
  destruct isFlux.
  - destruct (fluxLoop_ok (Z.to_nat n) bytes (b * 512) 0 0 []) as (r & -> & Hr); try done; try lia; [by split; constructor|].
    bnd. destruct r as [[[el iv] es]|]; [|by exists None]. destruct (Hr el iv es eq_refl) as (I1 & I2 & I3 & I4).
    destruct (_ || _ || _) eqn:G2; [by exists None|]. unbool. eexists. split; [done|]. intros t [= <-].
    destruct (wrapLast_ok es el) as (W1 & W2 & W3); try done. pose proof (ticks_range el I1). by split; cbn.
  - rewrite u64_small by nia. destruct (Z.ltb_spec 8000000 (n * clock)); [by exists None|].
    destruct (bitLoop_ok (Z.to_nat n) bytes (b * 512) 0 clock []) as (es & -> & S1 & F1); try done; try lia;
      [rewrite Z.add_0_l, Z2Nat.id by lia; lia|by constructor|].
    bnd. eexists. split; [done|]. intros t [= <-]. rewrite Z.add_0_l, Z2Nat.id in F1 by lia.
    pose proof (ticks_range (n * clock) ltac:(nia)). pose proof (ticks_lt 0 (n * clock) ltac:(nia) ltac:(lia)).
    change (ticks 0) with 0 in *. by split; cbn.
Qed.

Lemma trackLoop_ok n : forall bytes c kind clock (hasFlux : bool) physical ts total,
  Forall byte bytes -> small bytes -> ChunksOk bytes c -> descriptors c <> [] -> map_ c <> [] ->
  (hasFlux = true -> flux c <> []) -> 1 <= clock <= 255 ->
  0 <= physical -> physical + Z.of_nat n = 160 -> len ts = 160 -> Forall TrackOk ts ->
  exists r, trackLoop n bytes c kind clock hasFlux physical ts total = Some r /\
    forall ts', r = Some ts' -> len ts' = 160 /\ Forall TrackOk ts'.
Proof.
  induction n as [|n IH]; intros bytes c kind clock hasFlux physical ts total HF Hs HC HD HM HX Hk H0 Hn Hl HT;
    cbn [trackLoop]; [eexists; split; [done|]; by intros ts' [= <-]|].
  destruct (HC) as [_ [|Lm] _ Lf _ (_ & Fm & _ & Ff)]; [done|].
  assert (RF : hasFlux = true -> exists f, rd (flux c) physical = Some f /\ byte f).
  { intros E. destruct Lf as [Lf|Lf]; [by destruct (HX E)|].
    destruct (rd_Some (flux c) physical) as [f Ef]; [unfold len in *; lia|]. exists f. split; [done|].
    exact (rd_Forall byte _ _ _ Ff Ef). }
  destruct (rd_Some (map_ c) physical) as [m Em]; [unfold len in *; lia|]. rewrite Em.
  pose proof (rd_Forall byte _ _ _ Fm Em) as Bm.
  assert (RE : exists f e, (if hasFlux then rd (flux c) physical else Some 255) = Some f /\
    (if hasFlux && (f <>? 255) then rd (flux c) physical else Some m) = Some e /\ byte e).
  { destruct hasFlux; [|by exists 255, m]. destruct (RF eq_refl) as (f & -> & Bf). exists f.
    destruct (f <>? 255); [by exists f|by exists m]. }
  destruct RE as (f & e & -> & RE & Be). bnd. rewrite RE. bnd. unfold byte in Be.
  destruct (_ && _ && _); [by exists None|]. destruct (e =? 255); [apply IH; try done; lia|].
  destruct (Z.leb_spec 160 e); [by exists None|].
  destruct (decodeTrack_ok bytes c clock e (hasFlux && (f <>? 255))) as (r & -> & Hr); try done; try lia.
  bnd. destruct r as [t|]; [|by exists None]. rewrite store_ok by lia. bnd.
  destruct (_ <? _); [by exists None|]. apply IH; try done; try lia; [by rewrite len_wr|].
  apply Forall_insert; [done|by apply Hr].
Qed.

(** Reading a MOOF file is defined whatever its bytes, and a file that is
    accepted gives a native medium with all its tracks in order. *)
Lemma moof_unpack_ok raw : Forall byte raw ->
  exists r, unpack raw = Some r /\
    forall img, r = Some img -> native (medium img) = true /\ MediumOk (medium img) /\ 1 <= type img <= 3 /\
      80 <= len raw <= kMaxBytes.
Proof.
  intros HF. unfold unpack. destruct (_ || _) eqn:G; [by exists None|]. unbool. unfold kMaxBytes in *.
  destruct (slice_ok byte raw 0 8) as (magic & -> & _ & _); [lia..|done|]. bnd.
  destruct (negb _); [by exists None|].
  destruct (le32_ok raw 8) as (sum & -> & _); [done|lia|lia|]. bnd.
  destruct (slice_ok byte raw 12 (len raw - 12)) as (body & -> & _ & _); [lia..|done|]. bnd.
  destruct (_ && _); [by exists None|].
  destruct (chunkLoop_ok (length raw) raw 12 (mkChunks [] [] [] [] 0 0 0)) as (r & -> & Hr);
    [done|lia|split; cbn; auto using len_nonneg; split; [lia|apply len_nonneg]|lia|unfold len; lia|].
  bnd. destruct r as [c|]; [|by exists None]. pose proof (Hr c eq_refl) as HC. clear Hr.
  destruct (_ || _ || _) eqn:G1; [by exists None|]. unbool. destruct (HC) as [[|LI] [|LM] _ _ _ (FI & _)]; [done..|].
  assert (RI : forall j, 0 <= j < 60 -> exists v, rd (info c) j = Some v /\ byte v).
  { intros j Hj. destruct (rd_Some (info c) j) as [v Ev]; [unfold len in *; lia|]. exists v. split; [done|].
    exact (rd_Forall byte _ _ _ FI Ev). }
  destruct (RI 0) as (i0 & -> & _); [lia|]. destruct (RI 1) as (i1 & -> & _); [lia|].
  destruct (RI 2) as (i2 & -> & _); [lia|]. destruct (RI 3) as (i3 & -> & _); [lia|].
  destruct (RI 4) as (i4 & -> & B4); [lia|]. bnd. unfold byte in B4.
  destruct (_ || _ || _ || _ || _ || _) eqn:G2; [by exists None|]. unbool.
  destruct (le16_ok (info c) 40) as (fb & -> & _); [lia|lia|]. destruct (le16_ok (info c) 42) as (lg & -> & _); [lia|lia|]. bnd.
  set (hasFlux := (fb <>? 0) && (lg <>? 0)). destruct (hasFlux && (bool_decide (flux c = []) || _)) eqn:G3; [by exists None|].
  destruct (negb hasFlux && _); [by exists None|].
  destruct (trackLoop_ok 160 raw c i1 i4 hasFlux 0 (tracks newMedium) 0) as (r & -> & Hr); try done; try lia.
  - intros E. rewrite E in G3. cbn [andb] in G3. apply orb_false_iff in G3 as [G3 _]. by apply bool_decide_eq_false in G3.
  - apply Forall_replicate. split; cbn; try done; try constructor.
  - bnd. destruct r as [ts|]; [|by exists None]. eexists. split; [done|]. intros img [= <-]. cbn.
    destruct (Hr ts eq_refl). split_and!; try done; lia.
Qed.

(** *** Writing is defined too *)

Lemma moof_store_ok (bytes : list Z) i v : 0 <= i < len bytes -> exists b, store bytes i v = Some b /\ len b = len bytes.
Proof. intros H. rewrite store_ok by done. eexists. split; [done|apply len_wr]. Qed.

Lemma put16_ok bytes i v : 0 <= i -> i + 1 < len bytes -> exists b, put16 bytes i v = Some b /\ len b = len bytes.
Proof.
  intros H0 H1. unfold put16. destruct (moof_store_ok bytes i (u8 v)) as (b1 & -> & L1); [lia|]. bnd.
  destruct (moof_store_ok b1 (i + 1) (u8 (v .>> 8))) as (b2 & -> & L2); [lia|]. exists b2. split; [done|lia].
Qed.

Lemma moof_put32_ok bytes i v : 0 <= i -> i + 3 < len bytes -> exists b, put32 bytes i v = Some b /\ len b = len bytes.
Proof.
  intros H0 H1. unfold put32. destruct (moof_store_ok bytes i (u8 v)) as (b1 & -> & L1); [lia|]. bnd.
  destruct (moof_store_ok b1 (i + 1) (u8 (v .>> 8))) as (b2 & -> & L2); [lia|]. bnd.
  destruct (moof_store_ok b2 (i + 2) (u8 (v .>> 16))) as (b3 & -> & L3); [lia|]. bnd.
  destruct (moof_store_ok b3 (i + 3) (u8 (v .>> 24))) as (b4 & -> & L4); [lia|]. exists b4. split; [done|lia].
Qed.

Lemma len_copyTo (bytes : list Z) off src : 0 <= off -> off + len src <= len bytes ->
  exists b, copyTo bytes off src = Some b /\ len b = len bytes.
Proof.
  intros H0 H1. destruct (copyTo_ok (fun _ => True) bytes src off) as (b & E & L & _); eauto using Forall_true.
  all: by apply Forall_forall.
Qed.

Lemma units_ok v : 0 <= v <= kMaxRevolution -> exists u, units v = Some u /\ 0 <= u <= 8000000.
Proof.
  unfold kMaxRevolution, units. intros H. rewrite (proj2 (Z.leb_le _ _)), (proj2 (Z.ltb_lt _ _)) by lia. cbn [andb].
  rewrite Z.quot_div_nonneg by lia.
  assert (R : 0 <= (v * 10000 + 10027008) / 20054016 <= 8000000).
  { split; [apply Z.div_pos; lia|]. apply Z.lt_succ_r, Z.div_lt_upper_bound; lia. }
  rewrite u64_small by lia. eauto.
Qed.

Lemma edgeLoop_ok count start es : forall bytes, 0 < count -> 0 <= start -> start + (count + 7) / 8 <= len bytes ->
  Forall (fun e => 0 <= e <= kMaxRevolution) es ->
  exists b, edgeLoop es count start bytes = Some b /\ len b = len bytes.
Proof.
  induction es as [|e es IH]; intros bytes Hc Hs Hl HE; cbn [edgeLoop]; [by eauto|].
  apply Forall_cons_1 in HE as [He HE]. destruct (units_ok e He) as (u & -> & Hu). bnd.
  pose proof (Z.mod_pos_bound u count Hc) as Hm.
  assert (Hd : 0 <= u mod count / 8 /\ u mod count / 8 + 1 <= (count + 7) / 8).
  { split; [apply Z.div_pos; lia|]. rewrite <- Z.div_add by lia. apply Z.div_le_mono; lia. }
  destruct (rd_Some bytes (start + u mod count / 8)) as [b ->]; [unfold len in *; lia|]. bnd.
  destruct (moof_store_ok bytes (start + u mod count / 8) (u8 (b .| (0x80 .>> (u mod count .& 7))))) as (b1 & -> & L1); [lia|].
  bnd. destruct (IH b1) as (b2 & -> & L2); try done; [lia|]. exists b2. split; [done|lia].
Qed.

Lemma writeTrack_ok t map trks i bytes largest : TrackOk t -> 0 <= map -> map + 160 <= trks -> trks + 1280 <= len bytes ->
  0 <= i < 160 -> exists r, writeTrack t map trks i bytes largest = Some r /\
    forall b l, r = Some (b, l) -> len bytes <= len b.
Proof.
  intros [R _ _ _ _ E] Hm Ht Hb Hi. unfold writeTrack. destruct (_ || _) eqn:G; [by exists None|]. unbool.
  destruct (units_ok (revolution t) R) as (n & -> & Hn). bnd.
  destruct ((n =? 0) || _) eqn:G2; [by exists None|]. unbool.
  assert (HB : 0 <= (n + 4095) / 4096 /\ (n + 7) / 8 <= (n + 4095) / 4096 * 512).
  { split; [apply Z.div_pos; lia|]. pose proof (Z.div_mod (n + 4095) 4096 ltac:(lia)).
    pose proof (Z.mod_pos_bound (n + 4095) 4096 ltac:(lia)). apply Z.lt_succ_r, Z.div_lt_upper_bound; lia. }
  set (blocks := (n + 4095) / 4096) in *. clearbody blocks.
  set (grown := bytes ++ replicate (Z.to_nat (blocks * 512)) 0).
  assert (LG : len grown = len bytes + blocks * 512) by (unfold grown; rewrite len_app, len_replicate by lia; done).
  clearbody grown.
  destruct (moof_store_ok grown (map + i) (u8 i)) as (b1 & -> & L1); [lia|]. bnd.
  destruct (put16_ok b1 (trks + i * 8) (u16 (len bytes / 512))) as (b2 & -> & L2); [lia|lia|]. bnd.
  destruct (put16_ok b2 (trks + i * 8 + 2) (u16 blocks)) as (b3 & -> & L3); [lia|lia|]. bnd.
  destruct (moof_put32_ok b3 (trks + i * 8 + 4) (u32 n)) as (b4 & -> & L4); [lia|lia|]. bnd.
  destruct (edgeLoop_ok n (len bytes) (edges t) b4) as (b5 & -> & L5); [lia|lia|lia| |].
  { eapply Forall_impl; [exact E|]. cbn. intros; lia. }
  bnd. eexists. split; [done|]. intros b l [= <- _]. lia.
Qed.

Lemma writeTracks_ok ts : forall map trks i bytes largest, Forall TrackOk ts -> 0 <= map -> map + 160 <= trks ->
  trks + 1280 <= len bytes -> 0 <= i -> i + len ts <= 160 ->
  exists r, writeTracks ts map trks i bytes largest = Some r /\ forall b l, r = Some (b, l) -> len bytes <= len b.
Proof.
  induction ts as [|t ts IH]; intros map trks i bytes largest HT Hm Ht Hb Hi Hl; cbn [writeTracks].
  { eexists. split; [done|]. by intros b l [= <- _]. }
  rewrite len_cons in Hl. pose proof (len_nonneg ts). apply Forall_cons_1 in HT as [Hk HT].
  destruct (present t); cbn [negb]; [|apply IH; try done; lia].
  destruct (writeTrack_ok t map trks i bytes largest) as (r & -> & Hr); try done; [lia|]. bnd.
  destruct r as [[b l]|]; [|by exists None]. specialize (Hr b l eq_refl).
  destruct (IH map trks (i + 1) b l) as (r & -> & Hr'); try done; try lia. exists r. split; [done|].
  intros b' l' E. specialize (Hr' b' l' E). lia.
Qed.

Lemma keepLoop_ok fuel : forall original offset bytes, Forall byte original -> small original ->
  0 <= offset -> len original - offset <= Z.of_nat fuel ->
  exists r, keepLoop fuel original offset bytes = Some r /\ forall b, r = Some b -> len bytes <= len b.
Proof.
  induction fuel as [|fuel IH]; intros original offset bytes HF Hs Ho Hf; cbn [keepLoop];
    destruct (Z.ltb_spec offset (len original)); try lia; try (eexists; split; [done|]; by intros c' [= <-]).
  rewrite u64_small by lia. destruct (Z.ltb_spec (len original - offset) 8); [by exists None|].
  destruct (le32_ok original (offset + 4)) as (n & -> & Hn); [done|lia|lia|]. bnd.
  destruct (Z.ltb_spec (len original - offset) (n + 8)); [by exists None|].
  destruct (slice_ok byte original offset 4) as (id & -> & _ & _); [lia..|done|]. bnd.
  destruct (_ && _ && _).
  - destruct (_ <? _); [by exists None|].
    destruct (slice_ok byte original offset (n + 8)) as (part & -> & Lp & _); [lia..|done|]. bnd.
    destruct (IH original (offset + (n + 8)) (bytes ++ part)) as (r & -> & Hr); try done; [lia..|].
    exists r. split; [done|]. intros b E. specialize (Hr b E). rewrite len_app in Hr. lia.
  - apply IH; try done; lia.
Qed.

Lemma addChunk_ok bytes id size : len id = 4 -> 0 <= size ->
  exists b, addChunk bytes id size = Some (b, len bytes + 8) /\ len b = len bytes + 8 + size.
Proof.
  intros Hi Hs. unfold addChunk. pose proof (len_nonneg bytes).
  destruct (len_copyTo (bytes ++ replicate (Z.to_nat (8 + size)) 0) (len bytes) id) as (b1 & -> & L1);
    rewrite ?len_app, ?len_replicate in * by lia; [lia|lia|]. bnd.
  destruct (moof_put32_ok b1 (len bytes + 4) size) as (b2 & -> & L2); [lia|lia|]. bnd.
  eexists. split; [done|lia].
Qed.

Lemma moof_write_total {T} `{OStream T} (out : T) m original protect : MediumOk m -> Forall byte original ->
  small original -> exists out' ok, write out m original protect = Some (out', ok).
Proof.
  intros [LT HT] HF Hs. enough (HE : exists r, encodeFile m original protect = Some r).
  { destruct HE as [[b|] E]; unfold write; rewrite E; by eauto. }
  unfold encodeFile. destruct (_ || _) eqn:G; [by eauto|]. unbool.
  destruct (slice_ok byte original 0 80) as (b0 & -> & L0 & _); [lia..|done|]. bnd.
  destruct (moof_store_ok b0 22 (if protect then 1 else 0)) as (b1 & -> & L1); [lia|]. bnd.
  destruct (moof_store_ok b1 24 1) as (b2 & -> & L2); [lia|]. bnd. unfold fillBytes.
  destruct (len_copyTo b2 25 (replicate (Z.to_nat 32) 32)) as (b3 & -> & L3); [lia|rewrite len_replicate by lia; lia|]. bnd.
  destruct (len_copyTo b3 25 creator) as (b4 & -> & L4); [lia|change (len creator) with 20; lia|]. bnd.
  destruct (put16_ok b4 60 0) as (b5 & -> & L5); [lia|lia|]. bnd.
  destruct (put16_ok b5 62 0) as (b6 & -> & L6); [lia|lia|]. bnd.
  destruct (addChunk_ok b6 kTmap 160) as (b7 & -> & L7); [done|lia|]. bnd.
  destruct (len_copyTo b7 (len b6 + 8) (replicate (Z.to_nat (len b7 - (len b6 + 8))) 255)) as (b8 & -> & L8);
    [lia|rewrite len_replicate by lia; lia|]. bnd.
  destruct (addChunk_ok b8 kTrks 1280) as (b9 & -> & L9); [done|lia|]. bnd.
  destruct (writeTracks_ok (tracks m) (len b6 + 8) (len b8 + 8) 0 b9 0) as (r & -> & Hr); try done; try lia. bnd.
  destruct r as [[b l]|]; [|by eauto]. specialize (Hr b l eq_refl).
  destruct (moof_put32_ok b (len b8 + 8 - 4) (u32 (len b - (len b8 + 8)))) as (b10 & -> & L10); [lia|lia|]. bnd.
  destruct (put16_ok b10 58 l) as (b11 & -> & L11); [lia|lia|]. bnd.
  destruct (keepLoop_ok (length original) original 80 b11) as (r & -> & Hk); [done|done|lia|unfold len; lia|]. bnd.
  destruct r as [b12|]; [|by eauto]. specialize (Hk b12 eq_refl).
  destruct (slice_sl b12 12 (len b12 - 12)) as [-> _]; [lia..|]. bnd.
  destruct (moof_put32_ok b12 8 (crc (sl b12 12 (len b12 - 12)))) as (b13 & -> & _); [lia|lia|]. by eauto.
Qed.
End MoofFacts.
