(* ===== verification/FloppyProps.v ===== *)
(** * FloppyProps: a disk and the host file it comes from

    The claims on the files: reading any of them is total and gives a disk of a
    known size or a medium of well-formed tracks, what a drive remembers of the
    file is what a saved state accepts, and a disk of sectors that is changed,
    flushed and inserted again is the changed disk.  At
    the end, the fast form of a DART chunk: a sequence of runs, some words as
    they are or one word many times; the reference is what a run stands for and
    the words it is written with, and the decoder gives the one for the other. *)

From S2P Require Import Prelude Vectors Gcr Dart DartTreeFacts DartFacts SaveState SaveDevices SaveDevicesFacts FloppyImage FloppyFacts.
From stdpp Require Import base list numbers option decidable.

Open Scope Z_scope.
Import FloppyFileImage SonyMedia.

(** What the drive remembers of a file: a header for a Disk Copy file only. *)
Definition Provenance (f : FloppyFileImage) : Prop :=
  match format_ f with
  | Dc42 => len (header_ f) = 84 /\ Forall byte (header_ f) /\ Dc42Facts.Marked (header_ f)
  | _ => header_ f = []
  end.

Lemma candidate_ext a b : 4 <= len a -> 4 <= len b -> (forall j, 0 <= j < 4 -> rd a j = rd b j) ->
  dart.candidate a = dart.candidate b.
Proof.
  intros Ha Hb H. unfold dart.candidate, dart.be16.
  rewrite !(proj2 (Z.ltb_ge _ _)) by lia. by rewrite !H by lia.
Qed.

Lemma candidate_app a b : 4 <= len a -> dart.candidate (a ++ b) = dart.candidate a.
Proof.
  intros H. apply candidate_ext; [rewrite len_app; pose proof (len_nonneg b); lia|done|].
  intros j Hj. apply rd_app_l. lia.
Qed.

(** Nothing but the first four bytes makes a flux image. *)
Lemma take4_ext (a b : list Z) : (forall j, 0 <= j < 4 -> rd a j = rd b j) -> take 4 a = take 4 b.
Proof.
  intros H. apply list_eq. intros i. destruct (decide (i < 4)%nat) as [Hi|Hi].
  - rewrite !lookup_take_lt by done. specialize (H (Z.of_nat i) ltac:(lia)). unfold rd in H.
    by rewrite (proj2 (Z.ltb_ge _ _)), Nat2Z.id in H by lia.
  - by rewrite !lookup_take_ge by lia.
Qed.

Lemma moof_candidate_ext a b : 4 <= len a -> 4 <= len b -> (forall j, 0 <= j < 4 -> rd a j = rd b j) ->
  moof.candidate a = moof.candidate b.
Proof.
  intros Ha Hb H. unfold moof.candidate. by rewrite (take4_ext a b H), !(proj2 (Z.leb_le 4 _)).
Qed.

Lemma moof_candidate_app a b : 4 <= len a -> moof.candidate (a ++ b) = moof.candidate a.
Proof.
  intros H. apply moof_candidate_ext; [rewrite len_app; pose proof (len_nonneg b); lia|done|].
  intros j Hj. apply rd_app_l. lia.
Qed.

(** Which of the two containers a file is taken for. *)
Definition takenForDart (raw path : list Z) : option bool :=
  if suffix path == dotDart then Some true else
  if (len raw <>? 409600) && (len raw <>? 819200) && (len raw <>? 1474560)
  then dart.candidate raw else Some false.

Lemma takenForDart_ok raw path : Forall byte raw -> exists b, takenForDart raw path = Some b.
Proof.
  intros HF. unfold takenForDart. destruct (_ == _); [by eauto|]. destruct (_ && _); [|by eauto].
  destruct (DartSafe.candidate_ok raw HF) as (c & -> & _). by eauto.
Qed.

Lemma unpack_dart raw tags path : takenForDart raw path = Some true ->
  unpack raw tags path =
  (r ← dart.unpack raw;
   match r with
   | None => Some (false, clear, raw, tags)
   | Some (data, tags) => Some (true, mkFile Dart [], data, tags)
   end).
Proof. intros E. unfold unpack. unfold takenForDart in E. by rewrite E. Qed.

Lemma unpack_dc42 raw tags path : takenForDart raw path = Some false ->
  unpack raw tags path =
  (r ← dc42.unpack raw;
   let '(ok, raw, header, tags) := r in
   Some (ok, mkFile (if ok && (header != []) then Dc42 else Raw) header, raw, tags)).
Proof. intros E. unfold unpack. unfold takenForDart in E. by rewrite E. Qed.

(** The answers of [unpack]: a DART archive, a Disk Copy file, or the file as
    it is. *)
Inductive Unpacked (raw path : list Z) : bool -> FloppyFileImage -> list Z -> list Z -> Prop :=
| UnpackedDart kib data tags : takenForDart raw path = Some true ->
    DartTrip.Disk kib data tags -> Unpacked raw path true (mkFile Dart []) data tags
| UnpackedDc42 header data tags pad : takenForDart raw path = Some false ->
    len header = 84 -> Forall byte header -> Dc42Facts.Marked header ->
    Dc42Facts.Sizes (len data) (len tags) -> raw = header ++ data ++ tags ++ pad ->
    Unpacked raw path true (mkFile Dc42 header) data tags
| UnpackedRaw : takenForDart raw path = Some false -> Unpacked raw path true clear raw []
| UnpackedBad tags : Unpacked raw path false clear raw tags.

Lemma unpack_cases raw tags path : Forall byte raw -> small raw -> Forall byte tags ->
  exists ok f data tags', unpack raw tags path = Some (ok, f, data, tags') /\
    Unpacked raw path ok f data tags' /\ Forall byte data /\ Forall byte tags'.
Proof.
  intros HF Hs Ht. destruct (takenForDart_ok raw path HF) as [[] Ed].
  - rewrite unpack_dart by done. destruct (DartSafe.unpack_ok raw HF Hs) as ([[data t]|] & -> & Hr); bnd.
    + destruct (Hr data t eq_refl) as (Fd & Ft & kib & _ & M & Ld & Lt).
      do 4 eexists. split; [done|]. split; [|done]. apply (UnpackedDart _ _ kib); [done|].
      split; [done|done|]. rewrite Lt, Ld. by destruct M as [-> | [-> | ->]].
    + do 4 eexists. split; [done|]. by split; [constructor|].
  - rewrite unpack_dc42 by done. destruct (Dc42Facts.unpack_total raw HF Hs)
      as (ok & data & header & t & -> & HR & Fd & Fh & Ft). bnd.
    do 4 eexists. split; [done|]. split; [|done].
    destruct HR as [(-> & -> & ->)|(-> & M & L & HS & pad & Er)].
    + rewrite andb_false_r. destruct ok; by constructor.
    + rewrite bool_decide_false by (intros ->; done). by eapply UnpackedDc42.
Qed.

Lemma unpacked_provenance raw path ok f data tags : Unpacked raw path ok f data tags -> Provenance f.
Proof. by intros [| | |]. Qed.

Lemma save_load f : Provenance f -> let (b, h) := visitSave f in visitLoad b h = Some (Some f).
Proof.
  destruct f as [[] h]; unfold Provenance, visitSave, visitLoad; cbn [format_ header_ Z.eqb Pos.eqb orb]; [by intros ->| |by intros ->].
  intros (-> & _ & E1 & E2). cbn [Z.eqb Pos.eqb negb orb]. rewrite E1. bnd. cbn [Z.eqb Pos.eqb negb]. rewrite E2. done.
Qed.

(** ** Writing back *)

Lemma dart_path kib data tags path : DartTrip.Disk kib data tags ->
  takenForDart (DartTrip.archive kib data tags) path = Some true.
Proof.
  intros D. unfold takenForDart. rewrite (DartTrip.archive_candidate _ _ _ D), (DartTrip.archive_len _ _ _ D).
  destruct D as [M _ _]. destruct (_ == _); [done|]. by destruct M as [-> | [-> | ->]].
Qed.

Lemma write_dart {T} `{OStreamLaws T} (out : T) kib data tags path tags0 : DartTrip.Disk kib data tags ->
  exists out' bytes, write (mkFile Dart []) out data tags = Some (out', mkFile Dart [], good out') /\
    (good out' = true -> written out' = written out ++ bytes) /\
    unpack bytes tags0 path = Some (true, mkFile Dart [], data, tags) /\
    len bytes <= moof.kMaxBytes /\ moof.candidate bytes = false.
Proof.
  intros D. destruct (DartTrip.dart_write_ok out kib data tags D) as (out' & E & Hg).
  exists out', (DartTrip.archive kib data tags). unfold write. cbn [format_]. rewrite E. bnd.
  split; [done|]. split; [intros G; by apply Hg in G as [_ ?]|].
  rewrite unpack_dart, (DartTrip.unpack_archive _ _ _ D) by (by apply dart_path). split; [done|].
  rewrite (DartTrip.archive_len _ _ _ D). destruct D as [[-> | [-> | ->]] _ _];
    (split; [vm_compute; discriminate|]); unfold DartTrip.archive; by rewrite moof_candidate_app by (vm_compute; discriminate).
Qed.

Lemma write_dc42 {T} `{OStreamLaws T} (out : T) header data tags path tags0 :
  len header = 84 -> Forall byte header -> Dc42Facts.Marked header -> Forall byte data -> Forall byte tags ->
  Dc42Facts.Sizes (len data) (len tags) ->
  suffix path <> dotDart -> dart.candidate header = Some false -> moof.candidate header = false ->
  exists out' header' bytes, write (mkFile Dc42 header) out data tags = Some (out', mkFile Dc42 header', good out') /\
    (good out' = true -> written out' = written out ++ bytes) /\
    unpack bytes tags0 path = Some (true, mkFile Dc42 header', data, Dc42Facts.keptTags header tags) /\
    len bytes <= moof.kMaxBytes /\ moof.candidate bytes = false.
Proof.
  intros L F M Fd Ft HS Hp Hc Hm. destruct (HS) as (Hd & Ht & Hg).
  assert (Lt : len tags <= 34560).
  { destruct Hg as [->|[_ ->]]; [lia|]. pose proof (Z.div_le_mono (len data) 1474560 512). change (1474560 / 512) with 2880 in *. lia. }
  destruct (Dc42Facts.dc42_write_ok out header data tags) as (out' & h' & E & U & W); try done; [lia|lia|].
  set (kept := Dc42Facts.keptTags header tags) in *.
  assert (HK : Dc42Facts.Sizes (len data) (len kept)).
  { unfold kept, Dc42Facts.keptTags. destruct (_ && _); [|done]. unfold Dc42Facts.Sizes, len in *. cbn. lia. }
  assert (Lk : len kept <= 34560) by (unfold kept, Dc42Facts.keptTags; destruct (_ && _); [done|lia]).
  destruct U as [L' F' B1 B2 _ _ R]. exists out', h', (h' ++ data ++ kept).
  unfold write. cbn [format_ header_]. rewrite E. bnd. split; [done|]. split; [intros G; by apply W in G as [_ ?]|].
  assert (Et : takenForDart (h' ++ data ++ kept) path = Some false).
  { unfold takenForDart. rewrite bool_decide_false by done. destruct (_ && _); [|done].
    rewrite candidate_app by lia. rewrite <- Hc. apply candidate_ext; [lia|lia|]. intros j Hj. apply R. lia. }
  split; [|split; [rewrite !len_app; unfold moof.kMaxBytes; lia|]; rewrite <- Hm, moof_candidate_app by lia;
    apply moof_candidate_ext; [lia|lia|]; intros j Hj; apply R; lia].
  rewrite unpack_dc42 by done. rewrite Dc42Facts.unpack_laid; try done.
  - bnd. rewrite bool_decide_false; [done|]. intros ->. done.
  - destruct M as [M1 M2]. split; rewrite R by lia; done.
  - rewrite !len_app. lia.
Qed.

(** ** In the drive *)

(** The tags of a disk of sectors: twelve bytes each, none on an MFM disk. *)
Definition tagRoom (image : list Z) : Z :=
  if len image =? kSize1440K then 0 else len image / 512 * 12.

Definition Sized (image : list Z) : Prop :=
  len image = kSize400K \/ len image = kSize800K \/ len image = kSize1440K.

(** A loaded drive: a disk of one of the three sizes, all its tags, and a
    provenance that fits. *)
Record Loaded (s : Slot) : Prop := {
  ld_size : Sized (image_ (drive s));
  ld_tags : len (tags_ (drive s)) = tagRoom (image_ (drive s));
  ld_image : Forall byte (image_ (drive s));
  ld_tagbytes : Forall byte (tags_ (drive s));
  ld_file : Provenance (fileImage_ s);
  ld_hd : hd_ (drive s) = (len (image_ (drive s)) =? kSize1440K);
  ld_sides : doubleSided_ (drive s) = (len (image_ (drive s)) <>? kSize400K);
  ld_clean : dirty_ (drive s) = false;
  ld_sectors : native (medium_ s) = false /\ nativeFile_ s = []
}.

Lemma insertImage_cases data s :
  (Sized data /\ insertImage data s = Some (mkSlot (mkDrive 0 false (len data <>? kSize400K) (len data =? kSize1440K)
     (writeProtected_ (drive s)) data (replicate (Z.to_nat (tagRoom data)) 0) false) [] clear
     (SaveDevices.clear (medium_ s)) [])) \/
  (~ Sized data /\ insertImage data s = None).
Proof.
  unfold insertImage, Sized, tagRoom. set (n := len data). clearbody n.
  destruct (Z.eqb_spec n kSize800K), (Z.eqb_spec n kSize400K), (Z.eqb_spec n kSize1440K); cbn; tauto.
Qed.

Lemma tagRoom_nonneg image : 0 <= tagRoom image.
Proof.
  unfold tagRoom. destruct (_ =? _); [done|]. pose proof (len_nonneg image).
  pose proof (Z.div_pos (len image) 512). lia.
Qed.

(** The tags in the drive after an insertion: those of the container, or zeros. *)
Definition seeded (data tags : list Z) : list Z :=
  if tags != [] then tags else replicate (Z.to_nat (tagRoom data)) 0.

(** A file that is not too long and not taken for a flux image. *)
Definition SectorFile (raw path : list Z) : Prop := len raw <= moof.kMaxBytes /\ takenForMoof raw path = false.

Lemma insertFile_sectors raw path backing s : SectorFile raw path -> insertFile raw path backing s =
  (r ← FloppyFileImage.unpack raw [] backing;
   let '(ok, fileImage, raw, tags) := r in
   if negb ok then Some (false, s) else
   match insertImage raw s with
   | None => Some (false, s)
   | Some s =>
       let d := if tags != [] then set_tags tags (drive s) else drive s in
       Some (true, mkSlot (set_dirty false d) backing fileImage (medium_ s) (nativeFile_ s))
   end).
Proof. intros [HL HM]. unfold insertFile. by rewrite (proj2 (Z.ltb_ge _ _) HL), HM. Qed.

Lemma insertFile_unpacked raw path backing f data tags s : SectorFile raw path ->
  unpack raw [] backing = Some (true, f, data, tags) ->
  Sized data -> exists s', insertFile raw path backing s = Some (true, s') /\ image_ (drive s') = data /\
    tags_ (drive s') = seeded data tags /\ fileImage_ s' = f /\ path_ s' = backing /\
    hd_ (drive s') = (len data =? kSize1440K) /\ doubleSided_ (drive s') = (len data <>? kSize400K) /\
    dirty_ (drive s') = false /\ native (medium_ s') = false /\ nativeFile_ s' = [].
Proof.
  intros HM E HS. rewrite insertFile_sectors by done. rewrite E. bnd. cbn [negb].
  destruct (insertImage_cases data s) as [[_ ->]|[HN _]]; [|by destruct HN].
  eexists. split; [done|]. unfold seeded. by destruct (tags != []).
Qed.

Lemma unpacked_room raw path f data tags : Unpacked raw path true f data tags -> Sized data ->
  tags = [] \/ len tags = tagRoom data.
Proof.
  intros HU HS. inversion HU; subst; [right|..|by left].
  - destruct H0 as [M Ld Lt]. unfold tagRoom. rewrite Ld, Lt. by destruct M as [-> | [-> | ->]].
  - destruct H3 as (_ & _ & [E|[[E|E] ->]]); [left; by apply len_nil_inv|right..];
      unfold tagRoom; by rewrite E.
Qed.

Lemma seeded_room data tags : tags = [] \/ len tags = tagRoom data -> len (seeded data tags) = tagRoom data.
Proof.
  intros [-> | H]; unfold seeded; [apply len_replicate, tagRoom_nonneg|].
  destruct (bool_decide_reflect (tags = [])) as [->|]; [apply len_replicate, tagRoom_nonneg|done].
Qed.

Lemma seeded_bytes data tags : Forall byte tags -> Forall byte (seeded data tags).
Proof. intros H. unfold seeded. destruct (_ != _); [done|]. by apply Forall_replicate. Qed.

(** A drive with a flux image: its tracks are well formed, it keeps the file
    and has no sectors. *)
Record NativeDisk (raw : list Z) (s : Slot) : Prop := {
  nd_native : native (medium_ s) = true;
  nd_medium : MediumOk (medium_ s);
  nd_file : nativeFile_ s = raw /\ 80 <= len raw <= moof.kMaxBytes;
  nd_image : image_ (drive s) = [] /\ tags_ (drive s) = [] /\ fileImage_ s = clear;
  nd_clean : dirty_ (drive s) = false
}.

(** The outcomes of [insertFile]. *)
Inductive Insertion (raw path backing : list Z) (s : Slot) : bool -> Slot -> Prop :=
| InsertRefused : Insertion raw path backing s false s
| InsertNative s' : takenForMoof raw path = true -> NativeDisk raw s' -> path_ s' = backing ->
    Insertion raw path backing s true s'
| InsertSectors s' : SectorFile raw path -> Loaded s' -> path_ s' = backing ->
    Insertion raw path backing s true s'.

Lemma insertFile_total raw path backing s : Forall byte raw ->
  exists ok s', insertFile raw path backing s = Some (ok, s') /\ Insertion raw path backing s ok s'.
Proof.
  intros HF. destruct (Z.ltb_spec moof.kMaxBytes (len raw)) as [HL|HL].
  { exists false, s. unfold insertFile. rewrite (proj2 (Z.ltb_lt _ _) HL). by split; [|constructor]. }
  destruct (takenForMoof raw path) eqn:HM.
  { unfold insertFile. rewrite (proj2 (Z.ltb_ge _ _) HL), HM.
    destruct (MoofFacts.moof_unpack_ok raw HF) as ([img|] & -> & Hr); bnd;
      [|exists false, s; by split; [|constructor]].
    destruct (Hr img eq_refl) as (HN & HO & _ & Hl). do 2 eexists. split; [done|]. by apply InsertNative. }
  assert (HSF : SectorFile raw path) by done. unfold moof.kMaxBytes in HL. assert (Hs : small raw) by lia.
  destruct (unpack_cases raw [] backing HF Hs) as (ok & f & data & tags & E & HU & Fd & Ft); [done|].
  destruct ok; [|exists false, s; rewrite insertFile_sectors, E by done; by split; [|constructor]].
  destruct (insertImage_cases data s) as [[HS _]|[_ HN]].
  - destruct (insertFile_unpacked raw path backing f data tags s HSF E HS)
      as (s' & Ei & Im & Tg & Fi & Pa & Hd & Ds & Di & Na).
    exists true, s'. split; [done|]. apply InsertSectors; [done| |done].
    split; rewrite ?Im, ?Tg, ?Fi; try done.
    + eapply seeded_room, unpacked_room; [exact HU|done].
    + by apply seeded_bytes.
    + by eapply unpacked_provenance.
  - exists false, s. rewrite insertFile_sectors, E by done. bnd. cbn [negb]. rewrite HN. by split; [|constructor].
Qed.

Lemma nonzeroTags_zero tags : dc42.nonzeroTags tags = false -> tags = replicate (length tags) 0.
Proof.
  unfold dc42.nonzeroTags. induction tags as [|b tags IH]; [done|]. cbn. intros E.
  apply orb_false_iff in E as [E1 E2]. apply negb_false_iff, Z.eqb_eq in E1. subst b. by rewrite <- IH.
Qed.

Lemma seeded_kept header image tags : len tags = tagRoom image ->
  seeded image (Dc42Facts.keptTags header tags) = tags.
Proof.
  intros L. assert (Z : dc42.nonzeroTags tags = false -> replicate (Z.to_nat (tagRoom image)) 0 = tags).
  { intros H. rewrite (nonzeroTags_zero tags H). f_equal. rewrite <- L. unfold len. lia. }
  unfold Dc42Facts.keptTags. destruct (_ && _) eqn:E.
  - apply andb_true_iff in E as [_ E]. by apply Z, negb_true_iff.
  - unfold seeded. destruct (bool_decide_reflect (tags = [])) as [->|]; [by apply Z|done].
Qed.

(** ** Flush and insert again *)

Lemma unpack_unmarked raw : Forall byte raw -> ~ Dc42Facts.Marked raw -> dc42.unpack raw = Some (true, raw, [], []).
Proof.
  intros HF HN. unfold dc42.unpack. destruct (Z.ltb_spec (len raw) 0x54); [done|].
  destruct (rd_Some raw 0x52) as [m1 E1]; [unfold len in *; lia|]. rewrite E1.
  destruct (rd_Some raw 0x53) as [m2 E2]; [unfold len in *; lia|]. rewrite E2. bnd.
  destruct (Z.eqb_spec m1 1) as [->|]; [|done]. destruct (Z.eqb_spec m2 0) as [->|]; [|done].
  by destruct HN.
Qed.

Lemma not_dart_path raw path : takenForDart raw path = Some false -> suffix path <> dotDart.
Proof. unfold takenForDart. by destruct (bool_decide_reflect (suffix path = dotDart)). Qed.

Lemma sized_not_dart image path : Sized image -> suffix path <> dotDart -> takenForDart image path = Some false.
Proof.
  intros HS HP. unfold takenForDart. rewrite bool_decide_false by done.
  by destruct HS as [-> | [-> | ->]].
Qed.

Lemma room_sizes (image tags : list Z) : Sized image -> len tags = tagRoom image -> Dc42Facts.Sizes (len image) (len tags).
Proof.
  intros HS ->. unfold tagRoom, Dc42Facts.Sizes.
  destruct HS as [-> | [-> | ->]]; unfold kSize400K, kSize800K, kSize1440K; cbn [Z.eqb Pos.eqb];
    change (409600 / 512 * 12) with 9600; change (819200 / 512 * 12) with 19200; lia.
Qed.

(** The drive with other contents of the same size. *)
Definition edited (s : Slot) (image tags : list Z) : Slot :=
  mkSlot (set_tags tags (set_image image (drive s))) (path_ s) (fileImage_ s) (medium_ s) (nativeFile_ s).

(** What keeps the flushed file from being taken for another kind: a Disk Copy
    name that does not read as a DART header, a raw disk without the Disk Copy
    mark in its boot blocks and without the four letters of a flux image at its
    start. *)
Definition Recognised (raw : list Z) (s : Slot) (image : list Z) : Prop :=
  match format_ (fileImage_ s) with
  | Dart => True
  | Dc42 => dart.candidate raw = Some false
  | Raw => ~ Dc42Facts.Marked image /\ moof.candidate image = false
  end.

Section Reinsert.
Context {T : Type} `{OStreamLaws T}.
Context (out : T) (raw path image tags : list Z) (s' : Slot) (NM : moof.candidate raw = false).
Context (HI : Forall byte image) (HT : Forall byte tags) (HS : Sized image) (HR : len tags = tagRoom image).

Lemma flush_unpacked f data0 tags0 s : Unpacked raw path true f data0 tags0 -> fileImage_ s = f ->
  image_ (drive s) = image -> tags_ (drive s) = tags -> len data0 = len image -> native (medium_ s) = false ->
  Recognised raw s image ->
  exists out' s3 bytes kept, flushMedium out s = Some (out', s3, good out') /\ drive s3 = drive s /\
    (good out' = true -> written out' = written out ++ bytes) /\
    unpack bytes [] path = Some (true, fileImage_ s3, image, kept) /\
    seeded image kept = (if wrapped f then tags else replicate (Z.to_nat (tagRoom image)) 0) /\
    len bytes <= moof.kMaxBytes /\ moof.candidate bytes = false.
Proof.
  intros HU Ef Ei Et L0 HN HC. unfold flushMedium, Recognised in *. rewrite HN. rewrite Ef, Ei, Et in *.
  inversion HU as [kib ? ? Hd D0|header ? ? pad Hd Lh Fh Mh HS0 Er|Hd|];
    match goal with E0 : _ = f |- _ => rewrite <- E0 in HC, Ef end;
    unfold wrapped; cbn [format_ header_ negb] in *.
  - destruct D0 as [M Ld Lt]. assert (D : DartTrip.Disk kib image tags).
    { split; [done|lia|]. rewrite HR. unfold tagRoom. rewrite <- L0, Ld. by destruct M as [-> | [-> | ->]]. }
    destruct (write_dart out kib image tags path [] D) as (out' & bytes & E & W & U & LB).
    rewrite bool_decide_false by done. cbn [negb]. rewrite E. bnd.
    rewrite andb_diag. do 4 eexists. split; [done|]. split; [done|]. split; [done|]. split; [exact U|]. split; [|exact LB].
    unfold seeded. destruct (bool_decide_reflect (tags = [])) as [->|]; [|done].
    rewrite <- HR. done.
  - rewrite Er, candidate_app in HC by lia. assert (NH := NM). rewrite Er, moof_candidate_app in NH by lia.
    assert (HP := not_dart_path raw path Hd). assert (HZ := room_sizes image tags HS HR).
    destruct (write_dc42 out header image tags path []) as (out' & h' & bytes & E & W & U & LB); try done.
    rewrite bool_decide_false by done. cbn [negb]. rewrite E. bnd.
    rewrite andb_diag. do 4 eexists. split; [done|]. split; [done|]. split; [done|]. split; [exact U|]. split; [|exact LB].
    by apply seeded_kept.
  - destruct HC as [HC1 HC2]. rewrite bool_decide_true by done. cbn [negb]. exists (put out image), s, image, [].
    split; [done|]. split; [done|]. split; [intros G; by apply put_good in G as [_ ?]|].
    rewrite unpack_dc42 by (apply sized_not_dart; [done|exact (not_dart_path _ path Hd)]).
    rewrite unpack_unmarked by done. bnd. rewrite Ef. split; [done|]. split; [done|]. split; [|done].
    destruct HS as [-> | [-> | ->]]; vm_compute; discriminate.
Qed.
End Reinsert.

(** C6. A disk of sectors is never lost between the drive and its file.  Whatever
    file a disk of sectors was inserted from (DART, Disk Copy 4.2 or raw
    sectors), whatever bytes of the same number the guest then makes of its
    sectors and tags, flushing it to a stream and inserting the bytes written
    under the same names gives the drive the same sectors, and the same tags
    when the file is a container; nothing of this is undefined.  A raw file
    keeps no tags.  The premise [Recognised] is what the detection by content
    needs, and it is nothing for a DART archive: a Disk Copy file whose name
    does not read as a DART header, a raw disk that neither carries the Disk
    Copy mark 01 00 at 0x52 nor begins with the letters of a flux image.
    [raw_marked_refused] below shows that it cannot be dropped. *)
Theorem flush_reinsert {T} `{OStreamLaws T} (out : T) raw path backing s0 s image tags s' :
  Forall byte raw -> insertFile raw path backing s0 = Some (true, s) -> native (medium_ s) = false ->
  Forall byte image -> Forall byte tags ->
  len image = len (image_ (drive s)) -> len tags = len (tags_ (drive s)) ->
  Recognised raw s image ->
  exists out' s3 bytes s4,
    flushMedium out (edited s image tags) = Some (out', s3, good out') /\
    (good out' = true -> written out' = written out ++ bytes) /\
    insertFile bytes path backing s' = Some (true, s4) /\
    image_ (drive s4) = image /\ fileImage_ s4 = fileImage_ s3 /\
    tags_ (drive s4) = if wrapped (fileImage_ s) then tags else replicate (length tags) 0.
Proof.
  intros HF EI HN FI FT LI LT HR.
  destruct (insertFile_total raw path backing s0 HF) as (ok & s1 & E & HL). rewrite EI in E. injection E as <- <-.
  inversion HL as [|? ? [] |? HSF [HS HTg _ _ _ _ _ _ _] _]; subst; [congruence|]. destruct (HSF) as [Hlen HM].
  assert (HS' : Sized image) by (unfold Sized in *; by rewrite LI).
  assert (HT' : len tags = tagRoom image) by (rewrite LT, HTg; unfold tagRoom; by rewrite LI).
  destruct (unpack_cases raw [] backing HF) as (ok & f & data & tags0 & EU & HU & _ & _);
    [unfold moof.kMaxBytes in *; lia|done|].
  assert (Ef : ok = true /\ fileImage_ s = f /\ image_ (drive s) = data).
  { destruct ok; [|by rewrite insertFile_sectors, EU in EI by done].
    destruct (insertImage_cases data s0) as [[HD _]|[_ HI]].
    - destruct (insertFile_unpacked raw path backing f data tags0 s0 HSF EU HD) as (s2 & E2 & Im & _ & Fi & _).
      rewrite EI in E2. by injection E2 as <-.
    - rewrite insertFile_sectors, EU in EI by done. cbn [mbind option_bind negb] in EI. by rewrite HI in EI. }
  destruct Ef as (-> & Ef & Ed). apply orb_false_iff in HM as [HM1 HM2].
  destruct (flush_unpacked out raw backing image tags HM1 FI FT HS' HT' f data tags0 (edited s image tags))
    as (out' & s3 & bytes & kept & E1 & _ & W & U & K & LB & CB); try done; [by rewrite <- Ed|].
  assert (HSB : SectorFile bytes path) by (split; [done|]; unfold takenForMoof; by rewrite CB, HM2).
  destruct (insertFile_unpacked bytes path backing _ image kept s' HSB U HS') as (s4 & E4 & Im & Tg & Fi & _).
  exists out', s3, bytes, s4. split; [done|]. split; [done|]. split; [done|]. split; [done|]. split; [done|].
  rewrite Tg, K, Ef. destruct (wrapped f); [done|]. f_equal. rewrite <- HT'. unfold len. lia.
Qed.

(** ** Any file *)

(** What is in the drive can be written back: nothing of the flush is
    undefined. *)
Lemma loaded_flush {T} `{OStreamLaws T} (out : T) s : Loaded s -> exists r, flushMedium out s = Some r.
Proof.
  intros [HS HT FI FT HP _ _ _ [HN _]]. unfold flushMedium, wrapped. rewrite HN.
  destruct (fileImage_ s) as [[] h]; unfold Provenance in HP; cbn in HP; cbn [format_]; [by eauto| |].
  - destruct HP as (L & F & M). rewrite bool_decide_false by done. cbn [negb FloppyFileImage.write format_ header_].
    destruct (room_sizes _ _ HS HT) as (Hd & _ & _).
    destruct (Dc42Facts.dc42_write_ok out h (image_ (drive s)) (tags_ (drive s))) as (o & h' & -> & _); try done; [lia| |bnd; by eauto].
    rewrite HT. unfold tagRoom. destruct HS as [-> | [-> | ->]]; vm_compute; reflexivity.
  - subst h. rewrite bool_decide_false by done. cbn [negb FloppyFileImage.write format_ header_].
    destruct (DartTrip.dart_write_ok out (len (image_ (drive s)) / 1024) (image_ (drive s)) (tags_ (drive s))) as (o & -> & _);
      [|bnd; by eauto].
    unfold tagRoom in HT. destruct HS as [E | [E | E]]; rewrite E in *; split; (done || (by right; left) || (by left) || (by right; right)).
Qed.

Lemma native_flush {T} `{OStream T} (out : T) raw s : Forall byte raw -> NativeDisk raw s ->
  exists r, flushMedium out s = Some r.
Proof.
  intros HF [HN HM [HR HL] _ _]. unfold flushMedium. rewrite HN, HR. unfold moof.kMaxBytes in HL.
  destruct (MoofFacts.moof_write_total out (medium_ s) raw (writeProtected_ (drive s))) as (o & ok & ->); [done|done|lia|].
  bnd. by eauto.
Qed.

(** C17. Inserting any file is safe.  Whatever bytes the file holds and whatever
    its name, reading it accesses nothing outside it and ends; the drive is
    then either untouched, or holds a disk under that name: 400, 800 or 1440 KB
    of sectors with all their tags and the flags of that kind, or, from a MOOF
    file of 80 bytes to 32 MB, a native medium of 160 tracks, the transitions
    of each rising strictly inside its revolution, with the file itself.  What
    the drive remembers of the file is accepted by a saved state and comes back
    from it unchanged, and writing the disk back is defined on any stream. *)
Theorem insert_any_file raw path backing s : Forall byte raw ->
  exists ok s', insertFile raw path backing s = Some (ok, s') /\
    if ok then
      (if takenForMoof raw path then NativeDisk raw s' else Loaded s') /\ path_ s' = backing /\
      (let (b, h) := visitSave (fileImage_ s') in visitLoad b h = Some (Some (fileImage_ s'))) /\
      (forall (T : Type) (O : OStream T) (L : OStreamLaws T) (out : T), exists r, flushMedium out s' = Some r)
    else s' = s.
Proof.
  intros HF. destruct (insertFile_total raw path backing s HF) as (ok & s' & E & HI).
  exists ok, s'. split; [done|]. destruct HI as [|s' HM HN HP|s' [_ HM] HL HP]; [done|rewrite HM..]; split_and!; try done.
  - apply save_load. by destruct HN as [_ _ _ (_ & _ & ->) _].
  - intros. by eapply native_flush.
  - apply save_load, HL.
  - intros. by apply loaded_flush.
Qed.

(** A raw disk that happens to hold the Disk Copy mark (01 00 at 0x52, inside
    the boot blocks) is not passed through: whatever follows its first 84
    bytes, the lengths in front of the mark are nonsense and it is refused. *)
Definition markedBoot : list Z := replicate 82 0xff ++ [1; 0].

Lemma raw_marked_refused rest path : len (markedBoot ++ rest) = kSize400K -> suffix path <> dotDart ->
  unpack (markedBoot ++ rest) [] path = Some (false, clear, markedBoot ++ rest, []).
Proof.
  intros L HP. assert (Lb : len markedBoot = 84) by reflexivity.
  rewrite unpack_dc42 by (apply sized_not_dart; [by left|done]). unfold dc42.unpack.
  rewrite L. change (kSize400K <? 0x54) with false. cbn beta iota. rewrite !rd_app_l by lia.
  change (rd markedBoot 0x52) with (Some 1). change (rd markedBoot 0x53) with (Some 0). bnd.
  rewrite !(Dc42Facts.be32_ext (markedBoot ++ rest) markedBoot) by (intros; apply rd_app_l; lia).
  assert (E : dc42.be32 markedBoot 0x40 = Some 4294967295 /\ dc42.be32 markedBoot 0x44 = Some 4294967295)
    by (split; vm_compute; reflexivity).
  destruct E as [-> ->]. done.
Qed.

(** ** Instances *)

(** A stream in memory with a limit: a write that does not fit makes it bad. *)
#[export] Instance boundedStream : OStream (list Z * bool) := {
  put s b := if snd s && (len (fst s) + len b <=? 16777216) then (fst s ++ b, true) else (fst s, false);
  good := snd
}.

#[export] Program Instance boundedStream_laws : OStreamLaws (list Z * bool) := { written := fst }.
Next Obligation.
  intros [l g] b. unfold put, good; cbn. destruct (g && _) eqn:E; [|done].
  intros _. split; [by apply andb_true_iff in E as [-> _]|done].
Qed.

Lemma body_bytes kib data tags n : forall i, Forall byte data -> Forall byte tags ->
  Forall byte (DartTrip.body n kib i data tags).
Proof.
  induction n as [|n IH]; intros i Fd Ft; cbn [DartTrip.body]; [constructor|].
  apply Forall_app. split; [apply Forall_app; split|by apply IH]; unfold DartTrip.chunkTags, sl.
  - by apply Forall_take, Forall_drop.
  - destruct (kib =? 1440); [by apply Forall_replicate|by apply Forall_take, Forall_drop].
Qed.

Lemma header_bytes kib : DartSafe.Mac kib -> Forall byte (dart.header kib).
Proof.
  intros M. assert (C : forallb (fun b => (0 <=? b) && (b <? 256)) (dart.header kib) = true)
    by (destruct M as [-> | [-> | ->]]; vm_compute; reflexivity).
  apply Forall_forall. intros b Hb. rewrite forallb_forall in C. specialize (C b Hb). unbool. done.
Qed.

(** An 800 KB disk of zeros in an archive, and the drive it goes into. *)
Definition sampleData : list Z := replicate (Z.to_nat 819200) 0.
Definition sampleTags : list Z := replicate (Z.to_nat 19200) 0.
Definition sampleFile : list Z := DartTrip.archive 800 sampleData sampleTags.
Definition sampleSlot : Slot := mkSlot (mkDrive 0 false false false false [] [] false) [] clear newMedium [].

Lemma sample_disk (a b : Z) :
  DartTrip.Disk 800 (replicate (Z.to_nat 819200) a) (replicate (Z.to_nat 19200) b).
Proof. split; [by right; left|by rewrite len_replicate|by rewrite len_replicate]. Qed.

Lemma sample_ok : Forall byte sampleFile /\ small sampleFile /\
  unpack sampleFile [] [97] = Some (true, mkFile Dart [], sampleData, sampleTags) /\ Sized sampleData.
Proof.
  pose proof (sample_disk 0 0) as D. fold sampleData sampleTags in D. unfold sampleFile. split; [|split; [|split]].
  - apply Forall_app. split; [apply header_bytes, D|]. apply body_bytes; by apply Forall_replicate.
  - rewrite (DartTrip.archive_len _ _ _ D). vm_compute. reflexivity.
  - rewrite unpack_dart by (by apply dart_path). by rewrite (DartTrip.unpack_archive _ _ _ D).
  - right; left. unfold sampleData. by rewrite len_replicate.
Qed.

Lemma sample_short : SectorFile sampleFile [97].
Proof.
  pose proof (sample_disk 0 0) as D. fold sampleData sampleTags in D. unfold sampleFile. split.
  - rewrite (DartTrip.archive_len _ _ _ D). vm_compute. discriminate.
  - unfold takenForMoof, DartTrip.archive. rewrite moof_candidate_app by (vm_compute; discriminate). vm_compute. reflexivity.
Qed.

(** A MOOF file of one track: twelve bit cells of sixteen units, five of them
    with a transition. *)
Definition moofFile : list Z :=
  moof.kSignature ++ [0; 0; 0; 0] ++
  moof.kInfo ++ [60; 0; 0; 0] ++ [1; 2; 0; 0; 16] ++ replicate 55 0 ++
  moof.kTmap ++ [160; 0; 0; 0] ++ [0] ++ replicate 159 255 ++
  moof.kTrks ++ [0; 7; 0; 0] ++ [3; 0; 1; 0; 12; 0; 0; 0] ++ replicate 1272 0 ++
  [0xA1; 0x50] ++ replicate 510 0.

Lemma moofFile_bytes : Forall byte moofFile.
Proof.
  apply Forall_forall. intros x Hx.
  assert (C : forallb (fun b => (0 <=? b) && (b <? 256)) moofFile = true) by (vm_compute; reflexivity).
  rewrite forallb_forall in C. specialize (C x Hx). unbool. done.
Qed.

(** Read, flushed and read again: the same revolution and the same transitions,
    now on the finest grid of the format. *)
Example moof_trip :
  (r ← insertFile moofFile [97] [97] sampleSlot;
   w ← flushMedium ([], true) (snd r);
   let '(out, _, ok) := w in
   r2 ← insertFile (fst out) [97] [97] sampleSlot;
   Some (fst r, take 2 (tracks (medium_ (snd r))), ok, fst r2, take 2 (tracks (medium_ (snd r2))))) =
  let edges := map moof.ticks [0; 32; 112; 144; 176] in
  Some (true, [mkTrack true (moof.ticks 192) (moof.ticks 16) edges; noTrack], true,
        true, [mkTrack true (moof.ticks 192) (moof.ticks 1) edges; noTrack]).
Proof. vm_compute. reflexivity. Qed.

Lemma insert_any_file_witness :
  (exists ok s', insertFile sampleFile [97] [97] sampleSlot = Some (ok, s') /\
   if ok then
     (if takenForMoof sampleFile [97] then NativeDisk sampleFile s' else Loaded s') /\ path_ s' = [97] /\
     (let (b, h) := visitSave (fileImage_ s') in visitLoad b h = Some (Some (fileImage_ s'))) /\
     (forall (T : Type) (O : OStream T) (L : OStreamLaws T) (out : T), exists r, flushMedium out s' = Some r)
   else s' = sampleSlot) /\
  (exists ok s', insertFile moofFile [97] [97] sampleSlot = Some (ok, s') /\
   if ok then
     (if takenForMoof moofFile [97] then NativeDisk moofFile s' else Loaded s') /\ path_ s' = [97] /\
     (let (b, h) := visitSave (fileImage_ s') in visitLoad b h = Some (Some (fileImage_ s'))) /\
     (forall (T : Type) (O : OStream T) (L : OStreamLaws T) (out : T), exists r, flushMedium out s' = Some r)
   else s' = sampleSlot).
Proof.
  destruct sample_ok as (HF & Hs & _ & _). split.
  - exact (insert_any_file sampleFile [97] [97] sampleSlot HF).
  - exact (insert_any_file moofFile [97] [97] sampleSlot moofFile_bytes).
Defined.

Definition editedData : list Z := replicate (Z.to_nat 819200) 7.
Definition editedTags : list Z := replicate (Z.to_nat 19200) 9.

Lemma edited_ok : Forall byte editedData /\ Forall byte editedTags /\
  len editedData = 819200 /\ len editedTags = 19200.
Proof.
  unfold editedData, editedTags. rewrite !len_replicate by done.
  split; [by apply Forall_replicate|]. split; [by apply Forall_replicate|done].
Qed.

Lemma sample_len : len sampleData = 819200.
Proof. unfold sampleData. by rewrite len_replicate. Qed.

Lemma sample_tags : len (seeded sampleData sampleTags) = 19200.
Proof.
  rewrite seeded_room; [unfold tagRoom, sampleData; by rewrite len_replicate|].
  right. unfold tagRoom, sampleData, sampleTags. by rewrite !len_replicate.
Qed.

Lemma flush_reinsert_witness : exists s out' s3 bytes s4,
  insertFile sampleFile [97] [97] sampleSlot = Some (true, s) /\
  flushMedium ([], true) (edited s editedData editedTags) = Some (out', s3, good out') /\
  (good out' = true -> written out' = [] ++ bytes) /\
  insertFile bytes [97] [97] sampleSlot = Some (true, s4) /\
  image_ (drive s4) = editedData /\ tags_ (drive s4) = editedTags.
Proof.
  destruct sample_ok as (HF & Hs & HU & HS). destruct edited_ok as (F1 & F2 & L1 & L2).
  destruct (insertFile_unpacked sampleFile [97] [97] _ _ _ sampleSlot sample_short HU HS)
    as (s & E & Im & Tg & Fi & _ & _ & _ & _ & Na & _).
  destruct (flush_reinsert ([], true) sampleFile [97] [97] sampleSlot s editedData editedTags sampleSlot HF E Na)
    as (out' & s3 & bytes & s4 & E1 & W & E2 & I4 & _ & T4).
  - exact F1.
  - exact F2.
  - rewrite Im, L1, sample_len. reflexivity.
  - rewrite Tg, L2, sample_tags. reflexivity.
  - unfold Recognised. rewrite Fi. exact I.
  - rewrite Fi in T4. exists s, out', s3, bytes, s4.
    split; [exact E|]. split; [exact E1|]. split; [exact W|]. split; [exact E2|]. split; [exact I4|exact T4].
Defined.

(** ** The fast form of a DART chunk *)

Import dart.

(** [Words ws]: the words of [ws], bytes in pairs; [Repeat n a b]: [n] times the
    word [a], [b]. *)
Inductive run := Words (ws : list (Z * Z)) | Repeat (n : nat) (a b : Z).

Definition flat (ws : list (Z * Z)) : list Z := flat_map (fun w => [fst w; snd w]) ws.

Definition meaning (r : run) : list Z :=
  match r with Words ws => flat ws | Repeat n a b => flat (replicate n (a, b)) end.

(** A count is one big-endian word; that of a repetition is negative. *)
Definition word (v : Z) : list Z := [u8 (v .>> 8); u8 v].
Definition code (r : run) : list Z :=
  match r with
  | Words ws => word (len ws) ++ flat ws
  | Repeat n a b => word (u16 (- Z.of_nat n)) ++ [a; b]
  end.

Definition Run (r : run) : Prop :=
  match r with
  | Words ws => 1 <= len ws <= 32767
  | Repeat n a b => 1 <= Z.of_nat n <= 32768
  end.

Lemma len_flat ws : len (flat ws) = 2 * len ws.
Proof. unfold len, flat. induction ws; cbn in *; lia. Qed.

Lemma be16_word pre v post : 0 <= v < 65536 -> be16 (pre ++ word v ++ post) (len pre) = Some v.
Proof.
  intros Hv. unfold be16, word.
  rewrite (rd_app_r pre _ (len pre)), (rd_app_r pre _ (len pre + 1)), Z.sub_diag by lia.
  replace (len pre + 1 - len pre) with 1 by lia.
  change (rd _ 0) with (Some (u8 (v .>> 8))). change (rd _ 1) with (Some (u8 v)). bnd. f_equal.
  rewrite shiftl_lor_low by (try apply u8_range; lia). unfold u16, u8. rewrite Z.shiftr_div_pow2 by lia.
  change (2 ^ 8) with 256. pose proof (Z.div_mod v 256 ltac:(done)).
  rewrite (Z.mod_small (v / 256)) by (split; [apply Z.div_pos; lia|apply Z.div_lt_upper_bound; lia]).
  rewrite Z.mod_small; lia.
Qed.

Lemma store_mid {A} (a : list A) x b v : store (a ++ x :: b) (len a) v = Some (a ++ v :: b).
Proof.
  pose proof (len_nonneg a). pose proof (len_nonneg b).
  rewrite store_ok by (rewrite len_app, len_cons; lia). f_equal. unfold wr.
  rewrite insert_app_r_alt by (unfold len; lia). unfold len. by rewrite Nat2Z.id, Nat.sub_diag.
Qed.

Lemma fillPairs_flat n : forall raw read a b done blk tail, rd raw read = Some a -> rd raw (read + 1) = Some b ->
  len blk = 2 * Z.of_nat n ->
  fillPairs n raw read (done ++ blk ++ tail) (len done) = Some (done ++ flat (replicate n (a, b)) ++ tail).
Proof.
  induction n as [|n IH]; intros raw read a b done blk tail Ea Eb Hb; cbn [fillPairs].
  { by rewrite (len_nil_inv blk). }
  destruct blk as [|x [|y blk]]; [unfold len in Hb; cbn in Hb; lia..|].
  rewrite !len_cons in Hb. rewrite Ea. bnd. cbn [app]. rewrite store_mid. bnd. rewrite Eb. bnd.
  change (done ++ a :: y :: blk ++ tail) with (done ++ [a] ++ y :: blk ++ tail). rewrite app_assoc.
  replace (len done + 1) with (len (done ++ [a])) by (rewrite len_app; done). rewrite store_mid. bnd.
  change ((done ++ [a]) ++ b :: blk ++ tail) with ((done ++ [a]) ++ [b] ++ blk ++ tail). rewrite app_assoc.
  replace (len done + 2) with (len ((done ++ [a]) ++ [b])) by (rewrite !len_app; cbn; unfold len; cbn; lia).
  rewrite (IH raw read a b) by (done || lia). by rewrite <- !app_assoc.
Qed.

(** One run: what it stands for is put behind what is there. *)
Lemma rleLoop_run fuel r pre rest post filled room tail stop : Run r ->
  let raw := pre ++ code r ++ rest ++ post in
  small raw -> stop = len (pre ++ code r ++ rest) -> len room = len (meaning r) ->
  len (filled ++ room ++ tail) < 18446744073709551616 ->
  rleLoop (S fuel) raw stop (len pre) (len filled) (filled ++ room ++ tail) =
  rleLoop fuel raw stop (len (pre ++ code r)) (len (filled ++ meaning r)) ((filled ++ meaning r) ++ tail).
Proof.
  intros HR raw Hs -> Hm Hl. unfold raw in *. rewrite !len_app in Hs |- *. rewrite !len_app in Hl.
  pose proof (len_nonneg pre). pose proof (len_nonneg rest). pose proof (len_nonneg post).
  pose proof (len_nonneg filled). pose proof (len_nonneg tail). rewrite <- app_assoc.
  destruct r as [ws|n a b]; cbn [Run code meaning rleLoop] in *; rewrite !len_app in *; rewrite ?len_flat in *;
    change (len (word _)) with 2 in *.
  - rewrite (proj2 (Z.ltb_lt _ _)), !u64_small, (proj2 (Z.ltb_ge _ 2)) by lia.
    rewrite <- app_assoc, be16_word by lia. bnd.
    rewrite (proj2 (Z.ltb_lt (len ws) 0x8000)), (proj2 (Z.ltb_ge (len ws) 0)), (proj2 (Z.eqb_neq _ _)) by lia.
    cbn [orb]. rewrite !(proj2 (Z.ltb_ge _ (len ws * 2))), (proj2 (Z.ltb_lt 0 _)) by lia.
    assert (Es : slice (pre ++ word (len ws) ++ flat ws ++ rest ++ post) (len pre + 2) (len ws * 2) = Some (flat ws)).
    { rewrite app_assoc. apply slice_app; [by rewrite len_app|rewrite len_flat; lia]. }
    rewrite Es. bnd. rewrite copyTo_app by (done || rewrite len_flat; lia). bnd.
    f_equal; lia.
  - change (len [a; b]) with 2 in *. set (c := u16 (- Z.of_nat n)).
    assert (Hc : c = 65536 - Z.of_nat n).
    { unfold c, u16. rewrite <- (Z.mod_small (65536 - Z.of_nat n) 65536) by lia.
      rewrite <- (Z.mod_add (- Z.of_nat n) 1 65536) by lia. f_equal. lia. }
    clearbody c. rewrite length_replicate_len in *.
    rewrite (proj2 (Z.ltb_lt _ _)), !u64_small, (proj2 (Z.ltb_ge _ 2)) by lia.
    rewrite <- app_assoc, be16_word by lia. bnd. subst c.
    rewrite (proj2 (Z.ltb_ge (65536 - Z.of_nat n) 0x8000)) by lia.
    replace (65536 - Z.of_nat n - 65536) with (- Z.of_nat n) by lia.
    rewrite (proj2 (Z.ltb_lt (- Z.of_nat n) 0)), (proj2 (Z.eqb_neq _ _)), Z.opp_involutive by lia.
    cbn [orb]. rewrite (proj2 (Z.ltb_ge _ (Z.of_nat n * 2))), (proj2 (Z.ltb_ge 0 _)), (proj2 (Z.ltb_ge _ 2)) by lia.
    rewrite Z.div_mul, Nat2Z.id by lia.
    set (w := word _). assert (Lw : len w = 2) by done. clearbody w.
    rewrite (fillPairs_flat n _ _ a b filled room tail).
    + bnd. f_equal; lia.
    + rewrite !rd_app_r by lia. rewrite Lw. replace (len pre + 2 - len pre - 2) with 0 by lia. done.
    + rewrite !rd_app_r by lia. rewrite Lw. replace (len pre + 2 + 1 - len pre - 2) with 1 by lia. done.
    + lia.
Qed.

Definition codes (rs : list run) : list Z := flat_map code rs.
Definition meanings (rs : list run) : list Z := flat_map meaning rs.

Lemma code_len r : 0 < len (code r).
Proof.
  destruct r as [ws|n a b]; cbn [code]; rewrite len_app; change (len (word _)) with 2; [|done].
  pose proof (len_nonneg (flat ws)). lia.
Qed.

(** All the runs of a chunk, the block filled up to [filled]. *)
Lemma rleLoop_runs rs : forall fuel pre post filled room, Forall Run rs ->
  let raw := pre ++ codes rs ++ post in
  small raw -> len room = len (meanings rs) -> len (filled ++ room) < 18446744073709551616 ->
  (length rs <= fuel)%nat ->
  rleLoop fuel raw (len (pre ++ codes rs)) (len pre) (len filled) (filled ++ room) =
  Some (Some (filled ++ meanings rs)).
Proof.
  induction rs as [|r rs IH]; intros fuel pre post filled room HR raw Hs Hm Hl Hf.
  { cbn in Hm. rewrite (len_nil_inv room Hm) in *. unfold raw. cbn [codes flat_map meanings]. rewrite !app_nil_r.
    destruct fuel; cbn [rleLoop]; rewrite Z.ltb_irrefl, Z.eqb_refl; done. }
  destruct fuel as [|fuel]; [cbn in Hf; lia|]. apply Forall_cons_1 in HR as [Hr HR]. unfold raw in *.
  cbn [codes meanings flat_map] in *. fold (codes rs) (meanings rs) in *. rewrite len_app in Hm.
  set (n := Z.to_nat (len (meaning r))).
  assert (Er : room = take n room ++ drop n room) by (by rewrite take_drop).
  assert (L1 : len (take n room) = len (meaning r))
    by (apply len_take; pose proof (len_nonneg (meanings rs)); pose proof (len_nonneg (meaning r)); lia).
  assert (L2 : len (drop n room) = len (meanings rs))
    by (unfold n; rewrite len_drop; pose proof (len_nonneg (meanings rs)); pose proof (len_nonneg (meaning r)); lia).
  rewrite Er in Hl |- *. rewrite <- app_assoc in Hs |- *.
  rewrite (rleLoop_run fuel r pre (codes rs) post filled (take n room) (drop n room)) by done.
  rewrite app_assoc in Hs. rewrite !app_assoc. rewrite <- (app_assoc (pre ++ code r)). apply IH; [done|by rewrite <- app_assoc in Hs |- *|done| |cbn in Hf; lia].
  rewrite !len_app in *. lia.
Qed.

(** A chunk in the fast form of a DART archive decodes to what it stands
    for.  For every sequence of runs (words as they are, at most 32767, or a
    word repeated at most 32768 times) that fills the 20960 bytes of a chunk,
    wherever its words stand in the file, the decoder gives exactly these
    bytes. *)
Theorem rle_decodes rs pre post : Forall Run rs -> len (meanings rs) = 20960 ->
  small (pre ++ codes rs ++ post) ->
  decodeChunk (pre ++ codes rs ++ post) 0 (len pre) (len (codes rs)) false = Some (Some (meanings rs)).
Proof.
  intros HR HM Hs. unfold decodeChunk. cbn [Z.eqb]. destruct DartSafe.block0 as [B0 _].
  generalize dependent (replicate (Z.to_nat DartLzh.kChunk) 0). intros zero B0.
  rewrite <- len_app. apply (rleLoop_runs rs _ pre post [] zero); [done|done|lia|cbn [app]; lia|].
  rewrite !length_app. transitivity (length (codes rs)); [|lia].
  clear. induction rs as [|r rs IH]; [done|]. cbn [codes flat_map length]. fold (codes rs).
  rewrite length_app. pose proof (code_len r). unfold len in *. lia.
Qed.

(** Words as they are, then one word for the rest of the chunk. *)
Lemma rle_decodes_witness :
  let rs := [Words (replicate 480 (1, 2)); Repeat 10000 0 0] in
  decodeChunk ([0; 1] ++ codes rs ++ [9]) 0 (len [0; 1]) (len (codes rs)) false = Some (Some (meanings rs)).
Proof.
  intros rs.
  assert (HM : len (meanings rs) = 20960).
  { unfold rs, meanings. cbn [flat_map meaning]. rewrite !len_app, !len_flat, !length_replicate_len. reflexivity. }
  assert (HC : len (codes rs) = 966).
  { unfold rs, codes. cbn [flat_map code]. rewrite !len_app, len_flat, length_replicate_len. reflexivity. }
  apply (rle_decodes rs [0; 1] [9]); [|exact HM|].
  - constructor; [cbn [Run]; rewrite length_replicate_len; lia|]. constructor; [|constructor].
    cbn [Run]. vm_compute. split; discriminate.
  - rewrite !len_app, HC. reflexivity.
Defined.
