(* ===== verification/Ncr5380.v ===== *)
(** * Ncr5380: the SCSI controller and the devices it talks to

    [src/Ncr5380.h], [src/Ncr5380.cpp] and [src/ScsiAgentMailbox.h]; the
    interface [src/ScsiTarget.h] is a class.  Targets are objects the machine
    owns and the controller points to: they live in one list ([units_]), a
    pointer is a position in it, and the same object may be attached at two
    IDs.  [None] is what the controller must never do: follow a pointer that
    leads nowhere, or hand a target a command block shorter than its operation
    code says -- the targets answer that with an error, and their bodies index
    the block.  The two debug callbacks are left out. *)

From S2P Require Import Prelude Vectors SaveState.
From stdpp Require Import base list numbers option decidable.

Open Scope Z_scope.

(** ** The interface of a target *)

Class ScsiTarget (T : Type) := {
  present : T -> bool;
  selectLun : Z -> T -> T;
  (** the bytes for DATA IN, the status, the target after it *)
  targetCommand : list Z -> list Z -> T -> list Z * Z * T;
  writeByteCount : list Z -> T -> Z;
  targetExtend : list Z -> list Z -> Z -> T -> Z
}.

Definition kNoIdentify : Z := 0xFF.

(** ** The mailbox of the guest's agent *)

Definition kPoll : Z := 0xC0.
Definition kReport : Z := 0xC1.
Definition kPayload : Z := 64.

Record Mailbox := mkMailbox {
  polls : Z;
  pending : bool;
  pendingKind : Z;
  pendingId : Z;
  lastKind : Z;
  lastId : Z;
  lastErr : Z;
  lastDrive : Z;
  lastText : list Z;
  reported : bool;
  seq_ : Z
}.

#[export] Instance eta_mailbox : Eta Mailbox := fun s =>
  mkMailbox (polls s) (pending s) (pendingKind s) (pendingId s) (lastKind s) (lastId s) (lastErr s)
    (lastDrive s) (lastText s) (reported s) (seq_ s).
Definition set_polls := ltac:(set_field polls).
Definition set_pending := ltac:(set_field pending).
Definition set_pendingKind := ltac:(set_field pendingKind).
Definition set_pendingId := ltac:(set_field pendingId).
Definition set_lastKind := ltac:(set_field lastKind).
Definition set_lastId := ltac:(set_field lastId).
Definition set_lastErr := ltac:(set_field lastErr).
Definition set_lastDrive := ltac:(set_field lastDrive).
Definition set_lastText := ltac:(set_field lastText).
Definition set_reported := ltac:(set_field reported).
Definition set_seq := ltac:(set_field seq_).

Definition Mailbox0 : Mailbox := mkMailbox 0 false 0 0 0 0 0 0 [] false 0.

Definition handles (cdb : list Z) : bool :=
  match cdb with op :: _ => (6 <=? len cdb) && ((op =? kPoll) || (op =? kReport)) | [] => false end.
Definition agentByteCount (cdb : list Z) : Z :=
  match cdb with
  | op :: _ => if (6 <=? len cdb) && (op =? kReport) then default 0 (rd cdb 4) else 0
  | [] => 0
  end.

(** The host asks for something. *)
Definition post (kind id : Z) (m : Mailbox) : Mailbox :=
  let m := set_pendingId (u8 id) (set_pendingKind kind (set_pending true m)) in
  let m := set_seq (u8 (seq_ m + 1)) m in
  if seq_ m =? 0 then set_seq (u8 (seq_ m + 1)) m else m.

Definition POMA : list Z := [80; 79; 77; 65].
Definition POMR : list Z := [80; 79; 77; 82].

(** The guest asks what there is to do. *)
Definition agentPoll (cdb : list Z) (m : Mailbox) : option (list Z * Z * Mailbox) :=
  let m := set_polls (u32 (polls m + 1)) m in
  n ← rd cdb 4;
  let alloc := if n <>? 0 then n else kPayload in
  let alloc := if kPayload <? alloc then kPayload else alloc in
  let out := POMA ++ [1; if pending m then pendingKind m else 0; if pending m then pendingId m else 0;
                      if pending m then seq_ m else 0] ++ replicate 56 0 in
  Some (firstn (Z.to_nat alloc) out, 0x00, m).

(** It answers. *)
Definition agentReport (dataIn : list Z) (m : Mailbox) : option (list Z * Z * Mailbox) :=
  match dataIn with
  | p0 :: p1 :: p2 :: p3 :: _ :: d5 :: d6 :: d7 :: d8 :: d9 :: d10 :: d11 :: rest =>
      if [p0; p1; p2; p3] != POMR then Some ([], 0x02, m) else
      let m := set_lastId d6 (set_lastKind d5 (set_reported true m)) in
      let m := set_lastErr (s16 (u16 (d8 .<< 8) .| d9)) m in
      let m := set_lastDrive (u16 (d10 .<< 8) .| d11) m in
      let m := match rest with
               | [] => set_lastText [] m
               | n :: text => set_lastText (firstn (Z.to_nat n) text) m
               end in
      Some ([], 0x00, if pending m && (d7 =? seq_ m) then set_pending false m else m)
  | _ => Some ([], 0x02, m)
  end.

Definition agentCommand (cdb dataIn : list Z) (m : Mailbox) : option (list Z * Z * Mailbox) :=
  if negb (handles cdb) then Some ([], 0x02, m) else
  op ← rd cdb 0;
  if op =? kPoll then agentPoll cdb m else agentReport dataIn m.

(** ** The controller *)

Definition ICR_DBUS : Z := 0x01.
Definition ICR_ATN : Z := 0x02.
Definition ICR_SEL : Z := 0x04.
Definition ICR_BSY : Z := 0x08.
Definition ICR_ACK : Z := 0x10.
Definition ICR_AIP : Z := 0x40.
Definition ICR_RST : Z := 0x80.
Definition ICR_WRITE : Z := 0x9F.
Definition MODE_ARBITRATE : Z := 0x01.
Definition MODE_DMA : Z := 0x02.
Definition MODE_TARGET : Z := 0x40.
Definition CBS_IO : Z := 0x04.
Definition CBS_CD : Z := 0x08.
Definition CBS_MSG : Z := 0x10.
Definition CBS_REQ : Z := 0x20.
Definition CBS_BSY : Z := 0x40.
Definition CBS_RST : Z := 0x80.
Definition BSR_ACK : Z := 0x01.
Definition BSR_ATN : Z := 0x02.
Definition BSR_PHASE : Z := 0x08.
Definition BSR_IRQ : Z := 0x10.
Definition BSR_DRQ : Z := 0x40.

(** A loaded state may hold a number that is none of the enumeration's. *)
Inductive BusPhase : Set :=
| BUS_FREE | ARBITRATION | SELECTION | COMMAND | DATA_IN | DATA_OUT | STATUS | MSG_IN | MSG_OUT
| UNNAMED (n : Z).

#[export] Instance busPhase_eq : EqDecision BusPhase.
Proof. solve_decision. Defined.

Definition cdbLength (op : Z) : Z :=
  let g := op .>> 5 in
  if g =? 0 then 6 else if (g =? 1) || (g =? 2) then 10 else if g =? 5 then 12 else 6.

Section Controller.
Context {T : Type}.

Record Scsi := mkScsi {
  units_ : list T;
  agent_ : Mailbox;
  targets_ : list (option nat);
  disk_ : option nat;
  odr_ : Z;
  icr_ : Z;
  mode_ : Z;
  tcr_ : Z;
  selEnable_ : Z;
  phase_ : BusPhase;
  req_ : bool;
  reqGap_ : bool;
  irq_ : bool;
  cmd_ : list Z;
  dataIn_ : list Z;
  dataOut_ : list Z;
  dataPos_ : Z;
  dataOutExpected_ : Z;
  cmdLen_ : Z;
  status_ : Z;
  reads : Z;
  writes : Z;
  selects : Z;
  commands : Z;
  dmaBytes : Z;
  lastCmd : Z
}.

#[export] Instance eta_scsi : Eta Scsi := fun s =>
  mkScsi (units_ s) (agent_ s) (targets_ s) (disk_ s) (odr_ s) (icr_ s) (mode_ s) (tcr_ s) (selEnable_ s)
    (phase_ s) (req_ s) (reqGap_ s) (irq_ s) (cmd_ s) (dataIn_ s) (dataOut_ s) (dataPos_ s)
    (dataOutExpected_ s) (cmdLen_ s) (status_ s) (reads s) (writes s) (selects s) (commands s)
    (dmaBytes s) (lastCmd s).

Definition set_units := ltac:(set_field units_).
Definition set_agent := ltac:(set_field agent_).
Definition set_targets := ltac:(set_field targets_).
Definition set_disk := ltac:(set_field disk_).
Definition set_odr := ltac:(set_field odr_).
Definition set_icr := ltac:(set_field icr_).
Definition set_mode := ltac:(set_field mode_).
Definition set_tcr := ltac:(set_field tcr_).
Definition set_selEnable := ltac:(set_field selEnable_).
Definition set_phase := ltac:(set_field phase_).
Definition set_req := ltac:(set_field req_).
Definition set_reqGap := ltac:(set_field reqGap_).
Definition set_irq := ltac:(set_field irq_).
Definition set_cmd := ltac:(set_field cmd_).
Definition set_dataIn := ltac:(set_field dataIn_).
Definition set_dataOut := ltac:(set_field dataOut_).
Definition set_dataPos := ltac:(set_field dataPos_).
Definition set_dataOutExpected := ltac:(set_field dataOutExpected_).
Definition set_cmdLen := ltac:(set_field cmdLen_).
Definition set_status := ltac:(set_field status_).
Definition set_reads := ltac:(set_field reads).
Definition set_writes := ltac:(set_field writes).
Definition set_selects := ltac:(set_field selects).
Definition set_commands := ltac:(set_field commands).
Definition set_dmaBytes := ltac:(set_field dmaBytes).
Definition set_lastCmd := ltac:(set_field lastCmd).

Definition newScsi (units : list T) : Scsi :=
  mkScsi units Mailbox0 (replicate 7 None) None 0 0 0 0 0 BUS_FREE false false false [] [] [] 0 0 0 0 0 0 0 0 0 0.

Definition reset (s : Scsi) : Scsi :=
  let s := set_selEnable 0 (set_tcr 0 (set_mode 0 (set_icr 0 (set_odr 0 s)))) in
  let s := set_irq false (set_reqGap false (set_req false (set_phase BUS_FREE s))) in
  let s := set_disk None s in
  set_status 0 (set_cmdLen 0 (set_dataPos 0 (set_dataIn [] (set_cmd [] s)))).

(** ** Attachment *)

Definition targetAt (id : Z) (s : Scsi) : option nat := default None (rd (targets_ s) id).

Definition attach (disk : option nat) (id : Z) (s : Scsi) : Scsi :=
  if (0 <=? id) && (id <? 7) then set_targets (wr (targets_ s) id disk) s else s.

Definition sessionOn (id : Z) (s : Scsi) : bool :=
  (0 <=? id) && (id <? 7) &&
  match targetAt id s with Some t => disk_ s == Some t | None => false end && (phase_ s != BUS_FREE).

Definition detach (id : Z) (s : Scsi) : bool * Scsi :=
  if (id <? 0) || (7 <=? id) || (targetAt id s == None) || sessionOn id s then (false, s) else
  let s := if disk_ s == targetAt id s then set_disk None s else s in
  (true, set_targets (wr (targets_ s) id None) s).

(** ** Phases *)

Definition phaseSignals (s : Scsi) : Z :=
  match phase_ s with
  | COMMAND => CBS_CD
  | DATA_IN => CBS_IO
  | DATA_OUT => 0
  | STATUS => CBS_CD .| CBS_IO
  | MSG_IN => CBS_CD .| CBS_IO .| CBS_MSG
  | MSG_OUT => CBS_CD .| CBS_MSG
  | _ => 0
  end.

Definition targetPhase (s : Scsi) : bool :=
  match phase_ s with COMMAND | DATA_IN | DATA_OUT | STATUS | MSG_IN => true | _ => false end.

Definition phaseMatch (s : Scsi) : bool :=
  targetPhase s && (phaseSignals s .& 0x1C =? ((tcr_ s .& 0x07) .<< 2) .& 0x1C).

Definition drqActive (s : Scsi) : bool :=
  if negb (has (mode_ s) MODE_DMA) then false else
  match phase_ s with
  | DATA_IN => dataPos_ s <? len (dataIn_ s)
  | DATA_OUT => len (dataOut_ s) <? dataOutExpected_ s
  | STATUS | MSG_IN | COMMAND => req_ s && (phaseMatch s || negb (has (tcr_ s) 0x01))
  | _ => false
  end.

Definition enterCommand (s : Scsi) : Scsi :=
  set_req true (set_cmdLen 0 (set_cmd [] (set_phase COMMAND (set_irq false s)))).
Definition enterBusFree (s : Scsi) : Scsi := set_req false (set_phase BUS_FREE s).
Definition enterStatus (s : Scsi) : Scsi :=
  let s := if has (mode_ s) MODE_DMA then set_irq true s else s in
  set_req true (set_dataPos 0 (set_phase STATUS s)).
Definition enterMsgIn (s : Scsi) : Scsi := set_req true (set_phase MSG_IN s).

Context `{ScsiTarget T}.

(** The selected target, for a command block it can read. *)
Definition selected (s : Scsi) : option (option (nat * T)) :=
  match disk_ s with
  | None => Some None
  | Some d =>
      match cmd_ s with
      | op :: _ => if len (cmd_ s) <? cdbLength op then None else t ← units_ s !! d; Some (Some (d, t))
      | [] => None
      end
  end.

(** [dispatch] of a payload: what goes into DATA IN, and the status. *)
Definition dispatch (payload : list Z) (s : Scsi) : option (list Z * Z * Scsi) :=
  d ← selected s;
  match d with
  | None => Some ([], 0x02, s)
  | Some (d, t) =>
      if handles (cmd_ s) then
        r ← agentCommand (cmd_ s) payload (agent_ s);
        let '(out, st, m) := r in Some (out, st, set_agent m s)
      else
        let '(out, st, t) := targetCommand (cmd_ s) payload t in
        Some (out, st, set_units (<[d := t]> (units_ s)) s)
  end.

Definition extendDataOut (s : Scsi) : option Scsi :=
  match disk_ s, cmd_ s with
  | Some _, _ :: _ =>
      if handles (cmd_ s) then Some s else
      d ← selected s;
      match d with
      | Some (_, t) => Some (set_dataOutExpected (targetExtend (cmd_ s) (dataOut_ s) (dataOutExpected_ s) t) s)
      | None => Some s
      end
  | _, _ => Some s
  end.

Definition execute (s : Scsi) : option Scsi :=
  let s := set_lastCmd (default 0 (head (cmd_ s))) (set_commands (commands s + 1) s) in
  d ← selected s;
  let wbytes := match d with
                | None => 0
                | Some (_, t) => if handles (cmd_ s) then agentByteCount (cmd_ s) else writeByteCount (cmd_ s) t
                end in
  if 0 <? wbytes then
    Some (set_req true (set_dataOutExpected wbytes (set_dataOut [] (set_phase DATA_OUT s))))
  else
    let s := set_dataPos 0 (set_dataIn [] s) in
    r ← dispatch [] s;
    let '(out, st, s) := r in
    let s := set_status st (set_dataIn out s) in
    Some (match dataIn_ s with
          | [] => enterStatus s
          | _ => set_req true (set_dataPos 0 (set_phase DATA_IN s))
          end).

Definition finishWrite (s : Scsi) : option Scsi :=
  r ← dispatch (dataOut_ s) s;
  let '(_, st, s) := r in
  Some (enterStatus (set_status st s)).

(** The IDs from [ids] on that the initiator may mean. *)
Fixpoint selectLoop (ids : list Z) (s : Scsi) : option Scsi :=
  match ids with
  | [] => Some (enterBusFree s)
  | id :: ids =>
      if (odr_ s .& 0x7F) .& (1 .<< id) =? 0 then selectLoop ids s else
      match targetAt id s with
      | None => selectLoop ids s
      | Some d =>
          t ← units_ s !! d;
          if negb (present t) then selectLoop ids s else
          let s := set_disk (Some d) s in
          let s := set_units (<[d := selectLun kNoIdentify t]> (units_ s)) s in
          Some (enterCommand s)
      end
  end.

Definition trySelect (s : Scsi) : option Scsi := selectLoop (seqZ 0 7) (set_selects (selects s + 1) s).

(** ** The handshake *)

Definition pushCommand (v : Z) (s : Scsi) : Scsi :=
  let s := set_cmd (cmd_ s ++ [v]) s in
  if len (cmd_ s) =? 1 then set_cmdLen (cdbLength v) s else s.

Definition ackRising (s : Scsi) : Scsi :=
  let s := match phase_ s with
           | COMMAND => pushCommand (odr_ s) s
           | DATA_OUT => set_dataOut (dataOut_ s ++ [odr_ s]) s
           | _ => set_dataPos (u64 (dataPos_ s + 1)) s
           end in
  set_req false s.

Definition ackFalling (s : Scsi) : option Scsi :=
  match phase_ s with
  | COMMAND =>
      if (0 <? cmdLen_ s) && (cmdLen_ s <=? len (cmd_ s)) then execute s else Some (set_req true s)
  | DATA_IN => Some (if len (dataIn_ s) <=? dataPos_ s then enterStatus s else set_req true s)
  | DATA_OUT =>
      s ← extendDataOut s;
      if dataOutExpected_ s <=? len (dataOut_ s) then finishWrite s else Some (set_req true s)
  | STATUS => Some (enterMsgIn s)
  | MSG_IN => Some (enterBusFree s)
  | _ => Some s
  end.

(** ** Registers *)

Definition liveBusStatus (s : Scsi) : Z :=
  let rst := if has (icr_ s) ICR_RST then CBS_RST else 0 in
  match phase_ s with
  | BUS_FREE => rst
  | ARBITRATION | SELECTION => rst .| CBS_BSY
  | _ =>
      let v := rst .| CBS_BSY .| phaseSignals s in
      if req_ s then v .| CBS_REQ else v
  end.

Definition busAndStatus (s : Scsi) : Z :=
  (if phaseMatch s then BSR_PHASE else 0) .| (if drqActive s then BSR_DRQ else 0) .|
  (if irq_ s then BSR_IRQ else 0) .| (if has (icr_ s) ICR_ACK then BSR_ACK else 0) .|
  (if has (icr_ s) ICR_ATN then BSR_ATN else 0).

(** The byte on the bus in DATA IN, if there is one. *)
Definition busByte (s : Scsi) : option Z :=
  match phase_ s with
  | DATA_IN => if dataPos_ s <? len (dataIn_ s) then rd (dataIn_ s) (dataPos_ s) else None
  | _ => None
  end.

Definition read (reg : Z) (s : Scsi) : Z * Scsi :=
  let s := set_reads (reads s + 1) s in
  if reg =? 0 then
    (match busByte s with
     | Some b => b
     | None => match phase_ s with STATUS => status_ s | MSG_IN => 0x00 | _ => odr_ s end
     end, s)
  else if reg =? 1 then (u8 (icr_ s .| (if phase_ s == ARBITRATION then ICR_AIP else 0)), s)
  else if reg =? 2 then (mode_ s, s)
  else if reg =? 3 then (tcr_ s, s)
  else if reg =? 4 then
    let v := liveBusStatus s in
    let s := if reqGap_ s then
               let s := set_reqGap false s in
               match phase_ s with
               | DATA_IN => if dataPos_ s <? len (dataIn_ s) then set_req true s else s
               | DATA_OUT => if len (dataOut_ s) <? dataOutExpected_ s then set_req true s else s
               | _ => s
               end
             else s in
    (v, s)
  else if reg =? 5 then (busAndStatus s, s)
  else if reg =? 6 then (default 0 (busByte s), s)
  else if reg =? 7 then (0, set_irq false s)
  else (0xFF, s).

Definition writeIcr (v : Z) (s : Scsi) : option Scsi :=
  let v := v .& ICR_WRITE in
  let old := icr_ s in
  let s := set_icr v s in
  let dif := old .^ v in
  if has v ICR_RST then
    let s := if negb (has old ICR_RST) then set_irq true (reset s) else s in
    Some (set_icr v s)
  else
    s ← (if has v ICR_SEL && negb (has v ICR_BSY) && ((phase_ s == BUS_FREE) || (phase_ s == ARBITRATION))
         then trySelect s else Some s);
    if targetPhase s then
      let s := if has (dif .& v) ICR_ACK then ackRising s else s in
      if has (Z.ldiff dif v) ICR_ACK then ackFalling s else Some s
    else Some s.

Definition writeMode (v : Z) (s : Scsi) : Scsi :=
  let old := mode_ s in
  let s := set_mode v s in
  let s := if has v MODE_ARBITRATE && (phase_ s == BUS_FREE) then set_phase ARBITRATION s else s in
  if has (Z.ldiff old v) MODE_ARBITRATE && (phase_ s == ARBITRATION) then set_phase BUS_FREE s else s.

Definition write (reg v : Z) (s : Scsi) : option Scsi :=
  let s := set_writes (writes s + 1) s in
  if reg =? 0 then Some (set_odr v s)
  else if reg =? 1 then writeIcr v s
  else if reg =? 2 then Some (writeMode v s)
  else if reg =? 3 then Some (set_tcr v s)
  else if reg =? 4 then Some (set_selEnable v s)
  else if reg =? 7 then
    Some (if has (mode_ s) MODE_DMA && negb (has (mode_ s) MODE_TARGET) then set_irq false s else s)
  else Some s.

(** ** Pseudo-DMA *)

Definition dmaRead (s : Scsi) : Z * Scsi :=
  match phase_ s with
  | DATA_IN =>
      let s := set_dmaBytes (dmaBytes s + 1) s in
      let b := default 0 (busByte s) in
      let s := set_dataPos (u64 (dataPos_ s + 1)) s in
      (b, if len (dataIn_ s) <=? dataPos_ s then enterStatus s else set_reqGap true (set_req false s))
  | STATUS => if negb (drqActive s) then (status_ s, s) else (status_ s, enterMsgIn s)
  | MSG_IN => if negb (drqActive s) then (0x00, s) else (0x00, enterBusFree s)
  | _ => (0, s)
  end.

Definition dmaWrite (v : Z) (s : Scsi) : option Scsi :=
  match phase_ s with
  | COMMAND =>
      let s := pushCommand v s in
      if (0 <? cmdLen_ s) && (cmdLen_ s <=? len (cmd_ s)) then execute s else Some s
  | DATA_OUT =>
      let s := set_dataOut (dataOut_ s ++ [v]) s in
      s ← extendDataOut s;
      if dataOutExpected_ s <=? len (dataOut_ s) then finishWrite s
      else Some (set_reqGap true (set_req false s))
  | _ => Some s
  end.

(** ** Saved states *)

Definition busPhaseNumber (p : BusPhase) : Z :=
  match p with
  | BUS_FREE => 0 | ARBITRATION => 1 | SELECTION => 2 | COMMAND => 3 | DATA_IN => 4 | DATA_OUT => 5
  | STATUS => 6 | MSG_IN => 7 | MSG_OUT => 8 | UNNAMED n => n
  end.
Definition busPhaseOf (n : Z) : BusPhase :=
  if n =? 0 then BUS_FREE else if n =? 1 then ARBITRATION else if n =? 2 then SELECTION
  else if n =? 3 then COMMAND else if n =? 4 then DATA_IN else if n =? 5 then DATA_OUT
  else if n =? 6 then STATUS else if n =? 7 then MSG_IN else if n =? 8 then MSG_OUT else UNNAMED n.

Definition busPhaseC : Codec BusPhase :=
  mkCodec (fun p => put (intC 4 false) (busPhaseNumber p))
    (fun p r => x ← get (intC 4 false) (busPhaseNumber p) r; let (n, r) := x : Z * Reader in Some (busPhaseOf n, r)).

(** The selected device travels as the first ID it is attached at, [-1] for none. *)
Definition sel (s : Scsi) : Z :=
  default (-1) (head (filter (fun i => disk_ s <> None /\ targetAt i s = disk_ s) (seqZ 0 7))).
Definition setSel (i : Z) (s : Scsi) : Scsi :=
  set_disk (if (0 <=? i) && (i <? 7) then targetAt i s else None) s.

Definition scsiC : Codec Scsi :=
  let u8C := intC 1 false in let longC := intC 8 true in let bytesC := seqC u8C 0 in
  visitC [
    mkField u8C odr_ set_odr; mkField u8C icr_ set_icr; mkField u8C mode_ set_mode; mkField u8C tcr_ set_tcr;
    mkField u8C selEnable_ set_selEnable; mkField busPhaseC phase_ set_phase; mkField boolC req_ set_req;
    mkField boolC reqGap_ set_reqGap; mkField boolC irq_ set_irq; mkField bytesC cmd_ set_cmd; mkField bytesC dataIn_ set_dataIn;
    mkField bytesC dataOut_ set_dataOut; mkField (intC 8 false) dataPos_ set_dataPos;
    mkField (intC 8 false) dataOutExpected_ set_dataOutExpected; mkField (intC 4 true) cmdLen_ set_cmdLen;
    mkField u8C status_ set_status; mkField longC reads set_reads; mkField longC writes set_writes;
    mkField longC selects set_selects; mkField longC commands set_commands; mkField longC dmaBytes set_dmaBytes;
    mkField u8C lastCmd set_lastCmd; mkField (intC 1 true) sel setSel].
End Controller.
Arguments Scsi T : clear implicits.
