(* ===== verification/Ncr5380Facts.v ===== *)
(** * Ncr5380Facts: what the SCSI controller promises

    Any sequence of register accesses, pseudo-DMA transfers, attachments and
    detachments is safe; an initiator that follows the phases carries out a
    command exactly once, with the bytes it sent and the bytes the target
    answered, by handshake or by pseudo-DMA alike. *)

From S2P Require Import Prelude Vectors Ncr5380.
From stdpp Require Import base list numbers option decidable.

Open Scope Z_scope.

(** ** Safety *)

Section Safety.
Context {T : Type} `{ScsiTarget T} (n : nat).
Implicit Types s : Scsi T.

(** A command block as long as its operation code says. *)
Definition FullBlock (cdb : list Z) : Prop := exists op rest, cdb = op :: rest /\ cdbLength op <= len cdb.

(** [n] targets exist, every pointer leads to one; a session has its target, a
    command block being gathered has the length its operation code gives it. *)
Record Inv s : Prop := {
  iv_units : length (units_ s) = n;
  iv_ids : length (targets_ s) = 7%nat;
  iv_targets : forall id d, rd (targets_ s) id = Some (Some d) -> (d < n)%nat;
  iv_disk : forall d, disk_ s = Some d -> (d < n)%nat;
  iv_phase : phase_ s <> SELECTION /\ phase_ s <> MSG_OUT;
  iv_session : targetPhase s = true -> disk_ s <> None;
  iv_command : phase_ s = COMMAND ->
    (cmd_ s = [] /\ cmdLen_ s = 0) \/ (exists op rest, cmd_ s = op :: rest /\ cmdLen_ s = cdbLength op);
  iv_block : phase_ s = DATA_OUT -> FullBlock (cmd_ s)
}.

(** Only the targets and the mailbox differ, and no target is gone. *)
Definition Ran s s' : Prop :=
  exists u m, s' = set_units u (set_agent m s) /\ length u = length (units_ s).

Lemma agentCommand_total cdb payload m : handles cdb = true -> exists r, agentCommand cdb payload m = Some r.
Proof.
  intros Hh. unfold agentCommand. rewrite Hh. cbn [negb]. unfold handles in Hh. destruct cdb as [|op cdb]; [done|].
  apply andb_true_iff in Hh as [Hl _]. apply Z.leb_le in Hl. cbn [rd]. change (rd (op :: cdb) 0) with (Some op). bnd.
  destruct (op =? kPoll).
  - unfold agentPoll. destruct (rd_Some (op :: cdb) 4) as [x ->]; [unfold len in Hl; lia|]. bnd. eauto.
  - unfold agentReport. repeat case_match; eauto.
Qed.

Lemma selected_ok s d : disk_ s = Some d -> (d < length (units_ s))%nat -> FullBlock (cmd_ s) ->
  exists t, units_ s !! d = Some t /\ selected s = Some (Some (d, t)).
Proof.
  intros Ed Hd (op & rest & Ec & Hl). destruct (lookup_lt_is_Some_2 _ _ Hd) as [t Et]. exists t. split; [done|].
  unfold selected. rewrite Ed, Ec in *. rewrite (proj2 (Z.ltb_ge _ _)) by done. by rewrite Et.
Qed.

Lemma dispatch_ok payload s : FullBlock (cmd_ s) -> (forall d, disk_ s = Some d -> (d < length (units_ s))%nat) ->
  exists out st s', dispatch payload s = Some (out, st, s') /\ Ran s s'.
Proof.
  intros HB Hd. assert (Same : Ran s s) by (exists (units_ s), (agent_ s); by destruct s).
  unfold dispatch. destruct (disk_ s) as [d|] eqn:Ed.
  2: { unfold selected. rewrite Ed. bnd. eauto. }
  destruct (selected_ok s d Ed (Hd d eq_refl) HB) as (t & Et & ->). bnd. destruct (handles (cmd_ s)) eqn:Hh.
  - destruct (agentCommand_total (cmd_ s) payload (agent_ s) Hh) as [[[out st] m] ->]. bnd. do 3 eexists. split; [done|].
    exists (units_ s), m. by destruct s.
  - destruct (targetCommand (cmd_ s) payload t) as [[out st] t']. do 3 eexists. split; [done|].
    exists (<[d := t']> (units_ s)), (agent_ s). split; [by destruct s|]. by rewrite length_insert.
Qed.

(** The fields of a state that the invariant of a session needs. *)
Lemma settled s s' : Inv s -> length (units_ s') = length (units_ s) -> targets_ s' = targets_ s -> disk_ s' = disk_ s ->
  phase_ s' <> SELECTION /\ phase_ s' <> MSG_OUT -> (targetPhase s' = true -> disk_ s <> None) ->
  (phase_ s' = COMMAND -> (cmd_ s' = [] /\ cmdLen_ s' = 0) \/ (exists op rest, cmd_ s' = op :: rest /\ cmdLen_ s' = cdbLength op)) ->
  (phase_ s' = DATA_OUT -> FullBlock (cmd_ s')) -> Inv s'.
Proof.
  intros [H0 H1 H2 H3 H4 H5 H6 H7] E1 E2 E3 P S C B. split; rewrite ?E1, ?E2, ?E3; auto.
Qed.

Lemma disk_lt s : Inv s -> forall d, disk_ s = Some d -> (d < length (units_ s))%nat.
Proof. intros HI. rewrite (iv_units s HI). apply (iv_disk s HI). Qed.

Lemma execute_ok s : Inv s -> FullBlock (cmd_ s) -> disk_ s <> None -> exists s', execute s = Some s' /\ Inv s'.
Proof.
  intros HI HB HD. unfold execute. set (s1 := set_lastCmd _ _).
  assert (E1 : disk_ s1 = disk_ s /\ units_ s1 = units_ s /\ cmd_ s1 = cmd_ s /\ targets_ s1 = targets_ s) by done.
  destruct E1 as (E1 & E2 & E3 & E4). destruct (disk_ s) as [d|] eqn:Ed; [|done].
  assert (Hd : (d < length (units_ s1))%nat) by (rewrite E2, (iv_units s HI); by apply (iv_disk s HI)).
  destruct (selected_ok s1 d E1 Hd ltac:(by rewrite E3)) as (t & Et & Es). rewrite Es. bnd.
  destruct (0 <? _).
  { eexists. split; [done|]. apply (settled s); cbn; try done; congruence. }
  set (s2 := set_dataPos 0 (set_dataIn [] s1)).
  destruct (dispatch_ok [] s2) as (out & st & s3 & -> & u & m & -> & Lu); [exact HB|exact (disk_lt s HI)|]. bnd.
  eexists. split; [done|]. unfold enterStatus. repeat case_match; apply (settled s); cbn; try done; congruence.
Qed.

Lemma finishWrite_ok s : Inv s -> FullBlock (cmd_ s) -> disk_ s <> None -> exists s', finishWrite s = Some s' /\ Inv s'.
Proof.
  intros HI HB HD. unfold finishWrite.
  destruct (dispatch_ok (dataOut_ s) s HB (disk_lt s HI)) as (out & st & s1 & -> & u & m & -> & Lu). bnd.
  eexists. split; [done|]. unfold enterStatus. case_match; apply (settled s); cbn; try done.
Qed.

Lemma extendDataOut_ok s : Inv s -> FullBlock (cmd_ s) -> exists k, extendDataOut s = Some (set_dataOutExpected k s).
Proof.
  intros HI HB. assert (Same : s = set_dataOutExpected (dataOutExpected_ s) s) by (by destruct s).
  unfold extendDataOut. destruct (disk_ s) as [d|] eqn:Ed; [|by eexists; f_equal].
  destruct (HB) as (op & rest & Ec & _). rewrite Ec. destruct (handles (op :: rest)); [by eexists; f_equal|].
  destruct (selected_ok s d Ed (disk_lt s HI d Ed) HB) as (t & Et & ->). bnd. eauto.
Qed.

(** The end of a byte of DATA OUT. *)
Lemma gather_ok s (k : Scsi T -> Scsi T) : Inv s -> phase_ s = DATA_OUT -> (forall x, Inv (k (set_dataOutExpected x s))) ->
  exists s', (s1 ← extendDataOut s; if dataOutExpected_ s1 <=? len (dataOut_ s1) then finishWrite s1 else Some (k s1)) = Some s' /\ Inv s'.
Proof.
  intros HI Hp HK. pose proof (iv_block s HI Hp) as HB. destruct (extendDataOut_ok s HI HB) as [x ->]. bnd.
  assert (HI' : Inv (set_dataOutExpected x s)) by (apply (settled s); try done; apply HI).
  destruct (_ <=? _); [|eauto]. apply finishWrite_ok; [done|done|]. apply (iv_session s HI). unfold targetPhase. by rewrite Hp.
Qed.

Lemma inv_command s s' op rest : Inv s -> phase_ s = COMMAND -> units_ s' = units_ s -> targets_ s' = targets_ s ->
  disk_ s' = disk_ s -> phase_ s' = COMMAND -> cmd_ s' = op :: rest -> cmdLen_ s' = cdbLength op -> Inv s'.
Proof.
  intros HI Hp E1 E2 E3 E4 E5 E6. pose proof (iv_session s HI) as Hs. unfold targetPhase in Hs. rewrite Hp in Hs.
  apply (settled s); try done; rewrite ?E1, ?E4; try done; auto. intros _. right. by exists op, rest.
Qed.

Lemma pushCommand_ok v s : Inv s -> phase_ s = COMMAND -> Inv (pushCommand v s).
Proof.
  intros HI Hp. unfold pushCommand. cbn [cmd_ set_cmd].
  destruct (iv_command s HI Hp) as [[Ec El]|(op & rest & Ec & El)]; rewrite Ec.
  - change (len ([] ++ [v]) =? 1) with true. cbn iota. by apply (inv_command s _ v []).
  - replace (len ((op :: rest) ++ [v]) =? 1) with false.
    2: { symmetry. apply Z.eqb_neq. rewrite len_app, len_cons. pose proof (len_nonneg rest). change (len [v]) with 1. lia. }
    by apply (inv_command s _ op (rest ++ [v])).
Qed.

Lemma complete_block s : Inv s -> phase_ s = COMMAND -> (0 <? cmdLen_ s) && (cmdLen_ s <=? len (cmd_ s)) = true -> FullBlock (cmd_ s).
Proof.
  intros HI Hp E. apply andb_true_iff in E as [E1 E2]. apply Z.ltb_lt in E1. apply Z.leb_le in E2.
  destruct (iv_command s HI Hp) as [[_ El]|(op & rest & Ec & El)]; [lia|]. exists op, rest. split; [done|lia].
Qed.

Lemma maybe_execute s (k : Scsi T) : Inv s -> phase_ s = COMMAND -> Inv k ->
  exists s', (if (0 <? cmdLen_ s) && (cmdLen_ s <=? len (cmd_ s)) then execute s else Some k) = Some s' /\ Inv s'.
Proof.
  intros HI Hp HK. destruct (_ && _) eqn:E; [|eauto]. apply execute_ok; [done|by apply complete_block|].
  apply (iv_session s HI). unfold targetPhase. by rewrite Hp.
Qed.

(** A change of fields the invariant does not name. *)
Lemma inv_same s s' : Inv s -> units_ s' = units_ s -> targets_ s' = targets_ s -> disk_ s' = disk_ s ->
  phase_ s' = phase_ s -> cmd_ s' = cmd_ s -> cmdLen_ s' = cmdLen_ s -> Inv s'.
Proof.
  intros HI E1 E2 E3 E4 E5 E6. apply (settled s); try done; rewrite ?E1, ?E4, ?E5, ?E6; try done; try apply HI.
  unfold targetPhase. rewrite E4. apply (iv_session s HI).
Qed.

(** Leaving a session, or moving on inside it. *)
Lemma inv_phase s s' : Inv s -> units_ s' = units_ s -> targets_ s' = targets_ s -> disk_ s' = disk_ s ->
  (phase_ s' = BUS_FREE \/ phase_ s' = ARBITRATION \/ targetPhase s = true /\ (phase_ s' = STATUS \/ phase_ s' = MSG_IN)) ->
  Inv s'.
Proof.
  intros HI E1 E2 E3 HP. pose proof (iv_session s HI).
  apply (settled s); try done; rewrite ?E1; try done; unfold targetPhase in *; destruct HP as [->|[->|[? [->| ->]]]]; auto; done.
Qed.

Lemma ackRising_ok s : Inv s -> Inv (ackRising s).
Proof.
  intros HI. unfold ackRising. destruct (phase_ s) eqn:Hp; try (by apply (inv_same s)).
  pose proof (pushCommand_ok (odr_ s) s HI Hp) as HP. by apply (inv_same _ _ HP).
Qed.

Lemma ackFalling_ok s : Inv s -> exists s', ackFalling s = Some s' /\ Inv s'.
Proof.
  intros HI. unfold ackFalling. destruct (phase_ s) eqn:Hp; try (by eauto).
  - apply maybe_execute; [done|done|]. by apply (inv_same s).
  - eexists. split; [done|]. case_match; [|by apply (inv_same s)]. unfold enterStatus.
    case_match; (apply (inv_phase s); try done; right; right; unfold targetPhase; rewrite Hp; auto).
  - apply gather_ok; [done|done|]. intros x. by apply (inv_same s).
  - eexists. split; [done|]. apply (inv_phase s); try done. right. right. unfold targetPhase. rewrite Hp. auto.
  - eexists. split; [done|]. apply (inv_phase s); try done. by left.
Qed.

Lemma targetAt_lt id d s : Inv s -> targetAt id s = Some d -> (d < length (units_ s))%nat.
Proof.
  intros HI E. rewrite (iv_units s HI). apply (iv_targets s HI id). unfold targetAt in E. destruct (rd (targets_ s) id) as [[x|]|]; cbn in E; congruence.
Qed.

Lemma trySelect_ok s : Inv s -> exists s', trySelect s = Some s' /\ Inv s'.
Proof.
  intros HI. unfold trySelect. assert (HI' : Inv (set_selects (selects s + 1) s)) by (by apply (inv_same s)).
  revert HI'. generalize (set_selects (selects s + 1) s). clear s HI. intros s HI.
  generalize (seqZ 0 7). induction l as [|id l IH]; cbn [selectLoop].
  { eexists. split; [done|]. apply (inv_phase s); try done. by left. }
  destruct (_ =? 0); [exact IH|]. destruct (targetAt id s) as [d|] eqn:Et; [|exact IH].
  pose proof (targetAt_lt id d s HI Et) as Hd. destruct (lookup_lt_is_Some_2 _ _ Hd) as [t ->]. bnd.
  destruct (present t); cbn [negb]; [|exact IH]. eexists. split; [done|]. rewrite (iv_units s HI) in Hd.
  destruct HI as [H0 H1 H2 H3 H4 H5 H6 H7]. split; cbn; try done; rewrite ?length_insert; auto. by intros d' [= <-].
Qed.

Lemma reset_ok s : Inv s -> Inv (reset s).
Proof. intros [H0 H1 H2 H3 H4 H5 H6 H7]. by split. Qed.

Lemma set_icr_ok v s : Inv s -> Inv (set_icr v s).
Proof. intros HI. by apply (inv_same s). Qed.
Lemma set_irq_ok b s : Inv s -> Inv (set_irq b s).
Proof. intros HI. by apply (inv_same s). Qed.

Lemma writeIcr_ok v s : Inv s -> exists s', writeIcr v s = Some s' /\ Inv s'.
Proof.
  intros HI. unfold writeIcr. generalize (v .& ICR_WRITE). clear v. intros v. pose proof (set_icr_ok v s HI) as H1.
  revert H1. generalize (icr_ s). generalize (set_icr v s). clear s HI. intros s old HI.
  destruct (has v ICR_RST).
  { eexists. split; [done|]. apply set_icr_ok. destruct (negb _); [by apply set_irq_ok, reset_ok|done]. }
  assert (H2 : exists s2, (if has v ICR_SEL && negb (has v ICR_BSY) && ((phase_ s == BUS_FREE) || (phase_ s == ARBITRATION))
    then trySelect s else Some s) = Some s2 /\ Inv s2) by (destruct (_ && _); [by apply trySelect_ok|eauto]).
  destruct H2 as (s2 & -> & H2). bnd. destruct (targetPhase s2); [|eauto].
  assert (H3 : Inv (if has ((old .^ v) .& v) ICR_ACK then ackRising s2 else s2))
    by (destruct (has _ _); [by apply ackRising_ok|done]).
  destruct (has (Z.ldiff _ _) _); [by apply ackFalling_ok|eauto].
Qed.

Lemma writeMode_ok v s : Inv s -> Inv (writeMode v s).
Proof.
  intros HI. unfold writeMode. set (s1 := set_mode v s). assert (H1 : Inv s1) by (by apply (inv_same s)).
  assert (H2 : Inv (if has v MODE_ARBITRATE && (phase_ s1 == BUS_FREE) then set_phase ARBITRATION s1 else s1)).
  { destruct (_ && _); [|done]. apply (inv_phase s1); try done. right. by left. }
  revert H2. generalize (if has v MODE_ARBITRATE && (phase_ s1 == BUS_FREE) then set_phase ARBITRATION s1 else s1).
  intros s2 H2. destruct (_ && _); [|done]. apply (inv_phase s2); try done. by left.
Qed.

Lemma scsiWrite_ok reg v s : Inv s -> exists s', write reg v s = Some s' /\ Inv s'.
Proof.
  intros HI. unfold write. assert (H1 : Inv (set_writes (writes s + 1) s)) by (by apply (inv_same s)).
  revert H1. generalize (set_writes (writes s + 1) s). intros s1 H1.
  destruct (reg =? 0); [eexists; split; [done|by apply (inv_same s1)]|].
  destruct (reg =? 1); [by apply writeIcr_ok|].
  destruct (reg =? 2); [eexists; split; [done|by apply writeMode_ok]|].
  destruct (reg =? 3); [eexists; split; [done|by apply (inv_same s1)]|].
  destruct (reg =? 4); [eexists; split; [done|by apply (inv_same s1)]|].
  destruct (reg =? 7); [|by eauto]. eexists. split; [done|]. destruct (_ && _); [by apply (inv_same s1)|done].
Qed.

Lemma scsiRead_ok reg s : Inv s -> Inv (read reg s).2.
Proof.
  intros HI. unfold read. assert (H1 : Inv (set_reads (reads s + 1) s)) by (by apply (inv_same s)).
  revert H1. generalize (set_reads (reads s + 1) s). intros s1 H1.
  destruct (reg =? 0); [done|]. destruct (reg =? 1); [done|]. destruct (reg =? 2); [done|]. destruct (reg =? 3); [done|].
  destruct (reg =? 4).
  { cbn [snd]. destruct (reqGap_ s1); [|done]. destruct (phase_ _); try (by apply (inv_same s1)); destruct (_ <? _); by apply (inv_same s1). }
  destruct (reg =? 5); [done|]. destruct (reg =? 6); [done|]. destruct (reg =? 7); [|done]. by apply (inv_same s1).
Qed.

Lemma dmaRead_ok s : Inv s -> Inv (dmaRead s).2.
Proof.
  intros HI. unfold dmaRead. destruct (phase_ s) eqn:Hp; cbn [snd]; try done.
  - case_match; [|by apply (inv_same s)]. unfold enterStatus.
    case_match; (apply (inv_phase s); try done; right; right; unfold targetPhase; rewrite Hp; auto).
  - case_match; [done|]. apply (inv_phase s); try done. right. right. unfold targetPhase. rewrite Hp. auto.
  - case_match; [done|]. apply (inv_phase s); try done. by left.
Qed.

Lemma dmaWrite_ok v s : Inv s -> exists s', dmaWrite v s = Some s' /\ Inv s'.
Proof.
  intros HI. unfold dmaWrite. destruct (phase_ s) eqn:Hp; try (by eauto).
  - pose proof (pushCommand_ok v s HI Hp) as HP. apply maybe_execute; try done.
    unfold pushCommand. case_match; exact Hp.
  - set (s1 := set_dataOut _ s). assert (H1 : Inv s1) by (by apply (inv_same s)).
    apply (gather_ok s1 (fun s => set_reqGap true (set_req false s))); [done|done|]. intros x. by apply (inv_same s1).
Qed.

(** ** Attachment *)

Lemma attach_ok d id s : Inv s -> (forall x, d = Some x -> (x < n)%nat) -> Inv (attach d id s).
Proof.
  intros HI Hd. unfold attach. destruct ((0 <=? id) && (id <? 7)) eqn:E; [|done].
  apply andb_true_iff in E as [E0 E7]. apply Z.leb_le in E0. apply Z.ltb_lt in E7.
  destruct HI as [H0 H1 H2 H3 H4 H5 H6 H7]. split; cbn; try done; [by rewrite wr_length|].
  intros id' x Hr. pose proof (rd_lt _ _ _ Hr). rewrite rd_wr in Hr by (rewrite ?H1; lia).
  destruct (id' =? id); [|by apply (H2 id')]. apply Hd. by injection Hr.
Qed.

(** A target with an open session cannot be detached, so none is lost. *)
Lemma detach_ok id s : Inv s -> Inv (detach id s).2.
Proof.
  intros HI. unfold detach. destruct ((id <? 0) || (7 <=? id) || (targetAt id s == None) || sessionOn id s) eqn:E; [done|].
  apply orb_false_iff in E as [E ES]. apply orb_false_iff in E as [E EN]. apply orb_false_iff in E as [E0 E7].
  apply Z.ltb_ge in E0. apply Z.leb_gt in E7. apply bool_decide_eq_false in EN. cbn [snd].
  assert (HI' : Inv (if disk_ s == targetAt id s then set_disk None s else s)).
  { destruct (bool_decide (disk_ s = targetAt id s)) eqn:ED; [|done]. apply bool_decide_eq_true in ED.
    unfold sessionOn in ES. destruct (targetAt id s) as [t|] eqn:Et; [|done].
    rewrite (proj2 (Z.leb_le _ _)), (proj2 (Z.ltb_lt _ _)), ED, bool_decide_true in ES by done. cbn [andb] in ES.
    apply negb_false_iff, bool_decide_eq_true in ES.
    destruct HI as [H0 H1 H2 H3 H4 H5 H6 H7]. split; cbn; try done. unfold targetPhase. cbn. by rewrite ES. }
  revert HI'. generalize (if disk_ s == targetAt id s then set_disk None s else s). intros s1 H1.
  apply (attach_ok None id s1) in H1; [|done]. unfold attach in H1.
  by rewrite (proj2 (Z.leb_le _ _)), (proj2 (Z.ltb_lt _ _)) in H1.
Qed.

(** ** Every use of the chip *)

Inductive ScsiOp : Type :=
| RegRead (reg : Z) | RegWrite (reg v : Z) | PdmaRead | PdmaWrite (v : Z)
| Attach (d : option nat) (id : Z) | Detach (id : Z) | ChipReset | Post (kind id : Z).

Definition scsiPerform (op : ScsiOp) (s : Scsi T) : option (Scsi T) :=
  match op with
  | RegRead reg => Some (read reg s).2
  | RegWrite reg v => write reg v s
  | PdmaRead => Some (dmaRead s).2
  | PdmaWrite v => dmaWrite v s
  | Attach d id => Some (attach d id s)
  | Detach id => Some (detach id s).2
  | ChipReset => Some (reset s)
  | Post kind id => Some (set_agent (post kind id (agent_ s)) s)
  end.

Definition scsiOp_ok (op : ScsiOp) : Prop :=
  match op with Attach (Some d) _ => (d < n)%nat | _ => True end.

Fixpoint scsiRun (ops : list ScsiOp) (s : Scsi T) : option (Scsi T) :=
  match ops with
  | [] => Some s
  | op :: ops => s ← scsiPerform op s; scsiRun ops s
  end.

Lemma scsiPerform_ok op s : scsiOp_ok op -> Inv s -> exists s', scsiPerform op s = Some s' /\ Inv s'.
Proof.
  intros Ho HI. destruct op as [reg|reg v| |v|d id|id| |kind id]; cbn [scsiPerform scsiOp_ok] in *.
  - eexists. split; [done|by apply scsiRead_ok].
  - by apply scsiWrite_ok.
  - eexists. split; [done|by apply dmaRead_ok].
  - by apply dmaWrite_ok.
  - eexists. split; [done|]. apply attach_ok; [done|]. intros x ->. exact Ho.
  - eexists. split; [done|by apply detach_ok].
  - eexists. split; [done|by apply reset_ok].
  - eexists. split; [done|by apply (inv_same s)].
Qed.

Lemma scsiRun_ok ops : forall s, Forall scsiOp_ok ops -> Inv s -> exists s', scsiRun ops s = Some s' /\ Inv s'.
Proof.
  induction ops as [|op ops IH]; intros s HF HI; cbn [scsiRun]; [by eauto|]. apply Forall_cons_1 in HF as [Ho HF].
  destruct (scsiPerform_ok op s Ho HI) as (s1 & -> & H1). bnd. by apply IH.
Qed.
End Safety.

Lemma newScsi_ok {T} `{ScsiTarget T} (units : list T) : Inv (length units) (newScsi units).
Proof.
  split; cbn; try done. intros id d Hr. unfold rd in Hr. destruct (id <? 0); [done|].
  by apply (lookup_replicate_1 7 None) in Hr as [Hr _].
Qed.

(** ** An initiator *)

Section Initiator.
Context {T : Type} `{ScsiTarget T}.
Implicit Types s : Scsi T.

(** A byte by handshake: to the target, and from it. *)
Definition sendByte (b : Z) s : option (Scsi T) :=
  s ← write 0 b s; s ← write 1 (ICR_DBUS .| ICR_ACK) s; write 1 ICR_DBUS s.
Definition recvByte s : option (Z * Scsi T) :=
  s1 ← write 1 ICR_ACK (read 0 s).2; s2 ← write 1 0 s1; Some ((read 0 s).1, s2).

(** A byte through the pseudo-DMA window, which the machine opens on DRQ. *)
Definition dmaSend (b : Z) s : option (Scsi T) := if drqActive s then dmaWrite b s else None.
Definition dmaRecv s : option (Z * Scsi T) := if drqActive s then Some (dmaRead s) else None.

(** An initiator that waits for REQ and does what the phase on the bus says:
    [out] has the bytes it will send, [got] those it received, [st] the status.
    One action on the bus status [v]; the flag: the command is over. *)
Definition act (dma : bool) (out got : list Z) (st v : Z) s : option (list Z * list Z * Z * Scsi T * bool) :=
  if negb (has v CBS_REQ) then Some (out, got, st, s, false) else
  let p := v .& 0x1C in
  if p =? CBS_CD then
    match out with
    | [] => None
    | b :: out => s ← sendByte b s; Some (out, got, st, s, false)
    end
  else if p =? 0 then
    match out with
    | [] => None
    | b :: out => s ← (if dma then dmaSend b s else sendByte b s); Some (out, got, st, s, false)
    end
  else if p =? CBS_IO then
    a ← (if dma then dmaRecv s else recvByte s); Some (out, got ++ [a.1], st, a.2, false)
  else if p =? CBS_CD .| CBS_IO then
    a ← recvByte s; Some (out, got, a.1, a.2, false)
  else if p =? CBS_CD .| CBS_IO .| CBS_MSG then
    a ← recvByte s; Some (out, got, st, a.2, true)
  else None.

Fixpoint serve (fuel : nat) (dma : bool) (out got : list Z) (st : Z) s : option (list Z * Z * Scsi T) :=
  match fuel with
  | O => None
  | S fuel =>
      r ← act dma out got st (read 4 s).1 (read 4 s).2;
      let '(out, got, st, s, over) := r in
      if over : bool then Some (got, st, s) else serve fuel dma out got st s
  end.

Definition selectTarget (id : Z) s : option (Scsi T) :=
  s ← write 0 (1 .<< id) s; s ← write 1 (ICR_SEL .| ICR_DBUS) s; write 1 0 s.

(** A whole command: selection, the block and the payload in [out], to the end. *)
Definition transact (fuel : nat) (dma : bool) (id : Z) (out : list Z) s : option (list Z * Z * Scsi T) :=
  s ← selectTarget id s; serve fuel dma out [] 0 s.

(** With enough fuel the initiator comes to an end, and [Q] holds there. *)
Definition Ends (dma : bool) (out got : list Z) (st : Z) s (Q : list Z -> Z -> Scsi T -> Prop) : Prop :=
  exists k got' st' s', (forall fuel, (k <= fuel)%nat -> serve fuel dma out got st s = Some (got', st', s')) /\ Q got' st' s'.

Lemma bind_step {A B} (m : option A) (a : A) (f : A -> option B) : m = Some a -> (m ≫= f) = f a.
Proof. by intros ->. Qed.

Lemma ends_step dma out got st s out' got' st' s' Q :
  act dma out got st (read 4 s).1 (read 4 s).2 = Some (out', got', st', s', false) ->
  Ends dma out' got' st' s' Q -> Ends dma out got st s Q.
Proof.
  intros E (k & g & x & r & Hk & HQ). exists (S k), g, x, r. split; [|done]. intros [|fuel] Hf; [lia|].
  cbn [serve]. rewrite (bind_step _ _ _ E). apply Hk. lia.
Qed.

Lemma ends_over dma out got st s out' got' st' s' (Q : _ -> _ -> _ -> Prop) :
  act dma out got st (read 4 s).1 (read 4 s).2 = Some (out', got', st', s', true) -> Q got' st' s' ->
  Ends dma out got st s Q.
Proof.
  intros E HQ. exists 1%nat, got', st', s'. split; [|done]. intros [|fuel] Hf; [lia|].
  cbn [serve]. by rewrite (bind_step _ _ _ E).
Qed.

(** What a status read may change besides the counter. *)
Definition polled s : Scsi T := (read 4 s).2.

Lemma polled_req s : req_ s = true ->
  (read 4 s).1 = liveBusStatus s /\ exists r g, polled s = set_reqGap g (set_reads r s).
Proof.
  intros Hr. unfold polled, read. cbn [Z.eqb fst snd]. split; [done|]. exists (reads s + 1).
  destruct s; cbn in *. subst. destruct reqGap_; [exists false|by exists false].
  destruct phase_; try done; (destruct (_ <? _); done).
Qed.

(** Tests on numbers. *)
Ltac closed_has :=
  repeat match goal with
  | |- context [has ?a ?b] =>
      let r := eval vm_compute in (has a b) in
      first [constr_eq r true | constr_eq r false]; change (has a b) with r
  end; cbn [andb negb].

(** ACK rises and falls. *)
Lemma writeIcr_rise v s : v = 0x11 \/ v = 0x10 -> icr_ s = 0 \/ icr_ s = 1 -> targetPhase s = true ->
  writeIcr v s = Some (ackRising (set_icr v s)).
Proof.
  intros Hv Hi Ht. unfold writeIcr. assert (Ht' : targetPhase (set_icr (v .& ICR_WRITE) s) = true) by exact Ht.
  destruct Hv as [-> | ->], Hi as [-> | ->]; closed_has; cbn [mbind option_bind]; rewrite Ht'; done.
Qed.

Lemma writeIcr_fall v s : v = 0 \/ v = 1 -> icr_ s = 0x11 \/ icr_ s = 0x10 -> targetPhase s = true ->
  writeIcr v s = ackFalling (set_icr v s).
Proof.
  intros Hv Hi Ht. unfold writeIcr. assert (Ht' : targetPhase (set_icr (v .& ICR_WRITE) s) = true) by exact Ht.
  destruct Hv as [-> | ->], Hi as [-> | ->]; closed_has; cbn [mbind option_bind]; rewrite Ht'; done.
Qed.

Lemma ackRising_phase s : phase_ (ackRising s) = phase_ s.
Proof. unfold ackRising, pushCommand. destruct (phase_ s) eqn:E; try exact E. cbn. case_match; exact E. Qed.
Lemma ackRising_icr s : icr_ (ackRising s) = icr_ s.
Proof. unfold ackRising, pushCommand. destruct (phase_ s); try done. cbn. case_match; done. Qed.

Definition counted s : Scsi T := set_writes (writes s + 1) s.

Lemma write_odr v s : write 0 v s = Some (set_odr v (counted s)).
Proof. done. Qed.
Lemma write_icr v s : write 1 v s = writeIcr v (counted s).
Proof. done. Qed.

Lemma odr_phase b s : targetPhase (counted (set_odr b (counted s))) = targetPhase s.
Proof. done. Qed.
Lemma odr_icr b s : icr_ (counted (set_odr b (counted s))) = icr_ s.
Proof. done. Qed.
Lemma rising_icr v s : icr_ (counted (ackRising (set_icr v s))) = v.
Proof. unfold counted. cbn [icr_ set_writes]. by rewrite ackRising_icr. Qed.
Lemma rising_phase s : targetPhase (counted (ackRising s)) = targetPhase s.
Proof. unfold targetPhase, counted. cbn [phase_ set_writes]. by rewrite ackRising_phase. Qed.
Lemma icr_phase v s : targetPhase (set_icr v s) = targetPhase s.
Proof. done. Qed.

(** One byte by handshake. *)
Definition rising (b : Z) s : Scsi T := ackRising (set_icr (ICR_DBUS .| ICR_ACK) (counted (set_odr b (counted s)))).

Lemma sendByte_eq b s : targetPhase s = true -> icr_ s = 0 \/ icr_ s = 1 ->
  sendByte b s = ackFalling (set_icr ICR_DBUS (counted (rising b s))).
Proof.
  intros Ht Hi. unfold sendByte. rewrite write_odr. bnd. rewrite write_icr.
  rewrite writeIcr_rise; [|by left|by rewrite odr_icr|by rewrite odr_phase]. bnd.
  rewrite write_icr, writeIcr_fall; [reflexivity|by right| |].
  - left. apply rising_icr.
  - by rewrite rising_phase, icr_phase, odr_phase.
Qed.

Definition look s : Scsi T := set_reads (reads s + 1) s.

Lemma look_phase s : targetPhase (counted (look s)) = targetPhase s.
Proof. done. Qed.
Lemma look_icr s : icr_ (counted (look s)) = icr_ s.
Proof. done. Qed.

Definition taking s : Scsi T := ackRising (set_icr ICR_ACK (counted (look s))).

Lemma read_data s : (read 0 s).2 = look s.
Proof. done. Qed.
Lemma take_rise s : targetPhase s = true -> icr_ s = 0 \/ icr_ s = 1 -> write 1 ICR_ACK (look s) = Some (taking s).
Proof.
  intros Ht Hi. rewrite write_icr, writeIcr_rise; [reflexivity|by right|by rewrite look_icr|by rewrite look_phase].
Qed.
Lemma take_fall s : targetPhase s = true -> write 1 0 (taking s) = ackFalling (set_icr 0 (counted (taking s))).
Proof.
  intros Ht. rewrite write_icr, writeIcr_fall; [reflexivity|by left| |].
  - right. apply rising_icr.
  - unfold taking. by rewrite rising_phase, icr_phase, look_phase.
Qed.

Lemma recvByte_unfold s :
  recvByte s = (s1 ← write 1 ICR_ACK (read 0 s).2; s2 ← write 1 0 s1; Some ((read 0 s).1, s2)).
Proof. reflexivity. Qed.

Lemma recvByte_eq s : targetPhase s = true -> icr_ s = 0 \/ icr_ s = 1 ->
  recvByte s = (s' ← ackFalling (set_icr 0 (counted (taking s))); Some ((read 0 s).1, s')).
Proof.
  intros Ht Hi. rewrite recvByte_unfold, read_data, (bind_step _ _ _ (take_rise s Ht Hi)), (take_fall s Ht). reflexivity.
Qed.

(** ** A session *)

(** What a session leaves alone. *)
Definition kept s := (agent_ s, targets_ s, mode_ s).

(** Between two bytes of a session on [d]. *)
Record Ses (d : nat) (u : list T) (m : Mailbox * list (option nat) * Z) (dma : bool) s : Prop := {
  se_disk : disk_ s = Some d;
  se_units : units_ s = u;
  se_agent : kept s = m;
  se_dma : dma = true -> has (mode_ s) MODE_DMA = true;
  se_icr : icr_ s = 0 \/ icr_ s = 1;
  se_req : req_ s = true
}.

Lemma quad_inj {A B C D} (a a' : A) (b b' : B) (c c' : C) (e e' : D) :
  (a, b, c, e) = (a', b', c', e') -> a = a' /\ b = b' /\ c = c' /\ e = e'.
Proof. by intros [= -> -> -> ->]. Qed.

(** The parts of a state no handshake touches. *)
Definition held s := (disk_ s, units_ s, kept s, mode_ s).

Lemma ses_held d u m dma s s' : Ses d u m dma s -> held s' = held s -> icr_ s' = 0 \/ icr_ s' = 1 -> req_ s' = true ->
  Ses d u m dma s'.
Proof. intros [H1 H2 H3 H4 H5 H6] (E1 & E2 & E3 & E4)%quad_inj Hi Hr. by split; rewrite ?E1, ?E2, ?E3, ?E4. Qed.

Lemma ackRising_command s : phase_ s = COMMAND -> let r := ackRising s in
  held r = held s /\ cmd_ r = cmd_ s ++ [odr_ s] /\
  cmdLen_ r = if len (cmd_ s ++ [odr_ s]) =? 1 then cdbLength (odr_ s) else cmdLen_ s.
Proof.
  intros Hp. unfold ackRising. rewrite Hp. unfold pushCommand. cbn [cmd_ set_cmd]. by destruct (_ =? 1).
Qed.

Lemma ackRising_out s : phase_ s = DATA_OUT -> let r := ackRising s in
  held r = held s /\ cmd_ r = cmd_ s /\ dataOut_ r = dataOut_ s ++ [odr_ s] /\ dataOutExpected_ r = dataOutExpected_ s.
Proof. intros Hp. unfold ackRising. by rewrite Hp. Qed.

Lemma ackRising_in s : phase_ s = DATA_IN \/ phase_ s = STATUS \/ phase_ s = MSG_IN -> let r := ackRising s in
  held r = held s /\ dataIn_ r = dataIn_ s /\ dataPos_ r = u64 (dataPos_ s + 1) /\ status_ r = status_ s.
Proof. intros Hp. unfold ackRising. by destruct Hp as [-> |[-> | ->]]. Qed.

(** ** Carrying out the command *)

Section Command.
Context (d : nat) (t : T) (cdb : list Z) (op : Z) (tl : list Z).
Context (Ecdb : cdb = op :: tl) (Lcdb : len cdb = cdbLength op) (Hno : handles cdb = false).

Lemma selected_here s : disk_ s = Some d -> units_ s !! d = Some t -> cmd_ s = cdb -> selected s = Some (Some (d, t)).
Proof.
  intros Ed Et Ec. unfold selected. rewrite Ed, Ec, Ecdb. rewrite <- Ecdb, Lcdb, Z.ltb_irrefl, Et. done.
Qed.

Lemma dispatch_here payload s out st t2 : disk_ s = Some d -> units_ s !! d = Some t -> cmd_ s = cdb ->
  targetCommand cdb payload t = (out, st, t2) ->
  dispatch payload s = Some (out, st, set_units (<[d := t2]> (units_ s)) s).
Proof.
  intros Ed Et Ec Hc. unfold dispatch. rewrite selected_here by done. bnd. by rewrite Ec, Hno, Hc.
Qed.

(** What [execute] leaves as it was. *)
Definition rest4 s := (kept s, mode_ s, icr_ s, disk_ s).

Lemma enterStatus_fields s : let r := enterStatus s in
  phase_ r = STATUS /\ req_ r = true /\ rest4 r = rest4 s /\ units_ r = units_ s /\ status_ r = status_ s.
Proof. unfold enterStatus. by destruct (has _ _). Qed.

Lemma execute_read s out st t2 : disk_ s = Some d -> units_ s !! d = Some t -> cmd_ s = cdb ->
  writeByteCount cdb t <= 0 -> targetCommand cdb [] t = (out, st, t2) ->
  exists s', execute s = Some s' /\ rest4 s' = rest4 s /\ units_ s' = <[d := t2]> (units_ s) /\ status_ s' = st /\
    req_ s' = true /\ match out with [] => phase_ s' = STATUS | _ => phase_ s' = DATA_IN /\ dataIn_ s' = out /\ dataPos_ s' = 0 end.
Proof.
  intros Ed Et Ec Hw Hc. unfold execute. set (s1 := set_lastCmd _ _).
  assert (E1 : disk_ s1 = Some d /\ units_ s1 = units_ s /\ cmd_ s1 = cdb /\ rest4 s1 = rest4 s) by done.
  clearbody s1. destruct E1 as (E1 & E2 & E3 & E4). rewrite (selected_here s1) by (by rewrite ?E2). bnd.
  rewrite E3, Hno, (proj2 (Z.ltb_ge _ _)) by done. set (s2 := set_dataPos 0 (set_dataIn [] s1)).
  assert (F : disk_ s2 = Some d /\ units_ s2 = units_ s /\ cmd_ s2 = cdb /\ rest4 s2 = rest4 s) by done.
  clearbody s2. destruct F as (F1 & F2 & F3 & F4). rewrite (dispatch_here [] s2 out st t2) by (by rewrite ?F2). bnd.
  set (s3 := set_status st _). assert (G : dataIn_ s3 = out /\ status_ s3 = st /\ units_ s3 = <[d := t2]> (units_ s) /\ rest4 s3 = rest4 s)
    by (rewrite <- F2, <- F4; done).
  clearbody s3. destruct G as (G1 & G2 & G3 & G4). eexists. split; [done|]. rewrite G1. destruct out as [|b out].
  - destruct (enterStatus_fields s3) as (P1 & P2 & P3 & P4 & P5). rewrite P3, P4, P5. done.
  - rewrite <- G4. done.
Qed.

Lemma execute_write s : disk_ s = Some d -> units_ s !! d = Some t -> cmd_ s = cdb -> 0 < writeByteCount cdb t ->
  exists s', execute s = Some s' /\ rest4 s' = rest4 s /\ units_ s' = units_ s /\ req_ s' = true /\
    phase_ s' = DATA_OUT /\ dataOut_ s' = [] /\ dataOutExpected_ s' = writeByteCount cdb t /\ cmd_ s' = cdb.
Proof.
  intros Ed Et Ec Hw. unfold execute. set (s1 := set_lastCmd _ _).
  assert (E1 : disk_ s1 = Some d /\ units_ s1 = units_ s /\ cmd_ s1 = cdb /\ rest4 s1 = rest4 s) by done.
  clearbody s1. destruct E1 as (E1 & E2 & E3 & E4). rewrite (selected_here s1) by (by rewrite ?E2). bnd.
  rewrite E3, Hno, (proj2 (Z.ltb_lt _ _)) by done. eexists. split; [done|]. rewrite <- E2, <- E4. done.
Qed.
End Command.

(** ** Phase by phase *)

Lemma live_bits s : req_ s = true -> targetPhase s = true -> icr_ s = 0 \/ icr_ s = 1 ->
  has (liveBusStatus s) CBS_REQ = true /\ liveBusStatus s .& 0x1C = phaseSignals s.
Proof.
  intros Hr Ht Hi. unfold liveBusStatus, phaseSignals, targetPhase in *. rewrite Hr.
  destruct Hi as [-> | ->]; destruct (phase_ s); done.
Qed.

(** What the initiator sees at a byte, and the state it acts on. *)
Lemma poll_ready d u m dma s : Ses d u m dma s -> targetPhase s = true ->
  has (read 4 s).1 CBS_REQ = true /\ (read 4 s).1 .& 0x1C = phaseSignals s /\
  exists s1, (read 4 s).2 = s1 /\ Ses d u m dma s1 /\ phase_ s1 = phase_ s /\ cmd_ s1 = cmd_ s /\ cmdLen_ s1 = cmdLen_ s /\
    dataIn_ s1 = dataIn_ s /\ dataPos_ s1 = dataPos_ s /\ dataOut_ s1 = dataOut_ s /\
    dataOutExpected_ s1 = dataOutExpected_ s /\ status_ s1 = status_ s.
Proof.
  intros HS Ht. destruct (polled_req s (se_req _ _ _ _ _ HS)) as (Ev & r & g & Es). unfold polled in Es.
  destruct (live_bits s (se_req _ _ _ _ _ HS) Ht (se_icr _ _ _ _ _ HS)) as [L1 L2]. rewrite Ev.
  split; [done|]. split; [done|]. exists (set_reqGap g (set_reads r s)). split; [done|]. split; [|done].
  destruct HS. by split.
Qed.

(** A byte of STATUS or MESSAGE IN. *)
Lemma taking_fields d u m dma s : Ses d u m dma s -> phase_ s = DATA_IN \/ phase_ s = STATUS \/ phase_ s = MSG_IN ->
  let r := set_icr 0 (counted (taking s)) in
  phase_ r = phase_ s /\ held r = held s /\ icr_ r = 0 /\ dataIn_ r = dataIn_ s /\ dataPos_ r = u64 (dataPos_ s + 1) /\
  status_ r = status_ s.
Proof.
  intros HS Hp. unfold taking. set (s0 := set_icr ICR_ACK (counted (look s))).
  assert (E : phase_ s0 = phase_ s /\ held s0 = held s /\ dataIn_ s0 = dataIn_ s /\ dataPos_ s0 = dataPos_ s /\ status_ s0 = status_ s) by done.
  clearbody s0. destruct E as (E1 & E2 & E3 & E4 & E5). rewrite <- E1 in Hp.
  destruct (ackRising_in s0 Hp) as (R1 & R2 & R3 & R4). pose proof (ackRising_phase s0) as R0.
  set (r := ackRising s0) in *. clearbody r. rewrite <- E4 in *.
  split_and!; [exact (eq_trans R0 E1)|exact (eq_trans R1 E2)|done|exact (eq_trans R2 E3)|exact R3|exact (eq_trans R4 E5)].
Qed.

(** The actions, on what they see. *)
Ltac closed_eqb :=
  cbn [negb];
  repeat match goal with
  | |- context [?a =? ?b] =>
      let r := eval vm_compute in (a =? b) in
      first [constr_eq r true | constr_eq r false]; change (a =? b) with r; cbn iota
  end.

Lemma act_wait dma out got st v s : has v CBS_REQ = false -> act dma out got st v s = Some (out, got, st, s, false).
Proof. intros E. unfold act. by rewrite E. Qed.
Lemma act_command dma b out got st v s s' : has v CBS_REQ = true -> v .& 0x1C = CBS_CD -> sendByte b s = Some s' ->
  act dma (b :: out) got st v s = Some (out, got, st, s', false).
Proof. intros E1 E2 E3. unfold act. rewrite E1, E2. closed_eqb. by rewrite (bind_step _ _ _ E3). Qed.
Lemma act_out (dma : bool) b out got st v s s' : has v CBS_REQ = true -> v .& 0x1C = 0 ->
  (if dma then dmaSend b s else sendByte b s) = Some s' -> act dma (b :: out) got st v s = Some (out, got, st, s', false).
Proof. intros E1 E2 E3. unfold act. rewrite E1, E2. closed_eqb. by rewrite (bind_step _ _ _ E3). Qed.
Lemma act_in (dma : bool) out got st v s a : has v CBS_REQ = true -> v .& 0x1C = CBS_IO ->
  (if dma then dmaRecv s else recvByte s) = Some a -> act dma out got st v s = Some (out, got ++ [a.1], st, a.2, false).
Proof. intros E1 E2 E3. unfold act. rewrite E1, E2. closed_eqb. by rewrite (bind_step _ _ _ E3). Qed.
Lemma act_status dma out got st v s a : has v CBS_REQ = true -> v .& 0x1C = CBS_CD .| CBS_IO -> recvByte s = Some a ->
  act dma out got st v s = Some (out, got, a.1, a.2, false).
Proof. intros E1 E2 E3. unfold act. rewrite E1, E2. closed_eqb. by rewrite (bind_step _ _ _ E3). Qed.
Lemma act_msg dma out got st v s a : has v CBS_REQ = true -> v .& 0x1C = CBS_CD .| CBS_IO .| CBS_MSG -> recvByte s = Some a ->
  act dma out got st v s = Some (out, got, st, a.2, true).
Proof. intros E1 E2 E3. unfold act. rewrite E1, E2. closed_eqb. by rewrite (bind_step _ _ _ E3). Qed.

Lemma recvByte_to s s' : targetPhase s = true -> icr_ s = 0 \/ icr_ s = 1 ->
  ackFalling (set_icr 0 (counted (taking s))) = Some s' -> recvByte s = Some ((read 0 s).1, s').
Proof. intros Ht Hi E. by rewrite recvByte_eq, (bind_step _ _ _ E). Qed.

Lemma falling_msg s : phase_ s = MSG_IN -> ackFalling s = Some (enterBusFree s).
Proof. intros Hp. unfold ackFalling. by rewrite Hp. Qed.
Lemma falling_status s : phase_ s = STATUS -> ackFalling s = Some (enterMsgIn s).
Proof. intros Hp. unfold ackFalling. by rewrite Hp. Qed.
Lemma falling_in s : phase_ s = DATA_IN ->
  ackFalling s = Some (if len (dataIn_ s) <=? dataPos_ s then enterStatus s else set_req true s).
Proof. intros Hp. unfold ackFalling. by rewrite Hp. Qed.

Lemma phase_in s : phase_ s = DATA_IN \/ phase_ s = STATUS \/ phase_ s = MSG_IN -> targetPhase s = true.
Proof. unfold targetPhase. by intros [-> |[-> | ->]]. Qed.

(** The state a byte from the target leaves before the phase engine acts. *)
Lemma taken_state d u m dma s : Ses d u m dma s -> phase_ s = DATA_IN \/ phase_ s = STATUS \/ phase_ s = MSG_IN ->
  exists r, (forall s', ackFalling r = Some s' -> recvByte s = Some ((read 0 s).1, s')) /\
    phase_ r = phase_ s /\ held r = held s /\ icr_ r = 0 /\ dataIn_ r = dataIn_ s /\ dataPos_ r = u64 (dataPos_ s + 1) /\
    status_ r = status_ s.
Proof.
  intros HS Hp. exists (set_icr 0 (counted (taking s))). split; [|by apply (taking_fields d u m dma)].
  intros s'. apply recvByte_to; [by apply phase_in|apply HS].
Qed.

Lemma ends_msg dma out got st d u m s (Q : _ -> _ -> _ -> Prop) : Ses d u m dma s -> phase_ s = MSG_IN ->
  (forall s', phase_ s' = BUS_FREE -> units_ s' = u -> kept s' = m -> Q got st s') -> Ends dma out got st s Q.
Proof.
  intros HS Hp HQ. destruct (poll_ready d u m dma s HS) as (V1 & V2 & s1 & Es1 & H1 & P1 & _); [apply phase_in; auto|].
  assert (V3 : (read 4 s).1 .& 0x1C = CBS_CD .| CBS_IO .| CBS_MSG) by (rewrite V2; unfold phaseSignals; by rewrite Hp).
  rewrite Hp in P1. destruct (taken_state d u m dma s1 H1) as (r & Hr & R1 & R2 & _); [auto|]. rewrite P1 in R1.
  eapply ends_over; [eapply act_msg; [exact V1|exact V3|rewrite Es1; apply Hr, falling_msg; exact R1]|].
  cbn [snd]. apply quad_inj in R2 as (G1 & G2 & G3 & G4). apply HQ; [done|..].
  - change (units_ (enterBusFree r)) with (units_ r). rewrite G2. apply H1.
  - change (kept (enterBusFree r)) with (kept r). rewrite G3. apply H1.
Qed.

Lemma read_status s : phase_ s = STATUS -> (read 0 s).1 = status_ s.
Proof. intros Hp. unfold read, busByte. cbn. by rewrite Hp. Qed.

Lemma ends_status dma out got st x d u m s (Q : _ -> _ -> _ -> Prop) : Ses d u m dma s -> phase_ s = STATUS -> status_ s = x ->
  (forall s', phase_ s' = BUS_FREE -> units_ s' = u -> kept s' = m -> Q got x s') -> Ends dma out got st s Q.
Proof.
  intros HS Hp Hx HQ. destruct (poll_ready d u m dma s HS) as (V1 & V2 & s1 & Es1 & H1 & P1 & K); [apply phase_in; auto|].
  assert (V3 : (read 4 s).1 .& 0x1C = CBS_CD .| CBS_IO) by (rewrite V2; unfold phaseSignals; by rewrite Hp).
  rewrite Hp in P1. destruct (taken_state d u m dma s1 H1) as (r & Hr & R1 & R2 & R3 & _); [auto|]. rewrite P1 in R1.
  eapply ends_step; [eapply act_status; [exact V1|exact V3|rewrite Es1; apply Hr, falling_status; exact R1]|].
  cbn [fst snd]. assert (Ex : (read 0 s1).1 = x) by (rewrite read_status by done; etransitivity; [apply K|done]). rewrite Ex.
  apply (ends_msg dma out got x d u m); [|done|done].
  apply (ses_held d u m dma s1); [done|exact R2|left; exact R3|done].
Qed.

(** The gap after a pseudo-DMA byte: one status read sees REQ low. *)
Definition moreData s : bool :=
  match phase_ s with
  | DATA_IN => dataPos_ s <? len (dataIn_ s)
  | DATA_OUT => len (dataOut_ s) <? dataOutExpected_ s
  | _ => false
  end.

Lemma poll_gap s : moreData s = true -> reqGap_ s = true -> req_ s = false -> icr_ s = 0 \/ icr_ s = 1 ->
  has (read 4 s).1 CBS_REQ = false /\ (read 4 s).2 = set_req true (set_reqGap false (look s)).
Proof.
  intros Hm Hg Hr Hi. unfold moreData in Hm. split.
  - change (read 4 s).1 with (liveBusStatus s). unfold liveBusStatus, phaseSignals. rewrite Hr.
    destruct Hi as [-> | ->]; destruct (phase_ s); done.
  - unfold read. cbn [Z.eqb snd]. fold (look s). change (reqGap_ (look s)) with (reqGap_ s). rewrite Hg.
    set (s1 := set_reqGap false (look s)).
    assert (E : phase_ s1 = phase_ s /\ dataPos_ s1 = dataPos_ s /\ dataIn_ s1 = dataIn_ s /\ dataOut_ s1 = dataOut_ s /\
      dataOutExpected_ s1 = dataOutExpected_ s) by done.
    clearbody s1. destruct E as (-> & -> & -> & -> & ->). destruct (phase_ s); try done; by rewrite Hm.
Qed.

Lemma ends_gap dma out got st s Q : moreData s = true -> reqGap_ s = true -> req_ s = false -> icr_ s = 0 \/ icr_ s = 1 ->
  Ends dma out got st (set_req true (set_reqGap false (look s))) Q -> Ends dma out got st s Q.
Proof.
  intros Hm Hg Hr Hi HE. destruct (poll_gap s Hm Hg Hr Hi) as [V1 V2].
  eapply ends_step; [rewrite V2; by apply act_wait|done].
Qed.

(** *** DATA IN *)

Lemma read_in s b : phase_ s = DATA_IN -> busByte s = Some b -> (read 0 s).1 = b.
Proof. intros Hp Hb. unfold read. cbn [Z.eqb fst]. change (busByte (set_reads (reads s + 1) s)) with (busByte s). by rewrite Hb. Qed.

Lemma busByte_at s pre b rest : phase_ s = DATA_IN -> dataIn_ s = pre ++ b :: rest -> dataPos_ s = len pre -> busByte s = Some b.
Proof.
  intros Hp Hd Hq. unfold busByte. rewrite Hp, Hd, Hq, len_app, len_cons. pose proof (len_nonneg rest).
  rewrite (proj2 (Z.ltb_lt _ _)) by lia. rewrite rd_app_r, Z.sub_diag by lia. done.
Qed.

(** A byte of DATA IN, by handshake or by pseudo-DMA: [r] has the pointer moved. *)
Lemma in_byte d u m dma s b : Ses d u m dma s -> phase_ s = DATA_IN -> busByte s = Some b ->
  exists r, phase_ r = DATA_IN /\ held r = held s /\ (icr_ r = 0 \/ icr_ r = 1) /\ dataIn_ r = dataIn_ s /\
    dataPos_ r = u64 (dataPos_ s + 1) /\ status_ r = status_ s /\
    (if dma then dmaRecv s else recvByte s) =
      Some (b, if len (dataIn_ r) <=? dataPos_ r then enterStatus r
               else if dma then set_reqGap true (set_req false r) else set_req true r).
Proof.
  intros HS Hp Hb. destruct dma.
  - exists (set_dataPos (u64 (dataPos_ s + 1)) (set_dmaBytes (dmaBytes s + 1) s)).
    split; [done|]. split; [done|]. split; [apply HS|]. split; [done|]. split; [done|]. split; [done|].
    unfold dmaRecv. assert (Hq : drqActive s = true).
    { unfold drqActive. rewrite (se_dma _ _ _ _ _ HS eq_refl), Hp. unfold busByte in Hb. rewrite Hp in Hb.
      cbn [negb]. by destruct (_ <? _). }
    rewrite Hq. unfold dmaRead. rewrite Hp.
    change (busByte (set_dmaBytes (dmaBytes s + 1) s)) with (busByte s). rewrite Hb. reflexivity.
  - destruct (taken_state d u m false s HS) as (r & Hr & R1 & R2 & R3 & R4 & R5 & R6); [auto|]. rewrite Hp in R1.
    exists r. split; [done|]. split; [done|]. split; [by left|]. split; [done|]. split; [done|]. split; [done|].
    rewrite (Hr _ (falling_in r R1)), (read_in s b Hp Hb). done.
Qed.

Lemma enterStatus_ses d u m dma s : disk_ s = Some d -> units_ s = u -> kept s = m ->
  (dma = true -> has (mode_ s) MODE_DMA = true) -> icr_ s = 0 \/ icr_ s = 1 -> Ses d u m dma (enterStatus s).
Proof.
  intros E1 E2 E3 E4 E5. split; unfold enterStatus; case (has (mode_ s) MODE_DMA);
    first [exact E1 | exact E2 | exact E3 | exact E4 | exact E5 | reflexivity].
Qed.

Lemma ends_in dma out x d u m (Q : _ -> _ -> _ -> Prop) : forall rest b pre got st s, Ses d u m dma s -> phase_ s = DATA_IN ->
  dataIn_ s = pre ++ b :: rest -> dataPos_ s = len pre -> small (dataIn_ s) -> status_ s = x ->
  (forall s', phase_ s' = BUS_FREE -> units_ s' = u -> kept s' = m -> Q (got ++ b :: rest) x s') ->
  Ends dma out got st s Q.
Proof.
  induction rest as [|b' rest IH]; intros b pre got st s HS Hp Hd Hq Hsm Hx HQ;
    (destruct (poll_ready d u m dma s HS) as (V1 & V2 & s1 & Es1 & H1 & P1 & _ & _ & P4 & P5 & _ & _ & P8); [apply phase_in; auto|]);
    (assert (V3 : (read 4 s).1 .& 0x1C = CBS_IO) by (rewrite V2; unfold phaseSignals; by rewrite Hp));
    rewrite Hp in P1; rewrite Hd in P4; rewrite Hq in P5; rewrite Hx in P8; pose proof (busByte_at s1 pre b _ P1 P4 P5) as HB;
    destruct (in_byte d u m dma s1 b H1 P1 HB) as (r & R1 & R2 & R3 & R4 & R5 & R6 & R7);
    (eapply ends_step; [eapply act_in; [exact V1|exact V3|rewrite Es1; exact R7]|]); cbn [fst snd];
    rewrite P4 in R4; rewrite P5 in R5; rewrite P8 in R6; rewrite Hd, len_app in Hsm;
    rewrite len_cons in Hsm; pose proof (len_nonneg pre);
    (rewrite u64_small in R5 by (try rewrite len_cons in Hsm; try pose proof (len_nonneg rest); change (len (@nil Z)) with 0 in *; lia));
    rewrite R4, R5, len_app, len_cons.
  - change (len (@nil Z)) with 0. rewrite (proj2 (Z.leb_le _ _)) by lia. apply quad_inj in R2 as (G1 & G2 & G3 & G4).
    apply (ends_status dma out (got ++ [b]) st x d u m).
    + apply enterStatus_ses; rewrite ?G1, ?G2, ?G3, ?G4; try apply H1. done.
    + by destruct (enterStatus_fields r) as (F1 & _).
    + destruct (enterStatus_fields r) as (_ & _ & _ & _ & ->). done.
    + done.
  - pose proof (len_nonneg rest). rewrite len_cons. rewrite (proj2 (Z.leb_gt _ _)) by lia.
    assert (HI : forall t, held t = held r -> icr_ t = icr_ r -> req_ t = true -> phase_ t = DATA_IN -> dataIn_ t = dataIn_ r ->
      dataPos_ t = dataPos_ r -> status_ t = status_ r -> Ends dma out (got ++ [b]) st t Q).
    { intros t T1 T2 T3 T4 T5 T6 T7. apply (IH b' (pre ++ [b])).
      - apply (ses_held d u m dma s1); [done|congruence| |done]. rewrite T2. exact R3.
      - done.
      - rewrite T5, R4, <- app_assoc. done.
      - rewrite T6, R5, len_app. done.
      - rewrite T5, R4, len_app, !len_cons. rewrite len_cons in Hsm. lia.
      - by rewrite T7.
      - intros s' S1 S2 S3. rewrite <- app_assoc. by apply HQ. }
    destruct dma; [|by apply HI]. apply ends_gap; [|done|done|exact R3|by apply HI].
    unfold moreData. cbn [phase_ set_reqGap set_req dataPos_ dataIn_]. rewrite R1, R4, R5, len_app, !len_cons.
    apply Z.ltb_lt. lia.
Qed.

(** *** DATA OUT *)

Section Transfer.
Context (d : nat) (t : T) (cdb : list Z) (op : Z) (tl : list Z).
Context (Ecdb : cdb = op :: tl) (Lcdb : len cdb = cdbLength op) (Hno : handles cdb = false).
Context (Hext : forall sofar x, targetExtend cdb sofar x t = x).

Lemma extend_here s : disk_ s = Some d -> units_ s !! d = Some t -> cmd_ s = cdb ->
  extendDataOut s = Some (set_dataOutExpected (dataOutExpected_ s) s).
Proof.
  intros Ed Et Ec. unfold extendDataOut. rewrite (selected_here d t cdb op tl Ecdb Lcdb s Ed Et Ec), Ed, Ec.
  rewrite Ecdb at 1. rewrite Hno. cbn [mbind option_bind]. by rewrite Hext.
Qed.

Lemma falling_out s : phase_ s = DATA_OUT -> disk_ s = Some d -> units_ s !! d = Some t -> cmd_ s = cdb ->
  let r := set_dataOutExpected (dataOutExpected_ s) s in
  ackFalling s = if dataOutExpected_ r <=? len (dataOut_ r) then finishWrite r else Some (set_req true r).
Proof.
  intros Hp Ed Et Ec. unfold ackFalling. rewrite Hp. by rewrite (bind_step _ _ _ (extend_here s Ed Et Ec)).
Qed.

Lemma dmaWrite_out b s : phase_ s = DATA_OUT -> disk_ s = Some d -> units_ s !! d = Some t -> cmd_ s = cdb ->
  let r := set_dataOutExpected (dataOutExpected_ s) (set_dataOut (dataOut_ s ++ [b]) s) in
  dmaWrite b s = if dataOutExpected_ r <=? len (dataOut_ r) then finishWrite r else Some (set_reqGap true (set_req false r)).
Proof.
  intros Hp Ed Et Ec. unfold dmaWrite. rewrite Hp.
  by rewrite (bind_step _ _ _ (extend_here (set_dataOut (dataOut_ s ++ [b]) s) Ed Et Ec)).
Qed.

Lemma out_byte u m dma s b : Ses d u m dma s -> phase_ s = DATA_OUT -> u !! d = Some t -> cmd_ s = cdb ->
  len (dataOut_ s) < dataOutExpected_ s ->
  exists r, phase_ r = DATA_OUT /\ held r = held s /\ (icr_ r = 0 \/ icr_ r = 1) /\ cmd_ r = cdb /\
    dataOut_ r = dataOut_ s ++ [b] /\ dataOutExpected_ r = dataOutExpected_ s /\
    (if dma then dmaSend b s else sendByte b s) =
      if dataOutExpected_ r <=? len (dataOut_ r) then finishWrite r
      else Some (if dma then set_reqGap true (set_req false r) else set_req true r).
Proof.
  intros HS Hp Hu Hc Hl. assert (Hu' : units_ s !! d = Some t) by (by rewrite (se_units _ _ _ _ _ HS)). destruct dma.
  - exists (set_dataOutExpected (dataOutExpected_ s) (set_dataOut (dataOut_ s ++ [b]) s)).
    split; [done|]. split; [done|]. split; [apply HS|]. split; [done|]. split; [done|]. split; [done|].
    unfold dmaSend. assert (Hq : drqActive s = true).
    { unfold drqActive. rewrite (se_dma _ _ _ _ _ HS eq_refl), Hp. cbn [negb]. by apply Z.ltb_lt. }
    rewrite Hq. apply dmaWrite_out; [done|apply HS|done|done].
  - rewrite sendByte_eq by (apply HS || unfold targetPhase; by rewrite Hp).
    unfold rising. set (s0 := set_icr _ (counted (set_odr b (counted s)))).
    assert (E : phase_ s0 = phase_ s /\ held s0 = held s /\ cmd_ s0 = cmd_ s /\ dataOut_ s0 = dataOut_ s /\
      dataOutExpected_ s0 = dataOutExpected_ s /\ odr_ s0 = b) by done.
    clearbody s0. destruct E as (E1 & E2 & E3 & E4 & E5 & E6). rewrite Hp in E1.
    destruct (ackRising_out s0 E1) as (R1 & R2 & R3 & R4). pose proof (ackRising_phase s0) as R0.
    set (r0 := ackRising s0) in *. clearbody r0. rewrite E4, E6 in R3. rewrite E5 in R4. rewrite E3, Hc in R2. rewrite E2 in R1.
    rewrite E1 in R0. set (r := set_icr ICR_DBUS (counted r0)).
    assert (F : phase_ r = DATA_OUT /\ held r = held s /\ icr_ r = 1 /\ cmd_ r = cdb /\ dataOut_ r = dataOut_ s ++ [b] /\
      dataOutExpected_ r = dataOutExpected_ s) by done.
    clearbody r. destruct F as (F1 & F2 & F3 & F4 & F5 & F6). apply quad_inj in F2 as (G1 & G2 & G3 & G4).
    rewrite (falling_out r F1) by (rewrite ?G1, ?G2; (apply HS || done)).
    exists (set_dataOutExpected (dataOutExpected_ r) r). split; [done|].
    split; [change (held r = held s); unfold held; by rewrite G1, G2, G3, G4|].
    split; [by right|]. done.
Qed.

Lemma finish_here u m dma s out st t2 : disk_ s = Some d -> units_ s = u -> u !! d = Some t -> kept s = m ->
  (dma = true -> has (mode_ s) MODE_DMA = true) -> icr_ s = 0 \/ icr_ s = 1 -> cmd_ s = cdb ->
  targetCommand cdb (dataOut_ s) t = (out, st, t2) ->
  exists s', finishWrite s = Some s' /\ Ses d (<[d := t2]> u) m dma s' /\ phase_ s' = STATUS /\ status_ s' = st.
Proof.
  intros E1 E2 E3 E4 E5 E6 E7 Hc. unfold finishWrite.
  rewrite (bind_step _ _ _ (dispatch_here d t cdb op tl Ecdb Lcdb Hno (dataOut_ s) s out st t2 E1 ltac:(by rewrite E2) E7 Hc)).
  eexists. split; [done|]. split; [apply enterStatus_ses; try done; cbn; by rewrite E2|].
  destruct (enterStatus_fields (set_status st (set_units (<[d:=t2]> (units_ s)) s))) as (F1 & _ & _ & _ & F5). done.
Qed.

Lemma ends_out dma out x t2 u m (Q : _ -> _ -> _ -> Prop) payload got :
  targetCommand cdb payload t = (out, x, t2) -> u !! d = Some t ->
  (forall s', phase_ s' = BUS_FREE -> units_ s' = <[d := t2]> u -> kept s' = m -> Q got x s') ->
  forall rest b pre st s, payload = pre ++ b :: rest -> Ses d u m dma s -> phase_ s = DATA_OUT -> cmd_ s = cdb ->
  dataOut_ s = pre -> dataOutExpected_ s = len payload -> Ends dma (b :: rest) got st s Q.
Proof.
  intros Hc Hu HQ. induction rest as [|b' rest IH]; intros b pre st s Hpl HS Hp Hcmd Hd Hn;
    (destruct (poll_ready d u m dma s HS) as (V1 & V2 & s1 & Es1 & H1 & P1 & P2 & _ & _ & _ & P6 & P7 & _);
      [unfold targetPhase; by rewrite Hp|]);
    (assert (V3 : (read 4 s).1 .& 0x1C = 0) by (rewrite V2; unfold phaseSignals; by rewrite Hp));
    rewrite Hp in P1; rewrite Hcmd in P2; rewrite Hd in P6; rewrite Hn in P7;
    (destruct (out_byte u m dma s1 b H1 P1 Hu P2) as (r & R1 & R2 & R3 & R4 & R5 & R6 & R7);
      [rewrite P6, P7, Hpl, len_app, len_cons; match goal with |- context [1 + len ?l] => pose proof (len_nonneg l) end; lia|]);
    rewrite P6 in R5; rewrite P7 in R6; rewrite R5, R6 in R7; rewrite <- Es1 in R7;
    apply quad_inj in R2 as (G1 & G2 & G3 & G4).
  - rewrite Hpl, Z.leb_refl in R7.
    destruct (finish_here u m dma r out x t2) as (s2 & Ef & F1 & F2 & F3); rewrite ?G1, ?G2, ?G3, ?G4; try apply H1; try done.
    { by rewrite R5, <- Hpl. }
    eapply ends_step; [eapply act_out; [exact V1|exact V3|rewrite R7; exact Ef]|].
    by apply (ends_status dma [] got st x d (<[d := t2]> u) m).
  - rewrite (proj2 (Z.leb_gt _ _)) in R7.
    2: { rewrite Hpl, !len_app, !len_cons. pose proof (len_nonneg rest). change (len (@nil Z)) with 0. lia. }
    eapply ends_step; [eapply act_out; [exact V1|exact V3|exact R7]|].
    assert (HI : forall q, held q = held r -> icr_ q = icr_ r -> req_ q = true -> phase_ q = DATA_OUT -> cmd_ q = cdb ->
      dataOut_ q = dataOut_ r -> dataOutExpected_ q = dataOutExpected_ r -> Ends dma (b' :: rest) got st q Q).
    { intros q T1 T2 T3 T4 T5 T6 T7. apply quad_inj in T1 as (U1 & U2 & U3 & U4). apply (IH b' (pre ++ [b])).
      - by rewrite Hpl, <- app_assoc.
      - apply (ses_held d u m dma s1); [done|unfold held; by rewrite U1, U2, U3, U4, G1, G2, G3, G4| |done]. rewrite T2. exact R3.
      - done.
      - done.
      - by rewrite T6.
      - by rewrite T7. }
    destruct dma; [|by apply HI]. apply ends_gap; [|done|done|exact R3|by apply HI].
    unfold moreData. cbn [phase_ set_reqGap set_req dataOut_ dataOutExpected_]. rewrite R1, R5, R6, Hpl, !len_app, !len_cons.
    apply Z.ltb_lt. pose proof (len_nonneg rest). change (len (@nil Z)) with 0. lia.
Qed.

(** *** COMMAND *)

Context (dma : bool) (payload out : list Z) (x : Z) (t2 : T) (u : list T) (m : Mailbox * list (option nat) * Z) (Q : list Z -> Z -> Scsi T -> Prop).
Context (Hcmd : targetCommand cdb payload t = (out, x, t2)) (Hu : u !! d = Some t) (Hsmall : small out).
Context (Hpay : len payload = Z.max 0 (writeByteCount cdb t)).
Context (HQ : forall s', phase_ s' = BUS_FREE -> units_ s' = <[d := t2]> u -> kept s' = m ->
                Q (if 0 <? writeByteCount cdb t then [] else out) x s').

Lemma rest4_ses u' s s' : rest4 s' = rest4 s -> disk_ s = Some d -> kept s = m ->
  (dma = true -> has (mode_ s) MODE_DMA = true) -> icr_ s = 0 \/ icr_ s = 1 -> units_ s' = u' -> req_ s' = true ->
  Ses d u' m dma s'.
Proof. intros (E1 & E2 & E3 & E4)%quad_inj F1 F2 F3 F4 F5 F6. by split; rewrite ?E1, ?E2, ?E3, ?E4. Qed.

Lemma ends_execute st s : disk_ s = Some d -> units_ s = u -> kept s = m -> (dma = true -> has (mode_ s) MODE_DMA = true) ->
  icr_ s = 0 \/ icr_ s = 1 -> cmd_ s = cdb -> exists s', execute s = Some s' /\ Ends dma payload [] st s' Q.
Proof.
  intros E1 E2 E3 E4 E5 E6. assert (Hu' : units_ s !! d = Some t) by (by rewrite E2).
  destruct (Z.ltb_spec 0 (writeByteCount cdb t)) as [Hw|Hw].
  - destruct (execute_write d t cdb op tl Ecdb Lcdb Hno s E1 Hu' E6 Hw) as (s' & -> & F1 & F2 & F3 & F4 & F5 & F6 & F7).
    exists s'. split; [done|]. destruct payload as [|b rest] eqn:Ep; [change (len (@nil Z)) with 0 in Hpay; lia|].
    apply (ends_out dma out x t2 u m Q (b :: rest) [] Hcmd Hu HQ rest b [] st s'); try done.
    + apply (rest4_ses u s); try done. by rewrite F2.
    + rewrite F6. lia.
  - assert (Ep : payload = []) by (apply len_nil_inv; lia). rewrite Ep in Hcmd |- *.
    destruct (execute_read d t cdb op tl Ecdb Lcdb Hno s out x t2 E1 Hu' E6 Hw Hcmd) as (s' & -> & F1 & F2 & F3 & F4 & F5).
    exists s'. split; [done|]. rewrite E2 in F2.
    assert (HS : Ses d (<[d := t2]> u) m dma s') by (by apply (rest4_ses _ s)).
    destruct out as [|b rest].
    + by apply (ends_status dma [] [] st x d (<[d := t2]> u) m).
    + destruct F5 as (F5 & F6 & F7).
      apply (ends_in dma [] x d (<[d := t2]> u) m Q rest b [] [] st s'); rewrite ?F6; done.
Qed.

Lemma cdbLength_pos o : 0 < cdbLength o.
Proof. unfold cdbLength. repeat case_match; lia. Qed.

Lemma command_byte s b : Ses d u m dma s -> phase_ s = COMMAND ->
  exists r, sendByte b s = (if (0 <? cmdLen_ r) && (cmdLen_ r <=? len (cmd_ r)) then execute r else Some (set_req true r)) /\
    phase_ r = COMMAND /\ held r = held s /\ (icr_ r = 0 \/ icr_ r = 1) /\ cmd_ r = cmd_ s ++ [b] /\
    cmdLen_ r = if len (cmd_ s ++ [b]) =? 1 then cdbLength b else cmdLen_ s.
Proof.
  intros HS Hp. rewrite sendByte_eq by (apply HS || unfold targetPhase; by rewrite Hp).
  unfold rising. set (s0 := set_icr _ (counted (set_odr b (counted s)))).
  assert (E : phase_ s0 = phase_ s /\ held s0 = held s /\ cmd_ s0 = cmd_ s /\ cmdLen_ s0 = cmdLen_ s /\ odr_ s0 = b) by done.
  clearbody s0. destruct E as (E1 & E2 & E3 & E4 & E5). rewrite Hp in E1.
  destruct (ackRising_command s0 E1) as (R1 & R2 & R3). pose proof (ackRising_phase s0) as R0.
  set (r0 := ackRising s0) in *. clearbody r0. rewrite E3, E5 in R2, R3. rewrite E4 in R3. rewrite E2 in R1. rewrite E1 in R0.
  exists (set_icr ICR_DBUS (counted r0)). split; [|split; [exact R0|split; [exact R1|split; [by right|split; [exact R2|exact R3]]]]].
  set (r := set_icr ICR_DBUS (counted r0)). assert (F : phase_ r = COMMAND) by exact R0. clearbody r.
  unfold ackFalling. by rewrite F.
Qed.

Lemma ends_command : forall rest b pre st s, cdb = pre ++ b :: rest -> Ses d u m dma s -> phase_ s = COMMAND -> cmd_ s = pre ->
  cmdLen_ s = match pre with [] => 0 | o :: _ => cdbLength o end -> Ends dma (b :: rest ++ payload) [] st s Q.
Proof.
  induction rest as [|b' rest IH]; intros b pre st s Hsp HS Hp Hc Hl;
    (destruct (poll_ready d u m dma s HS) as (V1 & V2 & s1 & Es1 & H1 & P1 & P2 & P3 & _); [unfold targetPhase; by rewrite Hp|]);
    (assert (V3 : (read 4 s).1 .& 0x1C = CBS_CD) by (rewrite V2; unfold phaseSignals; by rewrite Hp));
    rewrite Hp in P1; destruct (command_byte s1 b H1 P1) as (r & R0 & R1 & R2 & R3 & R4 & R5);
    rewrite P2, Hc in R4, R5; rewrite P3, Hl in R5;
    (assert (R6 : cmdLen_ r = cdbLength op);
      [rewrite R5; rewrite Ecdb in Hsp; destruct pre as [|o pre]; injection Hsp as -> _; [done|];
       rewrite (proj2 (Z.eqb_neq _ _)); [done|rewrite len_app, len_cons; change (len [b]) with 1; pose proof (len_nonneg pre); lia]|]);
    pose proof (cdbLength_pos op); rewrite R6, R4 in R0; rewrite (proj2 (Z.ltb_lt 0 _)) in R0 by done; cbn [andb] in R0;
    rewrite <- Lcdb, Hsp, !len_app, !len_cons in R0; change (len (@nil Z)) with 0 in R0; pose proof (quad_inj _ _ _ _ _ _ _ _ R2) as (G1 & G2 & G3 & G4).
  - rewrite (proj2 (Z.leb_le _ _)) in R0 by lia.
    destruct (ends_execute st r) as (s2 & Ex & HE); rewrite ?G1, ?G2, ?G3, ?G4; try apply H1; try done.
    { by rewrite R4. }
    eapply ends_step; [eapply act_command; [exact V1|exact V3|rewrite Es1, R0; exact Ex]|]. exact HE.
  - pose proof (len_nonneg rest). rewrite (proj2 (Z.leb_gt _ _)) in R0 by lia.
    eapply ends_step; [eapply act_command; [exact V1|exact V3|rewrite Es1; exact R0]|].
    apply (IH b' (pre ++ [b])); try done.
    + by rewrite Hsp, <- app_assoc.
    + by apply (ses_held d u m dma s1).
    + change (cmdLen_ (set_req true r)) with (cmdLen_ r). rewrite R6. rewrite Ecdb in Hsp. destruct pre; by injection Hsp as -> _.
Qed.
End Transfer.

(** ** Selection *)

Lemma select_bits id j : 0 <= id < 7 -> 0 <= j < 7 -> (((1 .<< id) .& 0x7F) .& (1 .<< j) =? 0) = negb (id =? j).
Proof.
  intros Hi Hj. assert (C : forallb (fun id => forallb (fun j =>
    eqb (((1 .<< id) .& 0x7F) .& (1 .<< j) =? 0) (negb (id =? j))) (seqZ 0 7)) (seqZ 0 7) = true) by (vm_compute; reflexivity).
  rewrite forallb_forall in C. specialize (C id ltac:(apply list_elem_of_In, elem_of_seqZ; lia)).
  rewrite forallb_forall in C. specialize (C j ltac:(apply list_elem_of_In, elem_of_seqZ; lia)). by apply eqb_prop.
Qed.

Definition selectedState (d : nat) (t : T) s : Scsi T :=
  enterCommand (set_units (<[d := selectLun kNoIdentify t]> (units_ s)) (set_disk (Some d) s)).

Lemma selectLoop_hit id d t s : odr_ s = 1 .<< id -> 0 <= id < 7 -> targetAt id s = Some d -> units_ s !! d = Some t ->
  present t = true -> forall l, id ∈ l -> Forall (fun j => 0 <= j < 7) l -> selectLoop l s = Some (selectedState d t s).
Proof.
  intros Ho Hi Ha Hu Hp l. induction l as [|j l IH]; intros Hin HF; [by apply not_elem_of_nil in Hin|].
  apply Forall_cons_1 in HF as [Hj HF]. cbn [selectLoop]. rewrite Ho, select_bits by done.
  destruct (Z.eqb_spec id j) as [<-|Hne]; cbn [negb].
  - rewrite Ha, (bind_step _ _ _ Hu), Hp. done.
  - apply IH; [|done]. by apply elem_of_cons in Hin as [|].
Qed.

Lemma ids_below : Forall (fun j => 0 <= j < 7) (seqZ 0 7).
Proof. apply Forall_forall. intros j Hj. apply list_elem_of_In, elem_of_seqZ in Hj. lia. Qed.

(** The write that selects, whatever the register held. *)
Lemma writeIcr_select id d t s : phase_ s = BUS_FREE -> odr_ s = 1 .<< id -> 0 <= id < 7 -> targetAt id s = Some d ->
  units_ s !! d = Some t -> present t = true ->
  exists c, let s2 := selectedState d t (set_selects c (set_icr 5 s)) in
    writeIcr (ICR_SEL .| ICR_DBUS) s = Some s2 \/ writeIcr (ICR_SEL .| ICR_DBUS) s = Some (set_req true s2).
Proof.
  intros Hp Ho Hi Ha Hu Hpr. exists (selects s + 1). cbv zeta. unfold writeIcr.
  change ((ICR_SEL .| ICR_DBUS) .& ICR_WRITE) with 5. closed_has. set (s1 := set_icr 5 s).
  assert (E : phase_ s1 = BUS_FREE /\ odr_ s1 = 1 .<< id /\ targetAt id s1 = Some d /\ units_ s1 !! d = Some t) by done.
  assert (Es : selects s1 = selects s) by done. clearbody s1. destruct E as (E1 & E2 & E3 & E4). rewrite E1, bool_decide_true by done.
  cbn [orb]. assert (ET : trySelect s1 = Some (selectedState d t (set_selects (selects s + 1) s1))).
  { unfold trySelect. rewrite Es. apply (selectLoop_hit id); try done; [apply elem_of_seqZ; lia|apply ids_below]. }
  rewrite (bind_step _ _ _ ET). set (s2 := selectedState d t _).
  assert (F : targetPhase s2 = true /\ phase_ s2 = COMMAND /\ cmdLen_ s2 = 0) by done. clearbody s2.
  destruct F as (F1 & F2 & F3). rewrite F1.
  replace (has ((icr_ s .^ 5) .& 5) ICR_ACK) with false by (unfold has; by rewrite <- Z.land_assoc, Z.land_0_r).
  destruct (has (Z.ldiff _ _) _); [right|by left]. unfold ackFalling. by rewrite F2, F3.
Qed.

Lemma writeIcr_release s : icr_ s = 5 -> writeIcr 0 s = Some (set_icr 0 s).
Proof. intros Hi. unfold writeIcr. rewrite Hi. closed_has. cbn [mbind option_bind]. by destruct (targetPhase _). Qed.

Lemma selected_fields d t c s : let s2 := selectedState d t (set_selects c (set_icr 5 s)) in
  phase_ s2 = COMMAND /\ cmd_ s2 = [] /\ cmdLen_ s2 = 0 /\ disk_ s2 = Some d /\ req_ s2 = true /\ icr_ s2 = 5 /\
  units_ s2 = <[d := selectLun kNoIdentify t]> (units_ s) /\ kept s2 = kept s /\ mode_ s2 = mode_ s.
Proof. repeat split. Qed.

(** Letting go of the bus leaves the session as the selection began it. *)
Lemma release_session d us ag (dma : bool) s : phase_ s = COMMAND -> cmd_ s = [] -> cmdLen_ s = 0 -> disk_ s = Some d ->
  req_ s = true -> icr_ s = 5 -> units_ s = us -> kept s = ag -> (dma = true -> has (mode_ s) MODE_DMA = true) ->
  exists s', write 1 0 s = Some s' /\ Ses d us ag dma s' /\ phase_ s' = COMMAND /\ cmd_ s' = [] /\ cmdLen_ s' = 0.
Proof.
  intros H1 H2 H3 H4 H5 H6 H7 H8 H9. rewrite write_icr, writeIcr_release by exact H6. eexists; split; [done|].
  split; [|split; [exact H1|split; [exact H2|exact H3]]].
  split; [exact H4|exact H7|exact H8|exact H9|by left|exact H5].
Qed.

Lemma selectTarget_ok id d t dma s : phase_ s = BUS_FREE -> 0 <= id < 7 -> targetAt id s = Some d -> units_ s !! d = Some t ->
  present t = true -> (dma = true -> has (mode_ s) MODE_DMA = true) ->
  exists s', selectTarget id s = Some s' /\ Ses d (<[d := selectLun kNoIdentify t]> (units_ s)) (kept s) dma s' /\
    phase_ s' = COMMAND /\ cmd_ s' = [] /\ cmdLen_ s' = 0.
Proof.
  intros Hp Hi Ha Hu Hpr Hm. unfold selectTarget. rewrite (bind_step _ _ _ (write_odr _ _)), write_icr.
  set (s0 := counted (set_odr (1 .<< id) (counted s))).
  assert (E : phase_ s0 = BUS_FREE /\ odr_ s0 = 1 .<< id /\ targetAt id s0 = Some d /\ units_ s0 = units_ s /\
    kept s0 = kept s /\ mode_ s0 = mode_ s) by done.
  clearbody s0. destruct E as (E1 & E2 & E3 & E4 & E5 & E6).
  destruct (writeIcr_select id d t s0 E1 E2 Hi E3 (eq_trans (f_equal (fun u => u !! d) E4) Hu) Hpr) as (c & HW).
  pose proof (selected_fields d t c s0) as F. cbv zeta in HW, F. revert HW F. generalize (selectedState d t (set_selects c (set_icr 5 s0))).
  intros s2 HW (F1 & F2 & F3 & F4 & F5 & F6 & F7 & F8 & F9). rewrite E4 in F7. rewrite E5 in F8. rewrite <- E6, <- F9 in Hm.
  destruct HW as [HW|HW]; rewrite (bind_step _ _ _ HW); apply release_session; assumption || reflexivity.
Qed.
End Initiator.

(** A whole command on an idle bus. *)
Lemma transact_ok {T} `{ScsiTarget T} (dma : bool) id d t cdb op tl payload out x t2 (s : Scsi T) :
  phase_ s = BUS_FREE -> 0 <= id < 7 -> targetAt id s = Some d -> units_ s !! d = Some t -> present t = true ->
  (dma = true -> has (mode_ s) MODE_DMA = true) ->
  cdb = op :: tl -> len cdb = cdbLength op -> handles cdb = false ->
  (forall sofar n, targetExtend cdb sofar n (selectLun kNoIdentify t) = n) ->
  len payload = Z.max 0 (writeByteCount cdb (selectLun kNoIdentify t)) ->
  targetCommand cdb payload (selectLun kNoIdentify t) = (out, x, t2) -> small out ->
  exists k s', (forall fuel, (k <= fuel)%nat -> transact fuel dma id (cdb ++ payload) s =
      Some (if 0 <? writeByteCount cdb (selectLun kNoIdentify t) then [] else out, x, s')) /\
    phase_ s' = BUS_FREE /\ units_ s' = <[d := t2]> (units_ s) /\ kept s' = kept s.
Proof.
  intros Hp Hi Ha Hu Hpr Hm Ec Lc Hno Hext Hpay Hcmd Hsm.
  destruct (selectTarget_ok id d t dma s Hp Hi Ha Hu Hpr Hm) as (s1 & E1 & HS & P1 & P2 & P3).
  assert (Hd : <[d := selectLun kNoIdentify t]> (units_ s) !! d = Some (selectLun kNoIdentify t))
    by (apply list_lookup_insert_eq; by eapply lookup_lt_Some).
  destruct (ends_command d (selectLun kNoIdentify t) cdb op tl Ec Lc Hno Hext dma payload out x t2
    (<[d := selectLun kNoIdentify t]> (units_ s)) (kept s)
    (fun got st s' => got = (if 0 <? writeByteCount cdb (selectLun kNoIdentify t) then [] else out) /\ st = x /\
       phase_ s' = BUS_FREE /\ units_ s' = <[d := t2]> (units_ s) /\ kept s' = kept s)
    Hcmd Hd Hsm Hpay) with (rest := tl) (b := op) (pre := @nil Z) (st := 0) (s := s1)
    as (k & got & st & s2 & Hk & -> & -> & Q1 & Q2 & Q3); try done.
  { intros s' S1 S2 S3. by rewrite list_insert_insert_eq in S2. }
  exists k, s2. split; [|done]. intros fuel Hf. unfold transact. rewrite (bind_step _ _ _ E1). specialize (Hk fuel Hf). rewrite Ec in Hk |- *. exact Hk.
Qed.

(** ** The properties *)

(** C18. No access can make the controller misbehave: whatever the guest reads and
    writes, through registers or pseudo-DMA, in whatever order, and however the
    host attaches and detaches devices in between, every step is defined -- no
    pointer leads nowhere and no device is handed a command block shorter than
    its operation code says -- and a session in a transfer phase always has its
    device. *)
Theorem scsi_access_safe {T} `{ScsiTarget T} (units : list T) ops : Forall (scsiOp_ok (length units)) ops ->
  exists s, scsiRun ops (newScsi units) = Some s /\ Inv (length units) s.
Proof. intros HF. apply scsiRun_ok; [done|apply newScsi_ok]. Qed.

(** C9. A command is carried out exactly once and faithfully: an initiator that
    selects a device on an idle bus and follows the phases, by handshake or by
    pseudo-DMA, comes to the end with enough turns; the device has run the
    command once, on exactly the block and the payload that were sent; the
    initiator has exactly the data and the status the device answered; the bus
    is free again; no other device, and neither the attachments nor the mode, have
    changed. *)
Theorem scsi_transaction {T} `{ScsiTarget T} (dma : bool) id d t cdb op tl payload out x t2 (s : Scsi T) :
  phase_ s = BUS_FREE -> 0 <= id < 7 -> targetAt id s = Some d -> units_ s !! d = Some t -> present t = true ->
  (dma = true -> has (mode_ s) MODE_DMA = true) ->
  cdb = op :: tl -> len cdb = cdbLength op -> handles cdb = false ->
  (forall sofar n, targetExtend cdb sofar n (selectLun kNoIdentify t) = n) ->
  len payload = Z.max 0 (writeByteCount cdb (selectLun kNoIdentify t)) ->
  targetCommand cdb payload (selectLun kNoIdentify t) = (out, x, t2) -> small out ->
  exists k s', (forall fuel, (k <= fuel)%nat -> transact fuel dma id (cdb ++ payload) s =
      Some (if 0 <? writeByteCount cdb (selectLun kNoIdentify t) then [] else out, x, s')) /\
    phase_ s' = BUS_FREE /\ units_ s' = <[d := t2]> (units_ s) /\ kept s' = kept s.
Proof. apply transact_ok. Qed.

(** ** Examples: a device that keeps the bytes it was sent *)

Definition memoryUnit : ScsiTarget (list Z) := {|
  present _ := true;
  selectLun _ t := t;
  targetCommand cdb payload t :=
    if default 0 (head cdb) =? 0x0A then ([], 0x00, payload)
    else if default 0 (head cdb) =? 0x08 then (t, 0x00, t) else ([], 0x02, t);
  writeByteCount cdb _ := if default 0 (head cdb) =? 0x0A then default 0 (rd cdb 4) else 0;
  targetExtend _ _ n _ := n
|}.

Definition twoUnits : Scsi (list Z) :=
  set_mode MODE_DMA (attach (Some 1%nat) 5 (attach (Some 0%nat) 0 (newScsi [[1; 2; 3]; [9]]))).

(** A bus reset in the middle of a command, an unplugged device, a selection of
    nothing, acknowledgements without a command. *)
Lemma scsi_access_safe_witness : exists s : Scsi (list Z),
  @scsiRun _ memoryUnit [Attach (Some 0%nat) 0; RegWrite 0 1; RegWrite 1 5; RegWrite 1 0x10; RegWrite 1 0; RegWrite 1 0x80;
    Detach 0; RegWrite 1 5; PdmaRead; PdmaWrite 8; Post 1 3; RegRead 4] (newScsi [[1; 2; 3]]) = Some s /\ Inv 1 s.
Proof. apply (@scsi_access_safe _ memoryUnit [[1; 2; 3]]). repeat constructor. Defined.

(** A write of two bytes by pseudo-DMA to the device at 5, and a read of three by
    handshake from the one at 0. *)
Lemma scsi_transaction_witness :
  (exists k s', (forall fuel, (k <= fuel)%nat -> @transact _ memoryUnit fuel true 5 ([0x0A; 0; 0; 0; 2; 0] ++ [7; 8]) twoUnits =
      Some ([], 0, s')) /\ phase_ s' = BUS_FREE /\ units_ s' = [[1; 2; 3]; [7; 8]] /\ kept s' = kept twoUnits) /\
  (exists k s', (forall fuel, (k <= fuel)%nat -> @transact _ memoryUnit fuel false 0 ([0x08; 0; 0; 0; 3; 0] ++ []) twoUnits =
      Some ([1; 2; 3], 0, s')) /\ phase_ s' = BUS_FREE /\ units_ s' = [[1; 2; 3]; [9]] /\ kept s' = kept twoUnits).
Proof.
  split.
  - apply (@scsi_transaction _ memoryUnit true 5 1 [9] [0x0A; 0; 0; 0; 2; 0] 0x0A [0; 0; 0; 2; 0] [7; 8] [] 0 [7; 8] twoUnits);
      first [reflexivity|lia|intros; reflexivity|done].
  - apply (@scsi_transaction _ memoryUnit false 0 0 [1; 2; 3] [0x08; 0; 0; 0; 3; 0] 0x08 [0; 0; 0; 3; 0] [] [1; 2; 3] 0 [1; 2; 3] twoUnits);
      first [reflexivity|lia|intros; reflexivity|done].
Defined.
