(* ===== verification/ScsiTargets.v ===== *)
(** * ScsiTargets: two devices on the SCSI bus

    [src/DaynaPort.h] and [src/DaynaPort.cpp], the Ethernet card that answers
    SCSI commands, and [src/ScsiAgentTarget.h], the endpoint of the guest's
    agent on machines without a disk.  Both are instances of the class the
    controller is written against, and so is a bus that carries both kinds.
    What the card hands to its [sendFrame] callback is kept in order in
    [sent_]; the passive observer is left out.  The debug counters, [long]s,
    are unbounded. *)

From S2P Require Import Prelude Vectors SaveState Ncr5380.
From stdpp Require Import base list numbers option decidable.

Open Scope Z_scope.

Definition kGood : Z := 0x00.
Definition kCheck : Z := 0x02.
Definition kNoSense : Z := 0x00.
Definition kIllegalRequest : Z := 0x05.

(** ** The frame check sequence *)

Definition crcBit (c : Z) : Z := if c .& 1 <>? 0 then 0xEDB88320 .^ (c .>> 1) else c .>> 1.

Definition crcTable : list Z := Eval vm_compute in map (fun i => Nat.iter 8 crcBit i) (seqZ 0 256).

Definition crcStep (c p : Z) : Z := default 0 (rd crcTable ((c .^ p) .& 0xFF)) .^ (c .>> 8).

Definition ethCrc32 (p : list Z) : Z := foldl crcStep 0xFFFFFFFF p .^ 0xFFFFFFFF.

(** The four bytes on the wire, least significant first. *)
Definition fcs (crc : Z) : list Z := [u8 crc; u8 (crc .>> 8); u8 (crc .>> 16); u8 (crc .>> 24)].

Definition be16 (hi lo : Z) : Z := u16 ((hi .<< 8) .| lo).

(** ** DaynaPort *)

Definition kReadCtlA : Z := 0xC0.
Definition kReadCtlB : Z := 0x80.
Definition kWriteFmtRaw : Z := 0x00.
Definition kWriteFmtHdr : Z := 0x80.
Definition kSetMode : Z := 0x80.
Definition kSetMac : Z := 0x40.
Definition kNoMoreData : Z := 0x00000000.
Definition kMoreData : Z := 0x00000010.
Definition kMinFrame : Z := 60.
Definition kRxRingBytes : Z := 6 * 1024.
Definition kMaxFrame : Z := 1514.
Definition kBuiltinMac : list Z := [0x00; 0x80; 0x19; 0x10; 0x98; 0xE3].

Record Dayna := mkDayna {
  attached_ : bool;
  enabled_ : bool;
  mac_ : list Z;
  rx_ : list (list Z);
  rxBytes_ : Z;
  senseKey_ : Z;
  senseAsc_ : Z;
  framesToGuest : Z;
  framesFromGuest : Z;
  framesDropped : Z;
  bytesToGuest : Z;
  bytesFromGuest : Z;
  daynaCommands : Z;
  sent_ : list (list Z)
}.

#[export] Instance eta_dayna : Eta Dayna := fun s =>
  mkDayna (attached_ s) (enabled_ s) (mac_ s) (rx_ s) (rxBytes_ s) (senseKey_ s) (senseAsc_ s) (framesToGuest s)
    (framesFromGuest s) (framesDropped s) (bytesToGuest s) (bytesFromGuest s) (daynaCommands s) (sent_ s).
Definition set_attached := ltac:(set_field attached_).
Definition set_enabled := ltac:(set_field enabled_).
Definition set_mac := ltac:(set_field mac_).
Definition set_rx := ltac:(set_field rx_).
Definition set_rxBytes := ltac:(set_field rxBytes_).
Definition set_senseKey := ltac:(set_field senseKey_).
Definition set_senseAsc := ltac:(set_field senseAsc_).
Definition set_framesToGuest := ltac:(set_field framesToGuest).
Definition set_framesFromGuest := ltac:(set_field framesFromGuest).
Definition set_framesDropped := ltac:(set_field framesDropped).
Definition set_bytesToGuest := ltac:(set_field bytesToGuest).
Definition set_bytesFromGuest := ltac:(set_field bytesFromGuest).
Definition set_daynaCommands := ltac:(set_field daynaCommands).
Definition set_sent := ltac:(set_field sent_).

Definition Dayna0 : Dayna := mkDayna false false kBuiltinMac [] 0 0 0 0 0 0 0 0 0 [].

Definition setSense (key asc : Z) (s : Dayna) : Dayna := set_senseAsc asc (set_senseKey key s).

Definition attachCard (on : bool) (s : Dayna) : Dayna := set_attached on s.
Definition setMac (m : list Z) (s : Dayna) : Dayna := set_mac m s.

Definition receiveFrame (d : list Z) (s : Dayna) : Dayna :=
  let n := len d in
  if negb (attached_ s) || negb (enabled_ s) || (n <? 14) || (kMaxFrame <? n) then s else
  if kRxRingBytes <? u64 (rxBytes_ s + n) then set_framesDropped (framesDropped s + 1) s else
  let s := set_rx (rx_ s ++ [d]) s in
  set_rxBytes (u64 (rxBytes_ s + n)) s.

(** A short block is read as no block; [cdb] from here on has its six bytes. *)
Definition daynaByteCount (cdb : list Z) : Z :=
  match cdb with
  | op :: _ :: _ :: c3 :: c4 :: c5 :: _ =>
      if op =? 0x0A then
        if c5 =? kWriteFmtRaw then be16 c3 c4 else if c5 =? kWriteFmtHdr then be16 c3 c4 + 8 else 0
      else if op =? 0x0C then (if c5 =? kSetMac then 6 else 0)
      else if op =? 0x0D then c4
      else 0
  | _ => 0
  end.

(** An element of a reply, where the reply has it. *)
Definition put1 (i v : Z) (out : list Z) : list Z := if i <? len out then wr out i v else out.

Definition requestSense (c4 : Z) (s : Dayna) : list Z * Z * Dayna :=
  let alloc := if c4 <>? 0 then c4 else 4 in
  let out := replicate (Z.to_nat alloc) 0 in
  let out := wr out 0 0x70 in
  let out := put1 2 (senseKey_ s .& 0x0F) out in
  let addl := u64 (len out - 8) in
  let out := put1 7 (u8 (if addl <? 10 then addl else 10)) out in
  let out := put1 12 (senseAsc_ s) out in
  (out, kGood, setSense kNoSense 0 s).

(** Dayna   SCSI/Link       1.4a *)
Definition inquiryId : list Z :=
  [68; 97; 121; 110; 97; 32; 32; 32; 83; 67; 83; 73; 47; 76; 105; 110; 107; 32; 32; 32; 32; 32; 32; 32; 49; 46; 52; 97].

Definition inquiry (c4 : Z) : list Z :=
  let alloc := if c4 <>? 0 then c4 else 37 in
  let out := replicate (Z.to_nat alloc) 0 in
  let out := put1 4 0x20 (put1 3 0x02 (put1 2 0x02 (put1 1 0x00 (put1 0 0x03 out)))) in
  foldl (fun out i => put1 (8 + i) (default 0 (rd inquiryId i)) out) out (seqZ 0 28).

(** A frame as the card's MAC completes it. *)
Definition padded (f : list Z) : list Z :=
  if len f <? kMinFrame then f ++ replicate (Z.to_nat (kMinFrame - len f)) 0 else f.
Definition withFcs (f : list Z) : list Z := padded f ++ fcs (ethCrc32 (padded f)).

Definition readFrame (c4 c5 : Z) (s : Dayna) : list Z * Z * Dayna :=
  if (c5 <>? kReadCtlA) && (c5 <>? kReadCtlB) then ([], kCheck, setSense kIllegalRequest 0x24 s) else
  if c4 =? 1 then ([], kGood, s) else
  match rx_ s with
  | [] => (replicate 6 0, kGood, s)
  | f :: rest =>
      let s := set_rxBytes (u64 (rxBytes_ s - len f)) (set_rx rest s) in
      let f := withFcs f in
      let flags := match rx_ s with [] => kNoMoreData | _ => kMoreData end in
      let out := [u8 (len f .>> 8); u8 (len f); u8 (flags .>> 24); u8 (flags .>> 16); u8 (flags .>> 8); u8 flags] ++ f in
      let s := set_framesToGuest (framesToGuest s + 1) s in
      (out, kGood, set_bytesToGuest (bytesToGuest s + len f) s)
  end.

(** A frame whose last four bytes are its own check sequence, without them. *)
Definition stripFcs (frame : list Z) : list Z :=
  if kMinFrame + 4 <=? len frame then
    let body := firstn (Z.to_nat (len frame - 4)) frame in
    if drop (Z.to_nat (len frame - 4)) frame == fcs (ethCrc32 body) then body else frame
  else frame.

Definition transmit (frame : list Z) (s : Dayna) : Dayna :=
  if (14 <=? len frame) && (len frame <=? kMaxFrame) && enabled_ s then
    let s := set_framesFromGuest (framesFromGuest s + 1) s in
    let s := set_bytesFromGuest (bytesFromGuest s + len frame) s in
    set_sent (sent_ s ++ [frame]) s
  else s.

(** [frame] and [len]: the first [len] bytes from there on. *)
Definition writeFrame (c3 c4 c5 : Z) (dataIn : list Z) (s : Dayna) : list Z * Z * Dayna :=
  if c5 =? kWriteFmtRaw then
    let n := be16 c3 c4 in
    let n := if len dataIn <? n then len dataIn else n in
    ([], kGood, transmit (stripFcs (firstn (Z.to_nat n) dataIn)) s)
  else if c5 =? kWriteFmtHdr then
    match dataIn with
    | p0 :: p1 :: _ :: _ :: frame =>
        let n := be16 p0 p1 in
        let n := if len dataIn <? n + 4 then len dataIn - 4 else n in
        ([], kGood, transmit (stripFcs (firstn (Z.to_nat n) frame)) s)
    | _ => ([], kCheck, setSense kIllegalRequest 0x24 s)
    end
  else ([], kCheck, setSense kIllegalRequest 0x24 s).

Definition statistics (c3 c4 : Z) (s : Dayna) : list Z :=
  let stats := mac_ s ++ replicate 12 0 in
  let alloc := be16 c3 c4 in
  let alloc := if (alloc =? 0) || (len stats <? alloc) then len stats else alloc in
  firstn (Z.to_nat alloc) stats.

Definition enableInterface (c5 : Z) (s : Dayna) : Dayna :=
  if has c5 0x80 then set_enabled true s
  else set_rxBytes 0 (set_rx [] (set_mac kBuiltinMac (set_enabled false s))).

Definition daynaCommand (cdb dataIn : list Z) (s : Dayna) : list Z * Z * Dayna :=
  let s := set_daynaCommands (daynaCommands s + 1) s in
  match cdb with
  | op :: _ :: _ :: c3 :: c4 :: c5 :: _ =>
      if op =? 0x00 then ([], kGood, s)
      else if op =? 0x03 then requestSense c4 s
      else if op =? 0x12 then (inquiry c4, kGood, s)
      else if op =? 0x08 then readFrame c4 c5 s
      else if op =? 0x0A then writeFrame c3 c4 c5 dataIn s
      else if op =? 0x09 then (statistics c3 c4 s, kGood, s)
      else if op =? 0x0C then
        if c5 =? kSetMode then ([], kGood, s)
        else if c5 =? kSetMac then
          ([], kGood, if 6 <=? len dataIn then set_mac (firstn 6 dataIn) s else s)
        else ([], kCheck, setSense kIllegalRequest 0x20 s)
      else if op =? 0x0D then
        if c4 =? 0 then ([], kCheck, setSense kIllegalRequest 0x24 s) else ([], kGood, s)
      else if op =? 0x0E then ([], kGood, enableInterface c5 s)
      else ([], kCheck, setSense kIllegalRequest 0x20 s)
  | _ => ([], kCheck, setSense kIllegalRequest 0x20 s)
  end.

#[export] Instance dayna_target : ScsiTarget Dayna := {|
  present := attached_;
  selectLun _ s := s;
  targetCommand := daynaCommand;
  writeByteCount cdb _ := daynaByteCount cdb;
  targetExtend _ _ expected _ := expected
|}.

(** What the card puts into a saved state; its attachment is not part of it. *)
Definition daynaC : Codec Dayna := visitC [
  mkField boolC enabled_ set_enabled; mkField (arrayC (intC 1 false)) mac_ set_mac;
  mkField (seqC (seqC (intC 1 false) 0) []) rx_ set_rx; mkField (intC 8 false) rxBytes_ set_rxBytes;
  mkField (intC 1 false) senseKey_ set_senseKey; mkField (intC 1 false) senseAsc_ set_senseAsc;
  mkField (intC 8 true) framesToGuest set_framesToGuest; mkField (intC 8 true) framesFromGuest set_framesFromGuest;
  mkField (intC 8 true) framesDropped set_framesDropped; mkField (intC 8 true) bytesToGuest set_bytesToGuest;
  mkField (intC 8 true) bytesFromGuest set_bytesFromGuest; mkField (intC 8 true) daynaCommands set_daynaCommands].

(** ** The endpoint of the agent *)

Record AgentTarget := mkAgentTarget { lun_ : Z; sense_ : Z }.

#[export] Instance eta_agentTarget : Eta AgentTarget := fun s => mkAgentTarget (lun_ s) (sense_ s).
Definition set_lun := ltac:(set_field lun_).
Definition set_sense := ltac:(set_field sense_).

Definition AgentTarget0 : AgentTarget := mkAgentTarget kNoIdentify 0.
Definition agentReset (s : AgentTarget) : AgentTarget := set_sense 0 (set_lun kNoIdentify s).

(** POM68K  Guest control   0001 *)
Definition agentId : list Z :=
  [80; 79; 77; 54; 56; 75; 32; 32; 71; 117; 101; 115; 116; 32; 99; 111; 110; 116; 114; 111; 108; 32; 32; 32; 48; 48; 48; 49].

Definition agentTargetCommand (cdb dataIn : list Z) (s : AgentTarget) : list Z * Z * AgentTarget :=
  match cdb with
  | op :: c1 :: _ :: _ :: c4 :: _ :: _ =>
      let lun := if lun_ s =? kNoIdentify then c1 .>> 5 else lun_ s in
      if op =? 0x12 then
        if c1 .& 3 <>? 0 then ([], 2, set_sense 0x24 s) else
        let out := [if lun <>? 0 then 0x7F else 3; 0; 2; 2; 31; 0; 0; 0] ++ agentId in
        (firstn (Z.to_nat (Z.min (len out) c4)) out, 0, s)
      else if op =? 3 then
        let out := [0x70; 0; if sense_ s <>? 0 then 5 else 0; 0; 0; 0; 0; 10; 0; 0; 0; 0; sense_ s; 0; 0; 0; 0; 0] in
        (firstn (Z.to_nat (Z.min (len out) c4)) out, 0, set_sense 0 s)
      else if (lun =? 0) && (op =? 0) then ([], 0, s)
      else ([], 2, set_sense (if lun <>? 0 then 0x25 else 0x20) s)
  | _ => ([], 2, s)
  end.

Definition agentTargetC : Codec AgentTarget := visitC [
  mkField (intC 1 false) lun_ set_lun; mkField (intC 1 false) sense_ set_sense].

#[export] Instance agent_target : ScsiTarget AgentTarget := {|
  present _ := true;
  selectLun lun s := set_lun lun s;
  targetCommand := agentTargetCommand;
  writeByteCount _ _ := 0;
  targetExtend _ _ expected _ := expected
|}.

(** ** A bus with devices of two kinds *)

#[export] Instance sum_target {A B} `{ScsiTarget A} `{ScsiTarget B} : ScsiTarget (A + B) := {|
  present t := match t with inl a => present a | inr b => present b end;
  selectLun lun t := match t with inl a => inl (selectLun lun a) | inr b => inr (selectLun lun b) end;
  targetCommand cdb payload t :=
    match t with
    | inl a => let '(out, st, a) := targetCommand cdb payload a in (out, st, inl a)
    | inr b => let '(out, st, b) := targetCommand cdb payload b in (out, st, inr b)
    end;
  writeByteCount cdb t := match t with inl a => writeByteCount cdb a | inr b => writeByteCount cdb b end;
  targetExtend cdb sofar n t := match t with inl a => targetExtend cdb sofar n a | inr b => targetExtend cdb sofar n b end
|}.
