(* ===== verification/ScsiTargetsFacts.v ===== *)
(** * ScsiTargetsFacts: the Ethernet card, from the link to the guest

    The check sequence: the table is the bit-serial definition, a frame with its
    sequence leaves the fixed remainder, and damage within four bytes changes
    it.  The receive ring: its byte count, its bound and its order over every
    run of the card.  What the card and the controller save is what they load.
    The card behind the controller: a frame goes from the
    link to the guest and back through two SCSI commands. *)

From S2P Require Import Prelude Vectors SaveState SaveFacts Ncr5380 Ncr5380Facts ScsiTargets.
From stdpp Require Import base list numbers option decidable.

Open Scope Z_scope.

(** ** The check sequence *)

Definition POLY : Z := 0xEDB88320.

Definition crcBits (n : nat) (c : Z) : Z := Nat.iter n crcBit c.

(** The reference: one bit of the frame at a time, least significant first. *)
Definition crcSerial (bits : list bool) (c : Z) : Z := foldl (fun c b => crcBit (c .^ Z.b2z b)) c bits.
Definition bitsOf (b : Z) : list bool := map (Z.testbit b) (seqZ 0 8).
Definition serialCrc32 (p : list Z) : Z := crcSerial (flat_map bitsOf p) 0xFFFFFFFF .^ 0xFFFFFFFF.

Lemma crcBit_alt c : crcBit c = (c .>> 1) .^ (if Z.odd c then POLY else 0).
Proof.
  unfold crcBit. change 1 with (Z.ones 1) at 1. rewrite Z.land_ones by lia. change (2 ^ 1) with 2. rewrite Zmod_odd.
  destruct (Z.odd c); cbn [Z.eqb negb]; [by rewrite Z.lxor_comm|by rewrite Z.lxor_0_r].
Qed.

Lemma odd_lxor a b : Z.odd (a .^ b) = xorb (Z.odd a) (Z.odd b).
Proof. rewrite <- !Z.bit0_odd. apply Z.lxor_spec. Qed.

Lemma crcBit_linear a b : crcBit (a .^ b) = crcBit a .^ crcBit b.
Proof.
  rewrite !crcBit_alt, odd_lxor, Z.shiftr_lxor.
  apply Z.bits_inj_iff. intros i. rewrite !Z.lxor_spec. destruct (Z.odd a), (Z.odd b); cbn [xorb]; rewrite ?Z.bits_0;
    repeat match goal with |- context [Z.testbit ?x ?k] => destruct (Z.testbit x k) end; done.
Qed.

Lemma crcBit_shift y : crcBit (y .<< 1) = y.
Proof.
  rewrite crcBit_alt, Z.shiftr_shiftl_l by lia. rewrite Z.sub_diag, Z.shiftl_0_r. rewrite <- Z.bit0_odd, Z.shiftl_spec_low by lia.
  apply Z.lxor_0_r.
Qed.

Lemma crcBits_S n c : crcBits (S n) c = crcBits n (crcBit c).
Proof. apply Nat.iter_succ_r. Qed.

Lemma crcBits_add m n c : crcBits (m + n) c = crcBits n (crcBits m c).
Proof. revert c. induction m as [|m IH]; intros c; [done|]. by rewrite Nat.add_succ_l, !crcBits_S, IH. Qed.

Lemma crcBits_linear n : forall a b, crcBits n (a .^ b) = crcBits n a .^ crcBits n b.
Proof. induction n as [|n IH]; intros a b; [done|]. by rewrite !crcBits_S, crcBit_linear, IH. Qed.

Lemma crcBits_shift n : forall y, crcBits n (y .<< Z.of_nat n) = y.
Proof.
  induction n as [|n IH]; intros y; [apply Z.shiftl_0_r|]. rewrite crcBits_S.
  replace (y .<< Z.of_nat (S n)) with ((y .<< Z.of_nat n) .<< 1) by (rewrite Z.shiftl_shiftl by lia; f_equal; lia).
  by rewrite crcBit_shift, IH.
Qed.

Lemma crcBits_over n c y : crcBits n (c .^ (y .<< Z.of_nat n)) = crcBits n c .^ y.
Proof. by rewrite crcBits_linear, crcBits_shift. Qed.

(** The table holds what eight bits of division make of its index. *)
Lemma crcTable_spec i : byte i -> rd crcTable i = Some (crcBits 8 i).
Proof.
  intros Hi. assert (C : forallb (fun i => bool_decide (rd crcTable i = Some (crcBits 8 i))) (seqZ 0 256) = true) by (vm_compute; reflexivity).
  rewrite forallb_forall in C. specialize (C i ltac:(apply list_elem_of_In, elem_of_seqZ; unfold byte in Hi; lia)).
  by apply bool_decide_eq_true in C.
Qed.

Lemma low_high x : (x .& 0xFF) .^ ((x .>> 8) .<< 8) = x.
Proof.
  apply Z.bits_inj_iff'. intros i Hi. rewrite Z.lxor_spec, Z.land_spec. change 0xFF with (Z.ones 8).
  rewrite Z.testbit_ones_nonneg by lia. destruct (Z.ltb_spec i 8).
  - rewrite Z.shiftl_spec_low by lia. by rewrite andb_true_r, xorb_false_r.
  - rewrite Z.shiftl_spec, Z.shiftr_spec by lia. rewrite andb_false_r, xorb_false_l. f_equal. lia.
Qed.

Lemma byte_shifted b : byte b -> b .>> 8 = 0.
Proof. intros Hb. rewrite Z.shiftr_div_pow2 by lia. apply Z.div_small. exact Hb. Qed.

Lemma crcStep_bits c b : byte b -> crcStep c b = crcBits 8 (c .^ b).
Proof.
  intros Hb. unfold crcStep. rewrite crcTable_spec.
  - cbn [default]. rewrite <- (low_high (c .^ b)) at 2. change 8 with (Z.of_nat 8) at 3. rewrite crcBits_over.
    change (Z.of_nat 8) with 8. rewrite Z.shiftr_lxor, (byte_shifted b), Z.lxor_0_r by done. reflexivity.
  - change 0xFF with (Z.ones 8). rewrite Z.land_ones by lia. apply Z.mod_pos_bound. lia.
Qed.

(** Bytes as one number, the first the least significant. *)
Fixpoint le (w : list Z) : Z := match w with [] => 0 | b :: w => b .^ (le w .<< 8) end.

Lemma crc_bytes w : Forall byte w -> forall c, foldl crcStep c w = crcBits (8 * length w) (c .^ le w).
Proof.
  induction 1 as [|b w Hb HF IH]; intros c; [cbn; by rewrite Z.lxor_0_r|]. cbn [foldl le length]. rewrite IH, crcStep_bits by done.
  replace (8 * S (length w))%nat with (8 + 8 * length w)%nat by lia. rewrite crcBits_add. f_equal.
  rewrite <- Z.lxor_assoc. symmetry. apply (crcBits_over 8).
Qed.

Fixpoint leBits (w : list bool) : Z := match w with [] => 0 | b :: w => Z.b2z b .^ (leBits w .<< 1) end.

Lemma crc_serial w : forall c, crcSerial w c = crcBits (length w) (c .^ leBits w).
Proof.
  unfold crcSerial. induction w as [|b w IH]; intros c; [cbn; by rewrite Z.lxor_0_r|]. cbn [foldl leBits length]. rewrite IH, crcBits_S. f_equal.
  rewrite <- Z.lxor_assoc. symmetry. apply (crcBits_over 1).
Qed.

Lemma leBits_byte b : byte b -> leBits (bitsOf b) = b.
Proof.
  intros Hb. assert (C : forallb (fun i => leBits (bitsOf i) =? i) (seqZ 0 256) = true) by (vm_compute; reflexivity).
  rewrite forallb_forall in C. specialize (C b ltac:(apply list_elem_of_In, elem_of_seqZ; unfold byte in Hb; lia)). by apply Z.eqb_eq.
Qed.

Lemma crcSerial_app u w c : crcSerial (u ++ w) c = crcSerial w (crcSerial u c).
Proof. apply foldl_app. Qed.

Lemma crcStep_serial c b : byte b -> crcSerial (bitsOf b) c = crcStep c b.
Proof.
  intros Hb. rewrite crcStep_bits, crc_serial, leBits_byte by done.
  assert (E : length (bitsOf b) = 8%nat) by reflexivity. by rewrite E.
Qed.

Lemma crc_reference p : Forall byte p -> forall c, foldl crcStep c p = crcSerial (flat_map bitsOf p) c.
Proof.
  induction 1 as [|b p Hb HF IH]; intros c; [reflexivity|]. cbn [foldl flat_map].
  by rewrite crcSerial_app, crcStep_serial, IH.
Qed.

(** *** No damage within 32 bits goes unnoticed *)

Definition U32 (x : Z) : Prop := 0 <= x < 2 ^ 32.

Lemma lxor_range n a b : 0 <= n -> 0 <= a < 2 ^ n -> 0 <= b < 2 ^ n -> 0 <= a .^ b < 2 ^ n.
Proof.
  intros Hn Ha Hb. assert (H0 : 0 <= a .^ b) by (apply Z.lxor_nonneg; lia). split; [done|].
  destruct (Z.eq_dec (a .^ b) 0) as [->|Hne]; [lia|]. apply Z.log2_lt_pow2; [lia|].
  pose proof (Z.log2_lxor a b ltac:(lia) ltac:(lia)).
  assert (Hl : forall x, 0 <= x < 2 ^ n -> x <> 0 -> Z.log2 x < n) by (intros; apply Z.log2_lt_pow2; lia).
  destruct (Z.eq_dec a 0) as [->|Ha0]; [rewrite Z.lxor_0_l in *; by apply Hl|].
  destruct (Z.eq_dec b 0) as [->|Hb0]; [rewrite Z.lxor_0_r in *; by apply Hl|].
  specialize (Hl a Ha Ha0) as La. pose proof (Z.log2_lt_pow2 b n ltac:(lia)). lia.
Qed.

Lemma crcBit_range c : U32 c -> U32 (crcBit c).
Proof.
  intros Hc. unfold U32 in *. rewrite crcBit_alt. apply lxor_range; [lia| |].
  - rewrite Z.shiftr_div_pow2 by lia. change (2 ^ 1) with 2. split; [apply Z.div_pos; lia|]. apply Z.div_lt_upper_bound; lia.
  - destruct (Z.odd c); by vm_compute.
Qed.

(** The top bit of the divisor is set, so nothing but zero becomes zero. *)
Lemma crcBit_kernel x : U32 x -> crcBit x = 0 -> x = 0.
Proof.
  unfold U32. intros Hx. rewrite crcBit_alt. destruct (Z.odd x) eqn:E; intros H0.
  - apply Z.lxor_eq in H0. rewrite Z.shiftr_div_pow2 in H0 by lia. change (2 ^ 1) with 2 in H0.
    assert (x / 2 < 2 ^ 31) by (apply Z.div_lt_upper_bound; lia). unfold POLY in H0. lia.
  - rewrite Z.lxor_0_r, Z.shiftr_div_pow2 in H0 by lia. change (2 ^ 1) with 2 in H0.
    rewrite (Z.div_mod x 2) by lia. rewrite H0, Zmod_odd, E. done.
Qed.

Lemma crcBits_kernel n : forall x, U32 x -> crcBits n x = 0 -> x = 0.
Proof.
  induction n as [|n IH]; intros x Hx H0; [done|]. rewrite crcBits_S in H0. apply crcBit_kernel; [done|].
  apply IH; [by apply crcBit_range|done].
Qed.

Lemma crcBits_inj n a b : U32 a -> U32 b -> crcBits n a = crcBits n b -> a = b.
Proof.
  intros Ha Hb E. apply Z.lxor_eq. apply (crcBits_kernel n); [apply (lxor_range 32); [lia|done|done]|].
  by rewrite crcBits_linear, E, Z.lxor_nilpotent.
Qed.

Lemma crcBits_range n : forall c, U32 c -> U32 (crcBits n c).
Proof. induction n as [|n IH]; intros c Hc; [done|]. rewrite crcBits_S. by apply IH, crcBit_range. Qed.

Lemma byte_range x n : 8 <= n -> byte x -> 0 <= x < 2 ^ n.
Proof. intros Hn [H0 H1]. split; [done|]. pose proof (Z.pow_le_mono_r 2 8 n). lia. Qed.

Lemma le_range w : Forall byte w -> 0 <= le w < 2 ^ (8 * len w).
Proof.
  induction 1 as [|b w Hb HF IH]; [by vm_compute|]. cbn [le]. rewrite len_cons. pose proof (len_nonneg w).
  apply lxor_range; [lia|apply byte_range; [lia|done]|]. rewrite Z.shiftl_mul_pow2 by lia.
  replace (8 * (1 + len w)) with (8 * len w + 8) by lia. rewrite Z.pow_add_r by lia. change (2 ^ 8) with 256. lia.
Qed.

Lemma le_U32 w : Forall byte w -> (length w <= 4)%nat -> U32 (le w).
Proof.
  intros HF HL. pose proof (le_range w HF). unfold U32. assert (2 ^ (8 * len w) <= 2 ^ 32); [|lia].
  apply Z.pow_le_mono_r; [lia|]. unfold len. lia.
Qed.

Lemma le_inj w : forall w', Forall byte w -> Forall byte w' -> length w = length w' -> le w = le w' -> w = w'.
Proof.
  assert (HM : forall b x, byte b -> (b .^ (x .<< 8)) mod 256 = b /\ (b .^ (x .<< 8)) .>> 8 = x).
  { intros b x Hb. split.
    - change 256 with (2 ^ 8). rewrite <- Z.land_ones by lia. apply Z.bits_inj_iff'. intros i Hi.
      rewrite Z.land_spec, Z.lxor_spec, Z.testbit_ones_nonneg by lia. destruct (Z.ltb_spec i 8).
      + rewrite Z.shiftl_spec_low by lia. by rewrite andb_true_r, xorb_false_r.
      + rewrite andb_false_r. symmetry. replace i with ((i - 8) + 8) by lia. rewrite <- Z.shiftr_spec by lia.
        by rewrite byte_shifted, Z.bits_0.
    - rewrite Z.shiftr_lxor, byte_shifted by done. rewrite Z.shiftr_shiftl_l by lia. apply Z.shiftl_0_r. }
  induction w as [|b w IH]; intros [|b' w'] HF HF' HL; try done. cbn [le]. intros E. injection HL as HL.
  apply Forall_cons_1 in HF as [Hb HF]. apply Forall_cons_1 in HF' as [Hb' HF'].
  destruct (HM b (le w) Hb) as [E1 E2]. destruct (HM b' (le w') Hb') as [E1' E2'].
  rewrite E in E1, E2. f_equal; [congruence|]. apply IH; [done..|congruence].
Qed.

Lemma crcState_range p : Forall byte p -> forall c, U32 c -> U32 (foldl crcStep c p).
Proof.
  induction 1 as [|b p Hb HF IH]; intros c Hc; [done|]. cbn [foldl]. apply IH. rewrite crcStep_bits by done.
  apply crcBits_range, (lxor_range 32); [lia|done|apply byte_range; [lia|done]].
Qed.

Lemma crcState_inj p : Forall byte p -> forall c c', U32 c -> U32 c' -> foldl crcStep c p = foldl crcStep c' p -> c = c'.
Proof.
  induction 1 as [|b p Hb HF IH]; intros c c' Hc Hc' E; [done|]. cbn [foldl] in E. rewrite !crcStep_bits in E by done.
  assert (R : forall x, U32 x -> U32 (x .^ b)) by (intros; apply (lxor_range 32); [lia|done|apply byte_range; [lia|done]]).
  apply IH in E; [|by apply crcBits_range, R..]. apply crcBits_inj in E; [|by apply R..].
  apply (f_equal (fun x => x .^ b)) in E. by rewrite !Z.lxor_assoc, Z.lxor_nilpotent, !Z.lxor_0_r in E.
Qed.

Lemma start_U32 : U32 0xFFFFFFFF.
Proof. by vm_compute. Qed.

Lemma burst_detected pre w w' post : Forall byte (pre ++ w ++ post) -> Forall byte w' -> length w = length w' ->
  (length w <= 4)%nat -> ethCrc32 (pre ++ w ++ post) = ethCrc32 (pre ++ w' ++ post) -> w = w'.
Proof.
  intros HF Hw' HL H4 E. apply Forall_app in HF as [Hp HF]. apply Forall_app in HF as [Hw Hq].
  unfold ethCrc32 in E. apply (f_equal (fun x => x .^ 0xFFFFFFFF)) in E. rewrite !Z.lxor_assoc, Z.lxor_nilpotent, !Z.lxor_0_r in E.
  rewrite !foldl_app in E. pose proof (crcState_range pre Hp _ start_U32) as HS. revert HS E. generalize (foldl crcStep 0xFFFFFFFF pre).
  intros c Hc E. apply crcState_inj in E; [|done|by apply crcState_range..]. rewrite !crc_bytes, <- HL in E by done.
  apply crcBits_inj in E; [|apply (lxor_range 32); [lia|done|apply le_U32; (done || lia)]..].
  apply le_inj; [done..|]. apply (f_equal (fun x => c .^ x)) in E. by rewrite <- !Z.lxor_assoc, Z.lxor_nilpotent, !Z.lxor_0_l in E.
Qed.

Lemma ethCrc32_range p : Forall byte p -> U32 (ethCrc32 p).
Proof. intros HF. apply (lxor_range 32); [lia|by apply crcState_range|apply start_U32]. Qed.

Lemma fcs_bytes crc : Forall byte (fcs crc).
Proof. repeat constructor; apply u8_range. Qed.

Lemma fcs_le crc : U32 crc -> le (fcs crc) = crc.
Proof.
  assert (E : forall x, u8 x .^ ((x .>> 8) .<< 8) = x).
  { intros x. rewrite <- (low_high x) at 3. f_equal. change 0xFF with (Z.ones 8). symmetry. apply Z.land_ones. lia. }
  intros [H0 H1]. cbn [fcs le]. rewrite Z.shiftl_0_l, Z.lxor_0_r.
  replace (u8 (crc .>> 24)) with (crc .>> 24).
  - replace (crc .>> 24) with ((crc .>> 16) .>> 8) by (rewrite Z.shiftr_shiftr by lia; done). rewrite (E (crc .>> 16)).
    replace (crc .>> 16) with ((crc .>> 8) .>> 8) by (rewrite Z.shiftr_shiftr by lia; done). by rewrite !E.
  - symmetry. apply Z.mod_small. rewrite Z.shiftr_div_pow2 by lia. split; [apply Z.div_pos; lia|]. apply Z.div_lt_upper_bound; lia.
Qed.

Lemma fcs_residue p : Forall byte p -> ethCrc32 (p ++ fcs (ethCrc32 p)) = 0x2144DF1C.
Proof.
  intros HF. unfold ethCrc32 at 1. rewrite foldl_app, (crc_bytes _ (fcs_bytes _)), fcs_le by (by apply ethCrc32_range).
  unfold ethCrc32. rewrite <- Z.lxor_assoc, Z.lxor_nilpotent, Z.lxor_0_l. vm_compute. reflexivity.
Qed.

(** C31. The frame check sequence is the Ethernet one and does its work: the table
    routine gives what bit-serial division gives; a receiver that runs the
    routine over a frame with its sequence finds the fixed remainder; and no
    damage within four consecutive bytes, wherever it falls, leaves the sequence
    as it was. *)
Theorem fcs_sound p : Forall byte p ->
  ethCrc32 p = serialCrc32 p /\ ethCrc32 (p ++ fcs (ethCrc32 p)) = 0x2144DF1C /\
  forall pre w w' post, p = pre ++ w ++ post -> Forall byte w' -> length w = length w' -> (length w <= 4)%nat -> w <> w' ->
    ethCrc32 (pre ++ w' ++ post) <> ethCrc32 p.
Proof.
  intros HF. split; [unfold ethCrc32, serialCrc32; by rewrite crc_reference|]. split; [by apply fcs_residue|].
  intros pre w w' post -> Hw HL H4 Hne E. apply Hne. by apply (burst_detected pre w w' post).
Qed.

(** The sequence of the digits one to nine. *)
Lemma fcs_sound_witness : let p := [49; 50; 51; 52; 53; 54; 55; 56; 57] in
  ethCrc32 p = 0xCBF43926 /\ ethCrc32 p = serialCrc32 p /\ ethCrc32 [49; 50; 51; 52; 53; 54; 7; 7; 7] <> ethCrc32 p.
Proof.
  split; [by vm_compute|]. destruct (fcs_sound [49; 50; 51; 52; 53; 54; 55; 56; 57]) as (H1 & _ & H3); [repeat constructor; lia|].
  split; [exact H1|]. apply (H3 [49; 50; 51; 52; 53; 54] [55; 56; 57] [7; 7; 7] []); [done|repeat constructor; lia|done|cbn; lia|done].
Defined.

(** ** The card *)

Definition frameOk (f : list Z) : Prop := 14 <= len f <= kMaxFrame /\ Forall byte f.

Fixpoint total (fs : list (list Z)) : Z := match fs with [] => 0 | f :: fs => len f + total fs end.

Record DaynaOk (s : Dayna) : Prop := {
  do_frames : Forall frameOk (rx_ s);
  do_count : rxBytes_ s = total (rx_ s);
  do_bound : rxBytes_ s <= kRxRingBytes;
  do_mac : len (mac_ s) = 6
}.

Lemma total_app a b : total (a ++ b) = total a + total b.
Proof. induction a as [|f a IH]; cbn [app total]; lia. Qed.

Lemma total_nonneg fs : 0 <= total fs.
Proof. induction fs as [|f fs IH]; cbn [total]; [done|]. pose proof (len_nonneg f). lia. Qed.

Lemma Dayna0_ok : DaynaOk Dayna0.
Proof. by split. Qed.

(** What happens to the card. *)
Inductive DaynaOp : Type := Plug (on : bool) | Mac (m : list Z) | Arrive (f : list Z) | Command (cdb payload : list Z).

Definition daynaPerform (op : DaynaOp) (s : Dayna) : list Z * Dayna :=
  match op with
  | Plug on => ([], attachCard on s)
  | Mac m => ([], setMac m s)
  | Arrive f => ([], receiveFrame f s)
  | Command cdb payload => let '(out, _, s) := daynaCommand cdb payload s in (out, s)
  end.

Definition daynaOp_ok (op : DaynaOp) : Prop :=
  match op with Arrive f => Forall byte f | Mac m => len m = 6 | _ => True end.

(** A frame of the right size that finds the card switched on, and room for it. *)
Definition carries (s : Dayna) (f : list Z) : bool :=
  attached_ s && enabled_ s && (14 <=? len f) && (len f <=? kMaxFrame).
Definition fitsIn (s : Dayna) (f : list Z) : bool := total (rx_ s) + len f <=? kRxRingBytes.

(** A frame comes in: it is passed over, kept, or dropped and counted. *)
Lemma receive_cases f s : DaynaOk s -> receiveFrame f s =
  if carries s f then
    if fitsIn s f then set_rxBytes (total (rx_ s) + len f) (set_rx (rx_ s ++ [f]) s) else set_framesDropped (framesDropped s + 1) s
  else s.
Proof.
  intros [H1 H2 H3 H4]. unfold receiveFrame, carries, fitsIn. rewrite (Z.leb_antisym (len f) 14), (Z.leb_antisym kMaxFrame (len f)).
  destruct (attached_ s), (enabled_ s); cbn [negb andb orb]; try done.
  destruct (Z.ltb_spec (len f) 14); cbn [negb andb orb]; [done|]. destruct (Z.ltb_spec kMaxFrame (len f)); cbn [negb]; [done|].
  cbn [rxBytes_ set_rx]. rewrite H2 in *. pose proof (total_nonneg (rx_ s)). unfold kMaxFrame, kRxRingBytes in *.
  rewrite u64_small by lia. rewrite Z.leb_antisym. by destruct (6 * 1024 <? _).
Qed.

Lemma receive_ok f s : DaynaOk s -> Forall byte f -> DaynaOk (receiveFrame f s).
Proof.
  intros HI HB. rewrite receive_cases by done. unfold carries, fitsIn. destruct (_ && _ && _ && _) eqn:EC; [|done].
  rewrite !andb_true_iff, !Z.leb_le in EC. destruct (Z.leb_spec (total (rx_ s) + len f) kRxRingBytes); [|by destruct HI; split].
  destruct HI as [H1 H2 H3 H4]. split; cbn [rx_ rxBytes_ mac_ set_rxBytes set_rx]; [|rewrite total_app; cbn [total]; lia|done|done].
  apply Forall_app_2; [done|]. apply Forall_singleton. split; [lia|done].
Qed.

(** A command: the ring loses its first frame to a read, is emptied when the
    interface is switched off, and is left alone otherwise. *)
Definition switchesOff (cdb : list Z) : bool :=
  match cdb with op :: _ :: _ :: _ :: _ :: c5 :: _ => (op =? 0x0E) && negb (has c5 0x80) | _ => false end.
Definition readsFrame (cdb : list Z) : bool :=
  match cdb with
  | op :: _ :: _ :: _ :: c4 :: c5 :: _ => (op =? 0x08) && ((c5 =? kReadCtlA) || (c5 =? kReadCtlB)) && (c4 <>? 1)
  | _ => false
  end.

(** What the card puts before a frame. *)
Definition readHeader (f : list Z) (more : bool) : list Z :=
  [u8 (len (withFcs f) .>> 8); u8 (len (withFcs f)); 0; 0; 0; if more then 0x10 else 0].

Lemma fcs_len crc : len (fcs crc) = 4.
Proof. done. Qed.

Lemma padded_len f : len (padded f) = Z.max kMinFrame (len f).
Proof.
  unfold padded. pose proof (len_nonneg f). destruct (Z.ltb_spec (len f) kMinFrame); [|lia]. rewrite len_app, len_replicate; lia.
Qed.

Lemma padded_bytes f : Forall byte f -> Forall byte (padded f).
Proof.
  intros HF. unfold padded. destruct (len f <? kMinFrame); [|done]. apply Forall_app_2; [done|].
  apply Forall_replicate. unfold byte. lia.
Qed.

Lemma withFcs_len f : len (withFcs f) = Z.max kMinFrame (len f) + 4.
Proof. unfold withFcs. by rewrite len_app, padded_len. Qed.

Inductive Effect (cdb : list Z) (s : Dayna) (out : list Z) (s' : Dayna) : Prop :=
| Emptied : switchesOff cdb = true -> readsFrame cdb = false -> rx_ s' = [] -> rxBytes_ s' = 0 -> len (mac_ s') = 6 ->
    framesDropped s' = framesDropped s -> Effect cdb s out s'
| Popped f rest : readsFrame cdb = true -> rx_ s = f :: rest -> rx_ s' = rest -> rxBytes_ s' = u64 (rxBytes_ s - len f) ->
    len (mac_ s') = len (mac_ s) -> framesDropped s' = framesDropped s ->
    out = readHeader f (negb (rest == [])) ++ withFcs f -> Effect cdb s out s'
| Untouched : (readsFrame cdb = true -> rx_ s = [] /\ out = replicate 6 0) -> rx_ s' = rx_ s -> rxBytes_ s' = rxBytes_ s ->
    len (mac_ s') = len (mac_ s) \/ len (mac_ s') = 6 -> framesDropped s' = framesDropped s -> Effect cdb s out s'.

Lemma readFrame_effect c4 c5 s a b c q out st s' :
  readFrame c4 c5 s = (out, st, s') -> Effect (0x08 :: a :: b :: c :: c4 :: c5 :: q) s out s'.
Proof.
  assert (HR : readsFrame (0x08 :: a :: b :: c :: c4 :: c5 :: q) =
    negb ((c5 <>? kReadCtlA) && (c5 <>? kReadCtlB)) && (c4 <>? 1)) by (cbn [readsFrame]; by rewrite negb_andb, !negb_involutive).
  unfold readFrame. destruct ((c5 <>? kReadCtlA) && (c5 <>? kReadCtlB)); cbn [negb andb] in HR.
  { intros [= <- _ <-]. apply Untouched; try done; [by rewrite HR|by left]. }
  destruct (c4 =? 1); cbn [negb] in HR.
  { intros [= <- _ <-]. apply Untouched; try done; [by rewrite HR|by left]. }
  destruct (rx_ s) as [|f rest] eqn:ER; intros [= <- _ <-].
  - apply Untouched; try done. by left.
  - apply (Popped _ _ _ _ f rest); try done. unfold readHeader. cbn [rx_ set_rxBytes set_rx]. by destruct rest.
Qed.

(** The parts of the card that a command which does not read leaves alone. *)
Definition ring s := (rx_ s, rxBytes_ s, framesDropped s).

Lemma transmit_ring f s : ring (transmit f s) = ring s /\ mac_ (transmit f s) = mac_ s.
Proof. unfold transmit. by destruct (_ && _ && _). Qed.

Lemma writeFrame_ring c3 c4 c5 payload s out st s' : writeFrame c3 c4 c5 payload s = (out, st, s') ->
  ring s' = ring s /\ mac_ s' = mac_ s.
Proof.
  unfold writeFrame. cbv zeta. destruct (c5 =? kWriteFmtRaw); [intros [= _ _ <-]; apply transmit_ring|].
  destruct (c5 =? kWriteFmtHdr); [|by intros [= _ _ <-]].
  destruct payload as [|p0 [|p1 [|p2 [|p3 fr]]]]; try (by intros [= _ _ <-]). intros [= _ _ <-]. apply transmit_ring.
Qed.

Lemma untouched cdb s out s' : readsFrame cdb = false -> ring s' = ring s ->
  len (mac_ s') = len (mac_ s) \/ len (mac_ s') = 6 -> Effect cdb s out s'.
Proof. intros HR [= E1 E2 E3] Hm. by apply Untouched; [rewrite HR|..]. Qed.

Lemma effect_from cdb s s0 out s' : ring s0 = ring s -> mac_ s0 = mac_ s -> Effect cdb s0 out s' -> Effect cdb s out s'.
Proof.
  intros [= E1 E2 E3] E4 [? ? ? ? ? ?|f rest ? ? ? ? ? ? ?|? ? ? ? ?].
  - apply Emptied; congruence.
  - apply (Popped _ _ _ _ f rest); congruence.
  - apply Untouched; rewrite <- ?E1, <- ?E2, <- ?E3, <- ?E4; done.
Qed.

Lemma command_effect cdb payload s out st s' : daynaCommand cdb payload s = (out, st, s') -> Effect cdb s out s'.
Proof.
  intros E. apply (effect_from cdb s (set_daynaCommands (daynaCommands s + 1) s)); [done..|]. revert E.
  unfold daynaCommand. cbv zeta. generalize (set_daynaCommands (daynaCommands s + 1) s). clear s. intros s.
  destruct cdb as [|op [|a [|b [|c3 [|c4 [|c5 q]]]]]]; try (intros [= _ _ <-]; apply untouched; [done|done|by left]).
  assert (HR : op <> 0x08 -> readsFrame (op :: a :: b :: c3 :: c4 :: c5 :: q) = false)
    by (intros Hne; cbn [readsFrame]; by rewrite (proj2 (Z.eqb_neq _ _))).
  destruct (Z.eqb_spec op 0x00); [intros [= _ _ <-]; apply untouched; [by apply HR; subst|done|by left]|].
  destruct (Z.eqb_spec op 0x03); [intros [= _ _ <-]; apply untouched; [by apply HR; subst|done|by left]|].
  destruct (Z.eqb_spec op 0x12); [intros [= _ _ <-]; apply untouched; [by apply HR; subst|done|by left]|].
  destruct (Z.eqb_spec op 0x08) as [->|]; [apply readFrame_effect|]. specialize (HR ltac:(done)).
  destruct (op =? 0x0A).
  { intros E. destruct (writeFrame_ring _ _ _ _ _ _ _ _ E) as [E1 E2]. apply untouched; [done|done|left; by rewrite E2]. }
  destruct (op =? 0x09); [intros [= _ _ <-]; apply untouched; [done|done|by left]|].
  destruct (op =? 0x0C).
  { destruct (c5 =? kSetMode); [intros [= _ _ <-]; apply untouched; [done|done|by left]|].
    destruct (c5 =? kSetMac); [|intros [= _ _ <-]; apply untouched; [done|done|by left]].
    intros [= _ _ <-]. destruct (Z.leb_spec 6 (len payload)); [|apply untouched; [done|done|by left]].
    apply untouched; [done|done|right]. cbn [mac_ set_mac]. apply (len_take payload 6). lia. }
  destruct (op =? 0x0D); [destruct (c4 =? 0); intros [= _ _ <-]; (apply untouched; [done|done|by left])|].
  destruct (Z.eqb_spec op 0x0E) as [->|]; [|intros [= _ _ <-]; apply untouched; [done|done|by left]].
  unfold enableInterface. destruct (has c5 0x80) eqn:EH; intros [= _ _ <-]; [apply untouched; [done|done|by left]|].
  apply Emptied; try done. cbn [switchesOff]. by rewrite EH.
Qed.

Lemma command_ok cdb payload s out st s' : DaynaOk s -> daynaCommand cdb payload s = (out, st, s') -> DaynaOk s'.
Proof.
  intros [H1 H2 H3 H4] E. destruct (command_effect _ _ _ _ _ _ E) as [_ _ E1 E2 E3 _|f rest _ E1 E2 E3 E4 _ _|_ E1 E2 E3 _].
  - split; rewrite ?E1, ?E2; done.
  - rewrite E1 in H1, H2. apply Forall_cons_1 in H1 as [Hf HF]. cbn [total] in H2. pose proof (total_nonneg rest). pose proof (len_nonneg f).
    unfold kRxRingBytes in H3. split; rewrite ?E2, ?E4; [done| |rewrite E3, H2, u64_small; unfold kRxRingBytes; lia|done].
    rewrite E3, H2, u64_small; lia.
  - split; rewrite ?E1, ?E2; try done. destruct E3 as [-> | ->]; done.
Qed.

(** ** A run of the card *)

Fixpoint daynaRun (ops : list DaynaOp) (s : Dayna) : list (Dayna * DaynaOp * list Z) * Dayna :=
  match ops with
  | [] => ([], s)
  | op :: ops =>
      let '(out, s1) := daynaPerform op s in
      let '(log, s2) := daynaRun ops s1 in ((s, op, out) :: log, s2)
  end.

(** The frame in a reply to a read, cut out by the length the reply gives. *)
Definition delivered (e : Dayna * DaynaOp * list Z) : list (list Z) :=
  match e with
  | (_, Command cdb _, hi :: lo :: _ :: _ :: _ :: _ :: frame) =>
      if readsFrame cdb && (0 <? be16 hi lo) then [firstn (Z.to_nat (be16 hi lo)) frame] else []
  | _ => []
  end.

Definition accepted (e : Dayna * DaynaOp * list Z) : list (list Z) :=
  match e with (s, Arrive f, _) => if carries s f && fitsIn s f then [f] else [] | _ => [] end.
Definition turnedAway (e : Dayna * DaynaOp * list Z) : list (list Z) :=
  match e with (s, Arrive f, _) => if carries s f && negb (fitsIn s f) then [f] else [] | _ => [] end.

Definition staysOn (op : DaynaOp) : Prop := match op with Command cdb _ => switchesOff cdb = false | _ => True end.

Lemma arrive_ring s f : DaynaOk s -> let e := (s, Arrive f, @nil Z) in let s' := receiveFrame f s in
  rx_ s' = rx_ s ++ accepted e /\ framesDropped s' = framesDropped s + len (turnedAway e).
Proof.
  intros HI. cbn [accepted turnedAway]. rewrite receive_cases by done.
  destruct (carries s f), (fitsIn s f); cbn; by rewrite ?app_nil_r, ?Z.add_0_r.
Qed.

Lemma be16_split n : 0 <= n < 65536 -> be16 (u8 (n .>> 8)) (u8 n) = n.
Proof.
  intros Hn. unfold be16, u8, u16. rewrite Z.shiftr_div_pow2 by lia. change (2 ^ 8) with 256.
  rewrite (Z.mod_small (n / 256)) by (split; [apply Z.div_pos; lia|apply Z.div_lt_upper_bound; lia]).
  rewrite shiftl_lor_low by (try lia; apply Z.mod_pos_bound; lia). change (2 ^ 8) with 256.
  rewrite Z.mul_comm, <- Z.div_mod by lia. by apply Z.mod_small.
Qed.

Lemma command_delivers s cdb payload out st s' : DaynaOk s -> switchesOff cdb = false -> daynaCommand cdb payload s = (out, st, s') ->
  delivered (s, Command cdb payload, out) ++ map withFcs (rx_ s') = map withFcs (rx_ s) /\ framesDropped s' = framesDropped s.
Proof.
  intros HI HO E. destruct (command_effect _ _ _ _ _ _ E) as [HS|f rest HR E1 E2 _ _ E3 ->|HR E1 _ _ E2]; [congruence| |].
  - split; [|done]. rewrite E1, E2. cbn [readHeader app delivered map].
    pose proof (do_frames s HI) as HF. rewrite E1 in HF. apply Forall_cons_1 in HF as [[Hf _] _]. pose proof (withFcs_len f).
    unfold kMinFrame, kMaxFrame in *. rewrite be16_split, HR, (proj2 (Z.ltb_lt _ _)) by lia. cbn [andb app]. f_equal.
    unfold len. rewrite Nat2Z.id. apply firstn_all.
  - split; [|done]. rewrite E1. destruct (readsFrame cdb) eqn:ER; [destruct (HR eq_refl) as [-> ->]|].
    + cbn. by rewrite andb_false_r.
    + cbn [delivered]. destruct out as [|? [|? [|? [|? [|? [|? ?]]]]]]; try done. by rewrite ER.
Qed.

Lemma daynaRun_order ops : forall s log s', Forall daynaOp_ok ops -> Forall staysOn ops -> DaynaOk s -> daynaRun ops s = (log, s') ->
  flat_map delivered log ++ map withFcs (rx_ s') = map withFcs (rx_ s ++ flat_map accepted log) /\
  framesDropped s' = framesDropped s + len (flat_map turnedAway log) /\ DaynaOk s'.
Proof.
  induction ops as [|op ops IH]; intros s log s' HO HS HI; cbn [daynaRun].
  { intros [= <- <-]. cbn. by rewrite app_nil_r, Z.add_0_r. }
  apply Forall_cons_1 in HO as [Ho HO]. apply Forall_cons_1 in HS as [Hs HS].
  destruct (daynaPerform op s) as [out s1] eqn:EP, (daynaRun ops s1) as [log1 s2] eqn:ER. intros [= <- <-]. cbn [flat_map].
  assert (H1 : DaynaOk s1 /\ delivered (s, op, out) ++ map withFcs (rx_ s1) = map withFcs (rx_ s ++ accepted (s, op, out)) /\
    framesDropped s1 = framesDropped s + len (turnedAway (s, op, out))).
  { destruct op as [on|m|f|cdb payload]; cbn [daynaPerform] in EP.
    - injection EP as <- <-. cbn. rewrite app_nil_r, Z.add_0_r. split; [by destruct HI; split|done].
    - injection EP as <- <-. cbn. rewrite app_nil_r, Z.add_0_r. split; [by destruct HI; split|done].
    - injection EP as <- <-. destruct (arrive_ring s f HI) as [E1 E2]. split; [by apply receive_ok|]. by rewrite E1.
    - destruct (daynaCommand cdb payload s) as [[out' st] s''] eqn:EC. injection EP as <- <-.
      destruct (command_delivers _ _ _ _ _ _ HI Hs EC) as [E1 E2]. split; [by eapply command_ok|]. rewrite E1.
      cbn [accepted turnedAway]. rewrite app_nil_r. change (len (@nil (list Z))) with 0. by rewrite Z.add_0_r. }
  destruct H1 as (H1 & H2 & H3). destruct (IH s1 log1 s2 HO HS H1 ER) as (I1 & I2 & I3).
  rewrite <- app_assoc, I1, map_app, app_assoc, H2, <- map_app, <- app_assoc. split; [done|]. split; [|done].
  rewrite I2, H3, len_app. lia.
Qed.

Lemma daynaRun_ok ops : forall s log s', Forall daynaOp_ok ops -> DaynaOk s -> daynaRun ops s = (log, s') -> DaynaOk s'.
Proof.
  induction ops as [|op ops IH]; intros s log s' HO HI; cbn [daynaRun]; [by intros [= _ <-]|]. apply Forall_cons_1 in HO as [Ho HO].
  destruct (daynaPerform op s) as [out s1] eqn:EP, (daynaRun ops s1) as [log1 s2] eqn:ER. intros [= _ <-].
  apply (IH s1 log1); [done| |done]. destruct op as [on|m|f|cdb payload]; cbn [daynaPerform] in EP.
  - injection EP as <- <-. by destruct HI; split.
  - injection EP as <- <-. by destruct HI; split.
  - injection EP as <- <-. by apply receive_ok.
  - destruct (daynaCommand cdb payload s) as [[out' st] s''] eqn:EC. injection EP as <- <-. by eapply command_ok.
Qed.

(** C30. The guest gets the frames of the link in their order, each once and whole:
    whatever has happened to the card before, as long as its interface is not
    switched off the frames in the replies to the guest's reads, followed by
    those still in the ring, are those that were in the ring and those accepted
    since, each padded and with its check sequence; a frame that found the ring
    full is counted as dropped; and the ring never holds more than 6 KB. *)
Theorem dayna_in_order ops1 ops2 log1 s1 log2 s2 : Forall daynaOp_ok (ops1 ++ ops2) -> Forall staysOn ops2 ->
  daynaRun ops1 Dayna0 = (log1, s1) -> daynaRun ops2 s1 = (log2, s2) ->
  flat_map delivered log2 ++ map withFcs (rx_ s2) = map withFcs (rx_ s1 ++ flat_map accepted log2) /\
  framesDropped s2 = framesDropped s1 + len (flat_map turnedAway log2) /\ total (rx_ s2) <= kRxRingBytes.
Proof.
  intros HO HS E1 E2. apply Forall_app in HO as [HO1 HO2].
  destruct (daynaRun_order ops2 s1 log2 s2 HO2 HS (daynaRun_ok ops1 _ _ _ HO1 Dayna0_ok E1) E2) as (I1 & I2 & I3).
  split; [done|]. split; [done|]. rewrite <- (do_count s2 I3). apply (do_bound s2 I3).
Qed.

(** Five full frames: four fit, the fifth is dropped until one has been read. *)
Definition fullFrame (n : Z) : list Z := replicate 1514 n.
Definition readCdb : list Z := [0x08; 0; 0; 6; 0; 0xC0].

Lemma dayna_in_order_witness :
  let ops1 := [Plug true; Command [0x0E; 0; 0; 0; 0; 0x80] []; Arrive (fullFrame 1)] in
  let ops2 := map (fun n => Arrive (fullFrame n)) [2; 3; 4; 5] ++ [Command readCdb []; Arrive (fullFrame 6); Command readCdb []] in
  let s1 := (daynaRun ops1 Dayna0).2 in let log2 := (daynaRun ops2 s1).1 in let s2 := (daynaRun ops2 s1).2 in
  map (firstn 1) (rx_ s2) = [[3]; [4]; [6]] /\ framesDropped s2 = 1 /\
  (flat_map delivered log2 ++ map withFcs (rx_ s2) = map withFcs (rx_ s1 ++ flat_map accepted log2) /\
   framesDropped s2 = framesDropped s1 + len (flat_map turnedAway log2) /\ total (rx_ s2) <= kRxRingBytes).
Proof.
  cbv zeta. split; [by vm_compute|]. split; [by vm_compute|].
  eapply (dayna_in_order [Plug true; Command [0x0E; 0; 0; 0; 0; 0x80] []; Arrive (fullFrame 1)]
    (map (fun n => Arrive (fullFrame n)) [2; 3; 4; 5] ++ [Command readCdb []; Arrive (fullFrame 6); Command readCdb []])).
  - repeat (apply Forall_cons_2; [first [done|apply Forall_replicate; unfold byte; lia]|]). apply Forall_nil_2.
  - by repeat constructor.
  - apply surjective_pairing.
  - apply surjective_pairing.
Defined.

(** ** The card across a save and a load *)

Record DaynaFits (s : Dayna) : Prop := {
  df_ok : DaynaOk s;
  df_mac : Forall byte (mac_ s);
  df_sense : byte (senseKey_ s) /\ byte (senseAsc_ s);
  df_counts : InInt 8 true (framesToGuest s) /\ InInt 8 true (framesFromGuest s) /\ InInt 8 true (framesDropped s) /\
    InInt 8 true (bytesToGuest s) /\ InInt 8 true (bytesFromGuest s) /\ InInt 8 true (daynaCommands s)
}.

(** The attachment and the link are the machine's. *)
Definition SameCard (s s' : Dayna) : Prop :=
  attached_ s = attached_ s' /\ sent_ s = sent_ s' /\ length (mac_ s) = length (mac_ s').

#[export] Instance sameCard_equiv : Equivalence SameCard.
Proof. split; repeat intro; unfold SameCard in *; intuition congruence. Qed.

Lemma framesC_lawful : Lawful (seqC (seqC (intC 1 false) 0) []) anything (Forall (Forall byte)).
Proof.
  eapply seqC_lawful; [apply bytesC_lawful| |done]. intros x _. cbn [put seqC]. rewrite len_app.
  pose proof (putVarint_nonempty (len x)). pose proof (len_nonneg (putEach (intC 1 false) x)). lia.
Qed.

Lemma daynaC_lawful : Lawful daynaC SameCard DaynaFits.
Proof.
  apply visitC_lawful; [apply _| |].
  - apply Forall_cons_2; [eapply plain_field; [apply boolC_lawful|done|done]|]. apply Forall_cons_2.
    { exists (Forall2 anything), (fun xs => len xs = 6 /\ Forall byte xs). split_and!.
      - apply arrayC_lawful, (intC_lawful 1 false). lia.
      - intros s0 s (_ & _ & E). by apply any_lengths.
      - intros s H. split; [apply (do_mac s (df_ok s H))|apply H].
      - intros s v H. split; [done|]. split; [done|]. by apply any_lengths. }
    apply Forall_cons_2.
    { eapply plain_field; [apply framesC_lawful| |done]. intros s H. generalize (do_frames s (df_ok s H)). apply Forall_impl. by intros f []. }
    apply Forall_cons_2.
    { eapply plain_field; [apply (intC_lawful 8 false); lia| |done]. intros s H. destruct (df_ok s H) as [_ E B _].
      pose proof (total_nonneg (rx_ s)). unfold kRxRingBytes in B. unfold InInt. cbn. lia. }
    do 2 (apply Forall_cons_2; [eapply plain_field; [apply (intC_lawful 1 false); lia|intros s H; apply H|done]|]).
    repeat (apply Forall_cons_2; [eapply plain_field; [apply (intC_lawful 8 true); lia| |done]|]); [..|apply Forall_nil_2];
      intros s H; destruct (df_counts s H) as (? & ? & ? & ? & ? & ?); assumption.
  - intros [] [] (E1 & E2 & E3) _. cbn in *. by subst.
Qed.

(** A card saved with frames in its ring is given back by a load, and hands the
    same frames to the guest. *)
Theorem dayna_survives_restore s0 s r rest : DaynaFits s -> SameCard s0 s -> Before r (put daynaC s ++ rest) ->
  get daynaC s0 r = Some (s, advance r (len (put daynaC s))).
Proof. intros HF HS HB. by apply (lw_roundtrip _ _ _ daynaC_lawful s0 s r rest). Qed.

(** ** The controller across a save and a load *)

Section ScsiSave.
Context {T : Type}.
Implicit Types s : Scsi T.

Definition phaseFits (p : BusPhase) : Prop := 0 <= busPhaseNumber p < 2 ^ 32 /\ busPhaseOf (busPhaseNumber p) = p.

Lemma busPhaseC_lawful : Lawful busPhaseC anything phaseFits.
Proof.
  pose proof (intC_lawful 4 false ltac:(lia)) as L. split; [apply _|..]; cbn [busPhaseC put get].
  - intros p0 p r rest _ [H1 H2] HB. rewrite (lw_roundtrip _ _ _ L _ (busPhaseNumber p) r rest I) by done. bnd. by rewrite H2.
  - intros p r HV. destruct (lw_total _ _ _ L (busPhaseNumber p) r HV) as (n & r' & -> & _ & F). bnd.
    do 2 eexists. split; [done|]. by split.
  - intros p0 r p r' more HV HV' E O. destruct (get (intC 4 false) _ r) as [[n r1]|] eqn:E1; [|done]. cbn [mbind option_bind] in E.
    injection E as <- <-. by rewrite (lw_stable _ _ _ L _ r n r1 more HV HV' E1 O).
Qed.

(** The device of the session, if there is one, is still attached. *)
Definition attachedDisk s : Prop := disk_ s = None \/ exists i, 0 <= i < 7 /\ targetAt i s = disk_ s.

Record ScsiFits s : Prop := {
  sf_regs : byte (odr_ s) /\ byte (icr_ s) /\ byte (mode_ s) /\ byte (tcr_ s) /\ byte (selEnable_ s);
  sf_phase : phaseFits (phase_ s);
  sf_data : Forall byte (cmd_ s) /\ Forall byte (dataIn_ s) /\ Forall byte (dataOut_ s);
  sf_pos : InInt 8 false (dataPos_ s) /\ InInt 8 false (dataOutExpected_ s) /\ InInt 4 true (cmdLen_ s);
  sf_last : byte (status_ s) /\ byte (lastCmd s);
  sf_counts : InInt 8 true (reads s) /\ InInt 8 true (writes s) /\ InInt 8 true (selects s) /\ InInt 8 true (commands s) /\
    InInt 8 true (dmaBytes s);
  sf_disk : attachedDisk s
}.

(** The devices, the mailbox and the attachments are the machine's. *)
Definition SameBus s s' : Prop := units_ s = units_ s' /\ agent_ s = agent_ s' /\ targets_ s = targets_ s'.

#[export] Instance sameBus_equiv : Equivalence SameBus.
Proof. split; repeat intro; unfold SameBus in *; intuition congruence. Qed.

Lemma sel_cases s : attachedDisk s -> (disk_ s = None /\ sel s = -1) \/ (0 <= sel s < 7 /\ targetAt (sel s) s = disk_ s).
Proof.
  intros HA. unfold sel. destruct (filter _ (seqZ 0 7)) as [|i l] eqn:E.
  - left. split; [|done]. destruct HA as [HA|(i & Hi & HA)]; [done|]. destruct (disk_ s) as [d|] eqn:Ed; [|done]. exfalso.
    assert (Hin : i ∈ filter (fun i => Some d <> None /\ targetAt i s = Some d) (seqZ 0 7))
      by (apply list_elem_of_filter; split; [by split|apply elem_of_seqZ; lia]).
    rewrite E in Hin. by apply not_elem_of_nil in Hin.
  - right. assert (Hin : i ∈ i :: l) by apply list_elem_of_here. rewrite <- E in Hin. apply list_elem_of_filter in Hin as [[_ H1] H2].
    apply elem_of_seqZ in H2. split; [cbn; lia|done].
Qed.

Lemma setSel_back s s0 : attachedDisk s -> targets_ s0 = targets_ s -> setSel (sel s) s0 = set_disk (disk_ s) s0.
Proof.
  intros HA HT. unfold setSel. destruct (sel_cases s HA) as [[-> ->]|[H1 H2]]; [done|].
  rewrite (proj2 (Z.leb_le _ _)), (proj2 (Z.ltb_lt _ _)) by lia. cbn [andb]. f_equal. rewrite <- H2. unfold targetAt. by rewrite HT.
Qed.

Lemma scsiC_lawful : Lawful scsiC SameBus ScsiFits.
Proof.
  pose proof (intC_lawful 1 false ltac:(lia)) as L1. pose proof (intC_lawful 8 true ltac:(lia)) as L8.
  apply visitC_lawful; [apply _| |].
  - repeat (apply Forall_cons_2; [eapply plain_field;
      [first [exact L1|exact L8|apply busPhaseC_lawful|apply boolC_lawful|apply bytesC_lawful|apply intC_lawful; lia]| |done]|]);
      [..|apply Forall_nil_2]; intros s [H1 H2 H3 H4 H5 H6 H7]; try done; try tauto.
    destruct (sel_cases s H7) as [[_ ->]|[Hs _]]; unfold InInt; cbn; lia.
  - intros s0 s (E1 & E2 & E3) HF. pose proof (sf_disk s HF) as HA.
    unfold restore. cbn [foldl fieldGet fieldSet]. rewrite setSel_back by done. destruct s, s0. cbn in *. by subst.
Qed.

(** A session saved in the middle of a transfer resumes at the same byte, with
    the same device, in a machine where that device is attached. *)
Theorem scsi_session_restored s0 s r rest : ScsiFits s -> SameBus s0 s -> Before r (put scsiC s ++ rest) ->
  get scsiC s0 r = Some (s, advance r (len (put scsiC s))).
Proof. intros HF HS HB. by apply (lw_roundtrip _ _ _ scsiC_lawful s0 s r rest). Qed.
End ScsiSave.

(** ** The card behind the controller *)

Lemma take_all {A} (l : list A) n : n = len l -> firstn (Z.to_nat n) l = l.
Proof. intros ->. unfold len. rewrite Nat2Z.id. apply firstn_all. Qed.

Lemma strip_back f : stripFcs (withFcs f) = padded f.
Proof.
  unfold stripFcs. rewrite withFcs_len. pose proof (padded_len f). unfold kMinFrame in *. rewrite (proj2 (Z.leb_le _ _)) by lia.
  replace (Z.max 60 (len f) + 4 - 4) with (len (padded f)) by lia. unfold withFcs, len. rewrite Nat2Z.id.
  by rewrite take_app_length, drop_app_length, bool_decide_true.
Qed.

Lemma read_reply t f rest c3 c4 : rx_ t = f :: rest -> c4 <> 1 -> exists t1,
  daynaCommand [0x08; 0; 0; c3; c4; 0xC0] [] t = (readHeader f (negb (rest == [])) ++ withFcs f, kGood, t1) /\
  rx_ t1 = rest /\ sent_ t1 = sent_ t /\ enabled_ t1 = enabled_ t /\ attached_ t1 = attached_ t.
Proof.
  intros Hr H1. unfold daynaCommand. cbv zeta. cbn [Z.eqb Pos.eqb]. unfold readFrame. cbn [Z.eqb Pos.eqb kReadCtlA negb andb].
  rewrite (proj2 (Z.eqb_neq c4 1)) by done. change (rx_ (set_daynaCommands _ t)) with (rx_ t). rewrite Hr.
  eexists. split; [unfold readHeader; cbn [rx_ set_rxBytes set_rx]; by destruct rest|done].
Qed.

Lemma write_reply t g hi lo : be16 hi lo = len g -> 14 <= len (stripFcs g) <= kMaxFrame -> enabled_ t = true -> exists t1,
  daynaCommand [0x0A; 0; 0; hi; lo; 0] g t = ([], kGood, t1) /\ sent_ t1 = sent_ t ++ [stripFcs g] /\ rx_ t1 = rx_ t.
Proof.
  intros Hn Hl He. unfold daynaCommand. cbv zeta. cbn [Z.eqb Pos.eqb]. unfold writeFrame. cbn [Z.eqb kWriteFmtRaw]. cbv zeta.
  rewrite Hn, Z.ltb_irrefl, take_all by done. eexists. split; [done|]. unfold transmit.
  rewrite (proj2 (Z.leb_le 14 _)), (proj2 (Z.leb_le _ kMaxFrame)) by lia.
  change (enabled_ (set_daynaCommands _ t)) with (enabled_ t). rewrite He. done.
Qed.

Section Bus.
Context {B : Type} `{ScsiTarget B}.

(** A six-byte command to the card at [id]. *)
Lemma card_command (dma : bool) id d t op a b c e g payload out x t2 (s : Scsi (Dayna + B)) :
  phase_ s = BUS_FREE -> 0 <= id < 7 -> targetAt id s = Some d -> units_ s !! d = Some (inl t) -> attached_ t = true ->
  (dma = true -> has (mode_ s) MODE_DMA = true) -> 0 <= op < 32 -> len payload = Z.max 0 (daynaByteCount [op; a; b; c; e; g]) ->
  daynaCommand [op; a; b; c; e; g] payload t = (out, x, t2) -> small out ->
  exists k s', (forall fuel, (k <= fuel)%nat -> transact fuel dma id ([op; a; b; c; e; g] ++ payload) s =
      Some (if 0 <? daynaByteCount [op; a; b; c; e; g] then [] else out, x, s')) /\
    phase_ s' = BUS_FREE /\ units_ s' = <[d := inl t2]> (units_ s) /\ kept s' = kept s.
Proof.
  intros Hp Hi Ha Hu Hon Hm Ho Hl Hc Hs. set (card := @inl Dayna B t).
  change (daynaByteCount [op; a; b; c; e; g]) with (writeByteCount [op; a; b; c; e; g] (selectLun kNoIdentify card)) in Hl |- *.
  apply (transact_ok dma id d card [op; a; b; c; e; g] op [a; b; c; e; g] payload out x (inl t2) s); try done.
  - unfold cdbLength. rewrite Z.shiftr_div_pow2 by lia. change (2 ^ 5) with 32. rewrite (Z.div_small op 32) by lia. done.
  - cbn [handles]. unfold kPoll, kReport. rewrite !(proj2 (Z.eqb_neq op _)) by lia. by rewrite andb_false_r.
  - change (targetCommand _ payload _) with (let '(out, x, t) := daynaCommand [op; a; b; c; e; g] payload t in (out, x, @inl Dayna B t)).
    by rewrite Hc.
Qed.
End Bus.

(** C10. The whole way of a frame, link to guest and guest to link: a driver that
    reads the next frame from the card through the controller and sends the bytes
    it got back, with the length the card's header gave, by handshake or by
    pseudo-DMA, comes to the end of both commands with good status; the card has
    handed over the frame padded with its check sequence, and has put onto the
    link exactly the padded frame, without the sequence; the ring has lost that
    frame and nothing else, and nothing else on the bus has changed. *)
Theorem dayna_echo {B} `{ScsiTarget B} (dma : bool) id d t f rest c3 c4 (s : Scsi (Dayna + B)) :
  phase_ s = BUS_FREE -> 0 <= id < 7 -> targetAt id s = Some d -> units_ s !! d = Some (inl t) ->
  attached_ t = true -> enabled_ t = true -> rx_ t = f :: rest -> frameOk f -> c4 <> 1 ->
  (dma = true -> has (mode_ s) MODE_DMA = true) ->
  exists k s1 s2 t2 hi lo more, hi * 256 + lo = len (withFcs f) /\
    (forall fuel, (k <= fuel)%nat -> transact fuel dma id [0x08; 0; 0; c3; c4; 0xC0] s =
       Some ([hi; lo; 0; 0; 0; more] ++ withFcs f, kGood, s1)) /\
    (forall fuel, (k <= fuel)%nat -> transact fuel dma id ([0x0A; 0; 0; hi; lo; 0] ++ withFcs f) s1 = Some ([], kGood, s2)) /\
    phase_ s2 = BUS_FREE /\ units_ s2 = <[d := inl t2]> (units_ s) /\ kept s2 = kept s /\
    rx_ t2 = rest /\ sent_ t2 = sent_ t ++ [padded f].
Proof.
  intros Hp Hi Ha Hu Hon Hen Hr [Hf _] H1 Hm. destruct (read_reply t f rest c3 c4 Hr H1) as (t1 & E1 & R1 & R2 & R3 & R4).
  pose proof (withFcs_len f) as HL. unfold kMinFrame, kMaxFrame in *.
  destruct (card_command dma id d t 0x08 0 0 c3 c4 0xC0 [] _ _ _ s Hp Hi Ha Hu Hon Hm ltac:(lia) eq_refl E1) as (k1 & s1 & K1 & P1 & U1 & Q1).
  { rewrite len_app. change (len (readHeader _ _)) with 6. lia. }
  set (hi := u8 (len (withFcs f) .>> 8)) in *. set (lo := u8 (len (withFcs f))) in *.
  assert (HB : be16 hi lo = len (withFcs f)) by (apply be16_split; lia).
  destruct (write_reply t1 (withFcs f) hi lo HB) as (t2 & E2 & S2 & S3); [rewrite strip_back, padded_len; unfold kMinFrame, kMaxFrame; lia|congruence|].
  pose proof Q1 as [= G1 G2 G3]. assert (HT : targetAt id s1 = Some d) by (unfold targetAt; by rewrite G2).
  assert (HD : units_ s1 !! d = Some (inl t1)) by (rewrite U1; apply list_lookup_insert_eq; by eapply lookup_lt_Some).
  destruct (card_command dma id d t1 0x0A 0 0 hi lo 0 (withFcs f) _ _ _ s1 P1 Hi HT HD ltac:(congruence) ltac:(by rewrite G3) ltac:(lia)
    ltac:(cbn [daynaByteCount Z.eqb Pos.eqb kWriteFmtRaw]; rewrite HB; lia) E2) as (k2 & s2 & K2 & P2 & U2 & Q2); [done|].
  exists (k1 + k2)%nat, s1, s2, t2, hi, lo, (if negb (rest == []) then 0x10 else 0). split_and!.
  - subst hi lo. revert HB. unfold be16, u16. intros HB. rewrite shiftl_lor_low in HB by (try lia; apply u8_range).
    pose proof (u8_range (len (withFcs f) .>> 8)) as B1. pose proof (u8_range (len (withFcs f))) as B2. unfold byte in B1, B2.
    change (2 ^ 8) with 256 in HB. rewrite Z.mod_small in HB; lia.
  - intros fuel Hk. apply (K1 fuel). lia.
  - intros fuel Hk. rewrite (K2 fuel) by lia. by destruct (0 <? daynaByteCount [0x0A; 0; 0; hi; lo; 0]).
  - done.
  - rewrite U2, U1. apply list_insert_insert_eq.
  - congruence.
  - congruence.
  - by rewrite S2, R2, strip_back.
Qed.

(** A bus with the agent's endpoint at 0 and the card at 3, and a short frame in
    its ring. *)
Definition plugged : Dayna := receiveFrame (replicate 20 7) (set_enabled true (set_attached true Dayna0)).
Definition mixedBus : Scsi (Dayna + AgentTarget) :=
  attach (Some 1%nat) 3 (attach (Some 0%nat) 0 (newScsi [inr AgentTarget0; inl plugged])).

Lemma dayna_echo_witness : exists k s1 s2 t2 hi lo more, hi * 256 + lo = 64 /\
    (forall fuel, (k <= fuel)%nat -> transact fuel false 3 readCdb mixedBus =
       Some ([hi; lo; 0; 0; 0; more] ++ withFcs (replicate 20 7), kGood, s1)) /\
    (forall fuel, (k <= fuel)%nat -> transact fuel false 3 ([0x0A; 0; 0; hi; lo; 0] ++ withFcs (replicate 20 7)) s1 = Some ([], kGood, s2)) /\
    phase_ s2 = BUS_FREE /\ units_ s2 = [inr AgentTarget0; inl t2] /\ kept s2 = kept mixedBus /\
    rx_ t2 = [] /\ sent_ t2 = [replicate 20 7 ++ replicate 40 0].
Proof.
  apply (dayna_echo false 3 1 plugged (replicate 20 7) [] 6 0 mixedBus); try done; try lia.
  split; [by vm_compute|]. apply Forall_replicate. unfold byte. lia.
Defined.
