(* ===== verification/RogueState.v ===== *)
(** * RogueState: the game's shared state and the effects of its code

    The data model of [dev/mac-rogue/rogue.h]: the constants, the three
    structures, and one record [Game] holding every global and file-static
    variable of the game's C files under its C name.  A [u8] variable is a
    [Z]; every store into one goes through [u8].

    The C functions are programs of the monad [M]: they read and update the
    [Game], and may leave through [ColdStart] (a longjmp), stop because the
    player has typed nothing more, or perform an access the C program must not
    perform ([Fault]).  Presenting a frame, sound and Toolbox calls do not
    influence the game; they are recorded in [out], newest first.  [input] is the sequence of
    characters [ShellWaitKey] hands to the game; a [MenuQuit] stands for the
    Quit command or the close box handled inside that call. *)

From S2P Require Import Prelude.
From stdpp Require Import base list numbers option decidable strings.

Open Scope Z_scope.

(** ** Constants *)

Definition LOGICAL_COLS : Z := 16.
Definition LOGICAL_ROWS : Z := 10.
Definition MAP_CELLS : Z := 160.
Definition PLAY_TOP_ROW : Z := 1.
Definition PLAY_BOT_ROW : Z := 8.
Definition PLAY_LEFT_COL : Z := 1.
Definition PLAY_RIGHT_COL : Z := 14.

Definition HP_MAX : Z := 14.
Definition FOOD_HEAL : Z := 3.
Definition PIT_DMG : Z := 3.
Definition LAST_ATTACKER_PIT : Z := 7.
Definition WEAPON_DURATION : Z := 20.
Definition ARMOR_DURATION : Z := 30.
Definition RING_DURATION : Z := 15.
Definition TORCH_DURATION : Z := 50.
Definition TORCH_RADIUS : Z := 7.
Definition FOV_RADIUS : Z := 3.
Definition THROW_RANGE : Z := 8.
Definition DAGGER_DMG : Z := 2.
Definition DAGGER_QTY_MAX : Z := 99.
Definition RING_F_REGEN : Z := 1.
Definition RING_REGEN_PERIOD : Z := 5.

Definition MON_COUNT : Z := 16.
Definition MON_TYPE_UNDEAD : Z := 1.
Definition MON_TYPE_GHOST : Z := 2.
Definition MON_TYPE_TROLL : Z := 3.
Definition MON_TYPE_SKELETON : Z := 4.
Definition MON_TYPE_DEATH : Z := 5.
Definition MON_TYPE_BOSS : Z := 6.

Definition ITEM_COUNT : Z := 8.
Definition ITEM_T_WEAPON : Z := 1.
Definition ITEM_T_ARMOR : Z := 2.
Definition ITEM_T_RING : Z := 3.
Definition ITEM_T_POTION : Z := 4.
Definition ITEM_T_SCROLL : Z := 5.
Definition ITEM_T_FOOD : Z := 6.
Definition ITEM_T_DAGGER : Z := 7.
Definition ITEM_T_TORCH : Z := 8.
Definition INV_COUNT : Z := 26.

Definition TILE_EMPTY : Z := 0.
Definition TILE_WALL : Z := 1.
Definition TILE_DOOR : Z := 2.
Definition TILE_STAIRS_DOWN : Z := 3.
Definition TILE_STAIRS_UP : Z := 4.
Definition TILE_TRAP_PIT : Z := 5.
Definition TILE_CORR : Z := 6.
Definition TILE_CORR_DROP : Z := 7.
Definition TILE_REVEAL_BIT : Z := 8.

(** The ASCII codes of the command keys. *)
Definition KEY_NORTH : Z := 73.
Definition KEY_SOUTH : Z := 75.
Definition KEY_WEST : Z := 74.
Definition KEY_EAST : Z := 76.

Definition COLD_RESTART : Z := 1.
Definition COLD_QUIT : Z := 2.

(** [snd.h]: the sound effects. *)
Inductive Sfx : Set :=
| SFX_NONE | SFX_TITLE | SFX_STAIRS | SFX_HIT | SFX_KILL | SFX_HURT
| SFX_HURT_LOW | SFX_GLANCE | SFX_BOSS_HIT | SFX_PICKUP | SFX_QUAFF
| SFX_SCROLL | SFX_BUFF | SFX_THROW | SFX_PIT | SFX_LEVELUP | SFX_DEATH
| SFX_WIN.

(** ** Structures *)

Record Monster := mkMonster {
  m_type : Z;
  m_hp : Z;
  m_col : Z;
  m_row : Z;
  m_name : Z;
  m_color : Z;
  m_dmg : Z;
  m_hurt : Z
}.

Record WorldItem := mkItem {
  w_type : Z;
  w_col : Z;
  w_row : Z;
  w_subtype : Z
}.

Record InvSlot := mkSlot {
  i_type : Z;
  i_subtype : Z;
  i_qty : Z;
  i_value : Z
}.

#[export] Instance eta_monster : Eta Monster := fun m =>
  mkMonster (m_type m) (m_hp m) (m_col m) (m_row m) (m_name m) (m_color m)
    (m_dmg m) (m_hurt m).
#[export] Instance eta_item : Eta WorldItem := fun w =>
  mkItem (w_type w) (w_col w) (w_row w) (w_subtype w).
#[export] Instance eta_slot : Eta InvSlot := fun i =>
  mkSlot (i_type i) (i_subtype i) (i_qty i) (i_value i).

Definition set_m_type := ltac:(set_field m_type).
Definition set_m_hp := ltac:(set_field m_hp).
Definition set_m_col := ltac:(set_field m_col).
Definition set_m_row := ltac:(set_field m_row).
Definition set_m_hurt := ltac:(set_field m_hurt).
Definition set_w_type := ltac:(set_field w_type).
Definition set_i_type := ltac:(set_field i_type).
Definition set_i_qty := ltac:(set_field i_qty).

(** What the shell reads: a translated key, or the Quit command. *)
Inductive Input : Set :=
| Key (c : Z)
| MenuQuit.

(** Calls whose only effect is on the glass, the sound channel or the event
    queue ([snd.c], [mac_shell.c]). *)
Inductive Event : Set :=
| SfxPlayed (id : Sfx)
| Presented
| Drained
| Delayed (ticks : Z).

(** ** The display ([vdp.h], [vdp.c])

    The name table, the per-cell colour override, the headline list, the sprite
    table and the idle clock.  [saved] is the static buffer of [LevelReveal]. *)

Record SatEntry := mkSat {
  e_y : Z;
  e_x : Z;
  e_name : Z;
  e_color : Z;
  e_flags : Z
}.

Record BigText := mkBig {
  b_row : Z;
  b_col : Z;
  b_fg : Z;
  b_text : string
}.

Record Vdp := mkVdp {
  gName : list Z;
  gCellFg : list Z;
  gBigText : list BigText;
  gBigCount : Z;
  gSat : list SatEntry;
  gSatCount : Z;
  gVdpPhase : Z;
  saved : list Z
}.

#[export] Instance eta_vdp : Eta Vdp := fun v =>
  mkVdp (gName v) (gCellFg v) (gBigText v) (gBigCount v) (gSat v) (gSatCount v)
    (gVdpPhase v) (saved v).

Definition set_gName := ltac:(set_field gName).
Definition set_gCellFg := ltac:(set_field gCellFg).
Definition set_gBigText := ltac:(set_field gBigText).
Definition set_gBigCount := ltac:(set_field gBigCount).
Definition set_gSat := ltac:(set_field gSat).
Definition set_gSatCount := ltac:(set_field gSatCount).
Definition set_gVdpPhase := ltac:(set_field gVdpPhase).
Definition set_saved := ltac:(set_field saved).

(** ** The state *)

Record Game := mkGame {
  gMap : list Z;
  gVis : list Z;
  gPrngLo : Z;
  gPrngHi : Z;
  gMon : list Monster;
  gItem : list WorldItem;
  gInv : list InvSlot;
  gPlayerCol : Z;
  gPlayerRow : Z;
  gTgtCol : Z;
  gTgtRow : Z;
  gDepth : Z;
  gTransMode : Z;
  gWrapAnchor : Z;
  gBossCheat : Z;
  gHp : Z;
  gHpMax : Z;
  gPlayerHurt : Z;
  gLastAttacker : Z;
  gPlayerDmg : Z;
  gPlayerDef : Z;
  gPlayerXp : Z;
  gXpAtkBonus : Z;
  gXpDefBonus : Z;
  gHpTick : Z;
  gAtkTick : Z;
  gDefTick : Z;
  gRingFlags : Z;
  gRegenTick : Z;
  gWeaponTimer : Z;
  gWeaponBoost : Z;
  gArmorTimer : Z;
  gArmorBoost : Z;
  gTorchTimer : Z;
  gRingTimer : Z;
  gRingBoost : Z;
  gDaggerQty : Z;
  gMonTypePool : Z;
  gMonHpBonus : Z;
  gMonDmgBonus : Z;
  gFovR : Z;
  gThrowActive : Z;
  gCurX : Z;
  gCurY : Z;
  room_x : Z;
  room_y : Z;
  room_w : Z;
  room_h : Z;
  cx : Z;
  cy : Z;
  prev_cx : Z;
  prev_cy : Z;
  corr_row : Z;
  mon_abs_dx : Z;
  mon_abs_dy : Z;
  oct_xx : Z;
  oct_xy : Z;
  oct_yx : Z;
  oct_yy : Z;
  gLine : string;
  gHist : list string;
  gHistCount : Z;
  gHistNext : Z;
  vdp : Vdp;
  input : list Input;
  ticks : Z;
  out : list Event
}.

#[export] Instance eta_game : Eta Game := fun s =>
  mkGame
    (gMap s) (gVis s) (gPrngLo s) (gPrngHi s) (gMon s) (gItem s) (gInv s)
    (gPlayerCol s) (gPlayerRow s) (gTgtCol s) (gTgtRow s) (gDepth s)
    (gTransMode s) (gWrapAnchor s) (gBossCheat s) (gHp s) (gHpMax s)
    (gPlayerHurt s) (gLastAttacker s) (gPlayerDmg s) (gPlayerDef s)
    (gPlayerXp s) (gXpAtkBonus s) (gXpDefBonus s) (gHpTick s) (gAtkTick s)
    (gDefTick s) (gRingFlags s) (gRegenTick s) (gWeaponTimer s)
    (gWeaponBoost s) (gArmorTimer s) (gArmorBoost s) (gTorchTimer s)
    (gRingTimer s) (gRingBoost s) (gDaggerQty s) (gMonTypePool s)
    (gMonHpBonus s) (gMonDmgBonus s) (gFovR s) (gThrowActive s) (gCurX s)
    (gCurY s) (room_x s) (room_y s) (room_w s) (room_h s) (cx s) (cy s)
    (prev_cx s) (prev_cy s) (corr_row s) (mon_abs_dx s) (mon_abs_dy s)
    (oct_xx s) (oct_xy s) (oct_yx s) (oct_yy s) (gLine s) (gHist s)
    (gHistCount s) (gHistNext s) (vdp s) (input s) (ticks s) (out s).

Definition set_gMap := ltac:(set_field gMap).
Definition set_gVis := ltac:(set_field gVis).
Definition set_gPrngLo := ltac:(set_field gPrngLo).
Definition set_gPrngHi := ltac:(set_field gPrngHi).
Definition set_gMon := ltac:(set_field gMon).
Definition set_gItem := ltac:(set_field gItem).
Definition set_gInv := ltac:(set_field gInv).
Definition set_gPlayerCol := ltac:(set_field gPlayerCol).
Definition set_gPlayerRow := ltac:(set_field gPlayerRow).
Definition set_gTgtCol := ltac:(set_field gTgtCol).
Definition set_gTgtRow := ltac:(set_field gTgtRow).
Definition set_gDepth := ltac:(set_field gDepth).
Definition set_gTransMode := ltac:(set_field gTransMode).
Definition set_gWrapAnchor := ltac:(set_field gWrapAnchor).
Definition set_gBossCheat := ltac:(set_field gBossCheat).
Definition set_gHp := ltac:(set_field gHp).
Definition set_gHpMax := ltac:(set_field gHpMax).
Definition set_gPlayerHurt := ltac:(set_field gPlayerHurt).
Definition set_gLastAttacker := ltac:(set_field gLastAttacker).
Definition set_gPlayerDmg := ltac:(set_field gPlayerDmg).
Definition set_gPlayerDef := ltac:(set_field gPlayerDef).
Definition set_gPlayerXp := ltac:(set_field gPlayerXp).
Definition set_gXpAtkBonus := ltac:(set_field gXpAtkBonus).
Definition set_gXpDefBonus := ltac:(set_field gXpDefBonus).
Definition set_gHpTick := ltac:(set_field gHpTick).
Definition set_gAtkTick := ltac:(set_field gAtkTick).
Definition set_gDefTick := ltac:(set_field gDefTick).
Definition set_gRingFlags := ltac:(set_field gRingFlags).
Definition set_gRegenTick := ltac:(set_field gRegenTick).
Definition set_gWeaponTimer := ltac:(set_field gWeaponTimer).
Definition set_gWeaponBoost := ltac:(set_field gWeaponBoost).
Definition set_gArmorTimer := ltac:(set_field gArmorTimer).
Definition set_gArmorBoost := ltac:(set_field gArmorBoost).
Definition set_gTorchTimer := ltac:(set_field gTorchTimer).
Definition set_gRingTimer := ltac:(set_field gRingTimer).
Definition set_gRingBoost := ltac:(set_field gRingBoost).
Definition set_gDaggerQty := ltac:(set_field gDaggerQty).
Definition set_gMonTypePool := ltac:(set_field gMonTypePool).
Definition set_gMonHpBonus := ltac:(set_field gMonHpBonus).
Definition set_gMonDmgBonus := ltac:(set_field gMonDmgBonus).
Definition set_gFovR := ltac:(set_field gFovR).
Definition set_gThrowActive := ltac:(set_field gThrowActive).
Definition set_gCurX := ltac:(set_field gCurX).
Definition set_gCurY := ltac:(set_field gCurY).
Definition set_room_x := ltac:(set_field room_x).
Definition set_room_y := ltac:(set_field room_y).
Definition set_room_w := ltac:(set_field room_w).
Definition set_room_h := ltac:(set_field room_h).
Definition set_cx := ltac:(set_field cx).
Definition set_cy := ltac:(set_field cy).
Definition set_prev_cx := ltac:(set_field prev_cx).
Definition set_prev_cy := ltac:(set_field prev_cy).
Definition set_corr_row := ltac:(set_field corr_row).
Definition set_mon_abs_dx := ltac:(set_field mon_abs_dx).
Definition set_mon_abs_dy := ltac:(set_field mon_abs_dy).
Definition set_oct_xx := ltac:(set_field oct_xx).
Definition set_oct_xy := ltac:(set_field oct_xy).
Definition set_oct_yx := ltac:(set_field oct_yx).
Definition set_oct_yy := ltac:(set_field oct_yy).
Definition set_gLine := ltac:(set_field gLine).
Definition set_gHist := ltac:(set_field gHist).
Definition set_gHistCount := ltac:(set_field gHistCount).
Definition set_gHistNext := ltac:(set_field gHistNext).
Definition set_vdp := ltac:(set_field vdp).
Definition set_input := ltac:(set_field input).
Definition set_ticks := ltac:(set_field ticks).
Definition set_out := ltac:(set_field out).

(** ** Programs *)

Inductive Res (A : Type) : Type :=
| Ok (a : A) (s : Game)
| Cold (reason : Z) (s : Game)
| Starved (s : Game)
| Fault.
Arguments Ok {A} _ _.
Arguments Cold {A} _ _.
Arguments Starved {A} _.
Arguments Fault {A}.

Definition M (A : Type) : Type := Game -> Res A.

#[export] Instance M_ret : MRet M := fun A a s => Ok a s.
#[export] Instance M_bind : MBind M := fun A B k m s =>
  match m s with
  | Ok a s' => k a s'
  | Cold r s' => Cold r s'
  | Starved s' => Starved s'
  | Fault => Fault
  end.

Definition get : M Game := fun s => Ok s s.
Definition upd (f : Game -> Game) : M () := fun s => Ok tt (f s).
Definition fault {A} : M A := fun _ => Fault.

(** An index outside a C array is a [Fault]. *)
Definition aget {A} (l : list A) (i : Z) : M A :=
  match rd l i with Some a => mret a | None => fault end.
Definition aset {A} (field : Game -> list A) (set : list A -> Game -> Game)
  (i : Z) (a : A) : M () :=
  fun s => match rd (field s) i with
           | Some _ => Ok tt (set (wr (field s) i a) s)
           | None => Fault
           end.

Definition when (b : bool) (m : M ()) : M () := if b then m else mret tt.

(** [for] over a list of loop indices. *)
Fixpoint each {A} (l : list A) (body : A -> M ()) : M () :=
  match l with
  | [] => mret tt
  | a :: l => body a ;; each l body
  end.

(** ** The shell *)

Definition emit (e : Event) : M () := upd (fun s => set_out (e :: out s) s).
Definition SfxPlay (id : Sfx) : M () := emit (SfxPlayed id).
Definition ShellPresent : M () := emit Presented.
Definition ShellDrainKeys : M () := emit Drained.
Definition ShellDelayTicks (n : Z) : M () := emit (Delayed n).
Definition ShellTickCount : M Z := s ← get; mret (ticks s).
Definition ColdStart {A} (reason : Z) : M A := fun s => Cold reason s.

Definition ShellWaitKey : M Z := fun s =>
  match input s with
  | [] => Starved s
  | Key c :: rest => Ok c (set_input rest s)
  | MenuQuit :: rest => Cold COLD_QUIT (set_input rest s)
  end.

(** ** Weakest preconditions

    [wp m Q X s]: run from [s], [m] faults on no access; a normal return
    satisfies [Q], and a game left early (by a cold start, or waiting for a
    key) satisfies [X]. *)

Definition wp {A} (m : M A) (Q : A -> Game -> Prop) (X : Game -> Prop)
  (s : Game) : Prop :=
  match m s with
  | Ok a s' => Q a s'
  | Cold _ s' | Starved s' => X s'
  | Fault => False
  end.

Section Wp.
Context {A B : Type}.
Implicit Types (Q : A -> Game -> Prop) (X : Game -> Prop).

Lemma wp_ret a Q X s : Q a s -> wp (mret a) Q X s.
Proof. done. Qed.

Lemma wp_bind (m : M A) (k : A -> M B) (R : B -> Game -> Prop) X s :
  wp m (fun a s' => wp (k a) R X s') X s -> wp (m ≫= k) R X s.
Proof. unfold wp, mbind, M_bind. by destruct (m s). Qed.

Lemma wp_mono (m : M A) Q Q' X X' s :
  wp m Q X s -> (forall a t, Q a t -> Q' a t) -> (forall t, X t -> X' t) ->
  wp m Q' X' s.
Proof. unfold wp. destruct (m s); auto. Qed.

Lemma wp_conj (m : M A) Q Q' X s :
  wp m Q X s -> wp m Q' X s -> wp m (fun a t => Q a t /\ Q' a t) X s.
Proof. unfold wp. destruct (m s); auto. Qed.

Lemma wp_aget (l : list A) i Q X s :
  (exists a, rd l i = Some a /\ Q a s) -> wp (aget l i) Q X s.
Proof. intros (a & E & H). unfold wp, aget. by rewrite E. Qed.

Lemma wp_aset (field : Game -> list A) set i a (R : () -> Game -> Prop) X s :
  is_Some (rd (field s) i) -> R tt (set (wr (field s) i a) s) ->
  wp (aset field set i a) R X s.
Proof. intros [b E] H. unfold wp, aset. by rewrite E. Qed.

End Wp.

Lemma wp_each {A} (l : list A) body (I : Game -> Prop) X s :
  (forall a t, a ∈ l -> I t -> wp (body a) (fun _ => I) X t) ->
  I s -> wp (each l body) (fun _ => I) X s.
Proof.
  revert s. induction l as [|a l IH]; intros s Hb Hs; [exact Hs|].
  cbn [each]. apply wp_bind. apply (wp_mono _ (fun _ => I) _ X X); [|intros u t H|done].
  - apply Hb; [left|exact Hs].
  - apply IH; [|exact H]. intros b t' Hin. apply Hb. by right.
Qed.
(** Sequencing is associative. *)
Lemma assoc_bind {A B C} (m : M A) (n : M B) (k : B -> M C) s :
  (m ;; (x ← n; k x)) s = (x ← (m ;; n); k x) s.
Proof. unfold mbind, M_bind. by destruct (m s). Qed.

Lemma wp_assoc {A B C} (m : M A) (n : M B) (k : B -> M C) Q X s :
  wp (x ← (m ;; n); k x) Q X s -> wp (m ;; (x ← n; k x)) Q X s.
Proof. unfold wp. by rewrite assoc_bind. Qed.

Lemma wp_get Q X s : Q s s -> wp get Q X s.
Proof. done. Qed.

Lemma wp_upd f (Q : () -> Game -> Prop) X s : Q tt (f s) -> wp (upd f) Q X s.
Proof. done. Qed.

Lemma wp_when b m (Q : () -> Game -> Prop) X s :
  (b = true -> wp m Q X s) -> (b = false -> Q tt s) -> wp (when b m) Q X s.
Proof. destruct b; cbn; auto. Qed.

Lemma wp_if {A} (b : bool) (m n : M A) Q X s :
  (b = true -> wp m Q X s) -> (b = false -> wp n Q X s) ->
  wp (if b then m else n) Q X s.
Proof. destruct b; auto. Qed.

(** With no way to leave the game, the program returns. *)
Lemma wp_total {A} (m : M A) Q X s :
  wp m Q X s -> (forall u, ~ X u) -> exists a u, m s = Ok a u /\ Q a u.
Proof.
  unfold wp. intros H HX. destruct (m s) as [a u|r u|u|]; [eauto|..];
    by contradict H.
Qed.

(** One step of a program. *)
Ltac wp_step :=
  lazymatch goal with
  | |- wp (mbind _ _) _ _ _ => apply wp_bind
  | |- wp (mret _) _ _ _ => apply wp_ret
  | |- wp get _ _ _ => apply wp_get
  | |- wp (upd _) _ _ _ => apply wp_upd
  | |- wp (emit _) _ _ _ => apply wp_upd
  | |- wp (SfxPlay _) _ _ _ => apply wp_upd
  | |- wp ShellPresent _ _ _ => apply wp_upd
  | |- wp ShellDrainKeys _ _ _ => apply wp_upd
  | |- wp (ShellDelayTicks _) _ _ _ => apply wp_upd
  | |- wp (when _ _) _ _ _ => apply wp_when; intros
  | |- wp (if _ then _ else _) _ _ _ => apply wp_if; intros
  | |- wp (let _ := _ in _) _ _ _ => cbv zeta
  end; cbv beta.

Ltac wp_steps := repeat wp_step.
