(* ===== verification/RogueMap.v ===== *)
(** * RogueMap: the map buffer, tile queries, movement and the PRNG

    [dev/mac-rogue/rogue_map.c].  The tile queries guard their index in the C
    code, so they are plain functions of the state. *)

From S2P Require Import Prelude.
From S2P Require Import RogueState.
From stdpp Require Import base list numbers option decidable.

Open Scope Z_scope.

(** ** The 16-bit Galois LFSR *)

Definition PrngSeed (lo hi : Z) : M () :=
  upd (set_gPrngLo (u8 lo)) ;;
  upd (set_gPrngHi (u8 hi)) ;;
  s ← get;
  when ((gPrngLo s =? 0) && (gPrngHi s =? 0)) (upd (set_gPrngLo 1)).

Definition Prng16 : M Z :=
  s ← get;
  let carry := gPrngLo s .& 1 in
  upd (set_gPrngLo (u8 ((gPrngLo s .>> 1) .| ((gPrngHi s .& 1) .<< 7)))) ;;
  upd (fun s => set_gPrngHi (u8 (gPrngHi s .>> 1)) s) ;;
  when (carry <>? 0) (upd (fun s => set_gPrngHi (gPrngHi s .^ 0xB4) s)) ;;
  s ← get;
  mret (gPrngLo s).

(** [while (a >= max) a = (u8)(a - max);] *)
Fixpoint subtractWhile (fuel : nat) (a max : Z) : option Z :=
  if max <=? a
  then match fuel with
       | O => None
       | S fuel => subtractWhile fuel (u8 (a - max)) max
       end
  else Some a.

Definition RandMod (max : Z) : M Z :=
  if max =? 0 then mret 0
  else
    a ← Prng16;
    match subtractWhile 255 a max with
    | Some r => mret r
    | None => fault
    end.

(** ** Map access *)

Definition MapFillWalls : M () :=
  each (seqZ 0 MAP_CELLS) (fun i => aset gMap set_gMap i TILE_WALL).

Definition ClearVisBuffer : M () :=
  each (seqZ 0 MAP_CELLS) (fun i => aset gVis set_gVis i 0).

(** The cell at an index the caller has checked. *)
Definition cell (s : Game) (idx : Z) : Z := default 0 (rd (gMap s) idx).
Definition set_cell (idx v : Z) (s : Game) : Game :=
  set_gMap (wr (gMap s) idx v) s.

Definition MapGet (idx : Z) (s : Game) : Z :=
  if (idx <? 0) || (MAP_CELLS <=? idx) then TILE_WALL else cell s idx.

Definition MapSet (idx nib : Z) : M () :=
  if (idx <? 0) || (MAP_CELLS <=? idx) then mret tt
  else upd (set_cell idx (u8 (nib .& 0x0F))).

Definition TileAt (col row : Z) (s : Game) : Z :=
  if (col <? 0) || (LOGICAL_COLS <=? col) || (row <? 0) ||
     (LOGICAL_ROWS <=? row)
  then TILE_WALL
  else u8 (cell s (row * LOGICAL_COLS + col) .& 7).

Definition SetTile (tile : Z) : M () :=
  s ← get;
  if (LOGICAL_COLS <=? gTgtCol s) || (LOGICAL_ROWS <=? gTgtRow s)
  then mret tt
  else upd (set_cell (gTgtRow s * LOGICAL_COLS + gTgtCol s)
              (u8 (tile .& 0x0F))).

Definition RevealPitAtTarget : M () :=
  s ← get;
  if (LOGICAL_COLS <=? gTgtCol s) || (LOGICAL_ROWS <=? gTgtRow s)
  then mret tt
  else
    let idx := gTgtRow s * LOGICAL_COLS + gTgtCol s in
    upd (set_cell idx (u8 (cell s idx .| TILE_REVEAL_BIT))).

(** ** Movement *)

Definition CheckCollision (s : Game) : bool :=
  let tile := TileAt (gTgtCol s) (gTgtRow s) s in
  if tile =? TILE_DOOR then true
  else if (gTgtRow s <? PLAY_TOP_ROW) || (PLAY_BOT_ROW <? gTgtRow s) then false
  else if (gTgtCol s <? PLAY_LEFT_COL) || (PLAY_RIGHT_COL <? gTgtCol s)
  then false
  else (tile =? TILE_EMPTY) || (tile =? TILE_STAIRS_DOWN) ||
       (tile =? TILE_TRAP_PIT).

Definition HandleInput (key : Z) : M bool :=
  s ← get;
  upd (set_gTgtCol (gPlayerCol s)) ;;
  upd (set_gTgtRow (gPlayerRow s)) ;;
  if key =? KEY_WEST
  then upd (fun s => set_gTgtCol (u8 (gTgtCol s - 1)) s) ;; mret true
  else if key =? KEY_EAST
  then upd (fun s => set_gTgtCol (u8 (gTgtCol s + 1)) s) ;; mret true
  else if key =? KEY_NORTH
  then upd (fun s => set_gTgtRow (u8 (gTgtRow s - 1)) s) ;; mret true
  else if key =? KEY_SOUTH
  then upd (fun s => set_gTgtRow (u8 (gTgtRow s + 1)) s) ;; mret true
  else mret false.
