(* ===== verification/RogueMsg.v ===== *)
(** * RogueMsg: the message line and its history

    [dev/mac-rogue/rogue_msg.c].  A [char] buffer is modelled by the C string
    it holds, the characters before its first NUL; [strncpy] of at most [n]
    characters followed by the explicit terminator keeps the first [n]. *)

From S2P Require Import Prelude.
From S2P Require Import RogueState.
From stdpp Require Import base list numbers option decidable strings.

Open Scope Z_scope.

Definition MSG_WIDTH : nat := 32.
Definition MSG_HIST : Z := 24.

(** The first [n] characters of a C string. *)
Definition strncpy (n : nat) (s : string) : string := String.substring 0 n s.

Definition HistPush (t : string) : M () :=
  if bool_decide (t = EmptyString) then mret tt
  else
    s ← get;
    aset gHist set_gHist (gHistNext s) (strncpy MSG_WIDTH t) ;;
    upd (fun s => set_gHistNext (s16 ((gHistNext s + 1) mod MSG_HIST)) s) ;;
    s ← get;
    when (gHistCount s <? MSG_HIST)
      (upd (fun s => set_gHistCount (s16 (gHistCount s + 1)) s)).

Definition MsgNewTurn : M () := upd (set_gLine EmptyString).

Definition MsgReset : M () :=
  upd (set_gLine EmptyString) ;;
  upd (set_gHistCount 0) ;;
  upd (set_gHistNext 0).

Definition Msg (t : string) : M () :=
  if bool_decide (t = EmptyString) then mret tt
  else
    HistPush t ;;
    s ← get;
    let have := String.length (gLine s) in
    let want := String.length t in
    if Nat.eqb have 0 then upd (set_gLine (strncpy MSG_WIDTH t))
    else if Nat.leb (have + 1 + want) MSG_WIDTH
    then upd (set_gLine (gLine s +:+ " " +:+ strncpy (MSG_WIDTH - have - 1) t))
    else upd (set_gLine (strncpy MSG_WIDTH t)).

(** The bytes appended to [buf] by [for (k = 0; a[k] && n < MSG_WIDTH; k++)]. *)
Definition bufAppend (buf a : string) : string :=
  buf +:+ strncpy (MSG_WIDTH - String.length buf) a.

Definition Msg2 (a b : string) : M () :=
  let buf := bufAppend EmptyString a in
  let buf := bufAppend buf " " in
  let buf := bufAppend buf b in
  Msg buf.

(** The digit [(char)('0' + d)]. *)
Definition digit (d : Z) : string :=
  String (Ascii.ascii_of_nat (Z.to_nat (48 + d))) EmptyString.

Definition MsgNum (a : string) (v : Z) : M () :=
  let buf := bufAppend EmptyString a in
  let buf := bufAppend buf " " in
  let buf := if 100 <=? v then bufAppend buf (digit (v / 100)) else buf in
  let buf := if 10 <=? v then bufAppend buf (digit ((v / 10) mod 10)) else buf in
  let buf := bufAppend buf (digit (v mod 10)) in
  Msg buf.

Definition MsgLine (s : Game) : string := gLine s.
Definition MsgHistCount (s : Game) : Z := gHistCount s.

Definition MsgHist (i : Z) (s : Game) : string :=
  if (i <? 0) || (gHistCount s <=? i) then EmptyString
  else
    let slot := s16 ((gHistNext s - 1 - i + MSG_HIST * 2) mod MSG_HIST) in
    default EmptyString (rd (gHist s) slot).
