(* ===== verification/Vdp.v ===== *)
(** * Vdp: writing the display tables

    The name table, colour overrides, headlines and sprite table of
    [dev/mac-rogue/vdp.c], as the game writes them.  A [short] coordinate that
    is incremented stays a [short].  The compositor that turns the tables into
    pixels is in [VdpPixels]. *)

From S2P Require Import Prelude.
From S2P Require Import RogueState.
From stdpp Require Import base list numbers option decidable strings.

Open Scope Z_scope.

Definition VDP_COLS : Z := 32.
Definition VDP_ROWS : Z := 24.
Definition VDP_SAT_MAX : Z := 48.
Definition VDP_BIG_MAX : Z := 4.

Definition SPR_INVERT : Z := 0x01.
Definition SPR_BOB : Z := 0x02.
Definition SPR_FLICKER : Z := 0x04.
Definition SPR_SHAKE : Z := 0x08.

(** The headline colour that cycles with the idle clock. *)
Definition VDP_FG_PULSE : Z := 0xFF.

(** Access to a table of the display. *)
Definition upd_vdp (f : Vdp -> Vdp) : M () := upd (fun s => set_vdp (f (vdp s)) s).
Definition vset {A} (field : Vdp -> list A) (set : list A -> Vdp -> Vdp) (i : Z) (a : A)
  : M () :=
  aset (fun s => field (vdp s)) (fun l s => set_vdp (set l (vdp s)) s) i a.

Definition VdpClearNames : M () :=
  each (seqZ 0 (VDP_ROWS * VDP_COLS)) (fun i =>
    vset gName set_gName i 0 ;; vset gCellFg set_gCellFg i 0) ;;
  upd_vdp (set_gBigCount 0).

Definition offScreen (row col : Z) : bool :=
  (row <? 0) || (VDP_ROWS <=? row) || (col <? 0) || (VDP_COLS <=? col).

Definition VdpSetName (row col ch : Z) : M () :=
  if offScreen row col then mret tt
  else vset gName set_gName (row * VDP_COLS + col) ch.

(** [(unsigned char)*s]. *)
Definition charCode (c : Ascii.ascii) : Z := Z.of_N (Ascii.N_of_ascii c).

Fixpoint VdpPutString (row col : Z) (t : string) : M () :=
  match t with
  | EmptyString => mret tt
  | String c t =>
      VdpSetName row col (charCode c) ;; VdpPutString row (s16 (col + 1)) t
  end.

(** [while (count-- > 0) VdpSetName(row, col++, ch);] *)
Fixpoint fillCells (count : nat) (row col ch : Z) : M () :=
  match count with
  | O => mret tt
  | S count => VdpSetName row col ch ;; fillCells count row (s16 (col + 1)) ch
  end.

Definition VdpFillRow (row col count ch : Z) : M () :=
  fillCells (Z.to_nat count) row col ch.

Fixpoint VdpPutStringColor (row col : Z) (t : string) (fg : Z) : M () :=
  match t with
  | EmptyString => mret tt
  | String c t =>
      when (negb (offScreen row col))
        (vset gName set_gName (row * VDP_COLS + col) (charCode c) ;;
         vset gCellFg set_gCellFg (row * VDP_COLS + col) fg) ;;
      VdpPutStringColor row (s16 (col + 1)) t fg
  end.

Definition VdpPutStringBig (row col : Z) (t : string) (fg : Z) : M () :=
  s ← get;
  let n := gBigCount (vdp s) in
  if VDP_BIG_MAX <=? n then mret tt
  else
    upd_vdp (set_gBigCount (n + 1)) ;;
    vset gBigText set_gBigText n (mkBig row col fg t).

Definition VdpSatReset : M () := upd_vdp (set_gSatCount 0).

Definition VdpSatAdd (y x name color flags : Z) : M () :=
  s ← get;
  let n := gSatCount (vdp s) in
  if VDP_SAT_MAX <=? n then mret tt
  else
    upd_vdp (set_gSatCount (n + 1)) ;;
    vset gSat set_gSat n (mkSat y x (name .& 0xFC) (color .& 0x0F) flags).
