(* ===== verification/RogueDraw.v ===== *)
(** * RogueDraw: painting the playfield, the sprites and the HUD

    [dev/mac-rogue/rogue_draw.c].  The sprite pass reads the visibility buffer
    at the cell of every monster and item and the two catalogue tables at the
    type of every item, without a bounds check. *)

From S2P Require Import Prelude.
From S2P Require Import RogueState.
From S2P Require Import RogueMsg.
From S2P Require Import Vdp.
From stdpp Require Import base list numbers option decidable strings.

Open Scope Z_scope.

(** ** Sprite slots, colours and tile chars ([rogue.h]) *)

Definition SPRITE_NAME_PLAYER : Z := 0.
Definition SPRITE_NAME_FOOD : Z := 16.
Definition SPRITE_NAME_DAGGER : Z := 24.
Definition SPRITE_NAME_POTION : Z := 28.
Definition SPRITE_NAME_SCROLL : Z := 32.
Definition SPRITE_NAME_WEAPON : Z := 36.
Definition SPRITE_NAME_ARMOR : Z := 40.
Definition SPRITE_NAME_RING : Z := 44.
Definition SPRITE_NAME_TORCH : Z := 52.
Definition SPRITE_NAME_BOSS_TL : Z := 56.
Definition SPRITE_NAME_BOSS_TR : Z := 60.
Definition SPRITE_NAME_BOSS_BL : Z := 64.
Definition SPRITE_NAME_BOSS_BR : Z := 68.

Definition COL_PLAYER : Z := 5.
Definition COL_HURT : Z := 8.
Definition COL_FOOD : Z := 11.
Definition COL_DAGGER : Z := 14.
Definition COL_POTION : Z := 13.
Definition COL_SCROLL : Z := 7.
Definition COL_WEAPON : Z := 15.
Definition COL_ARMOR : Z := 6.
Definition COL_RING : Z := 10.
Definition COL_TORCH : Z := 9.

Definition CHAR_EMPTY : Z := 0.
Definition CHAR_WALL : Z := 4.
Definition CHAR_STAIRS_DOWN : Z := 8.
Definition CHAR_DOOR : Z := 12.
Definition CHAR_STAIRS_UP : Z := 16.
Definition CHAR_TRAP_PIT : Z := 20.

Definition kItemSprite : list Z :=
  [0; SPRITE_NAME_WEAPON; SPRITE_NAME_ARMOR; SPRITE_NAME_RING; SPRITE_NAME_POTION;
   SPRITE_NAME_SCROLL; SPRITE_NAME_FOOD; SPRITE_NAME_DAGGER; SPRITE_NAME_TORCH].
Definition kItemColor : list Z :=
  [0; COL_WEAPON; COL_ARMOR; COL_RING; COL_POTION; COL_SCROLL; COL_FOOD; COL_DAGGER;
   COL_TORCH].

Definition kTileCharBase : list Z :=
  [CHAR_EMPTY; CHAR_WALL; CHAR_DOOR; CHAR_STAIRS_DOWN; CHAR_STAIRS_UP; CHAR_TRAP_PIT;
   CHAR_EMPTY; CHAR_EMPTY].

(** ** The playfield *)

(** The four chars of the cell whose top left char is at [nr], [nc]. *)
Definition setCell (nr nc tl tr bl br : Z) : M () :=
  VdpSetName nr nc tl ;;
  VdpSetName nr (nc + 1) tr ;;
  VdpSetName (nr + 1) nc bl ;;
  VdpSetName (nr + 1) (nc + 1) br.

Definition renderCell (r c : Z) : M () :=
  let idx := r * LOGICAL_COLS + c in
  let nr := r * 2 in
  let nc := c * 2 in
  s ← get;
  lit ← aget (gVis s) idx;
  if lit =? 0 then setCell nr nc 0 0 0 0
  else
    nib ← aget (gMap s) idx;
    let id := u8 (nib .& 7) in
    if (id =? TILE_TRAP_PIT) && (nib .& TILE_REVEAL_BIT =? 0)
    then setCell nr nc 0 0 0 0
    else
      base ← aget kTileCharBase id;
      setCell nr nc (u8 (base + 0)) (u8 (base + 1)) (u8 (base + 2)) (u8 (base + 3)).

Definition RenderMap : M () :=
  each (seqZ 0 LOGICAL_ROWS) (fun r => each (seqZ 0 LOGICAL_COLS) (fun c => renderCell r c)).

(** ** Sprites *)

Definition hurtFlags (hurt : Z) : Z :=
  if hurt <>? 0 then u8 (SPR_INVERT .| SPR_SHAKE) else 0.

Definition placeMonster (i : Z) : M () :=
  s ← get;
  m ← aget (gMon s) i;
  if m_type m =? 0 then mret tt
  else
    lit ← aget (gVis s) (m_row m * LOGICAL_COLS + m_col m);
    if lit =? 0 then mret tt
    else
      let flags := hurtFlags (m_hurt m) in
      let color := u8 (if m_hurt m <>? 0 then COL_HURT else m_color m) in
      let flags := if m_type m =? MON_TYPE_GHOST then flags .| SPR_BOB else flags in
      if m_type m =? MON_TYPE_BOSS
      then
        let top := u8 (m_row m * 16) in
        let left := u8 (m_col m * 16) in
        VdpSatAdd top left SPRITE_NAME_BOSS_TL color flags ;;
        VdpSatAdd top (u8 (left + 16)) SPRITE_NAME_BOSS_TR color flags ;;
        VdpSatAdd (u8 (top + 16)) left SPRITE_NAME_BOSS_BL color flags ;;
        VdpSatAdd (u8 (top + 16)) (u8 (left + 16)) SPRITE_NAME_BOSS_BR color flags
      else
        VdpSatAdd (u8 (m_row m * 16)) (u8 (m_col m * 16)) (m_name m) color flags.

Definition placeItem (i : Z) : M () :=
  s ← get;
  w ← aget (gItem s) i;
  if w_type w =? 0 then mret tt
  else
    lit ← aget (gVis s) (w_row w * LOGICAL_COLS + w_col w);
    if lit =? 0 then mret tt
    else
      let flags := if w_type w =? ITEM_T_TORCH then u8 (SPR_BOB .| SPR_FLICKER)
                   else SPR_BOB in
      name ← aget kItemSprite (w_type w);
      color ← aget kItemColor (w_type w);
      VdpSatAdd (u8 (w_row w * 16)) (u8 (w_col w * 16)) name color flags.

Definition PlaceAllSprites : M () :=
  VdpSatReset ;;
  s ← get;
  VdpSatAdd (u8 (gPlayerRow s * 16)) (u8 (gPlayerCol s * 16)) SPRITE_NAME_PLAYER
    (u8 (if gPlayerHurt s <>? 0 then COL_HURT else COL_PLAYER))
    (hurtFlags (gPlayerHurt s)) ;;
  VdpSatAdd 176 128 SPRITE_NAME_DAGGER COL_DAGGER 0 ;;
  each (seqZ 0 MON_COUNT) placeMonster ;;
  each (seqZ 0 ITEM_COUNT) placeItem ;;
  s ← get;
  when (gWeaponTimer s <>? 0) (VdpSatAdd 176 0 SPRITE_NAME_WEAPON COL_WEAPON 0) ;;
  when (gArmorTimer s <>? 0) (VdpSatAdd 176 32 SPRITE_NAME_ARMOR COL_ARMOR 0) ;;
  when (gRingTimer s <>? 0) (VdpSatAdd 176 64 SPRITE_NAME_RING COL_RING 0) ;;
  when (gTorchTimer s <>? 0)
    (VdpSatAdd 176 96 SPRITE_NAME_TORCH COL_TORCH SPR_FLICKER) ;;
  when (gThrowActive s <>? 0)
    (VdpSatAdd (u8 (gCurY s * 16)) (u8 (gCurX s * 16)) SPRITE_NAME_DAGGER COL_DAGGER 0).

(** ** Numbers and the HUD *)

Definition PutByte3 (row col v : Z) : M () :=
  VdpSetName row col (u8 (48 + v / 100)) ;;
  VdpSetName row (col + 1) (u8 (48 + (v / 10) mod 10)) ;;
  VdpSetName row (col + 2) (u8 (48 + v mod 10)).

Definition PutByte2 (row col v : Z) : M () :=
  VdpSetName row col (u8 (48 + (v / 10) mod 10)) ;;
  VdpSetName row (col + 1) (u8 (48 + v mod 10)).

Definition UpdateHud : M () :=
  s ← get;
  VdpFillRow 20 0 VDP_COLS 32 ;;
  VdpPutString 20 0 "DEPTH " ;;
  PutByte3 20 6 (gDepth s) ;;
  VdpPutString 20 10 "ATK:" ;;
  PutByte2 20 14 (gPlayerDmg s) ;;
  VdpPutString 20 17 "DEF:" ;;
  PutByte2 20 21 (gPlayerDef s) ;;
  VdpPutString 20 24 "HP " ;;
  PutByte2 20 27 (gHp s) ;;
  VdpSetName 20 29 47 ;;
  PutByte2 20 30 (gHpMax s) ;;
  VdpFillRow 21 0 VDP_COLS 32 ;;
  VdpPutString 21 0 (MsgLine s) ;;
  VdpFillRow 22 18 14 32 ;;
  VdpPutString 22 26 "XP:" ;;
  PutByte3 22 29 (gPlayerXp s) ;;
  VdpFillRow 23 2 30 32 ;;
  when (gWeaponTimer s <>? 0) (PutByte2 23 2 (gWeaponTimer s)) ;;
  when (gArmorTimer s <>? 0) (PutByte2 23 6 (gArmorTimer s)) ;;
  when (gRingTimer s <>? 0) (PutByte2 23 10 (gRingTimer s)) ;;
  when (gTorchTimer s <>? 0) (PutByte2 23 14 (gTorchTimer s)) ;;
  PutByte2 23 18 (gDaggerQty s).

Definition ClearMsgRows : M () :=
  VdpFillRow 22 0 VDP_COLS 32 ;;
  VdpFillRow 23 0 VDP_COLS 32.

Definition ClearMsgRow23 : M () := VdpFillRow 23 0 VDP_COLS 32.

Definition PrintMsgRow (row : Z) (t : string) : M () :=
  VdpPutString row 0 t ;;
  ShellPresent.

(** ** Level transitions *)

Definition LevelWipe : M () :=
  VdpSatReset ;;
  each [0; 4; 8; 12; 16] (fun r =>
    VdpFillRow r 0 VDP_COLS 0 ;;
    VdpFillRow (r + 1) 0 VDP_COLS 0 ;;
    VdpFillRow (r + 2) 0 VDP_COLS 0 ;;
    VdpFillRow (r + 3) 0 VDP_COLS 0 ;;
    ShellPresent ;;
    ShellDelayTicks 3).

Definition LevelReveal : M () :=
  each (seqZ 0 (20 * VDP_COLS)) (fun i =>
    s ← get;
    ch ← aget (gName (vdp s)) i;
    vset saved set_saved i ch ;;
    vset gName set_gName i 0) ;;
  each [0; 4; 8; 12; 16] (fun r =>
    each (seqZ (r * VDP_COLS) (4 * VDP_COLS)) (fun i =>
      s ← get;
      ch ← aget (saved (vdp s)) i;
      vset gName set_gName i ch) ;;
    ShellPresent ;;
    ShellDelayTicks 3).

Definition RedrawGame : M () :=
  VdpClearNames ;;
  RenderMap ;;
  PlaceAllSprites ;;
  UpdateHud ;;
  ShellPresent.
