(* ===== verification/RogueGfx.v ===== *)
(** * RogueGfx: the artwork tables

    The constant arrays of [dev/mac-rogue/rogue_gfx.c]: the pattern table (char
    [n] is bytes [8n] to [8n+7]), the colour of each group of eight chars, the
    sprite patterns and the boss patterns. *)

From Stdlib Require Import ZArith List.
Import ListNotations.

Open Scope Z_scope.

Definition kTileset : list Z :=
  [0; 0; 0; 0; 0; 0; 0; 0; 0; 0; 0; 0; 0; 0; 0; 0;
   0; 0; 0; 0; 0; 0; 0; 0; 0; 0; 0; 0; 0; 0; 0; 0;
   223; 223; 223; 223; 223; 0; 253; 253; 223; 223; 223; 223; 223; 0; 253; 253;
   253; 253; 253; 253; 253; 0; 223; 223; 253; 253; 253; 253; 253; 0; 223; 223;
   0; 127; 64; 64; 64; 64; 64; 64; 0; 254; 2; 2; 2; 30; 30; 30;
   67; 67; 67; 123; 123; 123; 127; 0; 222; 222; 222; 222; 222; 222; 254; 0;
   0; 11; 59; 123; 123; 123; 123; 123; 0; 208; 220; 222; 222; 222; 222; 222;
   79; 48; 75; 123; 123; 0; 127; 0; 254; 0; 222; 222; 222; 0; 254; 0;
   223; 191; 127; 127; 127; 31; 239; 224; 61; 189; 252; 216; 198; 134; 56; 125;
   223; 63; 127; 127; 127; 63; 31; 192; 125; 188; 216; 227; 231; 230; 216; 60;
   0; 63; 96; 64; 66; 70; 70; 64; 0; 252; 6; 2; 18; 50; 50; 2;
   64; 68; 76; 76; 64; 96; 63; 0; 2; 34; 98; 98; 2; 6; 252; 0;
   0; 0; 15; 31; 31; 15; 16; 14; 0; 0; 128; 192; 128; 124; 254; 254;
   0; 0; 0; 62; 127; 127; 62; 0; 124; 130; 124; 130; 124; 0; 0; 0;
   0; 0; 0; 0; 3; 6; 7; 3; 0; 0; 0; 0; 192; 96; 224; 192;
   4; 14; 14; 14; 14; 4; 3; 0; 32; 16; 16; 16; 16; 32; 192; 0;
   0; 0; 0; 0; 0; 0; 0; 0; 0; 0; 0; 0; 0; 0; 0; 0;
   0; 0; 0; 0; 0; 0; 0; 0; 0; 0; 0; 0; 0; 0; 0; 0;
   0; 0; 0; 0; 0; 0; 0; 0; 0; 0; 0; 0; 0; 0; 0; 0;
   0; 0; 0; 0; 0; 0; 0; 0; 0; 0; 0; 0; 0; 0; 0; 0;
   0; 0; 48; 24; 24; 24; 24; 24; 0; 0; 28; 24; 24; 24; 24; 24;
   0; 0; 0; 0; 0; 0; 0; 0; 0; 0; 0; 24; 24; 126; 24; 24;
   0; 0; 0; 0; 0; 0; 0; 0; 0; 0; 0; 0; 0; 126; 0; 0;
   0; 0; 0; 0; 0; 24; 24; 0; 0; 0; 192; 96; 48; 24; 12; 6;
   0; 60; 102; 110; 118; 102; 102; 60; 0; 24; 56; 24; 24; 24; 24; 126;
   0; 60; 102; 6; 28; 48; 96; 126; 0; 60; 102; 6; 28; 6; 102; 60;
   0; 14; 30; 54; 102; 126; 6; 6; 0; 126; 96; 96; 124; 6; 6; 124;
   0; 60; 96; 96; 124; 102; 102; 60; 0; 126; 6; 6; 12; 12; 24; 24;
   0; 60; 102; 102; 60; 102; 102; 60; 0; 60; 102; 102; 62; 6; 6; 60;
   0; 0; 24; 24; 0; 24; 24; 0; 0; 0; 0; 0; 0; 0; 0; 0;
   0; 0; 0; 0; 0; 0; 0; 0; 0; 0; 0; 0; 0; 0; 0; 0;
   0; 0; 0; 0; 0; 0; 0; 0; 0; 60; 102; 6; 12; 24; 0; 24;
   0; 0; 0; 0; 0; 0; 0; 0; 0; 60; 102; 102; 102; 126; 102; 102;
   0; 124; 102; 102; 124; 102; 102; 124; 0; 60; 102; 96; 96; 96; 102; 60;
   0; 124; 102; 102; 102; 102; 102; 124; 0; 126; 96; 96; 120; 96; 96; 126;
   0; 126; 96; 96; 120; 96; 96; 96; 0; 60; 102; 96; 110; 102; 102; 62;
   0; 102; 102; 102; 126; 102; 102; 102; 0; 60; 24; 24; 24; 24; 24; 60;
   0; 60; 24; 24; 24; 24; 88; 48; 0; 102; 102; 108; 120; 108; 102; 102;
   0; 96; 96; 96; 96; 96; 96; 126; 0; 118; 126; 106; 106; 106; 98; 98;
   0; 102; 102; 118; 110; 102; 102; 102; 0; 60; 102; 102; 102; 102; 102; 60;
   0; 124; 102; 102; 102; 124; 96; 96; 0; 60; 102; 102; 106; 102; 60; 3;
   0; 124; 102; 102; 102; 124; 102; 102; 0; 60; 102; 96; 60; 6; 102; 60;
   0; 126; 24; 24; 24; 24; 24; 24; 0; 102; 102; 102; 102; 102; 102; 60;
   0; 102; 102; 102; 102; 102; 60; 24; 0; 98; 98; 106; 106; 106; 126; 118;
   0; 102; 102; 60; 24; 60; 102; 102; 0; 102; 102; 102; 60; 24; 24; 24;
   0; 126; 6; 12; 24; 48; 96; 126; 0; 28; 16; 16; 16; 16; 28; 0;
   0; 0; 3; 6; 12; 24; 48; 96; 0; 56; 8; 8; 8; 8; 56; 0;
   0; 0; 0; 0; 0; 0; 0; 0; 0; 0; 0; 0; 0; 0; 0; 0;
   0; 0; 0; 0; 0; 0; 0; 0; 0; 0; 0; 0; 0; 0; 0; 0;
   0; 0; 0; 0; 0; 0; 0; 0; 0; 0; 0; 0; 0; 0; 0; 0;
   0; 0; 0; 0; 0; 0; 0; 0; 0; 0; 0; 0; 0; 0; 0; 0;
   0; 0; 0; 0; 0; 0; 0; 0; 0; 0; 0; 0; 0; 0; 0; 0;
   0; 0; 0; 0; 0; 0; 0; 0; 0; 0; 0; 0; 0; 0; 0; 0;
   0; 0; 0; 0; 0; 0; 0; 0; 0; 0; 0; 0; 0; 0; 0; 0;
   0; 0; 0; 0; 0; 0; 0; 0; 0; 0; 0; 0; 0; 0; 0; 0;
   0; 0; 0; 0; 0; 0; 0; 0; 0; 0; 0; 0; 0; 0; 0; 0;
   0; 0; 0; 0; 0; 0; 0; 0; 0; 0; 0; 0; 0; 0; 0; 0;
   0; 0; 0; 0; 0; 0; 0; 0; 0; 0; 0; 0; 0; 0; 0; 0;
   0; 0; 0; 0; 0; 0; 0; 0; 0; 0; 0; 0; 0; 0; 0; 0;
   0; 0; 0; 0; 0; 0; 0; 0; 0; 0; 0; 0; 0; 0; 0; 0;
   0; 0; 0; 0; 0; 0; 0; 0; 0; 0; 0; 0; 0; 0; 0; 0;
   0; 0; 0; 0; 0; 0; 0; 0; 0; 0; 0; 0; 0; 0; 0; 0;
   0; 0; 0; 0; 0; 0; 0; 0; 0; 0; 0; 0; 0; 0; 0; 0;
   0; 0; 0; 0; 0; 0; 0; 0; 0; 0; 0; 0; 0; 0; 0; 0;
   0; 0; 0; 0; 0; 0; 0; 0; 0; 0; 0; 0; 0; 0; 0; 0;
   0; 0; 0; 0; 0; 0; 0; 0; 0; 0; 0; 0; 0; 0; 0; 0;
   0; 0; 0; 0; 0; 0; 0; 0; 0; 0; 0; 0; 0; 0; 0; 0;
   0; 0; 0; 0; 0; 0; 0; 0; 0; 0; 0; 0; 0; 0; 0; 0;
   0; 0; 0; 0; 0; 0; 0; 0; 0; 0; 0; 0; 0; 0; 0; 0;
   0; 0; 0; 0; 0; 0; 0; 0; 0; 0; 0; 0; 0; 0; 0; 0;
   0; 0; 0; 0; 0; 0; 0; 0; 0; 0; 0; 0; 0; 0; 0; 0;
   0; 0; 0; 0; 0; 0; 0; 0; 0; 0; 0; 0; 0; 0; 0; 0;
   0; 0; 0; 0; 0; 0; 0; 0; 0; 0; 0; 0; 0; 0; 0; 0;
   0; 0; 0; 0; 0; 0; 0; 0; 0; 0; 0; 0; 0; 0; 0; 0;
   0; 0; 0; 0; 0; 0; 0; 0; 0; 0; 0; 0; 0; 0; 0; 0;
   0; 0; 0; 0; 0; 0; 0; 0; 0; 0; 0; 0; 0; 0; 0; 0;
   0; 0; 0; 0; 0; 0; 0; 0; 0; 0; 0; 0; 0; 0; 0; 0;
   0; 0; 0; 0; 0; 0; 0; 0; 0; 0; 0; 0; 0; 0; 0; 0;
   0; 0; 0; 0; 0; 0; 0; 0; 0; 0; 0; 0; 0; 0; 0; 0;
   0; 0; 0; 0; 0; 0; 0; 0; 0; 0; 0; 0; 0; 0; 0; 0;
   0; 0; 0; 0; 0; 0; 0; 0; 0; 0; 0; 0; 0; 0; 0; 0;
   0; 0; 0; 0; 0; 0; 0; 0; 0; 0; 0; 0; 0; 0; 0; 0;
   0; 0; 0; 0; 0; 0; 0; 0; 0; 0; 0; 0; 0; 0; 0; 0;
   0; 0; 0; 0; 0; 0; 0; 0; 0; 0; 0; 0; 0; 0; 0; 0;
   0; 0; 0; 0; 0; 0; 0; 0; 0; 0; 0; 0; 0; 0; 0; 0;
   0; 0; 0; 0; 0; 0; 0; 0; 0; 0; 0; 0; 0; 0; 0; 0;
   0; 0; 0; 0; 0; 0; 0; 0; 0; 0; 0; 0; 0; 0; 0; 0;
   0; 0; 0; 0; 0; 0; 0; 0; 0; 0; 0; 0; 0; 0; 0; 0;
   0; 0; 0; 0; 0; 0; 0; 0; 0; 0; 0; 0; 0; 0; 0; 0;
   0; 0; 0; 0; 0; 0; 0; 0; 0; 0; 0; 0; 0; 0; 0; 0;
   0; 0; 0; 0; 0; 0; 0; 0; 0; 0; 0; 0; 0; 0; 0; 0;
   0; 0; 0; 0; 0; 0; 0; 0; 0; 0; 0; 0; 0; 0; 0; 0;
   0; 0; 0; 0; 0; 0; 0; 0; 0; 0; 0; 0; 0; 0; 0; 0;
   0; 0; 0; 0; 0; 0; 0; 0; 0; 0; 0; 0; 0; 0; 0; 0;
   0; 0; 0; 0; 0; 0; 0; 0; 0; 0; 0; 0; 0; 0; 0; 0;
   0; 0; 0; 0; 0; 0; 0; 0; 0; 0; 0; 0; 0; 0; 0; 0;
   0; 0; 0; 0; 0; 0; 0; 0; 0; 0; 0; 0; 0; 0; 0; 0;
   0; 0; 0; 0; 0; 0; 0; 0; 0; 0; 0; 0; 0; 0; 0; 0;
   0; 0; 0; 0; 0; 0; 0; 0; 0; 0; 0; 0; 0; 0; 0; 0;
   0; 0; 0; 0; 0; 0; 0; 0; 0; 0; 0; 0; 0; 0; 0; 0;
   0; 0; 0; 0; 0; 0; 0; 0; 0; 0; 0; 0; 0; 0; 0; 0;
   0; 0; 0; 0; 0; 0; 0; 0; 0; 0; 0; 0; 0; 0; 0; 0;
   0; 0; 0; 0; 0; 0; 0; 0; 0; 0; 0; 0; 0; 0; 0; 0;
   0; 0; 0; 0; 0; 0; 0; 0; 0; 0; 0; 0; 0; 0; 0; 0;
   0; 0; 0; 0; 0; 0; 0; 0; 0; 0; 0; 0; 0; 0; 0; 0;
   0; 0; 0; 0; 0; 0; 0; 0; 0; 0; 0; 0; 0; 0; 0; 0;
   0; 0; 0; 0; 0; 0; 0; 0; 0; 0; 0; 0; 0; 0; 0; 0;
   0; 0; 0; 0; 0; 0; 0; 0; 0; 0; 0; 0; 0; 0; 0; 0;
   0; 0; 0; 0; 0; 0; 0; 0; 0; 0; 0; 0; 0; 0; 0; 0;
   0; 0; 0; 0; 0; 0; 0; 0; 0; 0; 0; 0; 0; 0; 0; 0;
   0; 0; 0; 0; 0; 0; 0; 0; 0; 0; 0; 0; 0; 0; 0; 0;
   0; 0; 0; 0; 0; 0; 0; 0; 0; 0; 0; 0; 0; 0; 0; 0;
   0; 0; 0; 0; 0; 0; 0; 0; 0; 0; 0; 0; 0; 0; 0; 0;
   0; 0; 0; 0; 0; 0; 0; 0; 0; 0; 0; 0; 0; 0; 0; 0;
   0; 0; 0; 0; 0; 0; 0; 0; 0; 0; 0; 0; 0; 0; 0; 0;
   0; 0; 0; 0; 0; 0; 0; 0; 0; 0; 0; 0; 0; 0; 0; 0;
   0; 0; 0; 0; 0; 0; 0; 0; 0; 0; 0; 0; 0; 0; 0; 0;
   0; 0; 0; 0; 0; 0; 0; 0; 0; 0; 0; 0; 0; 0; 0; 0;
   0; 0; 0; 0; 0; 0; 0; 0; 0; 0; 0; 0; 0; 0; 0; 0;
   0; 0; 0; 0; 0; 0; 0; 0; 0; 0; 0; 0; 0; 0; 0; 0;
   0; 0; 0; 0; 0; 0; 0; 0; 0; 0; 0; 0; 0; 0; 0; 0;
   0; 0; 0; 0; 0; 0; 0; 0; 0; 0; 0; 0; 0; 0; 0; 0;
   0; 0; 0; 0; 0; 0; 0; 0; 0; 0; 0; 0; 0; 0; 0; 0;
   0; 0; 0; 0; 0; 0; 0; 0; 0; 0; 0; 0; 0; 0; 0; 0;
   0; 0; 0; 0; 0; 0; 0; 0; 0; 0; 0; 0; 0; 0; 0; 0;
   0; 0; 0; 0; 0; 0; 0; 0; 0; 0; 0; 0; 0; 0; 0; 0;
   0; 0; 0; 0; 0; 0; 0; 0; 0; 0; 0; 0; 0; 0; 0; 0;
   0; 0; 0; 0; 0; 0; 0; 0; 0; 0; 0; 0; 0; 0; 0; 0].

Definition kTileColors : list Z :=
  [225; 161; 177; 113; 241; 241; 241; 241; 241; 241; 241; 241; 241; 241; 241; 241;
   241; 241; 241; 241; 241; 241; 241; 241; 241; 241; 241; 241; 241; 241; 241; 241].

Definition kSpritePats : list Z :=
  [1; 7; 15; 15; 9; 8; 14; 2; 122; 104; 107; 107; 105; 106; 52; 0;
   130; 231; 240; 242; 146; 18; 114; 114; 102; 22; 216; 226; 130; 98; 34; 0;
   0; 0; 23; 15; 9; 9; 15; 46; 12; 4; 56; 87; 71; 7; 6; 2;
   0; 2; 224; 240; 240; 208; 240; 176; 48; 34; 24; 212; 228; 224; 96; 80;
   0; 7; 15; 29; 27; 95; 125; 124; 60; 30; 31; 31; 15; 3; 0; 0;
   0; 224; 240; 248; 184; 218; 126; 62; 60; 184; 248; 248; 250; 252; 0; 0;
   0; 99; 119; 79; 72; 81; 81; 86; 83; 83; 120; 63; 95; 71; 71; 76;
   0; 240; 224; 240; 16; 136; 136; 104; 200; 72; 16; 248; 252; 228; 240; 216;
   0; 0; 0; 0; 0; 0; 3; 15; 59; 94; 126; 108; 120; 49; 30; 0;
   0; 24; 30; 30; 48; 96; 192; 96; 0; 64; 64; 128; 128; 0; 0; 0;
   0; 7; 15; 15; 9; 9; 14; 3; 3; 24; 39; 49; 51; 4; 4; 0;
   0; 224; 240; 240; 144; 144; 112; 192; 64; 24; 228; 140; 204; 32; 32; 0;
   0; 0; 0; 0; 3; 3; 0; 3; 7; 14; 29; 26; 28; 0; 0; 0;
   0; 0; 0; 24; 24; 160; 192; 96; 176; 176; 0; 0; 0; 0; 0; 0;
   0; 0; 0; 0; 3; 6; 7; 3; 4; 14; 14; 14; 14; 4; 3; 0;
   0; 0; 0; 0; 192; 96; 224; 192; 32; 16; 16; 16; 16; 32; 192; 0;
   0; 7; 9; 11; 8; 15; 8; 15; 12; 15; 8; 15; 108; 79; 63; 0;
   0; 252; 254; 254; 0; 248; 8; 248; 24; 248; 8; 248; 24; 248; 240; 0;
   0; 0; 0; 0; 0; 1; 3; 7; 55; 54; 27; 12; 23; 99; 96; 0;
   0; 30; 62; 122; 242; 228; 200; 144; 32; 64; 128; 0; 0; 0; 0; 0;
   0; 0; 0; 60; 61; 60; 28; 14; 17; 31; 31; 0; 15; 0; 0; 0;
   0; 0; 0; 60; 188; 60; 56; 112; 136; 248; 248; 0; 240; 0; 0; 0;
   0; 0; 0; 14; 30; 30; 29; 3; 30; 28; 28; 12; 6; 3; 0; 0;
   0; 0; 0; 224; 240; 248; 140; 4; 4; 4; 4; 8; 16; 224; 0; 0;
   0; 0; 0; 0; 0; 119; 61; 15; 7; 8; 31; 55; 39; 54; 50; 2;
   0; 0; 0; 0; 0; 238; 188; 240; 224; 16; 248; 236; 228; 108; 76; 64;
   0; 0; 0; 4; 0; 1; 19; 7; 4; 2; 7; 12; 24; 48; 96; 0;
   0; 64; 104; 240; 240; 248; 152; 56; 120; 240; 224; 0; 0; 0; 0; 0].

Definition kBossPats : list Z :=
  [0; 1; 3; 3; 3; 3; 3; 3; 1; 0; 1; 7; 31; 57; 48; 32;
   0; 128; 0; 0; 0; 128; 203; 253; 255; 255; 52; 239; 248; 241; 211; 185;
   0; 3; 1; 1; 1; 1; 211; 191; 255; 254; 40; 241; 31; 143; 203; 157;
   0; 0; 128; 128; 128; 128; 128; 128; 0; 0; 128; 160; 184; 156; 140; 196;
   1; 51; 57; 49; 28; 0; 1; 1; 0; 2; 2; 4; 0; 0; 0; 0;
   156; 142; 227; 242; 184; 108; 117; 88; 148; 82; 74; 74; 146; 145; 0; 0;
   57; 113; 199; 76; 24; 51; 164; 10; 42; 201; 165; 148; 84; 65; 0; 0;
   192; 140; 28; 12; 56; 0; 160; 144; 80; 64; 64; 64; 128; 0; 0; 0].
