(* ===== verification/VdpPixels.v ===== *)
(** * VdpPixels: the compositor

    The half of [dev/mac-rogue/vdp.c] that turns the display tables into
    pixels: [gPix] holds one palette index per pixel, [gFrame] its 1-bit
    packing.  A function returns [None] when it would read or write outside an
    array. *)

From S2P Require Import Prelude.
From S2P Require Import RogueState.
From S2P Require Import Vdp.
From S2P Require Import RogueDraw.
From S2P Require Import RogueGfx.
From stdpp Require Import base list numbers option decidable strings.

Open Scope Z_scope.

Definition VDP_WIDTH : Z := 256.
Definition VDP_HEIGHT : Z := 192.
Definition VDP_ROWBYTES : Z := 32.

(** The pixel buffers and the lazily filled colour tables. *)
Record Screen := mkScreen {
  gPix : list Z;
  gFrame : list Z;
  gCharFg : list Z;
  gCharBg : list Z;
  gColorsReady : Z
}.

#[export] Instance eta_screen : Eta Screen := fun s =>
  mkScreen (gPix s) (gFrame s) (gCharFg s) (gCharBg s) (gColorsReady s).

Definition set_gPix := ltac:(set_field gPix).
Definition set_gFrame := ltac:(set_field gFrame).
Definition set_gCharFg := ltac:(set_field gCharFg).
Definition set_gCharBg := ltac:(set_field gCharBg).
Definition set_gColorsReady := ltac:(set_field gColorsReady).

(** A checked store, and a [for] loop over it. *)
Definition put (i v : Z) (l : list Z) : option (list Z) :=
  match rd l i with Some _ => Some (wr l i v) | None => None end.

Fixpoint loop {A S} (l : list A) (body : A -> S -> option S) (s : S) : option S :=
  match l with
  | [] => Some s
  | a :: l => s ← body a s; loop l body s
  end.

Definition kBobDy : list Z := [0; -1; -2; -1].
Definition kFlame : list Z := [9; 10; 11; 10].
Definition kPulse : list Z := [8; 9; 10; 9].
Definition kGlint : list Z := [11; 15; 11; 10].

Definition IS_INK (c : Z) : bool := (c <>? 0) && (c <>? 1).

(** ** Per-char colour *)

Definition groupColors (c : Z) (s : Screen) : option Screen :=
  attr ← rd kTileColors (c .>> 3);
  fg ← put c (u8 (attr .>> 4)) (gCharFg s);
  bg ← put c (u8 (attr .& 0x0F)) (gCharBg s);
  Some (set_gCharBg bg (set_gCharFg fg s)).

Definition tileColors (c : Z) (s : Screen) : option Screen :=
  fg ← put (CHAR_WALL + c) 14 (gCharFg s);
  fg ← put (CHAR_DOOR + c) 10 fg;
  fg ← put (CHAR_STAIRS_DOWN + c) 11 fg;
  fg ← put (CHAR_STAIRS_UP + c) 14 fg;
  fg ← put (CHAR_TRAP_PIT + c) 6 fg;
  Some (set_gCharFg fg s).

Definition InitCharColors (s : Screen) : option Screen :=
  s ← loop (seqZ 0 256) groupColors s;
  s ← loop (seqZ 0 4) tileColors s;
  Some (set_gColorsReady 1 s).

(** ** Tiles *)

(** The [b]-th pixel of a pattern row, from the left. *)
Definition patBit (bits b : Z) : bool := (bits .& (0x80 .>> b)) <>? 0.

Definition tileFg (v : Vdp) (fgs : list Z) (cell ch : Z) : option Z :=
  ov ← rd (gCellFg v) cell;
  fg ← rd fgs ch;
  let fg := if ov <>? 0 then ov else fg in
  if (CHAR_STAIRS_DOWN <=? ch) && (ch <? CHAR_STAIRS_DOWN + 4) && (ov =? 0)
  then rd kGlint ((gVdpPhase v .>> 1) .& 3)
  else Some fg.

Definition tileCell (v : Vdp) (fgs bgs : list Z) (row col : Z) (pix : list Z)
  : option (list Z) :=
  ch ← rd (gName v) (row * VDP_COLS + col);
  fg ← tileFg v fgs (row * VDP_COLS + col) ch;
  bg ← rd bgs ch;
  loop (seqZ 0 8) (fun y pix =>
    bits ← rd kTileset (ch * 8 + y);
    loop (seqZ 0 8) (fun b pix =>
      put ((row * 8 + y) * VDP_WIDTH + col * 8 + b) (if patBit bits b then fg else bg) pix)
      pix) pix.

Definition CompositeTiles (v : Vdp) (s : Screen) : option Screen :=
  s ← (if gColorsReady s =? 0 then InitCharColors s else Some s);
  pix ← loop (seqZ 0 VDP_ROWS) (fun row pix =>
          loop (seqZ 0 VDP_COLS) (fun col pix =>
            tileCell v (gCharFg s) (gCharBg s) row col pix) pix) (gPix s);
  Some (set_gPix pix s).

(** ** Headlines *)

(** One glyph at pixel [px], [py], each of its pixels doubled. *)
Definition bigGlyph (px py fg ch : Z) (pix : list Z) : option (list Z) :=
  loop (seqZ 0 8) (fun y pix =>
    let dy := s16 (py + y * 2) in
    bits ← rd kTileset (ch * 8 + y);
    if (dy <? 0) || (VDP_HEIGHT <=? dy + 1) then Some pix
    else
      loop (seqZ 0 8) (fun b pix =>
        if negb (patBit bits b) then Some pix
        else
          let dx := s16 (px + b * 2) in
          if (dx <? 0) || (VDP_WIDTH <=? dx + 1) then Some pix
          else
            let d := dy * VDP_WIDTH + dx in
            pix ← put (d + 1) fg pix;
            pix ← put d fg pix;
            pix ← put (d + VDP_WIDTH + 1) fg pix;
            put (d + VDP_WIDTH) fg pix) pix) pix.

Fixpoint bigString (px py fg : Z) (t : string) (pix : list Z) : option (list Z) :=
  match t with
  | EmptyString => Some pix
  | String c t =>
      pix ← bigGlyph px py fg (charCode c) pix;
      bigString (s16 (px + 16)) py fg t pix
  end.

Definition CompositeBigText (v : Vdp) (pix : list Z) : option (list Z) :=
  loop (seqZ 0 (gBigCount v)) (fun i pix =>
    t ← rd (gBigText v) i;
    fg ← (if b_fg t =? VDP_FG_PULSE then rd kPulse (gVdpPhase v .& 3) else Some (b_fg t));
    bigString (s16 (b_col t * 8)) (s16 (b_row t * 8)) fg (b_text t) pix) pix.

(** ** Sprites *)

(** The pattern of a sprite slot; no pattern means nothing is drawn. *)
Definition spritePat (slot : Z) : option (list Z) :=
  if 56 <=? slot
  then if 68 <? slot then None else Some (drop (Z.to_nat ((slot - 56) * 8)) kBossPats)
  else if 52 <? slot then None else Some (drop (Z.to_nat (slot * 8)) kSpritePats).

Definition spriteStep (v : Vdp) (e : SatEntry) : Z :=
  u8 ((gVdpPhase v + (e_x e .>> 4)) .& 3).

Definition flag (e : SatEntry) (f : Z) : bool := (e_flags e .& f) <>? 0.

Definition spriteDy (v : Vdp) (e : SatEntry) : option Z :=
  if flag e SPR_BOB then rd kBobDy (spriteStep v e) else Some 0.

Definition spriteDx (v : Vdp) (e : SatEntry) : Z :=
  if flag e SPR_SHAKE then (if gVdpPhase v .& 1 <>? 0 then 1 else -1) else 0.

Definition spriteColor (v : Vdp) (e : SatEntry) : option Z :=
  if flag e SPR_FLICKER then rd kFlame (spriteStep v e) else Some (e_color e).

(** The value a sprite stores for a pixel of its 16x16 square, if it does. *)
Definition spriteInk (negative on : bool) (color : Z) : option Z :=
  if negative then Some (if on then 1 else 15) else if on then Some color else None.

Definition CompositeSprite (v : Vdp) (monoFlash : bool) (e : SatEntry) (pix : list Z)
  : option (list Z) :=
  let negative := monoFlash && flag e SPR_INVERT in
  dy ← spriteDy v e;
  color ← spriteColor v e;
  match spritePat (e_name e) with
  | None => Some pix
  | Some pat =>
      loop (seqZ 0 16) (fun y pix =>
        let sy := s16 (e_y e + dy + y) in
        if (sy <? 0) || (VDP_HEIGHT <=? sy) then Some pix
        else
          left ← rd pat y;
          right ← rd pat (16 + y);
          let bits := u16 ((left .<< 8) .| right) in
          loop (seqZ 0 16) (fun b pix =>
            let sx := s16 (e_x e + spriteDx v e + b) in
            if (sx <? 0) || (VDP_WIDTH <=? sx) then Some pix
            else
              match spriteInk negative ((bits .& (0x8000 .>> b)) <>? 0) color with
              | Some c => put (sy * VDP_WIDTH + sx) c pix
              | None => Some pix
              end) pix) pix
  end.

Definition VdpComposite (v : Vdp) (monoFlash : bool) (s : Screen) : option Screen :=
  s ← CompositeTiles v s;
  pix ← CompositeBigText v (gPix s);
  pix ← loop (seqZ 0 (gSatCount v)) (fun i pix =>
          e ← rd (gSat v) i; CompositeSprite v monoFlash e pix) pix;
  Some (set_gPix pix s).

(** ** Packing and the idle clock *)

Definition packByte (pix : list Z) (base : Z) : option Z :=
  loop (seqZ 0 8) (fun b out =>
    c ← rd pix (base + b);
    Some (if IS_INK c then out .| u8 (0x80 .>> b) else out)) 0.

Definition VdpPackMono (s : Screen) : option Screen :=
  frame ← loop (seqZ 0 VDP_HEIGHT) (fun y frame =>
            loop (seqZ 0 VDP_ROWBYTES) (fun xb frame =>
              out ← packByte (gPix s) (y * VDP_WIDTH + xb * 8);
              put (y * VDP_ROWBYTES + xb) out frame) frame) (gFrame s);
  Some (set_gFrame frame s).

Definition VdpAnimated (v : Vdp) : bool :=
  existsb (fun t => b_fg t =? VDP_FG_PULSE) (take (Z.to_nat (gBigCount v)) (gBigText v)) ||
  existsb (fun e => (e_flags e .& (SPR_BOB .| SPR_FLICKER .| SPR_SHAKE)) <>? 0)
    (take (Z.to_nat (gSatCount v)) (gSat v)) ||
  existsb (fun ch => (CHAR_STAIRS_DOWN <=? ch) && (ch <? CHAR_STAIRS_DOWN + 4)) (gName v).
