(* ===== verification/RoguePools.v ===== *)
(** * RoguePools: the monster and item pools, and the item catalogue

    The queries and the catalogue of [dev/mac-rogue/rogue_mon.c] and
    [rogue_item.c] that generation, combat and the inventory share. *)

From S2P Require Import Prelude.
From S2P Require Import RogueState.
From stdpp Require Import base list numbers option decidable strings.

Open Scope Z_scope.

(** The scan [for (i = 0; i < N; i++) if (p(a[i])) return i; return -1;]. *)
Fixpoint scan {A} (p : A -> bool) (l : list A) (i : Z) : Z :=
  match l with
  | [] => -1
  | a :: l => if p a then i else scan p l (i + 1)
  end.

(** [m] covers the target cell; the boss answers for its 2x2 footprint. *)
Definition covers (s : Game) (m : Monster) : bool :=
  if m_type m =? 0 then false
  else if m_type m =? MON_TYPE_BOSS
  then
    let dc := gTgtCol s - m_col m in
    let dr := gTgtRow s - m_row m in
    (0 <=? dc) && (dc <? 2) && (0 <=? dr) && (dr <? 2)
  else (m_col m =? gTgtCol s) && (m_row m =? gTgtRow s).

Definition MonsterAtTarget (s : Game) : Z := scan (covers s) (gMon s) 0.

Definition ItemAtTarget (s : Game) : Z :=
  scan (fun w => (w_type w <>? 0) && (w_col w =? gTgtCol s) &&
                 (w_row w =? gTgtRow s)) (gItem s) 0.

Definition SpawnTypedItem (type subtype : Z) : M () :=
  s ← get;
  let i := scan (fun w => w_type w =? 0) (gItem s) 0 in
  if i <? 0 then mret tt
  else aset gItem set_gItem i (mkItem type (gTgtCol s) (gTgtRow s) subtype).

(** ** Names and payloads *)

Definition kMonName : list string :=
  ["UNKNOWN"; "UNDEAD"; "GHOST"; "TROLL"; "SKELETON"; "DEATH"; "THE DEMON";
   "A PIT"]%string.

Definition MonName (type : Z) : M string :=
  aget kMonName (if type <=? 7 then type else 0).

Definition kItemNames : list string :=
  ["?"; "SWORD"; "TUNIC"; "AMULET"; "POTION"; "SCROLL"; "RATION"; "DAGGER";
   "TORCH"]%string.

Definition LookupItemName (type subtype : Z) : M string :=
  aget kItemNames (if (1 <=? type) && (type <=? 8) then type else 0).

Definition LookupItemValue (type subtype : Z) : Z :=
  if subtype <>? 0 then 0
  else if type =? ITEM_T_WEAPON then 2
  else if type =? ITEM_T_ARMOR then 1
  else if type =? ITEM_T_RING then RING_F_REGEN
  else if type =? ITEM_T_POTION then 5
  else if type =? ITEM_T_SCROLL then 0
  else if type =? ITEM_T_FOOD then FOOD_HEAL
  else if type =? ITEM_T_DAGGER then 2
  else if type =? ITEM_T_TORCH then 0
  else 0.
