(* ===== verification/RogueUi.v ===== *)
(** * RogueUi: title, briefing, help, bag lines and the two endings

    [dev/mac-rogue/rogue_ui.c], except [ShowInventory], which needs the items
    of [RogueItem]. *)

From S2P Require Import Prelude.
From S2P Require Import RogueState.
From S2P Require Import RogueMap.
From S2P Require Import Vdp.
From S2P Require Import RogueDraw.
From S2P Require Import RoguePools.
From stdpp Require Import base list numbers option decidable strings.

Open Scope Z_scope.

(** A line of a card: row, column, colour, text. *)
Record TextLine := mkLine { l_row : Z; l_col : Z; l_fg : Z; l_text : string }.

Definition PaintLines (t : list TextLine) : M () :=
  each t (fun l => VdpPutStringColor (l_row l) (l_col l) (l_text l) (l_fg l)).

(** ** Title and briefing *)

Definition kTitle : list TextLine :=
  [mkLine 5 9 6 "--------------";
   mkLine 7 4 7 "MACINTOSH 68K ROGUELIKE";
   mkLine 9 7 14 "BY VERHILLE ARNAUD";
   mkLine 13 8 3 "MOVE IJKL OR ARROWS";
   mkLine 15 8 15 "ANY KEY TO START";
   mkLine 20 6 10 "[H] FOR HELP IN GAME"].

Definition DrawTitle : M () :=
  VdpPutStringBig 2 11 "ROGUE" VDP_FG_PULSE ;;
  VdpSatAdd 16 56 SPRITE_NAME_TORCH COL_TORCH (SPR_FLICKER .| SPR_BOB) ;;
  VdpSatAdd 16 184 SPRITE_NAME_TORCH COL_TORCH (SPR_FLICKER .| SPR_BOB) ;;
  PaintLines kTitle ;;
  ShellPresent ;;
  SfxPlay SFX_TITLE.

Definition kBriefing : list TextLine :=
  [mkLine 5 4 10 "[AMULET] FIND IT";
   mkLine 7 4 11 "[STAIRS] GO DOWN 12 FLOORS";
   mkLine 9 4 15 "[SWORD] BUMP MONSTERS";
   mkLine 11 4 3 "[BAG] PICK UP ITEMS";
   mkLine 13 4 9 "[TORCH] LIGHT THE DARK";
   mkLine 15 4 6 "[PIT] WATCH YOUR STEP";
   mkLine 17 4 14 "[SKULL] ONE LIFE";
   mkLine 19 4 3 "DEPTH 13: ESCAPE";
   mkLine 22 9 14 "PRESS ANY KEY"].

Definition DrawBriefing : M () :=
  VdpSatReset ;;
  VdpPutStringBig 1 9 "MISSION" 11 ;;
  PaintLines kBriefing ;;
  ShellPresent.

(** ** Help *)

Definition kHelp : list TextLine :=
  [mkLine 4 2 11 "MOVEMENT KEYS";
   mkLine 5 4 0 "I UP J LEFT K DOWN L RIGHT";
   mkLine 6 4 0 "OR THE ARROW KEYS";
   mkLine 8 2 11 "COMMANDS";
   mkLine 9 4 0 "B  BAG OPEN/USE ITEMS";
   mkLine 10 4 0 "T  THROW DAGGER";
   mkLine 11 4 0 "H/?  THIS HELP SCREEN";
   mkLine 12 4 0 ".  REST ONE TURN";
   mkLine 14 2 11 "TIPS";
   mkLine 15 4 0 "BUMP MONSTER TO ATTACK";
   mkLine 16 4 0 "PICKUP IS AUTOMATIC";
   mkLine 17 4 0 "STAIRS DOWN: DESCEND";
   mkLine 18 4 0 "EDGE DOOR: WARP LEVEL";
   mkLine 19 4 0 "REACH DEPTH 13 TO WIN";
   mkLine 22 9 14 "PRESS ANY KEY"].

Definition ShowHelp : M () :=
  VdpSatReset ;;
  VdpClearNames ;;
  VdpPutStringBig 1 12 "HELP" 7 ;;
  PaintLines kHelp ;;
  ShellPresent ;;
  ShellDrainKeys ;;
  _ ← ShellWaitKey;
  RedrawGame.

(** ** Seeding *)

(** [key] is a [char]; its conversion to [unsigned short] extends the sign. *)
Definition WaitKbChoice : M () :=
  upd (set_gBossCheat 0) ;;
  key ← ShellWaitKey;
  t ← ShellTickCount;
  let lo := u16 (t .& 0xFF) in
  let hi := u16 ((t .>> 8) .& 0xFF) in
  let lo := lo .^ u16 key in
  let lo := if (lo .& 0xFF =? 0) && (hi .& 0xFF =? 0) then 1 else lo in
  PrngSeed lo hi ;;
  when (key =? 66) (upd (set_gBossCheat 1)).

(** ** Bag lines *)

Definition DrawInvUtility (row col : Z) (i : InvSlot) : M () :=
  let type := i_type i in
  if type =? ITEM_T_WEAPON
  then VdpPutString row col "ATK+" ;; VdpSetName row (col + 4) (u8 (48 + i_value i))
  else if type =? ITEM_T_ARMOR
  then VdpPutString row col "DEF+" ;; VdpSetName row (col + 4) (u8 (48 + i_value i))
  else if type =? ITEM_T_RING then VdpPutString row col "REGEN"
  else if (type =? ITEM_T_POTION) || (type =? ITEM_T_FOOD)
  then VdpPutString row col "HP+" ;; VdpSetName row (col + 3) (u8 (48 + i_value i))
  else if type =? ITEM_T_SCROLL then VdpPutString row col "REVEAL"
  else if type =? ITEM_T_TORCH
  then VdpPutString row col "FOV+" ;;
       VdpSetName row (col + 4) (u8 (48 + (TORCH_RADIUS - FOV_RADIUS)))
  else VdpPutString row col "THROW".

Definition DrawInvLine (row slot : Z) : M () :=
  s ← get;
  i ← aget (gInv s) slot;
  name ← LookupItemName (i_type i) (i_subtype i);
  let qty := if 9 <? i_qty i then 9 else i_qty i in
  VdpSetName row 4 91 ;;
  VdpSetName row 5 (u8 (65 + slot)) ;;
  VdpSetName row 6 93 ;;
  VdpSetName row 7 32 ;;
  VdpSetName row 8 (u8 (48 + qty)) ;;
  VdpSetName row 9 88 ;;
  VdpSetName row 10 32 ;;
  VdpSetName row 11 32 ;;
  VdpSetName row 12 32 ;;
  VdpPutString row 13 name ;;
  DrawInvUtility row (13 + Z.of_nat (String.length name) + 1) i.

(** ** Endings *)

Definition kAttackerName : list string :=
  ["UNKNOWN"; "UNDEAD"; "GHOST"; "TROLL"; "SKELETON"; "DEATH"; "THE DEMON";
   "A PIT"]%string.

Definition PaintScores : M () :=
  s ← get;
  VdpPutStringColor 9 10 "DEPTH: " 14 ;;
  PutByte3 9 17 (gDepth s) ;;
  VdpPutStringColor 10 10 "KILLS: " 14 ;;
  PutByte3 10 17 (gPlayerXp s) ;;
  VdpPutStringColor 11 10 "HP MAX: " 14 ;;
  PutByte2 11 18 (gHpMax s) ;;
  VdpPutStringColor 12 10 "ATK BASE: " 14 ;;
  PutByte2 12 20 (u8 (gXpAtkBonus s + 1)) ;;
  VdpPutStringColor 13 10 "DEF BASE: " 14 ;;
  PutByte2 13 20 (gXpDefBonus s) ;;
  VdpPutStringColor 16 9 "PRESS ANY KEY" 14.

Definition WaitForRestart : M () :=
  ShellPresent ;;
  ShellDelayTicks 78 ;;
  ShellDrainKeys ;;
  _ ← ShellWaitKey;
  ColdStart COLD_RESTART.

Definition DeathScreen : M () :=
  s ← get;
  let who := gLastAttacker s in
  let who := if (who <? 0) || (7 <? who) then 0 else who in
  SfxPlay SFX_DEATH ;;
  VdpSatReset ;;
  VdpClearNames ;;
  VdpPutStringBig 2 7 "GAME OVER" VDP_FG_PULSE ;;
  VdpPutString 6 5 "YOU DIED ON LEVEL " ;;
  PutByte3 6 23 (gDepth s) ;;
  VdpPutString 7 7 "KILLED BY " ;;
  name ← aget kAttackerName who;
  VdpPutStringColor 7 17 name 8 ;;
  PaintScores ;;
  WaitForRestart.

Definition WinScreen : M () :=
  SfxPlay SFX_WIN ;;
  VdpSatReset ;;
  VdpClearNames ;;
  VdpPutStringBig 2 1 "CONGRATULATIONS" VDP_FG_PULSE ;;
  VdpPutStringColor 6 7 "DUNGEON CONQUERED" 3 ;;
  VdpSatAdd 148 120 SPRITE_NAME_RING COL_RING SPR_BOB ;;
  PaintScores ;;
  WaitForRestart.
