(* ===== verification/RogueGen.v ===== *)
(** * RogueGen: procedural dungeon generation and level population

    [dev/mac-rogue/rogue_gen.c], in source order; the order and number of
    [RandMod] calls is that of the C code. *)

From S2P Require Import Prelude.
From S2P Require Import RogueState.
From S2P Require Import RogueMap.
From S2P Require Import RoguePools.
From stdpp Require Import base list numbers option decidable.

Open Scope Z_scope.

Definition kMonInitHp : list Z := [0; 1; 2; 3; 2; 3; 15].
Definition kMonInitDmg : list Z := [0; 1; 1; 1; 2; 2; 4].
Definition kMonInitName : list Z := [0; 4; 8; 48; 20; 12; 56].
Definition kMonInitColor : list Z := [0; 15; 14; 2; 7; 10; 8].

(** ** Finding a free cell *)

(** The test of the sweep: open floor, no player, monster or item. *)
Definition freeTarget (s : Game) : bool :=
  (TileAt (gTgtCol s) (gTgtRow s) s =? TILE_EMPTY) &&
  negb ((gTgtCol s =? gPlayerCol s) && (gTgtRow s =? gPlayerRow s)) &&
  (MonsterAtTarget s <? 0) && (ItemAtTarget s <? 0).

(** The sweep of [remaining] cells from [cursor]. *)
Fixpoint sweep (remaining : nat) (cursor : Z) : M bool :=
  match remaining with
  | O => mret false
  | S remaining =>
      upd (set_gTgtCol (u8 (cursor .& 0x0F))) ;;
      upd (set_gTgtRow (u8 (cursor .>> 4))) ;;
      s ← get;
      if freeTarget s then mret true
      else
        let cursor := cursor + 1 in
        sweep remaining (if MAP_CELLS <=? cursor then 0 else cursor)
  end.

Definition FindEmptyCell : M bool :=
  cursor ← RandMod MAP_CELLS;
  sweep (Z.to_nat MAP_CELLS) cursor.

(** ** Room carving *)

Definition CarveRoom : M () :=
  s ← get;
  each (seqZ 0 (room_h s)) (fun r =>
    each (seqZ 0 (room_w s)) (fun c =>
      upd (fun s => set_gTgtCol (u8 (room_x s + c)) s) ;;
      upd (fun s => set_gTgtRow (u8 (room_y s + r)) s) ;;
      SetTile TILE_EMPTY)).

Definition PickRandomRoom (roomIdx : Z) : M () :=
  r ← RandMod 3; upd (set_room_w (u8 (r + 4))) ;;
  r ← RandMod 3; upd (set_room_h (u8 (r + 3))) ;;
  s ← get;
  r ← RandMod (u8 (9 - room_h s)); upd (set_room_y (u8 (r + 1))) ;;
  if roomIdx =? 0
  then r ← RandMod (u8 (8 - room_w s)); upd (set_room_x (u8 (r + 1)))
  else r ← RandMod (u8 (7 - room_w s)); upd (set_room_x (u8 (r + 9))).

Definition CarveCorridorMarker : M () :=
  s ← get;
  when (TileAt (gTgtCol s) (gTgtRow s) s =? TILE_WALL) (SetTile TILE_CORR).

(** The loop [for (v = lo;; v++) { CarveCorridorMarker(); if (v >= hi) break; }]
    visits [lo .. hi]; its callers pass [lo <= hi]. *)
Definition corridorRun (set : Z -> Game -> Game) (lo hi : Z) : M () :=
  each (seqZ lo (hi - lo + 1)) (fun v => upd (set v) ;; CarveCorridorMarker).

Definition DigCorridor : M () :=
  s ← get;
  upd (set_gTgtRow (prev_cy s)) ;;
  let lo := if prev_cx s <? cx s then prev_cx s else cx s in
  let hi := if prev_cx s <? cx s then cx s else prev_cx s in
  corridorRun set_gTgtCol lo hi ;;
  upd (set_gTgtCol (cx s)) ;;
  let lo := if prev_cy s <? cy s then prev_cy s else cy s in
  let hi := if prev_cy s <? cy s then cy s else prev_cy s in
  corridorRun set_gTgtRow lo hi.

(** ** Doors *)

(** [for (idx = MAP_CELLS - 1; idx >= 0; idx--)]. *)
Definition downIndices : list Z := rev (seqZ 0 MAP_CELLS).

(** Pass 1: a marker next to room interior is a threshold. *)
Definition classifyMarker (idx : Z) : M () :=
  s ← get;
  when (MapGet idx s .& 7 =? TILE_CORR)
    (let col := u8 (idx .& 0x0F) in
     let row := u8 (idx .>> 4) in
     let boundary := (TileAt (col - 1) row s =? TILE_EMPTY) ||
                     (TileAt (col + 1) row s =? TILE_EMPTY) ||
                     (TileAt col (row - 1) s =? TILE_EMPTY) ||
                     (TileAt col (row + 1) s =? TILE_EMPTY) in
     MapSet idx (if boundary then TILE_DOOR else TILE_CORR_DROP)).

(** Pass 2: mid-corridor markers become floor. *)
Definition dropMarker (idx : Z) : M () :=
  s ← get;
  when (MapGet idx s .& 7 =? TILE_CORR_DROP) (MapSet idx TILE_EMPTY).

(** Pass 3: a door west or north of this one demotes it. *)
Definition collapseDoor (idx : Z) : M () :=
  s ← get;
  when (MapGet idx s .& 7 =? TILE_DOOR)
    (let col := u8 (idx .& 0x0F) in
     let row := u8 (idx .>> 4) in
     when ((TileAt (col - 1) row s =? TILE_DOOR) ||
           (TileAt col (row - 1) s =? TILE_DOOR))
       (MapSet idx TILE_EMPTY)).

Definition FinalizeDoors : M () :=
  each downIndices classifyMarker ;;
  each downIndices dropMarker ;;
  each downIndices collapseDoor.

Definition DOOR_BASE : Z := 3.

Record DoorEdge := mkEdge { skipMode : Z; span : Z; axis : Z; fixed : Z }.

Definition kDoorTable : list DoorEdge :=
  [mkEdge 5 10 0 0; mkEdge 4 10 0 9; mkEdge 2 4 1 0; mkEdge 3 4 1 15].

Definition PlacePerimeterDoors : M () :=
  each kDoorTable (fun e =>
    s ← get;
    when (skipMode e <>? gTransMode s)
      (r ← RandMod (span e);
       let r := u8 (r + DOOR_BASE) in
       (if axis e =? 0
        then upd (set_gTgtCol r) ;; upd (set_gTgtRow (fixed e))
        else upd (set_gTgtRow r) ;; upd (set_gTgtCol (fixed e))) ;;
       SetTile TILE_DOOR)).

(** ** Layouts *)

(** The full-screen room both big layouts carve. *)
Definition fullRoom : M () :=
  upd (set_room_x 1) ;; upd (set_room_y 1) ;;
  upd (set_room_w 14) ;; upd (set_room_h 8) ;;
  CarveRoom.

Definition GenBigRoom : M () :=
  fullRoom ;;
  upd (set_gTgtCol 14) ;; upd (set_gTgtRow 2) ;;
  SetTile TILE_STAIRS_UP ;;
  upd (set_gPlayerCol 13) ;; upd (set_gPlayerRow 2) ;;
  upd (set_gTgtCol 1) ;; upd (set_gTgtRow 8) ;;
  SetTile TILE_STAIRS_DOWN ;;
  PlacePerimeterDoors.

Definition GenBossRoom : M () :=
  fullRoom ;;
  upd (set_gPlayerCol 7) ;; upd (set_gPlayerRow 8).

(** One iteration of the loop over the two rooms. *)
Definition genRoom (roomIdx : Z) : M () :=
  PickRandomRoom roomIdx ;;
  CarveRoom ;;
  upd (fun s => set_cx (u8 (room_x s + ((room_w s + 1) .>> 1))) s) ;;
  upd (fun s => set_cy (u8 (room_y s + ((room_h s + 1) .>> 1))) s) ;;
  (if roomIdx =? 0
   then
     upd (fun s => set_gPlayerCol (u8 (room_x s + room_w s - 2)) s) ;;
     upd (fun s => set_gPlayerRow (room_y s) s) ;;
     upd (fun s => set_corr_row (cy s) s)
   else DigCorridor) ;;
  upd (fun s => set_prev_cx (cx s) s) ;;
  upd (fun s => set_prev_cy (cy s) s).

Definition GenTwoRooms : M () :=
  each [0; 1] genRoom ;;
  FinalizeDoors ;;
  upd (fun s => set_gTgtCol (u8 (gPlayerCol s + 1)) s) ;;
  upd (fun s => set_gTgtRow (gPlayerRow s) s) ;;
  SetTile TILE_STAIRS_UP ;;
  upd (fun s => set_gTgtCol (room_x s) s) ;;
  upd (fun s => set_gTgtRow (room_y s) s) ;;
  s ← get;
  when (gTgtRow s =? corr_row s)
    (upd (fun s => set_gTgtRow (u8 (gTgtRow s + 1)) s)) ;;
  SetTile TILE_STAIRS_DOWN.

Definition GenDungeon : M () :=
  MapFillWalls ;;
  r ← RandMod 2;
  if r =? 0 then GenBigRoom else GenTwoRooms.

Definition ApplyWrapSpawn : M () :=
  s ← get;
  let anchor := gWrapAnchor s in
  (if gTransMode s =? 2
   then upd (set_gPlayerCol 1) ;; upd (set_gPlayerRow anchor) ;;
        upd (set_gTgtRow anchor) ;; upd (set_gTgtCol 0)
   else if gTransMode s =? 3
   then upd (set_gPlayerCol 14) ;; upd (set_gPlayerRow anchor) ;;
        upd (set_gTgtRow anchor) ;; upd (set_gTgtCol 15)
   else if gTransMode s =? 4
   then upd (set_gPlayerRow 8) ;; upd (set_gPlayerCol anchor) ;;
        upd (set_gTgtCol anchor) ;; upd (set_gTgtRow 9)
   else upd (set_gPlayerRow 1) ;; upd (set_gPlayerCol anchor) ;;
        upd (set_gTgtCol anchor) ;; upd (set_gTgtRow 0)) ;;
  SetTile TILE_DOOR.

(** ** Population *)

Definition Monster0 : Monster := mkMonster 0 0 0 0 0 0 0 0.
Definition WorldItem0 : WorldItem := mkItem 0 0 0 0.

Definition WipePools : M () :=
  each (seqZ 0 MON_COUNT) (fun i => aset gMon set_gMon i Monster0) ;;
  each (seqZ 0 ITEM_COUNT) (fun i => aset gItem set_gItem i WorldItem0).

(** The difficulty bonuses of the current depth. *)
Definition setBonuses : M () :=
  upd (fun s => set_gMonHpBonus (u8 (gDepth s / 3)) s) ;;
  upd (fun s => set_gMonDmgBonus (u8 (gMonHpBonus s .>> 1)) s).

(** A fresh monster of the given type at the given cell. *)
Definition initMonster (type col row : Z) : M Monster :=
  s ← get;
  hp ← aget kMonInitHp type;
  dmg ← aget kMonInitDmg type;
  name ← aget kMonInitName type;
  color ← aget kMonInitColor type;
  mret (mkMonster type (u8 (hp + gMonHpBonus s)) col row name color
          (u8 (dmg + gMonDmgBonus s)) 0).

(** The loop of [SpawnMonsters] over the slots; it stops when no cell is free. *)
Fixpoint spawnInto (slots : list Z) : M () :=
  match slots with
  | [] => mret tt
  | i :: slots =>
      found ← FindEmptyCell;
      if negb found then mret tt
      else
        s ← get;
        r ← RandMod (gMonTypePool s);
        let type := u8 (r + 1) in
        s ← get;
        m ← initMonster type (gTgtCol s) (gTgtRow s);
        aset gMon set_gMon i m ;;
        spawnInto slots
  end.

Definition SpawnMonsters : M () :=
  WipePools ;;
  s ← get;
  let count := gDepth s + 2 in
  let count := if MON_COUNT <? count then MON_COUNT else count in
  upd (set_gMonTypePool (if 10 <=? gDepth s then 5
                         else if 5 <=? gDepth s then 4 else 3)) ;;
  setBonuses ;;
  spawnInto (seqZ 0 count).

Definition SpawnBoss : M () :=
  WipePools ;;
  setBonuses ;;
  m ← initMonster MON_TYPE_BOSS 7 4;
  aset gMon set_gMon 0 m.

Definition kItemThresh : list Z := [6; 14; 17; 19; 23; 26; 28; 32].
Definition kItemType : list Z := [6; 7; 4; 5; 1; 2; 3; 8].
Definition kItemSubCount : list Z := [1; 1; 1; 1; 1; 1; 1; 1].

(** [for (k = 0; k < 8 && roll >= kItemThresh[k]; k++); if (k > 7) k = 7;] *)
Definition pickCategory (roll : Z) : Z :=
  let k := scan (fun t => roll <? t) kItemThresh 0 in
  if k <? 0 then 7 else k.

Fixpoint spawnItems (n : nat) : M () :=
  match n with
  | O => mret tt
  | S n =>
      found ← FindEmptyCell;
      if negb found then mret tt
      else
        roll ← RandMod 32;
        let k := pickCategory roll in
        type ← aget kItemType k;
        cnt ← aget kItemSubCount k;
        sub ← RandMod cnt;
        SpawnTypedItem type sub ;;
        spawnItems n
  end.

Definition SpawnLevelItems : M () :=
  r ← RandMod 3; spawnItems (Z.to_nat (r + 1)).

Fixpoint spawnPits (n : nat) : M () :=
  match n with
  | O => mret tt
  | S n =>
      found ← FindEmptyCell;
      if negb found then mret tt
      else SetTile TILE_TRAP_PIT ;; spawnPits n
  end.

Definition SpawnLevelPits : M () :=
  n ← RandMod 3; spawnPits (Z.to_nat n).
