(* ===== verification/RogueFov.v ===== *)
(** * RogueFov: recursive shadowcasting

    [dev/mac-rogue/rogue_fov.c].  The slopes and offsets are [short]s and
    [int]s that stay far inside their range (a radius is at most 255), so they
    are plain integers.  [castRows] is the loop of [CastOctant] over the rows
    from [depth] to [gFovR]; both it and the recursive call go one row deeper,
    so the radius bounds the recursion and is the fuel. *)

From S2P Require Import Prelude.
From S2P Require Import RogueState.
From S2P Require Import RogueMap.
From stdpp Require Import base list numbers option decidable.

Open Scope Z_scope.

Definition kOctXX : list Z := [0; 1; -1; 0; 0; -1; 1; 0].
Definition kOctXY : list Z := [1; 0; 0; -1; -1; 0; 0; 1].
Definition kOctYX : list Z := [-1; 0; 0; -1; 1; 0; 0; 1].
Definition kOctYY : list Z := [0; -1; -1; 0; 0; 1; 1; 0].

Definition MarkVisibleAtCur : M () :=
  s ← get;
  aset gVis set_gVis (gCurY s * LOGICAL_COLS + gCurX s) 1.

Definition IsOpaqueAtCur : M bool :=
  s ← get;
  v ← aget (gMap s) (gCurY s * LOGICAL_COLS + gCurX s);
  let t := u8 (v .& 7) in
  mret ((t =? TILE_WALL) || (t =? TILE_DOOR)).

(** The scan of one row, column [col = k] down to 0, in the cone from
    [startN/startD] to [endN/endD]; the result is [blocked] and the live start
    slope when the loop is left.  [cast] is the recursive call. *)
Fixpoint castCols (cast : Z -> Z -> Z -> Z -> M ()) (endN endD depth : Z)
  (k : nat) (blocked : bool) (startN startD saveN saveD : Z)
  : M (bool * Z * Z) :=
  let col := Z.of_nat k in
  let lslopeN := 2 * col + 1 in
  let lslopeD := 2 * depth - 1 in
  let rslopeN := if col =? 0 then 0 else 2 * col - 1 in
  let rslopeD := 2 * depth + 1 in
  let next_col blocked startN startD saveN saveD :=
    match k with
    | O => mret (blocked, startN, startD)
    | S k => castCols cast endN endD depth k blocked startN startD saveN saveD
    end in
  if startN * rslopeD <? rslopeN * startD
  then next_col blocked startN startD saveN saveD
  else if lslopeN * endD <? endN * lslopeD
  then mret (blocked, startN, startD)
  else
    s ← get;
    let x := gPlayerCol s + col * oct_xx s + depth * oct_xy s in
    let y := gPlayerRow s + col * oct_yx s + depth * oct_yy s in
    if (x <? 0) || (LOGICAL_COLS <=? x) || (y <? 0) || (LOGICAL_ROWS <=? y)
    then next_col true startN startD rslopeN rslopeD
    else
      upd (set_gCurX (u8 x)) ;;
      upd (set_gCurY (u8 y)) ;;
      MarkVisibleAtCur ;;
      opaque ← IsOpaqueAtCur;
      if (opaque : bool)
      then
        when (negb blocked && (depth <? gFovR s))
          (cast startN startD lslopeN lslopeD) ;;
        next_col true startN startD rslopeN rslopeD
      else if blocked then next_col false saveN saveD saveN saveD
      else next_col false startN startD saveN saveD.

Fixpoint castRows (fuel : nat) (depth startN startD endN endD : Z) : M () :=
  s ← get;
  if gFovR s <? depth then mret tt
  else
    match fuel with
    | O => fault
    | S fuel =>
        let cast sN sD eN eD :=
          if sN * eD <=? eN * sD then mret tt
          else castRows fuel (depth + 1) sN sD eN eD in
        r ← castCols cast endN endD depth (Z.to_nat depth) false startN startD
              startN startD;
        let '(blocked, startN, startD) := (r : bool * Z * Z) in
        if blocked then mret tt
        else castRows fuel (depth + 1) startN startD endN endD
    end.

Definition CastOctant (depth startN startD endN endD : Z) : M () :=
  if startN * endD <=? endN * startD then mret tt
  else
    s ← get;
    castRows (Z.to_nat (gFovR s)) depth startN startD endN endD.

Definition StripInvisiblePitReveals : M () :=
  each (rev (seqZ 0 MAP_CELLS)) (fun i =>
    s ← get;
    v ← aget (gMap s) i;
    if v .& TILE_REVEAL_BIT =? 0 then mret tt
    else
      lit ← aget (gVis s) i;
      if lit <>? 0 then mret tt
      else aset gMap set_gMap i (v .& u8 (Z.lnot TILE_REVEAL_BIT))).

Definition ComputeFov : M () :=
  upd (fun s => set_gFovR (if gTorchTimer s <>? 0 then TORCH_RADIUS
                           else FOV_RADIUS) s) ;;
  ClearVisBuffer ;;
  upd (fun s => set_gCurX (gPlayerCol s) s) ;;
  upd (fun s => set_gCurY (gPlayerRow s) s) ;;
  MarkVisibleAtCur ;;
  each (seqZ 0 8) (fun o =>
    xx ← aget kOctXX o; upd (set_oct_xx xx) ;;
    xy ← aget kOctXY o; upd (set_oct_xy xy) ;;
    yx ← aget kOctYX o; upd (set_oct_yx yx) ;;
    yy ← aget kOctYY o; upd (set_oct_yy yy) ;;
    CastOctant 1 1 1 0 1) ;;
  StripInvisiblePitReveals.
