(* ===== verification/RogueMon.v ===== *)
(** * RogueMon: monsters, combat and experience

    [dev/mac-rogue/rogue_mon.c].  A C function returning 0 or 1 returns a [bool]; a local
    [Monster *m = &gMon[i]] is slot [i], re-read and updated in place. *)

From S2P Require Import Prelude.
From S2P Require Import RogueState.
From S2P Require Import RogueMap.
From S2P Require Import RogueMsg.
From S2P Require Import RoguePools.
From S2P Require Import RogueUi.
From stdpp Require Import base list numbers option decidable strings.

Open Scope Z_scope.

(** ** Slots *)

Definition mon (i : Z) : M Monster := s ← get; aget (gMon s) i.
Definition upd_mon (i : Z) (f : Monster -> Monster) : M () :=
  m ← mon i; aset gMon set_gMon i (f m).

(** ** Stats, pits and experience *)

Definition ComputeAbsDeltas (i : Z) : M bool :=
  m ← mon i;
  s ← get;
  let dx := u8 (if m_col m <? gPlayerCol s then gPlayerCol s - m_col m
                else m_col m - gPlayerCol s) in
  let dy := u8 (if m_row m <? gPlayerRow s then gPlayerRow s - m_row m
                else m_row m - gPlayerRow s) in
  upd (set_mon_abs_dx dx) ;;
  upd (set_mon_abs_dy dy) ;;
  mret (dx .| dy <>? 0).

Definition RecomputePlayerStats : M () :=
  upd (fun s => set_gPlayerDmg
         (u8 ((if gWeaponTimer s <>? 0 then gWeaponBoost s else 1)
              + gXpAtkBonus s)) s) ;;
  upd (fun s => set_gPlayerDef
         (u8 ((if gArmorTimer s <>? 0 then gArmorBoost s else 0)
              + gXpDefBonus s)) s).

Definition TriggerPit : M () :=
  upd (fun s => set_gHp (u8 (if PIT_DMG <? gHp s then gHp s - PIT_DMG else 0)) s) ;;
  upd (set_gPlayerHurt 1) ;;
  upd (set_gLastAttacker LAST_ATTACKER_PIT) ;;
  Msg "YOU FALL IN A PIT" ;;
  SfxPlay SFX_PIT ;;
  RevealPitAtTarget.

(** The three countdowns of [AwardXp]. *)
Definition hpTick : M () :=
  upd (fun s => set_gHpTick (u8 (gHpTick s - 1)) s) ;;
  s ← get;
  when (gHpTick s =? 0)
    (upd (set_gHpTick 5) ;;
     upd (fun s => set_gHpMax (u8 (gHpMax s + 1)) s) ;;
     s ← get;
     when (gHp s <? gHpMax s) (upd (fun s => set_gHp (u8 (gHp s + 1)) s)) ;;
     Msg "YOU FEEL TOUGHER" ;;
     SfxPlay SFX_LEVELUP).

Definition atkTick : M () :=
  upd (fun s => set_gAtkTick (u8 (gAtkTick s - 1)) s) ;;
  s ← get;
  when (gAtkTick s =? 0)
    (upd (set_gAtkTick 10) ;;
     upd (fun s => set_gXpAtkBonus (u8 (gXpAtkBonus s + 1)) s) ;;
     RecomputePlayerStats ;;
     Msg "YOU FEEL STRONGER" ;;
     SfxPlay SFX_LEVELUP).

Definition defTick : M () :=
  upd (fun s => set_gDefTick (u8 (gDefTick s - 1)) s) ;;
  s ← get;
  when (gDefTick s =? 0)
    (upd (set_gDefTick 20) ;;
     upd (fun s => set_gXpDefBonus (u8 (gXpDefBonus s + 1)) s) ;;
     RecomputePlayerStats ;;
     Msg "YOUR SKIN HARDENS" ;;
     SfxPlay SFX_LEVELUP).

Definition AwardXp : M () :=
  s ← get;
  if gPlayerXp s =? 0xFF then mret tt
  else
    upd (fun s => set_gPlayerXp (u8 (gPlayerXp s + 1)) s) ;;
    hpTick ;; atkTick ;; defTick.

(** ** Player against monster *)

Definition PlayerAttackMonster (i : Z) : M () :=
  s ← get;
  upd_mon i (fun m => set_m_hp (u8 (if gPlayerDmg s <? m_hp m
                                    then m_hp m - gPlayerDmg s else 0)) m) ;;
  m ← mon i;
  if m_hp m <>? 0
  then
    upd_mon i (set_m_hurt 1) ;;
    name ← MonName (m_type m);
    Msg2 "YOU HIT THE" name ;;
    SfxPlay SFX_HIT
  else
    name ← MonName (m_type m);
    Msg2 "YOU KILL THE" name ;;
    SfxPlay SFX_KILL ;;
    upd (set_gTgtCol (m_col m)) ;;
    upd (set_gTgtRow (m_row m)) ;;
    if m_type m =? MON_TYPE_BOSS
    then upd_mon i (set_m_type 0) ;; AwardXp ;; WinScreen
    else
      upd_mon i (set_m_type 0) ;;
      AwardXp ;;
      r ← RandMod 4;
      when (r =? 0) (SpawnTypedItem ITEM_T_FOOD 0).

(** ** Monster against world *)

(** The bite: damage after armour, floored at 0. *)
Definition biteDamage (m : Monster) (s : Game) : Z :=
  u8 (if gPlayerDef s <? m_dmg m then m_dmg m - gPlayerDef s else 0).
Definition hpAfter (dmg : Z) (s : Game) : Z :=
  u8 (if dmg <? gHp s then gHp s - dmg else 0).

Definition offInterior (s : Game) : bool :=
  (gTgtRow s <? PLAY_TOP_ROW) || (PLAY_BOT_ROW <? gTgtRow s) ||
  (gTgtCol s <? PLAY_LEFT_COL) || (PLAY_RIGHT_COL <? gTgtCol s).

(** [m->col = gTgtCol; m->row = gTgtRow; return 1;] *)
Definition moveToTarget (i : Z) : M bool :=
  s ← get;
  upd_mon i (fun m => set_m_row (gTgtRow s) (set_m_col (gTgtCol s) m)) ;;
  mret true.

Definition ApplyStep (i : Z) : M bool :=
  s ← get;
  m ← mon i;
  if (gTgtCol s =? gPlayerCol s) && (gTgtRow s =? gPlayerRow s)
  then
    let dmg := biteDamage m s in
    upd (set_gHp (hpAfter dmg s)) ;;
    upd (set_gPlayerHurt 1) ;;
    upd (set_gLastAttacker (m_type m)) ;;
    name ← MonName (m_type m);
    (if dmg <>? 0
     then
       Msg2 name "HITS YOU" ;;
       s ← get;
       SfxPlay (if gHp s <=? 3 then SFX_HURT_LOW else SFX_HURT)
     else Msg2 name "GLANCES OFF" ;; SfxPlay SFX_GLANCE) ;;
    mret true
  else if offInterior s then mret false
  else
    let tile := TileAt (gTgtCol s) (gTgtRow s) s in
    if 0 <=? MonsterAtTarget s then mret false
    else if 0 <=? ItemAtTarget s then mret false
    else if tile =? TILE_TRAP_PIT
    then
      upd_mon i (fun m => set_m_hp (u8 (if PIT_DMG <? m_hp m
                                        then m_hp m - PIT_DMG else 0)) m) ;;
      RevealPitAtTarget ;;
      m ← mon i;
      if m_hp m =? 0
      then
        name ← MonName (m_type m);
        Msg2 name "FALLS IN A PIT" ;;
        upd_mon i (set_m_type 0) ;;
        mret true
      else upd_mon i (set_m_hurt 1) ;; moveToTarget i
    else if (tile <>? TILE_EMPTY) && (tile <>? TILE_STAIRS_DOWN)
    then mret false
    else moveToTarget i.

(** One-cell steps along an axis: [toward] the player, or away from it. *)
Definition TryAxisX (apply : Z -> M bool) (toward : bool) (i : Z) : M bool :=
  m ← mon i;
  s ← get;
  if mon_abs_dx s =? 0 then mret false
  else
    upd (set_gTgtRow (m_row m)) ;;
    upd (set_gTgtCol (u8 (if Bool.eqb (m_col m <? gPlayerCol s) toward
                          then m_col m + 1 else m_col m - 1))) ;;
    apply i.

Definition TryAxisY (apply : Z -> M bool) (toward : bool) (i : Z) : M bool :=
  m ← mon i;
  s ← get;
  if mon_abs_dy s =? 0 then mret false
  else
    upd (set_gTgtCol (m_col m)) ;;
    upd (set_gTgtRow (u8 (if Bool.eqb (m_row m <? gPlayerRow s) toward
                          then m_row m + 1 else m_row m - 1))) ;;
    apply i.

Definition TryStepX : Z -> M bool := TryAxisX ApplyStep true.
Definition TryStepY : Z -> M bool := TryAxisY ApplyStep true.
Definition TryFleeX : Z -> M bool := TryAxisX ApplyStep false.
Definition TryFleeY : Z -> M bool := TryAxisY ApplyStep false.

(** [if (!first(i)) second(i);] *)
Definition tryBoth (first second : Z -> M bool) (i : Z) : M () :=
  moved ← first i;
  if (moved : bool) then mret tt else _ ← second i; mret tt.

(** The longer ([far] on a tie) axis first, after [ComputeAbsDeltas]. *)
Definition byAxis (ifLess otherwise : Z -> M ()) (i : Z) : M () :=
  apart ← ComputeAbsDeltas i;
  if negb apart then mret tt
  else
    s ← get;
    if mon_abs_dx s <? mon_abs_dy s then ifLess i else otherwise i.

Definition AiUndead : Z -> M () :=
  byAxis (tryBoth TryStepY TryStepX) (tryBoth TryStepX TryStepY).

Definition AiSkeleton : Z -> M () :=
  byAxis (tryBoth TryStepX TryStepY) (tryBoth TryStepY TryStepX).

Definition AiDeath (i : Z) : M () :=
  r ← RandMod 2; when (r <>? 0) (AiUndead i).

Definition kGhostDx : list Z := [0; 0; -1; 1].
Definition kGhostDy : list Z := [-1; 1; 0; 0].

Definition AiGhost (i : Z) : M () :=
  d ← RandMod 4;
  m ← mon i;
  dx ← aget kGhostDx d;
  dy ← aget kGhostDy d;
  upd (set_gTgtCol (u8 (m_col m + dx))) ;;
  upd (set_gTgtRow (u8 (m_row m + dy))) ;;
  _ ← ApplyStep i;
  mret tt.

Definition AiTroll (i : Z) : M () :=
  m ← mon i;
  if m_hurt m <>? 0 then AiUndead i
  else byAxis (tryBoth TryFleeY TryFleeX) (tryBoth TryFleeX TryFleeY) i.

(** ** The boss *)

Definition BossCellPassable (col row : Z) (s : Game) : bool :=
  if (row <? PLAY_TOP_ROW) || (PLAY_BOT_ROW <? row) then false
  else if (col <? PLAY_LEFT_COL) || (PLAY_RIGHT_COL <? col) then false
  else TileAt (u8 col) (u8 row) s =? TILE_EMPTY.

Definition ApplyBossStep (i : Z) : M bool :=
  s ← get;
  m ← mon i;
  let dc := gPlayerCol s - gTgtCol s in
  let dr := gPlayerRow s - gTgtRow s in
  if (0 <=? dc) && (dc <? 2) && (0 <=? dr) && (dr <? 2)
  then
    upd (set_gHp (hpAfter (biteDamage m s) s)) ;;
    upd (set_gPlayerHurt 1) ;;
    upd (set_gLastAttacker MON_TYPE_BOSS) ;;
    Msg "THE DEMON STRIKES YOU" ;;
    SfxPlay SFX_BOSS_HIT ;;
    mret true
  else if negb (BossCellPassable (gTgtCol s) (gTgtRow s) s) ||
          negb (BossCellPassable (gTgtCol s + 1) (gTgtRow s) s) ||
          negb (BossCellPassable (gTgtCol s + 1) (gTgtRow s + 1) s) ||
          negb (BossCellPassable (gTgtCol s) (gTgtRow s + 1) s)
  then mret false
  else moveToTarget i.

Definition TryBossStepX : Z -> M bool := TryAxisX ApplyBossStep true.
Definition TryBossStepY : Z -> M bool := TryAxisY ApplyBossStep true.

Definition AiBoss : Z -> M () :=
  byAxis (tryBoth TryBossStepY TryBossStepX) (tryBoth TryBossStepX TryBossStepY).

(** ** The monsters' turn *)

Definition moveMonster (i : Z) : M () :=
  m ← mon i;
  let type := m_type m in
  if type =? 0 then mret tt
  else if type =? MON_TYPE_GHOST then AiGhost i
  else if type =? MON_TYPE_DEATH then AiDeath i
  else if type =? MON_TYPE_SKELETON then AiSkeleton i
  else if type =? MON_TYPE_TROLL then AiTroll i
  else if type =? MON_TYPE_BOSS then AiBoss i
  else AiUndead i.

Definition MoveMonsters : M () := each (seqZ 0 MON_COUNT) moveMonster.

Definition ClearHurtFlags : M () :=
  upd (set_gPlayerHurt 0) ;;
  each (seqZ 0 MON_COUNT) (fun i =>
    m ← mon i;
    when (m_type m <>? MON_TYPE_TROLL) (upd_mon i (set_m_hurt 0))).
