(* ===== verification/RogueItem.v ===== *)
(** * RogueItem: the bag, consumables and throwing

    [dev/mac-rogue/rogue_item.c] and the bag modal of [rogue_ui.c]. *)

From S2P Require Import Prelude.
From S2P Require Import RogueState.
From S2P Require Import RogueMap.
From S2P Require Import Vdp.
From S2P Require Import RogueDraw.
From S2P Require Import RogueUi.
From S2P Require Import RoguePools.
From S2P Require Import RogueFov.
From S2P Require Import RogueMon.
From stdpp Require Import base list numbers option decidable strings.

Open Scope Z_scope.

(** ** The bag *)

Definition FindInvEmpty (s : Game) : Z := scan (fun i => i_type i =? 0) (gInv s) 0.

Definition FindInvStack (type subtype : Z) (s : Game) : Z :=
  scan (fun i => (i_type i =? type) && (i_subtype i =? subtype)) (gInv s) 0.

Definition inv (slot : Z) : M InvSlot := s ← get; aget (gInv s) slot.
Definition upd_inv (slot : Z) (f : InvSlot -> InvSlot) : M () :=
  i ← inv slot; aset gInv set_gInv slot (f i).

Definition ConsumeInvSlot (slot : Z) : M () :=
  upd_inv slot (fun i => set_i_qty (u8 (i_qty i - 1)) i) ;;
  i ← inv slot;
  when (i_qty i =? 0) (upd_inv slot (set_i_type 0)).

Definition InvSlot0 : InvSlot := mkSlot 0 0 0 0.

Definition InitInventory : M () :=
  each (seqZ 0 INV_COUNT) (fun i => aset gInv set_gInv i InvSlot0) ;;
  upd (set_gRegenTick 0) ;; upd (set_gRingFlags 0) ;;
  upd (set_gXpDefBonus 0) ;; upd (set_gXpAtkBonus 0) ;; upd (set_gPlayerXp 0) ;;
  upd (set_gThrowActive 0) ;;
  upd (set_gDaggerQty 0) ;;
  upd (set_gWeaponBoost 0) ;; upd (set_gWeaponTimer 0) ;;
  upd (set_gArmorBoost 0) ;; upd (set_gArmorTimer 0) ;;
  upd (set_gTorchTimer 0) ;;
  upd (set_gRingBoost 0) ;; upd (set_gRingTimer 0) ;;
  upd (set_gHpMax HP_MAX) ;;
  upd (set_gHpTick 5) ;;
  upd (set_gAtkTick 10) ;;
  upd (set_gDefTick 20) ;;
  RecomputePlayerStats.

(** [gItem[w].type = 0; SfxPlay(SFX_PICKUP);] *)
Definition takeItem (w : Z) : M () :=
  s ← get;
  it ← aget (gItem s) w;
  aset gItem set_gItem w (set_w_type 0 it) ;;
  SfxPlay SFX_PICKUP.

Definition TryPickupItem : M () :=
  s ← get;
  upd (set_gTgtCol (gPlayerCol s)) ;;
  upd (set_gTgtRow (gPlayerRow s)) ;;
  s ← get;
  let w := ItemAtTarget s in
  if w <? 0 then mret tt
  else
    it ← aget (gItem s) w;
    let type := w_type it in
    let subtype := w_subtype it in
    if type =? ITEM_T_DAGGER
    then
      when (gDaggerQty s <? DAGGER_QTY_MAX)
        (upd (fun s => set_gDaggerQty (u8 (gDaggerQty s + 1)) s)) ;;
      takeItem w
    else
      let slot := FindInvStack type subtype s in
      if 0 <=? slot
      then
        upd_inv slot (fun i => set_i_qty (u8 (i_qty i + 1)) i) ;;
        takeItem w
      else
        let slot := FindInvEmpty s in
        if slot <? 0 then mret tt
        else
          aset gInv set_gInv slot
            (mkSlot type subtype 1 (LookupItemValue type subtype)) ;;
          takeItem w.

(** ** Using a slot *)

Definition useWeapon (slot : Z) (i : InvSlot) : M bool :=
  upd (set_gWeaponBoost (i_value i)) ;;
  upd (set_gWeaponTimer WEAPON_DURATION) ;;
  ConsumeInvSlot slot ;; RecomputePlayerStats ;; SfxPlay SFX_BUFF ;;
  RedrawGame ;; mret false.

Definition useArmor (slot : Z) (i : InvSlot) : M bool :=
  upd (set_gArmorBoost (i_value i)) ;;
  upd (set_gArmorTimer ARMOR_DURATION) ;;
  ConsumeInvSlot slot ;; RecomputePlayerStats ;; SfxPlay SFX_BUFF ;;
  RedrawGame ;; mret false.

Definition useTorch (slot : Z) : M bool :=
  upd (set_gTorchTimer TORCH_DURATION) ;;
  ConsumeInvSlot slot ;; SfxPlay SFX_BUFF ;;
  ComputeFov ;; RedrawGame ;; mret false.

Definition useRing (slot : Z) (i : InvSlot) : M bool :=
  upd (set_gRingBoost (i_value i)) ;;
  upd (fun s => set_gRingFlags (gRingFlags s .| i_value i) s) ;;
  upd (set_gRingTimer RING_DURATION) ;;
  upd (set_gRegenTick 0) ;;
  ConsumeInvSlot slot ;; SfxPlay SFX_BUFF ;;
  RedrawGame ;; mret false.

Definition useHeal (slot : Z) (i : InvSlot) : M bool :=
  s ← get;
  let heal := u8 (gHp s + i_value i) in
  upd (set_gHp (if gHpMax s <? heal then gHpMax s else heal)) ;;
  ConsumeInvSlot slot ;; SfxPlay SFX_QUAFF ;;
  RedrawGame ;; mret true.

Definition useScroll (slot : Z) : M bool :=
  SfxPlay SFX_SCROLL ;;
  each (seqZ 0 MAP_CELLS) (fun k => aset gVis set_gVis k 1) ;;
  VdpClearNames ;; RenderMap ;; PlaceAllSprites ;; UpdateHud ;;
  ShellPresent ;; ShellDrainKeys ;;
  _ ← ShellWaitKey;
  ConsumeInvSlot slot ;;
  ComputeFov ;; RedrawGame ;; mret true.

Definition DispatchUseSlot (slot : Z) : M bool :=
  i ← inv slot;
  let type := i_type i in
  if type =? ITEM_T_WEAPON then useWeapon slot i
  else if type =? ITEM_T_ARMOR then useArmor slot i
  else if type =? ITEM_T_TORCH then useTorch slot
  else if type =? ITEM_T_RING then useRing slot i
  else if (type =? ITEM_T_FOOD) || (type =? ITEM_T_POTION) then useHeal slot i
  else if type =? ITEM_T_SCROLL then useScroll slot
  else PrintMsgRow 23 "NOT USABLE" ;; mret false.

(** ** Throwing *)

Definition ParseDirection (key : Z) : option (Z * Z) :=
  if key =? KEY_WEST then Some (-1, 0)
  else if key =? KEY_EAST then Some (1, 0)
  else if key =? KEY_NORTH then Some (0, -1)
  else if key =? KEY_SOUTH then Some (0, 1)
  else None.

(** The dagger meets monster [k]. *)
Definition daggerHit (k : Z) : M () :=
  m ← mon k;
  let wasBoss := m_type m =? MON_TYPE_BOSS in
  upd_mon k (fun m => set_m_hp (u8 (if DAGGER_DMG <? m_hp m
                                    then m_hp m - DAGGER_DMG else 0)) m) ;;
  m ← mon k;
  SfxPlay (if m_hp m <>? 0 then SFX_HIT else SFX_KILL) ;;
  if m_hp m =? 0
  then
    upd_mon k (set_m_type 0) ;;
    AwardXp ;;
    when wasBoss (upd (set_gThrowActive 0) ;; WinScreen)
  else upd_mon k (set_m_hurt 1).

(** The flight of at most [step] cells. *)
Fixpoint fly (step : nat) (dx dy : Z) : M () :=
  match step with
  | O => mret tt
  | S step =>
      upd (fun s => set_gCurX (u8 (gCurX s + dx)) s) ;;
      upd (fun s => set_gCurY (u8 (gCurY s + dy)) s) ;;
      s ← get;
      if (gCurY s <? PLAY_TOP_ROW) || (PLAY_BOT_ROW <? gCurY s) then mret tt
      else if (gCurX s <? PLAY_LEFT_COL) || (PLAY_RIGHT_COL <? gCurX s)
      then mret tt
      else if TileAt (gCurX s) (gCurY s) s <>? TILE_EMPTY then mret tt
      else
        upd (set_gTgtCol (gCurX s)) ;;
        upd (set_gTgtRow (gCurY s)) ;;
        s ← get;
        let k := MonsterAtTarget s in
        if 0 <=? k then daggerHit k
        else RedrawGame ;; ShellDelayTicks 5 ;; fly step dx dy
  end.

Definition HandleThrow : M bool :=
  s ← get;
  if gDaggerQty s =? 0
  then PrintMsgRow 23 "NO DAGGER" ;; mret false
  else
    PrintMsgRow 23 "DIRECTION? " ;;
    ShellDrainKeys ;;
    key ← ShellWaitKey;
    match ParseDirection key with
    | None => ClearMsgRow23 ;; RedrawGame ;; mret false
    | Some (dx, dy) =>
        upd (fun s => set_gDaggerQty (u8 (gDaggerQty s - 1)) s) ;;
        SfxPlay SFX_THROW ;;
        upd (fun s => set_gCurX (gPlayerCol s) s) ;;
        upd (fun s => set_gCurY (gPlayerRow s) s) ;;
        upd (set_gThrowActive 1) ;;
        fly (Z.to_nat THROW_RANGE) dx dy ;;
        upd (set_gThrowActive 0) ;;
        RedrawGame ;;
        mret true
    end.

(** ** The bag modal ([rogue_ui.c]) *)

(** The slots the listing shows: the first nine that hold something with a bag
    letter, on rows 3, 5, ..., 19; [body] gets the row and the slot.  The result
    is the number of lines. *)
Fixpoint listSlots (slots : list Z) (row drawn : Z) (body : Z -> Z -> M ()) : M Z :=
  match slots with
  | [] => mret drawn
  | i :: slots =>
      v ← inv i;
      if (i_type v =? 0) || (i_type v =? ITEM_T_DAGGER)
      then listSlots slots row drawn body
      else if 21 <=? row then mret drawn
      else body row i ;; listSlots slots (row + 2) (drawn + 1) body
  end.

Definition slotSprite (row i : Z) : M () :=
  v ← inv i;
  sprite ← aget kItemSprite (i_type v);
  color ← aget kItemColor (i_type v);
  VdpSatAdd (u8 ((row - 1) * 8)) 80 sprite color 0.

Definition ShowInventory : M bool :=
  VdpSatReset ;;
  _ ← listSlots (seqZ 0 INV_COUNT) 3 0 slotSprite;
  VdpClearNames ;;
  VdpPutStringBig 0 7 "INVENTORY" 10 ;;
  drawn ← listSlots (seqZ 0 INV_COUNT) 3 0 DrawInvLine;
  when (drawn =? 0) (VdpPutString 4 11 "-NOTHING-") ;;
  VdpPutStringColor 22 9 "PRESS ANY KEY" 14 ;;
  ShellPresent ;;
  ShellDrainKeys ;;
  key ← ShellWaitKey;
  if (65 <=? key) && (key <=? 90)
  then
    let slot := s16 (key - 65) in
    if slot <? INV_COUNT
    then
      i ← inv slot;
      if (i_type i <>? 0) && (i_type i <>? ITEM_T_DAGGER)
      then turn ← DispatchUseSlot slot; RedrawGame ;; mret turn
      else RedrawGame ;; mret false
    else RedrawGame ;; mret false
  else RedrawGame ;; mret false.
