(* ===== verification/RogueMain.v ===== *)
(** * RogueMain: level transitions, the turn and the main loop

    [dev/mac-rogue/rogue_main.c] and [main] of [mac_shell.c].
    The loop [for (;;)] of [MainLoop] waits for one key per iteration, so the
    number of keys the player types bounds it and is its fuel. *)

From S2P Require Import Prelude.
From S2P Require Import RogueState.
From S2P Require Import RogueMap.
From S2P Require Import Vdp.
From S2P Require Import RogueDraw.
From S2P Require Import RogueUi.
From S2P Require Import RoguePools.
From S2P Require Import RogueGen.
From S2P Require Import RogueFov.
From S2P Require Import RogueMon.
From S2P Require Import RogueItem.
From stdpp Require Import base list numbers option decidable strings.

Open Scope Z_scope.

(** Carving and populating a floor that is not the boss arena. *)
Definition ordinaryLevel : M () :=
  s ← get;
  (if 2 <=? gTransMode s
   then MapFillWalls ;; GenBigRoom ;; ApplyWrapSpawn
   else GenDungeon) ;;
  SpawnMonsters ;;
  SpawnLevelItems ;;
  SpawnLevelPits.

Definition bossLevel : M () := MapFillWalls ;; GenBossRoom ;; SpawnBoss.

Definition NewLevel : M () :=
  LevelWipe ;;
  s ← get;
  when (gTransMode s =? 1) (upd (fun s => set_gDepth (u8 (gDepth s + 1)) s)) ;;
  s ← get;
  (if (gTransMode s =? 1) && (13 <=? gDepth s) then bossLevel
   else ordinaryLevel) ;;
  VdpClearNames ;;
  ClearVisBuffer ;;
  ComputeFov ;;
  RenderMap ;;
  UpdateHud ;;
  LevelReveal ;;
  PlaceAllSprites ;;
  ShellPresent.

(** The regeneration pulse, then the four countdowns. *)
Definition regenPulse : M () :=
  s ← get;
  when (gRingFlags s .& RING_F_REGEN <>? 0)
    (if gRegenTick s =? 0
     then
       upd (set_gRegenTick RING_REGEN_PERIOD) ;;
       when (gHp s <? gHpMax s) (upd (fun s => set_gHp (u8 (gHp s + 1)) s))
     else upd (fun s => set_gRegenTick (u8 (gRegenTick s - 1)) s)).

Definition weaponCountdown : M () :=
  s ← get;
  when (gWeaponTimer s <>? 0)
    (upd (fun s => set_gWeaponTimer (u8 (gWeaponTimer s - 1)) s) ;;
     s ← get;
     when (gWeaponTimer s =? 0) RecomputePlayerStats).

Definition armorCountdown : M () :=
  s ← get;
  when (gArmorTimer s <>? 0)
    (upd (fun s => set_gArmorTimer (u8 (gArmorTimer s - 1)) s) ;;
     s ← get;
     when (gArmorTimer s =? 0) RecomputePlayerStats).

Definition torchCountdown : M () :=
  s ← get;
  when (gTorchTimer s <>? 0)
    (upd (fun s => set_gTorchTimer (u8 (gTorchTimer s - 1)) s)).

Definition ringCountdown : M () :=
  s ← get;
  when (gRingTimer s <>? 0)
    (upd (fun s => set_gRingTimer (u8 (gRingTimer s - 1)) s) ;;
     s ← get;
     when (gRingTimer s =? 0)
       (upd (fun s => set_gRingFlags
               (gRingFlags s .& u8 (Z.lnot (gRingBoost s))) s) ;;
        upd (set_gRingBoost 0))).

Definition FinishTurn : M () :=
  regenPulse ;;
  weaponCountdown ;;
  armorCountdown ;;
  torchCountdown ;;
  ringCountdown ;;
  ClearMsgRows ;;
  UpdateHud ;;
  ShellPresent ;;
  s ← get;
  when (gHp s =? 0) DeathScreen.

Definition MonsterTurnAndFinish : M () :=
  MoveMonsters ;; PlaceAllSprites ;; FinishTurn.

(** Leaving the floor in the given mode through the given anchor. *)
Definition leaveBy (mode anchor : Z) : M () :=
  upd (set_gTransMode mode) ;;
  upd (set_gWrapAnchor anchor) ;;
  NewLevel ;; FinishTurn.

(** A step whose target the player may enter. *)
Definition enterTarget : M () :=
  s ← get;
  let tile := TileAt (gTgtCol s) (gTgtRow s) s in
  if tile =? TILE_STAIRS_DOWN
  then
    upd (set_gTransMode 1) ;; SfxPlay SFX_STAIRS ;; NewLevel ;; FinishTurn
  else if gTgtCol s =? 0 then leaveBy 3 (gTgtRow s)
  else if gTgtCol s =? 15 then leaveBy 2 (gTgtRow s)
  else if gTgtRow s =? 0 then leaveBy 4 (gTgtCol s)
  else if gTgtRow s =? 9 then leaveBy 5 (gTgtCol s)
  else
    upd (set_gPlayerCol (gTgtCol s)) ;;
    upd (set_gPlayerRow (gTgtRow s)) ;;
    when (tile =? TILE_DOOR) ClearVisBuffer ;;
    when (tile =? TILE_TRAP_PIT) TriggerPit ;;
    TryPickupItem ;;
    MoveMonsters ;;
    ComputeFov ;;
    RenderMap ;;
    PlaceAllSprites ;;
    FinishTurn.

(** The body of the loop once a key has been read. *)
Definition turnFor (key : Z) : M () :=
  if key =? 66                                          (* 'B' *)
  then b ← ShowInventory; when b MonsterTurnAndFinish
  else if key =? 84                                     (* 'T' *)
  then b ← HandleThrow; when b MonsterTurnAndFinish
  else if (key =? 72) || (key =? 63) then ShowHelp      (* 'H' or '?' *)
  else if key =? 46 then MonsterTurnAndFinish           (* '.' *)
  else
    moved ← HandleInput key;
    if negb moved then mret tt
    else
      s ← get;
      let k := MonsterAtTarget s in
      if 0 <=? k then PlayerAttackMonster k ;; MonsterTurnAndFinish
      else if negb (CheckCollision s) then mret tt
      else enterTarget.

Definition loopBody : M () :=
  ClearHurtFlags ;;
  key ← ShellWaitKey;
  turnFor key.

Fixpoint MainLoop (fuel : nat) : M () :=
  match fuel with
  | O => fault
  | S fuel => loopBody ;; MainLoop fuel
  end.

(** ** Start *)

Definition newGame : M () :=
  upd (set_gDepth 1) ;;
  upd (set_gTransMode 0) ;;
  upd (set_gHp HP_MAX) ;;
  upd (set_gPlayerHurt 0) ;;
  upd (set_gLastAttacker 0) ;;
  InitInventory.

Definition titleScreen : M () := VdpSatReset ;; VdpClearNames ;; DrawTitle.

(** From the first key to the first turn. *)
Definition afterTitle : M () :=
  WaitKbChoice ;;
  VdpClearNames ;;
  DrawBriefing ;;
  ShellDrainKeys ;;
  _ ← ShellWaitKey;
  newGame ;;
  s ← get;
  if gBossCheat s <>? 0
  then upd (set_gDepth 12) ;; upd (set_gTransMode 1) ;; NewLevel
  else
    VdpClearNames ;;
    GenDungeon ;;
    ClearVisBuffer ;;
    ComputeFov ;;
    RenderMap ;;
    SpawnMonsters ;;
    SpawnLevelItems ;;
    SpawnLevelPits ;;
    PlaceAllSprites ;;
    UpdateHud ;;
    ShellPresent.

Definition RogueRun : M () :=
  titleScreen ;;
  afterTitle ;;
  s ← get;
  MainLoop (S (length (input s))).

(** ** The application ([main] of [mac_shell.c])

    [setjmp] receives what [ColdStart] throws: quitting leaves the loop, any
    other reason starts a new game in the memory the last one left.  Each game
    reads at least one key. *)

Fixpoint sessions (fuel : nat) : M () := fun s =>
  match fuel with
  | O => Fault
  | S fuel =>
      match RogueRun s with
      | Cold reason u => if reason =? COLD_QUIT then Ok tt u else sessions fuel u
      | Ok _ u => sessions fuel u
      | Starved u => Starved u
      | Fault => Fault
      end
  end.

Definition main : M () := fun s => sessions (S (length (input s))) s.
