(* ===== verification/RogueFrame.v ===== *)
(** * RogueFrame: what a program cannot do

    [steps R m]: whenever [m] returns, or abandons the game, the states before
    and after are related by the preorder [R].  Two uses: the transition mode survives the carving of
    a floor, and no program puts keys back into the player's input, which
    bounds the main loop. *)

From S2P Require Import Prelude.
From S2P Require Import RogueState.
From S2P Require Import RogueMap.
From S2P Require Import RogueMsg.
From S2P Require Import Vdp.
From S2P Require Import RogueDraw.
From S2P Require Import RogueUi.
From S2P Require Import RoguePools.
From S2P Require Import RogueGen.
From S2P Require Import RogueFov.
From S2P Require Import RogueMon.
From S2P Require Import RogueItem.
From S2P Require Import RogueMain.
From stdpp Require Import base list numbers option decidable strings.

Open Scope Z_scope.

Definition steps {A} (R : relation Game) (m : M A) : Prop :=
  forall s, match m s with
            | Ok _ u | Cold _ u | Starved u => R s u
            | Fault => True
            end.

Section Steps.
Context (R : relation Game) {HR : PreOrder R}.

Lemma steps_bind {A B} (m : M A) (k : A -> M B) :
  steps R m -> (forall a, steps R (k a)) -> steps R (m ≫= k).
Proof.
  intros Hm Hk s. specialize (Hm s). unfold mbind, M_bind.
  destruct (m s) as [a v| | |]; try exact Hm. specialize (Hk a v).
  destruct (k a v); try exact I; by transitivity v.
Qed.

Lemma steps_ret {A} (a : A) : steps R (mret a).
Proof. intros s. change (R s s). reflexivity. Qed.

Lemma steps_get : steps R get.
Proof. intros s. change (R s s). reflexivity. Qed.

Lemma steps_fault {A} : steps R (fault (A := A)).
Proof. by intros s. Qed.

Lemma steps_cold {A} r : steps R (ColdStart (A := A) r).
Proof. intros s. change (R s s). reflexivity. Qed.

Lemma steps_upd f : (forall s, R s (f s)) -> steps R (upd f).
Proof. intros H s. apply H. Qed.

Lemma steps_aget {A} (l : list A) i : steps R (aget l i).
Proof. unfold aget. destruct (rd l i); [apply steps_ret|apply steps_fault]. Qed.

Lemma steps_aset {A} (field : Game -> list A) set i a :
  (forall l s, R s (set l s)) -> steps R (aset field set i a).
Proof. intros H s. unfold aset. destruct (rd _ _); [apply H|exact I]. Qed.

Lemma steps_when b m : steps R m -> steps R (when b m).
Proof. destruct b; [done|]. intros _. apply steps_ret. Qed.

Lemma steps_each {A} (l : list A) body :
  (forall a, steps R (body a)) -> steps R (each l body).
Proof.
  intros H. induction l as [|a l IH]; cbn [each]; [apply steps_ret|].
  by apply steps_bind.
Qed.

Lemma wp_steps_conj {A} (m : M A) Q X s :
  wp m Q X s -> steps R m ->
  wp m (fun a u => Q a u /\ R s u) (fun u => X u /\ R s u) s.
Proof.
  intros H Hm. specialize (Hm s). unfold wp in *. destruct (m s); by try split.
Qed.
End Steps.

(** Structural descent through a program; named programs are unfolded unless
    the database [steps] knows them. *)
Create HintDb steps discriminated.

Ltac prog_head m :=
  lazymatch m with
  | ?f _ => prog_head f
  | _ => m
  end.

Ltac step_frame side :=
  repeat lazymatch goal with
  | |- steps _ (mbind _ _) => apply steps_bind; [typeclasses eauto| |intros ?]
  | |- steps _ (mret _) => apply steps_ret; typeclasses eauto
  | |- steps _ get => apply steps_get; typeclasses eauto
  | |- steps _ fault => apply steps_fault
  | |- steps _ (ColdStart _) => apply steps_cold; typeclasses eauto
  | |- steps _ (upd _) => apply steps_upd; intros ?; side
  | |- steps _ (aget _ _) => apply steps_aget; typeclasses eauto
  | |- steps _ (aset _ _ _ _) => apply steps_aset; intros ? ?; side
  | |- steps _ (when _ _) => apply steps_when; [typeclasses eauto|]
  | |- steps _ (each _ _) => apply steps_each; [typeclasses eauto|intros ?]
  | |- steps _ (if ?b then _ else _) => destruct b
  | |- steps _ (let _ := _ in _) => cbv zeta
  | |- steps _ (match ?x with _ => _ end) => destruct x
  | |- steps _ ?m =>
      first [ solve [auto with steps nocore]
            | let h := prog_head m in unfold h ]
  end.

(** ** The transition mode *)

Definition same_mode : relation Game := fun s u => gTransMode u = gTransMode s.

#[export] Instance same_mode_preorder : PreOrder same_mode.
Proof. split; [done|]. intros a b c H1 H2. unfold same_mode in *. congruence. Qed.

Lemma GenBigRoom_same_mode : steps same_mode (MapFillWalls ;; GenBigRoom).
Proof. step_frame ltac:(red; done). Qed.

(** ** The player's input *)

Definition fewer_keys : relation Game :=
  fun s u => (length (input u) <= length (input s))%nat.

#[export] Instance fewer_keys_preorder : PreOrder fewer_keys.
Proof. split; red; unfold fewer_keys; lia. Qed.

Ltac keys := step_frame ltac:(unfold fewer_keys; cbn; lia).

(** Waiting for a key uses one up, unless there is none. *)
Lemma WaitKey_consumes s :
  match ShellWaitKey s with
  | Ok _ u | Cold _ u => length (input s) = S (length (input u))
  | Starved u => u = s
  | Fault => False
  end.
Proof. unfold ShellWaitKey. destruct (input s) as [|[k|] rest] eqn:E; done. Qed.

Lemma WaitKey_keys : steps fewer_keys ShellWaitKey.
Proof.
  intros s. pose proof (WaitKey_consumes s) as H. unfold fewer_keys.
  destruct (ShellWaitKey s); [lia|lia|by subst|done].
Qed.

#[export] Hint Resolve WaitKey_keys : steps.

(** Drawing: the strings and fills are recursive. *)
Lemma VdpPutString_keys t : forall row col, steps fewer_keys (VdpPutString row col t).
Proof. induction t as [|c t IH]; intros row col; cbn [VdpPutString]; keys. Qed.

Lemma VdpPutStringColor_keys t fg : forall row col,
  steps fewer_keys (VdpPutStringColor row col t fg).
Proof. induction t as [|c t IH]; intros row col; cbn [VdpPutStringColor]; keys. Qed.

Lemma fillCells_keys n ch : forall row col, steps fewer_keys (fillCells n row col ch).
Proof. induction n as [|n IH]; intros row col; cbn [fillCells]; keys. Qed.

#[export] Hint Resolve VdpPutString_keys VdpPutStringColor_keys fillCells_keys : steps.

Lemma PaintLines_keys l : steps fewer_keys (PaintLines l).
Proof. keys. Qed.

Lemma RedrawGame_keys : steps fewer_keys RedrawGame.
Proof. keys. Qed.

Lemma endings_keys : steps fewer_keys DeathScreen /\ steps fewer_keys WinScreen.
Proof. split; keys. Qed.

Lemma DeathScreen_keys : steps fewer_keys DeathScreen.
Proof. apply endings_keys. Qed.

Lemma WinScreen_keys : steps fewer_keys WinScreen.
Proof. apply endings_keys. Qed.

#[export] Hint Resolve PaintLines_keys RedrawGame_keys DeathScreen_keys WinScreen_keys
  : steps.

Lemma sweep_keys n c : steps fewer_keys (sweep n c).
Proof. revert c. induction n as [|n IH]; intros c; cbn [sweep]; keys. Qed.

Lemma spawnInto_keys l : steps fewer_keys (spawnInto l).
Proof. pose proof sweep_keys. induction l as [|k l IH]; cbn [spawnInto]; keys. Qed.

Lemma castCols_keys cast eN eD d k : (forall a b c d, steps fewer_keys (cast a b c d)) ->
  forall bl sN sD vN vD, steps fewer_keys (castCols cast eN eD d k bl sN sD vN vD).
Proof.
  intros Hc. induction k as [|k IH]; intros bl sN sD vN vD; cbn [castCols]; keys.
Qed.

Lemma castRows_keys n : forall d sN sD eN eD, steps fewer_keys (castRows n d sN sD eN eD).
Proof.
  induction n as [|n IH]; intros d sN sD eN eD; cbn [castRows]; keys.
  apply castCols_keys. intros. keys.
Qed.

#[export] Hint Resolve sweep_keys spawnInto_keys castRows_keys : steps.

Lemma spawnItems_keys n : steps fewer_keys (spawnItems n).
Proof. induction n as [|n IH]; cbn [spawnItems]; keys. Qed.

Lemma spawnPits_keys n : steps fewer_keys (spawnPits n).
Proof. induction n as [|n IH]; cbn [spawnPits]; keys. Qed.

Lemma AwardXp_keys : steps fewer_keys AwardXp.
Proof. keys. Qed.

#[export] Hint Resolve spawnItems_keys spawnPits_keys AwardXp_keys : steps.

Lemma fly_keys n dx dy : steps fewer_keys (fly n dx dy).
Proof. induction n as [|n IH]; cbn [fly]; keys. Qed.

Lemma listSlots_keys l body : (forall row i, steps fewer_keys (body row i)) ->
  forall row drawn, steps fewer_keys (listSlots l row drawn body).
Proof.
  intros Hb. induction l as [|i l IH]; intros row drawn; cbn [listSlots]; keys.
Qed.

Lemma slotSprite_keys row i : steps fewer_keys (slotSprite row i).
Proof. keys. Qed.

Lemma DrawInvLine_keys row i : steps fewer_keys (DrawInvLine row i).
Proof. keys. Qed.

#[export] Hint Resolve fly_keys listSlots_keys slotSprite_keys DrawInvLine_keys : steps.

Lemma MoveMonsters_keys : steps fewer_keys MoveMonsters.
Proof. keys. Qed.

Lemma FinishTurn_keys : steps fewer_keys FinishTurn.
Proof. keys. Qed.

Lemma ComputeFov_keys : steps fewer_keys ComputeFov.
Proof. keys. Qed.

#[export] Hint Resolve MoveMonsters_keys FinishTurn_keys ComputeFov_keys : steps.

Lemma NewLevel_keys : steps fewer_keys NewLevel.
Proof. keys. Qed.

#[export] Hint Resolve NewLevel_keys : steps.

Lemma turnFor_keys key : steps fewer_keys (turnFor key).
Proof. keys. Qed.

(** Each iteration of the loop uses up a key. *)
Lemma loopBody_consumes s u :
  loopBody s = Ok tt u -> (length (input u) < length (input s))%nat.
Proof.
  assert (Hc : steps fewer_keys ClearHurtFlags) by keys. specialize (Hc s).
  unfold loopBody, mbind, M_bind. destruct (ClearHurtFlags s) as [a v| | |]; try done.
  pose proof (WaitKey_consumes v) as Hk. destruct (ShellWaitKey v) as [c w| | |]; try done.
  pose proof (turnFor_keys c w) as Ht. intros E. rewrite E in Ht.
  unfold fewer_keys in *. lia.
Qed.

Lemma MainLoop_keys fuel : steps fewer_keys (MainLoop fuel).
Proof.
  assert (Hb : steps fewer_keys loopBody) by (pose proof turnFor_keys; keys).
  induction fuel as [|fuel IH]; cbn [MainLoop]; keys.
Qed.

Section Strict.
Implicit Types s : Game.

(** A game that is left, whatever the reason, has used up a key. *)
Definition uses_key {A} (m : M A) s : Prop :=
  match m s with
  | Ok _ u | Cold _ u => (length (input u) < length (input s))%nat
  | _ => True
  end.

Lemma uses_key_first {A B} (m : M A) (k : A -> M B) s :
  uses_key m s -> (forall a, steps fewer_keys (k a)) -> uses_key (m ≫= k) s.
Proof.
  unfold uses_key. intros Hm Hk. unfold mbind, M_bind.
  destruct (m s) as [a v| | |]; try exact Hm. specialize (Hk a v).
  unfold fewer_keys in Hk. destruct (k a v); try exact I; lia.
Qed.

Lemma uses_key_later {A B} (m : M A) (k : A -> M B) s :
  wp m (fun _ _ => True) (fun _ => False) s -> steps fewer_keys m ->
  (forall a u, uses_key (k a) u) -> uses_key (m ≫= k) s.
Proof.
  intros Hc Hm Hk. specialize (Hm s). unfold uses_key, wp, mbind, M_bind in *.
  destruct (m s) as [a v|r v| |]; try done. specialize (Hk a v).
  unfold fewer_keys in Hm. destruct (k a v); try exact I; lia.
Qed.

Lemma WaitKey_uses s : uses_key ShellWaitKey s.
Proof.
  pose proof (WaitKey_consumes s) as H. unfold uses_key.
  destruct (ShellWaitKey s); try done; lia.
Qed.

Lemma newGame_keys : steps fewer_keys newGame.
Proof. keys. Qed.

Lemma GenDungeon_keys : steps fewer_keys GenDungeon.
Proof. keys. Qed.

Lemma titleScreen_keys : steps fewer_keys titleScreen.
Proof. keys. Qed.

#[local] Hint Resolve MainLoop_keys newGame_keys GenDungeon_keys : steps.

Lemma WaitKbChoice_uses s : uses_key WaitKbChoice s.
Proof.
  unfold WaitKbChoice. apply uses_key_later; [done|keys|]. intros _ u.
  apply uses_key_first; [apply WaitKey_uses|]. intros ?. keys.
Qed.

Lemma RogueRun_uses s :
  wp titleScreen (fun _ _ => True) (fun _ => False) s -> uses_key RogueRun s.
Proof.
  intros H. unfold RogueRun. apply uses_key_later; [exact H|exact titleScreen_keys|].
  intros _ u. apply uses_key_first; [|intros ?; keys].
  unfold afterTitle. apply uses_key_first; [apply WaitKbChoice_uses|]. intros _. keys.
Qed.
End Strict.
