(* ===== verification/RogueInv.v ===== *)
(** * RogueInv: the invariants of the game state

    [shape] is what every state between two C statements satisfies, whatever
    part of the game is running: array sizes, and the ranges that keep every
    index in bounds.  [hero] relates the player's counters: the experience
    countdowns to divisions of the kill count, the derived statistics to the
    buffs, the regeneration flag to the ring timer.  [wf placed told] adds,
    when [placed], that the player stands in the playable interior and, when
    [told], that the message line is not empty. *)

From S2P Require Import Prelude.
From S2P Require Import RogueState.
From S2P Require Import RogueMap.
From S2P Require Import RoguePools.
From stdpp Require Import base list numbers option decidable strings.

Open Scope Z_scope.


Definition interior (col row : Z) : Prop := 1 <= col <= 14 /\ 1 <= row <= 8.

Definition on_grid (col row : Z) : Prop := 0 <= col < 16 /\ 0 <= row < 10.

(** ** Array contents *)

Definition cells_ok (l : list Z) : Prop :=
  length l = 160%nat /\ Forall (fun v => 0 <= v < 16) l.

Definition mon_ok (m : Monster) : Prop :=
  0 <= m_type m <= 6 /\ byte (m_hp m) /\ byte (m_dmg m) /\
  on_grid (m_col m) (m_row m).

Definition mons_ok (l : list Monster) : Prop :=
  length l = 16%nat /\ Forall mon_ok l.

Definition item_ok (w : WorldItem) : Prop :=
  0 <= w_type w <= 8 /\ w_subtype w = 0 /\ on_grid (w_col w) (w_row w).

Definition items_ok (l : list WorldItem) : Prop :=
  length l = 8%nat /\ Forall item_ok l.

Definition slot_ok (i : InvSlot) : Prop :=
  0 <= i_type i <= 8 /\ i_subtype i = 0 /\ byte (i_qty i) /\
  (i_type i <> 0 -> i_value i = LookupItemValue (i_type i) 0).

Definition bag_ok (l : list InvSlot) : Prop :=
  length l = 26%nat /\ Forall slot_ok l.

Definition hist_ok (l : list string) (next count : Z) : Prop :=
  length l = 24%nat /\ 0 <= next < 24 /\ 0 <= count <= 24.

(** The display tables: their sizes, and bytes in every cell. *)
Definition sat_ok (e : SatEntry) : Prop :=
  byte (e_y e) /\ byte (e_x e) /\ byte (e_name e) /\ 0 <= e_color e < 16 /\
  byte (e_flags e).

Definition big_ok (b : BigText) : Prop :=
  0 <= b_row b < 24 /\ 0 <= b_col b < 32 /\ (String.length (b_text b) <= 32)%nat /\
  byte (b_fg b).

Record vdp_ok (v : Vdp) : Prop := {
  vd_name : length (gName v) = 768%nat /\ Forall byte (gName v);
  vd_fg : length (gCellFg v) = 768%nat /\ Forall byte (gCellFg v);
  vd_big : length (gBigText v) = 4%nat /\ Forall big_ok (gBigText v);
  vd_bigCount : 0 <= gBigCount v <= 4;
  vd_sat : length (gSat v) = 48%nat /\ Forall sat_ok (gSat v);
  vd_satCount : 0 <= gSatCount v <= 48;
  vd_saved : length (saved v) = 640%nat /\ Forall byte (saved v)
}.

Record shape (s : Game) : Prop := {
  sh_map : cells_ok (gMap s);
  sh_vis : length (gVis s) = 160%nat;
  sh_mon : mons_ok (gMon s);
  sh_item : items_ok (gItem s);
  sh_inv : bag_ok (gInv s);
  sh_tgtCol : byte (gTgtCol s);
  sh_tgtRow : byte (gTgtRow s);
  sh_prngLo : byte (gPrngLo s);
  sh_prngHi : byte (gPrngHi s);
  sh_hist : hist_ok (gHist s) (gHistNext s) (gHistCount s);
  sh_depth : byte (gDepth s);
  sh_attacker : 0 <= gLastAttacker s <= 7;
  sh_room_x : byte (room_x s);
  sh_room_y : byte (room_y s);
  sh_cx : byte (cx s);
  sh_cy : byte (cy s);
  sh_prev_cx : byte (prev_cx s);
  sh_prev_cy : byte (prev_cy s);
  sh_vdp : vdp_ok (vdp s)
}.

(** ** The player's counters *)

(** The permanent growth: countdowns against divisions of the kill count. *)
Definition growth_ok (xp hpMax atk def hpTick atkTick defTick : Z) : Prop :=
  byte xp /\ hpMax = HP_MAX + xp / 5 /\ atk = xp / 10 /\ def = xp / 20 /\
  hpTick = 5 - xp mod 5 /\ atkTick = 10 - xp mod 10 /\ defTick = 20 - xp mod 20.

(** A buff and the statistic derived from it. *)
Definition buff_ok (stat timer boost base bonus limit : Z) : Prop :=
  0 <= timer <= limit /\ 0 <= boost <= 5 /\
  stat = (if timer <>? 0 then boost else base) + bonus.

Definition ring_ok (flags timer boost tick : Z) : Prop :=
  0 <= tick <= RING_REGEN_PERIOD /\
  ((timer = 0 /\ flags = 0) \/
   (0 < timer <= RING_DURATION /\ flags = RING_F_REGEN /\ boost = RING_F_REGEN)).

(** The row or column of the door an edge-wrap left through. *)
Definition anchor_ok (mode anchor : Z) : Prop :=
  (mode = 2 \/ mode = 3 -> 1 <= anchor <= 8) /\
  (4 <= mode -> 1 <= anchor <= 14).

Record hero (s : Game) : Prop := {
  he_growth : growth_ok (gPlayerXp s) (gHpMax s) (gXpAtkBonus s)
                (gXpDefBonus s) (gHpTick s) (gAtkTick s) (gDefTick s);
  he_hp : 0 <= gHp s <= gHpMax s;
  he_weapon : buff_ok (gPlayerDmg s) (gWeaponTimer s) (gWeaponBoost s) 1
                (gXpAtkBonus s) WEAPON_DURATION;
  he_armor : buff_ok (gPlayerDef s) (gArmorTimer s) (gArmorBoost s) 0
               (gXpDefBonus s) ARMOR_DURATION;
  he_ring : ring_ok (gRingFlags s) (gRingTimer s) (gRingBoost s) (gRegenTick s);
  he_torch : 0 <= gTorchTimer s <= TORCH_DURATION;
  he_dagger : 0 <= gDaggerQty s <= DAGGER_QTY_MAX;
  he_anchor : anchor_ok (gTransMode s) (gWrapAnchor s)
}.

Record wf (placed told : bool) (s : Game) : Prop := {
  wf_shape : shape s;
  wf_hero : hero s;
  wf_spot : placed = true -> interior (gPlayerCol s) (gPlayerRow s);
  wf_told : told = true -> gLine s <> EmptyString
}.

(** What is left of the invariant when the game is abandoned. *)
Definition gone (told : bool) (s : Game) : Prop :=
  shape s /\ (told = true -> gLine s <> EmptyString).

Lemma wf_gone placed told s : wf placed told s -> gone told s.
Proof. intros []. by split. Qed.

(** ** Preservation *)

(** [m] keeps the invariant [I] and leaves only states satisfying [X]. *)
Definition keeps {A} (I X : Game -> Prop) (m : M A) : Prop :=
  forall s, I s -> wp m (fun _ => I) X s.

Lemma keeps_use {A} (I X : Game -> Prop) (m : M A) (Q : A -> Game -> Prop) s :
  keeps I X m -> I s -> (forall a t, I t -> Q a t) -> wp m Q X s.
Proof. intros H Hs HQ. apply (wp_mono m (fun _ => I) Q X X); auto. Qed.

Lemma keeps_now {A} (I X : Game -> Prop) (m : M A) s :
  keeps I X m -> I s -> wp m (fun _ => I) X s.
Proof. auto. Qed.

Lemma keeps_bind {A B} I X (m : M A) (k : A -> M B) :
  keeps I X m -> (forall a, keeps I X (k a)) -> keeps I X (m ≫= k).
Proof.
  intros Hm Hk s Hs. apply wp_bind. apply (keeps_use I X m); [done..|].
  intros a t Ht. by apply Hk.
Qed.

Lemma keeps_ret {A} I X (a : A) : keeps I X (mret a).
Proof. by intros s Hs. Qed.

Lemma keeps_upd I X f : (forall s, I s -> I (f s)) -> keeps I X (upd f).
Proof. intros H s Hs. apply wp_upd. auto. Qed.

Lemma keeps_when I X b m : (b = true -> keeps I X m) -> keeps I X (when b m).
Proof. intros H s Hs. apply wp_when; [intros E; by apply H|done]. Qed.

Lemma keeps_each {A} I X (l : list A) body :
  (forall a, a ∈ l -> keeps I X (body a)) -> keeps I X (each l body).
Proof. intros H s Hs. apply wp_each; [|done]. intros a t Ha Ht. by apply H. Qed.

Lemma keeps_if {A} I X (b : bool) (m n : M A) :
  keeps I X m -> keeps I X n -> keeps I X (if b then m else n).
Proof. by destruct b. Qed.

(** Splitting a state invariant over a setter: every conjunct not about the
    written field is unchanged. *)
Ltac destruct_wf :=
  repeat match goal with
  | H : wf _ _ _ |- _ => destruct H
  | H : shape _ |- _ => destruct H
  | H : hero _ |- _ => destruct H
  end.

Ltac wf_set :=
  intros; destruct_wf;
  repeat match goal with
  | |- wf _ _ _ => split
  | |- shape _ => split
  | |- hero _ => split
  end; try assumption; try discriminate.
