(* ===== verification/RoguePaint.v ===== *)
(** * RoguePaint: drawing changes nothing but the display

    A client's invariant [I] meets the interface [Paints] when it bounds the
    arrays the drawing code reads and does not depend on the display tables or
    on the trace; then every drawing routine keeps [I], without any access
    outside an array. *)

From S2P Require Import Prelude.
From S2P Require Import RogueState.
From S2P Require Import RogueMap.
From S2P Require Import Vdp.
From S2P Require Import RogueDraw.
From S2P Require Import RoguePools.
From S2P Require Import RogueUi.
From S2P Require Import RogueInv.
From stdpp Require Import base list numbers option decidable strings.

Open Scope Z_scope.

(** ** The interface *)

Class Paints (I : Game -> Prop) : Prop := {
  paints_shape : forall s, I s -> shape s;
  paints_vdp : forall v s, I s -> vdp_ok v -> I (set_vdp v s);
  paints_out : forall o s, I s -> I (set_out o s)
}.

#[export] Instance shape_paints : Paints shape.
Proof. split; [done|wf_set..]. Qed.

#[export] Instance wf_paints p t : Paints (wf p t).
Proof. split; [by intros s []|wf_set..]. Qed.

#[export] Instance gone_paints t : Paints (gone t).
Proof.
  split; [by intros s []|intros v s [Hs Ht] Hv|intros o s [Hs Ht]];
    (split; [wf_set|exact Ht]).
Qed.

(** ** Automation

    [keep] descends through a program; calls are settled by the database
    [keeps] or by a hypothesis. *)

Create HintDb keeps discriminated.
#[export] Hint Resolve shape_paints wf_paints gone_paints : keeps.

Lemma shell_keeps (I X : Game -> Prop) `{Paints I} e : keeps I X (emit e).
Proof. intros s Hs. apply wp_upd. by apply paints_out. Qed.

Lemma u8_byte x : byte (u8 x).
Proof. apply u8_range. Qed.

Ltac keep1 :=
  lazymatch goal with
  | |- keeps _ _ (mbind _ _) => apply keeps_bind; [|intros ?]
  | |- keeps _ _ (mret _) => apply keeps_ret
  | |- keeps _ _ (when _ _) => apply keeps_when; intros ?
  | |- keeps _ _ (if _ then _ else _) => apply keeps_if
  | |- keeps _ _ (let _ := _ in _) => cbv zeta
  | |- keeps _ _ get => let s := fresh in let H := fresh in
                        intros s H; exact H
  | |- keeps _ _ (upd _) => apply keeps_upd; intros
  | |- keeps _ _ (SfxPlay _) => apply shell_keeps; typeclasses eauto
  | |- keeps _ _ ShellPresent => apply shell_keeps; typeclasses eauto
  | |- keeps _ _ ShellDrainKeys => apply shell_keeps; typeclasses eauto
  | |- keeps _ _ (ShellDelayTicks _) => apply shell_keeps; typeclasses eauto
  | |- keeps _ _ ?m =>
      first
        [ match goal with H : keeps _ _ ?n |- _ => constr_eq m n; exact H end
        | solve [repeat match goal with H : keeps _ _ _ |- _ => clear H end;
                 eauto with keeps] ]
  end.
Ltac wf_side :=
  first [ apply u8_byte | unfold byte; cbn; lia | solve [auto with pom] ].
Ltac keep := repeat keep1; try (wf_set; wf_side; fail).

(** ** The tables *)

Lemma land_252_range x : 0 <= x .& 0xFC < 256.
Proof.
  replace (x .& 0xFC) with ((x .& 0xFC) .& (2 ^ 8 - 1)) by (by rewrite <- Z.land_assoc).
  rewrite land_mask_mod by lia. apply Z.mod_pos_bound. lia.
Qed.

Section Tables.
Context (I X : Game -> Prop) `{HI : Paints I}.

(** A write inside a table keeps the display well formed. *)
Lemma vset_keeps {A} (field : Vdp -> list A) set i a n :
  (forall v, vdp_ok v -> Z.of_nat (length (field v)) = n) -> 0 <= i < n ->
  (forall v, vdp_ok v -> vdp_ok (set (wr (field v) i a) v)) ->
  keeps I X (vset field set i a).
Proof.
  intros Hn Hi Hset s Hs. pose proof (sh_vdp _ (paints_shape _ Hs)) as Hv.
  apply wp_aset; [apply rd_Some; by rewrite Hn|]. apply paints_vdp; auto.
Qed.

Lemma upd_vdp_keeps f : (forall v, vdp_ok v -> vdp_ok (f v)) -> keeps I X (upd_vdp f).
Proof.
  intros Hf. apply keeps_upd. intros s Hs. apply paints_vdp; [exact Hs|].
  apply Hf, (sh_vdp _ (paints_shape _ Hs)).
Qed.

Lemma table_wr {A} (P : A -> Prop) n (l : list A) i a :
  length l = n /\ Forall P l -> P a -> length (wr l i a) = n /\ Forall P (wr l i a).
Proof. intros [Hl Hf] Ha. split; [by rewrite wr_length|by apply wr_Forall]. Qed.

Lemma name_keeps i ch : 0 <= i < 768 -> byte ch -> keeps I X (vset gName set_gName i ch).
Proof.
  intros Hi Hc. apply (vset_keeps gName set_gName i ch 768); [|exact Hi|].
  - intros v []. cbn. lia.
  - intros v []. split; try assumption. by apply table_wr.
Qed.

Lemma cellFg_keeps i fg :
  0 <= i < 768 -> byte fg -> keeps I X (vset gCellFg set_gCellFg i fg).
Proof.
  intros Hi Hc. apply (vset_keeps gCellFg set_gCellFg i fg 768); [|exact Hi|].
  - intros v []. cbn. lia.
  - intros v []. split; try assumption. by apply table_wr.
Qed.

Lemma saved_keeps i ch : 0 <= i < 640 -> byte ch -> keeps I X (vset saved set_saved i ch).
Proof.
  intros Hi Hc. apply (vset_keeps saved set_saved i ch 640); [|exact Hi|].
  - intros v []. cbn. lia.
  - intros v []. split; try assumption. by apply table_wr.
Qed.

Lemma on_screen row col : offScreen row col = false -> 0 <= row * VDP_COLS + col < 768.
Proof. unfold offScreen, VDP_ROWS, VDP_COLS. intros H. unbool. lia. Qed.

Lemma SetName_keeps row col ch : byte ch -> keeps I X (VdpSetName row col ch).
Proof.
  intros Hc. unfold VdpSetName. destruct (offScreen row col) eqn:E; [apply keeps_ret|].
  apply name_keeps; [by apply on_screen|exact Hc].
Qed.

Lemma charCode_byte c : byte (charCode c).
Proof.
  unfold byte, charCode. pose proof (Ascii.N_ascii_bounded c). lia.
Qed.

Lemma PutString_keeps t : forall row col, keeps I X (VdpPutString row col t).
Proof.
  induction t as [|c t IH]; intros row col; cbn [VdpPutString]; [apply keeps_ret|].
  apply keeps_bind; [apply SetName_keeps, charCode_byte|]. intros _. apply IH.
Qed.

Lemma FillRow_keeps row col count ch : byte ch -> keeps I X (VdpFillRow row col count ch).
Proof.
  intros Hc. unfold VdpFillRow. revert col. induction (Z.to_nat count) as [|n IH];
    intros col; cbn [fillCells]; [apply keeps_ret|].
  apply keeps_bind; [by apply SetName_keeps|]. intros _. apply IH.
Qed.

Lemma PutStringColor_keeps t fg : byte fg ->
  forall row col, keeps I X (VdpPutStringColor row col t fg).
Proof.
  intros Hf. induction t as [|c t IH]; intros row col; cbn [VdpPutStringColor];
    [apply keeps_ret|]. apply keeps_bind; [|intros _; apply IH].
  apply keeps_when. intros E. apply negb_true_iff, on_screen in E.
  apply keeps_bind; [apply name_keeps; [exact E|apply charCode_byte]|].
  intros _. by apply cellFg_keeps.
Qed.

Lemma ClearNames_keeps : keeps I X VdpClearNames.
Proof.
  unfold VdpClearNames. apply keeps_bind; [|intros _].
  - apply keeps_each. intros i Hi. apply elem_of_seqZ in Hi. unfold VDP_ROWS, VDP_COLS in Hi.
    apply keeps_bind; [apply name_keeps; [lia|done]|]. intros _. apply cellFg_keeps; [lia|done].
  - apply upd_vdp_keeps. intros v []. by split.
Qed.

Lemma SatReset_keeps : keeps I X VdpSatReset.
Proof. apply upd_vdp_keeps. intros v []. by split. Qed.

(** Appending to a counted table of the display. *)
Lemma SatAdd_keeps y x name color flags :
  byte y -> byte x -> byte flags -> keeps I X (VdpSatAdd y x name color flags).
Proof.
  intros Hy Hx Hf s Hs. unfold VdpSatAdd, upd_vdp. wp_step. wp_step. cbv zeta.
  pose proof (sh_vdp _ (paints_shape _ Hs)) as Hv. unfold VDP_SAT_MAX.
  apply wp_if; intros Hn; unbool; [exact Hs|]. wp_step. wp_step.
  pose proof (vd_satCount _ Hv) as Hc. apply wp_aset; cbn [vdp set_vdp gSat set_gSatCount].
  - apply rd_Some. rewrite (proj1 (vd_sat _ Hv)). lia.
  - refine (paints_vdp (set_gSat _ (set_gSatCount (gSatCount (vdp s) + 1) (vdp s)))
      (set_vdp _ s) _ _).
    + apply paints_vdp; [exact Hs|]. destruct Hv. split; try assumption. cbn. lia.
    + destruct Hv. split; try assumption; [|cbn; lia]. apply table_wr; [assumption|].
      unfold sat_ok. cbn. pose proof (land_252_range name). pose proof (land_15_range color).
      unfold byte in *. split_and!; lia.
Qed.

Lemma PutBig_keeps row col t fg :
  0 <= row < 24 -> 0 <= col < 32 -> (String.length t <= 32)%nat -> byte fg ->
  keeps I X (VdpPutStringBig row col t fg).
Proof.
  intros Hr Hc Ht Hf s Hs. unfold VdpPutStringBig, upd_vdp. wp_step. wp_step. cbv zeta.
  pose proof (sh_vdp _ (paints_shape _ Hs)) as Hv. unfold VDP_BIG_MAX.
  apply wp_if; intros Hn; unbool; [exact Hs|]. wp_step. wp_step.
  pose proof (vd_bigCount _ Hv) as Hk. apply wp_aset; cbn [vdp set_vdp gBigText set_gBigCount].
  - apply rd_Some. rewrite (proj1 (vd_big _ Hv)). lia.
  - refine (paints_vdp (set_gBigText _ (set_gBigCount (gBigCount (vdp s) + 1) (vdp s)))
      (set_vdp _ s) _ _).
    + apply paints_vdp; [exact Hs|]. destruct Hv. split; try assumption. cbn. lia.
    + destruct Hv. split; try assumption; [|cbn; lia]. by apply table_wr.
Qed.
End Tables.

#[export] Hint Resolve SetName_keeps PutString_keeps FillRow_keeps PutStringColor_keeps
  ClearNames_keeps SatReset_keeps SatAdd_keeps PutBig_keeps u8_byte charCode_byte : keeps.
#[export] Hint Extern 2 (byte _) => unfold byte; cbv -[Z.le Z.lt]; lia : keeps.
#[export] Hint Extern 2 (_ <= _ < _) => cbv -[Z.le Z.lt]; lia : keeps.
#[export] Hint Extern 2 (_ <= _)%nat => cbv; lia : keeps.

(** ** The routines of [rogue_draw.c] and [rogue_ui.c] *)

Section Routines.
Context (I X : Game -> Prop) `{HI : Paints I}.

Lemma setCell_keeps nr nc a b c d :
  byte a -> byte b -> byte c -> byte d -> keeps I X (setCell nr nc a b c d).
Proof. intros. unfold setCell. keep. Qed.

Lemma low3_range x : 0 <= u8 (x .& 7) < 8.
Proof.
  pose proof (Z.mod_pos_bound x 8 ltac:(lia)) as H. change 7 with (2 ^ 3 - 1).
  rewrite land_mask_mod by lia. change (2 ^ 3) with 8. rewrite u8_small; lia.
Qed.

Lemma renderCell_keeps r c : on_grid c r -> keeps I X (renderCell r c).
Proof.
  intros [Hc Hr] s Hs. unfold renderCell. cbv zeta. wp_step. wp_step. wp_step.
  pose proof (paints_shape _ Hs) as Hsh. apply wp_aget.
  assert (Hi : 0 <= r * LOGICAL_COLS + c < 160) by (unfold LOGICAL_COLS; lia).
  destruct (rd_Some (gVis s) (r * LOGICAL_COLS + c)) as [v Ev];
    [rewrite (sh_vis _ Hsh); lia|]. exists v. split; [exact Ev|].
  apply wp_if; intros _; [by apply setCell_keeps|]. wp_step. apply wp_aget.
  destruct (rd_Some (gMap s) (r * LOGICAL_COLS + c)) as [n En];
    [rewrite (proj1 (sh_map _ Hsh)); lia|]. exists n. split; [exact En|].
  apply wp_if; intros _; [by apply setCell_keeps|]. wp_step. apply wp_aget.
  destruct (rd_Some kTileCharBase (u8 (n .& 7))) as [b Eb]; [apply low3_range|].
  exists b. split; [exact Eb|]. apply setCell_keeps; try apply u8_byte. exact Hs.
Qed.

Lemma RenderMap_keeps : keeps I X RenderMap.
Proof.
  apply keeps_each. intros r Hr. apply keeps_each. intros c Hc.
  apply elem_of_seqZ in Hr, Hc. unfold LOGICAL_ROWS, LOGICAL_COLS in *.
  apply renderCell_keeps. split; lia.
Qed.

Lemma hurtFlags_byte h : byte (hurtFlags h).
Proof. unfold hurtFlags. by destruct (h <>? 0). Qed.

Lemma ghostFlags_byte h b : byte (if b : bool then hurtFlags h .| SPR_BOB else hurtFlags h).
Proof. unfold hurtFlags. by destruct b, (h <>? 0). Qed.

(** Reading the visibility of the cell an entity stands on. *)
Lemma vis_use c r (Q : Z -> Game -> Prop) s u :
  I u -> on_grid c r -> (forall v, Q v s) ->
  wp (aget (gVis u) (r * LOGICAL_COLS + c)) Q X s.
Proof.
  intros Hu [Hc Hr] HQ. apply wp_aget.
  destruct (rd_Some (gVis u) (r * LOGICAL_COLS + c)) as [v E]; [|by exists v].
  rewrite (sh_vis _ (paints_shape _ Hu)). unfold LOGICAL_COLS. lia.
Qed.

Hint Resolve hurtFlags_byte ghostFlags_byte : keeps.

Lemma placeMonster_keeps i : 0 <= i < 16 -> keeps I X (placeMonster i).
Proof.
  intros Hi s Hs. unfold placeMonster. wp_step. wp_step. wp_step. apply wp_aget.
  destruct (sh_mon _ (paints_shape _ Hs)) as [Hl Hf].
  destruct (rd_Some (gMon s) i) as [m E]; [lia|]. exists m. split; [exact E|].
  destruct (rd_Forall _ _ _ _ Hf E) as (_ & _ & _ & Hg).
  apply wp_if; intros _; [exact Hs|]. wp_step. apply vis_use; [exact Hs|exact Hg|].
  intros v. apply wp_if; intros _; [exact Hs|]. cbv zeta. apply keeps_now; [keep|exact Hs].
Qed.

Lemma placeItem_keeps i : 0 <= i < 8 -> keeps I X (placeItem i).
Proof.
  intros Hi s Hs. unfold placeItem. wp_step. wp_step. wp_step. apply wp_aget.
  destruct (sh_item _ (paints_shape _ Hs)) as [Hl Hf].
  destruct (rd_Some (gItem s) i) as [w E]; [lia|]. exists w. split; [exact E|].
  destruct (rd_Forall _ _ _ _ Hf E) as (Ht & _ & Hg).
  apply wp_if; intros _; [exact Hs|]. wp_step. apply vis_use; [exact Hs|exact Hg|].
  intros v. apply wp_if; intros _; [exact Hs|]. cbv zeta.
  destruct (rd_Some kItemSprite (w_type w)) as [a Ea]; [cbn; lia|].
  destruct (rd_Some kItemColor (w_type w)) as [b Eb]; [cbn; lia|].
  wp_step. apply wp_aget. exists a. split; [exact Ea|]. wp_step. apply wp_aget.
  exists b. split; [exact Eb|]. apply keeps_now; [|exact Hs].
  apply (SatAdd_keeps I X); [apply u8_byte..|]. by destruct (_ =? _).
Qed.

Lemma PlaceAllSprites_keeps : keeps I X PlaceAllSprites.
Proof.
  unfold PlaceAllSprites. keep; apply keeps_each; intros i Hi; apply elem_of_seqZ in Hi;
    [apply placeMonster_keeps|apply placeItem_keeps]; unfold MON_COUNT, ITEM_COUNT in Hi;
    lia.
Qed.

Lemma PutByte_keeps row col v : keeps I X (PutByte3 row col v) /\ keeps I X (PutByte2 row col v).
Proof. split; [unfold PutByte3|unfold PutByte2]; keep. Qed.

Lemma PutByte3_keeps row col v : keeps I X (PutByte3 row col v).
Proof. apply PutByte_keeps. Qed.

Lemma PutByte2_keeps row col v : keeps I X (PutByte2 row col v).
Proof. apply PutByte_keeps. Qed.

Hint Resolve PutByte3_keeps PutByte2_keeps RenderMap_keeps PlaceAllSprites_keeps : keeps.

Lemma UpdateHud_keeps : keeps I X UpdateHud.
Proof. unfold UpdateHud. keep. Qed.

Lemma ClearMsgRows_keeps : keeps I X ClearMsgRows.
Proof. unfold ClearMsgRows. keep. Qed.

Lemma ClearMsgRow23_keeps : keeps I X ClearMsgRow23.
Proof. unfold ClearMsgRow23. keep. Qed.

Lemma PrintMsgRow_keeps row t : keeps I X (PrintMsgRow row t).
Proof. unfold PrintMsgRow. keep. Qed.

Lemma LevelWipe_keeps : keeps I X LevelWipe.
Proof. unfold LevelWipe. keep. apply keeps_each. intros r _. keep. Qed.

(** One cell saved and blanked, or given back. *)
Lemma stash_keeps i : 0 <= i < 640 ->
  keeps I X (s ← get; ch ← aget (gName (vdp s)) i;
             vset saved set_saved i ch ;; vset gName set_gName i 0).
Proof.
  intros Hi s Hs. wp_step. wp_step. wp_step. apply wp_aget.
  destruct (vd_name _ (sh_vdp _ (paints_shape _ Hs))) as [Hl Hf].
  destruct (rd_Some (gName (vdp s)) i) as [ch E]; [lia|]. exists ch. split; [exact E|].
  pose proof (rd_Forall _ _ _ _ Hf E) as Hc. apply keeps_now; [|exact Hs].
  apply keeps_bind; [by apply (saved_keeps I X)|]. intros _. apply (name_keeps I X); [lia|done].
Qed.

Lemma restore_keeps i : 0 <= i < 640 ->
  keeps I X (s ← get; ch ← aget (saved (vdp s)) i; vset gName set_gName i ch).
Proof.
  intros Hi s Hs. wp_step. wp_step. wp_step. apply wp_aget.
  destruct (vd_saved _ (sh_vdp _ (paints_shape _ Hs))) as [Hl Hf].
  destruct (rd_Some (saved (vdp s)) i) as [ch E]; [lia|]. exists ch. split; [exact E|].
  pose proof (rd_Forall _ _ _ _ Hf E) as Hc. apply keeps_now; [by apply (name_keeps I X); try lia|exact Hs].
Qed.

Lemma LevelReveal_keeps : keeps I X LevelReveal.
Proof.
  unfold LevelReveal. apply keeps_bind; [|intros _]; apply keeps_each; intros r Hr.
  - apply elem_of_seqZ in Hr. apply stash_keeps. unfold VDP_COLS in Hr. lia.
  - apply keeps_bind; [|intros _; keep]. apply keeps_each. intros i Hi.
    apply elem_of_seqZ in Hi. apply restore_keeps. rewrite !elem_of_cons in Hr.
    unfold VDP_COLS in Hi. assert (0 <= r <= 16); [|lia].
    destruct Hr as [->|[->|[->|[->|[->|Hr]]]]]; try lia. by apply elem_of_nil in Hr.
Qed.

Hint Resolve UpdateHud_keeps : keeps.

Lemma RedrawGame_keeps : keeps I X RedrawGame.
Proof. unfold RedrawGame. keep. Qed.

Lemma PaintLines_keeps l : Forall (fun t => byte (l_fg t)) l -> keeps I X (PaintLines l).
Proof.
  intros Hl. apply keeps_each. intros t Ht. rewrite Forall_forall in Hl.
  apply (PutStringColor_keeps I X); auto.
Qed.

Lemma DrawTitle_keeps : keeps I X DrawTitle.
Proof.
  pose proof (PaintLines_keeps kTitle ltac:(unfold byte; repeat constructor; cbn; lia)).
  unfold DrawTitle. keep.
Qed.

Lemma DrawBriefing_keeps : keeps I X DrawBriefing.
Proof.
  pose proof (PaintLines_keeps kBriefing ltac:(unfold byte; repeat constructor; cbn; lia)).
  unfold DrawBriefing. keep.
Qed.

Lemma helpCard_keeps : keeps I X (PaintLines kHelp).
Proof. apply PaintLines_keeps. unfold byte. repeat constructor; cbn; lia. Qed.

Lemma PaintScores_keeps : keeps I X PaintScores.
Proof. unfold PaintScores. keep. Qed.

Lemma DrawInvUtility_keeps row col i : keeps I X (DrawInvUtility row col i).
Proof. unfold DrawInvUtility. keep. Qed.

Lemma DrawInvLine_keeps row slot : 0 <= slot < 26 -> keeps I X (DrawInvLine row slot).
Proof.
  intros Hi s Hs. unfold DrawInvLine. wp_step. wp_step. wp_step. apply wp_aget.
  destruct (sh_inv _ (paints_shape _ Hs)) as [Hl Hf].
  destruct (rd_Some (gInv s) slot) as [v E]; [lia|]. exists v. split; [exact E|].
  wp_step. unfold LookupItemName. apply wp_aget.
  destruct (rd_Some kItemNames (if (1 <=? i_type v) && (i_type v <=? 8) then i_type v else 0))
    as [n En]; [destruct (_ && _) eqn:E1; unbool; cbn; lia|].
  exists n. split; [exact En|]. cbv zeta. pose proof DrawInvUtility_keeps.
  apply keeps_now; [keep|exact Hs].
Qed.
End Routines.

#[export] Hint Resolve RenderMap_keeps PlaceAllSprites_keeps UpdateHud_keeps
  ClearMsgRows_keeps ClearMsgRow23_keeps PrintMsgRow_keeps LevelWipe_keeps
  LevelReveal_keeps RedrawGame_keeps DrawTitle_keeps DrawBriefing_keeps helpCard_keeps
  PaintScores_keeps PutByte3_keeps PutByte2_keeps : keeps.
