(* ===== verification/RogueMapFacts.v ===== *)
(** * RogueMapFacts: the generator of random numbers, the map and what is seen

    The two-byte LFSR against its 16-bit reference, [RandMod] against the
    remainder, the exact effect of the map operations; what the field of view
    promises and what it does not. *)

From S2P Require Import Prelude RogueState RogueMap RogueInv RogueFov.
From stdpp Require Import base list numbers option decidable strings.

Open Scope Z_scope.

(** ** The LFSR *)

(** The generator on one 16-bit word: shift right, and fold in the polynomial
    when a one falls out. *)
Definition lfsr (w : Z) : Z :=
  (w / 2) .^ (if Z.odd w then 0xB400 else 0).

(** Its inverse: bit 15 tells whether the polynomial was folded in. *)
Definition lfsrBack (w : Z) : Z :=
  if 0x8000 <=? w then 2 * (w .^ 0xB400) + 1 else 2 * w.

Definition prngWord (s : Game) : Z := gPrngHi s * 256 + gPrngLo s.

Lemma lxor_high a b c :
  0 <= b < 256 -> (a * 256 + b) .^ (c * 256) = (a .^ c) * 256 + b.
Proof.
  intros Hb. change 256 with (2 ^ 8).
  rewrite <- !(shiftl_lxor_low _ b 8), <- Z.shiftl_mul_pow2 by (cbn; lia).
  rewrite Z.shiftl_lxor, !Z.lxor_assoc. f_equal. apply Z.lxor_comm.
Qed.

(** Shifting the low byte right with the high byte's bit coming in. *)
Lemma shift_in lo hi :
  byte lo -> byte hi ->
  u8 ((lo .>> 1) .| ((hi .& 1) .<< 7)) = lo / 2 + 128 * (hi mod 2).
Proof.
  unfold byte. intros Hl Hh.
  rewrite land_1_mod, Z.shiftr_div_pow2 by lia. change (2 ^ 1) with 2.
  assert (0 <= lo / 2 < 128) by (split; [apply Z.div_pos|apply Z.div_lt_upper_bound]; lia).
  pose proof (Z.mod_pos_bound hi 2 ltac:(lia)).
  rewrite Z.lor_comm, (shiftl_lor_low _ _ 7) by (cbn; lia).
  change (2 ^ 7) with 128. rewrite u8_small; lia.
Qed.

(** The two bytes after one step. *)
Definition nextLo (s : Game) : Z := gPrngLo s / 2 + 128 * (gPrngHi s mod 2).
Definition nextHi (s : Game) : Z :=
  (gPrngHi s / 2) .^ (if Z.odd (gPrngLo s) then 0xB4 else 0).

(** What [Prng16] does to the state: only its two bytes change. *)
Lemma Prng16_run s :
  byte (gPrngLo s) -> byte (gPrngHi s) ->
  Prng16 s = Ok (nextLo s) (set_gPrngHi (nextHi s) (set_gPrngLo (nextLo s) s)).
Proof.
  intros Hl Hh. unfold Prng16, mbind, M_bind, get, upd, when, mret, M_ret.
  cbn -[Z.land Z.lor Z.shiftr Z.shiftl u8]. rewrite shift_in by assumption.
  unfold nextHi. rewrite land_1_mod, Zmod_odd. rewrite Z.shiftr_div_pow2 by lia. change (2 ^ 1) with 2.
  rewrite (u8_small (gPrngHi s / 2))
    by (unfold byte in Hh; split; [apply Z.div_pos|apply Z.div_lt_upper_bound]; lia).
  destruct (Z.odd (gPrngLo s)); cbn -[Z.lxor Z.div Z.mul]; [done|].
  by rewrite Z.lxor_0_r.
Qed.

Lemma nextLo_byte s : byte (gPrngLo s) -> byte (nextLo s).
Proof.
  unfold byte, nextLo. intros H. pose proof (Z.mod_pos_bound (gPrngHi s) 2 ltac:(lia)).
  assert (0 <= gPrngLo s / 2 < 128)
    by (split; [apply Z.div_pos|apply Z.div_lt_upper_bound]; lia). lia.
Qed.

Lemma nextHi_byte s : byte (gPrngHi s) -> byte (nextHi s).
Proof.
  intros H. apply lxor_byte.
  - unfold byte in *. split; [apply Z.div_pos|apply Z.div_lt_upper_bound]; lia.
  - unfold byte. destruct (Z.odd _); lia.
Qed.

(** The two bytes are the two halves of the reference word. *)
Lemma next_word s :
  byte (gPrngLo s) -> byte (gPrngHi s) ->
  nextHi s * 256 + nextLo s = lfsr (prngWord s).
Proof.
  intros Hl Hh. pose proof (nextLo_byte s Hl) as Hn. unfold byte in *.
  unfold lfsr, prngWord.
  assert (Eo : Z.odd (gPrngHi s * 256 + gPrngLo s) = Z.odd (gPrngLo s)).
  { rewrite Z.odd_add, Z.odd_mul, andb_false_r. done. }
  assert (Ed : (gPrngHi s * 256 + gPrngLo s) / 2 = gPrngHi s / 2 * 256 + nextLo s).
  { unfold nextLo. Z.to_euclidean_division_equations. lia. }
  rewrite Eo, Ed. unfold nextHi.
  replace (if Z.odd (gPrngLo s) then 0xB400 else 0)
    with ((if Z.odd (gPrngLo s) then 0xB4 else 0) * 256) by (destruct (Z.odd (gPrngLo s)); reflexivity).
  by rewrite lxor_high.
Qed.

Lemma lfsr_back w : 0 <= w < 65536 -> lfsrBack (lfsr w) = w.
Proof.
  intros Hw. unfold lfsr, lfsrBack.
  assert (Hd : 0 <= w / 2 < 32768)
    by (split; [apply Z.div_pos|apply Z.div_lt_upper_bound]; lia).
  pose proof (Z.div_mod w 2 ltac:(lia)) as Hm. rewrite Zmod_odd in Hm.
  destruct (Z.odd w).
  - assert (Hb : 0x8000 <= w / 2 .^ 0xB400).
    { assert (E : w / 2 .^ 0xB400 = 2 ^ 15 + (w / 2 .^ 0x3400)).
      { rewrite <- (Z.mod_small (w / 2) (2 ^ 15)) by (cbn; lia).
        set (x := w / 2). rewrite Z.add_comm.
        assert (Hx : Z.testbit (x mod 2 ^ 15 .^ 0x3400) 15 = false).
        { rewrite Z.lxor_spec, Z.mod_pow2_bits_high by lia. done. }
        rewrite Z.add_nocarry_lxor.
        - rewrite Z.lxor_assoc. f_equal.
        - apply Z.bits_inj'. intros i Hi. rewrite Z.land_spec, Z.bits_0.
          destruct (Z.eq_dec i 15) as [->|Hn]; [by rewrite Hx|].
          rewrite Z.pow2_bits_false by lia. apply andb_false_r. }
      rewrite E. assert (0 <= w / 2 .^ 0x3400) by (apply Z.lxor_nonneg; lia).
      lia. }
    rewrite (proj2 (Z.leb_le _ _) Hb).
    rewrite Z.lxor_assoc, Z.lxor_nilpotent, Z.lxor_0_r. lia.
  - rewrite Z.lxor_0_r. rewrite (proj2 (Z.leb_gt _ _)) by lia. lia.
Qed.

(** The two-byte generator is the 16-bit Galois LFSR with polynomial
    $B400: one call of [Prng16] replaces the word [hi:lo] by [lfsr hi:lo],
    returns its low byte, changes nothing else, never reaches the absorbing
    zero word from another one, and loses no state ([lfsrBack] undoes it). *)
Theorem Prng16_lfsr s :
  byte (gPrngLo s) -> byte (gPrngHi s) ->
  exists lo hi, Prng16 s = Ok lo (set_gPrngHi hi (set_gPrngLo lo s)) /\
    byte lo /\ byte hi /\ hi * 256 + lo = lfsr (prngWord s) /\
    lfsrBack (hi * 256 + lo) = prngWord s /\
    (prngWord s <> 0 -> hi * 256 + lo <> 0).
Proof.
  intros Hl Hh. exists (nextLo s), (nextHi s).
  assert (Hw : 0 <= prngWord s < 65536) by (unfold prngWord, byte in *; lia).
  assert (Hb : lfsrBack (nextHi s * 256 + nextLo s) = prngWord s)
    by (rewrite next_word by assumption; by apply lfsr_back).
  split_and!; [by apply Prng16_run|by apply nextLo_byte|by apply nextHi_byte
              |by apply next_word|exact Hb|].
  intros Hn E. rewrite E in Hb. apply Hn. by rewrite <- Hb.
Qed.

(** The all-zero display tables. *)
Definition bootVdp : Vdp :=
  mkVdp (replicate 768 0) (replicate 768 0) (replicate 4 (mkBig 0 0 0 EmptyString)) 0
    (replicate 48 (mkSat 0 0 0 0 0)) 0 0 (replicate 640 0).

(** The state of the C program's [.bss] and [.data] at start, with the given keys
    and clock. *)
Definition bootGame (keys : list Input) (clock : Z) : Game :=
  mkGame (replicate 160 0) (replicate 160 0) 1 1
    (replicate 16 (mkMonster 0 0 0 0 0 0 0 0)) (replicate 8 (mkItem 0 0 0 0))
    (replicate 26 (mkSlot 0 0 0 0))
    0 0 0 0 0 0 0 0 0 0 0 0 0 0 0 0 0 0 0 0 0 0 0 0 0 0 0 0 0 0 0 0 0 0 0 0 0 0
    0 0 0 0 0 0 0 0 0 0 0 0 0 0 EmptyString (replicate 24 EmptyString) 0 0
    bootVdp keys clock [].

Lemma Prng16_lfsr_witness :
  exists s, Prng16 (bootGame [] 0) = Ok 128 s /\ prngWord s = lfsr 0x0101.
Proof.
  destruct (Prng16_lfsr (bootGame [] 0)) as (lo & hi & E & _ & _ & W & _);
    [unfold byte; cbn; lia|unfold byte; cbn; lia|].
  exists (set_gPrngHi hi (set_gPrngLo lo (bootGame [] 0))). split.
  - rewrite E. vm_compute in E. injection E as <- _. reflexivity.
  - exact W.
Defined.

(** ** [RandMod] *)

Lemma subtractWhile_mod fuel : forall a max,
  0 < max -> 0 <= a < 256 -> a < max * (Z.of_nat fuel + 1) ->
  subtractWhile fuel a max = Some (a mod max).
Proof.
  induction fuel as [|fuel IH]; intros a max Hm Ha Hf; cbn [subtractWhile].
  - rewrite (proj2 (Z.leb_gt _ _)) by lia. by rewrite Z.mod_small by lia.
  - destruct (Z.leb_spec max a) as [H|H]; [|by rewrite Z.mod_small by lia].
    rewrite u8_small by lia. rewrite IH by lia. f_equal.
    rewrite <- (Z.mod_add (a - max) 1) by lia. f_equal. lia.
Qed.

(** What [RandMod] does to the state. *)
Lemma RandMod_run max s :
  0 < max -> byte (gPrngLo s) -> byte (gPrngHi s) ->
  RandMod max s = Ok (nextLo s mod max)
                    (set_gPrngHi (nextHi s) (set_gPrngLo (nextLo s) s)).
Proof.
  intros Hm Hl Hh. unfold RandMod. destruct (Z.eqb_spec max 0); [lia|].
  unfold mbind, M_bind. rewrite Prng16_run by assumption.
  pose proof (nextLo_byte s Hl) as Hn. unfold byte in Hn.
  rewrite subtractWhile_mod; [done|lia|lia|].
  change (Z.of_nat 255 + 1) with 256. lia.
Qed.

(** [RandMod max] terminates for every [max] from 1 to 255 and returns the
    next generator byte modulo [max], a number below [max]; its only effect is
    one step of the generator. [RandMod 0] is 0 and draws nothing. *)
Theorem RandMod_spec max s :
  0 <= max < 256 -> byte (gPrngLo s) -> byte (gPrngHi s) ->
  (max = 0 -> RandMod max s = Ok 0 s) /\
  (0 < max -> exists lo hi,
     Prng16 s = Ok lo (set_gPrngHi hi (set_gPrngLo lo s)) /\
     RandMod max s = Ok (lo mod max) (set_gPrngHi hi (set_gPrngLo lo s)) /\
     0 <= lo mod max < max).
Proof.
  intros Hm Hl Hh. split; [by intros ->|]. intros Hp.
  exists (nextLo s), (nextHi s).
  split_and!; [by apply Prng16_run|by apply RandMod_run|..];
    apply Z.mod_pos_bound; lia.
Qed.

Lemma RandMod_spec_witness :
  exists r s, RandMod 160 (bootGame [] 0) = Ok r s /\ 0 <= r < 160.
Proof.
  destruct (RandMod_spec 160 (bootGame [] 0)) as [_ H];
    [lia|unfold byte; cbn; lia|unfold byte; cbn; lia|].
  destruct H as (lo & hi & _ & E & R); [lia|]. eauto.
Defined.

(** [RandMod] in a weakest-precondition proof. *)
Lemma wp_RandMod max Q X s :
  0 < max -> byte (gPrngLo s) -> byte (gPrngHi s) ->
  (forall r lo hi, 0 <= r < max -> byte lo -> byte hi ->
     Q r (set_gPrngHi hi (set_gPrngLo lo s))) ->
  wp (RandMod max) Q X s.
Proof.
  intros Hm Hl Hh H. unfold wp. rewrite RandMod_run by assumption.
  apply H; [by apply Z.mod_pos_bound|by apply nextLo_byte|by apply nextHi_byte].
Qed.

(** ** The field of view *)

(** The player at [col], [row] on the map [m], and whether a cell is lit. *)
Definition standing (m : list Z) (col row : Z) : Game :=
  set_gPlayerRow row (set_gPlayerCol col (set_gMap m (bootGame [] 0))).

Definition sees (m : list Z) (col row tcol trow : Z) : option bool :=
  match ComputeFov (standing m col row) with
  | Ok _ s => match rd (gVis s) (trow * LOGICAL_COLS + tcol) with
              | Some v => Some (v <>? 0)
              | None => None
              end
  | _ => None
  end.

(** An open room with one pillar at column 3, row 3. *)
Definition pillarRoom : list Z :=
  map (fun i =>
    let col := i mod LOGICAL_COLS in
    let row := i / LOGICAL_COLS in
    if (1 <=? col) && (col <=? 14) && (1 <=? row) && (row <=? 8) &&
       negb ((col =? 3) && (row =? 3)) then TILE_EMPTY else TILE_WALL)
    (seqZ 0 MAP_CELLS).

(** Seeing is not symmetric: in a room with one pillar, both cells open
    floor and inside the radius of each other, the player at column 4, row 2
    sees column 3, row 4, and from there does not see column 4, row 2. *)
Theorem fov_asymmetric :
  TileAt 4 2 (standing pillarRoom 3 4) = TILE_EMPTY /\
  TileAt 3 4 (standing pillarRoom 4 2) = TILE_EMPTY /\
  sees pillarRoom 4 2 3 4 = Some true /\ sees pillarRoom 3 4 4 2 = Some false.
Proof. vm_compute. auto. Qed.
