(* ===== verification/RogueFindFacts.v ===== *)
(** * RogueFindFacts: the search for an empty cell, and carving

    [FindEmptyCell] against its specification: it finds a free cell exactly
    when there is one.  What carving a room or a corridor changes. *)

From S2P Require Import Prelude RogueState RogueMap RoguePools RogueGen RogueInv RogueMapFacts.
From stdpp Require Import base list numbers option decidable strings.

Open Scope Z_scope.

(** ** Cell indices *)

Lemma idx_col i : u8 (i .& 0x0F) = i mod 16.
Proof.
  change 0x0F with (2 ^ 4 - 1). rewrite land_mask_mod by lia.
  change (2 ^ 4) with 16. apply u8_small.
  pose proof (Z.mod_pos_bound i 16 ltac:(lia)). lia.
Qed.

Lemma idx_row i : 0 <= i < 160 -> u8 (i .>> 4) = i / 16.
Proof.
  intros Hi. rewrite Z.shiftr_div_pow2 by lia. change (2 ^ 4) with 16.
  apply u8_small. Z.to_euclidean_division_equations. lia.
Qed.

Lemma idx_on_grid i : 0 <= i < 160 -> on_grid (i mod 16) (i / 16).
Proof. intros Hi. unfold on_grid. Z.to_euclidean_division_equations. lia. Qed.

(** The index of a cell and back. *)
Lemma grid_idx c r :
  on_grid c r -> (r * 16 + c) mod 16 = c /\ (r * 16 + c) / 16 = r /\
                 0 <= r * 16 + c < 160.
Proof. unfold on_grid. intros H. Z.to_euclidean_division_equations. lia. Qed.

(** ** The sweep *)

(** The state with the target on cell [i]. *)
Definition aim (i : Z) (s : Game) : Game :=
  set_gTgtRow (i / 16) (set_gTgtCol (i mod 16) s).

(** Cell [i] is open floor with nobody and nothing on it. *)
Definition freeCell (s : Game) (i : Z) : bool := freeTarget (aim i s).

(** The [k]-th cell of the sweep from [cursor]. *)
Definition nth_cell (cursor k : Z) : Z := (cursor + k) mod 160.

Lemma aim_aim i j s : aim j (aim i s) = aim j s.
Proof. reflexivity. Qed.

Lemma freeCell_aim i j s : freeCell (aim i s) j = freeCell s j.
Proof. reflexivity. Qed.

Lemma nth_cell_range cursor k : 0 <= nth_cell cursor k < 160.
Proof. apply Z.mod_pos_bound. lia. Qed.

Lemma nth_cell_0 cursor : 0 <= cursor < 160 -> nth_cell cursor 0 = cursor.
Proof. intros H. unfold nth_cell. rewrite Z.add_0_r. by apply Z.mod_small. Qed.

(** [cursor++; if (cursor >= MAP_CELLS) cursor = 0;] *)
Lemma nth_cell_next cursor k :
  0 <= cursor < 160 ->
  nth_cell (if MAP_CELLS <=? cursor + 1 then 0 else cursor + 1) k
    = nth_cell cursor (k + 1).
Proof.
  intros H. unfold nth_cell, MAP_CELLS. destruct (Z.leb_spec 160 (cursor + 1)).
  - replace cursor with 159 by lia.
    replace (159 + (k + 1)) with (k + 1 * 160) by lia.
    by rewrite Z.mod_add.
  - f_equal. lia.
Qed.

(** The outcome of sweeping [n] cells: the first free one, or none. *)
Definition sweep_result (n : nat) (cursor : Z) (s : Game) (r : Res bool) : Prop :=
  (exists k, 0 <= k < Z.of_nat n /\ freeCell s (nth_cell cursor k) = true /\
     (forall j, 0 <= j < k -> freeCell s (nth_cell cursor j) = false) /\
     r = Ok true (aim (nth_cell cursor k) s)) \/
  ((forall k, 0 <= k < Z.of_nat n -> freeCell s (nth_cell cursor k) = false) /\
   exists i, 0 <= i < 160 /\ r = Ok false (aim i s)).

Lemma sweep_step n cursor s :
  0 <= cursor < 160 ->
  sweep (S n) cursor s =
    if freeCell s cursor then Ok true (aim cursor s)
    else sweep n (if MAP_CELLS <=? cursor + 1 then 0 else cursor + 1)
           (aim cursor s).
Proof.
  intros H. cbn [sweep]. unfold mbind, M_bind, upd, get. cbn beta iota.
  rewrite idx_col, (idx_row cursor H). fold (aim cursor s).
  unfold freeCell. by destruct (freeTarget (aim cursor s)).
Qed.

Lemma sweep_spec n : forall cursor s,
  0 <= cursor < 160 -> sweep_result (S n) cursor s (sweep (S n) cursor s).
Proof.
  induction n as [|n IH]; intros cursor s H; rewrite sweep_step by exact H;
    destruct (freeCell s cursor) eqn:E.
  1,3: left; exists 0; rewrite nth_cell_0 by exact H; split_and!; try lia; done.
  - right. split; [|by exists cursor].
    intros k Hk. replace k with 0 by lia. by rewrite nth_cell_0.
  - set (next := if MAP_CELLS <=? cursor + 1 then 0 else cursor + 1).
    assert (Hn : 0 <= next < 160)
      by (unfold next, MAP_CELLS; destruct (Z.leb_spec 160 (cursor + 1)); lia).
    assert (Hk : forall k, nth_cell next k = nth_cell cursor (k + 1))
      by (intros k; by apply nth_cell_next).
    assert (Hc : forall k, 0 <= k ->
              (forall j, 0 <= j < k -> freeCell s (nth_cell cursor (j + 1)) = false) ->
              forall j, 0 <= j < k + 1 -> freeCell s (nth_cell cursor j) = false).
    { intros k H0 Hf j Hj. destruct (Z.eq_dec j 0) as [->|];
        [by rewrite nth_cell_0|].
      replace j with (j - 1 + 1) by lia. apply Hf. lia. }
    destruct (IH next (aim cursor s) Hn) as [(k & Hr & Hf & Hp & ->)|[Hf (i & Hi & ->)]];
      setoid_rewrite freeCell_aim in Hf; rewrite ?aim_aim; setoid_rewrite Hk in Hf.
    + left. exists (k + 1). rewrite Hk. split_and!; [lia|lia|exact Hf| |done].
      apply Hc; [lia|]. intros j Hj. specialize (Hp j Hj).
      by rewrite freeCell_aim, Hk in Hp.
    + right. split; [|by exists i]. intros k Hr.
      apply (Hc (Z.of_nat (S n))); [lia|exact Hf|lia].
Qed.

(** Every cell is met by a sweep of 160 from any start. *)
Lemma sweep_covers cursor j :
  0 <= cursor < 160 -> 0 <= j < 160 ->
  exists k, 0 <= k < 160 /\ nth_cell cursor k = j.
Proof.
  intros Hc Hj. exists ((j - cursor) mod 160).
  split; [apply Z.mod_pos_bound; lia|].
  unfold nth_cell. rewrite Zplus_mod_idemp_r. rewrite Z.add_comm, Z.sub_add.
  by apply Z.mod_small.
Qed.

(** The run of [FindEmptyCell]: a step of the generator, then the target on
    some cell. *)
Lemma FindEmptyCell_run s :
  byte (gPrngLo s) -> byte (gPrngHi s) ->
  exists b i lo hi, byte lo /\ byte hi /\ 0 <= i < 160 /\
    FindEmptyCell s = Ok b (aim i (set_gPrngHi hi (set_gPrngLo lo s))) /\
    (b = true -> freeCell s i = true) /\
    (b = false -> forall j, 0 <= j < 160 -> freeCell s j = false).
Proof.
  intros Hl Hh. unfold FindEmptyCell, mbind, M_bind.
  rewrite RandMod_run by (by unfold MAP_CELLS).
  set (u := set_gPrngHi (nextHi s) (set_gPrngLo (nextLo s) s)).
  assert (Hc : 0 <= nextLo s mod MAP_CELLS < 160) by (apply Z.mod_pos_bound; done).
  change (Z.to_nat MAP_CELLS) with (S 159).
  destruct (sweep_spec 159 _ u Hc) as [(k & Hk & Hf & _ & ->)|[Hn (i & Hi & ->)]].
  - exists true, (nth_cell (nextLo s mod MAP_CELLS) k), (nextLo s), (nextHi s).
    split_and!; try done; auto using nextLo_byte, nextHi_byte; apply nth_cell_range.
  - exists false, i, (nextLo s), (nextHi s).
    split_and!; try done; auto using nextLo_byte, nextHi_byte; try apply Hi.
    intros _ j Hj. destruct (sweep_covers _ j Hc Hj) as (k & Hk & <-).
    exact (Hn k Hk).
Qed.

(** [FindEmptyCell] is sound and complete: it succeeds exactly when some
    cell is open floor with no player, monster or item on it, and then leaves
    the target on such a cell; besides the target it only advances the
    generator. *)
Theorem FindEmptyCell_spec s :
  byte (gPrngLo s) -> byte (gPrngHi s) ->
  exists b i lo hi,
    FindEmptyCell s = Ok b (aim i (set_gPrngHi hi (set_gPrngLo lo s))) /\
    0 <= i < 160 /\
    (b = true <-> exists j, 0 <= j < 160 /\ freeCell s j = true) /\
    (b = true -> freeCell s i = true).
Proof.
  intros Hl Hh.
  destruct (FindEmptyCell_run s Hl Hh) as (b & i & lo & hi & _ & _ & Hi & E & Ht & Hf).
  exists b, i, lo, hi. split_and!; [exact E|lia|lia| |exact Ht].
  split; [intros ->; exists i; auto|]. intros (j & Hj & Hfree).
  destruct b; [done|]. rewrite (Hf eq_refl j Hj) in Hfree. done.
Qed.

Lemma FindEmptyCell_spec_witness :
  exists i u, FindEmptyCell (bootGame [] 0) = Ok true u /\
    freeCell (bootGame [] 0) i = true.
Proof.
  destruct (FindEmptyCell_spec (bootGame [] 0)) as (b & i & lo & hi & E & _ & Hb & Ht);
    [unfold byte; cbn; lia|unfold byte; cbn; lia|].
  assert (Hbt : b = true).
  { apply Hb. exists 1. split; [lia|]. vm_compute. reflexivity. }
  exists i, (aim i (set_gPrngHi hi (set_gPrngLo lo (bootGame [] 0)))).
  split; [by rewrite <- Hbt|by apply Ht].
Defined.

(** [FindEmptyCell] in a weakest-precondition proof. *)
Lemma wp_FindEmptyCell Q X s :
  byte (gPrngLo s) -> byte (gPrngHi s) ->
  (forall b i lo hi, byte lo -> byte hi -> 0 <= i < 160 ->
     (b = true -> freeCell s i = true) ->
     Q b (aim i (set_gPrngHi hi (set_gPrngLo lo s)))) ->
  wp FindEmptyCell Q X s.
Proof.
  intros Hl Hh H. unfold wp.
  destruct (FindEmptyCell_run s Hl Hh) as (b & i & lo & hi & Bl & Bh & Hi & -> & Ht & _).
  by apply H.
Qed.

(** ** Carving *)

(** ** Maps as functions of the cell *)

Definition at_ (l : list Z) (c r : Z) : Z := default 0 (rd l (r * 16 + c)).

(** [s] with another map and target. *)
Definition canvas (l : list Z) (c r : Z) (s : Game) : Game :=
  set_gMap l (set_gTgtRow r (set_gTgtCol c s)).

Definition atb (c r c' r' : Z) : bool := (c =? c') && (r =? r').

Lemma atb_spec c r c' r' : reflect (c = c' /\ r = r') (atb c r c' r').
Proof.
  unfold atb. destruct (Z.eqb_spec c c'), (Z.eqb_spec r r'); constructor; tauto.
Qed.

Lemma at_wr l c r c' r' v :
  length l = 160%nat -> on_grid c r -> on_grid c' r' ->
  at_ (wr l (r' * 16 + c') v) c r = if atb c r c' r' then v else at_ l c r.
Proof.
  intros Hl Hg Hg'. unfold at_. rewrite rd_wr by (unfold on_grid in *; lia).
  destruct (atb_spec c r c' r') as [[-> ->]|Hn].
  - by rewrite Z.eqb_refl.
  - destruct (Z.eqb_spec (r * 16 + c) (r' * 16 + c')); [|done].
    exfalso. apply Hn. unfold on_grid in *. lia.
Qed.

Lemma TileAt_at c r s :
  on_grid c r -> TileAt c r s = u8 (at_ (gMap s) c r .& 7).
Proof.
  unfold on_grid, TileAt, LOGICAL_COLS, LOGICAL_ROWS. intros [Hc Hr].
  rewrite (proj2 (Z.ltb_ge c 0)), (proj2 (Z.leb_gt 16 c)), (proj2 (Z.ltb_ge r 0)),
    (proj2 (Z.leb_gt 10 r)) by lia. done.
Qed.

(** Small tile ids are their own dense id. *)
Lemma tile_id v : 0 <= v < 8 -> u8 (v .& 7) = v.
Proof.
  intros Hv. change 7 with (2 ^ 3 - 1). rewrite land_mask_mod by lia.
  rewrite Z.mod_small by (cbn; lia). apply u8_small. lia.
Qed.

Lemma nibble_id v : 0 <= v < 16 -> u8 (v .& 0x0F) = v.
Proof.
  intros Hv. rewrite idx_col, Z.mod_small; lia.
Qed.

(** ** Loops with an index-dependent invariant *)

Lemma wp_each_up (n : nat) : forall lo body (I : Z -> Game -> Prop) X s,
  I lo s ->
  (forall i u, lo <= i < lo + Z.of_nat n -> I i u ->
     wp (body i) (fun _ => I (i + 1)) X u) ->
  wp (each (seqZ lo (Z.of_nat n)) body) (fun _ => I (lo + Z.of_nat n)) X s.
Proof.
  induction n as [|n IH]; intros lo body I X s Hs Hb.
  - cbn. by rewrite Z.add_0_r.
  - rewrite seqZ_cons by lia. cbn [each]. apply wp_bind.
    eapply wp_mono; [apply Hb; [lia|exact Hs]| |auto].
    intros ? u Hu. replace (Z.pred (Z.of_nat (S n))) with (Z.of_nat n) by lia.
    replace (lo + Z.of_nat (S n)) with (Z.succ lo + Z.of_nat n) by lia.
    apply IH; [by replace (Z.succ lo) with (lo + 1) by lia|].
    intros i v Hi. apply Hb. lia.
Qed.

Lemma wp_each_seq lo n body (I : Z -> Game -> Prop) (Q : () -> Game -> Prop) X s :
  0 <= n -> I lo s ->
  (forall i u, lo <= i < lo + n -> I i u -> wp (body i) (fun _ => I (i + 1)) X u) ->
  (forall u, I (lo + n) u -> Q tt u) ->
  wp (each (seqZ lo n) body) Q X s.
Proof.
  intros Hn Hs Hb HQ. rewrite <- (Z2Nat.id n) in * by lia.
  eapply wp_mono; [by apply wp_each_up| |done]. intros [] u Hu. by apply HQ.
Qed.

Lemma wp_each_down (n : nat) : forall body (I : Z -> Game -> Prop) X s,
  I (Z.of_nat n) s ->
  (forall i u, 0 <= i < Z.of_nat n -> I (i + 1) u -> wp (body i) (fun _ => I i) X u) ->
  wp (each (rev (seqZ 0 (Z.of_nat n))) body) (fun _ => I 0) X s.
Proof.
  induction n as [|n IH]; intros body I X s Hs Hb; [exact Hs|].
  replace (Z.of_nat (S n)) with (Z.of_nat n + 1) by lia.
  rewrite seqZ_app, (seqZ_cons _ 1), (seqZ_nil _ (Z.pred 1)) by lia.
  rewrite rev_app_distr. cbn [rev app each]. rewrite Z.add_0_l. apply wp_bind.
  eapply wp_mono; [apply Hb; [lia|]| |auto].
  - by replace (Z.of_nat n + 1) with (Z.of_nat (S n)) by lia.
  - intros ? u Hu. apply IH; [exact Hu|]. intros i v Hi. apply Hb. lia.
Qed.

(** ** Carving a room *)

Definition inRoom (x y w h c r : Z) : bool :=
  (x <=? c) && (c <? x + w) && (y <=? r) && (r <? y + h).

(** The map agrees with [f] on the grid. *)
Definition map_is (l : list Z) (f : Z -> Z -> Z) : Prop :=
  length l = 160%nat /\ forall c r, on_grid c r -> at_ l c r = f c r.

Lemma map_is_wr l f c' r' v :
  map_is l f -> on_grid c' r' ->
  map_is (wr l (r' * 16 + c') v)
    (fun c r => if atb c r c' r' then v else f c r).
Proof.
  intros [Hl Hf] Hg. split; [by rewrite wr_length|]. intros c r Hcr.
  rewrite at_wr by assumption. destruct (atb c r c' r'); [done|by apply Hf].
Qed.

Lemma map_is_ext l f g :
  map_is l f -> (forall c r, on_grid c r -> f c r = g c r) -> map_is l g.
Proof. intros [Hl Hf] H. split; [exact Hl|]. intros c r Hg. rewrite Hf; auto. Qed.

(** [SetTile] on a grid target. *)
Lemma SetTile_run v l c r s :
  0 <= v < 16 -> on_grid c r ->
  SetTile v (canvas l c r s) = Ok tt (canvas (wr l (r * 16 + c) v) c r s).
Proof.
  intros Hv [Hc Hr]. unfold SetTile, mbind, M_bind, get. cbn beta iota.
  change (gTgtCol (canvas l c r s)) with c. change (gTgtRow (canvas l c r s)) with r.
  unfold LOGICAL_COLS, LOGICAL_ROWS.
  rewrite (proj2 (Z.leb_gt 16 c)), (proj2 (Z.leb_gt 10 r)) by lia.
  rewrite nibble_id by lia. done.
Qed.

(** The state is [s] with another map, described by [f], and some target. *)
Definition drawn (s : Game) (f : Z -> Z -> Z) (u : Game) : Prop :=
  exists l c r, u = canvas l c r s /\ map_is l f /\ byte c /\ byte r.

Lemma drawn_start s : length (gMap s) = 160%nat -> byte (gTgtCol s) -> byte (gTgtRow s) ->
  drawn s (at_ (gMap s)) s.
Proof.
  intros Hl Hc Hr. exists (gMap s), (gTgtCol s), (gTgtRow s).
  split; [by destruct s|]. split; [by split|]. by split.
Qed.

Lemma drawn_ext s f g u :
  drawn s f u -> (forall c r, on_grid c r -> f c r = g c r) -> drawn s g u.
Proof.
  intros (l & c & r & E & Hm & Hc & Hr) H. exists l, c, r.
  split; [done|]. split; [by eapply map_is_ext|]. by split.
Qed.

(** Writing one tile at a chosen cell of a drawn state. *)
Lemma drawn_SetTile s f u c r v X :
  drawn s f u -> on_grid c r -> 0 <= v < 16 ->
  wp (SetTile v)
    (fun _ => drawn s (fun c' r' => if atb c' r' c r then v else f c' r')) X
    (set_gTgtRow r (set_gTgtCol c u)).
Proof.
  intros (l & c0 & r0 & -> & Hm & _ & _) Hg Hv.
  change (set_gTgtRow r (set_gTgtCol c (canvas l c0 r0 s))) with (canvas l c r s).
  unfold wp. rewrite SetTile_run by assumption.
  exists (wr l (r * 16 + c) v), c, r. split; [done|]. split; [by apply map_is_wr|].
  unfold on_grid, byte in *. lia.
Qed.

(** A drawn state keeps the generator's scratch variables. *)
Lemma drawn_scratch s f u :
  drawn s f u ->
  room_x u = room_x s /\ room_y u = room_y s /\ room_w u = room_w s /\
  room_h u = room_h s.
Proof. by intros (l & c & r & -> & _). Qed.

(** Decide a goal about cell tests by cases on their comparisons. *)
Ltac cells :=
  unfold inRoom, atb;
  repeat match goal with
  | |- context [?a <=? ?b] => destruct (Z.leb_spec a b)
  | |- context [?a <? ?b] => destruct (Z.ltb_spec a b)
  | |- context [?a =? ?b] => destruct (Z.eqb_spec a b)
  end; first [reflexivity | exfalso; lia].

Section CarveRoom.
Context (s0 : Game) (f : Z -> Z -> Z) (x y w h : Z) (X : Game -> Prop).
Context (Ex : room_x s0 = x) (Ey : room_y s0 = y).
Context (Ew : room_w s0 = w) (Eh : room_h s0 = h).
Context (Hx : 0 <= x) (Hw : 0 <= w) (Hxw : x + w <= 16).
Context (Hy : 0 <= y) (Hh : 0 <= h) (Hyh : y + h <= 10).

(** The first [r] rows and the first [k] cells of the next one. *)
Let dug (r k c' r' : Z) : Z :=
  if inRoom x y w r c' r' || inRoom x (y + r) k 1 c' r' then TILE_EMPTY
  else f c' r'.

Lemma carve_cell r c u :
  0 <= r < h -> 0 <= c < w -> drawn s0 (dug r c) u ->
  wp (upd (fun s => set_gTgtCol (u8 (room_x s + c)) s) ;;
      upd (fun s => set_gTgtRow (u8 (room_y s + r)) s) ;;
      SetTile TILE_EMPTY) (fun _ => drawn s0 (dug r (c + 1))) X u.
Proof.
  intros Hr Hc Hu. wp_steps.
  destruct (drawn_scratch _ _ _ Hu) as (E1 & E2 & _).
  change (room_y (set_gTgtCol _ u)) with (room_y u). rewrite E1, E2, Ex, Ey.
  rewrite !u8_small by lia.
  eapply wp_mono; [apply (drawn_SetTile s0 _ u (x + c) (y + r) TILE_EMPTY X Hu);
    [unfold on_grid; lia|unfold TILE_EMPTY; lia]| |done].
  intros ? v Hv. refine (drawn_ext _ _ _ _ Hv _). intros c' r' _. unfold dug.
  replace (inRoom x (y + r) (c + 1) 1 c' r')
    with (inRoom x (y + r) c 1 c' r' || atb c' r' (x + c) (y + r)) by cells.
  by destruct (inRoom x y w r c' r'), (inRoom x (y + r) c 1 c' r'),
    (atb c' r' (x + c) (y + r)).
Qed.

(** [CarveRoom] empties exactly the cells of the room. *)
Lemma wp_CarveRoom s :
  drawn s0 f s ->
  wp CarveRoom
    (fun _ => drawn s0 (fun c r => if inRoom x y w h c r then TILE_EMPTY else f c r))
    X s.
Proof.
  intros Hd. unfold CarveRoom. wp_step. wp_step.
  destruct (drawn_scratch _ _ _ Hd) as (_ & _ & E1 & E2).
  rewrite E1, E2, Ew, Eh. clear E1 E2.
  apply (wp_each_seq _ _ _ (fun r => drawn s0 (dug r 0))); [lia| | |].
  - refine (drawn_ext _ _ _ _ Hd _). intros c r Hg. unfold dug.
    by replace (inRoom x y w 0 c r || inRoom x (y + 0) 0 1 c r) with false by cells.
  - intros r u Hr Hu. apply (wp_each_seq _ _ _ (fun k => drawn s0 (dug r k))); [lia|exact Hu| |].
    + intros c v Hc Hv. apply carve_cell; [lia|lia|exact Hv].
    + intros v Hv. refine (drawn_ext _ _ _ _ Hv _). intros c' r' _. unfold dug.
      replace (inRoom x y w (r + 1) c' r' || inRoom x (y + (r + 1)) 0 1 c' r')
        with (inRoom x y w r c' r' || inRoom x (y + r) (0 + w) 1 c' r') by cells.
      done.
  - intros u Hu. refine (drawn_ext _ _ _ _ Hu _). intros c' r' _. unfold dug.
    by replace (inRoom x y w (0 + h) c' r' || inRoom x (y + (0 + h)) 0 1 c' r')
      with (inRoom x y w h c' r') by cells.
Qed.
End CarveRoom.
