(* ===== verification/RogueXpFacts.v ===== *)
(** * RogueXpFacts: messages and experience

    Messages only change the message state, so the experience countdowns that
    announce themselves can be described by pure functions; the countdowns are
    then shown to compute divisions of the kill count.  The message ring is a
    bounded queue. *)

From S2P Require Import Prelude RogueState RogueMsg RogueMon RogueItem RogueMain RogueInv RogueMapFacts RogueMap.
From stdpp Require Import base list numbers option decidable strings.

Open Scope Z_scope.

(** ** Messages *)

(** [u] is [s] after some messages, sounds and drawing. *)
Definition chat (s u : Game) : Prop :=
  exists a h n c o,
    u = set_out o (set_gHistCount c (set_gHistNext n (set_gHist h (set_gLine a s)))) /\
    (hist_ok (gHist s) (gHistNext s) (gHistCount s) -> hist_ok h n c) /\
    (gLine s <> EmptyString -> a <> EmptyString).

Lemma chat_refl s : chat s s.
Proof.
  exists (gLine s), (gHist s), (gHistNext s), (gHistCount s), (out s).
  split; [by destruct s|auto].
Qed.

Lemma chat_trans s u v : chat s u -> chat u v -> chat s v.
Proof.
  intros (a & h & n & c & o & -> & H1 & H2) (a' & h' & n' & c' & o' & -> & H3 & H4).
  exists a', h', n', c', o'. split; [done|]. split; auto.
Qed.

(** A change of other fields can be made before or after the chatter. *)
Lemma chat_under (f : Game -> Game) s u :
  (forall a h n c o v,
     f (set_out o (set_gHistCount c (set_gHistNext n (set_gHist h (set_gLine a v)))))
     = set_out o (set_gHistCount c (set_gHistNext n (set_gHist h (set_gLine a (f v)))))) ->
  (forall v, gHist (f v) = gHist v /\ gHistNext (f v) = gHistNext v /\
             gHistCount (f v) = gHistCount v /\ gLine (f v) = gLine v) ->
  chat s u -> chat (f s) (f u).
Proof.
  intros Hf Hk (a & h & n & c & o & -> & H1 & H2). exists a, h, n, c, o.
  destruct (Hk s) as (E1 & E2 & E3 & E4). rewrite E1, E2, E3, E4, Hf. auto.
Qed.

Lemma chat_shape s u : chat s u -> shape s -> shape u.
Proof. intros (a & h & n & c & o & -> & H1 & _) Hs. wf_set. by apply H1. Qed.

Lemma chat_hero s u : chat s u -> hero s -> hero u.
Proof. intros (a & h & n & c & o & -> & _) Hs. wf_set. Qed.

Lemma chat_wf p t s u : chat s u -> wf p t s -> wf p t u.
Proof.
  intros Hc Hs. split.
  - by eapply chat_shape, Hs.
  - by eapply chat_hero, Hs.
  - destruct Hc as (a & h & n & c & o & -> & _). apply Hs.
  - destruct Hc as (a & h & n & c & o & -> & _ & H). intros Ht. by apply H, Hs.
Qed.

Lemma strncpy_nonempty n u : (0 < n)%nat -> u <> EmptyString -> strncpy n u <> EmptyString.
Proof. intros Hn Hu. destruct n; [lia|]. by destruct u. Qed.

Lemma append_nonempty a c : a <> EmptyString -> a +:+ c <> EmptyString.
Proof. by destruct a. Qed.

Lemma ring_step n : 0 <= s16 ((n + 1) mod MSG_HIST) < 24.
Proof.
  unfold MSG_HIST. pose proof (Z.mod_pos_bound (n + 1) 24 ltac:(lia)).
  rewrite s16_small by lia. lia.
Qed.

Section Chatter.
Context (X : Game -> Prop).

Lemma chat_emit e s : wp (emit e) (fun _ => chat s) X s.
Proof.
  exists (gLine s), (gHist s), (gHistNext s), (gHistCount s), (e :: out s).
  split; [by destruct s|auto].
Qed.

Lemma chat_line a s : a <> EmptyString -> chat s (set_gLine a s).
Proof.
  intros Ha. exists a, (gHist s), (gHistNext s), (gHistCount s), (out s).
  split; [by destruct s|auto].
Qed.

Lemma chat_push u s :
  hist_ok (gHist s) (gHistNext s) (gHistCount s) ->
  wp (HistPush u) (fun _ => chat s) X s.
Proof.
  intros Hok. pose proof Hok as (Hl & Hn & Hc). unfold HistPush.
  apply wp_if; intros; [apply chat_refl|]. wp_steps.
  apply wp_aset; [apply rd_Some; lia|].
  set (h := wr (gHist s) (gHistNext s) (strncpy MSG_WIDTH u)).
  set (n := s16 ((gHistNext s + 1) mod MSG_HIST)).
  assert (Hw : forall c, 0 <= c <= 24 -> chat s
            (set_gHistCount c (set_gHistNext n (set_gHist h s)))).
  { intros c Hc'. exists (gLine s), h, n, c, (out s).
    split; [destruct s; reflexivity|]. split; [intros _|done].
    split; [by unfold h; rewrite wr_length|]. split; [apply ring_step|exact Hc']. }
  wp_steps; cbn [gHistCount set_gHistNext set_gHist] in *; unfold MSG_HIST in *.
  - unbool. apply (Hw (s16 (gHistCount s + 1))). rewrite s16_small; lia.
  - replace (set_gHistNext _ (set_gHist _ s))
      with (set_gHistCount (gHistCount s) (set_gHistNext n (set_gHist h s)))
      by (destruct s; reflexivity).
    apply Hw. lia.
Qed.

Lemma chat_Msg u s :
  hist_ok (gHist s) (gHistNext s) (gHistCount s) ->
  wp (Msg u) (fun _ => chat s) X s.
Proof.
  intros Hok. unfold Msg. apply wp_if; intros Eu; [apply chat_refl|]. unbool.
  apply wp_bind. eapply wp_mono; [by apply chat_push| |done].
  intros ? r Hr. wp_steps; (eapply chat_trans; [exact Hr|]); apply chat_line;
    try (apply strncpy_nonempty; [unfold MSG_WIDTH; lia|done]).
  apply append_nonempty. intros E. rewrite E in *. done.
Qed.

Lemma chat_Msg2 a b s :
  hist_ok (gHist s) (gHistNext s) (gHistCount s) ->
  wp (Msg2 a b) (fun _ => chat s) X s.
Proof. apply chat_Msg. Qed.
End Chatter.

Lemma chat_hist s u :
  chat s u -> hist_ok (gHist s) (gHistNext s) (gHistCount s) ->
  hist_ok (gHist u) (gHistNext u) (gHistCount u).
Proof. by intros (a & h & n & c & o & -> & H & _). Qed.

(** A message followed by a sound. *)
Lemma chat_announce X u e s :
  hist_ok (gHist s) (gHistNext s) (gHistCount s) ->
  wp (Msg u ;; SfxPlay e) (fun _ => chat s) X s.
Proof.
  intros Hok. apply wp_bind. eapply wp_mono; [by apply chat_Msg| |done].
  intros ? v Hv. eapply wp_mono; [apply chat_emit| |done].
  intros ? w Hw. exact (chat_trans _ _ _ Hv Hw).
Qed.

(** ** The countdowns as functions *)

Definition recompute (s : Game) : Game :=
  set_gPlayerDef (u8 ((if gArmorTimer s <>? 0 then gArmorBoost s else 0)
                      + gXpDefBonus s))
    (set_gPlayerDmg (u8 ((if gWeaponTimer s <>? 0 then gWeaponBoost s else 1)
                         + gXpAtkBonus s)) s).

Definition tickHp (s : Game) : Game :=
  let k := u8 (gHpTick s - 1) in
  if k =? 0
  then
    let m := u8 (gHpMax s + 1) in
    set_gHp (if gHp s <? m then u8 (gHp s + 1) else gHp s)
      (set_gHpMax m (set_gHpTick 5 s))
  else set_gHpTick k s.

Definition tickAtk (s : Game) : Game :=
  let k := u8 (gAtkTick s - 1) in
  if k =? 0
  then recompute (set_gXpAtkBonus (u8 (gXpAtkBonus s + 1)) (set_gAtkTick 10 s))
  else set_gAtkTick k s.

Definition tickDef (s : Game) : Game :=
  let k := u8 (gDefTick s - 1) in
  if k =? 0
  then recompute (set_gXpDefBonus (u8 (gXpDefBonus s + 1)) (set_gDefTick 20 s))
  else set_gDefTick k s.

(** The state after a kill is credited. *)
Definition award (s : Game) : Game :=
  if gPlayerXp s =? 0xFF then s
  else tickDef (tickAtk (tickHp (set_gPlayerXp (u8 (gPlayerXp s + 1)) s))).

Lemma wp_Recompute (Q : () -> Game -> Prop) X s :
  Q tt (recompute s) -> wp RecomputePlayerStats Q X s.
Proof. done. Qed.

Section Ticks.
Context (X : Game -> Prop).
Implicit Types s : Game.

Lemma hpTick_run s :
  hist_ok (gHist s) (gHistNext s) (gHistCount s) ->
  wp hpTick (fun _ => chat (tickHp s)) X s.
Proof.
  intros Hok. unfold hpTick, tickHp. wp_step. wp_step. wp_step. wp_step.
  apply wp_when; intros E; cbn -[u8 Z.add Z.sub] in E; rewrite E; [|apply chat_refl].
  wp_step. wp_step. wp_step. wp_step. wp_step. wp_step. wp_step.
  apply wp_when; intros E2; cbn -[u8 Z.add Z.sub] in E2; rewrite E2.
  - wp_step. eapply wp_mono; [by apply chat_announce| |done].
    intros ? v Hv. exact Hv.
  - eapply wp_mono; [by apply chat_announce| |done]. intros ? v Hv.
    assert (Eq : set_gHp (gHp s) (set_gHpMax (u8 (gHpMax s + 1)) (set_gHpTick 5 s))
                 = set_gHpMax (u8 (gHpMax s + 1)) (set_gHpTick 5 s)) by (by destruct s).
    rewrite Eq. exact Hv.
Qed.

Lemma atkTick_run s :
  hist_ok (gHist s) (gHistNext s) (gHistCount s) ->
  wp atkTick (fun _ => chat (tickAtk s)) X s.
Proof.
  intros Hok. unfold atkTick, tickAtk. wp_step. wp_step. wp_step. wp_step.
  apply wp_when; intros E; cbn -[u8 Z.add Z.sub] in E; rewrite E; [|apply chat_refl].
  do 5 wp_step. apply wp_Recompute.
  exact (chat_announce X _ _ (recompute (set_gXpAtkBonus (u8 (gXpAtkBonus s + 1))
                                           (set_gAtkTick 10 s))) Hok).
Qed.

Lemma defTick_run s :
  hist_ok (gHist s) (gHistNext s) (gHistCount s) ->
  wp defTick (fun _ => chat (tickDef s)) X s.
Proof.
  intros Hok. unfold defTick, tickDef. wp_step. wp_step. wp_step. wp_step.
  apply wp_when; intros E; cbn -[u8 Z.add Z.sub] in E; rewrite E; [|apply chat_refl].
  do 5 wp_step. apply wp_Recompute.
  exact (chat_announce X _ _ (recompute (set_gXpDefBonus (u8 (gXpDefBonus s + 1))
                                           (set_gDefTick 20 s))) Hok).
Qed.
End Ticks.

(** The countdowns do not look at the messages. *)
Ltac tick_commutes f :=
  intros; unfold f; cbn -[u8 Z.add Z.sub Z.eqb];
  match goal with |- context [if ?b then _ else _] => destruct b end;
  repeat split; reflexivity.

Lemma tickAtk_chat s u : chat s u -> chat (tickAtk s) (tickAtk u).
Proof. apply chat_under; tick_commutes tickAtk. Qed.

Lemma tickDef_chat s u : chat s u -> chat (tickDef s) (tickDef u).
Proof. apply chat_under; tick_commutes tickDef. Qed.

Lemma AwardXp_run X s :
  hist_ok (gHist s) (gHistNext s) (gHistCount s) ->
  wp AwardXp (fun _ => chat (award s)) X s.
Proof.
  intros Hok. unfold AwardXp, award. wp_step. wp_step.
  apply wp_if; intros E; rewrite E; [apply chat_refl|].
  wp_step. wp_step. wp_step.
  eapply wp_mono; [by apply hpTick_run| |done]. intros ? u Hu. wp_step.
  assert (Hok1 : hist_ok (gHist u) (gHistNext u) (gHistCount u)).
  { apply (chat_hist _ _ Hu). unfold tickHp. by destruct (_ =? 0). }
  eapply wp_mono; [by apply atkTick_run| |done]. intros ? v Hv.
  assert (Hok2 : hist_ok (gHist v) (gHistNext v) (gHistCount v)).
  { apply (chat_hist _ _ Hv). unfold tickAtk. by destruct (_ =? 0). }
  eapply wp_mono; [by apply defTick_run| |done]. intros ? w Hw.
  apply (chat_trans _ (tickDef v)); [|exact Hw]. apply tickDef_chat.
  apply (chat_trans _ (tickAtk u)); [|exact Hv]. by apply tickAtk_chat.
Qed.

(** ** Countdowns divide *)

Lemma div_step x P : 0 <= x -> 0 < P ->
  (P - x mod P - 1 = 0 -> (x + 1) / P = x / P + 1 /\ (x + 1) mod P = 0) /\
  (P - x mod P - 1 <> 0 -> (x + 1) / P = x / P /\ (x + 1) mod P = x mod P + 1).
Proof.
  intros Hx HP. pose proof (Z.mod_pos_bound x P HP) as Hm.
  pose proof (Z.div_mod x P ltac:(lia)) as Hd. split; intros H.
  - assert ((x + 1) = (x / P + 1) * P + 0) as E by nia.
    split; [symmetry; apply (Z.div_unique _ P _ 0); lia
           |symmetry; apply (Z.mod_unique _ P (x / P + 1)); lia].
  - assert ((x + 1) = (x / P) * P + (x mod P + 1)) as E by nia.
    split; [symmetry; apply (Z.div_unique _ P _ (x mod P + 1)); lia
           |symmetry; apply (Z.mod_unique _ P (x / P)); lia].
Qed.

(** One countdown of period [P]: [tick] and [bonus] after a kill. *)
Lemma countdown x P tick bonus base :
  0 <= x < 255 -> 5 <= P <= 20 -> bonus = base + x / P -> tick = P - x mod P ->
  0 <= base <= 14 ->
  let k := u8 (tick - 1) in
  if k =? 0
  then P = P - (x + 1) mod P /\ u8 (bonus + 1) = base + (x + 1) / P
  else k = P - (x + 1) mod P /\ bonus = base + (x + 1) / P.
Proof.
  intros Hx HP -> -> Hb. cbv zeta. pose proof (Z.mod_pos_bound x P ltac:(lia)).
  rewrite u8_small by lia.
  destruct (div_step x P ltac:(lia) ltac:(lia)) as [H0 H1].
  destruct (Z.eqb_spec (P - x mod P - 1) 0) as [E|E].
  - destruct (H0 E) as [-> ->]. split; [lia|].
    assert (0 <= x / P <= 51)
      by (split; [apply Z.div_pos; lia|apply Z.div_le_upper_bound; nia]).
    rewrite u8_small; lia.
  - destruct (H1 E) as [-> ->]. lia.
Qed.

(** Each countdown changes its own counter and bonus and no other. *)
Lemma tickHp_fields s :
  let k := u8 (gHpTick s - 1) in
  gHpTick (tickHp s) = (if k =? 0 then 5 else k) /\
  gHpMax (tickHp s) = (if k =? 0 then u8 (gHpMax s + 1) else gHpMax s) /\
  gPlayerXp (tickHp s) = gPlayerXp s /\
  gAtkTick (tickHp s) = gAtkTick s /\ gXpAtkBonus (tickHp s) = gXpAtkBonus s /\
  gDefTick (tickHp s) = gDefTick s /\ gXpDefBonus (tickHp s) = gXpDefBonus s.
Proof. cbv zeta. unfold tickHp. by destruct (_ =? 0). Qed.

Lemma tickAtk_fields s :
  let k := u8 (gAtkTick s - 1) in
  gAtkTick (tickAtk s) = (if k =? 0 then 10 else k) /\
  gXpAtkBonus (tickAtk s) = (if k =? 0 then u8 (gXpAtkBonus s + 1) else gXpAtkBonus s) /\
  gPlayerXp (tickAtk s) = gPlayerXp s /\
  gHpTick (tickAtk s) = gHpTick s /\ gHpMax (tickAtk s) = gHpMax s /\
  gDefTick (tickAtk s) = gDefTick s /\ gXpDefBonus (tickAtk s) = gXpDefBonus s.
Proof. cbv zeta. unfold tickAtk. by destruct (_ =? 0). Qed.

Lemma tickDef_fields s :
  let k := u8 (gDefTick s - 1) in
  gDefTick (tickDef s) = (if k =? 0 then 20 else k) /\
  gXpDefBonus (tickDef s) = (if k =? 0 then u8 (gXpDefBonus s + 1) else gXpDefBonus s) /\
  gPlayerXp (tickDef s) = gPlayerXp s /\
  gHpTick (tickDef s) = gHpTick s /\ gHpMax (tickDef s) = gHpMax s /\
  gAtkTick (tickDef s) = gAtkTick s /\ gXpAtkBonus (tickDef s) = gXpAtkBonus s.
Proof. cbv zeta. unfold tickDef. by destruct (_ =? 0). Qed.

(** The three countdowns together. *)
Lemma award_growth s :
  hero s ->
  gPlayerXp (award s) = (if gPlayerXp s =? 255 then 255 else gPlayerXp s + 1) /\
  growth_ok (gPlayerXp (award s)) (gHpMax (award s)) (gXpAtkBonus (award s))
    (gXpDefBonus (award s)) (gHpTick (award s)) (gAtkTick (award s))
    (gDefTick (award s)).
Proof.
  intros Hh. pose proof (he_growth _ Hh) as Hg. unfold award.
  destruct (Z.eqb_spec (gPlayerXp s) 255) as [E|Hx]; [by split|].
  destruct Hg as (Hb & Em & Ea & Ed & Et1 & Et2 & Et3).
  unfold byte in Hb. rewrite u8_small by lia.
  set (s1 := set_gPlayerXp (gPlayerXp s + 1) s).
  destruct (tickHp_fields s1) as (A1 & A2 & A3 & A4 & A5 & A6 & A7).
  destruct (tickAtk_fields (tickHp s1)) as (B1 & B2 & B3 & B4 & B5 & B6 & B7).
  destruct (tickDef_fields (tickAtk (tickHp s1))) as (C1 & C2 & C3 & C4 & C5 & C6 & C7).
  assert (Ex : gPlayerXp (tickDef (tickAtk (tickHp s1))) = gPlayerXp s + 1) by (by rewrite C3, B3, A3).
  rewrite Ex. split; [done|].
  rewrite C5, B5, A2, C7, B2, A4, A5, C2, B6, B7, A6, A7, C4, B4, A1, C6, B1, C1, A4, B6, A6.
  change (gHpTick s1) with (gHpTick s). change (gHpMax s1) with (gHpMax s).
  change (gAtkTick s1) with (gAtkTick s). change (gXpAtkBonus s1) with (gXpAtkBonus s).
  change (gDefTick s1) with (gDefTick s). change (gXpDefBonus s1) with (gXpDefBonus s).
  pose proof (countdown (gPlayerXp s) 5 (gHpTick s) (gHpMax s) 14) as H1.
  pose proof (countdown (gPlayerXp s) 10 (gAtkTick s) (gXpAtkBonus s) 0) as H2.
  pose proof (countdown (gPlayerXp s) 20 (gDefTick s) (gXpDefBonus s) 0) as H3.
  cbv zeta in H1, H2, H3. unfold growth_ok, byte, HP_MAX in *.
  specialize (H1 ltac:(lia) ltac:(lia) Em Et1 ltac:(lia)).
  specialize (H2 ltac:(lia) ltac:(lia) ltac:(lia) Et2 ltac:(lia)).
  specialize (H3 ltac:(lia) ltac:(lia) ltac:(lia) Et3 ltac:(lia)).
  destruct (u8 (gHpTick s - 1) =? 0), (u8 (gAtkTick s - 1) =? 0),
    (u8 (gDefTick s - 1) =? 0); lia.
Qed.

(** The equipment part of [hero]. *)
Record gear (s : Game) : Prop := {
  ge_weapon : buff_ok (gPlayerDmg s) (gWeaponTimer s) (gWeaponBoost s) 1
                (gXpAtkBonus s) WEAPON_DURATION;
  ge_armor : buff_ok (gPlayerDef s) (gArmorTimer s) (gArmorBoost s) 0
               (gXpDefBonus s) ARMOR_DURATION;
  ge_ring : ring_ok (gRingFlags s) (gRingTimer s) (gRingBoost s) (gRegenTick s);
  ge_torch : 0 <= gTorchTimer s <= TORCH_DURATION;
  ge_dagger : 0 <= gDaggerQty s <= DAGGER_QTY_MAX;
  ge_anchor : anchor_ok (gTransMode s) (gWrapAnchor s)
}.

Lemma hero_gear s : hero s -> gear s.
Proof. by intros []. Qed.

(** Recomputing the statistics makes them right, whatever they were. *)
Lemma recompute_buffs s :
  0 <= gWeaponTimer s <= WEAPON_DURATION -> 0 <= gWeaponBoost s <= 5 ->
  0 <= gArmorTimer s <= ARMOR_DURATION -> 0 <= gArmorBoost s <= 5 ->
  0 <= gXpAtkBonus s <= 100 -> 0 <= gXpDefBonus s <= 100 ->
  buff_ok (gPlayerDmg (recompute s)) (gWeaponTimer s) (gWeaponBoost s) 1
    (gXpAtkBonus s) WEAPON_DURATION /\
  buff_ok (gPlayerDef (recompute s)) (gArmorTimer s) (gArmorBoost s) 0
    (gXpDefBonus s) ARMOR_DURATION.
Proof.
  intros. unfold buff_ok, recompute. cbn -[u8 Z.add].
  destruct (gWeaponTimer s <>? 0), (gArmorTimer s <>? 0);
    rewrite !u8_small by lia; split_and!; lia.
Qed.

Lemma gear_recompute s :
  gear s -> 0 <= gXpAtkBonus s <= 100 -> 0 <= gXpDefBonus s <= 100 ->
  forall a d, 0 <= a <= 100 -> 0 <= d <= 100 ->
  forall u, u = set_gXpDefBonus d (set_gXpAtkBonus a s) -> gear (recompute u).
Proof.
  intros [[Hw1 [Hw2 _]] [Ha1 [Ha2 _]] ? ? ? ?] _ _ a d Ha Hd u ->.
  destruct (recompute_buffs (set_gXpDefBonus d (set_gXpAtkBonus a s))) as [W A];
    try assumption.
  split; assumption.
Qed.

Lemma tickHp_gear s : gear s -> gear (tickHp s).
Proof. intros []. unfold tickHp. destruct (_ =? 0); split; assumption. Qed.

Lemma tickAtk_gear s :
  gear s -> 0 <= gXpAtkBonus s < 100 -> 0 <= gXpDefBonus s <= 100 -> gear (tickAtk s).
Proof.
  intros Hg Ha Hd. unfold tickAtk. destruct (_ =? 0).
  - apply (gear_recompute (set_gAtkTick 10 s)) with (a := u8 (gXpAtkBonus s + 1))
      (d := gXpDefBonus s); try (cbn; lia).
    + destruct Hg. split; assumption.
    + rewrite u8_small; lia.
    + by destruct s.
  - destruct Hg. split; assumption.
Qed.

Lemma tickDef_gear s :
  gear s -> 0 <= gXpAtkBonus s <= 100 -> 0 <= gXpDefBonus s < 100 -> gear (tickDef s).
Proof.
  intros Hg Ha Hd. unfold tickDef. destruct (_ =? 0).
  - apply (gear_recompute (set_gDefTick 20 s)) with (a := gXpAtkBonus s)
      (d := u8 (gXpDefBonus s + 1)); try (cbn; lia).
    + destruct Hg. split; assumption.
    + rewrite u8_small; lia.
    + by destruct s.
  - destruct Hg. split; assumption.
Qed.

Lemma tickHp_hp s :
  0 <= gHp s <= gHpMax s -> gHpMax s < 255 -> 0 <= gHp (tickHp s) <= gHpMax (tickHp s).
Proof.
  intros H Hm. unfold tickHp. destruct (_ =? 0); [|exact H].
  change (gHp (set_gHp ?v _)) with v. change (gHpMax (set_gHp _ (set_gHpMax ?m _))) with m.
  rewrite !(u8_small (gHpMax s + 1)) by lia.
  destruct (Z.ltb_spec (gHp s) (gHpMax s + 1)); rewrite ?u8_small; lia.
Qed.

Lemma tickAtk_hp s : gHp (tickAtk s) = gHp s.
Proof. unfold tickAtk. by destruct (_ =? 0). Qed.

Lemma tickDef_hp s : gHp (tickDef s) = gHp s.
Proof. unfold tickDef. by destruct (_ =? 0). Qed.

(** Crediting a kill keeps the player's counters consistent. *)
Lemma award_hero s : hero s -> hero (award s).
Proof.
  intros Hh. destruct (award_growth s Hh) as [_ Hg]. pose proof (hero_gear s Hh) as He.
  destruct (he_growth _ Hh) as (Hb & Em & Ea & Ed & _). unfold byte, HP_MAX in *.
  assert (Ha : 0 <= gXpAtkBonus s < 100 /\ 0 <= gXpDefBonus s < 100 /\ gHpMax s < 255)
    by (Z.to_euclidean_division_equations; lia).
  pose proof (he_hp _ Hh) as Hhp.
  revert Hg. unfold award. destruct (gPlayerXp s =? 255); [done|].
  set (s1 := set_gPlayerXp _ s). intros Hg.
  assert (He1 : gear s1) by (destruct He; split; assumption).
  destruct (tickHp_fields s1) as (_ & _ & _ & _ & A5 & _ & A7).
  destruct (tickAtk_fields (tickHp s1)) as (_ & B2 & _ & _ & B5 & _ & B7).
  destruct (tickDef_fields (tickAtk (tickHp s1))) as (_ & _ & _ & _ & C5 & _).
  assert (He2 : gear (tickDef (tickAtk (tickHp s1)))).
  { apply tickDef_gear; [apply tickAtk_gear; [by apply tickHp_gear|..]|..];
      rewrite ?B7, ?B2, ?A5, ?A7; change (gXpAtkBonus s1) with (gXpAtkBonus s);
      change (gXpDefBonus s1) with (gXpDefBonus s); try lia.
    destruct (_ =? 0); rewrite ?u8_small; lia. }
  destruct He2. split; try assumption.
  assert (Ehp : gHp (tickDef (tickAtk (tickHp s1))) = gHp (tickHp s1)).
  { by rewrite tickDef_hp, tickAtk_hp. }
  rewrite Ehp, C5, B5. apply tickHp_hp; [exact Hhp|]. change (gHpMax s1) with (gHpMax s). lia.
Qed.

(** What crediting a kill leaves alone. *)
Lemma award_shape s : shape s -> shape (award s).
Proof.
  intros Hs. unfold award. destruct (_ =? 255); [done|].
  unfold tickDef. destruct (_ =? 0); unfold tickAtk; destruct (_ =? 0);
    unfold tickHp; destruct (_ =? 0); wf_set.
Qed.

Lemma award_place s :
  gPlayerCol (award s) = gPlayerCol s /\ gPlayerRow (award s) = gPlayerRow s /\
  gLine (award s) = gLine s /\ gTgtCol (award s) = gTgtCol s /\
  gTgtRow (award s) = gTgtRow s /\ gMon (award s) = gMon s.
Proof.
  unfold award. destruct (_ =? 255); [done|].
  assert (A : forall u, gPlayerCol (tickHp u) = gPlayerCol u /\
    gPlayerRow (tickHp u) = gPlayerRow u /\ gLine (tickHp u) = gLine u /\
    gTgtCol (tickHp u) = gTgtCol u /\ gTgtRow (tickHp u) = gTgtRow u /\
    gMon (tickHp u) = gMon u) by (intros u; unfold tickHp; by destruct (_ =? 0)).
  assert (B : forall u, gPlayerCol (tickAtk u) = gPlayerCol u /\
    gPlayerRow (tickAtk u) = gPlayerRow u /\ gLine (tickAtk u) = gLine u /\
    gTgtCol (tickAtk u) = gTgtCol u /\ gTgtRow (tickAtk u) = gTgtRow u /\
    gMon (tickAtk u) = gMon u) by (intros u; unfold tickAtk; by destruct (_ =? 0)).
  assert (C : forall u, gPlayerCol (tickDef u) = gPlayerCol u /\
    gPlayerRow (tickDef u) = gPlayerRow u /\ gLine (tickDef u) = gLine u /\
    gTgtCol (tickDef u) = gTgtCol u /\ gTgtRow (tickDef u) = gTgtRow u /\
    gMon (tickDef u) = gMon u) by (intros u; unfold tickDef; by destruct (_ =? 0)).
  set (s1 := set_gPlayerXp _ s).
  destruct (C (tickAtk (tickHp s1))) as (-> & -> & -> & -> & -> & ->).
  destruct (B (tickHp s1)) as (-> & -> & -> & -> & -> & ->).
  destruct (A s1) as (-> & -> & -> & -> & -> & ->). done.
Qed.

Lemma award_wf p t s : wf p t s -> wf p t (award s).
Proof.
  intros Hs. destruct (award_place s) as (E1 & E2 & E3 & _).
  split; rewrite ?E1, ?E2, ?E3; try apply Hs.
  - apply award_shape, Hs.
  - apply award_hero, Hs.
Qed.

(** Crediting a kill: from consistent counters, [AwardXp] returns with the
    kill count one higher (saturating at 255) and the three countdowns have
    computed the divisions they replace, HP_MAX + kills/5, kills/10 and
    kills/20, without overflow; current HP stays within the new maximum and the
    derived statistics match the buffs. *)
Theorem AwardXp_divides s :
  shape s -> hero s ->
  exists u, AwardXp s = Ok tt u /\ hero u /\
    gPlayerXp u = Z.min 255 (gPlayerXp s + 1) /\
    gHpMax u = HP_MAX + gPlayerXp u / 5 /\ gXpAtkBonus u = gPlayerXp u / 10 /\
    gXpDefBonus u = gPlayerXp u / 20 /\ 0 <= gHp u <= gHpMax u.
Proof.
  intros Hs Hh.
  destruct (wp_total _ _ _ _ (AwardXp_run (fun _ => False) s (sh_hist _ Hs)) (fun _ H => H))
    as ([] & u & E & Hc).
  exists u. split; [exact E|]. pose proof (chat_hero _ _ Hc (award_hero s Hh)) as Hu.
  destruct (award_growth s Hh) as [Ex _].
  assert (Exu : gPlayerXp u = gPlayerXp (award s))
    by (by destruct Hc as (a & h & n & c & o & -> & _)).
  destruct (he_growth _ Hu) as (Hb & E1 & E2 & E3 & _).
  split_and!; try assumption; try apply (he_hp _ Hu).
  rewrite Exu, Ex. destruct (he_growth _ Hh) as (Hb' & _). unfold byte in Hb'.
  destruct (Z.eqb_spec (gPlayerXp s) 255); lia.
Qed.

(** ** Starting a game *)

(** What [newGame] leaves untouched. *)
Definition same_setting (s u : Game) : Prop :=
  gLine u = gLine s /\ gBossCheat u = gBossCheat s /\ input u = input s.

Lemma clear_bag_keeps s :
  shape s ->
  wp (each (seqZ 0 INV_COUNT) (fun i => aset gInv set_gInv i InvSlot0))
    (fun _ u => shape u /\ gTransMode u = gTransMode s /\ gHp u = gHp s /\
                gWrapAnchor u = gWrapAnchor s /\ same_setting s u)
    (fun _ => False) s.
Proof.
  intros Hs. apply wp_each; [|by split_and!].
  intros i u Hi (Hu & E). apply elem_of_seqZ in Hi. unfold INV_COUNT in Hi.
  pose proof (sh_inv _ Hu) as [Hl Hf]. apply wp_aset; [apply rd_Some; lia|].
  split; [|exact E]. wf_set. split; [cbn; by rewrite wr_length|]. apply wr_Forall; [done|].
  unfold slot_ok, byte. cbn. lia.
Qed.

(** [newGame] gives the player consistent counters, whatever the last game left. *)
Lemma newGame_run s :
  shape s ->
  wp newGame (fun _ u => shape u /\ hero u /\ same_setting s u) (fun _ => False) s.
Proof.
  intros Hs. unfold newGame, InitInventory. wp_steps.
  eapply wp_mono; [apply clear_bag_keeps; wf_set; unfold byte; cbn; lia| |done].
  intros ? u (Hu & Em & Eh & Ea & El). cbn in Em, Eh.
  do 36 wp_step. apply wp_Recompute. split; [wf_set|]. split; [|exact El].
  unfold recompute. split; cbn -[u8 Z.add Z.div Z.modulo];
    unfold growth_ok, buff_ok, ring_ok, anchor_ok, byte; rewrite ?Em, ?Eh;
    unfold HP_MAX, WEAPON_DURATION, ARMOR_DURATION, RING_REGEN_PERIOD,
      TORCH_DURATION, DAGGER_QTY_MAX;
    rewrite ?Z.div_0_l, ?Z.mod_0_l by lia; try lia;
    rewrite u8_small by lia; cbn; lia.
Qed.

(** A concrete well-formed state: the one [RogueRun] starts a game in. *)
Definition freshGame (keys : list Input) (clock : Z) : Game :=
  match newGame (bootGame keys clock) with
  | Ok _ s => s
  | _ => bootGame keys clock
  end.

Lemma boot_vdp : vdp_ok bootVdp.
Proof.
  split; cbn [gName gCellFg gBigText gBigCount gSat gSatCount saved bootVdp]; try lia;
    (split; [by rewrite length_replicate|apply Forall_replicate]);
    unfold big_ok, sat_ok, byte; cbn; lia.
Qed.

Lemma boot_shape keys clock : shape (bootGame keys clock).
Proof.
  split; cbn [gMap gVis gMon gItem gInv gTgtCol gTgtRow gPrngLo gPrngHi gHist
    gHistNext gHistCount gDepth gLastAttacker room_x room_y cx cy prev_cx prev_cy bootGame];
    unfold cells_ok, mons_ok, items_ok, bag_ok, hist_ok, byte;
    rewrite ?length_replicate; try lia.
  - split; [done|]. apply Forall_replicate. lia.
  - split; [done|]. apply Forall_replicate. unfold mon_ok, byte, on_grid. cbn. lia.
  - split; [done|]. apply Forall_replicate. unfold item_ok, on_grid. cbn. lia.
  - split; [done|]. apply Forall_replicate. unfold slot_ok, byte. cbn. lia.
  - exact boot_vdp.
Qed.

Lemma fresh_ok keys clock : shape (freshGame keys clock) /\ hero (freshGame keys clock).
Proof.
  destruct (wp_total _ _ _ _ (newGame_run _ (boot_shape keys clock)) (fun _ H => H))
    as ([] & u & E & Hs & Hh & _).
  unfold freshGame. rewrite E. by split.
Qed.

Lemma AwardXp_divides_witness :
  exists u, AwardXp (freshGame [] 0) = Ok tt u /\ gHpMax u = 14 /\ gPlayerXp u = 1.
Proof.
  destruct (AwardXp_divides (freshGame [] 0)) as (u & E & _ & Ex & Em & _).
  - apply fresh_ok.
  - apply fresh_ok.
  - exists u. split; [exact E|]. rewrite Em, Ex. split; vm_compute; reflexivity.
Defined.

(** ** The message ring *)

Module RogueMsgFacts.

(** The messages [MsgHist] answers, the most recent first. *)
Definition history (s : Game) : list string :=
  map (fun i => MsgHist i s) (seqZ 0 (MsgHistCount s)).

Definition ring_ok (s : Game) : Prop := hist_ok (gHist s) (gHistNext s) (gHistCount s).

(** The slot of the [i]-th most recent message. *)
Definition slotOf (next i : Z) : Z := (next - 1 - i) mod 24.

Lemma MsgHist_slot i s :
  ring_ok s -> 0 <= i < gHistCount s ->
  MsgHist i s = default EmptyString (rd (gHist s) (slotOf (gHistNext s) i)).
Proof.
  intros (_ & Hn & Hc) Hi. unfold MsgHist, MSG_HIST, slotOf.
  rewrite (proj2 (Z.ltb_ge i 0)), (proj2 (Z.leb_gt (gHistCount s) i)) by lia. cbn [orb].
  replace (gHistNext s - 1 - i + 24 * 2) with (gHistNext s - 1 - i + 2 * 24) by lia.
  rewrite Z.mod_add by lia.
  pose proof (Z.mod_pos_bound (gHistNext s - 1 - i) 24 ltac:(lia)).
  by rewrite s16_small by lia.
Qed.

(** The state after a push. *)
Definition pushed (t : string) (s : Game) : Game :=
  set_gHistCount (Z.min 24 (gHistCount s + 1))
    (set_gHistNext ((gHistNext s + 1) mod 24)
       (set_gHist (wr (gHist s) (gHistNext s) (strncpy MSG_WIDTH t)) s)).

Lemma HistPush_run t s : t <> EmptyString -> ring_ok s -> HistPush t s = Ok tt (pushed t s).
Proof.
  intros Ht (Hl & Hn & Hc). unfold HistPush. rewrite bool_decide_eq_false_2 by exact Ht.
  unfold mbind, M_bind, get, aset, upd, when, MSG_HIST.
  destruct (rd_Some (gHist s) (gHistNext s)) as [v ->]; [lia|].
  cbn [gHistCount gHistNext set_gHist set_gHistNext].
  pose proof (Z.mod_pos_bound (gHistNext s + 1) 24 ltac:(lia)).
  unfold pushed. rewrite (s16_small (_ mod _)) by lia.
  destruct (Z.ltb_spec (gHistCount s) 24).
  - cbn [gHistCount set_gHist set_gHistNext].
    rewrite (s16_small (gHistCount s + 1)) by lia. by rewrite Z.min_r by lia.
  - rewrite Z.min_l by lia. destruct s. cbn in *. by replace gHistCount with 24 by lia.
Qed.

Lemma pushed_ok t s : ring_ok s -> ring_ok (pushed t s).
Proof.
  intros (Hl & Hn & Hc). unfold ring_ok, hist_ok, pushed.
  cbn [gHist gHistNext gHistCount set_gHist set_gHistNext set_gHistCount].
  rewrite wr_length. pose proof (Z.mod_pos_bound (gHistNext s + 1) 24 ltac:(lia)). lia.
Qed.

(** The new message is in front, the others move back by one. *)
Lemma slot_front next : 0 <= next < 24 -> slotOf ((next + 1) mod 24) 0 = next.
Proof.
  intros Hn. unfold slotOf.
  replace ((next + 1) mod 24 - 1 - 0) with ((next + 1) mod 24 - 1) by lia.
  rewrite Zminus_mod_idemp_l. replace (next + 1 - 1) with next by lia. by apply Z.mod_small.
Qed.

Lemma slot_back next i : slotOf ((next + 1) mod 24) (i + 1) = slotOf next i.
Proof.
  unfold slotOf.
  replace ((next + 1) mod 24 - 1 - (i + 1)) with ((next + 1) mod 24 - (i + 2)) by lia.
  rewrite Zminus_mod_idemp_l. f_equal. lia.
Qed.

Lemma slot_differs next i : 0 <= next < 24 -> 0 <= i < 23 -> slotOf next i <> next.
Proof.
  intros Hn Hi E. unfold slotOf in E.
  pose proof (Z.div_mod (next - 1 - i) 24 ltac:(lia)). lia.
Qed.

Lemma pushed_history t s :
  ring_ok s -> history (pushed t s) = take 24 (strncpy MSG_WIDTH t :: history s).
Proof.
  intros Hr. pose proof Hr as (Hl & Hn & Hc). pose proof (pushed_ok t s Hr) as Hp.
  apply list_eq. intros i. unfold history, MsgHistCount.
  change (gHistCount (pushed t s)) with (Z.min 24 (gHistCount s + 1)).
  destruct (decide (Z.of_nat i < Z.min 24 (gHistCount s + 1))) as [Hi|Hi].
  - rewrite lookup_take_lt, list_lookup_fmap, lookup_seqZ_lt by lia. cbn [fmap option_fmap].
    rewrite Z.add_0_l. cbn [option_map].
    rewrite (MsgHist_slot _ _ Hp)
      by (change (gHistCount (pushed t s)) with (Z.min 24 (gHistCount s + 1)); lia).
    unfold pushed.
    cbn [gHist gHistNext set_gHist set_gHistNext set_gHistCount].
    destruct i as [|i].
    + change (Z.of_nat 0) with 0. rewrite slot_front by lia.
      rewrite rd_wr, Z.eqb_refl by lia. done.
    + rewrite Nat2Z.inj_succ, <- Z.add_1_r, slot_back.
      pose proof (slot_differs (gHistNext s) (Z.of_nat i) Hn ltac:(lia)) as Hd.
      assert (0 <= slotOf (gHistNext s) (Z.of_nat i)) by (apply Z.mod_pos_bound; lia).
      rewrite rd_wr, (proj2 (Z.eqb_neq _ _) Hd) by lia. rewrite <- lookup_tail. cbn [tail].
      rewrite list_lookup_fmap, lookup_seqZ_lt by lia. cbn [fmap option_fmap option_map].
      rewrite Z.add_0_l. by rewrite MsgHist_slot by (done || lia).
  - rewrite !lookup_ge_None_2; [done|..].
    + rewrite length_take. cbn [length]. rewrite length_map, length_seqZ. lia.
    + rewrite length_map, length_seqZ. lia.
Qed.

Lemma strncpy_all n t : (String.length t <= n)%nat -> strncpy n t = t.
Proof.
  unfold strncpy. revert n. induction t as [|c t IH]; intros n Hn; [by destruct n|].
  cbn [String.length] in Hn. destruct n; [lia|]. cbn. f_equal. apply IH. lia.
Qed.

(** The line shown: messages of a turn joined while they fit. *)
Definition joined (line t : string) : string :=
  if Nat.eqb (String.length line) 0 then strncpy MSG_WIDTH t
  else if Nat.leb (String.length line + 1 + String.length t) MSG_WIDTH
  then line +:+ " " +:+ t
  else strncpy MSG_WIDTH t.

Lemma Msg_run t s :
  t <> EmptyString -> ring_ok s ->
  Msg t s = Ok tt (set_gLine (joined (gLine s) t) (pushed t s)).
Proof.
  intros Ht Hr. unfold Msg. rewrite bool_decide_eq_false_2 by exact Ht.
  unfold mbind, M_bind. rewrite HistPush_run by assumption. unfold get.
  change (gLine (pushed t s)) with (gLine s). unfold joined, MSG_WIDTH.
  destruct (Nat.eqb_spec (String.length (gLine s)) 0); [done|].
  destruct (Nat.leb_spec (String.length (gLine s) + 1 + String.length t) 32); [|done].
  by rewrite (strncpy_all (32 - String.length (gLine s) - 1)) by lia.
Qed.

Lemma strncpy_cut n t : (n <= String.length t)%nat -> String.length (strncpy n t) = n.
Proof.
  unfold strncpy. revert n. induction t as [|c t IH]; intros n Hn; cbn [String.length] in Hn.
  - assert (n = 0%nat) as -> by lia. done.
  - destruct n as [|n]; [done|]. cbn. f_equal. apply IH. lia.
Qed.

(** C37. The ring buffer implements a queue of the 24 most recent messages.
    [Msg] always returns.  An empty text changes nothing.  Any other text goes
    in front of the history [MsgHist] answers, whole when it has at most 32
    characters and cut to its first 32 otherwise; the oldest message is dropped
    only when 24 are held; and the text is joined to the message line when it
    fits. *)
Theorem message_history (t : string) (s : Game)
  (Hr : hist_ok (gHist s) (gHistNext s) (gHistCount s)) :
  exists u kept, Msg t s = Ok tt u /\
    hist_ok (gHist u) (gHistNext u) (gHistCount u) /\
    ((String.length t <= 32)%nat -> kept = t) /\
    ((32 < String.length t)%nat -> kept = String.substring 0 32 t /\ String.length kept = 32%nat) /\
    (t = EmptyString -> u = s) /\
    (t <> EmptyString -> history u = take 24 (kept :: history s) /\ MsgLine u = joined (gLine s) t).
Proof.
  assert (HK : ((String.length t <= 32)%nat -> strncpy MSG_WIDTH t = t) /\
    ((32 < String.length t)%nat -> strncpy MSG_WIDTH t = String.substring 0 32 t /\ String.length (strncpy MSG_WIDTH t) = 32%nat)).
  { split; intros H; [by apply strncpy_all|]. split; [done|]. apply strncpy_cut. unfold MSG_WIDTH. lia. }
  destruct HK as [K1 K2]. destruct (decide (t = EmptyString)) as [->|Ht].
  - exists s, (strncpy MSG_WIDTH EmptyString). by split_and!.
  - exists (set_gLine (joined (gLine s) t) (pushed t s)), (strncpy MSG_WIDTH t).
    split; [by apply Msg_run|]. split; [exact (pushed_ok t s Hr)|]. split; [done|]. split; [done|]. split; [done|].
    intros _. split; [exact (pushed_history t s Hr)|done].
Qed.

(** A short text is kept whole; a long one loses its end. *)
Lemma message_history_witness :
  (exists u, Msg "A RAT BITES" (bootGame [] 0) = Ok tt u /\ history u = ["A RAT BITES"%string]) /\
  (exists u, Msg "THE MESSAGE IS TOO LONG FOR ONE ROW" (bootGame [] 0) = Ok tt u /\
     history u = ["THE MESSAGE IS TOO LONG FOR ONE "%string]).
Proof.
  assert (Hb : hist_ok (gHist (bootGame [] 0)) (gHistNext (bootGame [] 0)) (gHistCount (bootGame [] 0)))
    by (vm_compute; repeat split; discriminate).
  split.
  - destruct (message_history "A RAT BITES" (bootGame [] 0) Hb) as (u & k & E & _ & Hk & _ & _ & H).
    exists u. split; [exact E|]. rewrite (proj1 (H ltac:(discriminate))), Hk by (cbn; lia). vm_compute. reflexivity.
  - destruct (message_history "THE MESSAGE IS TOO LONG FOR ONE ROW" (bootGame [] 0) Hb) as (u & k & E & _ & _ & Hk & _ & H).
    exists u. split; [exact E|]. rewrite (proj1 (H ltac:(discriminate))).
    rewrite (proj1 (Hk ltac:(cbn; lia))). vm_compute. reflexivity.
Defined.

End RogueMsgFacts.
