(* ===== verification/RogueSafe.v ===== *)
(** * RogueSafe: every operation keeps the state well formed

    For each function of the game, run from a well-formed state: it performs no
    out-of-bounds access, runs out of no loop bound, and leaves the state well
    formed, whether it returns or abandons the game. *)

From S2P Require Import Prelude.
From S2P Require Import RogueState.
From S2P Require Import RogueMap.
From S2P Require Import RogueMsg.
From S2P Require Import Vdp.
From S2P Require Import RogueDraw.
From S2P Require Import RogueUi.
From S2P Require Import RoguePools.
From S2P Require Import RogueGen.
From S2P Require Import RogueFov.
From S2P Require Import RogueMon.
From S2P Require Import RogueItem.
From S2P Require Import RogueMain.
From S2P Require Import RogueInv.
From S2P Require Import RoguePaint.
From S2P Require Import RogueMapFacts.
From S2P Require Import RogueFindFacts.
From S2P Require Import RogueXpFacts.
From stdpp Require Import base list numbers option decidable strings.

Open Scope Z_scope.

(** ** Arithmetic of the stored values *)

Lemma nibble_range x : 0 <= u8 (x .& 0x0F) < 16.
Proof. pose proof (land_15_range x). rewrite u8_small; lia. Qed.

(** A property of the sixteen nibbles, checked on each. *)
Lemma nibble_check (f : Z -> Z) v :
  all_below 4 (fun x => (0 <=? f x) && (f x <? 16)) = true ->
  0 <= v < 16 -> 0 <= f v < 16.
Proof.
  intros H Hv. pose proof (all_below_sound 4 _ v H Hv) as E. cbn beta in E.
  unbool. lia.
Qed.

Lemma reveal_range v : 0 <= v < 16 -> 0 <= u8 (v .| TILE_REVEAL_BIT) < 16.
Proof. by apply (nibble_check (fun v => u8 (v .| TILE_REVEAL_BIT))). Qed.

Lemma strip_range v :
  0 <= v < 16 -> 0 <= v .& u8 (Z.lnot TILE_REVEAL_BIT) < 16.
Proof. by apply (nibble_check (fun v => v .& u8 (Z.lnot TILE_REVEAL_BIT))). Qed.

#[export] Hint Resolve u8_byte nibble_range reveal_range : pom.

(** ** Elements of the arrays *)

Lemma rd_160 {A} (l : list A) i :
  length l = 160%nat -> 0 <= i < 160 -> is_Some (rd l i).
Proof. intros Hl Hi. apply rd_Some. lia. Qed.

Lemma grid_index c r : on_grid c r -> 0 <= r * LOGICAL_COLS + c < 160.
Proof. unfold on_grid, LOGICAL_COLS. lia. Qed.

Lemma cell_range s i : cells_ok (gMap s) -> 0 <= cell s i < 16.
Proof.
  intros [_ H]. unfold cell. destruct (rd (gMap s) i) eqn:E; cbn; [|lia].
  exact (rd_Forall _ _ _ _ H E).
Qed.

Lemma cells_wr l i v : cells_ok l -> 0 <= v < 16 -> cells_ok (wr l i v).
Proof.
  intros [Hl Hf] Hv. split; [by rewrite wr_length|by apply wr_Forall].
Qed.

Section Keeps.
Context (p t : bool).
Implicit Types s : Game.

Abbreviation W := (wf p t).
Abbreviation X := (gone t).

Lemma emit_keeps e : keeps W X (emit e).
Proof. apply shell_keeps. typeclasses eauto. Qed.

Lemma wf_cell i v s : W s -> 0 <= v < 16 -> W (set_cell i v s).
Proof. wf_set. by apply cells_wr. Qed.

Lemma SetTile_keeps tile : keeps W X (SetTile tile).
Proof.
  intros s Hs. unfold SetTile. wp_steps; [exact Hs|].
  apply wf_cell; [exact Hs|apply nibble_range].
Qed.

Lemma MapSet_keeps i v : keeps W X (MapSet i v).
Proof.
  intros s Hs. unfold MapSet. wp_steps; [exact Hs|].
  apply wf_cell; [exact Hs|apply nibble_range].
Qed.

Lemma RevealPit_keeps : keeps W X RevealPitAtTarget.
Proof.
  intros s Hs. unfold RevealPitAtTarget. wp_steps; [exact Hs|].
  apply wf_cell; [exact Hs|]. apply reveal_range, cell_range, Hs.
Qed.

Lemma RandMod_keeps max : 0 < max -> keeps W X (RandMod max).
Proof.
  intros Hm s Hs. apply wp_RandMod; [exact Hm|apply Hs..|].
  intros r lo hi Hr Hl Hh. wf_set.
Qed.

(** The value drawn is in range as well. *)
Lemma RandMod_use max (Q : Z -> Game -> Prop) s :
  0 < max -> W s -> (forall r u, 0 <= r < max -> W u -> Q r u) ->
  wp (RandMod max) Q X s.
Proof.
  intros Hm Hs HQ. apply wp_RandMod; [exact Hm|apply Hs..|].
  intros r lo hi Hr Hl Hh. apply HQ; [exact Hr|]. wf_set.
Qed.

Lemma vis_aset_keeps i v : 0 <= i < 160 -> keeps W X (aset gVis set_gVis i v).
Proof.
  intros Hi s Hs. apply wp_aset; [apply rd_160; [apply Hs|exact Hi]|].
  wf_set. cbn. by rewrite wr_length.
Qed.

Lemma cells_each (body : Z -> M ()) :
  (forall i, 0 <= i < 160 -> keeps W X (body i)) ->
  keeps W X (each (seqZ 0 MAP_CELLS) body).
Proof.
  intros H. apply keeps_each. intros i Hi. apply elem_of_seqZ in Hi.
  apply H. unfold MAP_CELLS in Hi. lia.
Qed.

Lemma cells_each_rev (body : Z -> M ()) :
  (forall i, 0 <= i < 160 -> keeps W X (body i)) ->
  keeps W X (each (rev (seqZ 0 MAP_CELLS)) body).
Proof.
  intros H. apply keeps_each. intros i Hi.
  apply list_elem_of_In, in_rev, list_elem_of_In, elem_of_seqZ in Hi.
  apply H. unfold MAP_CELLS in Hi. lia.
Qed.

Lemma MapFillWalls_keeps : keeps W X MapFillWalls.
Proof.
  apply cells_each. intros i Hi s Hs.
  apply wp_aset; [apply rd_160; [apply Hs|exact Hi]|].
  apply wf_cell; [exact Hs|unfold TILE_WALL; lia].
Qed.

Lemma ClearVis_keeps : keeps W X ClearVisBuffer.
Proof. apply cells_each. intros i Hi. by apply vis_aset_keeps. Qed.
End Keeps.

#[export] Hint Resolve emit_keeps SetTile_keeps MapSet_keeps RevealPit_keeps
  MapFillWalls_keeps ClearVis_keeps keeps_ret : keeps.

(** Structural steps of a [keeps] proof; leaves are the operations' lemmas. *)
(** ** Messages and experience *)

Section Messages.
Context (p t : bool).

Lemma chat_keeps {A} (m : M A) :
  (forall s, hist_ok (gHist s) (gHistNext s) (gHistCount s) ->
     wp m (fun _ => chat s) (gone t) s) -> keeps (wf p t) (gone t) m.
Proof.
  intros H s Hs. eapply wp_mono; [apply H, Hs| |done].
  intros ? u Hu. by apply (chat_wf p t s).
Qed.

Lemma Msg_keeps u : keeps (wf p t) (gone t) (Msg u).
Proof. apply chat_keeps. intros s. apply chat_Msg. Qed.

Lemma Msg2_keeps a b : keeps (wf p t) (gone t) (Msg2 a b).
Proof. apply Msg_keeps. Qed.

Lemma AwardXp_keeps : keeps (wf p t) (gone t) AwardXp.
Proof.
  intros s Hs. eapply wp_mono; [apply AwardXp_run, Hs| |done].
  intros ? u Hu. by apply (chat_wf p t (award s)), award_wf.
Qed.
End Messages.

#[export] Hint Resolve Msg_keeps Msg2_keeps AwardXp_keeps : keeps.

(** ** Scans *)

Lemma scan_range {A} (f : A -> bool) l : forall i,
  0 <= i -> scan f l i = -1 \/ i <= scan f l i < i + Z.of_nat (length l).
Proof.
  induction l as [|a l IH]; intros i Hi; cbn [scan]; [by left|].
  destruct (f a); [right; cbn; lia|].
  destruct (IH (i + 1)) as [->|H]; [lia|by left|right; cbn; lia].
Qed.

(** An index a scan returned, and the element it stopped at. *)
Lemma scan_hit {A} (f : A -> bool) l : forall i,
  0 <= i -> 0 <= scan f l i ->
  exists a, rd l (scan f l i - i) = Some a /\ f a = true.
Proof.
  induction l as [|a l IH]; intros i Hi H; cbn [scan] in *; [lia|].
  destruct (f a) eqn:E.
  - exists a. rewrite Z.sub_diag. split; [done|exact E].
  - destruct (IH (i + 1)) as (b & Hb & Hf); [lia|exact H|].
    pose proof (rd_lt _ _ _ Hb). exists b. split; [|exact Hf].
    revert Hb. unfold rd. destruct (Z.ltb_spec (scan f l (i + 1) - (i + 1)) 0); [lia|].
    destruct (Z.ltb_spec (scan f l (i + 1) - i) 0); [lia|].
    replace (Z.to_nat (scan f l (i + 1) - i))
      with (S (Z.to_nat (scan f l (i + 1) - (i + 1)))) by lia. done.
Qed.

Lemma scan_found {A} (f : A -> bool) l :
  0 <= scan f l 0 -> exists a, rd l (scan f l 0) = Some a /\ f a = true.
Proof. intros H. destruct (scan_hit f l 0) as (a & E & Hf); [lia|exact H|].
  rewrite Z.sub_0_r in E. eauto.
Qed.

(** ** Population *)

Section Population.
Context (p t : bool).
Implicit Types s : Game.

Lemma mons_wr l i m : mons_ok l -> mon_ok m -> mons_ok (wr l i m).
Proof. intros [Hl Hf] Hm. split; [by rewrite wr_length|by apply wr_Forall]. Qed.

Lemma items_wr l i w : items_ok l -> item_ok w -> items_ok (wr l i w).
Proof. intros [Hl Hf] Hm. split; [by rewrite wr_length|by apply wr_Forall]. Qed.

Lemma mon_aset_keeps i m :
  0 <= i < 16 -> mon_ok m -> keeps (wf p t) (gone t) (aset gMon set_gMon i m).
Proof.
  intros Hi Hm s Hs. apply wp_aset.
  - apply rd_Some. rewrite (proj1 (sh_mon _ (wf_shape _ _ _ Hs))). lia.
  - wf_set. by apply mons_wr.
Qed.

Lemma item_aset_keeps i w :
  0 <= i < 8 -> item_ok w -> keeps (wf p t) (gone t) (aset gItem set_gItem i w).
Proof.
  intros Hi Hm s Hs. apply wp_aset.
  - apply rd_Some. rewrite (proj1 (sh_item _ (wf_shape _ _ _ Hs))). lia.
  - wf_set. by apply items_wr.
Qed.

Lemma WipePools_keeps : keeps (wf p t) (gone t) WipePools.
Proof.
  unfold WipePools. apply keeps_bind; [|intros _]; apply keeps_each;
    intros i Hi; apply elem_of_seqZ in Hi;
    [apply mon_aset_keeps|apply item_aset_keeps];
    try (unfold MON_COUNT, ITEM_COUNT in *; lia);
    unfold mon_ok, item_ok, byte, on_grid; cbn; lia.
Qed.

Lemma aim_keeps i s : wf p t s -> 0 <= i < 160 -> wf p t (aim i s).
Proof.
  intros Hs Hi. pose proof (idx_on_grid i Hi) as [Hc Hr]. unfold aim. wf_set;
    unfold byte in *; cbn; lia.
Qed.

(** A successful search leaves the target on the grid. *)
Lemma FindEmptyCell_use (Q : bool -> Game -> Prop) s :
  wf p t s ->
  (forall b u, wf p t u -> on_grid (gTgtCol u) (gTgtRow u) ->
     gMonTypePool u = gMonTypePool s -> Q b u) ->
  wp FindEmptyCell Q (gone t) s.
Proof.
  intros Hs H. apply wp_FindEmptyCell; [apply Hs..|].
  intros b i lo hi Hl Hh Hi _. apply H; [|by apply idx_on_grid|done].
  apply aim_keeps; [|exact Hi]. wf_set.
Qed.

Lemma table_ok (l : list Z) type :
  Forall (fun v => 0 <= v < 256) l -> 0 <= type < Z.of_nat (length l) ->
  exists v, rd l type = Some v /\ 0 <= v < 256.
Proof.
  intros Hf Ht. destruct (rd_Some l type Ht) as [v E]. exists v.
  split; [exact E|]. exact (rd_Forall _ _ _ _ Hf E).
Qed.

Lemma initMonster_use type col row (Q : Monster -> Game -> Prop) s :
  1 <= type <= 6 -> on_grid col row ->
  (forall m, mon_ok m -> Q m s) -> wp (initMonster type col row) Q (gone t) s.
Proof.
  intros Ht Hg H. unfold initMonster. wp_step. wp_step.
  assert (B : forall l, length l = 7%nat -> Forall (fun v => 0 <= v < 256) l ->
            exists v, rd l type = Some v /\ 0 <= v < 256).
  { intros l Hl Hf. apply table_ok; [exact Hf|lia]. }
  repeat (wp_step; apply wp_aget;
    match goal with |- exists a, rd ?l _ = _ /\ _ =>
      let E := fresh "E" in
      destruct (B l eq_refl ltac:(repeat constructor; lia)) as (? & E & ?);
      rewrite E; eexists; split; [done|] end).
  apply wp_ret, H. unfold mon_ok. cbn.
  split_and!; try lia; try apply u8_byte; apply Hg.
Qed.

Definition pooled s : Prop := wf p t s /\ 3 <= gMonTypePool s <= 5.

Lemma spawnInto_keeps slots :
  Forall (fun i => 0 <= i < 16) slots ->
  forall s, pooled s -> wp (spawnInto slots) (fun _ => wf p t) (gone t) s.
Proof.
  induction 1 as [|i slots Hi _ IH]; intros s [Hs Hp]; [exact Hs|].
  cbn [spawnInto]. wp_step. apply FindEmptyCell_use; [exact Hs|].
  intros b u Hu Hg Hpu. wp_steps; [exact Hu|].
  rewrite Hpu. apply wp_RandMod; [lia|apply Hu..|].
  intros r lo hi Hr Hl Hh. wp_step. wp_step. wp_step. rewrite u8_small by lia.
  apply initMonster_use; [lia|exact Hg|]. intros m Hm. wp_step.
  apply (wp_mono _ (fun _ => pooled) _ (gone t)); [|intros _; apply IH|done].
  apply (wp_mono _ (fun _ v => wf p t v /\ gMonTypePool v = gMonTypePool u) _ (gone t));
    [|intros _ v [Hv E]; split; [exact Hv|lia]|done].
  assert (Hw : wf p t (set_gPrngHi hi (set_gPrngLo lo u))) by wf_set.
  pose proof (mon_aset_keeps i m Hi Hm _ Hw) as Ha. revert Ha.
  unfold wp, aset. destruct (rd _ _); [|done]. done.
Qed.

Lemma SpawnMonsters_keeps : keeps (wf p t) (gone t) SpawnMonsters.
Proof.
  intros s Hs. unfold SpawnMonsters. wp_step.
  apply (keeps_use (wf p t)); [apply WipePools_keeps|exact Hs|].
  intros _ u Hu. unfold setBonuses. wp_steps. apply spawnInto_keeps.
  - apply Forall_forall. intros i Hi. apply elem_of_seqZ in Hi. revert Hi.
    unfold MON_COUNT. destruct (Z.ltb_spec 16 (gDepth u + 2)); lia.
  - split; [wf_set|]. cbn. destruct (10 <=? gDepth u), (5 <=? gDepth u); lia.
Qed.

Lemma SpawnBoss_keeps : keeps (wf p t) (gone t) SpawnBoss.
Proof.
  intros s Hs. unfold SpawnBoss. wp_step.
  apply (keeps_use (wf p t)); [apply WipePools_keeps|exact Hs|].
  intros _ u Hu. unfold setBonuses. wp_steps.
  apply initMonster_use; [unfold MON_TYPE_BOSS; lia|unfold on_grid; lia|].
  intros m Hm. apply mon_aset_keeps; [lia|exact Hm|]. wf_set.
Qed.

Lemma SpawnTypedItem_use type s :
  1 <= type <= 8 -> wf p t s -> on_grid (gTgtCol s) (gTgtRow s) ->
  wp (SpawnTypedItem type 0) (fun _ => wf p t) (gone t) s.
Proof.
  intros Ht Hs Hg. unfold SpawnTypedItem. wp_steps; [exact Hs|]. unbool.
  destruct (scan_range (fun w => w_type w =? 0) (gItem s) 0) as [E|E]; [lia|lia|].
  rewrite (proj1 (sh_item _ (wf_shape _ _ _ Hs))) in E.
  apply item_aset_keeps; [lia| |exact Hs].
  unfold item_ok. cbn. split_and!; try lia; apply Hg.
Qed.

Lemma pickCategory_range roll : 0 <= pickCategory roll < 8.
Proof.
  unfold pickCategory.
  destruct (scan_range (fun th => roll <? th) kItemThresh 0) as [E|E];
    [lia|rewrite E; cbn; lia|].
  change (Z.of_nat (length kItemThresh)) with 8 in E.
  destruct (Z.ltb_spec (scan (fun th => roll <? th) kItemThresh 0) 0); lia.
Qed.

Lemma spawnItems_keeps n : keeps (wf p t) (gone t) (spawnItems n).
Proof.
  induction n as [|n IH]; intros s Hs; [exact Hs|]. cbn [spawnItems].
  wp_step. apply FindEmptyCell_use; [exact Hs|]. intros b u Hu Hg _.
  wp_steps; [exact Hu|]. apply wp_RandMod; [lia|apply Hu..|].
  intros roll lo hi _ Hl Hh. pose proof (pickCategory_range roll) as Hk.
  wp_step. apply wp_aget.
  destruct (rd_Some kItemType (pickCategory roll)) as [ty Ety]; [cbn; lia|].
  exists ty. split; [exact Ety|].
  assert (Hty : 1 <= ty <= 8)
    by (refine (rd_Forall (fun v => 1 <= v <= 8) kItemType _ _ _ Ety);
        repeat constructor; lia).
  wp_step. apply wp_aget.
  destruct (rd_Some kItemSubCount (pickCategory roll)) as [cn Ecn]; [cbn; lia|].
  exists cn. split; [exact Ecn|].
  assert (Hcn : cn = 1)
    by (refine (rd_Forall (fun v => v = 1) kItemSubCount _ _ _ Ecn);
        repeat constructor).
  rewrite Hcn. wp_step. apply wp_RandMod; [lia|done|done|].
  intros r lo' hi' Hr Hl' Hh'. replace r with 0 by lia. wp_step.
  apply (wp_mono _ (fun _ => wf p t) _ (gone t)); [|intros _ v; apply IH|done].
  apply SpawnTypedItem_use; [exact Hty|wf_set|exact Hg].
Qed.

Lemma SpawnLevelItems_keeps : keeps (wf p t) (gone t) SpawnLevelItems.
Proof.
  unfold SpawnLevelItems. apply keeps_bind; [by apply RandMod_keeps|].
  intros r. apply spawnItems_keeps.
Qed.

Lemma spawnPits_keeps n : keeps (wf p t) (gone t) (spawnPits n).
Proof.
  induction n as [|n IH]; intros s Hs; [exact Hs|]. cbn [spawnPits].
  wp_step. apply FindEmptyCell_use; [exact Hs|]. intros b u Hu Hg _.
  wp_steps; [exact Hu|]. by apply (keeps_use (wf p t)); [apply SetTile_keeps| |].
Qed.

Lemma SpawnLevelPits_keeps : keeps (wf p t) (gone t) SpawnLevelPits.
Proof.
  unfold SpawnLevelPits. apply keeps_bind; [by apply RandMod_keeps|].
  intros r. apply spawnPits_keeps.
Qed.
End Population.

#[export] Hint Resolve SpawnMonsters_keeps SpawnBoss_keeps SpawnLevelItems_keeps
  SpawnLevelPits_keeps : keeps.

(** ** Carving *)

Section Carving.
Context (p t : bool).
Implicit Types s : Game.

Lemma CarveRoom_keeps : keeps (wf p t) (gone t) CarveRoom.
Proof.
  unfold CarveRoom. apply keeps_bind; [keep|]. intros s.
  apply keeps_each. intros r _. apply keeps_each. intros c _. keep.
Qed.

Lemma Marker_keeps : keeps (wf p t) (gone t) CarveCorridorMarker.
Proof. unfold CarveCorridorMarker. keep. Qed.

Lemma corridorRun_keeps set lo hi :
  (forall v s, byte v -> wf p t s -> wf p t (set v s)) ->
  byte lo -> byte hi -> keeps (wf p t) (gone t) (corridorRun set lo hi).
Proof.
  intros Hset Hl Hh. apply keeps_each. intros v Hv. apply elem_of_seqZ in Hv.
  apply keeps_bind; [apply keeps_upd|intros _; apply Marker_keeps].
  intros s Hs. apply Hset; [unfold byte in *; lia|exact Hs].
Qed.

Lemma DigCorridor_keeps : keeps (wf p t) (gone t) DigCorridor.
Proof.
  intros s Hs. unfold DigCorridor.
  assert (byte (cx s) /\ byte (cy s) /\ byte (prev_cx s) /\ byte (prev_cy s))
    as (H1 & H2 & H3 & H4) by (split_and!; apply Hs).
  wp_steps. apply (keeps_use (wf p t)).
  - apply corridorRun_keeps; [wf_set|by destruct (_ <? _)..].
  - wf_set.
  - intros _ u Hu. wp_steps. apply corridorRun_keeps; [wf_set|by destruct (_ <? _)..|].
    wf_set.
Qed.

Lemma FinalizeDoors_keeps : keeps (wf p t) (gone t) FinalizeDoors.
Proof.
  unfold FinalizeDoors, classifyMarker, dropMarker, collapseDoor, downIndices.
  apply keeps_bind; [|intros _; apply keeps_bind; [|intros _]];
    apply cells_each_rev; intros i _; keep.
Qed.

Lemma PerimeterDoors_keeps : keeps (wf p t) (gone t) PlacePerimeterDoors.
Proof.
  apply keeps_each. intros e He s Hs. wp_steps; [|exact Hs].
  assert (Hspan : 0 < span e <= 10 /\ byte (fixed e)).
  { revert He. unfold kDoorTable. rewrite !elem_of_cons, elem_of_nil.
    intros [->|[->|[->|[->|[]]]]]; unfold byte; cbn; lia. }
  apply RandMod_use with (p := p); [lia|exact Hs|]. intros r u Hr Hu. wp_step. wp_step.
  apply (keeps_use (wf p t)); [|exact Hu|by intros _ v Hv; apply SetTile_keeps].
  keep; wf_set; apply Hspan.
Qed.

Lemma fullRoom_keeps : keeps (wf p t) (gone t) fullRoom.
Proof. pose proof CarveRoom_keeps. unfold fullRoom. keep. Qed.

(** The ranges [PickRandomRoom] draws from. *)
Lemma wp_PickRandomRoom idx (Q : () -> Game -> Prop) X s :
  byte (gPrngLo s) -> byte (gPrngHi s) ->
  (forall x y w h lo hi, 4 <= w <= 6 -> 3 <= h <= 5 -> 1 <= y <= 9 - h ->
     (if idx =? 0 then 1 <= x <= 8 - w else 9 <= x <= 15 - w) ->
     byte lo -> byte hi ->
     Q tt (set_room_x x (set_room_y y (set_room_h h (set_room_w w
            (set_gPrngHi hi (set_gPrngLo lo s))))))) ->
  wp (PickRandomRoom idx) Q X s.
Proof.
  intros Hl Hh H. unfold PickRandomRoom.
  wp_step. apply wp_RandMod; [lia|done|done|]. intros rw lo1 hi1 Hrw Hl1 Hh1.
  wp_steps. apply wp_RandMod; [lia|done|done|]. intros rh lo2 hi2 Hrh Hl2 Hh2.
  rewrite (u8_small (rw + 4)) by lia. wp_steps. cbn [room_h set_room_h].
  rewrite (u8_small (rh + 3)), u8_small by lia.
  apply wp_RandMod; [lia|done|done|]. intros ry lo3 hi3 Hry Hl3 Hh3.
  rewrite (u8_small (ry + 1)) by lia. wp_steps;
    (match goal with |- context [room_w ?x] => change (room_w x) with (rw + 4) end);
    (rewrite u8_small by lia); (apply wp_RandMod; [lia|done|done|]);
    intros rx lo4 hi4 Hrx Hl4 Hh4; wp_steps; rewrite u8_small by lia.
  - apply (H (rx + 1) (ry + 1) (rw + 4) (rh + 3) lo4 hi4); try done; try lia.
    match goal with E : (idx =? 0) = _ |- _ => rewrite E end. lia.
  - apply (H (rx + 9) (ry + 1) (rw + 4) (rh + 3) lo4 hi4); try done; try lia.
    match goal with E : (idx =? 0) = _ |- _ => rewrite E end. lia.
Qed.
End Carving.

#[export] Hint Resolve CarveRoom_keeps DigCorridor_keeps FinalizeDoors_keeps
  PerimeterDoors_keeps fullRoom_keeps : keeps.

(** ** Layouts: they put the player on an interior cell *)

Section Layouts.
Context (p t : bool).
Implicit Types s : Game.

Lemma wf_place c r s :
  wf p t s -> interior c r -> wf true t (set_gPlayerRow r (set_gPlayerCol c s)).
Proof. wf_set. by intros. Qed.

(** Run a program that keeps [wf]. *)
Ltac run L := apply (keeps_use (wf p t)); [apply L|try assumption|
  let u := fresh "u" in let Hu := fresh "Hu" in intros _ u Hu; wp_steps].
Ltac run_placed L := apply (keeps_use (wf true t)); [apply L|try assumption|
  let u := fresh "u" in let Hu := fresh "Hu" in intros _ u Hu; wp_steps].

Lemma GenBigRoom_places s : wf p t s -> wp GenBigRoom (fun _ => wf true t) (gone t) s.
Proof.
  intros Hs. unfold GenBigRoom. wp_steps. run (fullRoom_keeps p t).
  run (SetTile_keeps p t); [wf_set; unfold byte; cbn; lia|].
  run_placed (SetTile_keeps true t).
  { assert (wf true t (set_gPlayerRow 2 (set_gPlayerCol 13 u0)))
      by (apply wf_place; [assumption|unfold interior; lia]).
    wf_set; unfold byte; cbn; lia. }
  by apply PerimeterDoors_keeps.
Qed.

Lemma GenBossRoom_places s : wf p t s -> wp GenBossRoom (fun _ => wf true t) (gone t) s.
Proof.
  intros Hs. unfold GenBossRoom. wp_steps. run (fullRoom_keeps p t).
  apply wf_place; [assumption|unfold interior; lia].
Qed.

(** After picking a room and carving it, the room is still the one picked. *)
Lemma pick_and_carve idx (Q : () -> Game -> Prop) s :
  wf p t s ->
  (forall u, wf p t u -> 4 <= room_w u <= 6 -> 3 <= room_h u <= 5 ->
     1 <= room_y u <= 9 - room_h u ->
     (if idx =? 0 then 1 <= room_x u <= 8 - room_w u
      else 9 <= room_x u <= 15 - room_w u) -> Q tt u) ->
  wp (PickRandomRoom idx ;; CarveRoom) Q (gone t) s.
Proof.
  intros Hs HQ. apply wp_bind, wp_PickRandomRoom; [apply Hs..|].
  intros x y w h lo hi Hw Hh Hy Hx Hl Hi. set (u := set_room_x x _).
  assert (byte x /\ byte y) as [] by (unfold byte; destruct (idx =? 0); lia).
  assert (Hu : wf p t u) by (unfold u; wf_set).
  assert (Hd : drawn u (at_ (gMap u)) u) by (apply drawn_start; apply Hu).
  eapply wp_mono; [apply wp_conj; [by apply CarveRoom_keeps|]| |auto].
  - apply (wp_CarveRoom u (at_ (gMap u)) x y w h (gone t)); try done;
      destruct (idx =? 0); lia.
  - intros [] v [Hv Hr]. destruct (drawn_scratch _ _ _ Hr) as (E1 & E2 & E3 & E4).
    apply HQ; [exact Hv|..]; rewrite ?E1, ?E2, ?E3, ?E4; assumption.
Qed.

Lemma genRoom0_places s : wf p t s -> wp (genRoom 0) (fun _ => wf true t) (gone t) s.
Proof.
  intros Hs. unfold genRoom. apply wp_assoc.
  apply wp_bind, pick_and_carve; [exact Hs|].
  intros u Hu Hw Hh Hy Hx. cbn in Hx.
  cbn [Z.eqb]. wp_steps.
  assert (wf true t (set_gPlayerRow (room_y u)
            (set_gPlayerCol (u8 (room_x u + room_w u - 2)) u))).
  { apply wf_place; [exact Hu|]. rewrite u8_small by lia. unfold interior. lia. }
  wf_set; apply u8_byte.
Qed.
End Layouts.

Section Dungeons.
Context (t : bool).
Implicit Types s : Game.

Lemma genRoom1_keeps : keeps (wf true t) (gone t) (genRoom 1).
Proof.
  intros s Hs. unfold genRoom. apply wp_assoc, wp_bind, (pick_and_carve true); [exact Hs|].
  intros u Hu _ _ _ _. cbn [Z.eqb]. wp_steps.
  apply (keeps_use (wf true t)); [apply DigCorridor_keeps|wf_set; apply u8_byte|].
  intros _ v Hv. wp_steps. assert (byte (cx v) /\ byte (cy v)) as [] by (split; apply Hv).
  wf_set.
Qed.

Lemma GenTwoRooms_places p s :
  wf p t s -> wp GenTwoRooms (fun _ => wf true t) (gone t) s.
Proof.
  intros Hs. unfold GenTwoRooms. cbn [each]. wp_steps.
  eapply wp_mono; [by apply (genRoom0_places p)| |done]. intros ? u Hu. wp_steps.
  apply (keeps_use (wf true t)); [apply genRoom1_keeps|exact Hu|]. intros _ v Hv. wp_steps.
  apply (keeps_use (wf true t)); [apply FinalizeDoors_keeps|exact Hv|].
  intros _ w Hw. wp_steps.
  apply (keeps_use (wf true t)); [apply SetTile_keeps| |].
  { assert (interior (gPlayerCol w) (gPlayerRow w)) as [Hc Hr] by (by apply Hw).
    wf_set; [apply u8_byte|unfold byte; cbn; lia]. }
  intros _ z Hz. wp_steps; apply SetTile_keeps; wf_set; apply u8_byte.
Qed.

Lemma GenDungeon_places p s : wf p t s -> wp GenDungeon (fun _ => wf true t) (gone t) s.
Proof.
  intros Hs. unfold GenDungeon. wp_steps.
  apply (keeps_use (wf p t)); [apply MapFillWalls_keeps|exact Hs|]. intros _ u Hu. wp_steps.
  apply (RandMod_use p); [lia|exact Hu|]. intros r v _ Hv.
  wp_steps; [by apply (GenBigRoom_places p)|by apply (GenTwoRooms_places p)].
Qed.

Lemma ApplyWrapSpawn_keeps s :
  wf true t s -> 2 <= gTransMode s ->
  wp ApplyWrapSpawn (fun _ => wf true t) (gone t) s.
Proof.
  intros Hs Hm. destruct (he_anchor _ (wf_hero _ _ _ Hs)) as [Ha1 Ha2].
  unfold ApplyWrapSpawn. wp_steps; unbool; apply SetTile_keeps;
    wf_set; unfold interior, byte in *; cbn; lia.
Qed.
End Dungeons.

(** ** Field of view *)

Section Fov.
Context (t : bool).
Implicit Types s : Game.

(** The radius is fixed while the octants are cast. *)
Definition lit (R : Z) s : Prop := wf true t s /\ gFovR s = R.

Lemma lit_cur R x y s :
  lit R s -> lit R (set_gCurY y (set_gCurX x s)).
Proof. intros [Hs HR]. split; [wf_set|exact HR]. Qed.

Lemma Mark_keeps R x y s :
  lit R s -> on_grid x y ->
  wp MarkVisibleAtCur (fun _ => lit R) (gone t) (set_gCurY y (set_gCurX x s)).
Proof.
  intros Hs Hg. unfold MarkVisibleAtCur. wp_step. wp_step.
  apply wp_aset; cbn [gCurX gCurY set_gCurX set_gCurY].
  - apply rd_160; [apply Hs|]. by apply grid_index.
  - destruct Hs as [Hs HR]. split; [|exact HR]. wf_set. cbn. by rewrite wr_length.
Qed.

Lemma Opaque_use R x y s (Q : bool -> Game -> Prop) :
  lit R s -> gCurX s = x -> gCurY s = y -> on_grid x y ->
  (forall b, Q b s) -> wp IsOpaqueAtCur Q (gone t) s.
Proof.
  intros [Hs _] <- <- Hg HQ. unfold IsOpaqueAtCur. wp_steps. apply wp_aget.
  destruct (rd_160 (gMap s) (gCurY s * LOGICAL_COLS + gCurX s)) as [v E];
    [apply Hs|by apply grid_index|]. exists v. split; [exact E|]. wp_steps. apply HQ.
Qed.

(** Marking leaves the cursor where it is. *)
Lemma Mark_cur R x y s :
  lit R s -> on_grid x y ->
  wp MarkVisibleAtCur (fun _ u => lit R u /\ gCurX u = x /\ gCurY u = y) (gone t)
    (set_gCurY y (set_gCurX x s)).
Proof.
  intros Hs Hg. pose proof (Mark_keeps R x y s Hs Hg) as H. revert H.
  unfold MarkVisibleAtCur, wp, mbind, M_bind, get, aset. destruct (rd _ _); done.
Qed.

Section Row.
Context (R : Z) (cast : Z -> Z -> Z -> Z -> M ()).
Context (Hcast : forall a b c d, keeps (lit R) (gone t) (cast a b c d)).

Lemma castCols_keeps endN endD depth k : forall blocked sN sD vN vD,
  keeps (lit R) (gone t) (castCols cast endN endD depth k blocked sN sD vN vD).
Proof.
  induction k as [|k IH]; intros blocked sN sD vN vD s Hs; cbn [castCols];
    repeat lazymatch goal with
    | |- wp (castCols _ _ _ _ _ _ _ _ _ _) _ _ _ => apply IH; assumption
    | |- wp (mret _) _ _ _ => apply wp_ret; assumption
    | |- wp MarkVisibleAtCur _ _ _ =>
        eapply wp_mono; [apply (Mark_cur R); [eassumption|]| |auto];
        [|intros ? ? (? & ? & ?)]
    | |- wp IsOpaqueAtCur _ _ _ =>
        eapply (Opaque_use R); [eassumption|eassumption|eassumption| |intros []]
    | |- wp (cast _ _ _ _) _ _ _ =>
        eapply keeps_use; [apply Hcast|eassumption|intros ? ? ?]
    | |- on_grid _ _ => unfold on_grid; unbool;
        unfold LOGICAL_COLS, LOGICAL_ROWS in *;
        rewrite !u8_small by lia; lia
    | |- wp _ _ _ _ => wp_step
    end.
Qed.
End Row.

Lemma castRows_keeps R fuel : forall depth sN sD eN eD,
  R < depth + Z.of_nat fuel ->
  keeps (lit R) (gone t) (castRows fuel depth sN sD eN eD).
Proof.
  induction fuel as [|fuel IH]; intros depth sN sD eN eD Hf s Hs; cbn [castRows];
    wp_steps; try exact Hs; destruct Hs as [Hw HR].
  - unbool. cbn in *. lia.
  - apply (keeps_use (lit R)); [|by split|].
    + apply castCols_keeps. intros a b c d. apply keeps_if; [apply keeps_ret|].
      apply IH. lia.
    + intros [[blocked n] d] u Hu. wp_steps; [exact Hu|]. apply IH; [lia|exact Hu].
Qed.

Lemma CastOctant_keeps R sN sD eN eD :
  0 <= R -> keeps (lit R) (gone t) (CastOctant 1 sN sD eN eD).
Proof.
  intros HR s Hs. unfold CastOctant. wp_steps; [exact Hs|].
  apply castRows_keeps; [|exact Hs]. destruct Hs as [_ ->]. lia.
Qed.

Lemma Strip_keeps p : keeps (wf p t) (gone t) StripInvisiblePitReveals.
Proof.
  apply cells_each_rev. intros i Hi s Hs. wp_steps. apply wp_aget.
  destruct (rd_160 (gMap s) i) as [v E]; [apply Hs|exact Hi|].
  exists v. split; [exact E|]. wp_steps; [exact Hs|]. apply wp_aget.
  destruct (rd_160 (gVis s) i) as [w Ew]; [apply Hs|exact Hi|].
  exists w. split; [exact Ew|]. wp_steps; [exact Hs|].
  apply wp_aset; [by rewrite E|]. apply wf_cell; [exact Hs|].
  apply strip_range, (rd_Forall (fun v => 0 <= v < 16) (gMap s) i); [|exact E].
  apply (sh_map _ (wf_shape _ _ _ Hs)).
Qed.

Lemma octant_table (l : list Z) o (Q : Z -> Game -> Prop) s :
  length l = 8%nat -> 0 <= o < 8 -> (forall v, Q v s) -> wp (aget l o) Q (gone t) s.
Proof.
  intros Hl Ho HQ. apply wp_aget. destruct (rd_Some l o) as [v E]; [lia|].
  exists v. auto.
Qed.

Lemma octants_keep R : 0 <= R -> keeps (lit R) (gone t)
  (each (seqZ 0 8) (fun o =>
     xx ← aget kOctXX o; upd (set_oct_xx xx) ;;
     xy ← aget kOctXY o; upd (set_oct_xy xy) ;;
     yx ← aget kOctYX o; upd (set_oct_yx yx) ;;
     yy ← aget kOctYY o; upd (set_oct_yy yy) ;;
     CastOctant 1 1 1 0 1)).
Proof.
  intros HR. apply keeps_each. intros o Ho. apply elem_of_seqZ in Ho.
  intros s [Hs Hr].
  repeat (wp_step; apply octant_table; [done|lia|intros ?]; wp_step; wp_step).
  apply CastOctant_keeps; [exact HR|]. split; [wf_set|exact Hr].
Qed.

Lemma ClearVis_lit R : keeps (lit R) (gone t) ClearVisBuffer.
Proof.
  apply keeps_each. intros i Hi s [Hs HR]. apply elem_of_seqZ in Hi.
  unfold MAP_CELLS in Hi. apply wp_aset; [apply rd_160; [apply Hs|lia]|].
  split; [|exact HR]. wf_set. cbn. by rewrite wr_length.
Qed.

Lemma ComputeFov_keeps : keeps (wf true t) (gone t) ComputeFov.
Proof.
  intros s Hs. unfold ComputeFov. wp_steps.
  set (R := if gTorchTimer s <>? 0 then TORCH_RADIUS else FOV_RADIUS).
  assert (HR : 0 <= R)
    by (unfold R, TORCH_RADIUS, FOV_RADIUS; destruct (gTorchTimer s <>? 0); lia).
  apply (keeps_use (lit R)); [apply ClearVis_lit|split; [wf_set|done]|].
  intros _ u Hu. wp_steps.
  eapply wp_mono; [apply (Mark_keeps R _ _ u Hu)| |done].
  { destruct (wf_spot _ _ _ (proj1 Hu) eq_refl) as [Hc Hr]. unfold on_grid. cbn. lia. }
  intros ? v Hv. wp_steps. apply (keeps_use (lit R)); [by apply octants_keep|exact Hv|].
  intros _ w Hw. by apply Strip_keeps, Hw.
Qed.
End Fov.

#[export] Hint Resolve ComputeFov_keeps : keeps.

(** ** The shell and the endings *)

Section Endings.
Context (p t : bool).
Implicit Types s : Game.

Lemma gone_input v s : wf p t s -> gone t (set_input v s).
Proof. intros Hs. apply (wf_gone p). wf_set. Qed.

Lemma WaitKey_use (Q : Z -> Game -> Prop) s :
  wf p t s -> (forall c u, wf p t u -> Q c u) -> wp ShellWaitKey Q (gone t) s.
Proof.
  intros Hs HQ. unfold wp, ShellWaitKey. destruct (input s) as [|[c|] rest].
  - by apply (wf_gone p).
  - apply HQ. wf_set.
  - by apply gone_input.
Qed.

Lemma WaitKey_keeps : keeps (wf p t) (gone t) ShellWaitKey.
Proof. intros s Hs. by apply WaitKey_use. Qed.

Lemma WaitForRestart_keeps : keeps (wf p t) (gone t) WaitForRestart.
Proof.
  pose proof WaitKey_keeps. unfold WaitForRestart. keep.
  intros s Hs. exact (wf_gone p t s Hs).
Qed.

Lemma WinScreen_keeps : keeps (wf p t) (gone t) WinScreen.
Proof. pose proof WaitForRestart_keeps. unfold WinScreen. keep. Qed.

Lemma DeathScreen_keeps : keeps (wf p t) (gone t) DeathScreen.
Proof.
  pose proof WaitForRestart_keeps as Hr. unfold DeathScreen.
  apply keeps_bind; [keep|]. intros s0. cbv zeta.
  destruct (rd_Some kAttackerName (if (gLastAttacker s0 <? 0) || (7 <? gLastAttacker s0)
              then 0 else gLastAttacker s0)) as [n E].
  { destruct (_ || _) eqn:E; unbool; cbn; lia. }
  assert (keeps (wf p t) (gone t) (aget kAttackerName (if (gLastAttacker s0 <? 0) ||
    (7 <? gLastAttacker s0) then 0 else gLastAttacker s0)))
    by (intros s Hs; apply wp_aget; eauto).
  keep.
Qed.
End Endings.

#[export] Hint Resolve WaitKey_keeps WinScreen_keeps DeathScreen_keeps : keeps.
(** ** Monster slots *)

Section Slots.
Context (p t : bool).
Implicit Types s : Game.

Lemma mon_use i (Q : Monster -> Game -> Prop) s :
  wf p t s -> 0 <= i < 16 ->
  (forall m, mon_ok m -> rd (gMon s) i = Some m -> Q m s) ->
  wp (mon i) Q (gone t) s.
Proof.
  intros Hs Hi HQ. unfold mon. wp_steps. apply wp_aget.
  pose proof (sh_mon _ (wf_shape _ _ _ Hs)) as [Hl Hf].
  destruct (rd_Some (gMon s) i) as [m E]; [lia|]. exists m. split; [exact E|].
  apply HQ; [exact (rd_Forall _ _ _ _ Hf E)|exact E].
Qed.

Lemma upd_mon_keeps i f :
  0 <= i < 16 -> (forall m, mon_ok m -> mon_ok (f m)) ->
  keeps (wf p t) (gone t) (upd_mon i f).
Proof.
  intros Hi Hf s Hs. unfold upd_mon. wp_step. apply mon_use; [exact Hs|exact Hi|].
  intros m Hm _. by apply mon_aset_keeps; auto.
Qed.

Lemma MonName_use type (Q : string -> Game -> Prop) s :
  0 <= type <= 6 -> (forall n, Q n s) -> wp (MonName type) Q (gone t) s.
Proof.
  intros Ht HQ. apply wp_aget.
  destruct (rd_Some kMonName (if type <=? 7 then type else 0)) as [n E].
  { destruct (_ <=? 7); cbn; lia. }
  exists n. auto.
Qed.

Lemma hp_ok v m : byte v -> mon_ok m -> mon_ok (set_m_hp v m).
Proof. unfold mon_ok. cbn. tauto. Qed.
Lemma hurt_ok v m : mon_ok m -> mon_ok (set_m_hurt v m).
Proof. done. Qed.
Lemma dead_ok m : mon_ok m -> mon_ok (set_m_type 0 m).
Proof. unfold mon_ok. cbn. intuition lia. Qed.
Lemma move_ok c r m : on_grid c r -> mon_ok m -> mon_ok (set_m_row r (set_m_col c m)).
Proof. unfold mon_ok. cbn. tauto. Qed.
End Slots.

(** ** Combat *)

Section Combat.
Context (t : bool).
Implicit Types s : Game.
Abbreviation W := (wf true t).

(** Losing hit points keeps the counters consistent. *)
Lemma hurt_wf dmg s :
  W s -> 0 <= dmg -> forall a, 0 <= a <= 7 ->
  W (set_gLastAttacker a (set_gPlayerHurt 1 (set_gHp (hpAfter dmg s) s))).
Proof.
  intros Hs Hd a Ha. pose proof (he_hp _ (wf_hero _ _ _ Hs)) as Hhp.
  destruct (he_growth _ (wf_hero _ _ _ Hs)) as (Hb & Em & _).
  assert (gHpMax s < 256)
    by (unfold byte, HP_MAX in *; Z.to_euclidean_division_equations; lia).
  wf_set. cbn. unfold hpAfter.
  destruct (Z.ltb_spec dmg (gHp s)); rewrite u8_small; lia.
Qed.

Lemma biteDamage_nonneg m s : 0 <= biteDamage m s.
Proof. unfold biteDamage. apply u8_range. Qed.

Lemma TriggerPit_keeps : keeps W (gone t) TriggerPit.
Proof.
  intros s Hs. unfold TriggerPit. wp_steps.
  apply (keeps_use W); [apply Msg_keeps| |].
  { apply (hurt_wf PIT_DMG s Hs); unfold PIT_DMG, LAST_ATTACKER_PIT; lia. }
  intros _ u Hu. wp_steps. apply RevealPit_keeps. wf_set.
Qed.

(** Well formed, with the target on a given cell. *)
Definition aimed c r s : Prop := W s /\ gTgtCol s = c /\ gTgtRow s = r.

Lemma upd_mon_aimed c r i f :
  0 <= i < 16 -> (forall m, mon_ok m -> mon_ok (f m)) ->
  keeps (aimed c r) (gone t) (upd_mon i f).
Proof.
  intros Hi Hf s (Hs & Hc & Hr). pose proof (upd_mon_keeps true t i f Hi Hf s Hs) as H.
  revert H. unfold upd_mon, mon, wp, mbind, M_bind, get, aget, aset.
  destruct (rd (gMon s) i) eqn:E; [|done]. unfold mret, M_ret. rewrite E.
  intros H. by split.
Qed.

Lemma AwardXp_aimed c r : keeps (aimed c r) (gone t) AwardXp.
Proof.
  intros s (Hs & Hc & Hr). eapply wp_mono; [apply AwardXp_run, Hs| |done].
  intros ? u Hu. split; [by apply (chat_wf _ _ (award s)), award_wf|].
  destruct (award_place s) as (_ & _ & _ & E1 & E2 & _).
  destruct Hu as (? & ? & ? & ? & ? & -> & _). cbn. by rewrite E1, E2.
Qed.

(** The kill of a monster that was not the boss. *)
Lemma kill_keeps i c r :
  0 <= i < 16 -> on_grid c r -> forall s, aimed c r s ->
  wp (upd_mon i (set_m_type 0) ;; AwardXp ;;
      x ← RandMod 4; when (x =? 0) (SpawnTypedItem ITEM_T_FOOD 0))
    (fun _ => W) (gone t) s.
Proof.
  intros Hi Hg s Hs. wp_step.
  apply (keeps_use (aimed c r)); [by apply upd_mon_aimed; [|apply dead_ok]|exact Hs|].
  intros _ u Hu. wp_step. apply (keeps_use (aimed c r)); [apply AwardXp_aimed|exact Hu|].
  intros _ v (Hv & Hc & Hr). wp_step. apply wp_RandMod; [lia|apply Hv..|].
  intros x lo hi _ Hl Hh. assert (W (set_gPrngHi hi (set_gPrngLo lo v))) by wf_set.
  wp_steps; [|done]. apply SpawnTypedItem_use; [unfold ITEM_T_FOOD; lia|done|].
  cbn. by rewrite Hc, Hr.
Qed.

Lemma PlayerAttack_keeps i :
  0 <= i < 16 -> keeps W (gone t) (PlayerAttackMonster i).
Proof.
  intros Hi s Hs. unfold PlayerAttackMonster. wp_step. wp_step. wp_step.
  apply (keeps_use W); [apply upd_mon_keeps; [exact Hi|]|exact Hs|].
  { intros m Hm. apply hp_ok; [apply u8_byte|exact Hm]. }
  intros _ u Hu. wp_step. apply (mon_use true); [exact Hu|exact Hi|].
  intros m (Ht & Hhp & Hd & Hg) _. apply wp_if; intros _; wp_step.
  - apply (keeps_use W); [by apply upd_mon_keeps|exact Hu|]. intros _ v Hv. wp_step.
    apply MonName_use; [exact Ht|]. intros n. wp_step.
    apply (keeps_use W); [apply Msg2_keeps|exact Hv|]. intros _ w Hw. by apply emit_keeps.
  - apply MonName_use; [exact Ht|]. intros n. wp_step.
    apply (keeps_use W); [apply Msg2_keeps|exact Hu|]. intros _ v Hv.
    do 6 wp_step.
    assert (Ha : aimed (m_col m) (m_row m) (set_gTgtRow (m_row m)
              (set_gTgtCol (m_col m) (set_out (SfxPlayed SFX_KILL :: out v) v)))).
    { split; [|done]. unfold on_grid in Hg. wf_set; unfold byte; cbn; lia. }
    apply wp_if; intros _; [|by apply (kill_keeps i (m_col m) (m_row m))].
    wp_step. apply (keeps_use W); [by apply upd_mon_keeps; [|apply dead_ok]|apply Ha|].
    intros _ w Hw. wp_step. apply (keeps_use W); [apply AwardXp_keeps|exact Hw|].
    intros _ z Hz. by apply (WinScreen_keeps true).
Qed.

(** ** Steps *)

Lemma interior_on_grid s : offInterior s = false -> on_grid (gTgtCol s) (gTgtRow s).
Proof.
  unfold offInterior, on_grid, PLAY_TOP_ROW, PLAY_BOT_ROW, PLAY_LEFT_COL,
    PLAY_RIGHT_COL. intros H. unbool. lia.
Qed.

Lemma moveToTarget_use i s :
  0 <= i < 16 -> W s -> on_grid (gTgtCol s) (gTgtRow s) ->
  wp (moveToTarget i) (fun _ => W) (gone t) s.
Proof.
  intros Hi Hs Hg. unfold moveToTarget. wp_step. wp_step. wp_step.
  apply (keeps_use W); [|exact Hs|by intros]. apply upd_mon_keeps; [exact Hi|].
  intros m. by apply move_ok.
Qed.

(** The bite branch of [ApplyStep]. *)
Lemma bite_keeps (m : Monster) s :
  W s -> mon_ok m ->
  wp (upd (set_gHp (hpAfter (biteDamage m s) s)) ;;
      upd (set_gPlayerHurt 1) ;;
      upd (set_gLastAttacker (m_type m)) ;;
      name ← MonName (m_type m);
      (if biteDamage m s <>? 0
       then Msg2 name "HITS YOU" ;;
            s ← get; SfxPlay (if gHp s <=? 3 then SFX_HURT_LOW else SFX_HURT)
       else Msg2 name "GLANCES OFF" ;; SfxPlay SFX_GLANCE) ;;
      mret true) (fun _ => W) (gone t) s.
Proof.
  intros Hs (Ht & _). do 7 wp_step.
  pose proof (hurt_wf _ s Hs (biteDamage_nonneg m s) (m_type m) ltac:(lia)) as Hu.
  apply MonName_use; [exact Ht|]. intros n. wp_step.
  apply (keeps_use W); [keep|exact Hu|by intros].
Qed.

Lemma ApplyStep_keeps i : 0 <= i < 16 -> keeps W (gone t) (ApplyStep i).
Proof.
  intros Hi s Hs. unfold ApplyStep. wp_step. wp_step. wp_step.
  apply (mon_use true); [exact Hs|exact Hi|]. intros m Hm _.
  apply wp_if; intros _; [by apply bite_keeps|].
  apply wp_if; intros Ho; [exact Hs|]. cbv zeta. apply interior_on_grid in Ho.
  do 2 (apply wp_if; intros _; [exact Hs|]).
  apply wp_if; intros _.
  - wp_step. apply (keeps_use (aimed (gTgtCol s) (gTgtRow s)));
      [apply upd_mon_aimed; [exact Hi|]|by split_and!|].
    { intros m'. apply hp_ok, u8_byte. }
    intros _ u Hu. wp_step.
    apply (keeps_use (aimed (gTgtCol s) (gTgtRow s))); [|exact Hu|].
    { intros v (Hv & Ec & Er). pose proof (RevealPit_keeps true t v Hv) as H. revert H.
      unfold wp, RevealPitAtTarget, mbind, M_bind, get. cbv beta iota.
      destruct (_ || _); by intros. }
    intros _ v (Hv & Ec & Er). wp_step. apply (mon_use true); [exact Hv|exact Hi|].
    intros m' (Ht & _) _. apply wp_if; intros _; wp_step.
    + apply MonName_use; [exact Ht|]. intros n. wp_step.
      apply (keeps_use W); [apply Msg2_keeps|exact Hv|]. intros _ w Hw. wp_step.
      apply (keeps_use W); [by apply upd_mon_keeps; [|apply dead_ok]|exact Hw|by intros].
    + apply (keeps_use (aimed (gTgtCol s) (gTgtRow s)));
        [by apply upd_mon_aimed|by split_and!|].
      intros _ w (Hw & E1 & E2). apply moveToTarget_use; [exact Hi|exact Hw|].
      by rewrite E1, E2.
  - apply wp_if; intros _; [exact Hs|]. by apply moveToTarget_use.
Qed.

Lemma boss_on_grid c r s : BossCellPassable c r s = true -> on_grid c r.
Proof.
  unfold BossCellPassable, on_grid, PLAY_TOP_ROW, PLAY_BOT_ROW, PLAY_LEFT_COL,
    PLAY_RIGHT_COL.
  destruct ((r <? 1) || (8 <? r)) eqn:E1; [done|].
  destruct ((c <? 1) || (14 <? c)) eqn:E2; [done|]. unbool. lia.
Qed.

Lemma BossStep_keeps i : 0 <= i < 16 -> keeps W (gone t) (ApplyBossStep i).
Proof.
  intros Hi s Hs. unfold ApplyBossStep. wp_step. wp_step. wp_step.
  apply (mon_use true); [exact Hs|exact Hi|]. intros m Hm _. cbv zeta.
  apply wp_if; intros _.
  - do 6 wp_step. apply (keeps_use W); [keep| |by intros].
    apply (hurt_wf _ s Hs (biteDamage_nonneg m s)). unfold MON_TYPE_BOSS. lia.
  - apply wp_if; intros E; [exact Hs|]. apply moveToTarget_use; [exact Hi|exact Hs|].
    unbool. by eapply boss_on_grid.
Qed.

(** ** Behaviours *)

Section Ai.
Context (i : Z) (Hi : 0 <= i < 16).

Lemma Deltas_keeps : keeps W (gone t) (ComputeAbsDeltas i).
Proof.
  intros s Hs. unfold ComputeAbsDeltas. wp_step. apply (mon_use true);
    [exact Hs|exact Hi|]. intros m _ _. wp_steps. wf_set.
Qed.

Lemma AxisX_keeps apply toward :
  keeps W (gone t) (apply i) -> keeps W (gone t) (TryAxisX apply toward i).
Proof.
  intros Ha s Hs. unfold TryAxisX. wp_step. apply (mon_use true);
    [exact Hs|exact Hi|]. intros m (_ & _ & _ & Hg) _. wp_steps; [exact Hs|].
  apply Ha. unfold on_grid in Hg. wf_set; [apply u8_byte|unfold byte; cbn; lia].
Qed.

Lemma AxisY_keeps apply toward :
  keeps W (gone t) (apply i) -> keeps W (gone t) (TryAxisY apply toward i).
Proof.
  intros Ha s Hs. unfold TryAxisY. wp_step. apply (mon_use true);
    [exact Hs|exact Hi|]. intros m (_ & _ & _ & Hg) _. wp_steps; [exact Hs|].
  apply Ha. unfold on_grid in Hg. wf_set; [unfold byte; cbn; lia|apply u8_byte].
Qed.

Lemma tryBoth_keeps f g :
  keeps W (gone t) (f i) -> keeps W (gone t) (g i) -> keeps W (gone t) (tryBoth f g i).
Proof. intros Hf Hg. unfold tryBoth. keep. Qed.

Lemma byAxis_keeps f g :
  keeps W (gone t) (f i) -> keeps W (gone t) (g i) -> keeps W (gone t) (byAxis f g i).
Proof. intros Hf Hg. pose proof Deltas_keeps. unfold byAxis. keep. Qed.

Ltac chase :=
  unfold TryStepX, TryStepY, TryFleeX, TryFleeY, TryBossStepX, TryBossStepY;
  apply byAxis_keeps; apply tryBoth_keeps;
  lazymatch goal with
  | |- keeps _ _ (TryAxisX ?a _ _) => apply (AxisX_keeps a)
  | |- keeps _ _ (TryAxisY ?a _ _) => apply (AxisY_keeps a)
  end;
  lazymatch goal with
  | |- keeps _ _ (ApplyStep _) => by apply ApplyStep_keeps
  | |- keeps _ _ (ApplyBossStep _) => by apply BossStep_keeps
  end.

Lemma AiUndead_keeps : keeps W (gone t) (AiUndead i).
Proof. unfold AiUndead. chase. Qed.

Lemma AiGhost_keeps : keeps W (gone t) (AiGhost i).
Proof.
  intros s Hs. unfold AiGhost. wp_step. apply (RandMod_use true); [lia|exact Hs|].
  intros d u Hd Hu. wp_step. apply (mon_use true); [exact Hu|exact Hi|].
  intros m _ _. wp_step. apply wp_aget.
  destruct (rd_Some kGhostDx d) as [x Ex]; [cbn; lia|]. exists x. split; [exact Ex|].
  wp_step. apply wp_aget.
  destruct (rd_Some kGhostDy d) as [y Ey]; [cbn; lia|]. exists y. split; [exact Ey|].
  wp_steps. apply (keeps_use W); [by apply ApplyStep_keeps| |by intros].
  wf_set; apply u8_byte.
Qed.

Lemma moveMonster_keeps : keeps W (gone t) (moveMonster i).
Proof.
  intros s Hs. unfold moveMonster. wp_step. apply (mon_use true);
    [exact Hs|exact Hi|]. intros m _ _. cbv zeta.
  wp_steps; [exact Hs|by apply AiGhost_keeps|..].
  - unfold AiDeath. wp_step. apply (RandMod_use true); [lia|exact Hs|].
    intros r u _ Hu. wp_steps; [by apply AiUndead_keeps|exact Hu].
  - revert s Hs. unfold AiSkeleton. fold (keeps W (gone t) (byAxis
      (tryBoth TryStepX TryStepY) (tryBoth TryStepY TryStepX) i)). chase.
  - unfold AiTroll. wp_step. apply (mon_use true); [exact Hs|exact Hi|].
    intros m' _ _. wp_steps; [by apply AiUndead_keeps|]. revert Hs. revert s. chase.
  - revert Hs. unfold AiBoss. revert s. chase.
  - by apply AiUndead_keeps.
Qed.
End Ai.

Lemma slots_each (body : Z -> M ()) :
  (forall i, 0 <= i < 16 -> keeps W (gone t) (body i)) ->
  keeps W (gone t) (each (seqZ 0 MON_COUNT) body).
Proof.
  intros H. apply keeps_each. intros i Hi. apply elem_of_seqZ in Hi.
  apply H. unfold MON_COUNT in Hi. lia.
Qed.

Lemma MoveMonsters_keeps : keeps W (gone t) MoveMonsters.
Proof. apply slots_each. intros i Hi. by apply moveMonster_keeps. Qed.

Lemma ClearHurt_keeps : keeps W (gone t) ClearHurtFlags.
Proof.
  unfold ClearHurtFlags. apply keeps_bind; [keep|]. intros _. apply slots_each.
  intros i Hi s Hs. wp_step. apply (mon_use true); [exact Hs|exact Hi|].
  intros m _ _. wp_steps; [by apply upd_mon_keeps|exact Hs].
Qed.
End Combat.

#[export] Hint Resolve TriggerPit_keeps MoveMonsters_keeps ClearHurt_keeps : keeps.
