(* ===== verification/RogueBagSafe.v ===== *)
(** * RogueBagSafe: the inventory keeps the state well formed

    Picking up, using, throwing and listing items ([rogue_item.c] and
    [ShowInventory] of [rogue_ui.c]), from a well-formed state. *)

From S2P Require Import Prelude.
From S2P Require Import RogueState.
From S2P Require Import RogueMap.
From S2P Require Import RogueMsg.
From S2P Require Import Vdp.
From S2P Require Import RogueDraw.
From S2P Require Import RogueUi.
From S2P Require Import RoguePools.
From S2P Require Import RogueGen.
From S2P Require Import RogueFov.
From S2P Require Import RogueMon.
From S2P Require Import RogueItem.
From S2P Require Import RogueMain.
From S2P Require Import RogueInv.
From S2P Require Import RoguePaint.
From S2P Require Import RogueMapFacts.
From S2P Require Import RogueFindFacts.
From S2P Require Import RogueXpFacts.
From S2P Require Import RogueSafe.
From stdpp Require Import base list numbers option decidable strings.

Open Scope Z_scope.

(** ** The bag *)

Section Bag.
Context (t : bool).
Implicit Types s : Game.
Abbreviation W := (wf true t).

Lemma bag_wr l i v : bag_ok l -> slot_ok v -> bag_ok (wr l i v).
Proof. intros [Hl Hf] Hv. split; [by rewrite wr_length|by apply wr_Forall]. Qed.

Lemma bag_wf l s : W s -> bag_ok l -> W (set_gInv l s).
Proof. wf_set. Qed.

Lemma inv_aset_keeps i v :
  0 <= i < 26 -> slot_ok v -> keeps W (gone t) (aset gInv set_gInv i v).
Proof.
  intros Hi Hv s Hs. apply wp_aset.
  - apply rd_Some. rewrite (proj1 (sh_inv _ (wf_shape _ _ _ Hs))). lia.
  - wf_set. by apply bag_wr.
Qed.

Lemma inv_use i (Q : InvSlot -> Game -> Prop) s :
  W s -> 0 <= i < 26 -> (forall v, slot_ok v -> Q v s) -> wp (inv i) Q (gone t) s.
Proof.
  intros Hs Hi HQ. unfold inv. wp_steps. apply wp_aget.
  pose proof (sh_inv _ (wf_shape _ _ _ Hs)) as [Hl Hf].
  destruct (rd_Some (gInv s) i) as [v E]; [lia|]. exists v. split; [exact E|].
  apply HQ. exact (rd_Forall _ _ _ _ Hf E).
Qed.

Lemma upd_inv_keeps i f :
  0 <= i < 26 -> (forall v, slot_ok v -> slot_ok (f v)) -> keeps W (gone t) (upd_inv i f).
Proof.
  intros Hi Hf s Hs. unfold upd_inv. wp_step. apply inv_use; [exact Hs|exact Hi|].
  intros v Hv. apply inv_aset_keeps; auto.
Qed.

Lemma qty_ok n v : byte n -> slot_ok v -> slot_ok (set_i_qty n v).
Proof. unfold slot_ok. cbn. tauto. Qed.

(** [ConsumeInvSlot] only touches the bag. *)
Lemma wp_Consume i (Q : () -> Game -> Prop) X s :
  bag_ok (gInv s) -> 0 <= i < 26 ->
  (forall l, bag_ok l -> Q tt (set_gInv l s)) -> wp (ConsumeInvSlot i) Q X s.
Proof.
  intros Hb Hi HQ. unfold ConsumeInvSlot, upd_inv, inv.
  destruct (rd_Some (gInv s) i) as [v E]; [rewrite (proj1 Hb); lia|].
  pose proof (rd_Forall _ _ _ _ (proj2 Hb) E) as Hv.
  set (v' := set_i_qty (u8 (i_qty v - 1)) v).
  assert (Hv' : slot_ok v') by (apply qty_ok; [apply u8_byte|exact Hv]).
  assert (Hb' : bag_ok (wr (gInv s) i v')) by (by apply bag_wr).
  assert (E' : rd (wr (gInv s) i v') i = Some v').
  { rewrite rd_wr by (rewrite ?(proj1 Hb); lia). by rewrite Z.eqb_refl. }
  wp_steps. apply wp_aget. exists v. split; [exact E|].
  apply wp_aset; [by rewrite E|]. wp_steps. apply wp_aget.
  exists v'. split; [exact E'|]. wp_steps; [|by apply HQ].
  apply wp_aget. exists v'. split; [exact E'|]. apply wp_aset;
  [change (is_Some (rd (wr (gInv s) i v') i)); by rewrite E'|].
  refine (HQ _ _). apply bag_wr; [exact Hb'|].
  revert Hv'. unfold slot_ok. cbn. intuition lia.
Qed.

Lemma Consume_keeps i : 0 <= i < 26 -> keeps W (gone t) (ConsumeInvSlot i).
Proof.
  intros Hi s Hs. apply wp_Consume; [apply Hs|exact Hi|]. intros l Hl. wf_set.
Qed.

Lemma Recompute_keeps : keeps W (gone t) RecomputePlayerStats.
Proof.
  intros s Hs. apply wp_Recompute.
  destruct (he_growth _ (wf_hero _ _ _ Hs)) as (Hb & _ & Ea & Ed & _).
  destruct (he_weapon _ (wf_hero _ _ _ Hs)) as (? & ? & _).
  destruct (he_armor _ (wf_hero _ _ _ Hs)) as (? & ? & _). unfold byte in Hb.
  destruct (recompute_buffs s) as [Hw Ha]; try assumption;
    try (Z.to_euclidean_division_equations; lia).
  wf_set.
Qed.

Lemma takeItem_keeps w : 0 <= w < 8 -> keeps W (gone t) (takeItem w).
Proof.
  intros Hw s Hs. unfold takeItem. wp_steps. apply wp_aget.
  pose proof (sh_item _ (wf_shape _ _ _ Hs)) as [Hl Hf].
  destruct (rd_Some (gItem s) w) as [v E]; [lia|]. exists v. split; [exact E|].
  wp_step. apply (keeps_use W); [|exact Hs|by intros ? u Hu; apply emit_keeps].
  apply item_aset_keeps; [exact Hw|]. pose proof (rd_Forall _ _ _ _ Hf E) as Hv.
  revert Hv. unfold item_ok. cbn. intuition lia.
Qed.

Lemma scan_in {A} (f : A -> bool) (l : list A) n :
  Z.of_nat (length l) = n -> 0 <= scan f l 0 -> 0 <= scan f l 0 < n.
Proof. intros <- H. destruct (scan_range f l 0); lia. Qed.

Lemma TryPickup_keeps : keeps W (gone t) TryPickupItem.
Proof.
  intros s Hs. unfold TryPickupItem. do 8 wp_step. set (u := set_gTgtRow _ _).
  assert (Hu : W u).
  { destruct (wf_spot _ _ _ Hs eq_refl) as [Hc Hr]. unfold u.
    wf_set; unfold byte; cbn; lia. }
  clearbody u. pose proof (sh_item _ (wf_shape _ _ _ Hu)) as [Hl Hf].
  pose proof (proj1 (sh_inv _ (wf_shape _ _ _ Hu))) as Hb.
  cbv zeta. apply wp_if; intros Hw; [exact Hu|]. unbool.
  destruct (scan_found _ _ Hw) as (it & E & _). wp_step. apply wp_aget.
  exists it. split; [exact E|]. pose proof (rd_Forall _ _ _ _ Hf E) as (Ht & Hsub & _).
  assert (Hr : 0 <= ItemAtTarget u < 8) by (apply scan_in; [by rewrite Hl|exact Hw]).
  apply wp_if; intros Hd.
  - wp_step. apply wp_when; intros Hq; [wp_step|]; apply takeItem_keeps; try done.
    pose proof (he_dagger _ (wf_hero _ _ _ Hu)) as Hd'. unbool.
    wf_set. unfold DAGGER_QTY_MAX in *. cbn. rewrite u8_small; lia.
  - apply wp_if; intros Hsl.
    + unbool. wp_step. apply (keeps_use W); [|exact Hu|by intros ? v Hv; apply takeItem_keeps].
      apply upd_inv_keeps; [|intros v; apply qty_ok, u8_byte].
      apply scan_in; [by rewrite Hb|exact Hsl].
    + apply wp_if; intros He; [exact Hu|]. unbool. wp_step.
      apply (keeps_use W); [|exact Hu|by intros ? v Hv; apply takeItem_keeps].
      apply inv_aset_keeps; [apply scan_in; [by rewrite Hb|exact He]|].
      unfold slot_ok, byte. cbn -[LookupItemValue]. rewrite Hsub. split_and!; done || lia.
Qed.

(** ** Using a slot *)

Lemma value_range v : slot_ok v -> i_type v <> 0 -> 0 <= i_value v <= 5.
Proof.
  intros (_ & _ & _ & H) Hn. rewrite (H Hn). unfold LookupItemValue, FOOD_HEAL, RING_F_REGEN.
  cbn [negb Z.eqb]. split_tests; lia.
Qed.

Lemma ring_value v : slot_ok v -> i_type v = ITEM_T_RING -> i_value v = RING_F_REGEN.
Proof. intros (_ & _ & _ & H) E. rewrite H; rewrite E; done. Qed.

Lemma weapon_wf b n s :
  W s -> 0 <= b <= 5 -> 0 <= n <= WEAPON_DURATION ->
  W (recompute (set_gWeaponTimer n (set_gWeaponBoost b s))).
Proof.
  intros Hs Hb Hn. destruct (he_growth _ (wf_hero _ _ _ Hs)) as (Hx & _ & Ea & Ed & _).
  destruct (he_armor _ (wf_hero _ _ _ Hs)) as (? & ? & _). unfold byte in Hx.
  destruct (recompute_buffs (set_gWeaponTimer n (set_gWeaponBoost b s)))
    as [Hw Ha]; cbn [gWeaponTimer gWeaponBoost gArmorTimer gArmorBoost gXpAtkBonus
      gXpDefBonus set_gWeaponTimer set_gWeaponBoost]; try assumption;
    try (Z.to_euclidean_division_equations; lia).
  wf_set.
Qed.

Lemma armor_wf b n s :
  W s -> 0 <= b <= 5 -> 0 <= n <= ARMOR_DURATION ->
  W (recompute (set_gArmorTimer n (set_gArmorBoost b s))).
Proof.
  intros Hs Hb Hn. destruct (he_growth _ (wf_hero _ _ _ Hs)) as (Hx & _ & Ea & Ed & _).
  destruct (he_weapon _ (wf_hero _ _ _ Hs)) as (? & ? & _). unfold byte in Hx.
  destruct (recompute_buffs (set_gArmorTimer n (set_gArmorBoost b s)))
    as [Hw Ha]; cbn [gWeaponTimer gWeaponBoost gArmorTimer gArmorBoost gXpAtkBonus
      gXpDefBonus set_gArmorTimer set_gArmorBoost]; try assumption;
    try (Z.to_euclidean_division_equations; lia).
  wf_set.
Qed.

(** Healing is capped at the maximum and cannot wrap. *)
Lemma heal_bound hp hpMax value :
  0 <= hp <= hpMax -> hpMax <= 65 -> 0 <= value <= 5 ->
  0 <= (if hpMax <? u8 (hp + value) then hpMax else u8 (hp + value)) <= hpMax /\
  (if hpMax <? u8 (hp + value) then hpMax else u8 (hp + value))
    = Z.min hpMax (hp + value).
Proof.
  intros Hhp Hm Hvl. rewrite u8_small by lia.
  destruct (Z.ltb_spec hpMax (hp + value)); lia.
Qed.

Lemma hpMax_bound s : hero s -> gHpMax s <= 65.
Proof.
  intros Hh. destruct (he_growth _ Hh) as (Hb & Em & _). unfold byte, HP_MAX in *.
  Z.to_euclidean_division_equations. lia.
Qed.

Section Use.
Context (i : Z) (Hi : 0 <= i < 26) (v : InvSlot) (Hv : slot_ok v).

(** The tail every buff shares: a sound, a repaint, a free action. *)
Lemma buff_tail (b : bool) s : W s -> wp (SfxPlay SFX_BUFF ;; RedrawGame ;; mret b : M bool)
  (fun _ => W) (gone t) s.
Proof. intros Hs. apply keeps_now; [keep|exact Hs]. Qed.

Lemma useWeapon_keeps : i_type v <> 0 -> keeps W (gone t) (useWeapon i v).
Proof.
  intros Hn s Hs. pose proof (value_range v Hv Hn). unfold useWeapon. do 5 wp_step.
  apply wp_Consume; [apply Hs|exact Hi|]. intros l Hl. wp_step. apply wp_Recompute.
  apply buff_tail. change (set_gInv l _) with (set_gWeaponTimer WEAPON_DURATION
    (set_gWeaponBoost (i_value v) (set_gInv l s))). apply weapon_wf;
    [by apply bag_wf|lia|done].
Qed.

Lemma useArmor_keeps : i_type v <> 0 -> keeps W (gone t) (useArmor i v).
Proof.
  intros Hn s Hs. pose proof (value_range v Hv Hn). unfold useArmor. do 5 wp_step.
  apply wp_Consume; [apply Hs|exact Hi|]. intros l Hl. wp_step. apply wp_Recompute.
  apply buff_tail. change (set_gInv l _) with (set_gArmorTimer ARMOR_DURATION
    (set_gArmorBoost (i_value v) (set_gInv l s))). apply armor_wf;
    [by apply bag_wf|lia|done].
Qed.

Lemma useTorch_keeps : keeps W (gone t) (useTorch i).
Proof.
  pose proof (Consume_keeps i Hi). unfold useTorch. keep.
  all: wf_set; unfold TORCH_DURATION; cbn; lia.
Qed.

Lemma useRing_keeps : i_type v = ITEM_T_RING -> keeps W (gone t) (useRing i v).
Proof.
  intros E s Hs. pose proof (ring_value v Hv E) as Er. unfold useRing. do 8 wp_step.
  wp_step. apply (keeps_use W); [by apply Consume_keeps| |by intros; apply buff_tail].
  rewrite Er. destruct (he_ring _ (wf_hero _ _ _ Hs)) as (_ & Hr).
  wf_set. unfold ring_ok, RING_REGEN_PERIOD, RING_DURATION, RING_F_REGEN in *. cbn.
  split; [lia|]. right. split; [lia|]. split; [|done].
  destruct Hr as [[_ ->]|[_ [-> _]]]; done.
Qed.

Lemma useHeal_keeps : i_type v <> 0 -> keeps W (gone t) (useHeal i v).
Proof.
  intros Hn s Hs. unfold useHeal. wp_step. wp_step. cbv zeta. wp_step. wp_step. wp_step.
  apply (keeps_use W); [by apply Consume_keeps| |].
  - destruct (heal_bound (gHp s) (gHpMax s) (i_value v)) as [Hb _];
      [apply Hs|by apply hpMax_bound, Hs|by apply value_range|]. wf_set.
  - intros _ u Hu. apply keeps_now; [keep|exact Hu].
Qed.

Lemma useScroll_keeps : keeps W (gone t) (useScroll i).
Proof.
  pose proof (Consume_keeps i Hi).
  unfold useScroll. keep.
  apply cells_each. intros k Hk. by apply vis_aset_keeps.
Qed.
End Use.

Lemma Dispatch_keeps i : 0 <= i < 26 -> keeps W (gone t) (DispatchUseSlot i).
Proof.
  intros Hi s Hs. unfold DispatchUseSlot. wp_step. apply inv_use; [exact Hs|exact Hi|].
  intros v Hv. cbv zeta. unfold ITEM_T_WEAPON, ITEM_T_ARMOR, ITEM_T_FOOD, ITEM_T_POTION.
  apply wp_if; intros E1; unbool; [apply useWeapon_keeps; by try lia|].
  apply wp_if; intros E2; unbool; [apply useArmor_keeps; by try lia|].
  apply wp_if; intros E3; unbool; [by apply useTorch_keeps|].
  apply wp_if; intros E4; unbool; [by apply useRing_keeps|].
  apply wp_if; intros E5; [apply useHeal_keeps; try done|].
  { apply orb_true_iff in E5 as [E5|E5]; unbool; lia. }
  apply wp_if; intros E6; [by apply useScroll_keeps|].
  apply keeps_now; [keep|exact Hs].
Qed.
End Bag.

#[export] Hint Resolve TryPickup_keeps Recompute_keeps : keeps.

(** ** Throwing and listing *)

Section Throw.
Context (t : bool).
Implicit Types s : Game.
Abbreviation W := (wf true t).

Lemma MonsterAt_range s : W s -> 0 <= MonsterAtTarget s -> 0 <= MonsterAtTarget s < 16.
Proof.
  intros Hs. apply scan_in. by rewrite (proj1 (sh_mon _ (wf_shape _ _ _ Hs))).
Qed.

Lemma daggerHit_keeps k : 0 <= k < 16 -> keeps W (gone t) (daggerHit k).
Proof.
  intros Hk s Hs. unfold daggerHit. wp_step.
  apply (mon_use true); [exact Hs|exact Hk|]. intros m _ _. cbv zeta. wp_step.
  apply (keeps_use W); [apply upd_mon_keeps; [exact Hk|]|exact Hs|].
  { intros m'. apply hp_ok, u8_byte. }
  intros _ u Hu. wp_step. apply (mon_use true); [exact Hu|exact Hk|]. intros m' _ _.
  apply keeps_now; [|exact Hu].
  pose proof (upd_mon_keeps true t k (set_m_type 0) Hk dead_ok).
  pose proof (upd_mon_keeps true t k (set_m_hurt 1) Hk (hurt_ok 1)).
  keep.
Qed.

Lemma fly_keeps n dx dy : keeps W (gone t) (fly n dx dy).
Proof.
  induction n as [|n IH]; [apply keeps_ret|]. intros s Hs. cbn [fly]. do 6 wp_step.
  set (u := set_gCurY _ _). assert (Hu : W u) by (unfold u; wf_set). clearbody u.
  apply wp_if; intros Hy; [exact Hu|]. apply wp_if; intros Hx; [exact Hu|].
  apply wp_if; intros _; [exact Hu|]. do 6 wp_step. set (v := set_gTgtRow _ _).
  assert (Hv : W v).
  { unfold v. unfold PLAY_TOP_ROW, PLAY_BOT_ROW, PLAY_LEFT_COL, PLAY_RIGHT_COL in *.
    unbool. wf_set; unfold byte; cbn; lia. }
  clearbody v. cbv zeta. apply wp_if; intros Hk; unbool.
  - apply daggerHit_keeps; [by apply MonsterAt_range|exact Hv].
  - apply keeps_now; [keep|exact Hv].
Qed.

(** With a dagger in the quiver. *)
Definition armed s : Prop := W s /\ gDaggerQty s <> 0.

#[local] Instance armed_paints : Paints armed.
Proof.
  split; [by intros s [[]]|intros v s [Hs Hn] Hv|intros o s [Hs Hn]];
    (split; [wf_set|exact Hn]).
Qed.

Lemma HandleThrow_keeps : keeps W (gone t) HandleThrow.
Proof.
  intros s Hs. unfold HandleThrow. wp_step. wp_step.
  apply wp_if; intros Hq; unbool; [apply keeps_now; [keep|exact Hs]|].
  wp_step. apply (keeps_use armed); [apply PrintMsgRow_keeps; typeclasses eauto|done|].
  intros _ u [Hu Hn]. wp_steps. unfold wp at 1, ShellWaitKey. cbn [input set_out].
  destruct (input u) as [|[c|] rest]; [apply (wf_gone true); wf_set| |].
  2: { apply (wf_gone true). wf_set. }
  destruct (ParseDirection c) as [[dx dy]|].
  - wp_step. wp_step. pose proof (fly_keeps (Z.to_nat THROW_RANGE) dx dy) as Hf.
    apply keeps_now; [keep; wf_set|].
    pose proof (he_dagger _ (wf_hero _ _ _ Hu)) as Hd. wf_set.
    unfold DAGGER_QTY_MAX in *. cbn. rewrite u8_small; lia.
  - apply keeps_now; [keep|wf_set].
Qed.

(** The listing calls [body] on slots of the bag only. *)
Lemma listSlots_keeps body : (forall row i, 0 <= i < 26 -> keeps W (gone t) (body row i)) ->
  forall l, Forall (fun i => 0 <= i < 26) l ->
  forall row drawn, keeps W (gone t) (listSlots l row drawn body).
Proof.
  intros Hb l Hl. induction Hl as [|i l Hi Hl IH]; intros row drawn; [apply keeps_ret|].
  cbn [listSlots]. pose proof (Hb row i Hi) as Hbi. intros s Hs. wp_step.
  apply inv_use; [exact Hs|exact Hi|]. intros v _. apply keeps_now; [|exact Hs].
  apply keeps_if; [apply IH|]. apply keeps_if; [apply keeps_ret|].
  apply keeps_bind; [exact Hbi|]. intros _. apply IH.
Qed.

Lemma slotSprite_keeps row i : 0 <= i < 26 -> keeps W (gone t) (slotSprite row i).
Proof.
  intros Hi s Hs. unfold slotSprite. wp_step. apply inv_use; [exact Hs|exact Hi|].
  intros v (Ht & _). destruct (rd_Some kItemSprite (i_type v)) as [a Ea]; [cbn; lia|].
  destruct (rd_Some kItemColor (i_type v)) as [b Eb]; [cbn; lia|].
  wp_step. apply wp_aget. exists a. split; [exact Ea|]. wp_step. apply wp_aget.
  exists b. split; [exact Eb|]. apply keeps_now; [keep|exact Hs].
Qed.

Lemma bag_slots : Forall (fun i => 0 <= i < 26) (seqZ 0 INV_COUNT).
Proof. apply Forall_forall. intros i Hi. apply elem_of_seqZ in Hi. unfold INV_COUNT in Hi. lia. Qed.

Lemma ShowInventory_keeps : keeps W (gone t) ShowInventory.
Proof.
  pose proof (listSlots_keeps slotSprite slotSprite_keeps _ bag_slots 3 0) as H1.
  pose proof (listSlots_keeps DrawInvLine (DrawInvLine_keeps W (gone t)) _ bag_slots 3 0) as H2.
  unfold ShowInventory. do 9 (apply keeps_bind; [keep|intros ?]).
  apply keeps_bind; [keep|]. intros c' w Hw. apply wp_if; intros Hc; [|apply keeps_now; [keep|exact Hw]].
  cbv zeta. unbool. rewrite s16_small by lia.
  apply wp_if; intros Hi; [|apply keeps_now; [keep|exact Hw]]. wp_step.
  apply inv_use; [exact Hw|lia|]. intros i _.
  pose proof (Dispatch_keeps t (c' - 65) ltac:(lia)). apply keeps_now; [keep|exact Hw].
Qed.
End Throw.

#[export] Hint Resolve HandleThrow_keeps ShowInventory_keeps : keeps.
