(* ===== verification/RogueTurnSafe.v ===== *)
(** * RogueTurnSafe: the turn, the floors and the whole game

    [rogue_main.c] from a well-formed state, up to [RogueRun]: the game never
    reads or writes outside an array and no loop outlives its bound. *)

From S2P Require Import Prelude.
From S2P Require Import RogueState.
From S2P Require Import RogueMap.
From S2P Require Import RogueMsg.
From S2P Require Import Vdp.
From S2P Require Import RogueDraw.
From S2P Require Import RogueUi.
From S2P Require Import RoguePools.
From S2P Require Import RogueGen.
From S2P Require Import RogueFov.
From S2P Require Import RogueMon.
From S2P Require Import RogueItem.
From S2P Require Import RogueMain.
From S2P Require Import RogueInv.
From S2P Require Import RoguePaint.
From S2P Require Import RogueMapFacts.
From S2P Require Import RogueFindFacts.
From S2P Require Import RogueXpFacts.
From S2P Require Import RogueSafe.
From S2P Require Import RogueBagSafe.
From S2P Require Import RogueFrame.
From stdpp Require Import base list numbers option decidable strings.

Open Scope Z_scope.

(** ** The countdowns of a turn *)

Section Countdowns.
Context (t : bool).
Implicit Types s : Game.
Abbreviation W := (wf true t).

Lemma regenPulse_keeps : keeps W (gone t) regenPulse.
Proof.
  intros s Hs. pose proof (he_hp _ (wf_hero _ _ _ Hs)) as Hhp.
  pose proof (hpMax_bound _ (wf_hero _ _ _ Hs)) as Hm.
  destruct (he_ring _ (wf_hero _ _ _ Hs)) as [Ht Hr]. unfold regenPulse.
  wp_steps; unbool; try exact Hs; wf_set; cbn; try (rewrite u8_small; lia);
    (split; [cbn|exact Hr]); unfold RING_REGEN_PERIOD in *; try lia.
  rewrite u8_small; lia.
Qed.

(** A countdown that has not reached 0 leaves the statistic alone. *)
Lemma buff_tick stat timer boost base bonus limit :
  buff_ok stat timer boost base bonus limit -> limit < 256 -> timer <> 0 ->
  u8 (timer - 1) <> 0 ->
  buff_ok stat (u8 (timer - 1)) boost base bonus limit.
Proof.
  unfold buff_ok. intros (Ht & Hb & ->) Hl Hn Hn'. rewrite u8_small in * by lia.
  split; [lia|]. split; [exact Hb|]. by rewrite !(proj2 (Z.eqb_neq _ _)) by assumption.
Qed.

Lemma weaponCountdown_keeps : keeps W (gone t) weaponCountdown.
Proof.
  intros s Hs. pose proof (he_weapon _ (wf_hero _ _ _ Hs)) as Hw. unfold weaponCountdown.
  wp_steps; unbool; [|wf_set; by apply buff_tick|exact Hs].
  apply wp_Recompute. destruct Hw as (_ & Hb & _).
  apply (weapon_wf t (gWeaponBoost s) (u8 (gWeaponTimer s - 1)) s Hs Hb).
  match goal with E : gWeaponTimer _ = 0 |- _ => cbn in E; rewrite E end. done.
Qed.

Lemma armorCountdown_keeps : keeps W (gone t) armorCountdown.
Proof.
  intros s Hs. pose proof (he_armor _ (wf_hero _ _ _ Hs)) as Hw. unfold armorCountdown.
  wp_steps; unbool; [|wf_set; by apply buff_tick|exact Hs].
  apply wp_Recompute. destruct Hw as (_ & Hb & _).
  apply (armor_wf t (gArmorBoost s) (u8 (gArmorTimer s - 1)) s Hs Hb).
  match goal with E : gArmorTimer _ = 0 |- _ => cbn in E; rewrite E end. done.
Qed.

Lemma torchCountdown_keeps : keeps W (gone t) torchCountdown.
Proof.
  intros s Hs. pose proof (he_torch _ (wf_hero _ _ _ Hs)) as Hw. unfold torchCountdown.
  wp_steps; unbool; [|exact Hs]. wf_set. unfold TORCH_DURATION in *. cbn.
  rewrite u8_small; lia.
Qed.

Lemma ringCountdown_keeps : keeps W (gone t) ringCountdown.
Proof.
  intros s Hs. destruct (he_ring _ (wf_hero _ _ _ Hs)) as [Ht Hr]. unfold ringCountdown.
  wp_steps; unbool; try exact Hs; destruct Hr as [[? ?]|(Hn & Ef & Eb)]; try lia;
    wf_set; (split; [exact Ht|cbn in *]).
  - left. rewrite Ef, Eb. done.
  - right. unfold RING_DURATION in *. rewrite u8_small in * by lia. split_and!; done || lia.
Qed.

Lemma FinishTurn_keeps : keeps W (gone t) FinishTurn.
Proof.
  pose proof regenPulse_keeps. pose proof weaponCountdown_keeps.
  pose proof armorCountdown_keeps. pose proof torchCountdown_keeps.
  pose proof ringCountdown_keeps. unfold FinishTurn. keep.
Qed.
End Countdowns.

#[export] Hint Resolve FinishTurn_keeps : keeps.

(** ** Floors *)

Section Floors.
Context (t : bool).
Implicit Types s : Game.
Abbreviation W := (wf true t).

(** A fresh floor: the stairs, or a door in the wall of the last one. *)
Lemma ordinaryLevel_places p s :
  wf p t s -> wp ordinaryLevel (fun _ => W) (gone t) s.
Proof.
  intros Hs. unfold ordinaryLevel. wp_step. wp_step. wp_step.
  apply (wp_mono _ (fun _ => W) _ (gone t) (gone t)); [|intros ? u Hu|done].
  - apply wp_if; intros Hm; [|by apply (GenDungeon_places t p)]. unbool.
    apply wp_assoc, wp_bind. eapply wp_mono; [apply (wp_steps_conj same_mode _ (fun _ => W));
      [|exact GenBigRoom_same_mode]|intros ? u [Hu Eu]|by intros ? []].
    + wp_step.
      apply (keeps_use (wf p t)); [apply MapFillWalls_keeps|exact Hs|].
      intros ? v Hv. by apply (GenBigRoom_places p).
    + apply ApplyWrapSpawn_keeps; [exact Hu|]. by rewrite Eu.
  - apply keeps_now; [keep|exact Hu].
Qed.

Lemma bossLevel_places p s : wf p t s -> wp bossLevel (fun _ => W) (gone t) s.
Proof.
  intros Hs. unfold bossLevel. wp_step.
  apply (keeps_use (wf p t)); [apply MapFillWalls_keeps|exact Hs|]. intros ? u Hu. wp_step.
  eapply wp_mono; [by apply (GenBossRoom_places p)|intros ? v Hv|done].
  by apply SpawnBoss_keeps.
Qed.

Lemma depth_wf p s : wf p t s -> wf p t (set_gDepth (u8 (gDepth s + 1)) s).
Proof. wf_set. apply u8_byte. Qed.

Lemma NewLevel_places p s : wf p t s -> wp NewLevel (fun _ => W) (gone t) s.
Proof.
  intros Hs. unfold NewLevel. wp_step.
  apply (keeps_use (wf p t)); [keep|exact Hs|]. intros ? v Hv. wp_step. wp_step. wp_step.
  apply (keeps_use (wf p t)); [keep; by apply depth_wf|exact Hv|].
  intros ? u Hu. wp_step. wp_step. wp_step.
  apply (wp_mono _ (fun _ => W) _ (gone t) (gone t)); [|intros ? w Hw|done].
  - apply wp_if; intros _; [by apply (bossLevel_places p)|by apply (ordinaryLevel_places p)].
  - apply keeps_now; [keep|exact Hw].
Qed.
End Floors.

(** ** The player's turn *)

Section Turn.
Context (t : bool).
Implicit Types s : Game.
Abbreviation W := (wf true t).

(** The target is one orthogonal step away from an interior cell. *)
Definition near (c r : Z) : Prop :=
  (1 <= c <= 14 /\ 0 <= r <= 9) \/ (0 <= c <= 15 /\ 1 <= r <= 8).

Lemma leaveBy_keeps mode anchor s :
  W s -> anchor_ok mode anchor -> wp (leaveBy mode anchor) (fun _ => W) (gone t) s.
Proof.
  intros Hs Ha. unfold leaveBy. do 5 wp_step.
  eapply wp_mono; [apply (NewLevel_places t true); wf_set|intros ? u Hu|done].
  by apply FinishTurn_keeps.
Qed.

Lemma placed_wf c r s : W s -> interior c r -> W (set_gPlayerRow r (set_gPlayerCol c s)).
Proof. wf_set. by intros. Qed.

Lemma enterTarget_keeps s :
  W s -> near (gTgtCol s) (gTgtRow s) -> wp enterTarget (fun _ => W) (gone t) s.
Proof.
  intros Hs Hn. unfold near in Hn. unfold enterTarget. wp_step. wp_step. cbv zeta.
  apply wp_if; intros _.
  { do 5 wp_step. eapply wp_mono; [apply (NewLevel_places t true)|intros ? u Hu|done].
    - wf_set. unfold anchor_ok. cbn. lia.
    - by apply FinishTurn_keeps. }
  repeat (apply wp_if; intros ?; unbool;
    [apply leaveBy_keeps; [exact Hs|unfold anchor_ok; lia]|]).
  do 4 wp_step. apply keeps_now; [keep|].
  apply placed_wf; [exact Hs|unfold interior; lia].
Qed.

Lemma HandleInput_use key (Q : bool -> Game -> Prop) s :
  W s -> (forall b u, W u -> near (gTgtCol u) (gTgtRow u) -> Q b u) ->
  wp (HandleInput key) Q (gone t) s.
Proof.
  intros Hs HQ. destruct (wf_spot _ _ _ Hs eq_refl) as [Hc Hr]. unfold HandleInput.
  wp_steps; apply HQ; unfold near; cbn -[u8]; rewrite ?u8_small by lia; try lia;
    wf_set; unfold byte; cbn -[u8]; rewrite ?u8_small; lia.
Qed.

Lemma MonsterTurn_keeps : keeps W (gone t) MonsterTurnAndFinish.
Proof. unfold MonsterTurnAndFinish. keep. Qed.

Lemma turnFor_keeps key : keeps W (gone t) (turnFor key).
Proof.
  pose proof MonsterTurn_keeps as Hm. unfold turnFor.
  apply keeps_if; [keep|]. apply keeps_if; [keep|].
  apply keeps_if; [unfold ShowHelp; keep|]. apply keeps_if; [keep|].
  intros s Hs. wp_step. apply HandleInput_use; [exact Hs|]. intros b u Hu Hn.
  apply wp_if; intros _; [exact Hu|]. wp_step. wp_step. cbv zeta.
  apply wp_if; intros Hk; unbool.
  - pose proof (PlayerAttack_keeps t _ (MonsterAt_range t u Hu Hk)) as Hp.
    apply keeps_now; [keep|exact Hu].
  - apply wp_if; intros _; [exact Hu|]. by apply enterTarget_keeps.
Qed.

Lemma loopBody_keeps : keeps W (gone t) loopBody.
Proof. pose proof turnFor_keeps. unfold loopBody. keep. Qed.

(** The keys left bound the loop: it ends by leaving the game, never by
    running out of fuel. *)
Lemma MainLoop_leaves fuel : forall s,
  W s -> (length (input s) < fuel)%nat ->
  wp (MainLoop fuel) (fun _ _ => False) (gone t) s.
Proof.
  induction fuel as [|fuel IH]; intros s Hs Hf; [lia|]. cbn [MainLoop]. wp_step.
  pose proof (loopBody_keeps s Hs) as H. unfold wp at 1. unfold wp in H.
  destruct (loopBody s) as [[] u| | |] eqn:E; try exact H.
  apply IH; [exact H|]. apply loopBody_consumes in E. lia.
Qed.
End Turn.

(** ** The whole game *)

Section Game.
Context (t : bool).
Implicit Types s : Game.
Abbreviation X := (gone t).

Lemma gone_WaitKey : keeps X X ShellWaitKey.
Proof.
  intros s [Hs Ht]. unfold wp, ShellWaitKey. destruct (input s) as [|[c|] rest];
    (split; [wf_set|exact Ht]).
Qed.

(** The seed of the generator is never zero, and its halves are bytes. *)
Lemma gone_KbChoice : keeps X X WaitKbChoice.
Proof.
  intros s [Hs Ht]. unfold WaitKbChoice, ShellTickCount, PrngSeed. wp_step. wp_step.
  wp_step. apply (keeps_use X); [apply gone_WaitKey|split; [wf_set|exact Ht]|].
  intros key u [Hu Hl]. wp_steps; (split; [|exact Hl]); wf_set; wf_side.
Qed.

Lemma titleScreen_keeps (Y : Game -> Prop) : keeps X Y titleScreen.
Proof. unfold titleScreen. keep. Qed.

Lemma afterTitle_places s : X s -> wp afterTitle (fun _ => wf true t) X s.
Proof.
  pose proof gone_WaitKey. pose proof gone_KbChoice.
  intros Hs. unfold afterTitle.
  do 5 (wp_step; apply (keeps_use X); [keep|eassumption|];
        clear dependent s; intros ? s Hs).
  destruct Hs as [Hs Ht]. wp_step. eapply wp_mono; [by apply newGame_run| |done].
  intros ? u (Hu & Hh & El & _). wp_step. wp_step.
  assert (Hw : wf false t u) by (split; [done..|by rewrite El]).
  apply wp_if; intros _.
  - do 4 wp_step. apply (NewLevel_places t false). wf_set; [unfold byte; cbn; lia|].
    unfold anchor_ok. cbn. lia.
  - wp_step. apply (keeps_use (wf false t)); [keep|exact Hw|]. intros ? v Hv. wp_step.
    eapply wp_mono; [by apply (GenDungeon_places t false)|intros ? w Hw'|done].
    apply keeps_now; [keep|exact Hw'].
Qed.

Lemma RogueRun_leaves s : X s -> wp RogueRun (fun _ _ => False) X s.
Proof.
  intros Hs. unfold RogueRun. wp_step.
  apply (keeps_use X); [apply titleScreen_keeps|exact Hs|]. intros ? v Hv. wp_step.
  eapply wp_mono; [by apply afterTitle_places|intros ? u Hu|done]. wp_step. wp_step.
  apply (MainLoop_leaves t); [exact Hu|lia].
Qed.
End Game.

(** ** Properties *)

(** A program that cannot return leaves the game. *)
Lemma wp_leaves {A} (m : M A) (X : Game -> Prop) s :
  wp m (fun _ _ => False) X s ->
  exists u, X u /\ ((exists reason, m s = Cold reason u) \/ m s = Starved u).
Proof. unfold wp. destruct (m s) as [a u|r u|u|]; [done|eauto..|done]. Qed.

Lemma shape_gone s : shape s -> gone false s.
Proof. by split. Qed.

(** C1. [RogueRun], started in the memory any earlier game may have left
    ([shape]: the arrays have their sizes and hold values in range), never
    reads or writes outside an array, never returns normally and never runs
    longer than the player types: it ends by a cold start or waits for a key,
    and what it leaves behind is again such a memory. *)
Theorem RogueRun_safe (s : Game) :
  shape s ->
  exists u, shape u /\ ((exists reason, RogueRun s = Cold reason u) \/ RogueRun s = Starved u).
Proof.
  intros Hs.
  destruct (wp_leaves _ _ _ (RogueRun_leaves false s (shape_gone s Hs))) as (u & [Hu _] & H).
  by exists u.
Qed.

Lemma RogueRun_safe_witness :
  exists u, shape u /\
    ((exists reason, RogueRun (bootGame [Key 65; Key 13; Key 73; MenuQuit] 4660) = Cold reason u)
     \/ RogueRun (bootGame [Key 65; Key 13; Key 73; MenuQuit] 4660) = Starved u).
Proof. apply RogueRun_safe. apply boot_shape. Defined.

Lemma title_uses s : shape s -> uses_key RogueRun s.
Proof.
  intros Hs. apply RogueRun_uses.
  apply (keeps_use (gone false)); [apply titleScreen_keeps|by apply shape_gone|done].
Qed.

Lemma sessions_leave fuel : forall s,
  shape s -> (length (input s) < fuel)%nat ->
  exists u, shape u /\ (sessions fuel s = Ok tt u \/ sessions fuel s = Starved u).
Proof.
  induction fuel as [|fuel IH]; intros s Hs Hf; [lia|]. cbn [sessions].
  destruct (wp_leaves _ _ _ (RogueRun_leaves false s (shape_gone s Hs)))
    as (u & [Hu _] & [[r E]|E]); pose proof (title_uses s Hs) as Hk; unfold uses_key in Hk;
    rewrite E in *; [|by eauto].
  destruct (r =? COLD_QUIT); [by eauto|]. apply IH; [exact Hu|lia].
Qed.

(** C27. The application: game after game, restarted in the memory the last one
    left, [main] either quits or is waiting for the player, without any access
    outside an array in any of the games. *)
Theorem main_safe (s : Game) :
  shape s -> exists u, shape u /\ (main s = Ok tt u \/ main s = Starved u).
Proof. intros Hs. unfold main. apply sessions_leave; [exact Hs|lia]. Qed.

Lemma main_safe_witness :
  exists u, shape u /\ (main (bootGame [Key 65; Key 13; MenuQuit] 4660) = Ok tt u \/
                        main (bootGame [Key 65; Key 13; MenuQuit] 4660) = Starved u).
Proof. apply main_safe. apply boot_shape. Defined.

(** Once a message has been shown, the message line is never empty again
    while the game runs: no turn clears it, since neither [MsgNewTurn] nor
    [MsgReset] is ever called, although the line is documented as empty on most
    turns. *)
Theorem message_line_sticks (s : Game) (fuel : nat) :
  wf true true s -> (length (input s) < fuel)%nat ->
  exists u, gLine u <> EmptyString /\
    ((exists reason, MainLoop fuel s = Cold reason u) \/ MainLoop fuel s = Starved u).
Proof.
  intros Hs Hf.
  destruct (wp_leaves _ _ _ (MainLoop_leaves true fuel s Hs Hf)) as (u & [_ Hu] & H).
  exists u. split; [by apply Hu|exact H].
Qed.

(** A player put on an interior cell with a message showing. *)
Definition greeted (s : Game) : Game :=
  set_gLine "HELLO" (set_gPlayerRow 2 (set_gPlayerCol 2 s)).

Lemma greeted_wf s : shape s -> hero s -> wf true true (greeted s).
Proof. wf_set. intros _. unfold interior. cbn. lia. Qed.

Lemma message_line_sticks_witness :
  exists u, gLine u <> EmptyString /\
    ((exists reason, MainLoop 2 (greeted (freshGame [Key 46] 0)) = Cold reason u) \/
     MainLoop 2 (greeted (freshGame [Key 46] 0)) = Starved u).
Proof.
  apply message_line_sticks; [apply greeted_wf; apply fresh_ok|vm_compute; lia].
Defined.
