(* ===== verification/VdpFacts.v ===== *)
(** * VdpFacts: the compositor draws what the tables say

    A pass of the compositor is summarised by the function that gives, for each
    pixel, the value the pass stores there, if any ([painting]); passes compose
    with the later one on top ([over]). *)

From S2P Require Import Prelude.
From S2P Require Import RogueState.
From S2P Require Import Vdp.
From S2P Require Import RogueDraw.
From S2P Require Import RogueGfx.
From S2P Require Import VdpPixels.
From S2P Require Import RogueInv.
From S2P Require Import RoguePaint.
From S2P Require Import RogueMapFacts.
From S2P Require Import RogueXpFacts.
From stdpp Require Import base list numbers option decidable strings.

Open Scope Z_scope.

(** ** Paintings *)

Definition painting : Type := Z -> Z -> option Z.

Definition nothing : painting := fun _ _ => None.
Definition over (p q : painting) : painting := fun x y =>
  match p x y with Some c => Some c | None => q x y end.

(** What a list of paintings shows: the last one that stores something. *)
Definition layers {A} (l : list A) (f : A -> painting) : painting :=
  foldr (fun a q => over q (f a)) nothing l.

Definition dot (x0 y0 c : Z) : painting := fun x y =>
  if (x =? x0) && (y =? y0) then Some c else None.

Section Canvas.
Context {W H : Z}.

(** The buffer [l] shows [p] over the buffer [k]. *)
Definition shows (p : painting) (k l : list Z) : Prop :=
  Z.of_nat (length l) = W * H /\
  forall x y, 0 <= x < W -> 0 <= y < H ->
    rd l (y * W + x) =
    match p x y with Some c => Some c | None => rd k (y * W + x) end.

(** The pass [f] is total on frame buffers and stores exactly [p]. *)
Definition draws (f : list Z -> option (list Z)) (p : painting) : Prop :=
  forall k, Z.of_nat (length k) = W * H -> exists l, f k = Some l /\ shows p k l.

Lemma draws_ext f p q :
  draws f p -> (forall x y, 0 <= x < W -> 0 <= y < H -> p x y = q x y) -> draws f q.
Proof.
  intros Hd E k Hk. destruct (Hd k Hk) as (l & El & Hl & Hp). exists l.
  split; [exact El|]. split; [exact Hl|]. intros x y Hx Hy. rewrite <- E by assumption. auto.
Qed.

Lemma draws_skip : draws Some nothing.
Proof. intros k Hk. exists k. by split. Qed.

Lemma draws_seq f g p q :
  draws f p -> draws g q -> draws (fun k => k ← f k; g k) (over q p).
Proof.
  intros Hf Hg k Hk. destruct (Hf k Hk) as (l & El & Hl & Hp). cbn. rewrite El. cbn.
  destruct (Hg l Hl) as (m & Em & Hm & Hq). exists m. split; [exact Em|].
  split; [exact Hm|]. intros x y Hx Hy. rewrite Hq, Hp by assumption.
  unfold over. by destruct (q x y).
Qed.

Lemma draws_loop {A} (l : list A) f p :
  (forall a, a ∈ l -> draws (f a) (p a)) -> draws (loop l f) (layers l p).
Proof.
  induction l as [|a l IH]; intros Hd; [exact draws_skip|]. cbn [loop layers foldr].
  apply (draws_seq (f a) (loop l f) (p a)); [apply Hd; by left|].
  apply IH. intros b Hb. apply Hd. by right.
Qed.

Lemma draws_put x0 y0 c :
  0 <= x0 < W -> 0 <= y0 < H -> draws (put (y0 * W + x0) c) (dot x0 y0 c).
Proof.
  intros Hx Hy k Hk. unfold put.
  destruct (rd_Some k (y0 * W + x0)) as [v E]; [nia|]. rewrite E. eexists.
  split; [done|]. split; [by rewrite wr_length|]. intros x y Hx' Hy'. unfold dot.
  rewrite rd_wr by nia. destruct (Z.eqb_spec (y * W + x) (y0 * W + x0)) as [E'|N].
  - assert (y = y0 /\ x = x0) as [-> ->]
      by (apply (Z.div_mod_unique W); lia). by rewrite !Z.eqb_refl.
  - destruct (Z.eqb_spec x x0) as [->|]; [|done]. by destruct (Z.eqb_spec y y0) as [->|].
Qed.

Lemma draws_at i x0 y0 c :
  i = y0 * W + x0 -> 0 <= x0 < W -> 0 <= y0 < H -> draws (put i c) (dot x0 y0 c).
Proof. intros ->. apply draws_put. Qed.

(** A pass under a condition. *)
Lemma draws_choice (b : bool) f g p q :
  draws f p -> (b = false -> draws g q) ->
  draws (fun k => if b then f k else g k) (fun x y => if b then p x y else q x y).
Proof. intros Hf Hg. destruct b; auto. Qed.

(** A row of stores, one per index. *)
Lemma draws_rows n f p :
  (forall i, 0 <= i < n -> draws (f i) (p i)) ->
  draws (loop (seqZ 0 n) f) (layers (seqZ 0 n) p).
Proof. intros Hf. apply draws_loop. intros i Hi. apply elem_of_seqZ in Hi. apply Hf. lia. Qed.

Lemma draws_option x0 y0 i o :
  i = y0 * W + x0 -> 0 <= x0 < W -> 0 <= y0 < H ->
  draws (fun k => match o with Some c => put i c k | None => Some k end)
    (fun x y => match o with Some c => dot x0 y0 c x y | None => None end).
Proof. intros E Hx Hy. destruct o; [by apply draws_at|apply draws_skip]. Qed.

End Canvas.

Arguments shows : clear implicits.
Arguments draws : clear implicits.

(** The pixel buffer. *)
Abbreviation paints := (draws 256 192).

(** ** Layers *)

Lemma layers_miss {A} (l : list A) f x y :
  (forall b, b ∈ l -> f b x y = None) -> layers l f x y = None.
Proof.
  induction l as [|a l IH]; intros H; [done|]. cbn [layers foldr]. unfold over at 1.
  fold (layers l f). rewrite IH; [apply H; by left|]. intros b Hb. apply H. by right.
Qed.

(** When only one layer can store a pixel, it decides it. *)
Lemma layers_hit {A} (l : list A) f a x y :
  NoDup l -> a ∈ l -> (forall b, b ∈ l -> b <> a -> f b x y = None) ->
  layers l f x y = f a x y.
Proof.
  intros Hn Ha Ho. induction Hn as [|b l Hb Hn IH]; [by apply elem_of_nil in Ha|].
  cbn [layers foldr]. unfold over at 1. fold (layers l f).
  rewrite elem_of_cons in Ha. destruct Ha as [->|Ha].
  - rewrite layers_miss; [done|]. intros c Hc. apply Ho; [by right|]. by intros ->.
  - rewrite IH; [|exact Ha|intros c Hc; apply Ho; by right].
    destruct (f a x y); [done|]. apply Ho; [by left|]. by intros ->.
Qed.

(** A loop over indices in which index [k] alone reaches the pixel. *)
Lemma layers_index n f k x y :
  (forall b, 0 <= b < n -> b <> k -> f b x y = None) ->
  layers (seqZ 0 n) f x y = if (0 <=? k) && (k <? n) then f k x y else None.
Proof.
  intros H. destruct ((0 <=? k) && (k <? n)) eqn:E; unbool.
  - apply layers_hit; [apply NoDup_seqZ|apply elem_of_seqZ; lia|].
    intros b Hb. apply elem_of_seqZ in Hb. apply H. lia.
  - apply layers_miss. intros b Hb. apply elem_of_seqZ in Hb. apply H; lia.
Qed.

Lemma rd_byte l i n :
  length l = n -> Forall byte l -> 0 <= i < Z.of_nat n -> exists v, rd l i = Some v /\ byte v.
Proof.
  intros Hl Hf Hi. destruct (rd_Some l i) as [v E]; [lia|]. exists v. split; [exact E|].
  rewrite Forall_forall in Hf. apply Hf. unfold rd in E.
  destruct (i <? 0); [done|]. by eapply list_elem_of_lookup_2.
Qed.

(** A square drawn dot by dot. *)
Lemma layers_square w h x0 y0 c x y :
  layers (seqZ 0 h) (fun i =>
    layers (seqZ 0 w) (fun b => dot (x0 + b) (y0 + i) (c i b))) x y =
  if bool_decide (0 <= y - y0 < h /\ 0 <= x - x0 < w)
  then Some (c (y - y0) (x - x0)) else None.
Proof.
  rewrite (layers_index _ _ (y - y0)).
  2:{ intros i Hi Hn. apply layers_miss. intros b _. unfold dot.
      destruct (Z.eqb_spec y (y0 + i)); [lia|]. by rewrite andb_false_r. }
  rewrite (layers_index _ _ (x - x0)).
  2:{ intros i Hi Hn. unfold dot. destruct (Z.eqb_spec x (x0 + i)); [lia|done]. }
  unfold dot. rewrite !(proj2 (Z.eqb_eq _ _)) by lia.
  case_bool_decide; repeat case_match; unbool; try done; lia.
Qed.

(** ** The tile pass *)

(** The colour of a character: the row of eight it belongs to, and five kinds
    of tile that have their own foreground. *)
Definition charFg (c : Z) : Z :=
  let group base := (base <=? c) && (c <? base + 4) in
  if group CHAR_WALL then 14 else if group CHAR_DOOR then 10
  else if group CHAR_STAIRS_DOWN then 11 else if group CHAR_STAIRS_UP then 14
  else if group CHAR_TRAP_PIT then 6
  else default 0 (rd kTileColors (c .>> 3)) .>> 4.
Definition charBg (c : Z) : Z := default 0 (rd kTileColors (c .>> 3)) .& 0x0F.

(** The screen as it boots and as the compositor leaves it. *)
Record screen_ok (s : Screen) : Prop := {
  sc_pix : Z.of_nat (length (gPix s)) = 49152;
  sc_frame : Z.of_nat (length (gFrame s)) = 6144;
  sc_colors :
    (gColorsReady s = 0 /\ gCharFg s = replicate 256 0 /\ gCharBg s = replicate 256 0) \/
    (gColorsReady s = 1 /\ gCharFg s = map charFg (seqZ 0 256) /\
     gCharBg s = map charBg (seqZ 0 256))
}.

Definition bootScreen : Screen :=
  mkScreen (replicate (Z.to_nat 49152) 0) (replicate (Z.to_nat 6144) 0)
    (replicate 256 0) (replicate 256 0) 0.

Lemma rd_map_seqZ (f : Z -> Z) n c : 0 <= c < n -> rd (map f (seqZ 0 n)) c = Some (f c).
Proof.
  intros H. unfold rd. rewrite (proj2 (Z.ltb_ge _ _)) by lia.
  rewrite list_lookup_fmap. rewrite lookup_seqZ_lt by lia. cbn. f_equal. f_equal. lia.
Qed.

Definition coloured (s : Screen) : Screen :=
  mkScreen (gPix s) (gFrame s) (map charFg (seqZ 0 256)) (map charBg (seqZ 0 256)) 1.

(** The lazy fill computes the colour tables. *)
Lemma init_colors s :
  screen_ok s -> (if gColorsReady s =? 0 then InitCharColors s else Some s) = Some (coloured s).
Proof.
  destruct s as [pix frame fg bg r]. intros [_ _ [(E & E1 & E2)|(E & E1 & E2)]];
    cbn in E, E1, E2; subst; [|reflexivity]. vm_compute. reflexivity.
Qed.

(** What a tile shows: its foreground may be overridden per cell, and the
    stairs down glint with the phase. *)
Definition shownFg (v : Vdp) (ov ch : Z) : Z :=
  if (CHAR_STAIRS_DOWN <=? ch) && (ch <? CHAR_STAIRS_DOWN + 4) && (ov =? 0)
  then default 0 (rd kGlint ((gVdpPhase v .>> 1) .& 3))
  else if ov <>? 0 then ov else charFg ch.

Definition tileBits (ch y : Z) : Z := default 0 (rd kTileset (ch * 8 + y)).

Definition tilePixel (v : Vdp) (x y : Z) : Z :=
  let cell := y / 8 * VDP_COLS + x / 8 in
  let ch := default 0 (rd (gName v) cell) in
  if patBit (tileBits ch (y mod 8)) (x mod 8)
  then shownFg v (default 0 (rd (gCellFg v) cell)) ch
  else charBg ch.

(** Four-step animation tables. *)
Lemma cycle_Some (l : list Z) i : length l = 4%nat -> exists g, rd l (i .& 3) = Some g.
Proof.
  intros Hl. apply rd_Some. rewrite Hl. change 3 with (2 ^ 2 - 1).
  rewrite land_mask_mod by lia. change (Z.of_nat 4) with (2 ^ 2). apply Z.mod_pos_bound. lia.
Qed.

Lemma tileFg_shown v ov cell ch :
  rd (gCellFg v) cell = Some ov -> byte ch ->
  tileFg v (map charFg (seqZ 0 256)) cell ch = Some (shownFg v ov ch).
Proof.
  intros E Hc. unfold tileFg, shownFg. rewrite E. cbn. rewrite rd_map_seqZ by exact Hc. cbn.
  destruct (_ && _); [|done]. by destruct (cycle_Some kGlint (gVdpPhase v .>> 1) eq_refl) as [g ->].
Qed.

Lemma tileset_Some ch y :
  byte ch -> 0 <= y < 8 -> rd kTileset (ch * 8 + y) = Some (tileBits ch y).
Proof.
  unfold byte. intros Hc Hy. unfold tileBits.
  destruct (rd_Some kTileset (ch * 8 + y)) as [b E]; [|by rewrite E].
  assert (length kTileset = 2048%nat) as -> by (vm_compute; reflexivity). lia.
Qed.

(** The pixels of one cell. *)
Definition cellPaint (v : Vdp) (row col : Z) : painting := fun x y =>
  if (y / 8 =? row) && (x / 8 =? col) then Some (tilePixel v x y) else None.

Lemma tileCell_draws v row col :
  vdp_ok v -> 0 <= row < 24 -> 0 <= col < 32 ->
  paints (tileCell v (map charFg (seqZ 0 256)) (map charBg (seqZ 0 256)) row col)
    (cellPaint v row col).
Proof.
  intros Hv Hr Hc.
  destruct (vd_name v Hv) as [Ln Fn]. destruct (vd_fg v Hv) as [Lf Ff].
  destruct (rd_byte _ (row * VDP_COLS + col) _ Ln Fn) as (ch & En & Bc);
    [unfold VDP_COLS; lia|].
  destruct (rd_byte _ (row * VDP_COLS + col) _ Lf Ff) as (ov & Eo & _);
    [unfold VDP_COLS; lia|].
  unfold tileCell. rewrite En. cbn. rewrite (tileFg_shown _ ov) by assumption. cbn.
  rewrite rd_map_seqZ by exact Bc. cbn.
  eapply draws_ext; [apply draws_rows; intros y Hy|].
  { rewrite tileset_Some by assumption. cbn. apply draws_rows. intros b Hb.
    apply (draws_at _ (col * 8 + b) (row * 8 + y)); unfold VDP_WIDTH; lia. }
  intros x y Hx Hy. cbn beta. rewrite layers_square. unfold cellPaint, tilePixel.
  pose proof (Z.div_mod x 8 ltac:(lia)) as Dx. pose proof (Z.div_mod y 8 ltac:(lia)) as Dy.
  pose proof (Z.mod_pos_bound x 8 ltac:(lia)) as Mx.
  pose proof (Z.mod_pos_bound y 8 ltac:(lia)) as My.
  destruct (Z.eqb_spec (y / 8) row) as [<-|N], (Z.eqb_spec (x / 8) col) as [<-|N'];
    cbn [andb]; try (rewrite bool_decide_eq_false_2; [done|lia]).
  rewrite bool_decide_eq_true_2 by lia. rewrite En, Eo. cbn [default].
  replace (y - y / 8 * 8) with (y mod 8) by lia. by replace (x - x / 8 * 8) with (x mod 8) by lia.
Qed.

(** The tile pass paints the whole screen. *)
Lemma tiles_draw v :
  vdp_ok v ->
  paints (loop (seqZ 0 VDP_ROWS) (fun row =>
           loop (seqZ 0 VDP_COLS) (fun col =>
             tileCell v (map charFg (seqZ 0 256)) (map charBg (seqZ 0 256)) row col)))
    (fun x y => Some (tilePixel v x y)).
Proof.
  intros Hv. unfold VDP_ROWS, VDP_COLS at 1.
  eapply draws_ext; [apply draws_rows; intros row Hr; apply draws_rows; intros col Hc;
    by apply tileCell_draws|].
  intros x y Hx Hy. cbn beta. unfold cellPaint.
  pose proof (Z.div_mod x 8 ltac:(lia)) as Dx. pose proof (Z.div_mod y 8 ltac:(lia)) as Dy.
  pose proof (Z.mod_pos_bound x 8 ltac:(lia)) as Mx.
  pose proof (Z.mod_pos_bound y 8 ltac:(lia)) as My.
  rewrite (layers_index _ _ (y / 8)).
  2:{ intros i _ Hn. apply layers_miss. intros b _. by destruct (Z.eqb_spec (y / 8) i). }
  rewrite (layers_index _ _ (x / 8)).
  2:{ intros i _ Hn. destruct (Z.eqb_spec (x / 8) i); [done|]. by rewrite andb_false_r. }
  rewrite !Z.eqb_refl. repeat case_match; unbool; try done; lia.
Qed.

(** ** Headlines *)

Definition block (dx dy c : Z) : painting := fun x y =>
  if bool_decide (0 <= x - dx < 2 /\ 0 <= y - dy < 2) then Some c else None.

Lemma draws_block dx dy c :
  0 <= dx -> dx + 1 < 256 -> 0 <= dy -> dy + 1 < 192 ->
  let d := dy * VDP_WIDTH + dx in
  paints (fun pix =>
    pix ← put (d + 1) c pix; pix ← put d c pix; pix ← put (d + VDP_WIDTH + 1) c pix;
    put (d + VDP_WIDTH) c pix) (block dx dy c).
Proof.
  intros Hx0 Hx1 Hy0 Hy1 d.
  eapply draws_ext.
  { apply (draws_seq (put (d + 1) c)); [apply (draws_at _ (dx + 1) dy); subst d; unfold VDP_WIDTH; lia|].
    apply (draws_seq (put d c)); [apply (draws_at _ dx dy); subst d; unfold VDP_WIDTH; lia|].
    apply (draws_seq (put (d + VDP_WIDTH + 1) c));
      [apply (draws_at _ (dx + 1) (dy + 1)); subst d; unfold VDP_WIDTH; lia|].
    apply (draws_at _ dx (dy + 1)); subst d; unfold VDP_WIDTH; lia. }
  intros x y _ _. unfold over, dot, block.
  case_bool_decide;
    repeat match goal with |- context [?a =? ?b] => destruct (Z.eqb_spec a b) end;
    cbn [andb]; try done; lia.
Qed.

(** Two lines of pixels per pattern row, two columns per pattern bit. *)
Definition glyphPaint (px py fg ch : Z) : painting := fun x y =>
  if bool_decide (0 <= y - py < 16 /\ 0 <= x - px < 16) &&
     patBit (tileBits ch ((y - py) / 2)) ((x - px) / 2)
  then Some fg else None.

Lemma bigGlyph_draws px py fg ch :
  byte ch -> px mod 2 = 0 -> py mod 2 = 0 -> 0 <= px < 30000 -> 0 <= py < 30000 ->
  paints (bigGlyph px py fg ch) (glyphPaint px py fg ch).
Proof.
  intros Hc Ex Ey Hpx Hpy. unfold bigGlyph. eapply draws_ext.
  { apply draws_rows. intros i Hi. cbn zeta beta.
    rewrite tileset_Some by assumption. cbn.
    rewrite s16_small by lia.
    apply (draws_choice (_ || _)); [apply draws_skip|]. intros Hd.
    apply draws_rows. intros b Hb. rewrite s16_small by lia.
    apply (draws_choice (negb _)); [apply draws_skip|]. intros _.
    apply (draws_choice (_ || _)); [apply draws_skip|]. intros Hd'.
    unfold VDP_WIDTH, VDP_HEIGHT in *. unbool. apply draws_block; lia. }
  intros x y Hx Hy. cbn beta. unfold glyphPaint, nothing, VDP_HEIGHT, VDP_WIDTH.
  assert (Hk : forall v, exists h, v = 2 * (v / 2) + h /\ 0 <= h < 2)
    by (intros v; exists (v mod 2); split; [apply Z.div_mod|apply Z.mod_pos_bound]; lia).
  destruct (Hk (x - px)) as (hx & Dx & Rx), (Hk (y - py)) as (hy & Dy & Ry).
  destruct (Hk px) as (ex & Dpx & Epx), (Hk py) as (ey & Dpy & Epy).
  assert (ex = 0) as -> by (rewrite Z.mod_eq in Ex by lia; lia).
  assert (ey = 0) as -> by (rewrite Z.mod_eq in Ey by lia; lia).
  rewrite (layers_index _ _ ((y - py) / 2)).
  2:{ intros i Hi Hn. destruct (_ || _); [done|]. apply layers_miss. intros b _.
      repeat destruct (negb _); repeat destruct (_ || _); try done. unfold block.
      rewrite bool_decide_eq_false_2; [done|lia]. }
  rewrite (layers_index _ _ ((x - px) / 2)).
  2:{ intros b Hb Hn. repeat destruct (negb _); repeat destruct (_ || _); try done.
      unfold block. rewrite bool_decide_eq_false_2; [done|lia]. }
  unfold block. destruct (patBit _ _); rewrite ?andb_true_r, ?andb_false_r; cbn [negb];
    [|by repeat case_match].
  repeat case_bool_decide; repeat case_match; unbool; try done; lia.
Qed.

(** A string: the glyph under the pixel's column decides it. *)
Definition stringPaint (px py fg : Z) (t : string) : painting := fun x y =>
  if x <? px then None
  else match String.get (Z.to_nat ((x - px) / 16)) t with
       | Some c => glyphPaint (px + (x - px) / 16 * 16) py fg (charCode c) x y
       | None => None
       end.

Lemma stringPaint_cons px py fg c t x y :
  stringPaint px py fg (String c t) x y =
  over (stringPaint (px + 16) py fg t) (glyphPaint px py fg (charCode c)) x y.
Proof.
  unfold stringPaint, over.
  pose proof (Z.div_mod (x - px) 16 ltac:(lia)) as D.
  pose proof (Z.mod_pos_bound (x - px) 16 ltac:(lia)) as M.
  destruct (Z.ltb_spec x px).
  { rewrite (proj2 (Z.ltb_lt _ _)) by lia. unfold glyphPaint.
    by rewrite bool_decide_eq_false_2 by lia. }
  destruct (Z.ltb_spec x (px + 16)).
  { assert (E : (x - px) / 16 = 0) by lia. rewrite E. cbn. by rewrite Z.add_0_r. }
  replace (x - (px + 16)) with (x - px + (-1) * 16) by lia. rewrite Z.div_add by lia.
  set (k := (x - px) / 16) in *.
  replace (Z.to_nat k) with (S (Z.to_nat (k + -1))) by lia. cbn [String.get].
  replace (px + 16 + (k + -1) * 16) with (px + k * 16) by lia.
  assert (glyphPaint px py fg (charCode c) x y = None) as ->.
  { unfold glyphPaint. by rewrite bool_decide_eq_false_2 by lia. }
  destruct (String.get _ t); [|done]. by destruct (glyphPaint _ _ _ _ _ _).
Qed.

Lemma bigString_draws py fg t : forall px,
  px mod 2 = 0 -> py mod 2 = 0 -> 0 <= py < 30000 ->
  0 <= px -> px + 16 * Z.of_nat (String.length t) < 30000 ->
  paints (bigString px py fg t) (stringPaint px py fg t).
Proof.
  induction t as [|c t IH]; intros px Ex Ey Hy Hx Hl.
  { eapply draws_ext; [apply draws_skip|]. intros x y _ _. unfold stringPaint, nothing.
    by destruct (x <? px). }
  cbn [String.length] in Hl. eapply draws_ext.
  { apply (draws_seq (bigGlyph px py fg (charCode c)));
      [apply bigGlyph_draws; auto using charCode_byte; lia|].
    rewrite s16_small by lia. apply IH; try lia. rewrite <- Ex.
    replace (px + 16) with (px + 8 * 2) by lia. by rewrite Z.mod_add. }
  intros x y _ _. by rewrite stringPaint_cons.
Qed.

(** An indexed loop over the first entries of a table. *)
Lemma loop_table {A S} (f : A -> S -> option S) (l : list A) n s :
  0 <= n <= Z.of_nat (length l) ->
  loop (seqZ 0 n) (fun i s => a ← rd l i; f a s) s = loop (take (Z.to_nat n) l) f s.
Proof.
  intros Hn. assert (G : forall m k s, (k + m <= length l)%nat ->
    loop (seqZ (Z.of_nat k) (Z.of_nat m)) (fun i s => a ← rd l i; f a s) s =
    loop (take m (drop k l)) f s).
  { induction m as [|m IH]; intros k t Hk; [done|].
    destruct (lookup_lt_is_Some_2 l k) as [a E]; [lia|].
    assert (R : rd l (Z.of_nat k) = Some a).
    { unfold rd. by rewrite (proj2 (Z.ltb_ge _ _)), Nat2Z.id by lia. }
    rewrite (drop_S _ _ _ E), Nat2Z.inj_succ, seqZ_cons by lia. cbn [loop take].
    rewrite R. cbn.
    destruct (f a t) as [u|]; [|done]. cbn.
    replace (Z.succ (Z.of_nat k)) with (Z.of_nat (Datatypes.S k)) by lia.
    rewrite Z.pred_succ. apply IH. lia. }
  specialize (G (Z.to_nat n) 0%nat s ltac:(lia)). rewrite Z2Nat.id in G by lia. exact G.
Qed.

Definition headlineFg (v : Vdp) (b : BigText) : Z :=
  if b_fg b =? VDP_FG_PULSE then default 0 (rd kPulse (gVdpPhase v .& 3)) else b_fg b.

Definition headline (v : Vdp) (b : BigText) : painting :=
  stringPaint (b_col b * 8) (b_row b * 8) (headlineFg v b) (b_text b).

Lemma headline_draws v b :
  big_ok b ->
  paints (fun pix =>
    fg ← (if b_fg b =? VDP_FG_PULSE then rd kPulse (gVdpPhase v .& 3) else Some (b_fg b));
    bigString (s16 (b_col b * 8)) (s16 (b_row b * 8)) fg (b_text b) pix) (headline v b).
Proof.
  intros (Hr & Hc & Hl & _). unfold headline, headlineFg.
  destruct (cycle_Some kPulse (gVdpPhase v) eq_refl) as [c Ec].
  rewrite Ec, !s16_small by lia.
  assert (forall k, (k * 8) mod 2 = 0) as E8.
  { intros k. replace (k * 8) with (0 + k * 4 * 2) by lia. by rewrite Z.mod_add. }
  destruct (_ =? _); cbn; apply bigString_draws; auto; lia.
Qed.

Lemma headlines_draw v :
  vdp_ok v ->
  paints (CompositeBigText v) (layers (take (Z.to_nat (gBigCount v)) (gBigText v)) (headline v)).
Proof.
  intros Hv. destruct (vd_big v Hv) as [Hl Hf]. pose proof (vd_bigCount v Hv) as Hn.
  assert (E : forall k, CompositeBigText v k =
    loop (take (Z.to_nat (gBigCount v)) (gBigText v)) (fun b pix =>
      fg ← (if b_fg b =? VDP_FG_PULSE then rd kPulse (gVdpPhase v .& 3) else Some (b_fg b));
      bigString (s16 (b_col b * 8)) (s16 (b_row b * 8)) fg (b_text b) pix) k).
  { intros k. unfold CompositeBigText. rewrite <- loop_table by lia. done. }
  intros k Hk. rewrite E. revert k Hk. apply draws_loop. intros b Hb. apply headline_draws.
  rewrite Forall_forall in Hf. apply Hf. eapply elem_of_submseteq, submseteq_take; exact Hb.
Qed.

(** ** Sprites *)

(** Bit [b] of a pattern row: the left eight pixels come from the first column
    of quadrants, the right eight from the second. *)
Definition spriteBit (pat : list Z) (i b : Z) : bool :=
  if b <? 8 then patBit (default 0 (rd pat i)) b
  else patBit (default 0 (rd pat (16 + i))) (b - 8).

Lemma patBit_testbit bits b : 0 <= b < 8 -> patBit bits b = Z.testbit bits (7 - b).
Proof.
  intros Hb. unfold patBit. change 0x80 with (2 ^ 7).
  rewrite Z.shiftr_div_pow2, <- Z.pow_sub_r, land_pow2_zero by lia. by rewrite negb_involutive.
Qed.

Lemma row_bit left right b :
  byte left -> byte right -> 0 <= b < 16 ->
  ((u16 ((left .<< 8) .| right) .& (0x8000 .>> b)) <>? 0) =
  if b <? 8 then patBit left b else patBit right (b - 8).
Proof.
  unfold byte. intros Hl Hr Hb. change 0x8000 with (2 ^ 15).
  rewrite Z.shiftr_div_pow2, <- Z.pow_sub_r, land_pow2_zero, negb_involutive by lia.
  rewrite u16_small.
  2:{ rewrite shiftl_lor_low by lia. lia. }
  rewrite Z.lor_spec, Z.shiftl_spec by lia. destruct (Z.ltb_spec b 8).
  - rewrite patBit_testbit by lia. replace (15 - b - 8) with (7 - b) by lia.
    replace (Z.testbit right (15 - b)) with false; [by rewrite orb_false_r|].
    symmetry. rewrite <- (Z.mod_small right (2 ^ 8)) by lia. apply Z.mod_pow2_bits_high. lia.
  - rewrite patBit_testbit, Z.testbit_neg_r by lia. cbn. f_equal. lia.
Qed.

Definition spriteBob (v : Vdp) (e : SatEntry) : Z := default 0 (spriteDy v e).
Definition spriteTint (v : Vdp) (e : SatEntry) : Z := default 0 (spriteColor v e).

(** What an entry stores: the silhouette in its colour, or on a 1-bit screen
    the filled square of a hit with the silhouette punched out. *)
Definition spritePaint (v : Vdp) (mono : bool) (e : SatEntry) : painting := fun x y =>
  match spritePat (e_name e) with
  | None => None
  | Some pat =>
      let i := y - (e_y e + spriteBob v e) in
      let b := x - (e_x e + spriteDx v e) in
      if bool_decide (0 <= i < 16 /\ 0 <= b < 16)
      then spriteInk (mono && flag e SPR_INVERT) (spriteBit pat i b) (spriteTint v e)
      else None
  end.

Lemma step_Some (l : list Z) v e :
  length l = 4%nat -> rd l (spriteStep v e) = Some (default 0 (rd l (spriteStep v e))).
Proof.
  intros Hl. unfold spriteStep. set (i := gVdpPhase v + _).
  rewrite u8_small by (pose proof (land_3_range i); lia).
  by destruct (cycle_Some l i Hl) as [g ->].
Qed.

Lemma bob_Some v e : spriteDy v e = Some (spriteBob v e) /\ -2 <= spriteBob v e <= 0.
Proof.
  unfold spriteBob, spriteDy. destruct (flag e SPR_BOB); [|cbn; split; [done|lia]].
  pose proof (step_Some kBobDy v e eq_refl) as E. split; [exact E|].
  assert (F : Forall (fun d => -2 <= d <= 0) kBobDy)
    by (apply Forall_forall; intros a; rewrite list_elem_of_In; cbn; lia).
  rewrite Forall_forall in F. apply F. unfold rd in *.
  destruct (_ <? 0); [done|]. by eapply list_elem_of_lookup_2.
Qed.

Lemma tint_Some v e : spriteColor v e = Some (spriteTint v e).
Proof. unfold spriteTint, spriteColor. destruct (flag e SPR_FLICKER); [by apply step_Some|done]. Qed.

Lemma bytes_swept l : forallb (fun b => (0 <=? b) && (b <? 256)) l = true -> Forall byte l.
Proof.
  intros H. apply Forall_forall. intros a Ha. rewrite forallb_forall in H.
  apply list_elem_of_In, H in Ha. unfold byte. unbool. lia.
Qed.

(** Every drawable slot has two columns of sixteen pattern bytes. *)
Lemma spritePat_rows slot pat i :
  0 <= slot -> spritePat slot = Some pat -> 0 <= i < 32 ->
  rd pat i = Some (default 0 (rd pat i)) /\ byte (default 0 (rd pat i)).
Proof.
  intros Hs Hp Hi.
  assert (A : Forall byte kSpritePats /\ Forall byte kBossPats)
    by (split; apply bytes_swept; vm_compute; reflexivity).
  assert (H : (32 <= length pat)%nat /\ Forall byte pat).
  { unfold spritePat in Hp. destruct (Z.leb_spec 56 slot).
    - destruct (Z.ltb_spec 68 slot); [done|]. injection Hp as <-.
      split; [rewrite length_drop|apply Forall_drop, A].
      change (length kBossPats) with 128%nat. lia.
    - destruct (Z.ltb_spec 52 slot); [done|]. injection Hp as <-.
      split; [rewrite length_drop|apply Forall_drop, A].
      change (length kSpritePats) with 448%nat. lia. }
  destruct H as [Hl Hf]. destruct (rd_byte pat i _ eq_refl Hf) as (v & -> & Hv); [lia|].
  by split.
Qed.

Lemma sprite_draws v mono e :
  sat_ok e -> paints (CompositeSprite v mono e) (spritePaint v mono e).
Proof.
  intros (By & Bx & Bn & _). unfold byte in *. unfold CompositeSprite, spritePaint.
  destruct (bob_Some v e) as [-> Hd]. rewrite tint_Some. cbn.
  destruct (spritePat (e_name e)) as [pat|] eqn:Ep; [|apply draws_skip].
  assert (Hx : -1 <= spriteDx v e <= 1) by (unfold spriteDx; repeat case_match; lia).
  set (dy := spriteBob v e) in *. set (dx := spriteDx v e) in *.
  set (neg := mono && _). set (c := spriteTint v e).
  eapply draws_ext.
  { apply draws_rows. intros i Hi. cbn zeta beta. rewrite s16_id by lia.
    apply (draws_choice (_ || _)); [apply draws_skip|]. intros Hs.
    destruct (spritePat_rows _ _ i (proj1 Bn) Ep) as [-> Bl]; [lia|].
    destruct (spritePat_rows _ _ (16 + i) (proj1 Bn) Ep) as [-> Br]; [lia|]. cbn.
    apply draws_rows. intros b Hb. rewrite s16_id by lia.
    apply (draws_choice (_ || _)); [apply draws_skip|]. intros Hs'.
    rewrite row_bit by assumption. fold (spriteBit pat i b).
    unfold VDP_WIDTH, VDP_HEIGHT in *. unbool.
    apply (draws_option (e_x e + dx + b) (e_y e + dy + i)); unfold VDP_WIDTH; lia. }
  intros x y Rx Ry. cbn beta. unfold VDP_WIDTH, VDP_HEIGHT, nothing.
  rewrite (layers_index _ _ (y - (e_y e + dy))).
  2:{ intros i Hi Hn. destruct (_ || _); [done|]. apply layers_miss. intros b _.
      destruct (_ || _); [done|]. destruct (spriteInk _ _ _); [|done].
      unfold dot. rewrite (proj2 (Z.eqb_neq y _)) by lia. by rewrite andb_false_r. }
  rewrite (layers_index _ _ (x - (e_x e + dx))).
  2:{ intros b Hb Hn. destruct (_ || _); [done|]. destruct (spriteInk _ _ _); [|done].
      unfold dot. by rewrite (proj2 (Z.eqb_neq x _)) by lia. }
  unfold dot. rewrite !(proj2 (Z.eqb_eq _ _)) by lia. cbn [andb].
  destruct (spriteInk _ _ _); case_bool_decide; repeat case_match; unbool; try done; lia.
Qed.

(** ** The whole frame *)

(** Sprites cover the headlines, which cover the tiles; within a table the
    later entry is on top. *)
Definition framePixel (v : Vdp) (mono : bool) : painting :=
  over (layers (take (Z.to_nat (gSatCount v)) (gSat v)) (spritePaint v mono))
    (over (layers (take (Z.to_nat (gBigCount v)) (gBigText v)) (headline v))
       (fun x y => Some (tilePixel v x y))).

Lemma sprites_draw v mono :
  vdp_ok v ->
  paints (loop (seqZ 0 (gSatCount v)) (fun i pix => e ← rd (gSat v) i; CompositeSprite v mono e pix))
    (layers (take (Z.to_nat (gSatCount v)) (gSat v)) (spritePaint v mono)).
Proof.
  intros Hv. destruct (vd_sat v Hv) as [Hl Hf]. pose proof (vd_satCount v Hv) as Hn.
  intros k Hk. rewrite loop_table by lia. revert k Hk. apply draws_loop. intros e He.
  apply sprite_draws. rewrite Forall_forall in Hf. apply Hf.
  eapply elem_of_submseteq, submseteq_take; exact He.
Qed.

Lemma composite_run v mono s :
  vdp_ok v -> screen_ok s ->
  exists pix, VdpComposite v mono s = Some (set_gPix pix (coloured s)) /\
    shows 256 192 (framePixel v mono) (gPix s) pix.
Proof.
  intros Hv Hs. unfold VdpComposite, CompositeTiles. rewrite init_colors by exact Hs.
  pose proof (draws_seq _ _ _ _ (draws_seq _ _ _ _ (tiles_draw v Hv) (headlines_draw v Hv))
                (sprites_draw v mono Hv)) as Hd.
  destruct (Hd (gPix s) (sc_pix s Hs)) as (pix & E & Hp). exists pix. split; [|exact Hp].
  revert E. cbn -[loop seqZ CompositeBigText].
  destruct (loop (seqZ 0 VDP_ROWS) _ (gPix s)) as [p1|]; cbn -[loop seqZ CompositeBigText]; [|done].
  destruct (CompositeBigText v p1) as [p2|]; cbn -[loop seqZ]; [|done].
  destruct (loop (seqZ 0 (gSatCount v)) _ p2); [|done]. by intros [= ->].
Qed.

Lemma coloured_ok s pix :
  screen_ok s -> Z.of_nat (length pix) = 49152 -> screen_ok (set_gPix pix (coloured s)).
Proof.
  intros [Hp Hf _] Hl. split; cbn -[seqZ]; [exact Hl|exact Hf|]. right. by split_and!.
Qed.

(** ** The 1-bit packing *)

Definition packBit (c : option Z) : bool := match c with Some c => IS_INK c | None => false end.

Lemma packByte_bits pix base :
  0 <= base -> base + 8 <= Z.of_nat (length pix) ->
  exists out, packByte pix base = Some out /\ byte out /\
    forall b, 0 <= b < 8 -> Z.testbit out (7 - b) = packBit (rd pix (base + b)).
Proof.
  intros H0 H1. unfold packByte.
  assert (E : forall b, 0 <= b < 8 -> exists c, rd pix (base + b) = Some c)
    by (intros b Hb; apply rd_Some; lia).
  destruct (E 0) as [c0 E0], (E 1) as [c1 E1], (E 2) as [c2 E2], (E 3) as [c3 E3],
    (E 4) as [c4 E4], (E 5) as [c5 E5], (E 6) as [c6 E6], (E 7) as [c7 E7]; try lia.
  change (seqZ 0 8) with [0; 1; 2; 3; 4; 5; 6; 7]. cbn [loop].
  rewrite E0, E1, E2, E3, E4, E5, E6, E7. cbn. eexists. split; [done|].
  assert (B : forall b, 0 <= b < 8 ->
    b = 0 \/ b = 1 \/ b = 2 \/ b = 3 \/ b = 4 \/ b = 5 \/ b = 6 \/ b = 7) by lia.
  split.
  - unfold byte. destruct (IS_INK c0), (IS_INK c1), (IS_INK c2), (IS_INK c3), (IS_INK c4),
      (IS_INK c5), (IS_INK c6), (IS_INK c7); vm_compute; split; congruence.
  - intros b Hb. destruct (B b Hb) as [->|[->|[->|[->|[->|[->|[->| ->]]]]]]];
      rewrite ?E0, ?E1, ?E2, ?E3, ?E4, ?E5, ?E6, ?E7; cbn [packBit];
      destruct (IS_INK c0), (IS_INK c1), (IS_INK c2), (IS_INK c3), (IS_INK c4),
      (IS_INK c5), (IS_INK c6), (IS_INK c7); vm_compute; reflexivity.
Qed.

(** The byte of eight pixels. *)
Definition packed (pix : list Z) (y x : Z) : Z := default 0 (packByte pix (y * 256 + x * 8)).

Lemma packed_Some pix x y :
  Z.of_nat (length pix) = 49152 -> 0 <= x < 32 -> 0 <= y < 192 ->
  packByte pix (y * 256 + x * 8) = Some (packed pix y x).
Proof.
  intros Hl Hx Hy. unfold packed.
  by destruct (packByte_bits pix (y * 256 + x * 8)) as (out & -> & _); [lia|lia|].
Qed.

Lemma pack_draws pix :
  Z.of_nat (length pix) = 49152 ->
  draws 32 192 (loop (seqZ 0 VDP_HEIGHT) (fun y =>
      loop (seqZ 0 VDP_ROWBYTES) (fun xb frame =>
        out ← packByte pix (y * VDP_WIDTH + xb * 8);
        put (y * VDP_ROWBYTES + xb) out frame)))
    (fun x y => Some (packed pix y x)).
Proof.
  intros Hl. unfold VDP_HEIGHT, VDP_ROWBYTES, VDP_WIDTH. eapply draws_ext.
  { apply draws_rows. intros y Hy. apply draws_rows. intros x Hx.
    rewrite packed_Some by lia. cbn. apply (draws_at _ (0 + x) (0 + y)); lia. }
  intros x y Hx Hy. cbn beta. rewrite layers_square, !Z.sub_0_r.
  by rewrite bool_decide_eq_true_2 by lia.
Qed.

(** ** Properties *)

(** C38. The compositor is total and pixel exact: from well-formed tables and a
    screen as the program boots or left it, [VdpComposite] stores in every one
    of the 256 x 192 pixels the value [framePixel] gives (sprites, the later
    entry on top, over the doubled headlines over the tiles, each clipped to
    the screen and animated by the phase), accesses no array outside its
    bounds, and leaves the screen in the same condition.  Only the clear bits of
    a sprite's pattern are transparent: an entry of colour 0 stores 0 over the
    tile. *)
Theorem VdpComposite_frame (v : Vdp) (mono : bool) (s : Screen)
  (Hv : vdp_ok v) (Hs : screen_ok s) :
  exists u, VdpComposite v mono s = Some u /\ screen_ok u /\ gFrame u = gFrame s /\
    forall x y, 0 <= x < 256 -> 0 <= y < 192 ->
      rd (gPix u) (y * VDP_WIDTH + x) = framePixel v mono x y.
Proof.
  destruct (composite_run v mono s Hv Hs) as (pix & E & Hl & Hp). eexists.
  split; [exact E|]. split; [by apply coloured_ok|]. split; [done|].
  intros x y Hx Hy. cbn [gPix set_gPix]. unfold VDP_WIDTH. rewrite Hp by assumption.
  unfold framePixel, over. by repeat case_match.
Qed.

Lemma bootScreen_ok : screen_ok bootScreen.
Proof.
  split; unfold bootScreen; cbn [gPix gFrame gCharFg gCharBg gColorsReady];
    [by rewrite length_replicate, Z2Nat.id by lia..|].
  left. by split_and!.
Qed.

(** Two letters on the name table, a potion beside them, and a sprite of colour
    0 over the second letter. *)
Definition sampleTables : Vdp :=
  set_gSatCount 2 (set_gSat
    (wr (wr (gSat bootVdp) 0 (mkSat 32 32 SPRITE_NAME_POTION COL_POTION 0)) 1 (mkSat 40 68 SPRITE_NAME_POTION 0 0))
    (set_gName (wr (wr (gName bootVdp) 5 65) 201 65)
      (set_gCellFg (wr (wr (gCellFg bootVdp) 5 7) 201 7) bootVdp))).

Lemma sampleTables_ok : vdp_ok sampleTables.
Proof.
  destruct boot_vdp as [[N1 N2] [C1 C2] B1 B2 [S1 S2] S3 V].
  split; cbn [gName gCellFg gBigText gBigCount gSat gSatCount saved sampleTables set_gSatCount set_gSat set_gName set_gCellFg];
    rewrite ?wr_length; try done; try (split; [done|]);
    repeat (apply wr_Forall; [|vm_compute; repeat split; discriminate]); done || lia.
Qed.

(** A letter, the potion, and the colour 0 in place of a letter's pixel. *)
Lemma VdpComposite_frame_witness :
  exists u, VdpComposite sampleTables false bootScreen = Some u /\ screen_ok u /\
    rd (gPix u) (1 * VDP_WIDTH + 42) = Some 7 /\
    rd (gPix u) (36 * VDP_WIDTH + 38) = Some COL_POTION /\
    rd (gPix u) (49 * VDP_WIDTH + 74) = Some 0.
Proof.
  destruct (VdpComposite_frame sampleTables false bootScreen sampleTables_ok bootScreen_ok)
    as (u & E & Hu & _ & Hp). exists u. split; [exact E|]. split; [exact Hu|].
  rewrite !Hp by lia. split; [vm_compute; reflexivity|]. split; vm_compute; reflexivity.
Defined.

(** A sprite of colour 0 hides the tile under its silhouette. *)
Example colour_zero_hides_tile :
  framePixel (set_gSatCount 1 sampleTables) false 74 49 = Some 7 /\ framePixel sampleTables false 74 49 = Some 0.
Proof. vm_compute. split; reflexivity. Qed.

(** The 1-bit packing: [VdpPackMono] is total, leaves the pixels alone and
    sets the bit of a pixel, most significant bit leftmost, exactly when its
    palette index is ink. *)
Theorem VdpPackMono_bits (s : Screen) (Hs : screen_ok s) :
  exists u, VdpPackMono s = Some u /\ screen_ok u /\ gPix u = gPix s /\
    forall x y, 0 <= x < 256 -> 0 <= y < 192 ->
      exists out c, rd (gFrame u) (y * VDP_ROWBYTES + x / 8) = Some out /\
        rd (gPix s) (y * VDP_WIDTH + x) = Some c /\ byte out /\
        Z.testbit out (7 - x mod 8) = IS_INK c.
Proof.
  pose proof (sc_pix s Hs) as Hl.
  destruct (pack_draws (gPix s) Hl (gFrame s) (sc_frame s Hs)) as (l & E & Hf & Hp).
  exists (set_gFrame l s). split_and!;
    [exact (f_equal (fun o => frame ← o; Some (set_gFrame frame s)) E)| |done|].
  { split; [exact Hl|exact Hf|apply Hs]. }
  intros x y Hx Hy. unfold VDP_ROWBYTES, VDP_WIDTH.
  pose proof (Z.div_mod x 8 ltac:(lia)) as D. pose proof (Z.mod_pos_bound x 8 ltac:(lia)) as M.
  destruct (packByte_bits (gPix s) (y * 256 + x / 8 * 8)) as (out & Eo & Bo & Ht); [lia|lia|].
  destruct (rd_Some (gPix s) (y * 256 + x)) as [c Ec]; [lia|].
  exists out, c. split_and!; [|exact Ec|exact Bo|].
  - cbn [gFrame set_gFrame]. rewrite Hp by lia. unfold packed. by rewrite Eo.
  - rewrite Ht by lia. replace (y * 256 + x / 8 * 8 + x mod 8) with (y * 256 + x) by lia.
    by rewrite Ec.
Qed.

Lemma VdpPackMono_bits_witness :
  exists u, VdpPackMono bootScreen = Some u /\ screen_ok u.
Proof.
  destruct (VdpPackMono_bits bootScreen bootScreen_ok) as (u & E & Hu & _).
  exact (ex_intro _ u (conj E Hu)).
Defined.

(** ** Which sprite is on top *)

Lemma layers_last {A} (l1 l2 : list A) a f x y c :
  f a x y = Some c -> (forall b, b ∈ l2 -> f b x y = None) ->
  layers (l1 ++ a :: l2) f x y = Some c.
Proof.
  intros Ha Hn. induction l1 as [|b l1 IH]; cbn [app layers foldr]; unfold over at 1.
  - fold (layers l2 f). by rewrite layers_miss by exact Hn.
  - fold (layers (l1 ++ a :: l2) f). by rewrite IH.
Qed.

(** Sprite priority: at any pixel the frame shows what the last entry of
    the sprite table that stores something there stores, whatever the entries
    before it, the headlines and the tiles hold. *)
Theorem last_sprite_on_top (v : Vdp) (mono : bool) (l1 l2 : list SatEntry) (e : SatEntry)
  (x y c : Z) :
  take (Z.to_nat (gSatCount v)) (gSat v) = l1 ++ e :: l2 ->
  spritePaint v mono e x y = Some c ->
  (forall f, f ∈ l2 -> spritePaint v mono f x y = None) ->
  framePixel v mono x y = Some c.
Proof.
  intros E Hc Hn. unfold framePixel. unfold over at 1. rewrite E.
  by rewrite (layers_last l1 l2 e _ _ _ c Hc Hn).
Qed.

(** The player standing on a visible potion, and the sprites placed for it. *)
Definition lootUnderFeet : Game :=
  set_gVis (replicate 160 1)
    (set_gItem (mkItem ITEM_T_POTION 2 2 1 :: replicate 7 (mkItem 0 0 0 0))
      (set_gPlayerRow 2 (set_gPlayerCol 2 (bootGame [] 0)))).

Definition lootTables : Vdp :=
  match PlaceAllSprites lootUnderFeet with Ok _ u => vdp u | _ => bootVdp end.

Lemma last_sprite_on_top_witness : framePixel lootTables false 36 40 = Some COL_POTION.
Proof.
  apply (last_sprite_on_top lootTables false
           (take 2 (gSat lootTables)) [] (mkSat 32 32 SPRITE_NAME_POTION COL_POTION SPR_BOB)).
  - vm_compute. reflexivity.
  - vm_compute. reflexivity.
  - intros f Hf. by apply elem_of_nil in Hf.
Defined.

(** An item covers the player standing on it: the sprites [PlaceAllSprites]
    emits for a player on a visible potion are the player's first and the
    potion's last, both store the pixel (36, 40), and the frame shows the
    potion, although items are documented as having the lowest priority. *)
Theorem items_cover_player :
  exists u, PlaceAllSprites lootUnderFeet = Ok tt u /\
    rd (gSat (vdp u)) 0 = Some (mkSat 32 32 SPRITE_NAME_PLAYER COL_PLAYER 0) /\
    spritePaint (vdp u) false (mkSat 32 32 SPRITE_NAME_PLAYER COL_PLAYER 0) 36 40
      = Some COL_PLAYER /\
    framePixel (vdp u) false 36 40 = Some COL_POTION /\ COL_POTION <> COL_PLAYER.
Proof.
  destruct (PlaceAllSprites lootUnderFeet) as [[] u|r u|u|] eqn:E;
    [|vm_compute in E; discriminate E..].
  exists u. assert (Ev : vdp u = lootTables) by (unfold lootTables; by rewrite E).
  rewrite Ev. split_and!; [done|vm_compute; reflexivity..|done].
Qed.
