(* ===== verification/JitGuard.v ===== *)
(** * JitGuard: the write guard of the code cache

    [struct CodeGuard] of [jit/JitGuard.h].  The page map the guard points at
    is the engine's vector, passed to the operations that read it: one byte
    per 256-byte slice of physical memory, bit [i] of which says that some
    cached block has bytes in the 32-byte sub-slice [i].  A guard whose page
    map pointer is null is one over the empty vector; [nHits] is the length of
    [hits]. *)

From S2P Require Import Prelude.
From stdpp Require Import base list numbers option decidable.

Open Scope Z_scope.

Definition kShift : Z := 8.
Definition kUnit : Z := 256.
Definition kSubShift : Z := 5.
Definition kMaxHits : Z := 8.

(** One written slice with the union of the byte ranges written into it. *)
Record Hit := mkHit { h_slice : Z; h_lo : Z; h_hi : Z }.

Record CodeGuard := mkGuard {
  hits : list Hit;
  hitOverflow : bool;
  hit : bool;
  mapChanged : bool
}.

#[export] Instance eta_guard : Eta CodeGuard := fun g =>
  mkGuard (hits g) (hitOverflow g) (hit g) (mapChanged g).
Definition set_hits := ltac:(set_field hits).
Definition set_hitOverflow := ltac:(set_field hitOverflow).
Definition set_hit := ltac:(set_field hit).
Definition set_mapChanged := ltac:(set_field mapChanged).

Definition CodeGuard0 : CodeGuard := mkGuard [] false false false.

Definition subMask (lo hi : Z) : Z :=
  let a := (lo .& (kUnit - 1)) .>> kSubShift in
  let b := (hi .& (kUnit - 1)) .>> kSubShift in
  u8 ((0xFF .>> (7 - b)) .& (0xFF .<< a)).

(** The loop of [record]: the range of the first hit on [slice], widened. *)
Fixpoint widenHit (slice lo hi : Z) (l : list Hit) : option (list Hit) :=
  match l with
  | [] => None
  | h :: l =>
      if h_slice h =? slice then
        Some (mkHit slice (if lo <? h_lo h then lo else h_lo h)
                          (if h_hi h <? hi then hi else h_hi h) :: l)
      else cons h <$> widenHit slice lo hi l
  end.

Definition recordHit (slice lo hi : Z) (g : CodeGuard) : CodeGuard :=
  let g := set_hit true g in
  match widenHit slice lo hi (hits g) with
  | Some l => set_hits l g
  | None =>
      if kMaxHits <=? Z.of_nat (length (hits g)) then set_hitOverflow true g
      else set_hits (hits g ++ [mkHit slice lo hi]) g
  end.

(** [pageMap[p]], zero outside the map (the code tests [p < pages] first). *)
Definition pageByte (pm : list Z) (p : Z) : Z := default 0 (rd pm p).

Definition note (pm : list Z) (phys n : Z) (g : CodeGuard) : CodeGuard :=
  let hi := u32 (phys + n - 1) in
  let p0 := phys .>> kShift in
  let p1 := hi .>> kShift in
  let h0 := if p1 =? p0 then hi else u32 (u32 (p0 .<< kShift) + kUnit - 1) in
  let g := if pageByte pm p0 .& subMask phys h0 <>? 0
           then recordHit p0 phys hi g else g in
  if (p1 <>? p0) && (pageByte pm p1 .& subMask (u32 (p1 .<< kShift)) hi <>? 0)
  then recordHit p1 phys hi g else g.

Definition invalidate (g : CodeGuard) : CodeGuard := set_mapChanged true g.
Definition tripped (g : CodeGuard) : bool := hit g || mapChanged g.
Definition mustFlush (g : CodeGuard) : bool := mapChanged g || hitOverflow g.
Definition clearGuard (g : CodeGuard) : CodeGuard := mkGuard [] false false false.
