(* ===== verification/JitShiftVersions.v ===== *)
(** * JitShiftVersions: count-specialised versions of the dynamic shifts

    [class ShiftVersionCache] of [jit/JitShiftVersions.h] and
    [jit/JitShiftVersions.cpp], with the opcode tests of [jit/JitCost.h] it
    calls.  A block key is a 64-bit integer: the program counter, the
    privilege level in bit 32, and for a version of a shift site bit 33 with
    the count above it.  [dump] only prints and is left out. *)

From S2P Require Import Prelude.
From stdpp Require Import base list numbers option decidable gmap.

Open Scope Z_scope.

(** ** [jit/JitCost.h] *)

Definition kMaxMultiVersionShiftCount : Z := 31.
Definition isMultiVersionShiftOpcode (op : Z) : bool :=
  (op =? 0xE0A9) || (op =? 0xE2AB) || (op =? 0xE4A4) || (op =? 0xE2AA).
Definition multiVersionShiftIndex (op : Z) : Z :=
  if op =? 0xE0A9 then 0 else if op =? 0xE2AB then 1
  else if op =? 0xE4A4 then 2 else 3.

(** ** Keys *)

Definition key (pc : Z) (super : bool) : Z :=
  pc .| (if super then 1 .<< 32 else 0).

Definition kFlag : Z := 1 .<< 33.
Definition kMaxPerSite : Z := 32.

Definition versionKey (base count : Z) : Z := base .| kFlag .| (count .<< 34).
Definition isVersionKey (k : Z) : bool := k .& kFlag <>? 0.
Definition baseKey (k : Z) : Z := k .& (kFlag - 1).
Definition versionFromKey (k : Z) : Z := (k .>> 34) .& 31.

(** ** The cache *)

Record ShiftVersionCache := mkShift {
  masks_ : gmap Z Z;
  sites_ : gset Z;
  capHisto_ : list Z;
  wideHisto_ : list Z
}.

#[export] Instance eta_shift : Eta ShiftVersionCache := fun c =>
  mkShift (masks_ c) (sites_ c) (capHisto_ c) (wideHisto_ c).
Definition set_masks := ltac:(set_field masks_).
Definition set_sites := ltac:(set_field sites_).
Definition set_capHisto := ltac:(set_field capHisto_).
Definition set_wideHisto := ltac:(set_field wideHisto_).

Definition ShiftVersionCache0 : ShiftVersionCache :=
  mkShift ∅ ∅ (replicate 4 0) (replicate 4 0).

Record Admission := mkAdmission {
  ad_baseKey : Z;
  ad_cacheKey : Z;
  ad_version : Z;
  ad_versioned : bool;
  ad_accepted : bool
}.

Definition bumpHisto (i : Z) (l : list Z) : list Z := wr l i (default 0 (rd l i) + 1).

Definition knows (base : Z) (c : ShiftVersionCache) : bool := bool_decide (base ∈ sites_ c).
Definition remember (base : Z) (c : ShiftVersionCache) : ShiftVersionCache :=
  set_sites ({[base]} ∪ sites_ c) c.

Definition select (base op count : Z) (histogram : bool) (c : ShiftVersionCache)
  : Z * ShiftVersionCache :=
  if kMaxMultiVersionShiftCount <? count then
    (base, if histogram
           then set_wideHisto (bumpHisto (multiVersionShiftIndex op) (wideHisto_ c)) c
           else c)
  else (versionKey base count, c).

(** [std::popcount] of a 32-bit word. *)
Definition popcount (x : Z) : Z :=
  Z.of_nat (length (filter (fun i => Z.testbit x i) (seqZ 0 32))).

Definition siteMask (base : Z) (c : ShiftVersionCache) : Z :=
  default 0 (masks_ c !! base).

Definition admitShift (base op count : Z) (enabled histogram : bool) (c : ShiftVersionCache)
  : Admission * ShiftVersionCache :=
  let result := mkAdmission base base 0xFF enabled true in
  if negb enabled then (result, c) else
  let c := remember base c in
  if count <? 0 then (result, c) else
  if kMaxMultiVersionShiftCount <? count then
    (result, if histogram
             then set_wideHisto (bumpHisto (multiVersionShiftIndex op) (wideHisto_ c)) c
             else c)
  else
    let bit := u32 (1 .<< count) in
    let mask := siteMask base c in
    if (mask .& bit =? 0) && (kMaxPerSite <=? popcount mask) then
      (mkAdmission base base 0xFF enabled false,
       if histogram
       then set_capHisto (bumpHisto (multiVersionShiftIndex op) (capHisto_ c)) c else c)
    else (mkAdmission base (versionKey base count) count enabled true, c).

Definition commit (a : Admission) (c : ShiftVersionCache) : ShiftVersionCache :=
  if ad_version a <>? 0xFF then
    set_masks (<[ad_baseKey a :=
      siteMask (ad_baseKey a) c .| u32 (1 .<< ad_version a)]> (masks_ c)) c
  else c.

Definition forget (k : Z) (c : ShiftVersionCache) : ShiftVersionCache :=
  if negb (isVersionKey k) then c else
  match masks_ c !! baseKey k with
  | None => c
  | Some m =>
      let m := Z.ldiff m (u32 (1 .<< versionFromKey k)) in
      set_masks (if m =? 0 then delete (baseKey k) (masks_ c)
                 else <[baseKey k := m]> (masks_ c)) c
  end.

Definition prune (k : Z) (baseBlockAlive : bool) (c : ShiftVersionCache)
  : ShiftVersionCache :=
  let base := baseKey k in
  if bool_decide (masks_ c !! base = None) && negb baseBlockAlive
  then set_sites (sites_ c ∖ {[base]}) c else c.

Definition clearShift (c : ShiftVersionCache) : ShiftVersionCache :=
  set_sites ∅ (set_masks ∅ c).

Definition resetPhase (c : ShiftVersionCache) : ShiftVersionCache :=
  set_wideHisto (replicate 4 0) (set_capHisto (replicate 4 0) c).
