(* ===== verification/JitDispatchCache.v ===== *)
(** * JitDispatchCache: the direct-mapped cache in front of the block map

    [class DispatchCache] of [jit/JitDispatchCache.h].  A [Block*] is the
    address of a node of the block map: the key the node is stored under and
    the number of the allocation, so that the pointer to an erased node
    differs from the pointer to a later node of the same key.  [lookupBlock] reads
    the generation stamp through the pointer; [genAt] is that read, undefined
    where no such node is alive. *)

From S2P Require Import Prelude.
From S2P Require Import JitShiftVersions.
From stdpp Require Import base list numbers option decidable gmap.

Open Scope Z_scope.

Record BlockPtr := mkPtr { p_key : Z; p_node : Z }.
#[export] Instance ptr_eq_dec : EqDecision BlockPtr.
Proof. solve_decision. Defined.

Record Entry := mkEntry { en_key : Z; en_block : option BlockPtr }.
Definition Entry0 : Entry := mkEntry 0 None.

Record DispatchCache := mkDispatch {
  entries_ : list Entry;
  mask_ : Z;
  hits_ : Z;
  genMiss_ : Z;
  miss_ : Z
}.

#[export] Instance eta_dispatch : Eta DispatchCache := fun c =>
  mkDispatch (entries_ c) (mask_ c) (hits_ c) (genMiss_ c) (miss_ c).
Definition set_entries := ltac:(set_field entries_).
Definition set_mask := ltac:(set_field mask_).
Definition set_dhits := ltac:(set_field hits_).
Definition set_genMiss := ltac:(set_field genMiss_).
Definition set_miss := ltac:(set_field miss_).

Definition kDefaultSize : Z := 16384.

Definition resizeDispatch (slots : Z) (c : DispatchCache) : DispatchCache :=
  if (slots <? 4096) || (slots .& (slots - 1) <>? 0) then c
  else set_mask (slots - 1) (set_entries (replicate (Z.to_nat slots) Entry0) c).

Definition DispatchCache0 : DispatchCache := resizeDispatch kDefaultSize (mkDispatch [] 0 0 0 0).

Definition index (c : DispatchCache) (pc : Z) (super : bool) : Z :=
  ((pc .>> 1) .^ ((if super then 1 else 0) .<< 11)) .& mask_ c.
Definition slotOf (c : DispatchCache) (plainKey : Z) : Z :=
  index c (u32 plainKey) ((plainKey .>> 32) .& 1 <>? 0).

Inductive Lookup := Found (p : BlockPtr) | Cold | Fault.

Definition lookupBlock (genAt : BlockPtr -> option Z) (plainKey gen : Z) (c : DispatchCache)
  : Lookup * DispatchCache :=
  match rd (entries_ c) (slotOf c plainKey) with
  | None => (Fault, c)
  | Some e =>
      if en_key e <>? plainKey then (Cold, set_miss (miss_ c + 1) c) else
      match en_block e with
      | None => (Fault, c)
      | Some p =>
          match genAt p with
          | None => (Fault, c)
          | Some g =>
              if g <>? gen then (Cold, set_genMiss (genMiss_ c + 1) c)
              else (Found p, set_dhits (hits_ c + 1) c)
          end
      end
  end.

Definition fill (plainKey : Z) (p : BlockPtr) (c : DispatchCache) : DispatchCache :=
  set_entries (wr (entries_ c) (slotOf c plainKey) (mkEntry plainKey (Some p))) c.

Definition evict (blockKey : Z) (c : DispatchCache) : DispatchCache :=
  if isVersionKey blockKey then c else
  match rd (entries_ c) (slotOf c blockKey) with
  | Some e =>
      if en_key e =? blockKey
      then set_entries (wr (entries_ c) (slotOf c blockKey) Entry0) c else c
  | None => c
  end.

Definition clearDispatch (c : DispatchCache) : DispatchCache :=
  set_entries ((fun _ => Entry0) <$> entries_ c) c.
