(* ===== verification/JitEngineState.v ===== *)
(** * JitEngineState: what the engine keeps, and its link table

    The state of [jit::Engine] ([jit/JitEngine.h]) that decides which
    translated code may run, with the part of the CPU it acts on
    ([extern/moira/Moira/Moira.h]): guest memory, the translation generation,
    the fetch window and the tables of the data TLB.

    Guest memory is a function from physical addresses to bytes, and a host
    pointer into it is the physical address of the byte it points at.  A
    [Compiled*] is a handle; [e_codes] is the set of handles the backend has
    handed out and not yet been asked to release.  The link table is an array
    of 262144 slots that all start empty; the finite map holds the occupied
    ones.  Gauges ([Stats], the dispatch ring, the refusal counters) decide
    nothing and are left out. *)

From S2P Require Import Prelude.
From S2P Require Import JitTypes.
From S2P Require Import JitGuard.
From S2P Require Import JitShiftVersions.
From S2P Require Import JitDispatchCache.
From stdpp Require Import base list numbers option decidable gmap.

Open Scope Z_scope.

(** ** Blocks *)

Record Block := mkBlk {
  b_ir : BlockIr;
  b_code : option Z;
  b_gen : Z;
  b_visits : Z;
  b_nativePotential : Z;
  b_shiftVersion : Z;
  b_rejected : bool;
  b_epoch : Z;
  b_node : Z
}.

#[export] Instance eta_block : Eta Block := fun b =>
  mkBlk (b_ir b) (b_code b) (b_gen b) (b_visits b) (b_nativePotential b)
    (b_shiftVersion b) (b_rejected b) (b_epoch b) (b_node b).
Definition set_code := ltac:(set_field b_code).
Definition set_gen := ltac:(set_field b_gen).
Definition set_visits := ltac:(set_field b_visits).
Definition set_rejected := ltac:(set_field b_rejected).
Definition set_epoch := ltac:(set_field b_epoch).

(** [blockSpan]: the first physical byte a block was translated from and the
    number of bytes. *)
Definition blockLo (ir : BlockIr) : Z :=
  u32 (bl_physBase ir + u32 (bl_entryPc ir - bl_codeBase ir)).
Definition blockLen (ir : BlockIr) : Z :=
  let foot := u32 (exitPc ir - bl_entryPc ir) in
  let copied := u32 (u32 (Z.of_nat (length (bl_code ir))) * 2) in
  if copied <? foot then foot else copied.

(** ** The CPU's side *)

Record Window := mkWindow {
  w_armed : bool; w_base : Z; w_phys : Z; w_len : Z; w_gen : Z; w_super : bool
}.
Definition Window0 : Window := mkWindow false 0 0 0 0 false.

Definition kEntries : Z := 256.
Definition kEmpty : Z := 0xFFFFFFFF.

Record DtlbEntry := mkDtlb { t_tag : Z; t_codeMask : Z; t_host : option Z }.
Definition DtlbEntry0 : DtlbEntry := mkDtlb kEmpty 0 None.
Definition Dtlb0 : list DtlbEntry := replicate 256 DtlbEntry0.

(** [PomJitDataPage]: the one-entry level in front of a table. *)
Record DataPage := mkPage { pg_tag : Z; pg_host : option Z }.
Definition DataPage0 : DataPage := mkPage kEmpty None.

Definition pomJitDataTag (addr : Z) (super : bool) : Z :=
  (addr .>> 12) .| (if super then 0x80000000 else 0).

(** ** Links between blocks *)

Definition kLinkSlots : Z := 262144.
Definition kNoLink : Z := 0xFFFFFFFF.
Record LinkSlot := mkLink { l_tag : Z; l_entry : option Z }.
Definition LinkSlot0 : LinkSlot := mkLink kNoLink None.
Record LinkCell := mkCell { c_entry : option Z; c_listed : bool }.

(** ** The engine *)

Record Engine := mkEngine {
  e_mem : Z -> Z;
  e_mmuGen : Z;
  e_window : Window;
  e_dtlbR : list DtlbEntry;
  e_dtlbW : list DtlbEntry;
  e_dataR1 : DataPage;
  e_dataW1 : DataPage;
  e_guard : CodeGuard;
  e_pageMap : list Z;
  e_codePage : list Z;
  e_blocks : gmap Z Block;
  e_dispatch : DispatchCache;
  e_shift : ShiftVersionCache;
  e_index : gmap Z (list Z);
  e_links : gmap Z LinkSlot;
  e_published : list Z;
  e_cells : gmap Z LinkCell;
  e_publishedCells : list Z;
  e_winPhys : Z;
  e_winLen : Z;
  e_armBackoff : Z;
  e_running : bool;
  e_pendingFlush : bool;
  e_blocksGen : Z;
  e_enabled : bool;
  e_epoch : Z;
  e_nodes : Z;
  e_codes : gset Z
}.

#[export] Instance eta_engine : Eta Engine := fun s =>
  mkEngine (e_mem s) (e_mmuGen s) (e_window s) (e_dtlbR s) (e_dtlbW s) (e_dataR1 s)
    (e_dataW1 s) (e_guard s) (e_pageMap s) (e_codePage s) (e_blocks s) (e_dispatch s)
    (e_shift s) (e_index s) (e_links s) (e_published s) (e_cells s) (e_publishedCells s)
    (e_winPhys s) (e_winLen s) (e_armBackoff s) (e_running s) (e_pendingFlush s)
    (e_blocksGen s) (e_enabled s) (e_epoch s) (e_nodes s) (e_codes s).
Definition set_mem := ltac:(set_field e_mem).
Definition set_mmuGen := ltac:(set_field e_mmuGen).
Definition set_window := ltac:(set_field e_window).
Definition set_dtlbR := ltac:(set_field e_dtlbR).
Definition set_dtlbW := ltac:(set_field e_dtlbW).
Definition set_dataR1 := ltac:(set_field e_dataR1).
Definition set_dataW1 := ltac:(set_field e_dataW1).
Definition set_guard := ltac:(set_field e_guard).
Definition set_pageMap := ltac:(set_field e_pageMap).
Definition set_codePage := ltac:(set_field e_codePage).
Definition set_blocks := ltac:(set_field e_blocks).
Definition set_dispatch := ltac:(set_field e_dispatch).
Definition set_shift := ltac:(set_field e_shift).
Definition set_index := ltac:(set_field e_index).
Definition set_links := ltac:(set_field e_links).
Definition set_published := ltac:(set_field e_published).
Definition set_cells := ltac:(set_field e_cells).
Definition set_publishedCells := ltac:(set_field e_publishedCells).
Definition set_winPhys := ltac:(set_field e_winPhys).
Definition set_winLen := ltac:(set_field e_winLen).
Definition set_armBackoff := ltac:(set_field e_armBackoff).
Definition set_running := ltac:(set_field e_running).
Definition set_pendingFlush := ltac:(set_field e_pendingFlush).
Definition set_blocksGen := ltac:(set_field e_blocksGen).
Definition set_enabled := ltac:(set_field e_enabled).
Definition set_blockEpoch := ltac:(set_field e_epoch).
Definition set_nodes := ltac:(set_field e_nodes).
Definition set_codes := ltac:(set_field e_codes).

(** The engine as its constructor leaves it, over [ram] bytes of guest memory;
    [slots] is [dispatchCacheSlots] of the configuration. *)
Definition newEngine (mem : Z -> Z) (ram gen slots : Z) : Engine :=
  mkEngine mem gen Window0 Dtlb0 Dtlb0 DataPage0 DataPage0 CodeGuard0
    (replicate (Z.to_nat (u32 (ram + kUnit - 1) .>> kShift)) 0)
    (replicate (Z.to_nat (u32 (ram + 4095) .>> 12)) 0)
    ∅ (if 0 <? slots then resizeDispatch slots DispatchCache0 else DispatchCache0)
    ShiftVersionCache0 ∅ ∅ [] ∅ [] 0 0 0 false false gen false 1 0 ∅.

(** Reading a block through a pointer to its node. *)
Definition deref (s : Engine) (p : BlockPtr) : option Block :=
  b ← e_blocks s !! p_key p;
  if b_node b =? p_node p then Some b else None.
Definition ptrTo (k : Z) (b : Block) : BlockPtr := mkPtr k (b_node b).

(** ** [Moira::pomJitDtlbFlush], [pomJitMapMoved], [pomJitDisarm] *)

Definition pomJitDtlbFlush (s : Engine) : Engine :=
  set_dataW1 DataPage0 (set_dataR1 DataPage0 (set_dtlbW Dtlb0 (set_dtlbR Dtlb0 s))).
Definition pomJitMapMoved (s : Engine) : Engine :=
  pomJitDtlbFlush (set_mmuGen (u32 (e_mmuGen s + 1)) s).
Definition disarmWindow (s : Engine) : Engine :=
  let w := e_window s in
  set_winLen 0 (set_winPhys 0
    (set_window (mkWindow false (w_base w) (w_phys w) (w_len w) (w_gen w) (w_super w)) s)).

(** ** The link table *)

Definition linkIndex (pc : Z) : Z := (pc .>> 1) .& (kLinkSlots - 1).
Definition linkSlot (s : Engine) (i : Z) : LinkSlot := default LinkSlot0 (e_links s !! i).
Definition linkTag (pc : Z) (super : bool) : Z := pc .| (if super then 1 else 0).

Definition publishCell (k entry : Z) (s : Engine) : Engine :=
  match e_cells s !! k with
  | None => s
  | Some c =>
      let s := set_cells (<[k := mkCell (Some entry) true]> (e_cells s)) s in
      if c_listed c then s else set_publishedCells (e_publishedCells s ++ [k]) s
  end.

Definition publishLink (pc : Z) (super : bool) (entry : Z) (s : Engine) : Engine :=
  let i := linkIndex pc in
  let s := if l_tag (linkSlot s i) =? kNoLink
           then set_published (e_published s ++ [i]) s else s in
  let s := set_links (<[i := mkLink (linkTag pc super) (Some entry)]> (e_links s)) s in
  publishCell (key pc super) entry s.

Definition retractCell (k : Z) (s : Engine) : Engine :=
  match e_cells s !! k with
  | None => s
  | Some c => set_cells (<[k := mkCell None (c_listed c)]> (e_cells s)) s
  end.

Definition retractLink (pc : Z) (super : bool) (s : Engine) : Engine :=
  let i := linkIndex pc in
  let s := if l_tag (linkSlot s i) =? linkTag pc super
           then set_links (<[i := LinkSlot0]> (e_links s)) s else s in
  retractCell (key pc super) s.

Definition clearLinks (s : Engine) : Engine :=
  let s := set_links (foldl (fun m i => <[i := LinkSlot0]> m) (e_links s) (e_published s)) s in
  let s := set_published [] s in
  let s := set_cells (foldl (fun m k => <[k := mkCell None false]> m)
                        (e_cells s) (e_publishedCells s)) s in
  set_publishedCells [] s.

(** [Engine::linkCell]: the cell of an outgoing edge, bound at once to a target
    that is already translated under the current generation. *)
Section LinkEntry.
Context (linkEntry : Z -> option Z).

Definition linkCell (pc : Z) (super : bool) (s : Engine) : Engine :=
  let k := key pc super in
  let s := match e_cells s !! k with
           | None => set_cells (<[k := mkCell None false]> (e_cells s)) s
           | Some _ => s
           end in
  match e_cells s !! k with
  | None => s
  | Some c =>
      match c_entry c with
      | Some _ => s
      | None =>
          match (b ← e_blocks s !! k;
                 if b_gen b =? e_blocksGen s then b_code b else None) with
          | None => s
          | Some code =>
              let entry := linkEntry code in
              let listed := c_listed c || bool_decide (is_Some entry) in
              let s := set_cells (<[k := mkCell entry listed]> (e_cells s)) s in
              if bool_decide (is_Some entry) && negb (c_listed c)
              then set_publishedCells (e_publishedCells s ++ [k]) s else s
          end
      end
  end.
End LinkEntry.
