(* ===== verification/JitBlockCache.v ===== *)
(** * JitBlockCache: which blocks stay resident

    [jit/JitBlockCache.cpp] whole, with [Engine::flushAll] of
    [jit/JitEngine.cpp]: the physical-footprint index, capacity eviction,
    guard-driven eviction and the flush.  The three places of the source that
    erase a block repeat one sequence of duties, [eraseBlock]; [order] is the
    order in which the hash table iterates, which the language leaves open. *)

From S2P Require Import Prelude.
From S2P Require Import JitTypes.
From S2P Require Import JitGuard.
From S2P Require Import JitShiftVersions.
From S2P Require Import JitDispatchCache.
From S2P Require Import JitEngineState.
From stdpp Require Import base list numbers option decidable gmap.

Open Scope Z_scope.

(** ** The index of slices *)

(** The slices [p, p+1, ..] the loops of [markPages] and [unmarkPages] visit:
    up to [last], and inside a map of [pages] slices. *)
Definition sliceRange (lo hi pages : Z) : list Z :=
  let p := lo .>> kShift in
  seqZ p (Z.min (hi .>> kShift) (pages - 1) - p + 1).

(** The sub-slice bits of [slice] that the bytes [lo .. hi] cover. *)
Definition sliceBits (lo hi slice : Z) : Z :=
  let sliceLo := u32 (slice .<< kShift) in
  let sliceHi := u32 (sliceLo + kUnit - 1) in
  subMask (if sliceLo <? lo then lo else sliceLo) (if hi <? sliceHi then hi else sliceHi).

(** One turn of the loop of [recomputeSliceMark]. *)
Definition keyBits (blocks : gmap Z Block) (slice k : Z) : Z :=
  match blocks !! k with
  | None => 0
  | Some b =>
      let sliceLo := u32 (slice .<< kShift) in
      let sliceHi := u32 (sliceLo + kUnit - 1) in
      let lo := blockLo (b_ir b) in
      let len := blockLen (b_ir b) in
      if len =? 0 then 0 else
      let hi := u32 (lo + len - 1) in
      if (hi <? sliceLo) || (sliceHi <? lo) then 0 else sliceBits lo hi slice
  end.

Definition keysOf (s : Engine) (slice : Z) : list Z := default [] (e_index s !! slice).

Definition sliceMask (blocks : gmap Z Block) (slice : Z) (keys : list Z) : Z :=
  foldl (fun mask k => mask .| keyBits blocks slice k) 0 keys.

Definition recomputeSliceMark (slice : Z) (s : Engine) : Engine :=
  if Z.of_nat (length (e_pageMap s)) <=? slice then s else
  let mask := sliceMask (e_blocks s) slice (keysOf s slice) in
  let s := set_pageMap (wr (e_pageMap s) slice mask) s in
  if mask <>? 0 then s else
  let page := u32 (slice .<< kShift) .>> 12 in
  if default 0 (rd (e_codePage s) page) =? 0 then s else
  let first := u32 (page .<< 12) .>> kShift in
  if existsb (fun i => pageByte (e_pageMap s) i <>? 0) (seqZ first (4096 .>> kShift))
  then s
  else pomJitDtlbFlush (set_codePage (wr (e_codePage s) page 0) s).

Definition unmarkSlice (k p : Z) (s : Engine) : Engine :=
  match e_index s !! p with
  | None => s
  | Some keys =>
      let keys := filter (fun x => x <> k) keys in
      let s := set_index (match keys with
                          | [] => delete p (e_index s)
                          | _ => <[p := keys]> (e_index s)
                          end) s in
      recomputeSliceMark p s
  end.

Definition unmarkPages (k lo len : Z) (s : Engine) : Engine :=
  if bool_decide (e_pageMap s = []) || (len =? 0) then s else
  foldl (fun s p => unmarkSlice k p s) s
    (sliceRange lo (u32 (lo + len - 1)) (Z.of_nat (length (e_pageMap s)))).

Definition markSlice (k lo hi p : Z) (s : Engine) : Engine :=
  let s := set_pageMap (wr (e_pageMap s) p
             (u8 (pageByte (e_pageMap s) p .| sliceBits lo hi p))) s in
  set_index (<[p := keysOf s p ++ [k]]> (e_index s)) s.

Definition markPages (k lo len : Z) (s : Engine) : Engine :=
  if bool_decide (e_pageMap s = []) || (len =? 0) then s else
  let hi := u32 (lo + len - 1) in
  let range := sliceRange lo hi (Z.of_nat (length (e_pageMap s))) in
  let gained := existsb (fun p => pageByte (e_pageMap s) p =? 0) range in
  let s := foldl (fun s p => markSlice k lo hi p s) s range in
  let q := lo .>> 12 in
  let pages := Z.min (hi .>> 12) (Z.of_nat (length (e_codePage s)) - 1) - q + 1 in
  let s := set_codePage (foldl (fun c q => wr c q 1) (e_codePage s) (seqZ q pages)) s in
  if gained then pomJitDtlbFlush s else s.

(** ** Erasing a block *)

Definition release (code : option Z) (s : Engine) : Engine :=
  match code with
  | None => s
  | Some c => set_codes (e_codes s ∖ {[c]}) s
  end.

Definition eraseBlock (k : Z) (b : Block) (s : Engine) : Engine :=
  let s := release (b_code b) s in
  let s := unmarkPages k (blockLo (b_ir b)) (blockLen (b_ir b)) s in
  let s := set_shift (forget k (e_shift s)) s in
  let s := set_blocks (delete k (e_blocks s)) s in
  let s := set_dispatch (evict k (e_dispatch s)) s in
  set_shift (prune k (bool_decide (is_Some (e_blocks s !! baseKey k))) (e_shift s)) s.

(** ... after its published link, which only plain blocks with code have. *)
Definition retractAndErase (k : Z) (b : Block) (s : Engine) : Engine :=
  let s := if bool_decide (is_Some (b_code b)) && (b_shiftVersion b =? 0xFF)
           then retractLink (bl_entryPc (b_ir b)) (bl_super (b_ir b)) s else s in
  eraseBlock k b s.

Definition evictCold1 (s : Engine) (k : Z) : Engine :=
  match e_blocks s !! k with
  | None => s
  | Some b => if b_epoch b =? e_epoch s then s else retractAndErase k b s
  end.

Definition evictColdBlocks (order : list Z) (s : Engine) : Engine :=
  let s := foldl evictCold1 s order in
  set_blockEpoch (u32 (e_epoch s + 1)) s.

(** ** [Engine::flushAll] *)

Definition releaseAll (s : Engine) : gset Z :=
  map_fold (fun _ b acc => match b_code b with Some c => acc ∖ {[c]} | None => acc end)
    (e_codes s) (e_blocks s).

Definition flushAll (s : Engine) : Engine :=
  if e_running s then set_pendingFlush true s else
  if negb (e_enabled s) then disarmWindow s else
  let s := set_codes (releaseAll s) s in
  let s := set_blocks ∅ s in
  let s := set_dispatch (clearDispatch (e_dispatch s)) s in
  let s := set_shift (clearShift (e_shift s)) s in
  let s := set_index ∅ s in
  let s := clearLinks s in
  let s := pomJitDtlbFlush s in
  let s := set_pageMap ((fun _ => 0) <$> e_pageMap s) s in
  let s := set_codePage ((fun _ => 0) <$> e_codePage s) s in
  let s := disarmWindow s in
  let s := set_guard (clearGuard (e_guard s)) s in
  set_pendingFlush false (set_blocksGen (e_mmuGen s) s).

(** ** [Engine::serviceGuard] *)

Definition touches (h : Hit) (ir : BlockIr) : bool :=
  let lo := blockLo ir in
  let len := blockLen ir in
  negb ((len =? 0) || (h_hi h <? lo) || (u32 (lo + len - 1) <? h_lo h)).

Definition serviceKey (h : Hit) (s : Engine) (k : Z) : Engine :=
  match e_blocks s !! k with
  | None => s
  | Some b => if touches h (b_ir b) then retractAndErase k b s else s
  end.

Definition serviceHit (s : Engine) (h : Hit) : Engine :=
  foldl (serviceKey h) s (keysOf s (h_slice h)).

Definition serviceGuard (s : Engine) : Engine :=
  if negb (tripped (e_guard s)) then s else
  if mustFlush (e_guard s) || bool_decide (e_blocks s = ∅) then flushAll s else
  let s := foldl serviceHit s (hits (e_guard s)) in
  set_guard (clearGuard (e_guard s)) s.

(** [Engine::setEnabled]. *)
Definition setEnabled (on : bool) (s : Engine) : Engine := set_enabled on (flushAll s).
