(* ===== verification/JitGuest.v ===== *)
(** * JitGuest: what running guest code does to the engine

    The doors through which guest execution reaches the state of the engine:
    stores through a machine's memory map ([Q605Memory::write8], [::write16]
    and [::jitMapChanged], whose RAM branch every map shares), stores through
    the data TLB ([Moira::pomJitData], [::pomJitDataSlow] and the inline path
    of generated code), [Engine::fillDtlb], the evictions of
    [Moira::pomJitAtcEvict], changes of translation, and cache flushes asked
    for by the guest.  The answers of the MMU and of the memory map
    ([pomJitProbeData], [dataSpan], the 68040 cache) are arguments. *)

From S2P Require Import Prelude.
From S2P Require Import JitTypes.
From S2P Require Import JitGuard.
From S2P Require Import JitShiftVersions.
From S2P Require Import JitDispatchCache.
From S2P Require Import JitEngineState.
From S2P Require Import JitBlockCache.
From stdpp Require Import base list numbers option decidable gmap.

Open Scope Z_scope.

(** The settings the constructor derives from the configuration and from the
    capabilities of the backend. *)
Record Config := mkConfig {
  cf_useWindow : bool;
  cf_useBlocks : bool;
  cf_paranoid : bool;
  cf_maxInstrs : nat;
  cf_maxBlocks : Z;
  cf_maskAware : bool;
  cf_hotAt : Z;
  cf_profitScore : Z;
  cf_nativeCode : bool;
  cf_is030 : bool;
  cf_is040 : bool;
  cf_armBackoff : Z;
  cf_fpuMember : bool;
  cf_histogram : bool;
  cf_denyFrom : Z;
  cf_denyTo : Z;
  cf_ram : Z                       (** [ramBytes()] of the memory map *)
}.

(** ** Stores through the memory map

    The RAM branch of [write8] and [write16] with the ROM overlay off.  Under
    the overlay, in the ROM window and in the device ranges they store nothing
    into RAM and note nothing; there is no event for those.  The address of an
    event is a word of 32 bits, and the code has this branch below 0x40000000. *)

Definition upd (m : Z -> Z) (a v : Z) : Z -> Z := fun x => if x =? a then v else m x.

Definition noteStore (addr n : Z) (s : Engine) : Engine :=
  if e_enabled s then set_guard (note (e_pageMap s) addr n (e_guard s)) s else s.

Definition write8 (ram addr v : Z) (s : Engine) : Engine :=
  let s := noteStore addr 1 s in
  if addr <? ram then set_mem (upd (e_mem s) addr (u8 v)) s else s.

Definition write16 (ram addr v : Z) (s : Engine) : Engine :=
  if addr + 1 <? ram then
    let s := noteStore addr 2 s in
    set_mem (upd (upd (e_mem s) addr (u8 (v .>> 8))) (addr + 1) (u8 v)) s
  else s.

(** The map moves: the bytes behind the physical addresses become [m]. *)
Definition jitMapChanged (m : Z -> Z) (s : Engine) : Engine :=
  let s := set_mem m s in
  let s := if e_enabled s then set_guard (invalidate (e_guard s)) s else s in
  pomJitDtlbFlush s.

(** ** [Engine::fillDtlb] *)

Record FillAnswers := mkFill {
  fa_cache040 : bool;              (** [pomCache040Active()] *)
  fa_hasSpan : bool;               (** [mem_.dataSpan] is set *)
  fa_super : bool;
  fa_probe : option (Z * Z);       (** [phys] and [pageLen] of the probe *)
  fa_span : option Z               (** length of the host span, if any *)
}.

Section Doors.
Context (cfg : Config) (aliasCodeMask : Z -> list Z -> Z).

Definition setDtlb (write : bool) (i : Z) (e : DtlbEntry) (s : Engine) : Engine :=
  if write then set_dtlbW (wr (e_dtlbW s) i e) s else set_dtlbR (wr (e_dtlbR s) i e) s.

(** The mask of the slices of the page at [physSlice] that hold code. *)
Definition codeMaskOf (physSlice : Z) (s : Engine) : Z :=
  if default 0 (rd (e_codePage s) (physSlice .>> 12)) =? 0 then 0 else
  foldl (fun mask i =>
           if pageByte (e_pageMap s) (u32 ((physSlice .>> kShift) + i)) <>? 0
           then mask .| (1 .<< i) else mask)
    0 (seqZ 0 (4096 .>> kShift)).

Definition fillDtlb (a : FillAnswers) (addr : Z) (write : bool) (s : Engine) : Engine :=
  let i := (addr .>> 12) .& (kEntries - 1) in
  let tag := pomJitDataTag addr (fa_super a) in
  if fa_cache040 a then setDtlb write i (mkDtlb tag 0 None) s else
  if negb (fa_hasSpan a) then s else
  match fa_probe a with
  | None => s
  | Some (phys, pageLen) =>
      if pageLen <? 4096 then s else
      let physSlice := Z.ldiff phys 4095 in
      let host := match fa_span a with
                  | Some span => if span <? 4096 then None else Some physSlice
                  | None => None
                  end in
      let plain := write && bool_decide (is_Some host) in
      let mask := if plain
                  then codeMaskOf physSlice s .| aliasCodeMask physSlice (e_pageMap s)
                  else 0 in
      let host := if (mask <>? 0) && negb (cf_maskAware cfg) then None else host in
      setDtlb write i (mkDtlb tag mask host) s
  end.

(** ** Stores through the data TLB *)

Fixpoint storeBytes (m : Z -> Z) (a : Z) (l : list Z) : Z -> Z :=
  match l with
  | [] => m
  | v :: l => storeBytes (upd m a (u8 v)) (a + 1) l
  end.

(** The inline store of generated code through entry [i] of the write table:
    taken when the bytes, at most one MOVEM burst, stay inside the page and,
    where the backend tests the mask ([guardCodeSlices]), when neither the
    first nor the last of them lies in a slice with code. *)
Definition dtlbStore (i off : Z) (bytes : list Z) (s : Engine) : Engine :=
  match rd (e_dtlbW s) i with
  | Some (mkDtlb _ mask (Some host)) =>
      let last := off + Z.of_nat (length bytes) - 1 in
      if (0 <=? off) && (last <? 4096) &&
         (negb (cf_maskAware cfg) ||
          negb (Z.testbit mask (off .>> kShift) || Z.testbit mask (last .>> kShift))) &&
         (Z.of_nat (length bytes) <=? 64)
      then set_mem (storeBytes (e_mem s) (host + off) bytes) s else s
  | _ => s
  end.

(** [pomJitDataSlow]: an entry for the page, filled on demand, moves to the level
    in front unless it covers code; and the interpreter's store through that
    level.  [promote] is the second half, [dtlbAt] the entry it looks at. *)
Definition dtlbAt (addr : Z) (w : bool) (s : Engine) : option DtlbEntry :=
  rd (if w then e_dtlbW s else e_dtlbR s) ((addr .>> 12) .& (kEntries - 1)).

Definition promote (addr want : Z) (w : bool) (s : Engine) : Engine :=
  match dtlbAt addr w s with
  | Some e =>
      if t_tag e <>? want then s else
      if w && (t_codeMask e <>? 0) then s else
      let c := mkPage want (t_host e) in
      if w then set_dataW1 c s else set_dataR1 c s
  | None => s
  end.

Definition pomJitDataSlow (a : FillAnswers) (addr want : Z) (w : bool) (s : Engine) : Engine :=
  match dtlbAt addr w s with
  | Some e => promote addr want w (if t_tag e <>? want then fillDtlb a addr w s else s)
  | None => s
  end.

Definition windowStore (off : Z) (bytes : list Z) (s : Engine) : Engine :=
  match pg_host (e_dataW1 s) with
  | Some host =>
      if (0 <=? off) && (off + Z.of_nat (length bytes) <=? 4096)
      then set_mem (storeBytes (e_mem s) (host + off) bytes) s else s
  | None => s
  end.

(** ** [Moira::pomJitAtcEvict] *)

Definition dropEntry (slice : Z) (l : list DtlbEntry) : list DtlbEntry :=
  let i := slice .& (kEntries - 1) in
  match rd l i with
  | Some e => if t_tag e .& 0x7FFFFFFF =? slice then wr l i DtlbEntry0 else l
  | None => l
  end.
Definition dropPage (slice : Z) (c : DataPage) : DataPage :=
  if pg_tag c .& 0x7FFFFFFF =? slice then DataPage0 else c.

Definition evictSlice (slice : Z) (s : Engine) : Engine :=
  let s := set_dtlbW (dropEntry slice (e_dtlbW s)) (set_dtlbR (dropEntry slice (e_dtlbR s)) s) in
  set_dataW1 (dropPage slice (e_dataW1 s)) (set_dataR1 (dropPage slice (e_dataR1 s)) s).

Definition pomJitAtcEvict (page len : Z) (code : bool) (s : Engine) : Engine :=
  if code then
    let w := e_window s in
    if w_armed w && (page <=? w_base w) && (w_base w <? u32 (page + len))
    then set_window (mkWindow false (w_base w) (w_phys w) (w_len w) (w_gen w) (w_super w)) s
    else s
  else
    foldl (fun s k => evictSlice (u32 (page + 4096 * k) .>> 12) s) s
      (seqZ 0 ((len + 4095) / 4096)).

(** ** A run of guest code *)

Inductive GuestEv :=
| GWrite8 (addr v : Z)
| GWrite16 (addr v : Z)
| GMapChanged (m : Z -> Z)
| GFill (a : FillAnswers) (addr : Z) (write : bool)
| GDtlbStore (i off : Z) (bytes : list Z)
| GDataSlow (a : FillAnswers) (addr want : Z) (w : bool)
| GWindowStore (off : Z) (bytes : list Z)
| GAtcEvict (page len : Z) (code : bool)
| GMapMoved
| GFlush.

Definition guestStep (s : Engine) (ev : GuestEv) : Engine :=
  match ev with
  | GWrite8 addr v => write8 (cf_ram cfg) (u32 addr) v s
  | GWrite16 addr v => write16 (cf_ram cfg) (u32 addr) v s
  | GMapChanged m => jitMapChanged m s
  | GFill a addr write => fillDtlb a addr write s
  | GDtlbStore i off bytes => dtlbStore i off bytes s
  | GDataSlow a addr want w => pomJitDataSlow a addr want w s
  | GWindowStore off bytes => windowStore off bytes s
  | GAtcEvict page len code => pomJitAtcEvict page len code s
  | GMapMoved => pomJitMapMoved s
  | GFlush => flushAll s
  end.

Definition guestRun (evs : list GuestEv) (s : Engine) : Engine := foldl guestStep s evs.

(** The same inside the backend or the tracer, where a flush is deferred. *)
Definition guestRunInside (evs : list GuestEv) (s : Engine) : Engine :=
  set_running false (guestRun evs (set_running true s)).
End Doors.
