(* ===== verification/JitTurn.v ===== *)
(** * JitTurn: arming, tracing and the dispatch loop

    [Engine::armWindow], [::record], [::dispatchBlockKey] and one turn of
    [::executeUntil] ([jit/JitEngine.cpp], [jit/JitShiftVersions.cpp]).  What
    the CPU and the backend answer (the idle flag, the program counter, the
    probes, the length and timing of each traced instruction, the result of
    the compiler, the doors that guest code goes through) is an argument; what
    the engine does with the answers is computed. *)

From S2P Require Import Prelude.
From S2P Require Import JitTypes.
From S2P Require Import JitDecode.
From S2P Require Import JitEa.
From S2P Require Import JitGuard.
From S2P Require Import JitShiftVersions.
From S2P Require Import JitDispatchCache.
From S2P Require Import JitEngineState.
From S2P Require Import JitBlockCache.
From S2P Require Import JitGuest.
From stdpp Require Import base list numbers option decidable gmap.

Open Scope Z_scope.

(** ** The fetch window *)

Definition pomJitCovers (super match040 : bool) (addr : Z) (s : Engine) : bool :=
  let w := e_window s in
  w_armed w && (w_gen w =? e_mmuGen s) && eqb (w_super w) super &&
  (u32 (addr - w_base w) <=? u32 (w_len w - 4)) && match040.

Definition pomJitPeek (addr : Z) (s : Engine) : Z :=
  let p := u32 (w_phys (e_window s) + u32 (addr - w_base (e_window s))) in
  u16 (u16 (e_mem s p .<< 8) .| e_mem s (u32 (p + 1))).

Definition pomJitArm (base phys len : Z) (super : bool) (s : Engine) : Engine :=
  set_window (mkWindow (4 <=? len) base phys len (e_mmuGen s) super) s.

Record ArmAnswers := mkArm {
  aa_pipe : bool;                    (** [pomMmuPipeLive()] *)
  aa_match : bool;                   (** the 68040 cache agrees, before and ... *)
  aa_matchAfter : bool;              (** ... after arming *)
  aa_probe : option (Z * Z * Z);     (** [phys], [pageBase] and [pageLen] *)
  aa_span : option Z                 (** length of the host span, if any *)
}.

Definition kMinWindow : Z := 4.

#[export] Instance endReason_eq_dec : EqDecision EndReason.
Proof. solve_decision. Defined.

Section Turn.
Context (cfg : Config) (linkEntry : Z -> option Z).
Context (aliasCodeMask : Z -> list Z -> Z) (canEmit : Z -> bool) (branches : bool).

Definition armWindow (a : ArmAnswers) (pc : Z) (super : bool) (s : Engine)
  : bool * Engine :=
  if negb (cf_useWindow cfg) then (false, s) else
  if aa_pipe a then (false, disarmWindow s) else
  if negb (cf_paranoid cfg) && pomJitCovers super (aa_match a) pc s &&
     negb (tripped (e_guard s))
  then (true, s) else
  let s := serviceGuard s in
  match aa_probe a with
  | None => (false, disarmWindow s)
  | Some (phys, pageBase, pageLen) =>
      let pageBase := u32 pageBase in
      let physPage := u32 (phys - u32 (pc - pageBase)) in
      match aa_span a with
      | None => (false, disarmWindow s)
      | Some span =>
          if span <? kMinWindow then (false, disarmWindow s) else
          let len := if pageLen <? span then pageLen else span in
          if (len <? kMinWindow) || (len - kMinWindow <? u32 (pc - pageBase))
          then (false, disarmWindow s) else
          let s := pomJitArm pageBase physPage len super s in
          let s := set_winLen len (set_winPhys physPage s) in
          if pomJitCovers super (aa_matchAfter a) pc s then (true, s)
          else (false, disarmWindow s)
      end
  end.

(** ** Tracing *)

Record Timing := mkTiming {
  ti_valid : bool; ti_base : Z; ti_icache : Z; ti_postException : Z;
  ti_fetchWords : Z; ti_iplPolls : Z; ti_iplPollPositions : Z
}.

(** What the CPU answers around one instruction of the trace. *)
Record TraceStep := mkStep {
  ts_clockDone : bool;
  ts_idle : bool;
  ts_super : bool;
  ts_match : bool; ts_matchExt : bool; ts_matchEnd : bool;
  ts_events : list GuestEv;
  ts_retired : bool;
  ts_next : Z;
  ts_spent : Z;
  ts_timing : Timing;
  ts_ird : Z; ts_irc : Z
}.

Definition narrowCycles (v : Z) : Z :=
  u16 (if (0 <=? v) && (v <? 0x10000) then v else 0).
Definition narrowByte (v : Z) : Z := u8 (if (0 <? v) && (v <? 256) then v else 0).

Definition timingExact (t : Timing) (spent : Z) : bool :=
  ti_valid t && (0 <=? ti_base t) && (0 <=? ti_icache t) && (0 <=? ti_postException t) &&
  (ti_base t + ti_icache t + ti_postException t =? spent).

(** The positions of the interrupt polls as a mask, and whether it is exact. *)
Fixpoint pollMask (positions : list Z) (mask : Z) : Z * bool :=
  match positions with
  | [] => (mask, true)
  | pos :: l =>
      if pos =? 0 then pollMask l mask else
      if 8 <? pos then (mask, false) else pollMask l (mask .| u8 (1 .<< (pos - 1)))
  end.
Definition iplPollMask (t : Timing) : Z * bool :=
  if cf_is040 cfg && (0 <? ti_iplPolls t) && (ti_iplPolls t <=? 8) then
    pollMask ((fun p => (ti_iplPollPositions t .>> (4 * p)) .& 0xF) <$>
              seqZ 0 (ti_iplPolls t)) 0
  else (0, false).

(** The fields of the entry that the tracer observed on the CPU. *)
Definition observed (t : TraceStep) : Instr :=
  let tm := ts_timing t in
  let cycles := narrowCycles (ts_spent t) in
  let exact := timingExact tm (ts_spent t) in
  let (mask, posValid) := iplPollMask tm in
  mkInstr 0 0 1 Kind.Alu FlagNone cycles
    (if exact then narrowCycles (ti_base tm) else cycles)
    (if exact then narrowCycles (ti_icache tm) else 0)
    (if exact then narrowCycles (ti_postException tm) else 0)
    (narrowByte (ti_fetchWords tm)) (u32 (ts_next t)) (ts_ird t) (ts_irc t) true
    (narrowByte (ti_iplPolls tm)) mask posValid
    (in_memory Instr0) (in_semantics Instr0) (in_extensions Instr0) 0
    (in_effectiveAddresses Instr0) 0 (in_control Instr0).

Record Trace := mkTrace {
  tr_at : Z;
  tr_instrs : list Instr;
  tr_why : EndReason;
  tr_retired : Z
}.

Definition isIndexedJump (op : Z) : bool :=
  let mode := (op .>> 3) .& 7 in
  let reg := op .& 7 in
  (op .& 0xFF80 =? 0x4E80) && ((mode =? 6) || ((mode =? 7) && (reg =? 3))).

(** The loop of [record]: at most [n] more instructions from [at_]; [i] counts
    the turns, [t] is what has been traced so far. *)
Fixpoint traceLoop (n : nat) (i : nat) (steps : nat -> TraceStep)
    (pc : Z) (super : bool) (t : Trace) (s : Engine) : Trace * Engine :=
  let stop why := (mkTrace (tr_at t) (tr_instrs t) why (tr_retired t), s) in
  match n with
  | O => (t, s)
  | S n =>
      let at_ := tr_at t in
      let st := steps i in
      if ts_clockDone st then stop EndReason.LengthLimit else
      if negb (ts_idle st) then stop EndReason.ControlFlow else
      if negb (pomJitCovers (ts_super st) (ts_match st) at_ s) then stop EndReason.WindowEdge
      else
      let op := pomJitPeek at_ s in
      let versionedShift := cf_nativeCode cfg && isMultiVersionShiftOpcode op in
      if versionedShift && (at_ <>? pc) then
        (mkTrace at_ (tr_instrs t) EndReason.LengthLimit (tr_retired t),
         set_shift (remember (key at_ super) (e_shift s)) s)
      else
      let kind := if (classify op == Kind.Fpu) && negb (cf_fpuMember cfg)
                  then Kind.Unsafe else classify op in
      if endsBlock kind then stop EndReason.Unsafe else
      let terminator := endsBlockAfter kind in
      let indexed := terminator && isIndexedJump op in
      if indexed && negb (pomJitCovers (ts_super st) (ts_matchExt st) (u32 (at_ + 2)) s)
      then stop EndReason.WindowEdge else
      let indexExtension := if indexed then pomJitPeek (u32 (at_ + 2)) s else 0 in
      let words := if terminator then branchWords op indexExtension else 0 in
      if terminator &&
         negb (pomJitCovers (ts_super st) (ts_matchEnd st) (u32 (at_ + words * 2 - 2)) s)
      then stop EndReason.WindowEdge else
      let s := guestRun cfg aliasCodeMask (ts_events st) s in
      let retired := tr_retired t + 1 in
      if negb (ts_retired st) then
        (mkTrace at_ (tr_instrs t) EndReason.Faulted retired, s) else
      let entry w := traceInstr (observed st) at_ op w (cf_is030 cfg) in
      if terminator then
        (mkTrace (u32 (at_ + words * 2)) (tr_instrs t ++ [entry words])
           EndReason.ControlFlow retired, s)
      else
      let next := u32 (ts_next st) in
      if (next <=? at_) || (22 <? next - at_) then
        (mkTrace at_ (tr_instrs t ++ [entry 1]) EndReason.Discontinuity retired, s)
      else
      let t := mkTrace next (tr_instrs t ++ [entry ((next - at_) / 2)])
                 EndReason.LengthLimit retired in
      if versionedShift then (t, s) else
      if tripped (e_guard s) then
        (mkTrace next (tr_instrs t) EndReason.WindowEdge retired, s)
      else traceLoop n (S i) steps pc super t s
  end.

(** The words of the block: its footprint and two more, where all of them lie
    inside the armed window. *)
Definition copiedCode (pc at_ : Z) (s : Engine) : option (list Z) :=
  let w := e_window s in
  let want := u32 (at_ + 4) in
  if (pc <? at_) && w_armed w && (w_base w <=? pc) && (want <=? u32 (w_base w + w_len w))
  then Some ((fun i => pomJitPeek (u32 (pc + 2 * i)) s) <$> seqZ 0 ((want - pc + 1) / 2))
  else None.

Record RecordAnswers := mkRecord {
  ra_order : list Z;               (** how the block map iterates *)
  ra_dreg : Z -> Z;                (** the data registers *)
  ra_steps : nat -> TraceStep
}.

(** The count register of a shift with versions, if the opcode is one. *)
Definition shiftSite (op : Z) (dreg : Z -> Z) : option Z :=
  let sem := describeInstruction op in
  if isMultiVersionShiftOpcode op && (sem_operation sem == SemanticOp.ShiftRegister) &&
     sem_dynamic sem && (sem_registerIndex sem <=? 7)
  then Some (dreg (sem_registerIndex sem) .& 63) else None.

Definition nativePotential (instrs : list Instr) : Z :=
  foldl (fun n i => if canEmit (in_opcode i) || ((in_kind i == Kind.Branch) && branches)
                    then u16 (n + 1) else n) 0 instrs.

(** The representation of the trace, finished from the words of the block. *)
Definition finishIr (ir0 : BlockIr) (why : EndReason) (instrs : list Instr)
    (code : option (list Z)) : BlockIr :=
  let ir l c := mkBlock (bl_entryPc ir0) (bl_super ir0) (bl_codeBase ir0) (bl_codeLen ir0)
                  (bl_physBase ir0) (bl_physLen ir0) why l c in
  match code with
  | None => ir instrs []
  | Some code => ir (materialise (ir instrs code) (cf_is030 cfg) <$> instrs) code
  end.

(** From the end of the trace on: discard it, or file the block. *)
Definition fileBlock (pc : Z) (versionedEntry : bool) (adm : Admission)
    (ir0 : BlockIr) (t : Trace) (s : Engine) : Engine :=
  let pop := (tr_why t == EndReason.Discontinuity) && bool_decide (1 < length (tr_instrs t))%nat in
  let instrs := if pop then removelast (tr_instrs t) else tr_instrs t in
  let why := if pop then EndReason.Unsafe else tr_why t in
  if (Z.of_nat (length instrs) =? 0) || (why == EndReason.Discontinuity) || (why == EndReason.Faulted)
  then if versionedEntry
       then set_shift (prune (ad_cacheKey adm)
              (bool_decide (is_Some (e_blocks s !! ad_baseKey adm))) (e_shift s)) s
       else s
  else if e_pendingFlush s then flushAll s else
  let ir := finishIr ir0 why instrs (copiedCode pc (tr_at t) s) in
  let b := mkBlk ir None (e_blocksGen s) 0
             (if cf_profitScore cfg =? 0 then 0 else nativePotential (bl_instrs ir))
             (ad_version adm) false 0 (e_nodes s) in
  match e_blocks s !! ad_cacheKey adm with
  | Some _ => s
  | None =>
      let s := set_nodes (e_nodes s + 1) s in
      let s := set_blocks (<[ad_cacheKey adm := b]> (e_blocks s)) s in
      let s := set_shift (commit adm (e_shift s)) s in
      markPages (ad_cacheKey adm) (blockLo ir) (blockLen ir) s
  end.

(** [Engine::record]; the result is [traceRetired_] with the new state. *)
Definition record (a : RecordAnswers) (pc : Z) (super : bool) (s : Engine) : Z * Engine :=
  let full s := cf_maxBlocks cfg <=? Z.of_nat (size (e_blocks s)) in
  let s := if full s then evictColdBlocks (ra_order a) s else s in
  if full s then (0, s) else
  let op := pomJitPeek pc s in
  let site := if cf_nativeCode cfg then shiftSite op (ra_dreg a) else None in
  let versionedEntry := bool_decide (is_Some site) in
  let (adm, sh) := admitShift (key pc super) op (default (-1) site) versionedEntry
                     (cf_histogram cfg) (e_shift s) in
  let s := set_shift sh s in
  let s := if versionedEntry then set_dispatch (evict (key pc super) (e_dispatch s)) s else s in
  if negb (ad_accepted adm) then (0, s) else
  let w := e_window s in
  let ir0 := mkBlock pc super (w_base w) (w_len w) (e_winPhys s) (e_winLen s)
               EndReason.LengthLimit [] [] in
  let (t, s) := traceLoop (cf_maxInstrs cfg) 0 (ra_steps a) pc super
                  (mkTrace pc [] EndReason.LengthLimit 0) (set_running true s) in
  let s := set_running false s in
  (tr_retired t, fileBlock pc versionedEntry adm ir0 t s).

(** ** Dispatch *)

Definition dispatchBlockKey (pc : Z) (super : bool) (dreg : Z -> Z) (s : Engine)
  : Z * Engine :=
  let base := key pc super in
  if negb (knows base (e_shift s)) then (base, s) else
  let op := pomJitPeek pc s in
  match shiftSite op dreg with
  | None => (base, s)
  | Some count =>
      let (k, sh) := select base op count (cf_histogram cfg) (e_shift s) in
      (k, set_shift sh s)
  end.

Inductive CompileAnswer := CompiledOk | CompileRejected | CodeCapacity.

Record TurnAnswers := mkTurn {
  ta_idle : bool;
  ta_pc : Z;
  ta_super : bool;
  ta_match : bool;
  ta_exec : list GuestEv;              (** what [cpu_.execute()] does *)
  ta_arm : ArmAnswers;
  ta_dreg : Z -> Z;
  ta_record : RecordAnswers;
  ta_window : list GuestEv;            (** what [runWindow] does *)
  ta_cache040 : bool;
  ta_codeMatches : bool;
  ta_cells : list (Z * bool);          (** the edges the compiler asks for *)
  ta_compile : CompileAnswer;
  ta_run : list GuestEv;               (** what the translated code does *)
  ta_windowLost : bool;                (** how it came back *)
  ta_idleAfter : bool;
  ta_clockAfter : bool;
  ta_replay : list GuestEv             (** the store replayed interpreted *)
}.

Definition updBlock (k : Z) (f : Block -> Block) (s : Engine) : Engine :=
  set_blocks (alter f k (e_blocks s)) s.

Definition publish (pc : Z) (super : bool) (b : Block) (s : Engine) : Engine :=
  if b_shiftVersion b =? 0xFF then
    match b_code b ≫= linkEntry with
    | Some e => publishLink pc super e s
    | None => s
    end
  else s.

(** The slow path: what [blocks_.find] answers, once a block of an earlier
    generation has been re-proved or erased. *)
Definition findBlock (pc : Z) (super : bool) (k : Z) (s : Engine) : option Block * Engine :=
  match e_blocks s !! k with
  | None => (None, s)
  | Some b =>
      if b_gen b =? e_blocksGen s then (Some b, s) else
      if (bl_codeBase (b_ir b) =? w_base (e_window s)) &&
         (bl_physBase (b_ir b) =? e_winPhys s) && (bl_physLen (b_ir b) =? e_winLen s)
      then
        let b := set_gen (e_blocksGen s) b in
        (Some b, publish pc super b (updBlock k (set_gen (e_blocksGen s)) s))
      else (None, eraseBlock k b s)
  end.

(** A turn up to the point where the backend is entered. *)
Inductive Prepared :=
| Again (s : Engine)                          (** the loop goes on *)
| RunBlock (s : Engine) (p : BlockPtr) (code : Z)
| Crash.

(** Earning the translation: the block behind [p] has no code yet.  The block
    is read once more after its window has run, when it may be gone. *)
Definition compileBlock (a : TurnAnswers) (p : BlockPtr) (b : Block) (s : Engine)
  : Prepared :=
  let k := p_key p in
  let pc := u32 (ta_pc a) in
  let s := updBlock k (set_visits (u32 (b_visits b + 1))) s in
  let visits := u32 (b_visits b + 1) in
  let hotReady := u32 (cf_hotAt cfg) <=? visits in
  let profitReady := (cf_profitScore cfg =? 0) ||
                     (cf_profitScore cfg <=? visits * b_nativePotential b) in
  (* the window runs, then [b.rejected] is read again for the statistics *)
  let notYet s :=
    let s := guestRun cfg aliasCodeMask (ta_window a) s in
    match deref s p with None => Crash | Some _ => Again s end in
  if b_rejected b || negb hotReady || negb profitReady then notYet s else
  let s := pomJitDtlbFlush s in
  let cacheReady := negb (ta_cache040 a) || ta_codeMatches a in
  let denied := (cf_denyFrom cfg <>? cf_denyTo cfg) && (cf_denyFrom cfg <=? pc) &&
                (pc <? cf_denyTo cfg) in
  if denied then notYet (updBlock k (set_rejected true) s) else
  if negb cacheReady then notYet s else
  let s := if ta_cache040 a then s
           else foldl (fun s c => linkCell linkEntry (u32 (fst c)) (snd c) s) s (ta_cells a) in
  match ta_compile a with
  | CodeCapacity => Again (flushAll s)
  | CompileRejected => notYet (updBlock k (set_rejected true) s)
  | CompiledOk =>
      let code := e_nodes s in
      let s := set_codes ({[code]} ∪ e_codes s) (set_nodes (code + 1) s) in
      let s := updBlock k (set_code (Some code)) s in
      RunBlock (publish pc (ta_super a) (set_code (Some code) b) s) p code
  end.

(** The last test before translated code: the 68040 cache still holds it. *)
Definition cacheCheck (a : TurnAnswers) (r : Prepared) : Prepared :=
  match r with
  | RunBlock s p code =>
      if ta_cache040 a && negb (ta_codeMatches a)
      then Again (guestRun cfg aliasCodeMask (ta_window a) s) else r
  | _ => r
  end.

Definition runOrCompile (a : TurnAnswers) (p : BlockPtr) (s : Engine) : Prepared :=
  match deref s p with
  | None => Crash
  | Some b =>
      let s := updBlock (p_key p) (set_epoch (e_epoch s)) s in
      cacheCheck a (match b_code b with
                    | Some code => RunBlock s p code
                    | None => compileBlock a p b s
                    end)
  end.

Definition prepare (a : TurnAnswers) (s : Engine) : Prepared :=
  let exec s := Again (guestRun cfg aliasCodeMask (ta_exec a) s) in
  let pc := u32 (ta_pc a) in
  let super := ta_super a in
  if negb (ta_idle a) then exec (disarmWindow s) else
  if (0 <? e_armBackoff s) && negb (pomJitCovers super (ta_match a) pc s)
  then exec (set_armBackoff (e_armBackoff s - 1) s) else
  let (armed, s) := armWindow (ta_arm a) pc super s in
  if negb armed then exec (set_armBackoff (cf_armBackoff cfg) s) else
  let s := set_armBackoff 0 s in
  if negb (cf_useBlocks cfg) then Again (guestRun cfg aliasCodeMask (ta_window a) s) else
  let s := if e_blocksGen s =? e_mmuGen s then s
           else set_blocksGen (e_mmuGen s) (clearLinks (pomJitDtlbFlush s)) in
  let plain := key pc super in
  let (found, d) := lookupBlock (fun p => b_gen <$> deref s p) plain (e_blocksGen s)
                      (e_dispatch s) in
  let s := set_dispatch d s in
  match found with
  | Fault => Crash
  | Found p => runOrCompile a p s
  | Cold =>
      let (k, s) := dispatchBlockKey pc super (ta_dreg a) s in
      let (ob, s) := findBlock pc super k s in
      match ob with
      | None =>
          let (retired, s) := record (ta_record a) pc super s in
          if retired =? 0 then exec s else Again s
      | Some b =>
          let p := ptrTo k b in
          let s := if (k =? plain) && negb (knows k (e_shift s))
                   then set_dispatch (fill k p (e_dispatch s)) s else s in
          runOrCompile a p s
      end
  end.

(** The translated code runs and comes back. *)
Definition afterRun (a : TurnAnswers) (s : Engine) : Engine :=
  let s := guestRunInside cfg aliasCodeMask (ta_run a) s in
  if e_pendingFlush s then flushAll s else
  if tripped (e_guard s) then
    let s := serviceGuard s in
    if ta_windowLost a && ta_idleAfter a && ta_clockAfter a
    then guestRun cfg aliasCodeMask (ta_replay a) s else s
  else s.

(** One turn of the loop of [executeUntil] on an enabled engine; [None] is a
    read through a null or dangling block pointer. *)
Definition turn (a : TurnAnswers) (s : Engine) : option Engine :=
  match prepare a s with
  | Again s => Some s
  | RunBlock s p code => Some (afterRun a s)
  | Crash => None
  end.
End Turn.
