(* ===== verification/JitGuardFacts.v ===== *)
(** * JitGuardFacts: what the write guard reports, and the version cache

    The bits of a sub-slice mask, the hits [note] records, and when a store
    that meets a marked byte is reported; block keys, and the version cache
    against the block map. *)

From S2P Require Import Prelude JitGuard JitShiftVersions.
From stdpp Require Import base list numbers option decidable sets gmap.

Open Scope Z_scope.

(** ** Slices and sub-slices *)

Lemma slice_div x : x .>> kShift = x / 256.
Proof. unfold kShift. by rewrite Z.shiftr_div_pow2 by lia. Qed.

Lemma slice_base p : 0 <= p < 16777216 -> u32 (p .<< kShift) = 256 * p.
Proof.
  intros Hp. unfold kShift. rewrite Z.shiftl_mul_pow2 by lia.
  rewrite u32_small; change (2 ^ 8) with 256; lia.
Qed.

Lemma sub_index x : (x .& (kUnit - 1)) .>> kSubShift = x mod 256 / 32.
Proof.
  change (kUnit - 1) with (Z.ones 8). rewrite Z.land_ones by lia.
  unfold kSubShift. by rewrite Z.shiftr_div_pow2 by lia.
Qed.

Lemma testbit_255 m : Z.testbit 255 m = (0 <=? m) && (m <? 8).
Proof.
  change 255 with (Z.ones 8).
  destruct (Z.leb_spec 0 m); [|by rewrite Z.testbit_neg_r].
  destruct (Z.ltb_spec m 8); [by rewrite Z.ones_spec_low by lia|].
  by rewrite Z.ones_spec_high by lia.
Qed.

(** Bit [j] of the mask of [lo .. hi]: sub-slice [j] lies between their two. *)
Lemma subMask_bit lo hi j : 0 <= j < 8 ->
  Z.testbit (subMask lo hi) j = (lo mod 256 / 32 <=? j) && (j <=? hi mod 256 / 32).
Proof.
  intros Hj. unfold subMask. rewrite !sub_index, u8_bit by lia.
  set (a := lo mod 256 / 32). set (b := hi mod 256 / 32).
  assert (0 <= b < 8) by (unfold b; pose proof (Z.mod_pos_bound hi 256);
    split; [apply Z.div_pos|apply Z.div_lt_upper_bound]; lia).
  rewrite Z.land_spec, Z.shiftr_spec, Z.shiftl_spec, !testbit_255 by lia.
  destruct (Z.leb_spec a j), (Z.leb_spec j b), (Z.leb_spec 0 (j + (7 - b))),
    (Z.ltb_spec (j + (7 - b)) 8), (Z.leb_spec 0 (j - a)), (Z.ltb_spec (j - a) 8);
    cbn; try lia; try done.
  exfalso. assert (0 <= a) by (unfold a; pose proof (Z.mod_pos_bound lo 256); apply Z.div_pos; lia).
  lia.
Qed.

Lemma subMask_byte lo hi : byte (subMask lo hi).
Proof. apply u8_range. Qed.

(** The byte [x] of a slice is in the sub-slices of any range around it. *)
Lemma subMask_at lo hi x : 0 <= lo <= x -> x <= hi -> lo / 256 = hi / 256 ->
  Z.testbit (subMask lo hi) (x mod 256 / 32) = true.
Proof.
  intros Hlo Hhi E. pose proof (Z.mod_pos_bound x 256 ltac:(lia)) as Hx.
  assert (x / 256 = lo / 256) as Ex by
    (pose proof (Z.div_le_mono lo x 256); pose proof (Z.div_le_mono x hi 256); lia).
  rewrite subMask_bit by (split; [apply Z.div_pos|apply Z.div_lt_upper_bound]; lia).
  apply andb_true_iff. rewrite !Z.leb_le.
  pose proof (Z.div_mod lo 256). pose proof (Z.div_mod x 256). pose proof (Z.div_mod hi 256).
  split; apply Z.div_le_mono; lia.
Qed.

Lemma land_bit_nonzero x y j :
  0 <= j -> Z.testbit x j = true -> Z.testbit y j = true -> (x .& y <>? 0) = true.
Proof.
  intros Hj Hx Hy. apply negb_true_iff, Z.eqb_neq. intros E.
  apply (f_equal (fun z => Z.testbit z j)) in E.
  by rewrite Z.land_spec, Hx, Hy, Z.bits_0 in E.
Qed.

(** ** Recorded hits *)

(** The bytes [lo .. hi] written into [slice] are on record, or everything is
    to be dropped. *)
Definition reported (g : CodeGuard) (slice lo hi : Z) : Prop :=
  mustFlush g = true \/
  exists h, h ∈ hits g /\ h_slice h = slice /\ h_lo h <= lo /\ hi <= h_hi h.

Lemma widenHit_None slice lo hi l :
  widenHit slice lo hi l = None -> forall h, h ∈ l -> h_slice h <> slice.
Proof.
  induction l as [|h l IH]; intros H h' Hin; [by apply elem_of_nil in Hin|].
  cbn in H. destruct (Z.eqb_spec (h_slice h) slice); [done|].
  apply fmap_None in H. apply elem_of_cons in Hin as [->|Hin]; auto.
Qed.

Lemma widenHit_Some slice lo hi l l' :
  widenHit slice lo hi l = Some l' ->
  (exists h, h ∈ l' /\ h_slice h = slice /\ h_lo h <= lo /\ hi <= h_hi h) /\
  (forall h, h ∈ l -> exists h', h' ∈ l' /\ h_slice h' = h_slice h /\
     h_lo h' <= h_lo h /\ h_hi h <= h_hi h').
Proof.
  revert l'. induction l as [|h l IH]; intros l' H; [done|]. cbn in H.
  destruct (Z.eqb_spec (h_slice h) slice) as [E|E].
  - injection H as <-. split.
    + eexists. split; [apply list_elem_of_here|]. cbn.
      destruct (Z.ltb_spec lo (h_lo h)), (Z.ltb_spec (h_hi h) hi); lia.
    + intros h' [->|Hin]%elem_of_cons.
      * eexists. split; [apply list_elem_of_here|]. cbn.
        destruct (Z.ltb_spec lo (h_lo h)), (Z.ltb_spec (h_hi h) hi); lia.
      * exists h'. split; [by apply list_elem_of_further|]. lia.
  - apply fmap_Some in H as (l1 & H1 & ->). destruct (IH _ H1) as [(h1 & ? & ?) Hrest].
    split; [exists h1; split; [by apply list_elem_of_further|done]|].
    intros h' [->|Hin]%elem_of_cons.
    + exists h. split; [apply list_elem_of_here|lia].
    + destruct (Hrest h' Hin) as (h2 & ? & ?). exists h2.
      split; [by apply list_elem_of_further|done].
Qed.

Lemma recordHit_reports slice lo hi g : reported (recordHit slice lo hi g) slice lo hi.
Proof.
  unfold recordHit, reported. destruct (widenHit _ _ _ _) as [l|] eqn:E.
  - right. by apply widenHit_Some in E as [? _].
  - destruct (_ <=? _); cbn.
    + left. by (unfold mustFlush; cbn; rewrite orb_true_r).
    + right. exists (mkHit slice lo hi). cbn. split; [set_solver|lia].
Qed.

Lemma recordHit_keeps slice lo hi g sl a b :
  reported g sl a b -> reported (recordHit slice lo hi g) sl a b.
Proof.
  unfold recordHit, reported. intros [H|(h & Hin & <- & Ha & Hb)].
  - left. destruct (widenHit _ _ _ _) as [l|]; [done|]. destruct (_ <=? _); [|done].
    cbn. by (unfold mustFlush; cbn; rewrite orb_true_r).
  - destruct (widenHit _ _ _ _) as [l|] eqn:E.
    + right. apply widenHit_Some in E as [_ E]. destruct (E h Hin) as (h' & ? & ? & ? & ?).
      exists h'. repeat split; [done|done|lia|lia].
    + destruct (_ <=? _); cbn; [left; by (unfold mustFlush; cbn; rewrite orb_true_r)|].
      right. exists h. split; [set_solver|done].
Qed.

Lemma note_keeps pm phys n g sl a b :
  reported g sl a b -> reported (note pm phys n g) sl a b.
Proof.
  intros H. unfold note. destruct (_ && _); destruct (pageByte _ _ .& _ <>? 0);
    auto using recordHit_keeps.
Qed.

Lemma mustFlush_note pm phys n g : mustFlush g = true -> mustFlush (note pm phys n g) = true.
Proof.
  assert (R : forall sl lo hi g, mustFlush g = true -> mustFlush (recordHit sl lo hi g) = true).
  { intros sl lo hi g0 H. unfold recordHit. destruct (widenHit _ _ _ _); [done|].
    destruct (_ <=? _); [|done]. cbn. by (unfold mustFlush; cbn; rewrite orb_true_r). }
  intros H. unfold note. destruct (_ && _); destruct (pageByte _ _ .& _ <>? 0); auto.
Qed.

(** A store that meets a byte whose sub-slice is marked is reported with its
    whole range, under the slice of that byte. *)
Lemma note_reports pm phys n g x :
  0 <= phys -> 1 <= n <= 256 -> phys + n <= 4294967296 ->
  phys <= x < phys + n ->
  Z.testbit (pageByte pm (x / 256)) (x mod 256 / 32) = true ->
  reported (note pm phys n g) (x / 256) phys (phys + n - 1).
Proof.
  intros H0 Hn Hw Hx Hb. unfold note. rewrite (u32_small (phys + n - 1)) by lia.
  rewrite !slice_div.
  assert (H0j : 0 <= x mod 256 / 32) by
    (pose proof (Z.mod_pos_bound x 256); apply Z.div_pos; lia).
  assert (Hp : 0 <= phys / 256 < 16777216) by
    (split; [apply Z.div_pos; lia|apply Z.div_lt_upper_bound; lia]).
  assert (Hp1 : 0 <= (phys + n - 1) / 256 < 16777216) by
    (split; [apply Z.div_pos; lia|apply Z.div_lt_upper_bound; lia]).
  assert (Hs : x / 256 = phys / 256 \/ x / 256 = (phys + n - 1) / 256 /\
               (phys + n - 1) / 256 <> phys / 256).
  { pose proof (Z.div_le_mono phys x 256). pose proof (Z.div_le_mono x (phys + n - 1) 256).
    assert ((phys + n - 1) / 256 <= phys / 256 + 1); [|lia].
    rewrite <- Z.div_add by lia. apply Z.div_le_mono; lia. }
  destruct Hs as [Hs|[Hs Hne]].
  - replace (pageByte pm (phys / 256) .& _ <>? 0) with true.
    { destruct (_ && _); [apply recordHit_keeps|]; rewrite Hs; apply recordHit_reports. }
    symmetry. rewrite <- Hs. eapply land_bit_nonzero; [exact H0j|exact Hb|].
    destruct (Z.eqb_spec ((phys + n - 1) / 256) (x / 256)) as [E|E].
    + apply subMask_at; lia.
    + rewrite slice_base, u32_small by (unfold kUnit; lia). unfold kUnit.
      pose proof (Z.div_mod x 256). pose proof (Z.mod_pos_bound x 256).
      apply subMask_at; [lia|lia|]. rewrite <- Hs.
      replace (256 * (x / 256) + 256 - 1) with (255 + x / 256 * 256) by lia.
      rewrite Z.div_add by lia. reflexivity.
  - replace (_ && _) with true; [rewrite Hs; apply recordHit_reports|].
    symmetry. apply andb_true_iff. split.
    { by apply negb_true_iff, Z.eqb_neq. }
    rewrite <- Hs. eapply land_bit_nonzero; [exact H0j|exact Hb|].
    rewrite slice_base by lia. pose proof (Z.div_mod x 256).
    pose proof (Z.mod_pos_bound x 256). apply subMask_at; [lia|lia|].
    rewrite Z.mul_comm, Z.div_mul by lia. lia.
Qed.

(** A guard with nothing on record is not tripped once it is cleared. *)
Lemma tripped_clear g : tripped (clearGuard g) = false.
Proof. done. Qed.

(** ** Block keys and shift versions *)

Lemma lor_disjoint a b n : 0 <= n -> 0 <= a < 2 ^ n -> a .| (b .<< n) = a + b * 2 ^ n.
Proof.
  intros Hn Ha. rewrite Z.lor_comm, shiftl_lor_low by lia. lia.
Qed.

Lemma key_value pc super : 0 <= pc < 4294967296 ->
  key pc super = pc + (if super then 4294967296 else 0).
Proof.
  intros H. unfold key. destruct super; [|rewrite Z.lor_0_r; lia].
  rewrite lor_disjoint by lia. lia.
Qed.

Lemma key_range pc super : 0 <= pc < 4294967296 -> 0 <= key pc super < 8589934592.
Proof. intros H. rewrite key_value by done. destruct super; lia. Qed.

Lemma key_inj pc1 s1 pc2 s2 : 0 <= pc1 < 4294967296 -> 0 <= pc2 < 4294967296 ->
  key pc1 s1 = key pc2 s2 -> pc1 = pc2 /\ s1 = s2.
Proof. intros H1 H2. rewrite !key_value by done. destruct s1, s2; intros; first [exfalso; lia|split; [lia|done]].
Qed.

Lemma versionKey_value base v : 0 <= base < 8589934592 ->
  versionKey base v = base + 8589934592 + v * 17179869184.
Proof.
  intros H. unfold versionKey, kFlag. rewrite (lor_disjoint base 1 33) by lia.
  rewrite lor_disjoint by lia. lia.
Qed.

Lemma plain_key k : 0 <= k < 8589934592 -> isVersionKey k = false /\ baseKey k = k.
Proof.
  intros H. unfold isVersionKey, baseKey, kFlag. split.
  - rewrite Z.shiftl_1_l, land_pow2_zero, negb_involutive by lia.
    apply Z.testbit_false; [lia|]. by rewrite Z.div_small by lia.
  - change ((1 .<< 33) - 1) with (Z.ones 33). rewrite Z.land_ones by lia. by apply Z.mod_small.
Qed.

Lemma version_key base v : 0 <= base < 8589934592 -> 0 <= v < 32 ->
  isVersionKey (versionKey base v) = true /\ baseKey (versionKey base v) = base /\
  versionFromKey (versionKey base v) = v.
Proof.
  intros Hb Hv. rewrite versionKey_value by done.
  set (k := base + 8589934592 + v * 17179869184). split; [|split].
  - unfold isVersionKey, kFlag. rewrite Z.shiftl_1_l, land_pow2_zero, negb_involutive by lia.
    apply Z.testbit_true; [lia|]. replace (k / 2 ^ 33) with (1 + v * 2).
    + by rewrite Z.mod_add by lia.
    + unfold k. apply Z.div_unique with base; lia.
  - unfold baseKey, kFlag. change ((1 .<< 33) - 1) with (Z.ones 33). rewrite Z.land_ones by lia.
    symmetry. apply Z.mod_unique with (1 + v * 2); unfold k; lia.
  - unfold versionFromKey. rewrite Z.shiftr_div_pow2 by lia.
    replace (k / 2 ^ 34) with v.
    + change 31 with (Z.ones 5). rewrite Z.land_ones by lia. by apply Z.mod_small.
    + unfold k. apply Z.div_unique with (base + 8589934592); lia.
Qed.

Lemma versionKey_inj b1 v1 b2 v2 : 0 <= b1 < 8589934592 -> 0 <= b2 < 8589934592 ->
  versionKey b1 v1 = versionKey b2 v2 -> b1 = b2 /\ v1 = v2.
Proof. intros H1 H2. rewrite !versionKey_value by done. lia. Qed.
