(* ===== verification/JitIndexFacts.v ===== *)
(** * JitIndexFacts: the footprint index is exact

    [markPages] and [unmarkPages] keep three things true between them: a
    block's key is filed under exactly the slices its bytes lie in, the mask
    of a slice is the union of the sub-slices of the blocks filed under it,
    and no write entry of the data TLB reaches a marked slice unseen. *)

From S2P Require Import Prelude.
From S2P Require Import JitTypes.
From S2P Require Import JitGuard.
From S2P Require Import JitShiftVersions.
From S2P Require Import JitDispatchCache.
From S2P Require Import JitEngineState.
From S2P Require Import JitBlockCache.
From S2P Require Import JitGuest.
From S2P Require Import JitGuardFacts.
From stdpp Require Import base list numbers option decidable gmap sets.

Open Scope Z_scope.

(** ** What the index operations leave alone *)

(** The engine with the index, the maps and the data TLB blanked: equal blanks
    say that nothing else changed. *)
Definition blank (s : Engine) : Engine :=
  set_pageMap [] (set_codePage [] (set_index ∅ (pomJitDtlbFlush s))).

Lemma blank_recompute p s : blank (recomputeSliceMark p s) = blank s.
Proof. unfold recomputeSliceMark. by split_tests. Qed.

Lemma blank_unmarkSlice k p s : blank (unmarkSlice k p s) = blank s.
Proof.
  unfold unmarkSlice. destruct (e_index s !! p); [|done]. by rewrite blank_recompute.
Qed.

Lemma blank_foldl {A} (f : Engine -> A -> Engine) l :
  (forall s x, blank (f s x) = blank s) -> forall s, blank (foldl f s l) = blank s.
Proof. intros H. induction l as [|x l IH]; intros s; cbn; [done|]. by rewrite IH, H. Qed.

Lemma blank_unmarkPages k lo len s : blank (unmarkPages k lo len s) = blank s.
Proof.
  unfold unmarkPages. destruct (_ || _); [done|]. apply blank_foldl. intros. apply blank_unmarkSlice.
Qed.

Lemma blank_flush s : blank (pomJitDtlbFlush s) = blank s.
Proof. done. Qed.
Lemma blank_codePage c s : blank (set_codePage c s) = blank s.
Proof. done. Qed.
Lemma blank_markSlice k lo hi p s : blank (markSlice k lo hi p s) = blank s.
Proof. done. Qed.

Lemma blank_markPages k lo len s : blank (markPages k lo len s) = blank s.
Proof.
  unfold markPages. destruct (bool_decide (e_pageMap s = []) || (len =? 0)); [done|]. cbv zeta.
  match goal with |- context [foldl ?f s ?l] =>
    assert (H : blank (foldl f s l) = blank s) by
      (apply blank_foldl; intros; apply blank_markSlice);
    revert H; generalize (foldl f s l); intros s1 H
  end.
  destruct (existsb _ _); rewrite ?blank_flush, blank_codePage; exact H.
Qed.

(** ** The invariant *)

Definition pages (s : Engine) : Z := Z.of_nat (length (e_pageMap s)).
Definition blockHi (ir : BlockIr) : Z := u32 (blockLo ir + blockLen ir - 1).

(** The slices a block of this footprint is filed under, in a map of [n]. *)
Definition filed (ir : BlockIr) (p n : Z) : Prop :=
  blockLen ir <> 0 /\ p ∈ sliceRange (blockLo ir) (blockHi ir) n.

(** Exactness of the index, but for the slices [skip] under which [k] is not
    filed (yet, or any more). *)
Record IndexAt (k : Z) (skip : Z -> Prop) (s : Engine) : Prop := {
  ix_nodup : forall p, NoDup (keysOf s p);
  ix_mem : forall p k', k' ∈ keysOf s p <->
    exists b, e_blocks s !! k' = Some b /\ filed (b_ir b) p (pages s) /\
              ~ (k' = k /\ skip p);
  ix_mask : forall p, 0 <= p < pages s ->
    pageByte (e_pageMap s) p = sliceMask (e_blocks s) p (keysOf s p);
  ix_pages : pages s <= 16777216
}.

Definition IndexOk (s : Engine) : Prop := IndexAt 0 (fun _ => False) s.

(** A page that holds a marked slice is marked at the coarser grain. *)
Record PagesOk (s : Engine) : Prop := {
  pg_flag : forall p, pageByte (e_pageMap s) p <> 0 ->
    default 0 (rd (e_codePage s) (p / 16)) <> 0;
  pg_size : pages s <= 16 * Z.of_nat (length (e_codePage s))
}.

(** Write entries of the data TLB show every marked slice of their page. *)
Record TlbOk (cfg : Config) (s : Engine) : Prop := {
  tlb_entry : forall i e h j, rd (e_dtlbW s) i = Some e -> t_host e = Some h ->
    0 <= j < 16 -> pageByte (e_pageMap s) (h / 256 + j) <> 0 ->
    cf_maskAware cfg = true /\ Z.testbit (t_codeMask e) j = true;
  tlb_align : forall i e h, rd (e_dtlbW s) i = Some e -> t_host e = Some h -> h mod 4096 = 0;
  tlb_front : forall h j, pg_host (e_dataW1 s) = Some h -> 0 <= j < 16 ->
    pageByte (e_pageMap s) (h / 256 + j) = 0;
  tlb_frontAlign : forall h, pg_host (e_dataW1 s) = Some h -> h mod 4096 = 0
}.

(** ** Slices and masks *)

Lemma elem_sliceRange lo hi n p :
  p ∈ sliceRange lo hi n <-> lo / 256 <= p <= hi / 256 /\ p < n.
Proof. unfold sliceRange. rewrite elem_of_seqZ, !slice_div. lia. Qed.

Lemma pageByte_wr pm p q v :
  0 <= p < Z.of_nat (length pm) -> pageByte (wr pm p v) q = if q =? p then v else pageByte pm q.
Proof.
  intros Hp. unfold pageByte. destruct (Z.ltb_spec q 0) as [Hq|Hq].
  - unfold rd. rewrite (proj2 (Z.ltb_lt q 0) Hq). destruct (Z.eqb_spec q p); [lia|done].
  - rewrite rd_wr by lia. by destruct (q =? p).
Qed.

Lemma pageByte_range pm p : pageByte pm p <> 0 -> 0 <= p < Z.of_nat (length pm).
Proof.
  unfold pageByte. destruct (rd pm p) eqn:E; [|done]. intros _. by eapply rd_lt.
Qed.

Lemma keyBits_byte blocks p k : byte (keyBits blocks p k).
Proof.
  unfold keyBits, sliceBits. destruct (blocks !! k); [|done]. split_tests; try done.
  all: apply subMask_byte.
Qed.

Lemma sliceMask_snoc blocks p l k :
  sliceMask blocks p (l ++ [k]) = sliceMask blocks p l .| keyBits blocks p k.
Proof. unfold sliceMask. by rewrite foldl_app. Qed.

Lemma sliceMask_byte blocks p l : byte (sliceMask blocks p l).
Proof.
  induction l as [|k l IH] using rev_ind; [done|]. rewrite sliceMask_snoc.
  apply lor_u8; [done|apply keyBits_byte].
Qed.

(** A bit of the mask comes from a key, and every key brings its bits. *)
Lemma sliceMask_bit blocks p l j : 0 <= j ->
  Z.testbit (sliceMask blocks p l) j = true <->
  exists k, k ∈ l /\ Z.testbit (keyBits blocks p k) j = true.
Proof.
  intros Hj. induction l as [|k l IH] using rev_ind.
  - cbn. rewrite Z.bits_0. split; [done|]. intros (k & []%elem_of_nil & _).
  - rewrite sliceMask_snoc, Z.lor_spec, orb_true_iff, IH. split.
    + intros [(k' & ? & ?)|?]; [exists k'; set_solver|exists k; set_solver].
    + intros (k' & [?|?%list_elem_of_singleton]%elem_of_app & ?);
        [left; eauto|right; by subst].
Qed.

Lemma sliceMask_ext b1 b2 p l :
  (forall k, k ∈ l -> keyBits b1 p k = keyBits b2 p k) ->
  sliceMask b1 p l = sliceMask b2 p l.
Proof.
  induction l as [|k l IH] using rev_ind; intros H; [done|].
  rewrite !sliceMask_snoc, IH, (H k) by set_solver. done.
Qed.

(** Fewer keys, fewer bits. *)
Lemma sliceMask_sub blocks p l1 l2 :
  (forall k, k ∈ l1 -> k ∈ l2) -> sliceMask blocks p l1 <> 0 -> sliceMask blocks p l2 <> 0.
Proof.
  intros Hsub H1 H2. apply H1. apply Z.bits_inj'. intros j Hj. rewrite Z.bits_0.
  destruct (Z.testbit (sliceMask blocks p l1) j) eqn:E; [|done].
  apply sliceMask_bit in E as (k & Hk & Hb); [|done].
  assert (Z.testbit (sliceMask blocks p l2) j = true) as E2.
  { apply sliceMask_bit; eauto. }
  by rewrite H2, Z.bits_0 in E2.
Qed.

(** ** What the invariant depends on *)

(** The same blocks, as far as their representations go. *)
Definition sameIr (s s' : Engine) : Prop :=
  forall k, b_ir <$> e_blocks s' !! k = b_ir <$> e_blocks s !! k.

Lemma sameIr_lookup s s' k b : sameIr s s' -> e_blocks s' !! k = Some b ->
  exists b0, e_blocks s !! k = Some b0 /\ b_ir b0 = b_ir b.
Proof.
  intros H Hb. specialize (H k). rewrite Hb in H. cbn in H. symmetry in H.
  by apply fmap_Some in H as (b0 & ? & ?); eauto.
Qed.

Lemma sameIr_sym s s' : sameIr s s' -> sameIr s' s.
Proof. intros H k. symmetry. apply H. Qed.

Lemma sameIr_eq s s' : e_blocks s' = e_blocks s -> sameIr s s'.
Proof. intros H k. by rewrite H. Qed.

Lemma keyBits_ir b1 b2 p k :
  b_ir <$> b1 !! k = b_ir <$> b2 !! k -> keyBits b1 p k = keyBits b2 p k.
Proof.
  intros E. unfold keyBits. destruct (b1 !! k), (b2 !! k); cbn in E; try done.
  injection E as E. by rewrite E.
Qed.

Lemma IndexAt_ext k skip s s' : e_pageMap s' = e_pageMap s -> e_index s' = e_index s ->
  sameIr s s' -> IndexAt k skip s -> IndexAt k skip s'.
Proof.
  intros E1 E2 E3 [Hn Hm Hb Hs].
  assert (Ep : pages s' = pages s) by (unfold pages; by rewrite E1).
  assert (Ek : forall p, keysOf s' p = keysOf s p) by (intros p; unfold keysOf; by rewrite E2).
  split; rewrite ?Ep; [intros p; by rewrite Ek| | |done].
  - intros p k'. rewrite Ek, Hm. split; intros (b & Hb' & Hf & ?).
    + destruct (sameIr_lookup s' s k' b (sameIr_sym _ _ E3) Hb') as (b0 & ? & E).
      exists b0. by rewrite E.
    + destruct (sameIr_lookup s s' k' b E3 Hb') as (b0 & ? & E). exists b0. by rewrite E.
  - intros p Hp. rewrite Ek, E1, Hb by done. apply sliceMask_ext. intros k' _.
    apply keyBits_ir. by rewrite E3.
Qed.

Lemma PagesOk_ext s s' : e_pageMap s' = e_pageMap s -> e_codePage s' = e_codePage s ->
  PagesOk s -> PagesOk s'.
Proof. intros E1 E2 [H1 H2]. split; unfold pages in *; by rewrite E1, E2. Qed.

(** ** Unmarking *)

Lemma blank_blocks s s' : blank s' = blank s -> e_blocks s' = e_blocks s.
Proof. intros H. exact (f_equal e_blocks H). Qed.

Lemma recompute_pageMap p s : p < pages s ->
  e_pageMap (recomputeSliceMark p s) =
  wr (e_pageMap s) p (sliceMask (e_blocks s) p (keysOf s p)).
Proof.
  intros Hp. unfold recomputeSliceMark. unfold pages in Hp.
  rewrite (proj2 (Z.leb_gt _ _)) by lia. by split_tests.
Qed.

Lemma recompute_index p s : e_index (recomputeSliceMark p s) = e_index s.
Proof. unfold recomputeSliceMark. by split_tests. Qed.

Lemma unmarkSlice_keys k p s q :
  keysOf (unmarkSlice k p s) q =
  if q =? p then filter (fun x => x <> k) (keysOf s q) else keysOf s q.
Proof.
  unfold unmarkSlice, keysOf. destruct (e_index s !! p) as [keys|] eqn:E.
  - rewrite recompute_index. cbn. destruct (Z.eqb_spec q p) as [->|Hn].
    + rewrite E. cbn. destruct (filter _ keys) eqn:F;
        [by rewrite lookup_delete_eq|by rewrite lookup_insert_eq].
    + destruct (filter _ keys); [by rewrite lookup_delete_ne|by rewrite lookup_insert_ne].
  - destruct (Z.eqb_spec q p) as [->|Hn]; [|done]. by rewrite E.
Qed.

Lemma unmarkSlice_pageMap k p s : 0 <= p < pages s ->
  e_pageMap (unmarkSlice k p s) =
  match e_index s !! p with
  | None => e_pageMap s
  | Some _ => wr (e_pageMap s) p
      (sliceMask (e_blocks s) p (filter (fun x => x <> k) (keysOf s p)))
  end.
Proof.
  intros Hp. unfold unmarkSlice. destruct (e_index s !! p) as [keys|] eqn:E; [|done].
  assert (Ek : keysOf s p = keys) by (unfold keysOf; by rewrite E). rewrite Ek.
  destruct (filter _ keys) as [|x l] eqn:F.
  - rewrite recompute_pageMap by exact (proj2 Hp). cbn.
    unfold keysOf. cbn. by rewrite lookup_delete_eq.
  - rewrite recompute_pageMap by exact (proj2 Hp). cbn.
    unfold keysOf. cbn. by rewrite lookup_insert_eq.
Qed.

Lemma unmarkSlice_byte k p s q : 0 <= p < pages s ->
  (forall r, 0 <= r < pages s ->
     pageByte (e_pageMap s) r = sliceMask (e_blocks s) r (keysOf s r)) ->
  pageByte (e_pageMap (unmarkSlice k p s)) q =
  if q =? p then sliceMask (e_blocks s) p (filter (fun x => x <> k) (keysOf s p))
  else pageByte (e_pageMap s) q.
Proof.
  intros Hp Hm. rewrite unmarkSlice_pageMap by done.
  destruct (e_index s !! p) as [keys|] eqn:E; [by apply pageByte_wr|].
  destruct (Z.eqb_spec q p) as [->|]; [|done]. rewrite Hm by done.
  unfold keysOf. by rewrite E.
Qed.

Lemma unmarkSlice_length k p s : length (e_pageMap (unmarkSlice k p s)) = length (e_pageMap s).
Proof.
  unfold unmarkSlice, recomputeSliceMark. destruct (e_index s !! p); [|done].
  split_tests; try done; cbn; by rewrite wr_length.
Qed.

Lemma unmarkSlice_index k skip p s : 0 <= p < pages s -> IndexAt k skip s ->
  IndexAt k (fun q => skip q \/ q = p) (unmarkSlice k p s).
Proof.
  intros Hp [Hn Hm Hb Hs].
  assert (Ep : pages (unmarkSlice k p s) = pages s) by (unfold pages; by rewrite unmarkSlice_length).
  assert (Eb := blank_blocks _ _ (blank_unmarkSlice k p s)).
  split; rewrite ?Ep, ?Eb; [| | |done].
  - intros q. rewrite unmarkSlice_keys. destruct (q =? p); [apply NoDup_filter|]; done.
  - intros q k'. rewrite unmarkSlice_keys. destruct (Z.eqb_spec q p) as [->|Hq].
    + rewrite list_elem_of_filter, Hm. split.
      * intros [Hk (b & ? & ? & ?)]. exists b. naive_solver.
      * intros (b & ? & ? & Hk). split; [naive_solver|]. exists b. naive_solver.
    + rewrite Hm. split; intros (b & ? & ? & ?); exists b; naive_solver.
  - intros q Hq. rewrite unmarkSlice_byte, unmarkSlice_keys by done.
    destruct (Z.eqb_spec q p) as [->|Hqp]; [done|]. by apply Hb.
Qed.

(** Marks only disappear, and the data TLB is either as it was or empty. *)
Definition shrinks (s s' : Engine) : Prop :=
  (forall p, pageByte (e_pageMap s') p <> 0 -> pageByte (e_pageMap s) p <> 0) /\
  (e_dtlbW s' = e_dtlbW s /\ e_dataW1 s' = e_dataW1 s \/
   e_dtlbW s' = Dtlb0 /\ e_dataW1 s' = DataPage0).

Lemma Dtlb0_host i e h : rd Dtlb0 i = Some e -> t_host e <> Some h.
Proof.
  intros H. assert (Forall (fun e => t_host e = None) Dtlb0) as F by
    (apply Forall_replicate; done).
  by rewrite (rd_Forall _ _ _ _ F H).
Qed.

Lemma TlbOk_flushed cfg s : e_dtlbW s = Dtlb0 -> e_dataW1 s = DataPage0 -> TlbOk cfg s.
Proof.
  intros Ew E1. split; rewrite ?Ew, ?E1; try done.
  - intros i e h j He Hh. by apply (Dtlb0_host i e h) in He.
  - intros i e h He Hh. by apply (Dtlb0_host i e h) in He.
Qed.

Lemma TlbOk_shrinks cfg s s' : shrinks s s' -> TlbOk cfg s -> TlbOk cfg s'.
Proof.
  intros [Hp [[Ew E1]|[Ew E1]]] [H1 H2 H3 H4]; [|by apply TlbOk_flushed].
  split; rewrite ?Ew, ?E1; eauto. intros h j Hh Hj. specialize (H3 h j Hh Hj).
  destruct (Z.eq_dec (pageByte (e_pageMap s') (h / 256 + j)) 0); [done|].
  by apply Hp in n.
Qed.

Lemma unmarkSlice_shrinks k skip p s : 0 <= p < pages s -> IndexAt k skip s ->
  shrinks s (unmarkSlice k p s).
Proof.
  intros Hp [_ _ Hb _]. split.
  - intros q. rewrite unmarkSlice_byte by done. destruct (Z.eqb_spec q p) as [->|]; [|done].
    rewrite (Hb p) by done. apply sliceMask_sub. intros k' Hk. by apply list_elem_of_filter in Hk as [_ ?].
  - unfold unmarkSlice, recomputeSliceMark. destruct (e_index s !! p); [|by left].
    split_tests; (by left) || by right.
Qed.

Lemma page_of_slice p : 0 <= p < 16777216 ->
  u32 (p .<< kShift) .>> 12 = p / 16 /\ u32 ((p / 16) .<< 12) .>> kShift = 16 * (p / 16).
Proof.
  intros Hp. rewrite slice_base, slice_div by lia. rewrite Z.shiftr_div_pow2 by lia.
  change (2 ^ 12) with (256 * 16). rewrite <- Z.div_div, Z.mul_comm, Z.div_mul by lia.
  split; [done|]. rewrite Z.shiftl_mul_pow2 by lia. change (2 ^ 12) with (16 * 256).
  pose proof (Z.div_pos p 16). pose proof (Z.mul_div_le p 16).
  rewrite u32_small, Z.mul_assoc, Z.div_mul by lia. lia.
Qed.

Lemma existsb_false {A} (f : A -> bool) l x : existsb f l = false -> x ∈ l -> f x = false.
Proof.
  intros H Hx. destruct (f x) eqn:E; [|done]. rewrite <- H. symmetry.
  apply existsb_exists. exists x. by rewrite <- list_elem_of_In.
Qed.

Lemma recompute_pages p s : 0 <= p < pages s -> pages s <= 16777216 -> PagesOk s ->
  (pageByte (e_pageMap s) p = 0 -> sliceMask (e_blocks s) p (keysOf s p) = 0) ->
  PagesOk (recomputeSliceMark p s).
Proof.
  intros Hp Hs [Hf Hz] Hmono. unfold recomputeSliceMark. unfold pages in *.
  rewrite (proj2 (Z.leb_gt _ _)) by lia. cbv zeta.
  set (m := sliceMask _ _ _) in *. cbn [e_pageMap set_pageMap].
  destruct (page_of_slice p ltac:(lia)) as [E1 E2]. rewrite E1, E2.
  assert (Hflag : forall q, pageByte (wr (e_pageMap s) p m) q <> 0 ->
                  default 0 (rd (e_codePage s) (q / 16)) <> 0).
  { intros q. rewrite pageByte_wr by done. destruct (Z.eqb_spec q p) as [->|]; [|apply Hf].
    intros Hm. apply Hf. intros H0. by apply Hm, Hmono. }
  destruct (m <>? 0); [split; [done|unfold pages; cbn; by rewrite wr_length]|].
  cbn [e_codePage set_pageMap]. destruct (Z.eqb_spec (default 0 (rd (e_codePage s) (p / 16))) 0) as [Hc|Hc];
    [split; [done|unfold pages; cbn; by rewrite wr_length]|].
  destruct (existsb _ _) eqn:Ex; [split; [done|unfold pages; cbn; by rewrite wr_length]|].
  assert (Hin : 0 <= p / 16 < Z.of_nat (length (e_codePage s))).
  { destruct (rd (e_codePage s) (p / 16)) eqn:Er; [by eapply rd_lt|done]. }
  split; [|unfold pages; cbn; by rewrite !wr_length]. cbn. intros q Hq.
  assert (Hr := pageByte_range _ _ Hq). rewrite wr_length in Hr.
  rewrite rd_wr by (try done; apply Z.div_pos; lia).
  destruct (Z.eqb_spec (q / 16) (p / 16)) as [E|]; [|by apply Hflag].
  exfalso. apply Hq. apply Z.eqb_eq, negb_false_iff.
  apply (existsb_false _ _ q Ex), elem_of_seqZ.
  change (4096 .>> kShift) with 16. pose proof (Z.div_mod q 16). pose proof (Z.mod_pos_bound q 16).
  lia.
Qed.

Lemma unmarkSlice_pages k skip p s : 0 <= p < pages s -> IndexAt k skip s ->
  PagesOk s -> PagesOk (unmarkSlice k p s).
Proof.
  intros Hp [_ _ Hb Hs] HP. unfold unmarkSlice.
  destruct (e_index s !! p) as [keys|] eqn:E; [|done]. cbv zeta.
  set (s1 := set_index _ s).
  assert (Hk : keysOf s1 p = filter (fun x => x <> k) (keysOf s p)).
  { unfold keysOf, s1. cbn. rewrite E. cbn. destruct (filter _ keys);
      [by rewrite lookup_delete_eq|by rewrite lookup_insert_eq]. }
  apply recompute_pages; [done|done|by destruct HP; split|].
  intros H0. rewrite Hk. change (e_blocks s1) with (e_blocks s).
  change (e_pageMap s1) with (e_pageMap s) in H0. rewrite Hb in H0 by done.
  destruct (Z.eq_dec (sliceMask (e_blocks s) p (filter (fun x => x <> k) (keysOf s p))) 0)
    as [|Hne]; [done|].
  eapply sliceMask_sub in Hne; [by rewrite H0 in Hne|].
  intros k' Hk'. by apply list_elem_of_filter in Hk' as [_ ?].
Qed.

Lemma shrinks_refl s : shrinks s s.
Proof. split; [done|by left]. Qed.

Lemma shrinks_trans s1 s2 s3 : shrinks s1 s2 -> shrinks s2 s3 -> shrinks s1 s3.
Proof.
  intros [H1 T1] [H2 T2]. split; [auto|].
  destruct T2 as [[-> ->]|T2]; [exact T1|by right].
Qed.

(** The loop of [unmarkPages] over any list of slices of the map. *)
Lemma unmark_loop k ps : forall skip s,
  (forall p, p ∈ ps -> 0 <= p < pages s) -> IndexAt k skip s -> PagesOk s ->
  let s' := foldl (fun s p => unmarkSlice k p s) s ps in
  IndexAt k (fun q => skip q \/ q ∈ ps) s' /\ PagesOk s' /\ shrinks s s' /\ pages s' = pages s.
Proof.
  induction ps as [|p ps IH]; intros skip s Hps HI HP; cbn [foldl].
  - repeat split; try apply shrinks_refl; try apply HI; try apply HP.
    + intros (b & ? & ? & ?)%(ix_mem _ _ _ HI). exists b. set_solver.
    + intros (b & ? & ? & ?). apply (ix_mem _ _ _ HI). exists b. set_solver.
  - assert (Hp : 0 <= p < pages s) by (apply Hps; set_solver).
    assert (El : pages (unmarkSlice k p s) = pages s) by (unfold pages; by rewrite unmarkSlice_length).
    destruct (IH (fun q => skip q \/ q = p) (unmarkSlice k p s)) as (H1 & H2 & H3 & H4).
    + intros q Hq. rewrite El. apply Hps. set_solver.
    + by apply unmarkSlice_index.
    + by eapply unmarkSlice_pages.
    + split; [|split; [exact H2|split]].
      * destruct H1 as [Hn Hm Hb Hs]. split; [done| |done|done].
        intros q k'. rewrite Hm. split; intros (b & ? & ? & ?); exists b; set_solver.
      * eapply shrinks_trans; [by eapply unmarkSlice_shrinks|exact H3].
      * by rewrite H4.
Qed.

Lemma IndexAt_none k s : IndexAt k (fun _ => False) s <-> IndexOk s.
Proof.
  split; intros [Hn Hm Hb Hs]; split; try done; intros q k'; rewrite Hm; naive_solver.
Qed.

Lemma range_pages s lo hi p : 0 <= lo ->
  p ∈ sliceRange lo hi (Z.of_nat (length (e_pageMap s))) -> 0 <= p < pages s.
Proof.
  intros Hlo. rewrite elem_sliceRange. pose proof (Z.div_pos lo 256). unfold pages. lia.
Qed.

Lemma blockLo_range ir : 0 <= blockLo ir < 4294967296.
Proof. apply u32_range. Qed.

(** Erasing a block with its marks leaves an exact index. *)
Lemma erase_index k b s : IndexOk s -> PagesOk s -> e_blocks s !! k = Some b ->
  let s1 := unmarkPages k (blockLo (b_ir b)) (blockLen (b_ir b)) s in
  let s' := set_blocks (delete k (e_blocks s1)) s1 in
  IndexOk s' /\ PagesOk s' /\ shrinks s s' /\ pages s' = pages s.
Proof.
  intros HI HP Hk. cbv zeta.
  set (lo := blockLo (b_ir b)). set (len := blockLen (b_ir b)).
  assert (Hloop : exists skip, let s1 := unmarkPages k lo len s in
    IndexAt k skip s1 /\ PagesOk s1 /\ shrinks s s1 /\ pages s1 = pages s /\
    forall q, filed (b_ir b) q (pages s) -> skip q).
  { unfold unmarkPages. apply (IndexAt_none k) in HI.
    destruct (bool_decide (e_pageMap s = []) || (len =? 0)) eqn:E.
    - exists (fun _ => False). do 4 (split; [done || apply shrinks_refl|]).
      intros q [Hlen Hq]. apply orb_true_iff in E as [E|E]; unbool; [|done].
      apply range_pages in Hq; [|apply blockLo_range]. unfold pages in Hq. rewrite E in Hq.
      cbn in Hq. lia.
    - destruct (unmark_loop k (sliceRange lo (u32 (lo + len - 1)) (Z.of_nat (length (e_pageMap s))))
        _ s ltac:(intros p; apply range_pages, blockLo_range) HI HP) as (H1 & H2 & H3 & H4).
      eexists. do 4 (split; [done|]). intros q [_ Hq]. by right. }
  destruct Hloop as (skip & H1 & H2 & H3 & H4 & Hall). destruct H1 as [Hn Hm Hb Hs].
  assert (Eb := blank_blocks _ _ (blank_unmarkPages k lo len s)).
  set (s1 := unmarkPages k lo len s) in *.
  assert (Hout : forall q, k ∉ keysOf s1 q).
  { intros q (b' & Hb' & Hf & Hsk)%Hm. rewrite Eb, Hk in Hb'. injection Hb' as <-.
    rewrite H4 in Hf. naive_solver. }
  split; [|by destruct H2; split].
  split; [done| | |done].
  - intros q k'. change (keysOf (set_blocks _ s1) q) with (keysOf s1 q).
    rewrite Hm. change (pages (set_blocks _ s1)) with (pages s1). cbn.
    destruct (decide (k' = k)) as [->|Hne].
    + rewrite lookup_delete_eq. split; [|naive_solver].
      intros Hin%Hm. by apply Hout in Hin.
    + rewrite lookup_delete_ne by done. naive_solver.
  - intros q Hq. change (keysOf (set_blocks _ s1) q) with (keysOf s1 q). cbn.
    rewrite Hb by done. apply sliceMask_ext. intros k' Hk'.
    unfold keyBits. rewrite lookup_delete_ne; [done|]. intros ->. by apply Hout in Hk'.
Qed.

(** ** Marking *)

Lemma filed_bits blocks k b p n : blocks !! k = Some b -> filed (b_ir b) p n ->
  n <= 16777216 ->
  keyBits blocks p k = sliceBits (blockLo (b_ir b)) (blockHi (b_ir b)) p.
Proof.
  intros Hk [Hlen Hp] Hn. unfold keyBits. rewrite Hk. fold (blockHi (b_ir b)).
  apply elem_sliceRange in Hp. pose proof (blockLo_range (b_ir b)) as Hlo.
  pose proof (Z.div_pos (blockLo (b_ir b)) 256).
  rewrite (proj2 (Z.eqb_neq _ _) Hlen), slice_base by lia.
  rewrite u32_small by (unfold kUnit; lia).
  pose proof (Z.mul_div_le (blockHi (b_ir b)) 256). unfold kUnit.
  pose proof (Z.mod_pos_bound (blockLo (b_ir b)) 256).
  pose proof (Z.div_mod (blockLo (b_ir b)) 256).
  rewrite !(proj2 (Z.ltb_ge _ _)) by lia. done.
Qed.

Lemma markSlice_index k skip lo hi p s b :
  0 <= p < pages s -> skip p -> IndexAt k skip s ->
  e_blocks s !! k = Some b -> lo = blockLo (b_ir b) -> hi = blockHi (b_ir b) ->
  filed (b_ir b) p (pages s) ->
  IndexAt k (fun q => skip q /\ q <> p) (markSlice k lo hi p s).
Proof.
  intros Hp Hsk [Hn Hm Hb Hs] Hk -> -> Hf.
  assert (Hout : k ∉ keysOf s p) by (intros (b' & _ & _ & H)%Hm; naive_solver).
  assert (Ek : forall q, keysOf (markSlice k (blockLo (b_ir b)) (blockHi (b_ir b)) p s) q =
                 if q =? p then keysOf s q ++ [k] else keysOf s q).
  { intros q. unfold markSlice, keysOf. cbn. destruct (Z.eqb_spec q p) as [->|];
      [by rewrite lookup_insert_eq|by rewrite lookup_insert_ne]. }
  assert (Ep : pages (markSlice k (blockLo (b_ir b)) (blockHi (b_ir b)) p s) = pages s)
    by (unfold pages; cbn; by rewrite wr_length).
  split; rewrite ?Ep; [| | |done].
  - intros q. rewrite Ek. destruct (Z.eqb_spec q p) as [->|]; [|done].
    apply NoDup_app. split; [done|]. split; [set_solver|apply NoDup_singleton].
  - intros q k'. rewrite Ek. cbn. destruct (Z.eqb_spec q p) as [->|Hq].
    + rewrite elem_of_app, list_elem_of_singleton, Hm. split.
      * intros [(b' & ? & ? & ?)| ->]; [exists b'|exists b]; naive_solver.
      * intros (b' & Hb' & ? & ?). destruct (decide (k' = k)); [by right|left].
        exists b'. naive_solver.
    + rewrite Hm. split; intros (b' & ? & ? & ?); exists b'; naive_solver.
  - intros q Hq. rewrite Ek. cbn. rewrite pageByte_wr by done.
    destruct (Z.eqb_spec q p) as [->|]; [|by apply Hb].
    rewrite sliceMask_snoc, <- (filed_bits _ _ _ _ _ Hk Hf Hs), Hb by done.
    apply u8_small. apply lor_u8; [apply sliceMask_byte|apply keyBits_byte].
Qed.

Lemma mark_loop k b lo hi ps : forall skip s, NoDup ps ->
  (forall p, p ∈ ps -> 0 <= p < pages s /\ skip p /\ filed (b_ir b) p (pages s)) ->
  IndexAt k skip s -> e_blocks s !! k = Some b ->
  lo = blockLo (b_ir b) -> hi = blockHi (b_ir b) ->
  let s' := foldl (fun s p => markSlice k lo hi p s) s ps in
  IndexAt k (fun q => skip q /\ q ∉ ps) s' /\ pages s' = pages s /\
  e_codePage s' = e_codePage s /\ e_dtlbW s' = e_dtlbW s /\ e_dataW1 s' = e_dataW1 s /\
  (forall q, pageByte (e_pageMap s') q <> 0 -> pageByte (e_pageMap s) q <> 0 \/ q ∈ ps).
Proof.
  induction ps as [|p ps IH]; intros skip s Hnd Hps HI Hk El Eh; cbn [foldl].
  - split; [|by auto 10]. destruct HI as [Hn Hm Hb Hs]. split; [done| |done|done].
    intros q k'. rewrite Hm. split; intros (b' & ? & ? & ?); exists b'; set_solver.
  - apply NoDup_cons in Hnd as [Hp Hnd].
    destruct (Hps p ltac:(set_solver)) as (Hr & Hs0 & Hf).
    set (s1 := markSlice k lo hi p s).
    assert (Ep : pages s1 = pages s) by (unfold pages, s1; cbn; by rewrite wr_length).
    destruct (IH (fun q => skip q /\ q <> p) s1) as (H1 & H2 & H3 & H4 & H5 & H6); try done.
    + intros q Hq. rewrite Ep. destruct (Hps q ltac:(set_solver)) as (? & ? & ?).
      split; [done|]. split; [|done]. split; [done|]. intros ->. done.
    + by eapply markSlice_index.
    + rewrite H2, H3, H4, H5. split; [|split; [exact Ep|do 3 (split; [done|])]].
      * destruct H1 as [Hn Hm Hb Hs]. split; [done| |done|done]. clear -Hm.
        intros q k'. rewrite Hm. split; intros (b' & ? & ? & Hx); exists b'; (split; [done|]);
          (split; [done|]); rewrite not_elem_of_cons in *; tauto.
      * intros q Hq. destruct (H6 q Hq) as [H7|]; [|set_solver]. unfold s1 in H7. cbn in H7.
        rewrite pageByte_wr in H7 by done. destruct (Z.eqb_spec q p); [set_solver|by left].
Qed.

Lemma flag_pages l : forall c i, (forall q, q ∈ l -> 0 <= q < Z.of_nat (length c)) ->
  0 <= i -> default 0 (rd c i) <> 0 \/ i ∈ l ->
  default 0 (rd (foldl (fun c q => wr c q 1) c l) i) <> 0.
Proof.
  induction l as [|q l IH]; intros c i Hl Hi H; cbn [foldl]; [set_solver|].
  apply IH; [|done|].
  - intros q' Hq'. rewrite wr_length. apply Hl. set_solver.
  - rewrite rd_wr by (try done; apply Hl; set_solver).
    destruct (Z.eqb_spec i q); [by left|]. set_solver.
Qed.

Lemma flag_length l : forall c : list Z, length (foldl (fun c q => wr c q 1) c l) = length c.
Proof. induction l as [|q l IH]; intros c; cbn; [done|]. by rewrite IH, wr_length. Qed.

Lemma insert_skips k b s : IndexOk s -> e_blocks s !! k = None ->
  IndexAt k (fun _ => True) (set_blocks (<[k := b]> (e_blocks s)) s).
Proof.
  intros [Hn Hm Hb Hs] Hk.
  assert (Hout : forall q, k ∉ keysOf s q) by (intros q (b' & Hb' & _)%Hm; by rewrite Hk in Hb').
  split; [done| | |done].
  - intros q k'. change (keysOf (set_blocks _ s) q) with (keysOf s q). rewrite Hm. cbn.
    change (pages (set_blocks _ s)) with (pages s). destruct (decide (k' = k)) as [->|Hne].
    + rewrite lookup_insert_eq, Hk. naive_solver.
    + rewrite lookup_insert_ne by done. naive_solver.
  - intros q Hq. change (keysOf (set_blocks _ s) q) with (keysOf s q). cbn.
    rewrite Hb by done. apply sliceMask_ext. intros k' Hk'. unfold keyBits.
    rewrite lookup_insert_ne; [done|]. intros ->. by apply Hout in Hk'.
Qed.

(** With nothing of [k] left out, the index is exact. *)
Lemma IndexAt_all k b skip s : IndexAt k skip s -> e_blocks s !! k = Some b ->
  (forall q, filed (b_ir b) q (pages s) -> ~ skip q) -> IndexOk s.
Proof.
  intros [Hn Hm Hb Hs] Hk Hno. apply (IndexAt_none k). split; [done| |done|done].
  intros q k'. rewrite Hm. split; intros (b' & Hb' & Hf & ?); exists b'; (split; [done|]); (split; [done|]);
    [tauto|]. intros [-> Hsk]. rewrite Hk in Hb'. injection Hb' as <-. by apply (Hno q).
Qed.

(** The pages of the range are flagged, so every page with a mark is. *)
Lemma flagged s s' lo hi n : PagesOk s -> 0 <= lo -> pages s' = pages s ->
  (forall q, pageByte (e_pageMap s') q <> 0 -> pageByte (e_pageMap s) q <> 0 \/ q ∈ sliceRange lo hi n) ->
  e_codePage s' = foldl (fun c q => wr c q 1) (e_codePage s)
    (seqZ (lo .>> 12) (Z.min (hi .>> 12) (Z.of_nat (length (e_codePage s)) - 1) - (lo .>> 12) + 1)) ->
  PagesOk s'.
Proof.
  intros [Hf Hz] Hlo Ep Hq Ec. split; [|by rewrite Ep, Ec, flag_length].
  intros p Hp. pose proof (pageByte_range _ _ Hp) as Hr. fold (pages s') in Hr. rewrite Ec. apply flag_pages.
  - intros q Hin%elem_of_seqZ. rewrite Z.shiftr_div_pow2 in Hin by lia.
    pose proof (Z.div_pos lo (2 ^ 12)). lia.
  - apply Z.div_pos; lia.
  - destruct (Hq p Hp) as [|Hp']; [left; by apply Hf|right].
    apply elem_sliceRange in Hp' as [Hpr _]. apply elem_of_seqZ.
    rewrite !Z.shiftr_div_pow2 by lia. change (2 ^ 12) with (256 * 16).
    rewrite <- !Z.div_div by lia.
    pose proof (Z.div_le_mono (lo / 256) p 16). pose proof (Z.div_le_mono p (hi / 256) 16).
    assert (p / 16 < Z.of_nat (length (e_codePage s))); [apply Z.div_lt_upper_bound; lia|lia].
Qed.

(** Marking the block at [k], of which nothing is filed yet. *)
Lemma markPages_index cfg k b s : IndexAt k (fun _ => True) s -> PagesOk s -> TlbOk cfg s ->
  e_blocks s !! k = Some b ->
  let s' := markPages k (blockLo (b_ir b)) (blockLen (b_ir b)) s in
  IndexOk s' /\ PagesOk s' /\ TlbOk cfg s' /\ pages s' = pages s.
Proof.
  intros HI HP HT Hk. cbv zeta. unfold markPages.
  set (lo := blockLo (b_ir b)). set (len := blockLen (b_ir b)).
  destruct (bool_decide (e_pageMap s = []) || (len =? 0)) eqn:E.
  { split; [|done]. apply (IndexAt_all k b _ s HI Hk). intros q [Hlen Hq] _.
    apply orb_true_iff in E as [E|E]; unbool; [|done].
    apply range_pages in Hq; [|apply blockLo_range]. unfold pages in Hq. rewrite E in Hq. cbn in Hq. lia. }
  apply orb_false_iff in E as [_ Elen]. apply Z.eqb_neq in Elen.
  change (u32 (lo + len - 1)) with (blockHi (b_ir b)). cbv zeta.
  set (hi := blockHi (b_ir b)). set (n := Z.of_nat (length (e_pageMap s))).
  destruct (mark_loop k b lo hi (sliceRange lo hi n) (fun _ => True) s)
    as (H1 & H2 & H3 & H4 & H5 & H6); try done.
  { apply NoDup_seqZ. }
  { intros p Hp. split; [by apply (range_pages s lo hi); [apply blockLo_range|]|]. by split. }
  assert (Es1 : e_blocks (foldl (fun s p => markSlice k lo hi p s) s (sliceRange lo hi n)) = e_blocks s).
  { apply blank_blocks, blank_foldl. intros. apply blank_markSlice. }
  set (s1 := foldl (fun s p => markSlice k lo hi p s) s (sliceRange lo hi n)) in *.
  assert (HI' : IndexOk s1).
  { apply (IndexAt_all k b _ s1 H1); [by rewrite Es1|]. intros q [_ Hf] [_ Hno]. by rewrite H2 in Hf. }
  rewrite H3. set (cp := foldl (fun c q => wr c q 1) (e_codePage s) _).
  assert (HP' : PagesOk (set_codePage cp s1)) by (by apply (flagged s _ lo hi n); [|apply blockLo_range|..]).
  destruct (existsb (fun p => pageByte (e_pageMap s) p =? 0) (sliceRange lo hi n)) eqn:G.
  - split; [by apply (IndexAt_ext _ _ s1)|]. split; [by destruct HP'|]. split; [by apply TlbOk_flushed|exact H2].
  - split; [by apply (IndexAt_ext _ _ s1)|]. split; [exact HP'|]. split; [|exact H2].
    eapply TlbOk_shrinks; [|exact HT]. split; [|left; cbn; by rewrite H4, H5].
    cbn. intros p Hp. destruct (H6 p Hp) as [|Hr]; [done|]. intros E0.
    apply (existsb_false _ _ _ G) in Hr. by rewrite E0 in Hr.
Qed.

(** Filing a new block and marking it leaves an exact index, and no write
    entry of the data TLB survives the first mark of a slice. *)
Lemma insert_index cfg k b s : IndexOk s -> PagesOk s -> TlbOk cfg s ->
  e_blocks s !! k = None ->
  let s' := markPages k (blockLo (b_ir b)) (blockLen (b_ir b))
              (set_blocks (<[k := b]> (e_blocks s)) s) in
  IndexOk s' /\ PagesOk s' /\ TlbOk cfg s' /\ pages s' = pages s.
Proof.
  intros HI HP HT Hk. apply (insert_skips k b) in HI; [|done].
  apply (markPages_index cfg k b (set_blocks (<[k := b]> (e_blocks s)) s)); [done| | |apply lookup_insert_eq];
    [by destruct HP; split|by destruct HT; split].
Qed.
