(* ===== verification/JitCoherence.v ===== *)
(** * JitCoherence: the invariant of the code cache

    What every part of the engine may rely on about the others: the block map
    owns the translated code, the index files the blocks under their bytes,
    the dispatch cache points at live blocks, the version masks count the live
    versions, links and edge cells lead to live code of the current
    generation, and a block whose bytes have changed since they were copied is
    on the guard's list.  One record per part, and what each depends on. *)

From S2P Require Import Prelude.
From S2P Require Import JitTypes.
From S2P Require Import JitGuard.
From S2P Require Import JitShiftVersions.
From S2P Require Import JitDispatchCache.
From S2P Require Import JitEngineState.
From S2P Require Import JitBlockCache.
From S2P Require Import JitGuest.
From S2P Require Import JitTurn.
From S2P Require Import JitGuardFacts.
From S2P Require Import JitIndexFacts.
From stdpp Require Import base list numbers option decidable gmap sets.

Open Scope Z_scope.

(** A facet of the invariant that reads only fields the operation left alone. *)
Ltac reuse H := destruct H; split; assumption.

(** ** Blocks *)

Definition plainVersion : Z := 0xFF.

(** The key a block is stored under is the one its entry and version give. *)
Definition blockWf (k : Z) (b : Block) : Prop :=
  let base := key (bl_entryPc (b_ir b)) (bl_super (b_ir b)) in
  0 <= bl_entryPc (b_ir b) < 4294967296 /\
  (b_shiftVersion b = plainVersion /\ k = base \/
   0 <= b_shiftVersion b < 32 /\ k = versionKey base (b_shiftVersion b)).

Record BlocksOk (s : Engine) : Prop := {
  bk_wf : forall k b, e_blocks s !! k = Some b -> blockWf k b;
  bk_node : forall k b, e_blocks s !! k = Some b -> b_node b < e_nodes s;
  bk_live : forall k b c, e_blocks s !! k = Some b -> b_code b = Some c -> c ∈ e_codes s;
  bk_owned : forall c, c ∈ e_codes s ->
    exists k b, e_blocks s !! k = Some b /\ b_code b = Some c;
  bk_uniq : forall k1 k2 b1 b2 c, e_blocks s !! k1 = Some b1 -> e_blocks s !! k2 = Some b2 ->
    b_code b1 = Some c -> b_code b2 = Some c -> k1 = k2;
  bk_fresh : forall c, c ∈ e_codes s -> c < e_nodes s
}.

(** ** The dispatch cache *)

Definition entryOk (s : Engine) (i : Z) (e : Entry) : Prop :=
  match en_block e with
  | None => en_key e = 0
  | Some p => p_key p = en_key e /\ slotOf (e_dispatch s) (en_key e) = i /\
              isVersionKey (en_key e) = false /\ is_Some (deref s p)
  end.

Record DispatchOk (s : Engine) : Prop := {
  dc_mask : 0 <= mask_ (e_dispatch s) < Z.of_nat (length (entries_ (e_dispatch s)));
  dc_entry : forall i e, rd (entries_ (e_dispatch s)) i = Some e -> entryOk s i e
}.

(** ** Versions of shift sites *)

Record ShiftOk (s : Engine) : Prop := {
  sh_mask : forall base v, 0 <= base < 8589934592 -> 0 <= v < 32 ->
    Z.testbit (siteMask base (e_shift s)) v = true <->
    is_Some (e_blocks s !! versionKey base v);
  sh_site : forall base v, 0 <= base < 8589934592 -> 0 <= v < 32 ->
    is_Some (e_blocks s !! versionKey base v) -> base ∈ sites_ (e_shift s);
  sh_bits : forall base m, masks_ (e_shift s) !! base = Some m -> 0 < m < 4294967296
}.

(** ** Links *)

(** [T k e]: an entry point [e] may be reached as the block at key [k]. *)
Record LinksAt (T : Z -> Z -> Prop) (s : Engine) : Prop := {
  lk_slot : forall i e, l_entry (linkSlot s i) = Some e -> exists pc super,
    0 <= pc < 4294967296 /\ i = linkIndex pc /\ l_tag (linkSlot s i) = linkTag pc super /\
    T (key pc super) e;
  lk_listed : forall i, l_tag (linkSlot s i) <> kNoLink \/ l_entry (linkSlot s i) <> None ->
    i ∈ e_published s;
  lk_cell : forall k c e, e_cells s !! k = Some c -> c_entry c = Some e -> T k e;
  lk_cellListed : forall k c, e_cells s !! k = Some c ->
    (c_entry c <> None -> c_listed c = true) /\ (c_listed c = true -> k ∈ e_publishedCells s)
}.

Section Links.
Context (linkEntry : Z -> option Z).

(** The entry point of the code of a live plain block, proved under the current
    translation. *)
Definition target (s : Engine) (k e : Z) : Prop :=
  exists b c, e_blocks s !! k = Some b /\ b_gen b = e_blocksGen s /\
    b_shiftVersion b = plainVersion /\ b_code b = Some c /\ linkEntry c = Some e.

Definition LinksOk (s : Engine) : Prop := LinksAt (target s) s.
End Links.

(** ** The fetch window, and the idle engine *)

(** While the engine is off the window belongs to the interpreter. *)
Record WindowOk (s : Engine) : Prop := {
  wn_phys : e_enabled s = true -> w_armed (e_window s) = true ->
    e_winPhys s = w_phys (e_window s) /\ e_winLen s = w_len (e_window s) /\
    0 <= w_base (e_window s)
}.

Record IdleOk (s : Engine) : Prop := {
  id_blocks : e_enabled s = false -> e_blocks s = ∅;
  id_guard : e_enabled s = false -> tripped (e_guard s) = false;
  id_quiet : tripped (e_guard s) = false -> hits (e_guard s) = [] /\ mustFlush (e_guard s) = false
}.

(** ** Bytes *)

(** The words copied into the block are the ones memory holds at its footprint
    (which has room for all of them, see [copied_in_footprint]). *)
Definition memWord (m : Z -> Z) (a : Z) : Z := u16 (u16 (m a .<< 8) .| m (a + 1)).
Definition current (m : Z -> Z) (ir : BlockIr) : Prop :=
  forall i w, bl_code ir !! i = Some w -> 2 * Z.of_nat i + 2 <= blockLen ir ->
    w = memWord m (blockLo ir + 2 * Z.of_nat i).

Lemma copied_in_footprint ir : Z.of_nat (length (bl_code ir)) < 2147483648 ->
  2 * Z.of_nat (length (bl_code ir)) <= blockLen ir.
Proof.
  intros H. unfold blockLen. rewrite !(u32_small (Z.of_nat _)), u32_small by lia.
  destruct (Z.ltb_spec (Z.of_nat (length (bl_code ir)) * 2) (u32 (exitPc ir - bl_entryPc ir))); lia.
Qed.

(** A write into the block is on record, or everything is to be dropped. *)
Definition pending (s : Engine) (ir : BlockIr) : Prop :=
  mustFlush (e_guard s) = true \/
  exists p a c, filed ir p (pages s) /\ a <= blockHi ir /\ blockLo ir <= c /\
                reported (e_guard s) p a c.

Record BytesOk (ram : Z) (s : Engine) : Prop := {
  by_ram : 0 <= ram <= 256 * pages s;
  by_block : forall k b, e_blocks s !! k = Some b ->
    blockLo (b_ir b) + blockLen (b_ir b) <= ram ->
    current (e_mem s) (b_ir b) \/ pending s (b_ir b)
}.

(** ** All of it *)

Record Coherent (cfg : Config) (linkEntry : Z -> option Z) (s : Engine) : Prop := {
  co_blocks : BlocksOk s;
  co_index : IndexOk s;
  co_pages : PagesOk s;
  co_tlb : TlbOk cfg s;
  co_dispatch : DispatchOk s;
  co_shift : ShiftOk s;
  co_links : LinksOk linkEntry s;
  co_window : WindowOk s;
  co_idle : IdleOk s;
  co_bytes : BytesOk (cf_ram cfg) s
}.

(** An operation on a field that no facet reads. *)
Ltac inert HC :=
  let HB := fresh in let HI := fresh in let HP := fresh in let HT := fresh in
  let HD := fresh in let HS := fresh in let HL := fresh in let HW := fresh in
  let Hd := fresh in let Hb := fresh in
  destruct HC as [HB HI HP HT HD HS HL HW Hd Hb];
  split; [reuse HB|reuse HI|reuse HP|reuse HT|reuse HD|reuse HS|reuse HL|reuse HW|reuse Hd|reuse Hb].
