(* ===== verification/JitLinkFacts.v ===== *)
(** * JitLinkFacts: links lead only where they may

    Publishing, retracting and clearing links, and binding an edge cell, with
    respect to any set of permitted targets. *)

From S2P Require Import Prelude.
From S2P Require Import JitTypes.
From S2P Require Import JitGuard.
From S2P Require Import JitShiftVersions.
From S2P Require Import JitDispatchCache.
From S2P Require Import JitEngineState.
From S2P Require Import JitBlockCache.
From S2P Require Import JitGuest.
From S2P Require Import JitTurn.
From S2P Require Import JitIndexFacts.
From S2P Require Import JitGuardFacts.
From S2P Require Import JitCoherence.
From stdpp Require Import base list numbers option decidable gmap sets.

Open Scope Z_scope.

Lemma foldl_insert {A} (v : A) (l : list Z) : forall (m : gmap Z A) k,
  foldl (fun m i => <[i := v]> m) m l !! k = if decide (k ∈ l) then Some v else m !! k.
Proof.
  induction l as [|i l IH]; intros m k; cbn [foldl].
  - by rewrite decide_False by apply not_elem_of_nil.
  - rewrite IH. destruct (decide (k = i)) as [->|Hn].
    + rewrite lookup_insert_eq, (decide_True (P := i ∈ i :: l)) by set_solver.
      by destruct (decide (i ∈ l)).
    + rewrite lookup_insert_ne by done.
      destruct (decide (k ∈ l)); [rewrite decide_True|rewrite decide_False]; set_solver.
Qed.

Lemma LinksAt_mono (T T' : Z -> Z -> Prop) s s' :
  e_links s' = e_links s -> e_published s' = e_published s ->
  e_cells s' = e_cells s -> e_publishedCells s' = e_publishedCells s ->
  (forall k e, T k e -> T' k e) -> LinksAt T s -> LinksAt T' s'.
Proof.
  intros E1 E2 E3 E4 HT [H1 H2 H3 H4]. unfold linkSlot in *.
  split; unfold linkSlot; rewrite ?E1, ?E2, ?E3, ?E4; try done.
  - intros i e He. destruct (H1 i e He) as (pc & super & ? & ? & ? & ?). eauto 10.
  - eauto.
Qed.

Lemma linkSlot_insert i v s j :
  linkSlot (set_links (<[i := v]> (e_links s)) s) j = if decide (j = i) then v else linkSlot s j.
Proof.
  unfold linkSlot. cbn. destruct (decide (j = i)) as [->|];
    [by rewrite lookup_insert_eq|by rewrite lookup_insert_ne].
Qed.

(** ** Publishing *)

Lemma publishCell_links T k e s : T k e -> LinksAt T s -> LinksAt T (publishCell k e s).
Proof.
  intros HT [H1 H2 H3 H4]. unfold publishCell. destruct (e_cells s !! k) as [c|] eqn:E;
    [|by split]. destruct (H4 k c E) as [_ H5].
  destruct (c_listed c) eqn:L; split; try done; cbn.
  1,3: intros k' c' e' Hc Hce; apply lookup_insert_Some in Hc as [[<- <-]|[? Hc]];
    [by injection Hce as <-|eauto].
  all: intros k' c' Hc.
  - apply lookup_insert_Some in Hc as [[<- <-]|[? Hc]]; [by split; [|intros _; apply H5]|eauto].
  - apply lookup_insert_Some in Hc as [[<- <-]|[? Hc]]; [split; [done|set_solver]|].
    destruct (H4 k' c' Hc). split; [done|set_solver].
Qed.

Lemma publishLink_links T pc super e s : 0 <= pc < 4294967296 -> T (key pc super) e ->
  LinksAt T s -> LinksAt T (publishLink pc super e s).
Proof.
  intros Hpc HT H. unfold publishLink. apply publishCell_links; [done|].
  set (s1 := if l_tag (linkSlot s (linkIndex pc)) =? kNoLink
             then set_published (e_published s ++ [linkIndex pc]) s else s).
  assert (E : e_links s1 = e_links s /\ e_cells s1 = e_cells s /\
              e_publishedCells s1 = e_publishedCells s) by (unfold s1; by destruct (_ =? _)).
  destruct E as (E1 & E3 & E4). destruct H as [H1 H2 H3 H4].
  assert (Es : forall j, linkSlot s1 j = linkSlot s j) by (intros j; unfold linkSlot; by rewrite E1).
  split; try (cbn; rewrite ?E3, ?E4; done).
  - intros j e'. rewrite linkSlot_insert, Es. destruct (decide (j = linkIndex pc)) as [->|]; [|apply H1].
    cbn. intros [= <-]. eauto 10.
  - intros j. rewrite linkSlot_insert, Es. cbn.
    destruct (decide (j = linkIndex pc)) as [->|Hn].
    + intros _. unfold s1. destruct (Z.eqb_spec (l_tag (linkSlot s (linkIndex pc))) kNoLink) as [|Hne]; cbn; [set_solver|].
      apply H2. by left.
    + intros Hj%H2. unfold s1. destruct (_ =? _); cbn; set_solver.
Qed.

(** ** Retracting *)

Lemma retractLink_links T pc super s : 0 <= pc < 4294967296 -> LinksAt T s ->
  LinksAt (fun k e => T k e /\ k <> key pc super) (retractLink pc super s).
Proof.
  intros Hpc [H1 H2 H3 H4]. unfold retractLink.
  set (s1 := if l_tag (linkSlot s (linkIndex pc)) =? linkTag pc super
             then set_links (<[linkIndex pc := LinkSlot0]> (e_links s)) s else s).
  assert (E : e_published s1 = e_published s /\ e_cells s1 = e_cells s /\
              e_publishedCells s1 = e_publishedCells s) by (unfold s1; by destruct (_ =? _)).
  destruct E as (E2 & E3 & E4).
  assert (L1 : forall j, linkSlot s1 j = LinkSlot0 \/ linkSlot s1 j = linkSlot s j /\
                 (j = linkIndex pc -> l_tag (linkSlot s j) <> linkTag pc super)).
  { intros j. unfold s1. destruct (Z.eqb_spec (l_tag (linkSlot s (linkIndex pc))) (linkTag pc super)).
    - rewrite linkSlot_insert. destruct (decide (j = linkIndex pc)); [by left|by right].
    - right. split; [done|]. by intros ->. }
  assert (HS : forall s2, e_links s2 = e_links s1 -> e_published s2 = e_published s1 ->
    (forall i e, l_entry (linkSlot s2 i) = Some e -> exists pc' super',
       0 <= pc' < 4294967296 /\ i = linkIndex pc' /\ l_tag (linkSlot s2 i) = linkTag pc' super' /\
       (T (key pc' super') e /\ key pc' super' <> key pc super)) /\
    (forall i, l_tag (linkSlot s2 i) <> kNoLink \/ l_entry (linkSlot s2 i) <> None ->
       i ∈ e_published s2)).
  { intros s2 F1 F2. assert (Fs : forall j, linkSlot s2 j = linkSlot s1 j)
      by (intros j; unfold linkSlot; by rewrite F1).
    rewrite F2, E2. split; intros i; rewrite !Fs; destruct (L1 i) as [->|[-> Ht]]; try done.
    - intros e He. destruct (H1 i e He) as (pc' & super' & ? & Ei & Et & ?).
      exists pc', super'. do 4 (split; [done|]). intros Ek.
      apply key_inj in Ek as [-> ->]; [|done|done]. by apply Ht.
    - intros [?|?]; done.
    - apply H2. }
  unfold retractCell. rewrite E3. destruct (e_cells s !! key pc super) as [c|] eqn:Ec.
  - destruct (HS (set_cells (<[key pc super := mkCell None (c_listed c)]> (e_cells s1)) s1))
      as [S1 S2]; [done|done|]. rewrite E3 in S1, S2. split; [exact S1|exact S2| |]; cbn.
    + intros k c' e Hc Hce. apply lookup_insert_Some in Hc as [[<- <-]|[? Hc]]; [done|]. eauto.
    + intros k c' Hc. rewrite E4. apply lookup_insert_Some in Hc as [[<- <-]|[? Hc]]; [|eauto].
      split; [done|]. cbn. by apply (H4 _ c Ec).
  - destruct (HS s1) as [S1 S2]; [done|done|]. split; [exact S1|exact S2| |]; rewrite ?E3, ?E4; [|eauto].
    intros k c' e Hc Hce. split; [eauto|]. intros ->. congruence.
Qed.

(** ** Clearing *)

Lemma clearLinks_links T T' s : LinksAt T s -> LinksAt T' (clearLinks s).
Proof.
  intros [H1 H2 H3 H4].
  assert (L : forall j, linkSlot (clearLinks s) j = LinkSlot0).
  { intros j. unfold linkSlot, clearLinks. cbn. rewrite foldl_insert.
    destruct (decide (j ∈ e_published s)) as [|Hn]; [done|].
    change (default LinkSlot0 (e_links s !! j)) with (linkSlot s j).
    specialize (H2 j). destruct (linkSlot s j) as [t en] eqn:E. cbn in H2.
    destruct (decide (t = kNoLink)) as [->|]; [|naive_solver].
    destruct en; [|done]. exfalso. apply Hn, H2. by right. }
  assert (C : forall k c, e_cells (clearLinks s) !! k = Some c -> c_entry c = None /\ c_listed c = false).
  { intros k c. unfold clearLinks. cbn. rewrite foldl_insert.
    destruct (decide (k ∈ e_publishedCells s)); [by intros [= <-]|]. intros Hc.
    destruct (H4 k c Hc) as [Ha Hb]. destruct (c_listed c) eqn:El; [by specialize (Hb eq_refl)|].
    destruct (c_entry c); [|done]. by specialize (Ha ltac:(done)). }
  split.
  - intros i e. by rewrite L.
  - intros i. rewrite L. by intros [?|?].
  - intros k c e Hc. by destruct (C k c Hc) as [-> _].
  - intros k c Hc. destruct (C k c Hc) as [-> ->]. done.
Qed.

(** ** Edge cells *)

Lemma LinksAt_newCell T k s : e_cells s !! k = None -> LinksAt T s ->
  LinksAt T (set_cells (<[k := mkCell None false]> (e_cells s)) s).
Proof.
  intros Hk [H1 H2 H3 H4]. split; [done|done| |]; cbn.
  - intros k' c e Hc Hce. apply lookup_insert_Some in Hc as [[<- <-]|[? Hc]]; [done|eauto].
  - intros k' c Hc. apply lookup_insert_Some in Hc as [[<- <-]|[? Hc]]; [done|eauto].
Qed.

Lemma LinksAt_bindCell (T : Z -> Z -> Prop) k c entry s : e_cells s !! k = Some c ->
  (forall e, entry = Some e -> T k e) -> c_entry c = None -> LinksAt T s ->
  LinksAt T (let listed := c_listed c || bool_decide (is_Some entry) in
             let s := set_cells (<[k := mkCell entry listed]> (e_cells s)) s in
             if bool_decide (is_Some entry) && negb (c_listed c)
             then set_publishedCells (e_publishedCells s ++ [k]) s else s).
Proof.
  intros Hk HT Hc [H1 H2 H3 H4]. destruct (H4 k c Hk) as [_ H5]. cbv zeta.
  destruct entry as [e|]; cbn.
  - rewrite orb_true_r. destruct (c_listed c) eqn:L; cbn; split; try done; cbn.
    1,3: intros k' c' e' Hc' Hce; apply lookup_insert_Some in Hc' as [[<- <-]|[? Hc']];
      [injection Hce as <-; by apply HT|eauto].
    all: intros k' c' Hc'.
    + apply lookup_insert_Some in Hc' as [[<- <-]|[? Hc']]; [by split; [|intros _; apply H5]|eauto].
    + apply lookup_insert_Some in Hc' as [[<- <-]|[? Hc']]; [split; [done|set_solver]|].
      destruct (H4 k' c' Hc'). split; [done|set_solver].
  - rewrite orb_false_r. split; try done; cbn; intros k' c'.
    + intros e Hc' Hce. apply lookup_insert_Some in Hc' as [[<- <-]|[? Hc']]; [done|eauto].
    + intros Hc'. apply lookup_insert_Some in Hc' as [[<- <-]|[? Hc']]; [split; [done|apply H5]|eauto].
Qed.

(** A cell is bound only to code of a live plain block of this generation. *)
Lemma linkCell_links linkEntry pc super s : 0 <= pc < 4294967296 -> BlocksOk s ->
  LinksOk linkEntry s -> LinksOk linkEntry (linkCell linkEntry pc super s).
Proof.
  intros Hpc HB H. unfold linkCell. set (k := key pc super).
  set (s1 := match e_cells s !! k with None => _ | Some _ => s end).
  assert (E : e_blocks s1 = e_blocks s /\ e_blocksGen s1 = e_blocksGen s)
    by (unfold s1; by destruct (e_cells s !! k)). destruct E as [E1 E2].
  assert (HT : forall k e, target linkEntry s k e -> target linkEntry s1 k e)
    by (unfold target; by rewrite E1, E2).
  assert (H1 : LinksAt (target linkEntry s1) s1).
  { unfold s1. destruct (e_cells s !! k) eqn:Ek; [done|]. by apply LinksAt_newCell. }
  clearbody s1. destruct (e_cells s1 !! k) as [c|] eqn:Ec; [|done].
  destruct (c_entry c) eqn:Een; [done|].
  destruct (e_blocks s1 !! k) as [b|] eqn:Eb; [|done]. cbn.
  destruct (Z.eqb_spec (b_gen b) (e_blocksGen s1)) as [Eg|]; [|done].
  destruct (b_code b) as [code|] eqn:Eco; [|done].
  assert (Hv : b_shiftVersion b = plainVersion).
  { rewrite E1 in Eb. destruct (bk_wf _ HB k b Eb) as (Hr & [[? ?]|[Hv Ek]]); [done|].
    exfalso. destruct (version_key _ _ (key_range _ (bl_super (b_ir b)) Hr) Hv) as [V _].
    rewrite <- Ek in V. destruct (plain_key k) as [P _]; [by apply key_range|]. congruence. }
  set (s2 := if bool_decide (is_Some (linkEntry code)) && negb (c_listed c) then _ else _).
  assert (E : e_blocks s2 = e_blocks s1 /\ e_blocksGen s2 = e_blocksGen s1)
    by (unfold s2; by destruct (_ && _)). destruct E as [F1 F2].
  assert (H2 : LinksAt (target linkEntry s1) s2).
  { apply LinksAt_bindCell; [done| |done|done]. intros e He. exists b, code. auto. }
  apply (LinksAt_mono (target linkEntry s1) _ s2); try done. unfold target. by rewrite F1, F2.
Qed.
