(* ===== verification/JitDispatchFacts.v ===== *)
(** * JitDispatchFacts: the dispatch cache and the version masks follow the block map *)

From S2P Require Import Prelude.
From S2P Require Import JitTypes.
From S2P Require Import JitGuard.
From S2P Require Import JitShiftVersions.
From S2P Require Import JitDispatchCache.
From S2P Require Import JitEngineState.
From S2P Require Import JitBlockCache.
From S2P Require Import JitGuest.
From S2P Require Import JitTurn.
From S2P Require Import JitIndexFacts.
From S2P Require Import JitGuardFacts.
From S2P Require Import JitCoherence.
From stdpp Require Import base list numbers option decidable gmap sets.

Open Scope Z_scope.

(** ** Dispatch cache *)

Lemma land_below x m : 0 <= m -> 0 <= x .& m <= m.
Proof.
  intros Hm. split; [apply Z.land_nonneg; lia|].
  destruct (Z.eq_dec (x .& m) 0) as [->|]; [done|].
  apply Z.ldiff_le; [done|]. apply Z.bits_inj'. intros j Hj.
  rewrite Z.ldiff_spec, Z.land_spec, Z.bits_0. by destruct (Z.testbit x j), (Z.testbit m j).
Qed.

Lemma slot_range s k : DispatchOk s ->
  0 <= slotOf (e_dispatch s) k < Z.of_nat (length (entries_ (e_dispatch s))).
Proof.
  intros [Hm _]. unfold slotOf, index.
  pose proof (land_below ((u32 k .>> 1) .^ ((if (k .>> 32) .& 1 <>? 0 then 1 else 0) .<< 11))
    (mask_ (e_dispatch s))). lia.
Qed.

Lemma rd_nonneg {A} (l : list A) i e : rd l i = Some e -> 0 <= i.
Proof. intros H. apply rd_lt in H. lia. Qed.

(** Pointers of the first state that are still good in the second, but for the
    node at [k]. *)
Definition derefBut (k : Z) (s s' : Engine) : Prop :=
  forall p, p_key p <> k -> is_Some (deref s p) -> is_Some (deref s' p).

Lemma derefBut_lookup k s s' :
  (forall k' b, k' <> k -> e_blocks s !! k' = Some b ->
     exists b', e_blocks s' !! k' = Some b' /\ b_node b' = b_node b) -> derefBut k s s'.
Proof.
  intros H p Hp. unfold deref. destruct (e_blocks s !! p_key p) as [b|] eqn:E; [|by intros []].
  destruct (H _ _ Hp E) as (b' & -> & En). cbn. rewrite En. by destruct (_ =? _).
Qed.

Lemma evict_dispatch k s s' : DispatchOk s -> derefBut k s s' ->
  e_dispatch s' = evict k (e_dispatch s) -> DispatchOk s'.
Proof.
  intros H HD E. assert (Hr := slot_range s k H). destruct H as [Hm He].
  assert (Old : forall i e, rd (entries_ (e_dispatch s)) i = Some e ->
            (en_block e = None \/ en_key e <> k) -> mask_ (e_dispatch s') = mask_ (e_dispatch s) ->
            entryOk s' i e).
  { intros i e Hi Hk Em. specialize (He i e Hi). unfold entryOk, slotOf, index in *. rewrite Em.
    destruct (en_block e) as [p|]; [|done]. destruct He as (Ep & ? & ? & ?), Hk as [|Hk]; [done|].
    do 3 (split; [done|]). apply HD; congruence. }
  unfold evict in E. destruct (isVersionKey k) eqn:V.
  - split; rewrite E; [done|]. intros i e Hi. apply Old; [done| |by rewrite E].
    specialize (He i e Hi). unfold entryOk in He. destruct (en_block e); [right|by left].
    intros <-. destruct He as (_ & _ & ? & _). congruence.
  - destruct (rd_Some _ _ Hr) as [e0 H0]. rewrite H0 in E.
    destruct (Z.eqb_spec (en_key e0) k) as [Ek|Ek]; split; rewrite E; cbn; rewrite ?wr_length; try done.
    + intros i e Hi. rewrite rd_wr in Hi by (done || by eapply rd_nonneg).
      destruct (Z.eqb_spec i (slotOf (e_dispatch s) k)); [by injection Hi as <-|].
      apply Old; [done| |by rewrite E]. specialize (He i e Hi). unfold entryOk in He.
      destruct (en_block e); [right|by left]. intros <-. naive_solver.
    + intros i e Hi. apply Old; [done| |by rewrite E]. assert (Hi' := He i e Hi). unfold entryOk in Hi'.
      destruct (en_block e); [right|by left]. intros <-. destruct Hi' as (_ & Es & _). congruence.
Qed.

Lemma DispatchOk_ext s s' : DispatchOk s -> (forall p, is_Some (deref s p) -> is_Some (deref s' p)) ->
  entries_ (e_dispatch s') = entries_ (e_dispatch s) -> mask_ (e_dispatch s') = mask_ (e_dispatch s) ->
  DispatchOk s'.
Proof.
  intros [Hm He] HD E1 E2. split; rewrite ?E1, ?E2; [done|].
  intros i e Hi. specialize (He i e Hi). unfold entryOk, slotOf, index in *. rewrite E2.
  destruct (en_block e) as [p|]; [|done]. destruct He as (? & ? & ? & ?). auto.
Qed.

Lemma fill_dispatch k b s : DispatchOk s -> isVersionKey k = false ->
  e_blocks s !! k = Some b ->
  DispatchOk (set_dispatch (fill k (ptrTo k b) (e_dispatch s)) s).
Proof.
  intros H Hv Hb. assert (Hr := slot_range s k H). destruct H as [Hm He].
  split; cbn; rewrite ?wr_length; [done|]. intros i e Hi.
  rewrite rd_wr in Hi by (done || by eapply rd_nonneg).
  destruct (Z.eqb_spec i (slotOf (e_dispatch s) k)) as [->|]; [|exact (He i e Hi)].
  injection Hi as <-. unfold entryOk. cbn. do 3 (split; [done|]).
  unfold deref. cbn. rewrite Hb. cbn. by rewrite Z.eqb_refl.
Qed.

Lemma clear_dispatch s s' : DispatchOk s ->
  e_dispatch s' = clearDispatch (e_dispatch s) -> DispatchOk s'.
Proof.
  intros [Hm _] E. split; rewrite E; cbn; rewrite ?length_fmap; [done|].
  intros i e Hi. assert (Forall (fun e => e = Entry0) ((fun _ => Entry0) <$> entries_ (e_dispatch s))) as F.
  { apply Forall_fmap, Forall_true. done. }
  by rewrite (rd_Forall _ _ _ _ F Hi).
Qed.

(** What [lookup] answers: a live block of the asked generation, or a miss; a
    bad read is possible only for the key that a cold slot shows. *)
Lemma lookupBlock_cases s k gen r d : DispatchOk s ->
  lookupBlock (fun p => b_gen <$> deref s p) k gen (e_dispatch s) = (r, d) ->
  entries_ d = entries_ (e_dispatch s) /\ mask_ d = mask_ (e_dispatch s) /\
  match r with
  | Found p => p_key p = k /\ isVersionKey k = false /\
               exists b, deref s p = Some b /\ b_gen b = gen
  | Cold => True
  | Fault => k = 0
  end.
Proof.
  intros H. assert (Hr := slot_range s k H). destruct H as [Hm He].
  unfold lookupBlock. destruct (rd_Some _ _ Hr) as [e E]. rewrite E.
  specialize (He _ _ E). unfold entryOk in He.
  destruct (Z.eqb_spec (en_key e) k) as [Ek|]; cbn; [|by intros [= <- <-]].
  destruct (en_block e) as [p|]; [|intros [= <- <-]; by rewrite <- Ek].
  destruct He as (Ep & _ & Hv & [b Hb]). rewrite Hb. cbn.
  destruct (Z.eqb_spec (b_gen b) gen); cbn; intros [= <- <-]; [|done].
  do 2 (split; [done|]). split; [congruence|]. split; [congruence|]. eauto.
Qed.

(** ** Version masks *)

Lemma mask_zero m : 0 <= m < 4294967296 ->
  (forall v, 0 <= v < 32 -> Z.testbit m v = false) -> m = 0.
Proof.
  intros Hm H. apply Z.bits_inj'. intros j Hj. rewrite Z.bits_0.
  destruct (Z.lt_ge_cases j 32); [by apply H|].
  apply Z.testbit_false; [done|]. rewrite Z.div_small; [done|].
  split; [lia|]. apply Z.lt_le_trans with (2 ^ 32); [lia|]. apply Z.pow_le_mono_r; lia.
Qed.

Lemma version_site s base v : ShiftOk s -> 0 <= base < 8589934592 -> 0 <= v < 32 ->
  is_Some (e_blocks s !! versionKey base v) -> is_Some (masks_ (e_shift s) !! base).
Proof.
  intros H Hb Hv Hl. apply (sh_mask _ H base v Hb Hv) in Hl. unfold siteMask in Hl.
  destruct (masks_ (e_shift s) !! base); [done|]. cbn in Hl. by rewrite Z.bits_0 in Hl.
Qed.

Lemma prune_shift k alive s : ShiftOk s -> ShiftOk (set_shift (prune k alive (e_shift s)) s).
Proof.
  intros H. unfold prune. destruct (_ && _) eqn:E; [|by destruct H].
  apply andb_true_iff in E as [E _]. apply bool_decide_eq_true in E.
  destruct (H) as [H1 H2 H3]. split; [done| |done]. cbn. intros base v Hb Hv Hl.
  apply elem_of_difference. split; [by eapply H2|]. intros ->%elem_of_singleton.
  destruct (version_site s _ v H Hb Hv Hl) as [m Hm]. congruence.
Qed.

Lemma bit_value v : 0 <= v < 32 -> u32 (1 .<< v) = 2 ^ v.
Proof.
  intros Hv. rewrite Z.shiftl_1_l. apply u32_small. split; [lia|].
  apply (Z.pow_lt_mono_r 2 v 32); lia.
Qed.

Lemma pow2_bit v j : 0 <= v -> Z.testbit (2 ^ v) j = bool_decide (v = j).
Proof.
  intros Hv. case_bool_decide as E; [subst; by apply Z.pow2_bits_true|].
  by apply Z.pow2_bits_false.
Qed.

Lemma siteMask_insert base m b c :
  siteMask b (set_masks (<[base := m]> (masks_ c)) c) = if decide (b = base) then m else siteMask b c.
Proof.
  unfold siteMask. cbn. destruct (decide (b = base)) as [->|];
    [by rewrite lookup_insert_eq|by rewrite lookup_insert_ne].
Qed.

(** Forgetting a version clears its bit and no other. *)
Lemma forget_mask base v c b : 0 <= base < 8589934592 -> 0 <= v < 32 ->
  siteMask b (forget (versionKey base v) c) =
  if decide (b = base) then Z.ldiff (siteMask b c) (2 ^ v) else siteMask b c.
Proof.
  intros Hb Hv. destruct (version_key base v Hb Hv) as (E1 & E2 & E3).
  unfold forget. rewrite E1, E2, E3, bit_value by done. cbn [negb].
  destruct (masks_ c !! base) as [m|] eqn:E.
  - destruct (Z.eqb_spec (Z.ldiff m (2 ^ v)) 0) as [E0|]; [|rewrite siteMask_insert].
    + unfold siteMask. cbn. destruct (decide (b = base)) as [->|].
      * rewrite lookup_delete_eq, E. by rewrite <- E0.
      * by rewrite lookup_delete_ne.
    + destruct (decide (b = base)) as [->|]; [|done]. unfold siteMask. by rewrite E.
  - destruct (decide (b = base)) as [->|]; [|done]. unfold siteMask. by rewrite E.
Qed.

Lemma forget_bits base v c b m : 0 <= base < 8589934592 -> 0 <= v < 32 ->
  (forall b m, masks_ c !! b = Some m -> 0 < m < 4294967296) ->
  masks_ (forget (versionKey base v) c) !! b = Some m -> 0 < m < 4294967296.
Proof.
  intros Hb Hv H. destruct (version_key base v Hb Hv) as (E1 & E2 & E3).
  unfold forget. rewrite E1, E2, E3, bit_value by done. cbn [negb].
  destruct (masks_ c !! base) as [m0|] eqn:E; [|apply H].
  specialize (H base m0 E) as Hm0.
  assert (0 <= Z.ldiff m0 (2 ^ v) <= m0).
  { rewrite Z.ldiff_land. rewrite Z.land_comm.
    apply land_below. lia. }
  cbn. destruct (Z.eqb_spec (Z.ldiff m0 (2 ^ v)) 0).
  - intros [_ Hl]%lookup_delete_Some. by eapply H.
  - intros [[<- <-]|[_ Hl]]%lookup_insert_Some; [lia|by eapply H].
Qed.

Lemma forget_sites k c : sites_ (forget k c) = sites_ c.
Proof. unfold forget. destruct (negb _); [done|]. by destruct (masks_ c !! _). Qed.

Lemma forget_plain k c : isVersionKey k = false -> forget k c = c.
Proof. intros E. unfold forget. by rewrite E. Qed.

(** Erasing a block: its version, if it is one, goes with it. *)
Lemma erase_shift k b s : ShiftOk s -> blockWf k b ->
  ShiftOk (set_shift (forget k (e_shift s)) (set_blocks (delete k (e_blocks s)) s)).
Proof.
  intros [H1 H2 H3] (Hr & Hk). set (base := key _ _) in Hk.
  assert (Hbase : 0 <= base < 8589934592) by (by apply key_range).
  destruct Hk as [[Hv ->]|[Hv ->]].
  - destruct (plain_key base Hbase) as [P _].
    assert (Hne : forall b v, 0 <= b < 8589934592 -> 0 <= v < 32 -> base <> versionKey b v).
    { intros b' v Hb' Hv'. destruct (version_key b' v Hb' Hv') as [E _]. congruence. }
    rewrite forget_plain by done. split; cbn; [| |done]; intros b' v Hb' Hv';
      rewrite lookup_delete_ne by auto; [by apply H1|by eapply H2].
  - split; cbn.
    + intros b' v' Hb' Hv'. rewrite forget_mask by done.
      destruct (decide (b' = base)) as [->|Hn].
      * rewrite Z.ldiff_spec, pow2_bit by lia. case_bool_decide as E; cbn.
        -- subst v'. rewrite andb_false_r, lookup_delete_eq. split; [done|by intros []].
        -- rewrite andb_true_r, lookup_delete_ne; [by apply H1|].
           intros []%versionKey_inj; done.
      * rewrite lookup_delete_ne; [by apply H1|]. intros []%versionKey_inj; done.
    + intros b' v' Hb' Hv' [x [_ Hl]%lookup_delete_Some]. rewrite forget_sites. by eapply H2.
    + intros b' m. by apply forget_bits.
Qed.

(** Filing a block: a version sets its bit. *)
Lemma insert_shift k b adm s : ShiftOk s -> blockWf k b ->
  ad_baseKey adm = key (bl_entryPc (b_ir b)) (bl_super (b_ir b)) ->
  ad_version adm = b_shiftVersion b ->
  (b_shiftVersion b <> plainVersion -> ad_baseKey adm ∈ sites_ (e_shift s)) ->
  ShiftOk (set_shift (commit adm (e_shift s)) (set_blocks (<[k := b]> (e_blocks s)) s)).
Proof.
  intros [H1 H2 H3] (Hr & Hk) Eb Ev Hs. rewrite <- Eb in Hk.
  assert (Hbase : 0 <= ad_baseKey adm < 8589934592) by (rewrite Eb; by apply key_range).
  unfold commit. rewrite Ev. destruct Hk as [[Hv ->]|[Hv ->]].
  - rewrite Hv. cbn. destruct (plain_key (ad_baseKey adm) Hbase) as [P _].
    assert (Hne : forall b v, 0 <= b < 8589934592 -> 0 <= v < 32 -> ad_baseKey adm <> versionKey b v).
    { intros b' v Hb' Hv'. destruct (version_key b' v Hb' Hv') as [E _]. congruence. }
    split; cbn; [| |done]; intros b' v Hb' Hv';
      rewrite lookup_insert_ne by auto; [by apply H1|by eapply H2].
  - destruct (Z.eqb_spec (b_shiftVersion b) 0xFF) as [|Hne]; [lia|]. cbn [negb].
    rewrite bit_value by done. specialize (Hs Hne). split; cbn.
    + intros b' v' Hb' Hv'. rewrite siteMask_insert. destruct (decide (b' = ad_baseKey adm)) as [->|Hn].
      * rewrite Z.lor_spec, pow2_bit by lia. case_bool_decide as E; cbn.
        -- subst v'. by rewrite orb_true_r, lookup_insert_eq.
        -- rewrite orb_false_r, lookup_insert_ne; [by apply H1|]. intros []%versionKey_inj; done.
      * rewrite lookup_insert_ne; [by apply H1|]. intros []%versionKey_inj; done.
    + intros b' v' Hb' Hv' [x Hl]. apply lookup_insert_Some in Hl as [[E _]|[_ Hl]].
      * by apply versionKey_inj in E as [<- _].
      * by eapply H2.
    + intros b' m [[<- <-]|[_ Hl]]%lookup_insert_Some; [|by eapply H3].
      assert (Hm : 0 <= siteMask (ad_baseKey adm) (e_shift s) < 4294967296).
      { unfold siteMask. destruct (masks_ (e_shift s) !! ad_baseKey adm) eqn:E; cbn; [|done].
        apply H3 in E. lia. }
      assert (2 ^ b_shiftVersion b < 2 ^ 32) by (apply Z.pow_lt_mono_r; lia).
      assert (0 < 2 ^ b_shiftVersion b) by (apply Z.pow_pos_nonneg; lia).
      change 4294967296 with (2 ^ 32) in *.
      assert (Hpos : 0 < siteMask (ad_baseKey adm) (e_shift s) .| 2 ^ b_shiftVersion b).
      { assert (0 <= siteMask (ad_baseKey adm) (e_shift s) .| 2 ^ b_shiftVersion b)
          by (apply Z.lor_nonneg; lia).
        assert (siteMask (ad_baseKey adm) (e_shift s) .| 2 ^ b_shiftVersion b <> 0); [|lia].
        intros E%Z.lor_eq_0_iff. lia. }
      split; [done|]. apply Z.log2_lt_pow2; [done|].
      rewrite Z.log2_lor, Z.log2_pow2 by lia. apply Z.max_lub_lt; [|lia].
      destruct (Z.eq_dec (siteMask (ad_baseKey adm) (e_shift s)) 0) as [->|]; [done|].
      apply Z.log2_lt_pow2; lia.
Qed.
