(* ===== verification/JitEraseFacts.v ===== *)
(** * JitEraseFacts: every way of dropping blocks keeps the cache coherent

    Erasing one block, capacity eviction, guard-driven eviction and the flush. *)

From S2P Require Import Prelude.
From S2P Require Import JitTypes.
From S2P Require Import JitGuard.
From S2P Require Import JitShiftVersions.
From S2P Require Import JitDispatchCache.
From S2P Require Import JitEngineState.
From S2P Require Import JitBlockCache.
From S2P Require Import JitGuest.
From S2P Require Import JitTurn.
From S2P Require Import JitGuardFacts.
From S2P Require Import JitIndexFacts.
From S2P Require Import JitCoherence.
From S2P Require Import JitLinkFacts.
From S2P Require Import JitDispatchFacts.
From stdpp Require Import base list numbers option decidable gmap sets.

Open Scope Z_scope.

(** The engine with everything an erase may touch blanked. *)
Definition blankE (s : Engine) : Engine :=
  set_codes ∅ (set_blocks ∅ (set_dispatch DispatchCache0 (set_shift ShiftVersionCache0 (blank s)))).

Lemma blankE_blank s s' : blank s' = blank s -> blankE s' = blankE s.
Proof. unfold blankE. by intros ->. Qed.

Lemma blankE_erase k b s : blankE (eraseBlock k b s) = blankE s.
Proof.
  unfold eraseBlock. cbv zeta.
  change (blankE (unmarkPages k (blockLo (b_ir b)) (blockLen (b_ir b)) (release (b_code b) s)) =
          blankE s).
  rewrite (blankE_blank _ _ (blank_unmarkPages _ _ _ _)). unfold release. by destruct (b_code b).
Qed.

(** What no erase changes. *)
Record Kept (s s' : Engine) : Prop := {
  kp_mem : e_mem s' = e_mem s;
  kp_guard : e_guard s' = e_guard s;
  kp_window : e_window s' = e_window s;
  kp_winPhys : e_winPhys s' = e_winPhys s;
  kp_winLen : e_winLen s' = e_winLen s;
  kp_enabled : e_enabled s' = e_enabled s;
  kp_running : e_running s' = e_running s;
  kp_pending : e_pendingFlush s' = e_pendingFlush s;
  kp_blocksGen : e_blocksGen s' = e_blocksGen s;
  kp_mmuGen : e_mmuGen s' = e_mmuGen s;
  kp_nodes : e_nodes s' = e_nodes s;
  kp_epoch : e_epoch s' = e_epoch s
}.

Lemma Kept_trans s1 s2 s3 : Kept s1 s2 -> Kept s2 s3 -> Kept s1 s3.
Proof. intros [] []. split; congruence. Qed.

Lemma Kept_refl s : Kept s s.
Proof. by split. Qed.

Lemma erase_kept k b s : Kept s (eraseBlock k b s).
Proof.
  assert (F := blankE_erase k b s).
  split; [exact (f_equal e_mem F)|exact (f_equal e_guard F)|exact (f_equal e_window F)|
    exact (f_equal e_winPhys F)|exact (f_equal e_winLen F)|exact (f_equal e_enabled F)|
    exact (f_equal e_running F)|exact (f_equal e_pendingFlush F)|exact (f_equal e_blocksGen F)|
    exact (f_equal e_mmuGen F)|exact (f_equal e_nodes F)|exact (f_equal e_epoch F)].
Qed.

Lemma erase_blocks k b s : e_blocks (eraseBlock k b s) = delete k (e_blocks s).
Proof.
  unfold eraseBlock. cbv zeta.
  change (delete k (e_blocks (unmarkPages k (blockLo (b_ir b)) (blockLen (b_ir b))
    (release (b_code b) s))) = delete k (e_blocks s)).
  rewrite (blank_blocks _ _ (blank_unmarkPages _ _ _ _)). unfold release. by destruct (b_code b).
Qed.

Lemma erase_codes k b s :
  e_codes (eraseBlock k b s) = match b_code b with Some c => e_codes s ∖ {[c]} | None => e_codes s end.
Proof.
  unfold eraseBlock. cbv zeta.
  transitivity (e_codes (release (b_code b) s)); [exact (f_equal e_codes (blank_unmarkPages _ _ _ _))|].
  unfold release. by destruct (b_code b).
Qed.

Lemma erase_blocksOk k b s : BlocksOk s -> e_blocks s !! k = Some b -> BlocksOk (eraseBlock k b s).
Proof.
  intros [H1 H2 H3 H4 H5 H6] Hk.
  assert (En : e_nodes (eraseBlock k b s) = e_nodes s) by exact (f_equal e_nodes (blankE_erase k b s)).
  assert (Hc : forall c, c ∈ e_codes (eraseBlock k b s) <-> c ∈ e_codes s /\ b_code b <> Some c).
  { intros c. rewrite erase_codes. destruct (b_code b); set_solver. }
  split; rewrite ?erase_blocks, ?En.
  - intros k' b' [_ Hl]%lookup_delete_Some. auto.
  - intros k' b' [_ Hl]%lookup_delete_Some. eauto.
  - intros k' b' c [Hne Hl]%lookup_delete_Some Hb'. apply Hc. split; [by eapply H3|].
    intros Hb. apply Hne. by eapply H5.
  - intros c [Hin Hb]%Hc. destruct (H4 c Hin) as (k' & b' & Hl & Hb'). exists k', b'.
    split; [|done]. apply lookup_delete_Some. split; [|done]. intros <-. congruence.
  - intros k1 k2 b1 b2 c [_ L1]%lookup_delete_Some [_ L2]%lookup_delete_Some. eauto.
  - intros c [Hin _]%Hc. auto.
Qed.

Lemma ShiftOk_ext s s' : ShiftOk s -> e_shift s' = e_shift s -> e_blocks s' = e_blocks s ->
  ShiftOk s'.
Proof. intros [H1 H2 H3] E1 E2. split; rewrite ?E1, ?E2; done. Qed.

Lemma unmark_release {A} (f : Engine -> A) k b s :
  (forall s, f (blank s) = f s) -> (forall c, f (set_codes c s) = f s) ->
  f (unmarkPages k (blockLo (b_ir b)) (blockLen (b_ir b)) (release (b_code b) s)) = f s.
Proof.
  intros H1 H2. rewrite <- H1, blank_unmarkPages, H1. unfold release.
  by destruct (b_code b).
Qed.

Lemma erase_dispatch k b s : e_dispatch (eraseBlock k b s) = evict k (e_dispatch s).
Proof.
  unfold eraseBlock. cbv zeta. cbn [e_dispatch set_dispatch set_shift set_blocks].
  by rewrite (unmark_release e_dispatch).
Qed.

Lemma erase_shiftField k b s : e_shift (eraseBlock k b s) =
  prune k (bool_decide (is_Some (e_blocks (eraseBlock k b s) !! baseKey k))) (forget k (e_shift s)).
Proof.
  unfold eraseBlock at 1. cbv zeta. cbn [e_shift set_shift set_dispatch set_blocks].
  by rewrite (unmark_release e_shift).
Qed.

(** The index, the page maps and the data TLB after an erase. *)
Lemma erase_maps k b s : IndexOk s -> PagesOk s -> e_blocks s !! k = Some b ->
  let s' := eraseBlock k b s in
  IndexOk s' /\ PagesOk s' /\ shrinks s s' /\ pages s' = pages s.
Proof.
  intros HI HP Hk. destruct (erase_index k b (release (b_code b) s)) as (I1 & I2 & I3 & I4).
  { unfold release. destruct (b_code b); [reuse HI|exact HI]. }
  { unfold release. destruct (b_code b); [reuse HP|exact HP]. }
  { unfold release. destruct (b_code b); exact Hk. }
  assert (R : shrinks s (release (b_code b) s) /\ pages (release (b_code b) s) = pages s).
  { unfold release. destruct (b_code b); (split; [|reflexivity]); exact (shrinks_refl s). }
  destruct R as [R1 R2].
  split; [reuse I1|]. split; [reuse I2|].
  split; [exact (shrinks_trans _ _ _ R1 I3)|]. exact (eq_trans I4 R2).
Qed.

#[local] Opaque eraseBlock.

(** Erasing block [k], when no link leads to it. *)
Lemma erase_coherent cfg linkEntry k b s : Coherent cfg linkEntry s ->
  e_blocks s !! k = Some b ->
  LinksAt (fun k' e => target linkEntry s k' e /\ k' <> k) s ->
  Coherent cfg linkEntry (eraseBlock k b s) /\ pages (eraseBlock k b s) = pages s.
Proof.
  intros [HB HI HP HT HD HS HL HW Hid Hby] Hk HLk.
  assert (Eb := erase_blocks k b s).
  assert (K := erase_kept k b s).
  destruct (erase_maps k b s HI HP Hk) as (I1 & I2 & I3 & Ep).
  split; [|exact Ep]. split.
  - by apply erase_blocksOk.
  - exact I1.
  - exact I2.
  - exact (TlbOk_shrinks _ _ _ I3 HT).
  - apply (evict_dispatch k s); [done| |apply erase_dispatch].
    apply derefBut_lookup. intros k' b' Hne Hl. rewrite Eb. exists b'.
    by rewrite lookup_delete_ne.
  - assert (S1 := prune_shift k
      (bool_decide (is_Some (e_blocks (eraseBlock k b s) !! baseKey k))) _
      (erase_shift k b s HS (bk_wf _ HB k b Hk))).
    apply (ShiftOk_ext _ _ S1); [|exact Eb]. by rewrite erase_shiftField.
  - apply (LinksAt_mono (fun k' e => target linkEntry s k' e /\ k' <> k) _ s);
      [exact (f_equal e_links (blankE_erase k b s))|exact (f_equal e_published (blankE_erase k b s))|
       exact (f_equal e_cells (blankE_erase k b s))|
       exact (f_equal e_publishedCells (blankE_erase k b s))| |exact HLk].
    intros k' e [(b' & c & Hl & Hg & ?) Hne]. exists b', c.
    rewrite Eb, lookup_delete_ne, (kp_blocksGen _ _ K) by done. auto.
  - split. rewrite (kp_window _ _ K), (kp_winPhys _ _ K), (kp_winLen _ _ K), (kp_enabled _ _ K). apply HW.
  - split; rewrite ?(kp_enabled _ _ K), ?(kp_guard _ _ K); [|apply Hid|apply Hid].
    intros He. rewrite (id_blocks _ Hid He) in Hk. done.
  - destruct Hby as [Hr Hb]. split; [by rewrite Ep|]. intros k' b' Hl Hin. rewrite Eb in Hl.
    apply lookup_delete_Some in Hl as [_ Hl]. unfold pending.
    rewrite (kp_mem _ _ K), (kp_guard _ _ K), Ep. exact (Hb k' b' Hl Hin).
Qed.

(** ** Operations on the links alone *)

Definition relink (a : gmap Z LinkSlot) (b : list Z) (c : gmap Z LinkCell) (d : list Z)
    (s : Engine) : Engine :=
  set_publishedCells d (set_cells c (set_published b (set_links a s))).

(** [s'] differs from [s] at most in the link table and the cells. *)
Definition relinked (s s' : Engine) : Prop := exists a b c d, s' = relink a b c d s.

Lemma relinked_refl s : relinked s s.
Proof. exists (e_links s), (e_published s), (e_cells s), (e_publishedCells s). by destruct s. Qed.

Lemma relinked_trans s1 s2 s3 : relinked s1 s2 -> relinked s2 s3 -> relinked s1 s3.
Proof.
  intros (a & b & c & d & ->) (a' & b' & c' & d' & ->). exists a', b', c', d'. reflexivity.
Qed.

Lemma relinked_links a s : relinked s (set_links a s).
Proof. exists a, (e_published s), (e_cells s), (e_publishedCells s). by destruct s. Qed.
Lemma relinked_published a s : relinked s (set_published a s).
Proof. exists (e_links s), a, (e_cells s), (e_publishedCells s). by destruct s. Qed.
Lemma relinked_cells a s : relinked s (set_cells a s).
Proof. exists (e_links s), (e_published s), a, (e_publishedCells s). by destruct s. Qed.
Lemma relinked_publishedCells a s : relinked s (set_publishedCells a s).
Proof. exists (e_links s), (e_published s), (e_cells s), a. by destruct s. Qed.

Create HintDb links discriminated.
#[export] Hint Resolve relinked_refl relinked_links relinked_published relinked_cells
  relinked_publishedCells : links.

Lemma relinked_retract pc super s : relinked s (retractLink pc super s).
Proof.
  unfold retractLink, retractCell. cbv zeta.
  set (s1 := if _ =? _ then _ else s).
  assert (H : relinked s s1) by (unfold s1; destruct (_ =? _); auto with links).
  destruct (e_cells s1 !! key pc super); [|exact H].
  eapply relinked_trans; [exact H|auto with links].
Qed.

Lemma relinked_publish pc super e s : relinked s (publishLink pc super e s).
Proof.
  unfold publishLink, publishCell. cbv zeta.
  set (s1 := if _ =? _ then _ else s).
  assert (H : relinked s s1) by (unfold s1; destruct (_ =? _); auto with links).
  set (s2 := set_links _ s1).
  assert (H2 : relinked s s2) by (eapply relinked_trans; [exact H|apply relinked_links]).
  clearbody s2. destruct (e_cells s2 !! key pc super) as [c|]; [|exact H2].
  destruct (c_listed c); repeat (eapply relinked_trans; [exact H2|]); auto with links.
  eapply relinked_trans; [apply relinked_cells|apply relinked_publishedCells].
Qed.

Lemma relinked_clear s : relinked s (clearLinks s).
Proof.
  unfold clearLinks. cbv zeta.
  eapply relinked_trans; [|apply relinked_publishedCells].
  eapply relinked_trans; [|apply relinked_cells].
  eapply relinked_trans; [|apply relinked_published]. apply relinked_links.
Qed.

Lemma relinked_linkCell linkEntry pc super s : relinked s (linkCell linkEntry pc super s).
Proof.
  unfold linkCell. cbv zeta. set (s1 := match e_cells s !! _ with None => _ | Some _ => s end).
  assert (H : relinked s s1) by (unfold s1; destruct (e_cells s !! _); auto with links).
  clearbody s1. destruct (e_cells s1 !! _) as [c|]; [|exact H].
  destruct (c_entry c); [exact H|]. destruct (_ ≫= _); [|exact H].
  eapply relinked_trans; [exact H|]. destruct (_ && _); auto with links.
  eapply relinked_trans; [apply relinked_cells|apply relinked_publishedCells].
Qed.

Lemma relinked_kept s s' : relinked s s' -> Kept s s' /\ e_blocks s' = e_blocks s.
Proof. intros (a & b & c & d & ->). by split. Qed.

(** The rest of the invariant does not see the links. *)
Lemma relinked_coherent cfg linkEntry s s' : relinked s s' -> Coherent cfg linkEntry s ->
  LinksOk linkEntry s' -> Coherent cfg linkEntry s'.
Proof.
  intros (a & b & c & d & ->) [HB HI HP HT HD HS HL HW Hid Hby] HL'. split; try exact HL'.
  - reuse HB.
  - reuse HI.
  - reuse HP.
  - reuse HT.
  - reuse HD.
  - reuse HS.
  - reuse HW.
  - reuse Hid.
  - reuse Hby.
Qed.

Lemma target_relinked linkEntry s s' k e :
  relinked s s' -> target linkEntry s k e -> target linkEntry s' k e.
Proof. intros (a & b & c & d & ->) H. exact H. Qed.

Lemma relinked_pages s s' : relinked s s' -> pages s' = pages s.
Proof. by intros (a & b & c & d & ->). Qed.

(** ** Retracting and erasing *)

Section Drop.
Context (cfg : Config) (linkEntry : Z -> option Z).

Lemma retractErase_coherent k b s : Coherent cfg linkEntry s -> e_blocks s !! k = Some b ->
  let s' := retractAndErase k b s in
  Coherent cfg linkEntry s' /\ e_blocks s' = delete k (e_blocks s) /\
  Kept s s' /\ pages s' = pages s.
Proof.
  intros HC Hk. unfold retractAndErase. cbv zeta.
  destruct (bk_wf _ (co_blocks _ _ _ HC) k b Hk) as (Hr & Hkey).
  set (s1 := if bool_decide (is_Some (b_code b)) && (b_shiftVersion b =? 0xFF) then _ else s).
  assert (H : relinked s s1 /\ LinksAt (fun k' e => target linkEntry s k' e /\ k' <> k) s1).
  { unfold s1. destruct (bool_decide (is_Some (b_code b))) eqn:Ec; [destruct (Z.eqb_spec (b_shiftVersion b) 0xFF) as [Ev|Ev]|].
    - split; [apply relinked_retract|]. cbn. destruct Hkey as [[_ ->]|[Hv _]]; [|lia].
      apply retractLink_links; [done|apply HC].
    - split; [apply relinked_refl|]. eapply (LinksAt_mono (target linkEntry s) _ s); try done; [|apply HC].
      intros k' e Ht. split; [done|]. intros ->. destruct Ht as (b' & c & Hb' & _ & Hv & _).
      rewrite Hk in Hb'. injection Hb' as <-. done.
    - split; [apply relinked_refl|]. eapply (LinksAt_mono (target linkEntry s) _ s); try done; [|apply HC].
      intros k' e Ht. split; [done|]. intros ->. destruct Ht as (b' & c & Hb' & _ & Hv & Hc & _).
      rewrite Hk in Hb'. injection Hb' as <-. rewrite Hc in Ec. done. }
  destruct H as [HR HL]. clearbody s1. destruct (relinked_kept _ _ HR) as [K1 Eb1].
  assert (HL1 : LinksAt (fun k' e => target linkEntry s1 k' e /\ k' <> k) s1).
  { eapply (LinksAt_mono _ _ s1); try reflexivity; [|exact HL].
    intros k' e [Ht Hne]. split; [by eapply target_relinked|done]. }
  assert (HC1 : Coherent cfg linkEntry s1).
  { apply (relinked_coherent _ _ s); [done|done|]. eapply (LinksAt_mono _ _ s1); try reflexivity; [|exact HL1].
    by intros k' e [? _]. }
  rewrite <- Eb1 in Hk. destruct (erase_coherent cfg linkEntry k b s1 HC1 Hk HL1) as [HC2 Ep].
  split; [exact HC2|]. split; [by rewrite erase_blocks, Eb1|].
  split; [eapply Kept_trans; [exact K1|apply erase_kept]|].
  rewrite Ep. by apply relinked_pages.
Qed.

#[local] Opaque retractAndErase.

(** Dropping some of the blocks: the common shape of the eviction loops. *)
Definition drops (s s' : Engine) : Prop :=
  Coherent cfg linkEntry s' /\ Kept s s' /\ pages s' = pages s /\
  (forall k b, e_blocks s' !! k = Some b -> e_blocks s !! k = Some b).

Lemma drops_refl s : Coherent cfg linkEntry s -> drops s s.
Proof. intros H. by split; [|split; [apply Kept_refl|split]]. Qed.

Lemma drops_trans s1 s2 s3 : drops s1 s2 -> drops s2 s3 -> drops s1 s3.
Proof.
  intros (_ & K1 & P1 & B1) (C2 & K2 & P2 & B2). split; [done|].
  split; [by eapply Kept_trans|]. split; [congruence|auto].
Qed.

Lemma retractErase_drops k b s : Coherent cfg linkEntry s -> e_blocks s !! k = Some b ->
  drops s (retractAndErase k b s).
Proof.
  intros HC Hk. destruct (retractErase_coherent k b s HC Hk) as (H1 & H2 & H3 & H4).
  do 3 (split; [done|]). intros k' b'. rewrite H2. by intros [_ ?]%lookup_delete_Some.
Qed.

Lemma foldl_drops {A} (f : Engine -> A -> Engine) l :
  (forall s x, Coherent cfg linkEntry s -> drops s (f s x)) ->
  forall s, Coherent cfg linkEntry s -> drops s (foldl f s l).
Proof.
  intros Hf. induction l as [|x l IH]; intros s HC; cbn [foldl]; [by apply drops_refl|].
  assert (H1 := Hf s x HC). eapply drops_trans; [exact H1|]. apply IH, H1.
Qed.

(** *** Capacity eviction *)

Lemma evictCold1_drops s k : Coherent cfg linkEntry s -> drops s (evictCold1 s k).
Proof.
  intros HC. unfold evictCold1. destruct (e_blocks s !! k) as [b|] eqn:E; [|by apply drops_refl].
  destruct (_ =? _); [by apply drops_refl|by apply retractErase_drops].
Qed.

(** Of the keys of [order], exactly those of the current epoch stay. *)
Lemma evictCold_blocks order : forall s, Coherent cfg linkEntry s ->
  forall k b, e_blocks s !! k = Some b ->
  e_blocks (foldl evictCold1 s order) !! k =
  if decide (k ∈ order /\ b_epoch b <> e_epoch s) then None else Some b.
Proof.
  induction order as [|x order IH]; intros s HC k b Hk; cbn [foldl].
  - rewrite decide_False; [done|]. intros [[]%not_elem_of_nil _].
  - assert (HD := evictCold1_drops s x HC). destruct HD as (HC1 & K & _ & _).
    assert (Ee := kp_epoch _ _ K).
    assert (E : e_blocks (evictCold1 s x) !! k =
      if decide (k = x /\ b_epoch b <> e_epoch s) then None else Some b).
    { unfold evictCold1. destruct (e_blocks s !! x) as [bx|] eqn:Ex.
      - destruct (Z.eqb_spec (b_epoch bx) (e_epoch s)) as [Eep|Eep].
        + rewrite Hk, decide_False; [done|]. intros [-> Hne]. congruence.
        + destruct (retractErase_coherent x bx s HC Ex) as (_ & Eb & _). rewrite Eb.
          destruct (decide (k = x)) as [->|Hn].
          * rewrite lookup_delete_eq, decide_True; [done|]. split; [done|congruence].
          * rewrite lookup_delete_ne, decide_False by naive_solver. done.
      - rewrite Hk, decide_False; [done|]. intros [-> _]. congruence. }
    destruct (decide (k = x /\ b_epoch b <> e_epoch s)) as [[-> Hne]|Hno].
    + rewrite decide_True by set_solver.
      destruct (foldl_drops evictCold1 order evictCold1_drops _ HC1) as (_ & _ & _ & Hsub).
      destruct (e_blocks (foldl evictCold1 (evictCold1 s x) order) !! x) as [b'|] eqn:F; [|done].
      apply Hsub in F. congruence.
    + rewrite (IH _ HC1 k b E), Ee.
      destruct (decide (k ∈ order /\ b_epoch b <> e_epoch s));
        [rewrite decide_True by set_solver|rewrite decide_False by set_solver]; done.
Qed.
End Drop.
