(* ===== verification/JitFlushFacts.v ===== *)
(** * JitFlushFacts: the flush and the guard service

    [flushAll] leaves an empty, coherent cache; [serviceGuard] erases exactly
    the blocks that a recorded hit touches and clears the guard, after which
    no block is out of date. *)

From S2P Require Import Prelude.
From S2P Require Import JitTypes.
From S2P Require Import JitGuard.
From S2P Require Import JitShiftVersions.
From S2P Require Import JitDispatchCache.
From S2P Require Import JitEngineState.
From S2P Require Import JitBlockCache.
From S2P Require Import JitGuest.
From S2P Require Import JitTurn.
From S2P Require Import JitGuardFacts.
From S2P Require Import JitIndexFacts.
From S2P Require Import JitCoherence.
From S2P Require Import JitLinkFacts.
From S2P Require Import JitDispatchFacts.
From S2P Require Import JitEraseFacts.
From stdpp Require Import base list numbers option decidable gmap sets.

Open Scope Z_scope.

(** ** The flush *)

Lemma releaseAll_spec s c : c ∈ releaseAll s <->
  c ∈ e_codes s /\ forall k b, e_blocks s !! k = Some b -> b_code b <> Some c.
Proof.
  unfold releaseAll.
  apply (map_fold_weak_ind (fun r (m : gmap Z Block) =>
    c ∈ r <-> c ∈ e_codes s /\ forall k b, m !! k = Some b -> b_code b <> Some c)).
  - split; [|tauto]. intros H. split; [done|]. intros k b. by rewrite lookup_empty.
  - intros k b m r Hk IH.
    assert (E : (forall k' b', <[k := b]> m !! k' = Some b' -> b_code b' <> Some c) <->
                b_code b <> Some c /\ forall k' b', m !! k' = Some b' -> b_code b' <> Some c).
    { split.
      - intros H. split; [apply (H k); apply lookup_insert_eq|].
        intros k' b' Hl. apply (H k'). rewrite lookup_insert_ne; [done|]. intros ->. congruence.
      - intros [H1 H2] k' b' [[<- <-]|[_ Hl]]%lookup_insert_Some; [done|by eapply H2]. }
    rewrite E. destruct (b_code b) as [c0|]; [|rewrite IH; naive_solver].
    rewrite elem_of_difference, IH, elem_of_singleton. naive_solver.
Qed.

Lemma releaseAll_empty s : BlocksOk s -> releaseAll s = ∅.
Proof.
  intros H. apply set_eq. intros c. rewrite releaseAll_spec. split; [|set_solver].
  intros [Hin Hno]. destruct (bk_owned _ H c Hin) as (k & b & Hk & Hb). by destruct (Hno k b Hk).
Qed.

Lemma pageByte_zero (l : list Z) p : pageByte ((fun _ => 0) <$> l) p = 0.
Proof.
  unfold pageByte. destruct (rd _ p) as [x|] eqn:E; [|done]. cbn.
  assert (Forall (fun x => x = 0) ((fun _ : Z => 0) <$> l)) as F by (apply Forall_fmap, Forall_true; done).
  by rewrite (rd_Forall _ _ _ _ F E).
Qed.

Section Flush.
Context (cfg : Config) (linkEntry : Z -> option Z).

(** The state [flushAll] computes on an enabled engine that is not inside a
    block. *)
Lemma flushed_coherent s : Coherent cfg linkEntry s -> e_running s = false -> e_enabled s = true ->
  Coherent cfg linkEntry (flushAll s) /\ e_blocks (flushAll s) = ∅ /\
  e_guard (flushAll s) = CodeGuard0 /\ e_enabled (flushAll s) = true /\
  e_running (flushAll s) = false /\ e_mem (flushAll s) = e_mem s /\
  e_mmuGen (flushAll s) = e_mmuGen s.
Proof.
  intros [HB HI HP HT HD HS HL HW Hid Hby] Hrun Hen. unfold flushAll. rewrite Hrun, Hen.
  cbn [negb]. cbv zeta. split; [|by repeat split]. split.
  - split; cbn; rewrite ?releaseAll_empty by done; intros; try set_solver;
      match goal with H : ∅ !! _ = Some _ |- _ => by rewrite lookup_empty in H end.
  - split; cbn.
    + intros p. apply NoDup_nil_2.
    + intros p k. unfold keysOf. cbn. rewrite lookup_empty. split; [by intros ?%not_elem_of_nil|].
      intros (b & Hb & _). by rewrite lookup_empty in Hb.
    + intros p _. rewrite pageByte_zero. unfold keysOf. cbn. by rewrite lookup_empty.
    + unfold pages. cbn. rewrite length_fmap. exact (ix_pages _ _ _ HI).
  - split; cbn.
    + intros p Hp. by rewrite pageByte_zero in Hp.
    + unfold pages. cbn. rewrite !length_fmap. exact (pg_size _ HP).
  - by apply TlbOk_flushed.
  - by apply (clear_dispatch s).
  - split; cbn.
    + intros base v _ _. rewrite lookup_empty. unfold siteMask. cbn. rewrite lookup_empty. cbn.
      rewrite Z.bits_0. split; [done|by intros []].
    + intros base v _ _ [x Hx]. by rewrite lookup_empty in Hx.
    + intros base m. by rewrite lookup_empty.
  - assert (HL2 := clearLinks_links (target linkEntry s)
      (target linkEntry (set_blocks ∅ s)) s HL). destruct HL2 as [L1 L2 L3 L4].
    split; try assumption.
    + intros i e He. destruct (L1 i e He) as (pc & sp & ? & ? & ? & (b & c & Hb & _)).
      cbn in Hb. by rewrite lookup_empty in Hb.
    + intros k c e Hc He. destruct (L3 k c e Hc He) as (b & c' & Hb & _).
      cbn in Hb. by rewrite lookup_empty in Hb.
  - by split.
  - by split.
  - split; cbn.
    + unfold pages. cbn. rewrite length_fmap. exact (by_ram _ _ Hby).
    + intros k b Hk. by rewrite lookup_empty in Hk.
Qed.

(** A flush in any state is harmless. *)
Lemma flushAll_coherent s : Coherent cfg linkEntry s -> Coherent cfg linkEntry (flushAll s).
Proof.
  intros HC. destruct (e_running s) eqn:Hr; [|destruct (e_enabled s) eqn:He].
  - unfold flushAll. rewrite Hr. inert HC.
  - by apply flushed_coherent.
  - unfold flushAll. rewrite Hr, He. cbn [negb]. destruct HC as [HB HI HP HT HD HS HL HW Hid Hby].
    split; [reuse HB|reuse HI|reuse HP|reuse HT|reuse HD|reuse HS|reuse HL| |reuse Hid|reuse Hby].
    by split.
Qed.
End Flush.

(** ** The guard service *)

(** The test of [serviceGuard] for one hit and one block of the index. *)
Definition condemned (n : Z) (h : Hit) (ir : BlockIr) : bool :=
  bool_decide (h_slice h ∈ sliceRange (blockLo ir) (blockHi ir) n) && touches h ir.

#[local] Opaque retractAndErase.

Section Service.
Context (cfg : Config) (linkEntry : Z -> option Z).
Notation Coherent := (Coherent cfg linkEntry).
Notation drops := (drops cfg linkEntry).

Lemma serviceKey_drops h s k : Coherent s -> drops s (serviceKey h s k).
Proof.
  intros HC. unfold serviceKey. destruct (e_blocks s !! k) as [b|] eqn:E; [|by apply drops_refl].
  destruct (touches h (b_ir b)); [by apply retractErase_drops|by apply drops_refl].
Qed.

Lemma serviceKey_blocks h s x k b : Coherent s -> e_blocks s !! k = Some b ->
  e_blocks (serviceKey h s x) !! k =
  if bool_decide (k = x) && touches h (b_ir b) then None else Some b.
Proof.
  intros HC Hk. unfold serviceKey. destruct (e_blocks s !! x) as [bx|] eqn:Ex.
  - destruct (touches h (b_ir bx)) eqn:Et.
    + destruct (retractErase_coherent cfg linkEntry x bx s HC Ex) as (_ & Eb & _). rewrite Eb.
      case_bool_decide as E; cbn.
      * subst x. rewrite Hk in Ex. injection Ex as <-. by rewrite Et, lookup_delete_eq.
      * by rewrite lookup_delete_ne.
    + case_bool_decide as E; cbn [andb]; [|exact Hk]. subst x. rewrite Hk in Ex. injection Ex as <-.
      by rewrite Et, Hk.
  - case_bool_decide as E; cbn [andb]; [|exact Hk]. congruence.
Qed.

Lemma serviceKeys_blocks h l : forall s k b, Coherent s -> e_blocks s !! k = Some b ->
  e_blocks (foldl (serviceKey h) s l) !! k =
  if bool_decide (k ∈ l) && touches h (b_ir b) then None else Some b.
Proof.
  induction l as [|x l IH]; intros s k b HC Hk; cbn [foldl].
  - by rewrite bool_decide_eq_false_2 by apply not_elem_of_nil.
  - assert (HD := serviceKey_drops h s x HC). assert (E := serviceKey_blocks h s x k b HC Hk).
    destruct (bool_decide (k = x) && touches h (b_ir b)) eqn:Eb.
    + apply andb_true_iff in Eb as [Ekx Et]. apply bool_decide_eq_true in Ekx. subst x.
      rewrite Et, bool_decide_eq_true_2 by set_solver. cbn.
      destruct (foldl_drops cfg linkEntry (serviceKey h) l (serviceKey_drops h) _ (proj1 HD))
        as (_ & _ & _ & Hsub).
      destruct (e_blocks (foldl (serviceKey h) (serviceKey h s k) l) !! k) as [b'|] eqn:F; [|done].
      apply Hsub in F. congruence.
    + rewrite (IH _ k b (proj1 HD) E). destruct (touches h (b_ir b)); [|by rewrite !andb_false_r].
      rewrite !andb_true_r in *. apply bool_decide_eq_false in Eb.
      destruct (decide (k ∈ l)); [rewrite !bool_decide_eq_true_2|rewrite !bool_decide_eq_false_2];
        set_solver.
Qed.

Lemma filed_keys s k b p : IndexOk s -> e_blocks s !! k = Some b ->
  k ∈ keysOf s p <-> filed (b_ir b) p (pages s).
Proof.
  intros HI Hk. rewrite (ix_mem _ _ _ HI). split; [|intros Hf; exists b; split; [done|split; [done|by intros [_ []]]]].
  intros (b' & Hb' & ? & _). congruence.
Qed.

Lemma condemned_keys s k b h : IndexOk s -> e_blocks s !! k = Some b ->
  bool_decide (k ∈ keysOf s (h_slice h)) && touches h (b_ir b) = condemned (pages s) h (b_ir b).
Proof.
  intros HI Hk. unfold condemned.
  destruct (touches h (b_ir b)) eqn:Et; [|by rewrite !andb_false_r].
  rewrite !andb_true_r. apply bool_decide_ext. rewrite (filed_keys s k b) by done.
  unfold filed. unfold touches in Et. apply negb_true_iff in Et. unbool. tauto.
Qed.

Lemma serviceHit_drops s h : Coherent s -> drops s (serviceHit s h).
Proof. intros HC. apply (foldl_drops cfg linkEntry (serviceKey h)); [apply serviceKey_drops|done]. Qed.

Lemma serviceHits_blocks l : forall s k b, Coherent s -> e_blocks s !! k = Some b ->
  e_blocks (foldl serviceHit s l) !! k =
  if existsb (fun h => condemned (pages s) h (b_ir b)) l then None else Some b.
Proof.
  induction l as [|h l IH]; intros s k b HC Hk; cbn [foldl existsb]; [done|].
  assert (HD := serviceHit_drops s h HC). destruct HD as (HC1 & _ & Ep & _).
  assert (E : e_blocks (serviceHit s h) !! k = if condemned (pages s) h (b_ir b) then None else Some b).
  { unfold serviceHit. rewrite (serviceKeys_blocks h _ s k b HC Hk).
    by rewrite (condemned_keys s k b h (co_index _ _ _ HC) Hk). }
  destruct (condemned (pages s) h (b_ir b)); cbn.
  - destruct (foldl_drops cfg linkEntry serviceHit l serviceHit_drops _ HC1) as (_ & _ & _ & Hsub).
    destruct (e_blocks (foldl serviceHit (serviceHit s h) l) !! k) as [b'|] eqn:F; [|done].
    apply Hsub in F. congruence.
  - by rewrite (IH _ k b HC1 E), Ep.
Qed.

(** A block on record is condemned by one of the hits. *)
Lemma pending_condemned s ir : mustFlush (e_guard s) = false -> blockLen ir <> 0 ->
  pending s ir -> existsb (fun h => condemned (pages s) h ir) (hits (e_guard s)) = true.
Proof.
  intros Hm Hlen [H|(p & a & c & [_ Hp] & Ha & Hc & [H|(h & Hin & Hs & Hlo & Hhi)])]; [congruence|congruence|].
  apply existsb_exists. exists h. rewrite <- list_elem_of_In. split; [done|].
  unfold condemned. rewrite Hs, bool_decide_eq_true_2 by done. cbn.
  unfold touches. fold (blockHi ir).
  rewrite (proj2 (Z.eqb_neq _ _) Hlen), !(proj2 (Z.ltb_ge _ _)) by lia. done.
Qed.

Definition upToDate (s : Engine) : Prop := forall k b, e_blocks s !! k = Some b ->
  blockLo (b_ir b) + blockLen (b_ir b) <= cf_ram cfg -> current (e_mem s) (b_ir b).

Lemma current_empty m ir : blockLen ir = 0 -> current m ir.
Proof. intros E i w Hi H. lia. Qed.

(** Clearing the guard is sound once every block is up to date. *)
Lemma clearGuard_coherent s : Coherent s -> upToDate s ->
  Coherent (set_guard (clearGuard (e_guard s)) s).
Proof.
  intros HC Hup. destruct HC as [HB HI HP HT HD HS HL HW Hid Hby].
  split; [reuse HB|reuse HI|reuse HP|reuse HT|reuse HD|reuse HS|reuse HL|reuse HW| |].
  - destruct Hid. by split.
  - destruct Hby as [Hr _]. split; [exact Hr|]. intros k b Hk Hin. left. exact (Hup k b Hk Hin).
Qed.

Lemma upToDate_quiet s : Coherent s -> tripped (e_guard s) = false -> upToDate s.
Proof.
  intros HC Ht k b Hk Hin. destruct (id_quiet _ (co_idle _ _ _ HC) Ht) as [Hh Hm].
  destruct (by_block _ _ (co_bytes _ _ _ HC) k b Hk Hin) as [|Hp]; [done|].
  destruct (Z.eq_dec (blockLen (b_ir b)) 0); [by apply current_empty|].
  apply pending_condemned in Hp; [|done|done]. by rewrite Hh in Hp.
Qed.

(** After the service nothing is pending and every block is up to date. *)
Lemma serviceGuard_coherent s : Coherent s -> e_running s = false -> e_enabled s = true ->
  let s' := serviceGuard s in
  Coherent s' /\ tripped (e_guard s') = false /\ e_running s' = false /\
  e_enabled s' = true /\ e_mem s' = e_mem s /\ e_mmuGen s' = e_mmuGen s.
Proof.
  intros HC Hr He. unfold serviceGuard. cbv zeta.
  destruct (tripped (e_guard s)) eqn:Et; cbn [negb]; [|by auto 10].
  destruct (mustFlush (e_guard s) || bool_decide (e_blocks s = ∅)) eqn:Em.
  { destruct (flushed_coherent cfg linkEntry s HC Hr He) as (H1 & _ & H3 & H4 & H5 & H6 & H7).
    rewrite H3. auto 10. }
  apply orb_false_iff in Em as [Em _].
  destruct (foldl_drops cfg linkEntry serviceHit (hits (e_guard s)) serviceHit_drops s HC)
    as (HC1 & K & _ & Hsub).
  assert (Hup : upToDate (foldl serviceHit s (hits (e_guard s)))).
  { intros k b Hk Hin. rewrite (kp_mem _ _ K). assert (Hk0 := Hsub k b Hk).
    destruct (by_block _ _ (co_bytes _ _ _ HC) k b Hk0 Hin) as [|Hp]; [done|].
    destruct (Z.eq_dec (blockLen (b_ir b)) 0); [by apply current_empty|].
    apply pending_condemned in Hp; [|done|done].
    rewrite (serviceHits_blocks _ s k b HC Hk0), Hp in Hk. done. }
  split; [by apply clearGuard_coherent|]. split; [done|].
  exact (conj (eq_trans (kp_running _ _ K) Hr) (conj (eq_trans (kp_enabled _ _ K) He)
    (conj (kp_mem _ _ K) (kp_mmuGen _ _ K)))).
Qed.
End Service.
