(* ===== verification/JitGuestFacts.v ===== *)
(** * JitGuestFacts: guest code cannot make the cache lie

    Whatever guest code does through the memory map, through the data TLB or
    to the translation, the cache stays coherent: a store that changes a byte
    some block was translated from is always on the guard's list. *)

From S2P Require Import Prelude.
From S2P Require Import JitTypes.
From S2P Require Import JitGuard.
From S2P Require Import JitShiftVersions.
From S2P Require Import JitDispatchCache.
From S2P Require Import JitEngineState.
From S2P Require Import JitBlockCache.
From S2P Require Import JitGuest.
From S2P Require Import JitTurn.
From S2P Require Import JitGuardFacts.
From S2P Require Import JitIndexFacts.
From S2P Require Import JitCoherence.
From S2P Require Import JitDispatchFacts.
From S2P Require Import JitEraseFacts.
From S2P Require Import JitFlushFacts.
From stdpp Require Import base list numbers option decidable gmap sets.

Open Scope Z_scope.

(** ** Bytes of blocks are marked *)

Lemma blockHi_value ir n : 0 < blockLen ir -> blockLo ir + blockLen ir <= 256 * n ->
  n <= 16777216 -> blockHi ir = blockLo ir + blockLen ir - 1.
Proof.
  intros Hl Hr Hn. unfold blockHi. apply u32_small. pose proof (blockLo_range ir). lia.
Qed.

Lemma byte_filed ir n x : n <= 16777216 -> blockLo ir + blockLen ir <= 256 * n ->
  blockLo ir <= x < blockLo ir + blockLen ir -> filed ir (x / 256) n.
Proof.
  intros Hn Hr Hx. pose proof (blockLo_range ir). split; [lia|].
  apply elem_sliceRange. rewrite (blockHi_value ir n) by lia.
  split; [split; apply Z.div_le_mono; lia|]. apply Z.div_lt_upper_bound; lia.
Qed.

(** The sub-slice of a byte of a live block is marked. *)
Lemma byte_marked s k b x : IndexOk s -> e_blocks s !! k = Some b ->
  blockLo (b_ir b) + blockLen (b_ir b) <= 256 * pages s ->
  blockLo (b_ir b) <= x < blockLo (b_ir b) + blockLen (b_ir b) ->
  Z.testbit (pageByte (e_pageMap s) (x / 256)) (x mod 256 / 32) = true.
Proof.
  intros HI Hk Hr Hx. assert (Hn := ix_pages _ _ _ HI).
  assert (Hf := byte_filed _ _ x Hn Hr Hx). pose proof (blockLo_range (b_ir b)) as Hlo.
  assert (Hhi := blockHi_value (b_ir b) (pages s) ltac:(lia) Hr Hn).
  assert (Hp : 0 <= x / 256 < pages s)
    by (split; [apply Z.div_pos; lia|apply Z.div_lt_upper_bound; lia]).
  assert (Hj : 0 <= x mod 256 / 32).
  { pose proof (Z.mod_pos_bound x 256). apply Z.div_pos; lia. }
  rewrite (ix_mask _ _ _ HI) by done. apply sliceMask_bit; [done|]. exists k.
  split; [by apply (filed_keys s k b)|].
  rewrite (filed_bits _ _ _ _ _ Hk Hf Hn). unfold sliceBits.
  rewrite slice_base, u32_small by (unfold kUnit; lia). unfold kUnit.
  pose proof (Z.div_mod x 256 ltac:(lia)). pose proof (Z.mod_pos_bound x 256 ltac:(lia)).
  set (p := x / 256) in *. rewrite Hhi.
  assert (Hq : forall y, 256 * p <= y <= 256 * p + 255 -> y / 256 = p).
  { intros y Hy. symmetry. apply Z.div_unique with (y - 256 * p); lia. }
  destruct (Z.ltb_spec (256 * p) (blockLo (b_ir b)));
    destruct (Z.ltb_spec (blockLo (b_ir b) + blockLen (b_ir b) - 1) (256 * p + 256 - 1));
    (apply subMask_at; [lia|lia|]); rewrite !Hq by lia; done.
Qed.

Lemma byte_page s k b x : IndexOk s -> e_blocks s !! k = Some b ->
  blockLo (b_ir b) + blockLen (b_ir b) <= 256 * pages s ->
  blockLo (b_ir b) <= x < blockLo (b_ir b) + blockLen (b_ir b) ->
  pageByte (e_pageMap s) (x / 256) <> 0.
Proof.
  intros HI Hk Hr Hx E. assert (H := byte_marked s k b x HI Hk Hr Hx).
  by rewrite E, Z.bits_0 in H.
Qed.

Lemma current_ext m m' ir :
  (forall x, blockLo ir <= x < blockLo ir + blockLen ir -> m' x = m x) ->
  current m ir -> current m' ir.
Proof.
  intros Hm H i w Hi Hl. rewrite (H i w Hi Hl). unfold memWord. by rewrite !Hm by lia.
Qed.

(** ** Changing memory *)

Section Guest.
Context (cfg : Config) (linkEntry : Z -> option Z) (aliasCodeMask : Z -> list Z -> Z).
Notation Coherent := (Coherent cfg linkEntry).

(** New memory and a new guard are coherent with the blocks when every block
    whose bytes change is on record. *)
Lemma store_coherent s m g : Coherent s ->
  (tripped g = false -> g = e_guard s) ->
  (e_enabled s = false -> g = e_guard s) ->
  (forall p a c, reported (e_guard s) p a c -> reported g p a c) ->
  (mustFlush (e_guard s) = true -> mustFlush g = true) ->
  (forall k b, e_blocks s !! k = Some b ->
     blockLo (b_ir b) + blockLen (b_ir b) <= cf_ram cfg ->
     pending (set_guard g s) (b_ir b) \/
     forall x, blockLo (b_ir b) <= x < blockLo (b_ir b) + blockLen (b_ir b) -> m x = e_mem s x) ->
  Coherent (set_guard g (set_mem m s)).
Proof.
  intros [HB HI HP HT HD HS HL HW Hid Hby] Hq Hoff Hrep Hmf Hch.
  split; [reuse HB|reuse HI|reuse HP|reuse HT|reuse HD|reuse HS|reuse HL|reuse HW| |].
  - destruct Hid as [I1 I2 I3]. split; [exact I1| |]; cbn.
    + intros He. rewrite (Hoff He). auto.
    + intros Ht. assert (E := Hq Ht). rewrite E. apply I3. by rewrite <- E.
  - destruct Hby as [Hr Hb]. split; [exact Hr|]. intros k b Hk Hin. cbn in Hk.
    destruct (Hch k b Hk Hin) as [Hp|Hsame]; [by right|].
    destruct (Hb k b Hk Hin) as [Hc|Hp].
    + left. by eapply current_ext.
    + right. destruct Hp as [Hp|(p & a & c & ? & ? & ? & Hp)]; [left; by apply Hmf|].
      right. exists p, a, c. do 3 (split; [done|]). by apply Hrep.
Qed.

Lemma note_quiet pm a n g : tripped (note pm a n g) = false -> note pm a n g = g.
Proof.
  assert (R : forall sl lo hi g, tripped (recordHit sl lo hi g) = true).
  { intros sl lo hi g0. unfold recordHit. destruct (widenHit _ _ _ _); [done|]. by destruct (_ <=? _). }
  unfold note. destruct (_ && _); [by rewrite R|].
  destruct (pageByte _ _ .& _ <>? 0); [by rewrite R|done].
Qed.

(** A store that reaches a byte of a block is on record. *)
Lemma note_pending s k b a n x : Coherent s -> e_blocks s !! k = Some b ->
  blockLo (b_ir b) + blockLen (b_ir b) <= cf_ram cfg ->
  0 <= a -> 1 <= n <= 2 -> a + n <= 4294967296 ->
  a <= x < a + n -> blockLo (b_ir b) <= x < blockLo (b_ir b) + blockLen (b_ir b) ->
  pending (set_guard (note (e_pageMap s) a n (e_guard s)) s) (b_ir b).
Proof.
  intros [HB HI HP HT HD HS HL HW Hid [Hr Hb]] Hk Hin Ha Hn Hw Hx Hx'.
  right. assert (Hp := ix_pages _ _ _ HI).
  exists (x / 256), a, (a + n - 1). cbn.
  rewrite (blockHi_value (b_ir b) (pages s)) by lia.
  split; [apply (byte_filed _ (pages s)); lia|]. split; [lia|]. split; [lia|].
  apply note_reports; try lia. apply (byte_marked s k b); lia || done.
Qed.

(** A store of [n] bytes through the map. *)
Lemma write_coherent s a n m : Coherent s -> 0 <= a -> 1 <= n <= 2 -> a + n <= 4294967296 ->
  (forall x, ~ a <= x < a + n -> m x = e_mem s x) ->
  Coherent (set_mem m (noteStore a n s)).
Proof.
  intros HC Ha Hn Hw Hm. unfold noteStore.
  destruct (e_enabled s) eqn:He.
  - apply (store_coherent s m (note (e_pageMap s) a n (e_guard s))); [done| | | | |].
    + apply note_quiet.
    + congruence.
    + intros p x c. apply note_keeps.
    + apply mustFlush_note.
    + intros k b Hk Hin. set (x := Z.max a (blockLo (b_ir b))).
      destruct (decide (x < Z.min (a + n) (blockLo (b_ir b) + blockLen (b_ir b)))) as [Hx|Hno].
      * left. apply (note_pending s k b a n x); unfold x in *; lia || done.
      * right. intros y Hy. apply Hm. unfold x in *. lia.
  - assert (E : e_blocks s = ∅) by (apply HC; done).
    replace (set_mem m s) with (set_guard (e_guard s) (set_mem m s)) by (by destruct s).
    apply (store_coherent s m (e_guard s)); try done.
    intros k b Hk. by rewrite E, lookup_empty in Hk.
Qed.

Lemma write8_coherent s a v : Coherent s -> Coherent (write8 (cf_ram cfg) (u32 a) v s).
Proof.
  intros HC. unfold write8. pose proof (u32_range a). destruct (_ <? _).
  - apply (write_coherent s (u32 a) 1 (upd (e_mem (noteStore (u32 a) 1 s)) (u32 a) (u8 v)));
      try done; try lia.
    intros x Hx. unfold upd, noteStore. rewrite (proj2 (Z.eqb_neq x (u32 a))) by lia. by destruct (e_enabled s).
  - replace (noteStore (u32 a) 1 s) with (set_mem (e_mem s) (noteStore (u32 a) 1 s)).
    + apply write_coherent; try done; lia.
    + unfold noteStore. destruct (e_enabled s); by destruct s.
Qed.

Lemma write16_coherent s a v : Coherent s -> cf_ram cfg <= 4294967296 ->
  Coherent (write16 (cf_ram cfg) (u32 a) v s).
Proof.
  intros HC Hram. unfold write16. pose proof (u32_range a).
  destruct (Z.ltb_spec (u32 a + 1) (cf_ram cfg)); [|done].
  apply write_coherent; try done; try lia. intros x Hx. unfold upd, noteStore.
  rewrite !(proj2 (Z.eqb_neq x _)) by lia. by destruct (e_enabled s).
Qed.

(** A store that changes no byte of a block. *)
Lemma mem_coherent s m : Coherent s ->
  (forall k b x, e_blocks s !! k = Some b ->
     blockLo (b_ir b) + blockLen (b_ir b) <= cf_ram cfg ->
     blockLo (b_ir b) <= x < blockLo (b_ir b) + blockLen (b_ir b) -> m x = e_mem s x) ->
  Coherent (set_mem m s).
Proof.
  intros HC Hm. replace (set_mem m s) with (set_guard (e_guard s) (set_mem m s)) by (by destruct s).
  apply store_coherent; try done. intros k b Hk Hin. right. eauto.
Qed.

Lemma storeBytes_out m l : forall a x, ~ a <= x < a + Z.of_nat (length l) ->
  storeBytes m a l x = m x.
Proof.
  revert m. induction l as [|v l IH]; intros m a x Hx; cbn [storeBytes]; [done|].
  cbn [length] in Hx. rewrite IH by lia. unfold upd. by rewrite (proj2 (Z.eqb_neq x a)) by lia.
Qed.

(** The slices a short range of a page touches. *)
Lemma page_slice h x : h mod 4096 = 0 -> h <= x < h + 4096 ->
  x / 256 = h / 256 + (x - h) / 256 /\ 0 <= (x - h) / 256 < 16.
Proof.
  intros Hh Hx. pose proof (Z.div_mod h 4096 ltac:(lia)) as Hd. rewrite Hh in Hd.
  split; [|split; [apply Z.div_pos; lia|apply Z.div_lt_upper_bound; lia]].
  assert (E : h / 256 = 16 * (h / 4096)).
  { symmetry. apply Z.div_unique with 0; lia. }
  rewrite E, Z.add_comm, <- Z.div_add by lia. f_equal. lia.
Qed.

(** Neither the inline store of generated code nor the interpreter's window
    reaches a byte of a block. *)
Lemma dtlbStore_spares s i off bytes k b x : Coherent s -> e_blocks s !! k = Some b ->
  blockLo (b_ir b) + blockLen (b_ir b) <= cf_ram cfg ->
  blockLo (b_ir b) <= x < blockLo (b_ir b) + blockLen (b_ir b) ->
  e_mem (dtlbStore cfg i off bytes s) x = e_mem s x.
Proof.
  intros HC Hk Hin Hx. unfold dtlbStore.
  destruct (rd (e_dtlbW s) i) as [[tag mask [h|]]|] eqn:E; [|done|done].
  destruct (_ && _) eqn:Ec; [|done]. unbool.
  destruct HC as [HB HI HP HT HD HS HL HW Hid [Hr Hb]].
  apply storeBytes_out. intros Hxs.
  assert (Hal : h mod 4096 = 0) by exact (tlb_align _ _ HT i _ h E eq_refl).
  destruct (page_slice h x Hal ltac:(lia)) as [Ex Hj].
  assert (Hpb := byte_page s k b x HI Hk ltac:(lia) Hx). rewrite Ex in Hpb.
  destruct (tlb_entry _ _ HT i _ h _ E eq_refl Hj Hpb) as [Hma Hbit]. cbn in Hbit.
  rewrite Hma in *. cbn in *. unbool. rewrite !slice_div in *.
  assert ((x - h) / 256 = off / 256 \/
          (x - h) / 256 = (off + Z.of_nat (length bytes) - 1) / 256) as [Ej|Ej];
    [|rewrite Ej in Hbit; congruence|rewrite Ej in Hbit; congruence].
  pose proof (Z.div_le_mono off (x - h) 256 ltac:(lia) ltac:(lia)).
  pose proof (Z.div_le_mono (x - h) (off + Z.of_nat (length bytes) - 1) 256 ltac:(lia) ltac:(lia)).
  assert ((off + Z.of_nat (length bytes) - 1) / 256 <= off / 256 + 1); [|lia].
  rewrite <- Z.div_add by lia. apply Z.div_le_mono; lia.
Qed.

Lemma windowStore_spares s off bytes k b x : Coherent s -> e_blocks s !! k = Some b ->
  blockLo (b_ir b) + blockLen (b_ir b) <= cf_ram cfg ->
  blockLo (b_ir b) <= x < blockLo (b_ir b) + blockLen (b_ir b) ->
  e_mem (windowStore off bytes s) x = e_mem s x.
Proof.
  intros HC Hk Hin Hx. unfold windowStore. destruct (pg_host (e_dataW1 s)) as [h|] eqn:E; [|done].
  destruct (_ && _) eqn:Ec; [|done]. unbool.
  destruct HC as [HB HI HP HT HD HS HL HW Hid [Hr Hb]].
  apply storeBytes_out. intros Hxs.
  assert (Hal := tlb_frontAlign _ _ HT h E).
  destruct (page_slice h x Hal ltac:(lia)) as [Ex Hj].
  apply (byte_page s k b x HI Hk ltac:(lia) Hx). rewrite Ex. by apply (tlb_front _ _ HT).
Qed.

Lemma dtlbStore_coherent s i off bytes : Coherent s -> Coherent (dtlbStore cfg i off bytes s).
Proof.
  intros HC. replace (dtlbStore cfg i off bytes s) with (set_mem (e_mem (dtlbStore cfg i off bytes s)) s).
  - apply mem_coherent; [done|]. intros k b x. by apply dtlbStore_spares.
  - unfold dtlbStore. destruct (rd _ _) as [[? ? [?|]]|]; [destruct (_ && _)|..]; by destruct s.
Qed.

Lemma windowStore_coherent s off bytes : Coherent s -> Coherent (windowStore off bytes s).
Proof.
  intros HC. replace (windowStore off bytes s) with (set_mem (e_mem (windowStore off bytes s)) s).
  - apply mem_coherent; [done|]. intros k b x. by apply windowStore_spares.
  - unfold windowStore. destruct (pg_host _); [destruct (_ && _)|]; by destruct s.
Qed.

(** ** The data TLB *)

(** The write table and the level in front are all the invariant sees of it. *)
Lemma tlb_coherent s s' : Coherent s -> TlbOk cfg s' ->
  (exists a b c d, s' = set_dataW1 a (set_dataR1 b (set_dtlbW c (set_dtlbR d s)))) ->
  Coherent s'.
Proof.
  intros [HB HI HP HT HD HS HL HW Hid Hby] HT' (a & b & c & d & ->).
  split; [reuse HB|reuse HI|reuse HP|exact HT'|reuse HD|reuse HS|reuse HL|reuse HW|reuse Hid|reuse Hby].
Qed.

Lemma codeMask_bit s h j : PagesOk s -> pages s <= 16777216 -> h mod 4096 = 0 -> 0 <= j < 16 ->
  pageByte (e_pageMap s) (h / 256 + j) <> 0 -> Z.testbit (codeMaskOf h s) j = true.
Proof.
  intros HP Hn Hh Hj Hb. unfold codeMaskOf. assert (Hr := pageByte_range _ _ Hb).
  fold (pages s) in Hr. pose proof (Z.div_mod h 4096 ltac:(lia)) as Hd. rewrite Hh in Hd.
  assert (E : h / 256 = 16 * (h / 4096)).
  { symmetry. apply Z.div_unique with 0; lia. }
  assert (Hc := pg_flag _ HP _ Hb).
  replace ((h / 256 + j) / 16) with (h .>> 12) in Hc.
  2: { rewrite Z.shiftr_div_pow2 by lia. change (2 ^ 12) with 4096. rewrite E.
       apply Z.div_unique with j; lia. }
  rewrite (proj2 (Z.eqb_neq _ _) Hc). rewrite slice_div.
  change (4096 .>> kShift) with 16.
  assert (L : forall l m, Z.testbit m j = true \/ j ∈ l ->
    (forall i, i ∈ l -> 0 <= i) ->
    Z.testbit (foldl (fun mask i => if pageByte (e_pageMap s) (u32 (h / 256 + i)) <>? 0
                 then mask .| (1 .<< i) else mask) m l) j = true).
  { induction l as [|i l IH]; intros m Hm Hl; cbn [foldl]; [set_solver|].
    apply IH; [|set_solver]. destruct Hm as [Hm|[->|Hm]%elem_of_cons]; [|left|by right].
    - left. destruct (_ <>? 0); [|done]. by rewrite Z.lor_spec, Hm.
    - rewrite u32_small by lia. rewrite (proj2 (negb_true_iff _) (proj2 (Z.eqb_neq _ _) Hb)).
      rewrite Z.lor_spec, Z.shiftl_1_l, Z.pow2_bits_true by lia. apply orb_true_r. }
  apply L; [right; apply elem_of_seqZ; lia|]. intros i Hi%elem_of_seqZ. lia.
Qed.

Lemma TlbOk_entry s i e : TlbOk cfg s ->
  (forall h, t_host e = Some h -> h mod 4096 = 0 /\
     forall j, 0 <= j < 16 -> pageByte (e_pageMap s) (h / 256 + j) <> 0 ->
       cf_maskAware cfg = true /\ Z.testbit (t_codeMask e) j = true) ->
  TlbOk cfg (set_dtlbW (wr (e_dtlbW s) i e) s).
Proof.
  intros [H1 H2 H3 H4] He.
  assert (R : forall i' e', rd (wr (e_dtlbW s) i e) i' = Some e' -> e' = e \/ rd (e_dtlbW s) i' = Some e').
  { intros i' e' H. assert (Hi := rd_nonneg _ _ _ H). unfold rd, wr in *.
    rewrite (proj2 (Z.ltb_ge i' 0)) in * by lia.
    destruct (decide (Z.to_nat i = Z.to_nat i')) as [E|E].
    - apply list_lookup_insert_Some in H. naive_solver.
    - rewrite list_lookup_insert_ne in H by done. by right. }
  split; cbn; try done.
  - intros i' e' h j Hr Hh Hj Hb. destruct (R _ _ Hr) as [->|Hr']; [|by eapply H1].
    destruct (He h Hh) as [_ H]. auto.
  - intros i' e' h Hr Hh. destruct (R _ _ Hr) as [->|Hr']; [|by eapply H2].
    by destruct (He h Hh).
Qed.

Lemma aligned_page phys : Z.ldiff phys 4095 mod 4096 = 0.
Proof.
  change 4095 with (Z.ones 12). rewrite Z.ldiff_ones_r by lia. change 4096 with (2 ^ 12).
  rewrite Z.shiftl_mul_pow2 by lia. apply Z.mod_mul. done.
Qed.

Lemma setDtlb_coherent s w i e : Coherent s ->
  (w = true -> forall h, t_host e = Some h -> h mod 4096 = 0 /\
     forall j, 0 <= j < 16 -> pageByte (e_pageMap s) (h / 256 + j) <> 0 ->
       cf_maskAware cfg = true /\ Z.testbit (t_codeMask e) j = true) ->
  Coherent (setDtlb w i e s).
Proof.
  intros HC He. unfold setDtlb. destruct w.
  - apply (tlb_coherent s); [done|apply TlbOk_entry; [apply HC|auto]|].
    exists (e_dataW1 s), (e_dataR1 s), (wr (e_dtlbW s) i e), (e_dtlbR s). by destruct s.
  - apply (tlb_coherent s); [done|destruct (co_tlb _ _ _ HC); by split|].
    exists (e_dataW1 s), (e_dataR1 s), (e_dtlbW s), (wr (e_dtlbR s) i e). by destruct s.
Qed.

Lemma fillDtlb_coherent s a addr w : Coherent s -> Coherent (fillDtlb cfg aliasCodeMask a addr w s).
Proof.
  intros HC. unfold fillDtlb. cbv zeta.
  destruct (fa_cache040 a); [by apply setDtlb_coherent|].
  destruct (fa_hasSpan a); cbn [negb]; [|done].
  destruct (fa_probe a) as [[phys len]|]; [|done]. destruct (len <? 4096); [done|].
  destruct (fa_span a) as [span|]; [|apply setDtlb_coherent; [done|by intros _ h; cbn; repeat destruct (_ && _)]].
  destruct (span <? 4096); [apply setDtlb_coherent; [done|by intros _ h; cbn; repeat destruct (_ && _)]|].
  apply setDtlb_coherent; [done|]. intros -> h. cbn.
  set (mask := codeMaskOf _ _ .| _). intros Hh.
  assert (Hm : (mask <>? 0) = false \/ cf_maskAware cfg = true).
  { destruct (mask <>? 0); [|by left]. destruct (cf_maskAware cfg); [by right|done]. }
  assert (h = Z.ldiff phys 4095) as ->.
  { destruct (_ && _); [done|]. by injection Hh as <-. }
  split; [apply aligned_page|]. intros j Hj Hb.
  assert (Hbit : Z.testbit mask j = true).
  { unfold mask. rewrite Z.lor_spec, codeMask_bit; [done| | | |done|done].
    - apply HC.
    - apply (ix_pages _ _ _ (co_index _ _ _ HC)).
    - apply aligned_page. }
  split; [|exact Hbit]. destruct Hm as [Hm|Hm]; [|done].
  apply negb_false_iff, Z.eqb_eq in Hm. by rewrite Hm, Z.bits_0 in Hbit.
Qed.

Lemma promote_coherent s addr want w : Coherent s -> Coherent (promote addr want w s).
Proof.
  intros HC. unfold promote, dtlbAt. destruct (rd _ _) as [e|] eqn:E; [|done].
  destruct (_ <>? want); [done|]. destruct (w && (t_codeMask e <>? 0)) eqn:Em; [done|].
  destruct w.
  - cbn in Em. apply negb_false_iff, Z.eqb_eq in Em.
    apply (tlb_coherent s); [done| |exists (mkPage want (t_host e)), (e_dataR1 s), (e_dtlbW s), (e_dtlbR s); by destruct s].
    destruct (co_tlb _ _ _ HC) as [H1 H2 H3 H4]. split; cbn; try done.
    + intros h j Hh Hj. destruct (Z.eq_dec (pageByte (e_pageMap s) (h / 256 + j)) 0) as [|Hn]; [done|].
      destruct (H1 _ e h j E Hh Hj Hn) as [_ Hb]. by rewrite Em, Z.bits_0 in Hb.
    + intros h Hh. by eapply H2.
  - apply (tlb_coherent s); [done|destruct (co_tlb _ _ _ HC); by split|].
    exists (e_dataW1 s), (mkPage want (t_host e)), (e_dtlbW s), (e_dtlbR s). by destruct s.
Qed.

Lemma dataSlow_coherent s a addr want w : Coherent s ->
  Coherent (pomJitDataSlow cfg aliasCodeMask a addr want w s).
Proof.
  intros HC. unfold pomJitDataSlow. destruct (dtlbAt _ _ _); [|done].
  apply promote_coherent. destruct (_ <>? _); [by apply fillDtlb_coherent|done].
Qed.

Lemma evictSlice_coherent s slice : Coherent s -> Coherent (evictSlice slice s).
Proof.
  intros HC. apply (tlb_coherent s); [done| |].
  2: { exists (dropPage slice (e_dataW1 s)), (dropPage slice (e_dataR1 s)),
         (dropEntry slice (e_dtlbW s)), (dropEntry slice (e_dtlbR s)). reflexivity. }
  assert (HT := co_tlb _ _ _ HC).
  assert (TlbOk cfg (set_dtlbW (dropEntry slice (e_dtlbW s)) s)) as [H1 H2 H3 H4].
  { unfold dropEntry. destruct (rd (e_dtlbW s) _) as [e|]; [|reuse HT].
    destruct (_ =? _); [|reuse HT]. by apply TlbOk_entry. }
  split; [exact H1|exact H2| |]; cbn; unfold dropPage; destruct (_ =? _); try done.
Qed.

Lemma atcEvict_coherent s page len code : Coherent s -> Coherent (pomJitAtcEvict page len code s).
Proof.
  intros HC. unfold pomJitAtcEvict. destruct code.
  - destruct (_ && _); [|done]. destruct HC as [HB HI HP HT HD HS HL HW Hid Hby].
    split; [reuse HB|reuse HI|reuse HP|reuse HT|reuse HD|reuse HS|reuse HL| |reuse Hid|reuse Hby].
    by split.
  - generalize (seqZ 0 ((len + 4095) / 4096)). intros l. revert s HC.
    induction l as [|k l IH]; intros s HC; cbn [foldl]; [done|]. apply IH, evictSlice_coherent, HC.
Qed.

Lemma dtlbFlush_coherent s : Coherent s -> Coherent (pomJitDtlbFlush s).
Proof.
  intros HC. apply (tlb_coherent s); [done|by apply TlbOk_flushed|].
  exists DataPage0, DataPage0, Dtlb0, Dtlb0. reflexivity.
Qed.

Lemma mapMoved_coherent s : Coherent s -> Coherent (pomJitMapMoved s).
Proof. intros HC. apply dtlbFlush_coherent. inert HC. Qed.

Lemma mapChanged_coherent s m : Coherent s -> Coherent (jitMapChanged m s).
Proof.
  intros HC. unfold jitMapChanged. cbv zeta. apply dtlbFlush_coherent.
  change (e_enabled (set_mem m s)) with (e_enabled s). destruct (e_enabled s) eqn:He.
  - apply (store_coherent s m (invalidate (e_guard s))); try done.
    + unfold tripped, invalidate. cbn. by rewrite orb_true_r.
    + congruence.
    + intros p a c _. by left.
    + intros k b _ _. left. by left.
  - apply mem_coherent; [done|]. intros k b x Hk.
    rewrite (id_blocks _ (co_idle _ _ _ HC) He), lookup_empty in Hk. done.
Qed.

(** ** Any guest code *)

Lemma guestStep_coherent s ev : cf_ram cfg <= 4294967296 -> Coherent s ->
  Coherent (guestStep cfg aliasCodeMask s ev).
Proof.
  intros Hram HC. destruct ev; cbn [guestStep].
  - by apply write8_coherent.
  - by apply write16_coherent.
  - by apply mapChanged_coherent.
  - by apply fillDtlb_coherent.
  - by apply dtlbStore_coherent.
  - by apply dataSlow_coherent.
  - by apply windowStore_coherent.
  - by apply atcEvict_coherent.
  - by apply mapMoved_coherent.
  - by apply flushAll_coherent.
Qed.

Lemma guestRun_coherent evs : cf_ram cfg <= 4294967296 -> forall s, Coherent s ->
  Coherent (guestRun cfg aliasCodeMask evs s).
Proof.
  intros Hram. unfold guestRun. induction evs as [|ev evs IH]; intros s HC; cbn [foldl]; [done|].
  apply IH. by apply guestStep_coherent.
Qed.
End Guest.
