(* ===== verification/JitTraceFacts.v ===== *)
(** * JitTraceFacts: recording a block keeps the cache coherent

    Inside the tracer guest code can change memory and the data TLB but not
    the blocks; when the trace is filed, the words of the block are the ones
    memory holds at that moment. *)

From S2P Require Import Prelude.
From S2P Require Import JitTypes.
From S2P Require Import JitDecode.
From S2P Require Import JitEa.
From S2P Require Import JitGuard.
From S2P Require Import JitShiftVersions.
From S2P Require Import JitDispatchCache.
From S2P Require Import JitEngineState.
From S2P Require Import JitBlockCache.
From S2P Require Import JitGuest.
From S2P Require Import JitTurn.
From S2P Require Import JitGuardFacts.
From S2P Require Import JitIndexFacts.
From S2P Require Import JitCoherence.
From S2P Require Import JitLinkFacts.
From S2P Require Import JitDispatchFacts.
From S2P Require Import JitEraseFacts.
From S2P Require Import JitFlushFacts.
From S2P Require Import JitGuestFacts.
From stdpp Require Import base list numbers option decidable gmap sets.

Open Scope Z_scope.

(** ** What guest code leaves alone inside a block *)

Record Stays (s s' : Engine) : Prop := {
  st_running : e_running s' = e_running s;
  st_enabled : e_enabled s' = e_enabled s;
  st_blocks : e_blocks s' = e_blocks s;
  st_sites : sites_ (e_shift s) ⊆ sites_ (e_shift s');
  st_dispatch : e_dispatch s' = e_dispatch s;
  st_blocksGen : e_blocksGen s' = e_blocksGen s;
  st_nodes : e_nodes s' = e_nodes s;
  st_codes : e_codes s' = e_codes s;
  st_base : w_base (e_window s') = w_base (e_window s);
  st_phys : w_phys (e_window s') = w_phys (e_window s);
  st_len : w_len (e_window s') = w_len (e_window s);
  st_armed : w_armed (e_window s') = true -> w_armed (e_window s) = true
}.

Lemma Stays_refl s : Stays s s.
Proof. by split. Qed.

Lemma Stays_trans s1 s2 s3 : Stays s1 s2 -> Stays s2 s3 -> Stays s1 s3.
Proof. intros [] []. split; try congruence; auto; set_solver. Qed.

(** What [admit] may answer for the block at [pc]. *)
Definition admissible (adm : Admission) (pc : Z) (super : bool) : Prop :=
  ad_baseKey adm = key pc super /\
  (ad_version adm = plainVersion /\ ad_cacheKey adm = key pc super \/
   0 <= ad_version adm < 32 /\ ad_cacheKey adm = versionKey (key pc super) (ad_version adm)).

Lemma admit_admissible pc super op count en h c adm c' :
  admitShift (key pc super) op count en h c = (adm, c') ->
  admissible adm pc super /\
  (ad_version adm <> plainVersion -> key pc super ∈ sites_ c') /\
  masks_ c' = masks_ c /\ sites_ c ⊆ sites_ c'.
Proof.
  assert (P : admissible (mkAdmission (key pc super) (key pc super) 0xFF en true) pc super)
    by (split; [done|by left]).
  unfold admitShift. destruct en; cbn [negb]; [|intros [= <- <-]; by auto].
  assert (M : key pc super ∈ sites_ (remember (key pc super) c)) by (cbn; set_solver).
  assert (S : sites_ c ⊆ sites_ (remember (key pc super) c)) by (cbn; set_solver).
  destruct (count <? 0) eqn:E0; [intros [= <- <-]; by auto|].
  destruct (kMaxMultiVersionShiftCount <? count) eqn:E1.
  { destruct h; intros [= <- <-]; by auto. }
  unfold kMaxMultiVersionShiftCount in E1. unbool.
  destruct (_ && _).
  - destruct h; intros [= <- <-]; (split; [split; [done|by left]|done]).
  - intros [= <- <-]. split; [split; [done|right; cbn; split; [lia|done]]|done].
Qed.

Section Trace.
Context (cfg : Config) (linkEntry : Z -> option Z).
Context (aliasCodeMask : Z -> list Z -> Z).
Hypothesis ram_range : cf_ram cfg <= 4294967296.
Notation Coherent := (Coherent cfg linkEntry).
Notation guestStep := (guestStep cfg aliasCodeMask).
Notation guestRun := (guestRun cfg aliasCodeMask).

Lemma noteStore_stays a n s : Stays s (noteStore a n s).
Proof. unfold noteStore. by destruct (e_enabled s). Qed.

Lemma atcEvict_stays page len code s : Stays s (pomJitAtcEvict page len code s).
Proof.
  unfold pomJitAtcEvict. destruct code; [by destruct (_ && _)|].
  generalize (seqZ 0 ((len + 4095) / 4096)). intros l. revert s.
  induction l as [|k l IH]; intros s; cbn [foldl]; [apply Stays_refl|].
  eapply Stays_trans; [|apply IH]. by split.
Qed.

Lemma fillDtlb_stays a addr w s : Stays s (fillDtlb cfg aliasCodeMask a addr w s).
Proof.
  unfold fillDtlb, setDtlb. cbv zeta.
  repeat (match goal with |- context [match ?x with _ => _ end] => destruct x end); by split.
Qed.

Lemma promote_stays addr want w s : Stays s (promote addr want w s).
Proof.
  unfold promote. destruct (dtlbAt _ _ _); [|apply Stays_refl].
  destruct (_ <>? _); [apply Stays_refl|]. destruct (_ && _); [apply Stays_refl|]. destruct w; by split.
Qed.

Lemma guestStep_stays s ev : (ev = GFlush -> e_running s = true) -> Stays s (guestStep s ev).
Proof.
  intros Hr. destruct ev; cbn [JitGuest.guestStep].
  - unfold write8. destruct (_ <? _); [|apply noteStore_stays].
    eapply Stays_trans; [apply noteStore_stays|by split].
  - unfold write16. destruct (_ <? _); [|apply Stays_refl].
    eapply Stays_trans; [apply noteStore_stays|by split].
  - unfold jitMapChanged. cbn. by destruct (e_enabled s).
  - apply fillDtlb_stays.
  - unfold dtlbStore. destruct (rd _ _) as [[? ? [?|]]|]; try apply Stays_refl.
    destruct (_ && _); [by split|apply Stays_refl].
  - unfold pomJitDataSlow. destruct (dtlbAt _ _ _); [|apply Stays_refl].
    eapply Stays_trans; [|apply promote_stays]. destruct (_ <>? _); [apply fillDtlb_stays|apply Stays_refl].
  - unfold windowStore. destruct (pg_host _); [|apply Stays_refl].
    destruct (_ && _); [by split|apply Stays_refl].
  - apply atcEvict_stays.
  - by split.
  - unfold flushAll. rewrite (Hr eq_refl). by split.
Qed.

Lemma guestRun_stays evs : forall s, e_running s = true -> Stays s (guestRun evs s).
Proof.
  unfold JitGuest.guestRun. induction evs as [|ev evs IH]; intros s Hr; cbn [foldl]; [apply Stays_refl|].
  assert (H := guestStep_stays s ev (fun _ => Hr)). eapply Stays_trans; [exact H|]. apply IH. by rewrite (st_running _ _ H).
Qed.

(** ** The tracing loop *)

Lemma remember_coherent k s : Coherent s -> Coherent (set_shift (remember k (e_shift s)) s).
Proof.
  intros [HB HI HP HT HD HS HL HW Hid Hby].
  split; [reuse HB|reuse HI|reuse HP|reuse HT|reuse HD| |reuse HL|reuse HW|reuse Hid|reuse Hby].
  destruct HS as [H1 H2 H3]. split; [exact H1| |exact H3]. intros base v Hb Hv Hl. cbn.
  apply elem_of_union_r. exact (H2 base v Hb Hv Hl).
Qed.

Lemma remember_stays k s : Stays s (set_shift (remember k (e_shift s)) s).
Proof. split; try done. cbn. set_solver. Qed.

Lemma traceLoop_ok n : forall i steps pc super t s t' s',
  Coherent s -> e_running s = true ->
  traceLoop cfg aliasCodeMask n i steps pc super t s = (t', s') ->
  Coherent s' /\ Stays s s'.
Proof.
  induction n as [|n IH]; intros i steps pc super t s t' s' HC Hr; cbn [traceLoop]; cbv zeta.
  { intros [= <- <-]. split; [done|apply Stays_refl]. }
  assert (Hsame : Coherent s /\ Stays s s) by (split; [done|apply Stays_refl]).
  destruct (ts_clockDone _); [by intros [= <- <-]|].
  destruct (negb (ts_idle _)); [by intros [= <- <-]|].
  destruct (negb (pomJitCovers _ _ _ _)); [by intros [= <- <-]|].
  destruct (_ && (_ <>? pc)).
  { intros [= <- <-]. split; [by apply remember_coherent|apply remember_stays]. }
  destruct (endsBlock _); [by intros [= <- <-]|].
  destruct (_ && negb (pomJitCovers _ _ _ _)); [by intros [= <- <-]|].
  destruct (_ && negb (pomJitCovers _ _ _ _)); [by intros [= <- <-]|].
  set (s1 := guestRun (ts_events (steps i)) s).
  assert (H1 : Coherent s1 /\ Stays s s1)
    by (split; [by apply guestRun_coherent|by apply guestRun_stays]).
  clearbody s1. destruct (negb (ts_retired _)); [by intros [= <- <-]|].
  destruct (endsBlockAfter _); [by intros [= <- <-]|].
  destruct (_ || _); [by intros [= <- <-]|].
  destruct (_ && _); [by intros [= <- <-]|].
  destruct (tripped _); [by intros [= <- <-]|].
  destruct H1 as [HC1 HS1]. intros H. apply IH in H; [|done|by rewrite (st_running _ _ HS1)].
  destruct H as [HC2 HS2]. split; [done|by eapply Stays_trans].
Qed.

(** ** Filing the block *)

(** The copied words are those of memory, where the block lies in RAM. *)
Lemma finishIr_current ir0 why instrs pc at_ s : 
  bl_entryPc ir0 = pc -> 0 <= pc < 4294967296 ->
  (w_armed (e_window s) = true ->
     bl_physBase ir0 = w_phys (e_window s) /\ bl_codeBase ir0 = w_base (e_window s)) ->
  0 <= w_base (e_window s) ->
  let ir := finishIr cfg ir0 why instrs (copiedCode pc at_ s) in
  blockLo ir + blockLen ir <= 4294967296 -> current (e_mem s) ir.
Proof.
  intros Epc Hpc Hw Hb ir. unfold ir, finishIr, copiedCode.
  destruct ((pc <? at_) && _ && _ && _) eqn:E; [|intros _ i w Hi; done].
  unbool. destruct (Hw ltac:(done)) as [Ep Eb].
  set (l := _ <$> seqZ 0 _). intros Hram i w Hi Hlen.
  cbn [bl_code] in Hi. unfold l in Hi. rewrite list_lookup_fmap in Hi.
  destruct (seqZ 0 _ !! i) as [z|] eqn:Ez; [|done]. cbn in Hi. injection Hi as <-.
  apply lookup_seqZ in Ez as [-> Hz].
  unfold blockLo in *. cbn [bl_physBase bl_entryPc bl_codeBase] in *. rewrite Ep, Eb, Epc in *.
  set (lo := u32 (w_phys (e_window s) + u32 (pc - w_base (e_window s)))) in *.
  pose proof (u32_range (w_phys (e_window s) + u32 (pc - w_base (e_window s)))) as Hlo. fold lo in Hlo.
  pose proof (u32_range (at_ + 4)) as Hwant.
  assert (Hn2 : 2 * ((u32 (at_ + 4) - pc + 1) / 2) <= u32 (at_ + 4) - pc + 1) by (apply Z.mul_div_le; lia).
  set (len := blockLen _) in *. clearbody len.
  unfold pomJitPeek, memWord.
  assert (Ea : u32 (w_phys (e_window s) + u32 (u32 (pc + 2 * (0 + Z.of_nat i)) - w_base (e_window s))) =
               lo + 2 * Z.of_nat i).
  { rewrite (u32_small (pc + _)) by lia. unfold lo.
    rewrite !(u32_small (_ - w_base (e_window s))) by lia.
    rewrite <- (u32_small (u32 _ + 2 * Z.of_nat i)) by (unfold lo in *; rewrite (u32_small (pc - _)) in * by lia; lia).
    rewrite u32_add_l. f_equal. lia. }
  rewrite Ea, (u32_small (lo + 2 * Z.of_nat i + 1)) by lia. done.
Qed.

(** The block map with a block without code more. *)
Lemma insert_blocksOk k b s s' : BlocksOk s -> e_blocks s !! k = None -> blockWf k b ->
  b_code b = None -> b_node b = e_nodes s -> e_blocks s' = <[k := b]> (e_blocks s) ->
  e_nodes s' = e_nodes s + 1 -> e_codes s' = e_codes s -> BlocksOk s'.
Proof.
  intros [H1 H2 H3 H4 H5 H6] Hk Hwf Hc Hn Eb En Ec.
  assert (Hold : forall k' b', e_blocks s' !! k' = Some b' ->
                   k' = k /\ b' = b \/ k' <> k /\ e_blocks s !! k' = Some b').
  { intros k' b'. rewrite Eb, lookup_insert_Some. naive_solver. }
  split; rewrite ?En, ?Ec.
  - intros k' b' [[-> ->]|[_ Hl]]%Hold; [done|eauto].
  - intros k' b' [[-> ->]|[_ Hl]]%Hold; [lia|]. specialize (H2 _ _ Hl). lia.
  - intros k' b' c [[-> ->]|[_ Hl]]%Hold Hb'; [congruence|eauto].
  - intros c Hin. destruct (H4 c Hin) as (k' & b' & Hl & Hb'). exists k', b'. split; [|done].
    rewrite Eb, lookup_insert_ne; [done|]. intros ->. congruence.
  - intros k1 k2 b1 b2 c [[-> ->]|[_ L1]]%Hold [[-> ->]|[_ L2]]%Hold B1 B2; congruence || eauto.
  - intros c Hin. specialize (H6 c Hin). lia.
Qed.

(** Inserting a block without code, under a key that is free. *)
Lemma insert_coherent k b adm s : Coherent s -> e_enabled s = true ->
  e_blocks s !! k = None -> blockWf k b -> b_code b = None -> b_node b = e_nodes s ->
  ad_baseKey adm = key (bl_entryPc (b_ir b)) (bl_super (b_ir b)) ->
  ad_version adm = b_shiftVersion b ->
  (b_shiftVersion b <> plainVersion -> ad_baseKey adm ∈ sites_ (e_shift s)) ->
  (blockLo (b_ir b) + blockLen (b_ir b) <= cf_ram cfg -> current (e_mem s) (b_ir b)) ->
  Coherent (markPages k (blockLo (b_ir b)) (blockLen (b_ir b))
    (set_shift (commit adm (e_shift s))
      (set_blocks (<[k := b]> (e_blocks s)) (set_nodes (e_nodes s + 1) s)))).
Proof.
  intros [HB HI HP HT HD HS HL HW Hid Hby] He Hk Hwf Hc Hn Eb Ev Hs Hcur.
  set (s0 := set_shift (commit adm (e_shift s)) (set_nodes (e_nodes s + 1) s)).
  change (set_shift _ _) with (set_blocks (<[k := b]> (e_blocks s0)) s0).
  destruct (insert_index cfg k b s0) as (I1 & I2 & I3 & I4); [reuse HI|reuse HP|reuse HT|exact Hk|].
  set (s1 := set_blocks (<[k := b]> (e_blocks s0)) s0) in *.
  assert (F := blank_markPages k (blockLo (b_ir b)) (blockLen (b_ir b)) s1).
  revert I1 I2 I3 I4 F. generalize (markPages k (blockLo (b_ir b)) (blockLen (b_ir b)) s1).
  intros s' I1 I2 I3 I4 F.
  assert (Eblocks : e_blocks s' = <[k := b]> (e_blocks s)) by exact (f_equal e_blocks F).
  assert (Enodes : e_nodes s' = e_nodes s + 1) by exact (f_equal e_nodes F).
  assert (Ecodes : e_codes s' = e_codes s) by exact (f_equal e_codes F).
  assert (Edisp : e_dispatch s' = e_dispatch s) by exact (f_equal e_dispatch F).
  assert (Eshift : e_shift s' = commit adm (e_shift s)) by exact (f_equal e_shift F).
  assert (Egen : e_blocksGen s' = e_blocksGen s) by exact (f_equal e_blocksGen F).
  assert (Ew : e_window s' = e_window s /\ e_winPhys s' = e_winPhys s /\ e_winLen s' = e_winLen s)
    by exact (conj (f_equal e_window F) (conj (f_equal e_winPhys F) (f_equal e_winLen F))).
  assert (Een : e_enabled s' = e_enabled s) by exact (f_equal e_enabled F).
  assert (Eg : e_guard s' = e_guard s) by exact (f_equal e_guard F).
  assert (Em : e_mem s' = e_mem s) by exact (f_equal e_mem F).
  assert (El : e_links s' = e_links s /\ e_published s' = e_published s /\ e_cells s' = e_cells s /\
               e_publishedCells s' = e_publishedCells s)
    by exact (conj (f_equal e_links F) (conj (f_equal e_published F) (conj (f_equal e_cells F) (f_equal e_publishedCells F)))).
  clear F. change (pages s0) with (pages s) in I4. clearbody s1. clear s0 s1.
  assert (Hold : forall k' b', e_blocks s' !! k' = Some b' ->
                   k' = k /\ b' = b \/ k' <> k /\ e_blocks s !! k' = Some b').
  { intros k' b'. rewrite Eblocks, lookup_insert_Some. naive_solver. }
  assert (Hkeep : forall k' b', e_blocks s !! k' = Some b' -> e_blocks s' !! k' = Some b').
  { intros k' b' Hl. rewrite Eblocks, lookup_insert_ne; [done|]. intros ->. congruence. }
  split; [|exact I1|exact I2|exact I3| | | | | |].
  - by apply (insert_blocksOk k b s).
  - apply (DispatchOk_ext s); [done| |by rewrite Edisp|by rewrite Edisp].
    intros p [b' Hb']. unfold deref in *. destruct (e_blocks s !! p_key p) as [b0|] eqn:E0; [|done].
    rewrite (Hkeep _ _ E0). eauto.
  - apply (ShiftOk_ext (set_shift (commit adm (e_shift s)) (set_blocks (<[k := b]> (e_blocks s)) s)));
      [by apply insert_shift|exact Eshift|exact Eblocks].
  - destruct El as (L1 & L2 & L3 & L4). apply (LinksAt_mono (target linkEntry s) _ s); try done.
    intros k' e (b' & c & Hl & Hg & ?). exists b', c. rewrite Egen. auto.
  - destruct Ew as (W1 & W2 & W3). split. rewrite W1, W2, W3, Een. apply HW.
  - split; rewrite ?Een, ?Eg; [congruence|congruence|apply Hid].
  - destruct Hby as [Hr Hb]. split; [by rewrite I4|]. unfold pending. rewrite Em, Eg, I4.
    intros k' b' [[-> ->]|[_ Hl]]%Hold Hin; [left; by apply Hcur|by eapply Hb].
Qed.
End Trace.
