(* ===== verification/JitTurnFacts.v ===== *)
(** * JitTurnFacts: a turn of the dispatch loop keeps the engine ready

    [Ready] is the state between two turns of [executeUntil]: coherent,
    enabled, outside any block, and within the capacity of the block map.
    Every turn that does not go through a bad pointer leads from one to
    another, and enters translated code only for a live, up-to-date block of
    the current translation generation. *)

From S2P Require Import Prelude.
From S2P Require Import JitTypes.
From S2P Require Import JitDecode.
From S2P Require Import JitEa.
From S2P Require Import JitGuard.
From S2P Require Import JitShiftVersions.
From S2P Require Import JitDispatchCache.
From S2P Require Import JitEngineState.
From S2P Require Import JitBlockCache.
From S2P Require Import JitGuest.
From S2P Require Import JitTurn.
From S2P Require Import JitGuardFacts.
From S2P Require Import JitIndexFacts.
From S2P Require Import JitCoherence.
From S2P Require Import JitLinkFacts.
From S2P Require Import JitDispatchFacts.
From S2P Require Import JitEraseFacts.
From S2P Require Import JitFlushFacts.
From S2P Require Import JitGuestFacts.
From S2P Require Import JitTraceFacts.
From stdpp Require Import base list numbers option decidable gmap sets.

Open Scope Z_scope.

Lemma size_mono (m m' : gmap Z Block) :
  (forall k, is_Some (m' !! k) -> is_Some (m !! k)) -> (size m' <= size m)%nat.
Proof.
  intros H. rewrite <- !(size_dom (D := gset Z)). apply subseteq_size.
  intros k. rewrite !elem_of_dom. apply H.
Qed.

Section Turn.
Context (cfg : Config) (linkEntry : Z -> option Z).
Context (aliasCodeMask : Z -> list Z -> Z) (canEmit : Z -> bool) (branches : bool).
Hypothesis ram_range : cf_ram cfg <= 4294967296.
Notation Coherent := (Coherent cfg linkEntry).
Notation guestStep := (guestStep cfg aliasCodeMask).
Notation guestRun := (guestRun cfg aliasCodeMask).

Definition fits (s : Engine) : Prop := Z.of_nat (size (e_blocks s)) <= Z.max 0 (cf_maxBlocks cfg).

Record Ready (s : Engine) : Prop := {
  rd_coherent : Coherent s;
  rd_running : e_running s = false;
  rd_enabled : e_enabled s = true;
  rd_fits : fits s
}.

Lemma fits_sub s s' : (forall k, is_Some (e_blocks s' !! k) -> is_Some (e_blocks s !! k)) ->
  fits s -> fits s'.
Proof. intros H. unfold fits. pose proof (size_mono _ _ H). lia. Qed.

Lemma fits_eq s s' : e_blocks s' = e_blocks s -> fits s -> fits s'.
Proof. unfold fits. by intros ->. Qed.

(** ** Guest code between blocks *)

Lemma guestStep_ready s ev : Ready s -> Ready (guestStep s ev).
Proof.
  intros [HC Hr He Hf]. assert (ev = GFlush \/ ev <> GFlush) as [->|Hn] by (destruct ev; (by left) || by right).
  - cbn. destruct (flushed_coherent cfg linkEntry s HC Hr He) as (H1 & H2 & _ & H4 & H5 & _).
    split; [done|done|done|]. apply (fits_sub s); [|done]. rewrite H2. intros k [x Hx].
    by rewrite lookup_empty in Hx.
  - assert (HS := guestStep_stays cfg aliasCodeMask s ev ltac:(congruence)).
    split; [by apply guestStep_coherent|by rewrite (st_running _ _ HS)|by rewrite (st_enabled _ _ HS)|].
    by apply (fits_eq s); [apply HS|].
Qed.

Lemma guestRun_ready evs : forall s, Ready s -> Ready (guestRun evs s).
Proof.
  unfold JitGuest.guestRun. induction evs as [|ev evs IH]; intros s H; cbn [foldl]; [done|].
  apply IH. by apply guestStep_ready.
Qed.

Lemma Ready_stays s s' : Ready s -> Coherent s' -> Stays s s' -> Ready s'.
Proof.
  intros [_ Hr He Hf] HC HS. split; [done|by rewrite (st_running _ _ HS)|by rewrite (st_enabled _ _ HS)|].
  by apply (fits_eq s); [apply HS|].
Qed.

(** Inside a block: what comes back is ready, with the blocks it had. *)
Lemma guestInside_ready evs s : Ready s -> Ready (guestRunInside cfg aliasCodeMask evs s).
Proof.
  intros [HC Hr He Hf]. unfold guestRunInside.
  assert (HC1 : Coherent (set_running true s)) by inert HC.
  assert (HC2 := guestRun_coherent cfg linkEntry aliasCodeMask evs ram_range _ HC1).
  assert (HS := guestRun_stays cfg aliasCodeMask evs (set_running true s) eq_refl).
  revert HC2 HS. generalize (guestRun evs (set_running true s)). intros s' HC2 HS.
  split; [inert HC2|done|exact (eq_trans (st_enabled _ _ HS) He)|].
  apply (fits_eq s); [exact (st_blocks _ _ HS)|exact Hf].
Qed.

Lemma serviceGuard_blocks s : Ready s ->
  forall k b, e_blocks (serviceGuard s) !! k = Some b -> e_blocks s !! k = Some b.
Proof.
  intros [HC Hr He _] k b. unfold serviceGuard. destruct (negb _); [done|].
  destruct (_ || _).
  - destruct (flushed_coherent cfg linkEntry s HC Hr He) as (_ & -> & _). by rewrite lookup_empty.
  - destruct (foldl_drops cfg linkEntry serviceHit (hits (e_guard s)) (serviceHit_drops cfg linkEntry) s HC)
      as (_ & _ & _ & Hsub). exact (Hsub k b).
Qed.

Lemma serviceGuard_ready s : Ready s ->
  Ready (serviceGuard s) /\ tripped (e_guard (serviceGuard s)) = false.
Proof.
  intros H. destruct (serviceGuard_coherent cfg linkEntry s) as (H1 & H2 & H3 & H4 & _); try apply H.
  split; [|done]. split; [done|done|done|]. apply (fits_sub s); [|apply H].
  intros k [b Hb]. exists b. by apply serviceGuard_blocks.
Qed.

Lemma disarm_ready s : Ready s -> Ready (disarmWindow s).
Proof.
  intros [HC Hr He Hf]. split; [|done|done|exact Hf].
  destruct HC as [HB HI HP HT HD HS HL HW Hid Hby].
  split; [reuse HB|reuse HI|reuse HP|reuse HT|reuse HD|reuse HS|reuse HL|by split|reuse Hid|reuse Hby].
Qed.

(** ** Arming the window *)

(** A window that is armed leaves the guard quiet. *)
Lemma armWindow_ready a pc super s r s' : Ready s -> armWindow cfg a pc super s = (r, s') ->
  Ready s' /\ (r = true -> tripped (e_guard s') = false /\ w_armed (e_window s') = true).
Proof.
  intros H. unfold armWindow. destruct (cf_useWindow cfg); cbn [negb]; [|by intros [= <- <-]].
  destruct (aa_pipe a); [intros [= <- <-]; by split; [apply disarm_ready|]|].
  destruct (negb (cf_paranoid cfg) && pomJitCovers super (aa_match a) pc s && negb (tripped (e_guard s))) eqn:E.
  { intros [= <- <-]. unfold pomJitCovers in E. unbool. done. }
  clear E. destruct (serviceGuard_ready s H) as [H1 Hq].
  revert H1 Hq. generalize (serviceGuard s). clear s H. intros s H Hq.
  assert (Hd := disarm_ready s H).
  destruct (aa_probe a) as [[[phys base] plen]|]; [|by intros [= <- <-]].
  destruct (aa_span a) as [span|]; [|by intros [= <- <-]]. cbv zeta.
  destruct (span <? kMinWindow); [by intros [= <- <-]|].
  set (len := if plen <? span then plen else span). destruct (_ || _); [by intros [= <- <-]|].
  set (s1 := set_winLen len (set_winPhys _ _)).
  assert (H1 : Ready s1).
  { destruct H as [HC Hr He Hf]. split; [|done|done|exact Hf].
    destruct HC as [HB HI HP HT HD HS HL HW Hid Hby].
    split; [reuse HB|reuse HI|reuse HP|reuse HT|reuse HD|reuse HS|reuse HL| |reuse Hid|reuse Hby].
    split. intros _ _. cbn. split; [done|]. split; [done|]. apply u32_range. }
  assert (Hq1 : tripped (e_guard s1) = false) by exact Hq. clearbody s1.
  destruct (pomJitCovers super (aa_matchAfter a) pc s1) eqn:E.
  - intros [= <- <-]. split; [done|]. intros _. split; [done|].
    unfold pomJitCovers in E. unbool. done.
  - intros [= <- <-]. split; [by apply disarm_ready|done].
Qed.

(** ** Recording *)

Lemma evictCold_ready order s : Ready s ->
  Ready (evictColdBlocks order s) /\ e_window (evictColdBlocks order s) = e_window s /\
  e_guard (evictColdBlocks order s) = e_guard s.
Proof.
  intros [HC Hr He Hf].
  destruct (foldl_drops cfg linkEntry evictCold1 order (evictCold1_drops cfg linkEntry) s HC)
    as (HC1 & K & _ & Hsub). unfold evictColdBlocks. cbv zeta.
  revert HC1 K Hsub. generalize (foldl evictCold1 s order). intros s1 HC1 K Hsub.
  split; [|exact (conj (kp_window _ _ K) (kp_guard _ _ K))].
  split; [inert HC1|exact (eq_trans (kp_running _ _ K) Hr)|exact (eq_trans (kp_enabled _ _ K) He)|].
  apply (fits_sub s); [|done]. intros k [b Hb]. exists b. by apply Hsub.
Qed.

(** A change of the sites and histograms of the version cache. *)
Lemma sites_coherent c s : Coherent s -> masks_ c = masks_ (e_shift s) ->
  sites_ (e_shift s) ⊆ sites_ c -> Coherent (set_shift c s).
Proof.
  intros [HB HI HP HT HD HS HL HW Hid Hby] Em Es.
  split; [reuse HB|reuse HI|reuse HP|reuse HT|reuse HD| |reuse HL|reuse HW|reuse Hid|reuse Hby].
  destruct HS as [H1 H2 H3]. split; unfold siteMask in *; cbn; rewrite ?Em; [exact H1| |exact H3].
  intros base v Hb Hv Hl. by apply Es, (H2 base v).
Qed.

Lemma evictSlot_coherent k s : Coherent s -> Coherent (set_dispatch (evict k (e_dispatch s)) s).
Proof.
  intros [HB HI HP HT HD HS HL HW Hid Hby].
  split; [reuse HB|reuse HI|reuse HP|reuse HT| |reuse HS|reuse HL|reuse HW|reuse Hid|reuse Hby].
  apply (evict_dispatch k s); [done| |done]. intros p _ Hp. exact Hp.
Qed.

Lemma prune_coherent k alive s : Coherent s -> Coherent (set_shift (prune k alive (e_shift s)) s).
Proof.
  intros [HB HI HP HT HD HS HL HW Hid Hby].
  split; [reuse HB|reuse HI|reuse HP|reuse HT|reuse HD| |reuse HL|reuse HW|reuse Hid|reuse Hby].
  by apply prune_shift.
Qed.

Lemma fileBlock_ready pc super ve adm ir0 t s : Ready s ->
  Z.of_nat (size (e_blocks s)) < cf_maxBlocks cfg ->
  0 <= pc < 4294967296 -> bl_entryPc ir0 = pc -> bl_super ir0 = super ->
  admissible adm pc super ->
  (ad_version adm <> plainVersion -> ad_baseKey adm ∈ sites_ (e_shift s)) ->
  (w_armed (e_window s) = true ->
     bl_physBase ir0 = w_phys (e_window s) /\ bl_codeBase ir0 = w_base (e_window s)) ->
  Ready (fileBlock cfg canEmit branches pc ve adm ir0 t s).
Proof.
  intros HR Hsz Hpc Epc Esp [Eb Ek] Hsite Hw. unfold fileBlock. cbv zeta.
  destruct (_ || _ || _).
  { destruct ve; [|done]. destruct HR as [HC Hr He Hf]. split; try done. by apply prune_coherent. }
  destruct (e_pendingFlush s).
  { exact (guestStep_ready s GFlush HR). }
  match goal with |- context [finishIr cfg ir0 ?w ?l _] =>
    set (why := w); set (instrs := l); set (ir := finishIr cfg ir0 why instrs (copiedCode pc (tr_at t) s))
  end.
  assert (Eir : bl_entryPc ir = pc /\ bl_super ir = super).
  { unfold ir, finishIr. by destruct (copiedCode pc (tr_at t) s). }
  set (b := mkBlk ir _ _ _ _ _ _ _ _).
  destruct (e_blocks s !! ad_cacheKey adm) eqn:El; [done|].
  destruct HR as [HC Hr He Hf].
  assert (HC' : Coherent (markPages (ad_cacheKey adm) (blockLo (b_ir b)) (blockLen (b_ir b))
    (set_shift (commit adm (e_shift s))
      (set_blocks (<[ad_cacheKey adm := b]> (e_blocks s)) (set_nodes (e_nodes s + 1) s))))).
  { destruct Eir as [E1 E2]. apply insert_coherent; cbn; rewrite ?E1, ?E2; try done.
    - split; cbn; rewrite ?E1, ?E2; done.
    - intros Hin. destruct (decide (w_armed (e_window s) = true)) as [Ha|Hna].
      + apply finishIr_current; try done; [|exact (Z.le_trans _ _ _ Hin ram_range)].
        apply (wn_phys _ (co_window _ _ _ HC) He Ha).
      + intros i w Hi. unfold ir, finishIr, copiedCode in Hi. apply not_true_is_false in Hna.
        rewrite Hna, andb_false_r in Hi. cbn in Hi. done. }
  set (s0 := set_shift _ _) in *. change (b_ir b) with ir in HC'.
  assert (F := blank_markPages (ad_cacheKey adm) (blockLo ir) (blockLen ir) s0).
  split; [exact HC'|exact (eq_trans (f_equal e_running F) Hr)|exact (eq_trans (f_equal e_enabled F) He)|].
  unfold fits. assert (Eb' : e_blocks (markPages (ad_cacheKey adm) (blockLo ir) (blockLen ir) s0) =
    <[ad_cacheKey adm := b]> (e_blocks s)) by exact (f_equal e_blocks F).
  rewrite Eb', map_size_insert_None by done. lia.
Qed.

Lemma record_ready a pc super s r s' : Ready s -> 0 <= pc < 4294967296 ->
  record cfg aliasCodeMask canEmit branches a pc super s = (r, s') -> Ready s'.
Proof.
  intros HR Hpc. unfold record. cbv zeta.
  set (s1 := if _ <=? _ then evictColdBlocks (ra_order a) s else s).
  assert (H1 : Ready s1) by (unfold s1; destruct (_ <=? _); [by apply evictCold_ready|done]).
  clearbody s1. clear HR s. destruct (Z.leb_spec (cf_maxBlocks cfg) (Z.of_nat (size (e_blocks s1)))) as [|Hsz];
    [by intros [= <- <-]|].
  set (site := if cf_nativeCode cfg then _ else None).
  destruct (admitShift _ _ _ _ _ _) as [adm sh] eqn:Ea.
  apply admit_admissible in Ea as (Hadm & Hsite & Emask & Hsub).
  set (s2 := if bool_decide (is_Some site) then _ else set_shift sh s1).
  assert (H2 : Ready s2 /\ e_blocks s2 = e_blocks s1 /\ e_shift s2 = sh /\ e_window s2 = e_window s1).
  { destruct H1 as [HC Hr He Hf]. assert (HC1 := sites_coherent sh s1 HC Emask Hsub).
    unfold s2. destruct (bool_decide (is_Some site)); (split; [|done]); split; try done.
    exact (evictSlot_coherent (key pc super) (set_shift sh s1) HC1). }
  clearbody s2. destruct H2 as (H2 & Eb2 & Es2 & _). clear H1.
  destruct (ad_accepted adm); cbn [negb]; [|by intros [= <- <-]].
  destruct (traceLoop _ _ _ _ _ _ _ _ _) as [t s3] eqn:Et.
  destruct H2 as [HC Hr He Hf].
  assert (HCr : Coherent (set_running true s2)) by inert HC.
  destruct (traceLoop_ok cfg linkEntry aliasCodeMask ram_range _ _ _ _ _ _ _ _ _ HCr eq_refl Et) as [HC3 HS3].
  intros [= <- <-]. eapply fileBlock_ready; try done.
  - split; [inert HC3|done|exact (eq_trans (st_enabled _ _ HS3) He)|].
    apply (fits_eq s2); [exact (st_blocks _ _ HS3)|exact Hf].
  - change (e_blocks (set_running false s3)) with (e_blocks s3).
    rewrite (st_blocks _ _ HS3). change (e_blocks (set_running true s2)) with (e_blocks s2). by rewrite Eb2.
  - intros Hv. apply (st_sites _ _ HS3). rewrite (proj1 Hadm). change (e_shift (set_running true s2)) with (e_shift s2). rewrite Es2. by apply Hsite.
  - cbn. intros Ha. assert (Ha2 := st_armed _ _ HS3 Ha).
    destruct (wn_phys _ (co_window _ _ _ HC) He Ha2) as (E1 & _ & _).
    split; [rewrite E1; symmetry; exact (st_phys _ _ HS3)|symmetry; exact (st_base _ _ HS3)].
Qed.
End Turn.
