(* ===== verification/JitRunFacts.v ===== *)
(** * JitRunFacts: entering translated code

    What a turn does to a block it has found: the visit, the verdict of the
    compiler, the generation stamp, the published link.  Each keeps the cache
    coherent, and translated code is entered only through a pointer to a live
    block of the current generation whose code is outstanding. *)

From S2P Require Import Prelude.
From S2P Require Import JitTypes.
From S2P Require Import JitDecode.
From S2P Require Import JitEa.
From S2P Require Import JitGuard.
From S2P Require Import JitShiftVersions.
From S2P Require Import JitDispatchCache.
From S2P Require Import JitEngineState.
From S2P Require Import JitBlockCache.
From S2P Require Import JitGuest.
From S2P Require Import JitTurn.
From S2P Require Import JitGuardFacts.
From S2P Require Import JitIndexFacts.
From S2P Require Import JitCoherence.
From S2P Require Import JitLinkFacts.
From S2P Require Import JitDispatchFacts.
From S2P Require Import JitEraseFacts.
From S2P Require Import JitFlushFacts.
From S2P Require Import JitGuestFacts.
From S2P Require Import JitTraceFacts.
From S2P Require Import JitTurnFacts.
From stdpp Require Import base list numbers option decidable gmap sets.

Open Scope Z_scope.

(** ** Changing a block in place *)

(** What identifies a block never changes under it. *)
Definition inPlace (f : Block -> Block) : Prop := forall b,
  b_ir (f b) = b_ir b /\ b_shiftVersion (f b) = b_shiftVersion b /\ b_node (f b) = b_node b.

Lemma alter_cases (f : Block -> Block) k (m : gmap Z Block) k' b' : alter f k m !! k' = Some b' ->
  exists b, m !! k' = Some b /\ (k' = k /\ b' = f b \/ k' <> k /\ b' = b).
Proof.
  destruct (decide (k' = k)) as [->|Hn].
  - rewrite lookup_alter_eq. intros (b & -> & Hb)%fmap_Some. eauto.
  - rewrite lookup_alter_ne by congruence. eauto.
Qed.

Lemma alter_is_Some (f : Block -> Block) k (m : gmap Z Block) k' :
  is_Some (alter f k m !! k') <-> is_Some (m !! k').
Proof.
  destruct (decide (k' = k)) as [->|Hn].
  - by rewrite lookup_alter_eq, fmap_is_Some.
  - by rewrite lookup_alter_ne by congruence.
Qed.

Lemma alter_size (f : Block -> Block) k (m : gmap Z Block) : size (alter f k m) = size m.
Proof.
  rewrite <- !(size_dom (D := gset Z)). f_equal. apply set_eq. intros x.
  by rewrite !elem_of_dom, alter_is_Some.
Qed.

Lemma alter_deref f k C N s p : inPlace f -> is_Some (deref s p) ->
  is_Some (deref (updBlock k f (set_codes C (set_nodes N s))) p).
Proof.
  intros Hf. unfold deref, updBlock. cbn. destruct (e_blocks s !! p_key p) as [b|] eqn:E; [|by intros []].
  destruct (decide (p_key p = k)) as [<-|Hn].
  - rewrite lookup_alter_eq, E. cbn. destruct (Hf b) as (_ & _ & ->). by destruct (_ =? _).
  - rewrite lookup_alter_ne by congruence. by rewrite E.
Qed.

Section Run.
Context (cfg : Config) (linkEntry : Z -> option Z).
Notation Coherent := (Coherent cfg linkEntry).

(** The facets that only see what stays. *)
Lemma alter_coherent f k C N s : inPlace f -> Coherent s ->
  let s' := updBlock k f (set_codes C (set_nodes N s)) in
  BlocksOk s' -> LinksOk linkEntry s' -> Coherent s'.
Proof.
  intros Hf [HB HI HP HT HD HS HL HW Hid Hby] s' HB' HL'.
  assert (Hir : sameIr s s').
  { intros k'. unfold s', updBlock. cbn. destruct (decide (k' = k)) as [->|Hn].
    - rewrite lookup_alter_eq, <- option_fmap_compose. apply option_fmap_ext. intros b. apply Hf.
    - by rewrite lookup_alter_ne by congruence. }
  split; [exact HB'|by apply (IndexAt_ext _ _ s)|reuse HP|reuse HT| | |exact HL'|reuse HW| |].
  - apply (DispatchOk_ext s); [done| |done|done]. intros p. by apply alter_deref.
  - destruct HS as [H1 H2 H3]. split; [| |exact H3].
    + intros base v Hb Hv. unfold s', updBlock. cbn. rewrite alter_is_Some. by apply H1.
    + intros base v Hb Hv Hl. unfold s', updBlock in Hl. cbn in Hl. rewrite alter_is_Some in Hl.
      exact (H2 base v Hb Hv Hl).
  - destruct Hid as [H1 H2 H3]. split; [|exact H2|exact H3]. intros He.
    unfold s', updBlock. cbn. apply map_eq. intros k'. rewrite (H1 He), lookup_empty.
    destruct (decide (k' = k)) as [->|]; [by rewrite lookup_alter_eq|by rewrite lookup_alter_ne].
  - destruct Hby as [Hr H]. split; [exact Hr|]. intros k' b' Hb' Hin.
    destruct (sameIr_lookup _ _ _ _ Hir Hb') as (b & Hb & E). rewrite <- E in *.
    exact (H k' b Hb Hin).
Qed.

Lemma same_counters s : set_codes (e_codes s) (set_nodes (e_nodes s) s) = s.
Proof. by destruct s. Qed.

(** A change that leaves the code, and a current stamp, alone. *)
Lemma upd_coherent f k s : inPlace f -> (forall b, b_code (f b) = b_code b) ->
  (forall b, b_gen b = e_blocksGen s -> b_gen (f b) = e_blocksGen s) ->
  Coherent s -> Coherent (updBlock k f s).
Proof.
  intros Hf Hc Hg HC. rewrite <- (same_counters s) at 1.
  assert (Old : forall k' b', alter f k (e_blocks s) !! k' = Some b' ->
    exists b, e_blocks s !! k' = Some b /\ b_code b' = b_code b /\ b_ir b' = b_ir b /\
              b_shiftVersion b' = b_shiftVersion b /\ b_node b' = b_node b).
  { intros k' b' (b & Hb & [[-> ->]|[_ ->]])%alter_cases; exists b; [|done].
    destruct (Hf b) as (? & ? & ?). auto. }
  assert (New : forall k' b, e_blocks s !! k' = Some b -> exists b',
    alter f k (e_blocks s) !! k' = Some b' /\ b_code b' = b_code b /\
    b_shiftVersion b' = b_shiftVersion b /\ (b_gen b = e_blocksGen s -> b_gen b' = e_blocksGen s)).
  { intros k' b Hb. destruct (decide (k' = k)) as [->|].
    - exists (f b). rewrite lookup_alter_eq, Hb. destruct (Hf b) as (? & ? & ?). auto.
    - exists b. by rewrite lookup_alter_ne. }
  apply alter_coherent; [done|done| |]; rewrite same_counters.
  - destruct (co_blocks _ _ _ HC) as [H1 H2 H3 H4 H5 H6]. split; unfold updBlock; cbn; [| | | | |done].
    + intros k' b' (b & Hb & _ & E1 & E2 & _)%Old. specialize (H1 _ _ Hb). unfold blockWf in *. by rewrite E1, E2.
    + intros k' b' (b & Hb & _ & _ & _ & ->)%Old. eauto.
    + intros k' b' c (b & Hb & -> & _)%Old. eauto.
    + intros c Hin. destruct (H4 c Hin) as (k' & b & Hb & Hcode).
      destruct (New _ _ Hb) as (b' & Hb' & E & _). exists k', b'. by rewrite E.
    + intros k1 k2 b1 b2 c (b1' & Hb1 & -> & _)%Old (b2' & Hb2 & -> & _)%Old. eauto.
  - apply (LinksAt_mono (target linkEntry s) _ s); try done; [|apply HC].
    intros k' e (b & c & Hb & Hgb & Hv & Hcode & He). destruct (New _ _ Hb) as (b' & Hb' & E1 & E2 & E3).
    exists b', c. unfold updBlock. cbn. rewrite E1, E2. auto.
Qed.

(** The compiler hands out a new piece of code. *)
Lemma code_coherent k b s : Coherent s -> e_blocks s !! k = Some b -> b_code b = None ->
  Coherent (updBlock k (set_code (Some (e_nodes s)))
              (set_codes ({[e_nodes s]} ∪ e_codes s) (set_nodes (e_nodes s + 1) s))).
Proof.
  intros HC Hk Hn. set (n := e_nodes s).
  assert (Old : forall k' b', alter (set_code (Some n)) k (e_blocks s) !! k' = Some b' ->
    exists b0, e_blocks s !! k' = Some b0 /\ b_ir b' = b_ir b0 /\ b_node b' = b_node b0 /\
      b_shiftVersion b' = b_shiftVersion b0 /\ (k' = k /\ b_code b' = Some n \/ k' <> k /\ b' = b0)).
  { intros k' b' (b0 & Hb0 & [[-> ->]|[? ->]])%alter_cases; exists b0; auto 10. }
  assert (New : forall k' b0 c, e_blocks s !! k' = Some b0 -> b_code b0 = Some c ->
    alter (set_code (Some n)) k (e_blocks s) !! k' = Some b0).
  { intros k' b0 c Hb0 Hc. rewrite lookup_alter_ne; [done|]. intros <-. congruence. }
  apply alter_coherent; [done|done| |].
  - destruct (co_blocks _ _ _ HC) as [H1 H2 H3 H4 H5 H6]. fold n in H2, H6.
    split; unfold updBlock; cbn; fold n.
    + intros k' b' (b0 & Hb & E1 & _ & E2 & _)%Old. specialize (H1 _ _ Hb). unfold blockWf in *. by rewrite E1, E2.
    + intros k' b' (b0 & Hb & _ & -> & _)%Old. specialize (H2 _ _ Hb). lia.
    + intros k' b' c (b0 & Hb & _ & _ & _ & [[_ E]|[_ ->]])%Old; [|set_solver]. rewrite E. set_solver.
    + intros c [->%elem_of_singleton|Hin]%elem_of_union.
      * exists k, (set_code (Some n) b). by rewrite lookup_alter_eq, Hk.
      * destruct (H4 c Hin) as (k' & b0 & Hb & Hc). exists k', b0. eauto.
    + intros k1 k2 b1 b2 c (c1 & L1 & _ & _ & _ & D1)%Old (c2 & L2 & _ & _ & _ & D2)%Old E1 E2.
      destruct D1 as [[-> D1]|[N1 ->]], D2 as [[-> D2]|[N2 ->]]; [done| | |by eapply H5].
      * assert (n = c) as -> by congruence. specialize (H6 c (H3 _ _ _ L2 E2)). lia.
      * assert (n = c) as -> by congruence. specialize (H6 c (H3 _ _ _ L1 E1)). lia.
    + intros c [->%elem_of_singleton|Hin]%elem_of_union; [lia|]. specialize (H6 c Hin). lia.
  - apply (LinksAt_mono (target linkEntry s) _ s); try done; [|apply HC].
    intros k' e (b0 & c & Hb & Hg & Hv & Hc & He). exists b0, c. unfold updBlock. cbn. eauto 10.
Qed.

(** ** Finding the block *)

Definition keyFor (pc : Z) (super : bool) (k : Z) : Prop :=
  k = key pc super \/ exists v, 0 <= v < 32 /\ k = versionKey (key pc super) v.

(** The block at such a key is the one of this entry, in the version the key says. *)
Lemma keyFor_block pc super k b : 0 <= pc < 4294967296 -> keyFor pc super k -> blockWf k b ->
  bl_entryPc (b_ir b) = pc /\ bl_super (b_ir b) = super /\
  (b_shiftVersion b = plainVersion /\ k = key pc super \/
   0 <= b_shiftVersion b < 32 /\ k = versionKey (key pc super) (b_shiftVersion b)).
Proof.
  intros Hpc Hk (Hr & Hw). set (base := key _ _) in Hw.
  assert (Rb : 0 <= base < 8589934592) by (by apply key_range).
  assert (Rk : 0 <= key pc super < 8589934592) by (by apply key_range).
  destruct Hk as [->|(v & Hv & ->)], Hw as [[Ev E]|[Hv' E]].
  - destruct (key_inj _ _ _ _ Hpc Hr E) as [<- <-]. auto.
  - exfalso. destruct (version_key base _ Rb Hv') as [V _]. destruct (plain_key _ Rk) as [P _]. congruence.
  - exfalso. destruct (version_key _ v Rk Hv) as [V _]. destruct (plain_key _ Rb) as [P _]. congruence.
  - apply versionKey_inj in E as [E ->]; [|done|done].
    destruct (key_inj _ _ _ _ Hpc Hr E) as [<- <-]. auto.
Qed.

Lemma publish_coherent pc super k b s : 0 <= pc < 4294967296 -> keyFor pc super k ->
  Coherent s -> e_blocks s !! k = Some b -> b_gen b = e_blocksGen s ->
  Coherent (publish linkEntry pc super b s) /\ relinked s (publish linkEntry pc super b s).
Proof.
  intros Hpc Hkey HC Hk Hg. assert (Hwf := bk_wf _ (co_blocks _ _ _ HC) _ _ Hk).
  destruct (keyFor_block pc super k b Hpc Hkey Hwf) as (_ & _ & Hv).
  assert (Same : Coherent s /\ relinked s s) by (split; [done|apply relinked_refl]).
  unfold publish. destruct (Z.eqb_spec (b_shiftVersion b) 0xFF) as [E|]; [|done].
  destruct Hv as [[_ ->]|[Hv _]]; [|lia].
  destruct (b_code b) as [c|] eqn:Ec; [cbn|done]. destruct (linkEntry c) as [e|] eqn:El; [|done].
  assert (R := relinked_publish pc super e s). split; [|done].
  apply (relinked_coherent cfg linkEntry s); [done|done|].
  assert (T : target linkEntry s (key pc super) e) by (exists b, c; auto).
  assert (L := publishLink_links (target linkEntry s) pc super e s Hpc T (co_links _ _ _ HC)).
  destruct L as [L1 L2 L3 L4]. split; [|exact L2| |exact L4].
  - intros i e' He. destruct (L1 i e' He) as (pc' & sup' & ? & ? & ? & HT).
    exists pc', sup'. eauto using target_relinked.
  - intros k' c' e' Hc He. eauto using target_relinked.
Qed.

(** A block of an earlier generation has no link left to it. *)
Lemma stale_unlinked k b s : Coherent s -> e_blocks s !! k = Some b -> b_gen b <> e_blocksGen s ->
  LinksAt (fun k' e => target linkEntry s k' e /\ k' <> k) s.
Proof.
  intros HC Hk Hg. apply (LinksAt_mono (target linkEntry s) _ s); try done; [|apply HC].
  intros k' e HT. split; [done|]. destruct HT as (b' & c & Hb & Hgb & _). congruence.
Qed.

Lemma lookup_deref k b s : e_blocks s !! k = Some b -> deref s (ptrTo k b) = Some b.
Proof. intros H. unfold deref, ptrTo. cbn. rewrite H. cbn. by rewrite Z.eqb_refl. Qed.

(** The stale block is re-proved, with its link published again, or erased. *)
Lemma findBlock_ok pc super k s ob s' : 0 <= pc < 4294967296 -> keyFor pc super k ->
  Coherent s -> findBlock linkEntry pc super k s = (ob, s') ->
  Coherent s' /\ Kept s s' /\ (forall x, is_Some (e_blocks s' !! x) -> is_Some (e_blocks s !! x)) /\
  (forall b, ob = Some b -> e_blocks s' !! k = Some b /\ b_gen b = e_blocksGen s' /\ e_shift s' = e_shift s).
Proof.
  intros Hpc Hkey HC. unfold findBlock. destruct (e_blocks s !! k) as [b|] eqn:Ek.
  2: { intros [= <- <-]. by split; [|split; [apply Kept_refl|]]. }
  destruct (Z.eqb_spec (b_gen b) (e_blocksGen s)) as [Eg|Hg].
  { intros [= <- <-]. split; [done|]. split; [apply Kept_refl|]. split; [done|]. by intros ? [= <-]. }
  destruct (_ && _ && _).
  - intros [= <- <-]. set (s1 := updBlock k _ s). set (b1 := set_gen _ b).
    assert (HC1 : Coherent s1) by (by apply upd_coherent).
    assert (Hk1 : e_blocks s1 !! k = Some b1) by (unfold s1, updBlock; cbn; by rewrite lookup_alter_eq, Ek).
    destruct (publish_coherent pc super k b1 s1 Hpc Hkey HC1 Hk1 eq_refl) as [HC2 R].
    destruct (relinked_kept _ _ R) as [K E]. split; [done|].
    assert (K1 : Kept s s1) by (by split). split; [by eapply Kept_trans|].
    rewrite E. split; [intros x; by apply alter_is_Some|]. intros ? [= <-].
    rewrite (kp_blocksGen _ _ K). split; [done|]. split; [done|].
    by destruct R as (? & ? & ? & ? & ->).
  - intros [= <- <-]. destruct (erase_coherent cfg linkEntry k b s HC Ek) as [HC1 _]; [by eapply stale_unlinked|].
    split; [done|]. split; [apply erase_kept|]. split; [|done].
    rewrite erase_blocks. intros x [bx Hx]. apply lookup_delete_Some in Hx as [_ Hx]. by exists bx.
Qed.

(** A new generation starts without links. *)
Lemma newGen_coherent s : Coherent s ->
  Coherent (set_blocksGen (e_mmuGen s) (clearLinks (pomJitDtlbFlush s))).
Proof.
  intros HC. assert (HC1 := dtlbFlush_coherent cfg linkEntry s HC).
  assert (HC2 : Coherent (clearLinks (pomJitDtlbFlush s))).
  { apply (relinked_coherent cfg linkEntry (pomJitDtlbFlush s)); [apply relinked_clear|done|].
    eapply clearLinks_links. apply HC1. }
  assert (L := clearLinks_links _ (target linkEntry (set_blocksGen (e_mmuGen s) (clearLinks (pomJitDtlbFlush s))))
    _ (co_links _ _ _ HC1)).
  revert HC2 L. generalize (clearLinks (pomJitDtlbFlush s)). intros s2 [HB HI HP HT HD HS HL HW Hid Hby] L.
  split; [reuse HB|reuse HI|reuse HP|reuse HT|reuse HD|reuse HS| |reuse HW|reuse Hid|reuse Hby]. reuse L.
Qed.

(** The counters of the dispatch cache. *)
Lemma counters_coherent d s : Coherent s -> entries_ d = entries_ (e_dispatch s) ->
  mask_ d = mask_ (e_dispatch s) -> Coherent (set_dispatch d s).
Proof.
  intros [HB HI HP HT HD HS HL HW Hid Hby] E1 E2.
  split; [reuse HB|reuse HI|reuse HP|reuse HT| |reuse HS|reuse HL|reuse HW|reuse Hid|reuse Hby].
  by apply (DispatchOk_ext s).
Qed.

Lemma fill_coherent k b s : Coherent s -> isVersionKey k = false -> e_blocks s !! k = Some b ->
  Coherent (set_dispatch (fill k (ptrTo k b) (e_dispatch s)) s).
Proof.
  intros [HB HI HP HT HD HS HL HW Hid Hby] Hv Hk.
  split; [reuse HB|reuse HI|reuse HP|reuse HT| |reuse HS|reuse HL|reuse HW|reuse Hid|reuse Hby].
  by apply fill_dispatch.
Qed.

Lemma linkCell_coherent pc super s : 0 <= pc < 4294967296 -> Coherent s ->
  Coherent (linkCell linkEntry pc super s).
Proof.
  intros Hpc HC. apply (relinked_coherent cfg linkEntry s); [apply relinked_linkCell|done|].
  apply linkCell_links; [done|apply HC..].
Qed.

Lemma linkCells_coherent l : forall s, Coherent s ->
  let s' := foldl (fun s c => linkCell linkEntry (u32 (fst c)) (snd c) s) s l in
  Coherent s' /\ relinked s s'.
Proof.
  induction l as [|c l IH]; intros s HC; cbn [foldl]; [split; [done|apply relinked_refl]|].
  destruct (IH (linkCell linkEntry (u32 c.1) c.2 s)) as [H1 H2].
  { apply linkCell_coherent; [apply u32_range|done]. }
  split; [exact H1|]. eapply relinked_trans; [apply relinked_linkCell|exact H2].
Qed.
End Run.
