(* ===== verification/JitEntryFacts.v ===== *)
(** * JitEntryFacts: what holds when translated code is entered

    A turn that reaches the backend has a live block in hand: recorded for
    the entry the CPU is at, stamped with the current translation generation,
    its bytes those of memory, its code outstanding, and its version the one
    the live count register asks for.  Every other turn leaves the engine
    ready for the next. *)

From S2P Require Import Prelude.
From S2P Require Import JitTypes.
From S2P Require Import JitDecode.
From S2P Require Import JitEa.
From S2P Require Import JitGuard.
From S2P Require Import JitShiftVersions.
From S2P Require Import JitDispatchCache.
From S2P Require Import JitEngineState.
From S2P Require Import JitBlockCache.
From S2P Require Import JitGuest.
From S2P Require Import JitTurn.
From S2P Require Import JitGuardFacts.
From S2P Require Import JitIndexFacts.
From S2P Require Import JitCoherence.
From S2P Require Import JitLinkFacts.
From S2P Require Import JitDispatchFacts.
From S2P Require Import JitEraseFacts.
From S2P Require Import JitFlushFacts.
From S2P Require Import JitGuestFacts.
From S2P Require Import JitTraceFacts.
From S2P Require Import JitTurnFacts.
From S2P Require Import JitRunFacts.
From stdpp Require Import base list numbers option decidable gmap sets.

Open Scope Z_scope.

Section Entry.
Context (cfg : Config) (linkEntry : Z -> option Z).
Context (aliasCodeMask : Z -> list Z -> Z) (canEmit : Z -> bool) (branches : bool).
Hypothesis ram_range : cf_ram cfg <= 4294967296.
Notation Coherent := (Coherent cfg linkEntry).
Notation Ready := (Ready cfg linkEntry).
Notation guestRun := (guestRun cfg aliasCodeMask).

(** ** The state on the way to a block *)

Record Poised (s : Engine) : Prop := {
  po_ready : Ready s;
  po_quiet : tripped (e_guard s) = false;
  po_gen : e_blocksGen s = e_mmuGen s
}.

Lemma poised_kept s s' : Poised s -> Coherent s' -> Kept s s' ->
  (forall k, is_Some (e_blocks s' !! k) -> is_Some (e_blocks s !! k)) -> Poised s'.
Proof.
  intros [[HC Hr He Hf] Hq Hg] HC' K Hsub. destruct K. split; [split|..]; try congruence.
  by apply (fits_sub cfg s).
Qed.

(** [p] leads to the block a turn with these answers is to run. *)
Definition aims (a : TurnAnswers) (s : Engine) (p : BlockPtr) (b : Block) : Prop :=
  deref s p = Some b /\ b_gen b = e_blocksGen s /\
  keyFor (u32 (ta_pc a)) (ta_super a) (p_key p) /\
  (b_shiftVersion b = plainVersion \/
   shiftSite (pomJitPeek (u32 (ta_pc a)) s) (ta_dreg a) = Some (b_shiftVersion b)).

Lemma deref_Some s p b : deref s p = Some b <-> e_blocks s !! p_key p = Some b /\ b_node b = p_node p.
Proof.
  unfold deref. destruct (e_blocks s !! p_key p) as [b'|]; cbn; [|naive_solver].
  destruct (Z.eqb_spec (b_node b') (p_node p)); naive_solver.
Qed.

Lemma peek_ext pc s s' : e_mem s' = e_mem s -> e_window s' = e_window s ->
  pomJitPeek pc s' = pomJitPeek pc s.
Proof. intros E1 E2. unfold pomJitPeek. by rewrite E1, E2. Qed.

Lemma aims_kept a s s' p b : aims a s p b -> e_mem s' = e_mem s -> e_window s' = e_window s ->
  e_blocksGen s' = e_blocksGen s -> deref s' p = Some b -> aims a s' p b.
Proof.
  intros (H1 & H2 & H3 & H4) E1 E2 E3 Hd. split; [done|]. rewrite E3. split; [done|].
  split; [done|]. by rewrite (peek_ext _ s s').
Qed.

Lemma aims_upd a f s p b : aims a s p b -> inPlace f -> (b_gen (f b) = b_gen b) ->
  aims a (updBlock (p_key p) f s) p (f b).
Proof.
  intros (H1 & H2 & H3 & H4) Hf Eg. destruct (Hf b) as (E1 & E2 & E3).
  split; [|split; [|split; [done|]]].
  - apply deref_Some in H1 as [Hl Hn]. apply deref_Some. unfold updBlock. cbn.
    rewrite lookup_alter_eq, Hl. cbn. by rewrite E3.
  - by rewrite Eg.
  - rewrite E2, (peek_ext _ s); [done|done|done].
Qed.

(** A change of the block in place on the way. *)
Lemma poised_upd f k s : inPlace f -> (forall b, b_code (f b) = b_code b) ->
  (forall b, b_gen (f b) = b_gen b) -> Poised s -> Poised (updBlock k f s).
Proof.
  intros Hf Hc Hg H. apply (poised_kept s); [done| |by split|].
  - apply upd_coherent; [done|done|by intros b <-|apply H].
  - intros x. by apply alter_is_Some.
Qed.

Lemma poised_ready s : Poised s -> Ready s.
Proof. apply po_ready. Qed.

(** Interpreting instead: from any state on the way. *)
Lemma poised_run evs s : Poised s -> Ready (guestRun evs s).
Proof. intros H. by apply guestRun_ready, po_ready. Qed.

(** ** Compiling *)

Lemma poised_flush s : Poised s -> Poised (pomJitDtlbFlush s).
Proof.
  intros H. apply (poised_kept s); [done|apply dtlbFlush_coherent, H|by split|done].
Qed.

Lemma poised_cells l s : Poised s ->
  let s' := foldl (fun s c => linkCell linkEntry (u32 (fst c)) (snd c) s) s l in
  Poised s' /\ relinked s s'.
Proof.
  intros H s'. destruct (linkCells_coherent cfg linkEntry l s (rd_coherent _ _ _ (po_ready _ H))) as [HC R].
  split; [|exact R]. destruct (relinked_kept _ _ R) as [K E].
  apply (poised_kept s); [done|exact HC|exact K|]. fold s' in E. by rewrite E.
Qed.

(** What a prepared turn guarantees. *)
Record Entered (a : TurnAnswers) (s : Engine) (p : BlockPtr) (code : Z) : Prop := {
  nt_poised : Poised s;
  nt_block : exists b, aims a s p b /\ b_code b = Some code
}.

Definition prepared (a : TurnAnswers) (r : Prepared) : Prop :=
  match r with
  | Again s => Ready s
  | RunBlock s p code => Entered a s p code
  | Crash => GFlush ∈ ta_window a
  end.

(** Only a flush frees a block while its window runs. *)
Lemma guestRun_blocks evs s : GFlush ∈ evs \/ e_blocks (guestRun evs s) = e_blocks s.
Proof.
  unfold JitGuest.guestRun. revert s. induction evs as [|ev evs IH]; intros s; cbn [foldl]; [by right|].
  assert (ev = GFlush \/ ev <> GFlush) as [->|Hn] by (destruct ev; (by left) || by right); [left; by constructor|].
  destruct (IH (guestStep cfg aliasCodeMask s ev)) as [|E]; [left; by constructor|]. right. rewrite E.
  exact (st_blocks _ _ (guestStep_stays cfg aliasCodeMask s ev ltac:(congruence))).
Qed.

Lemma window_again a s p : Poised s -> is_Some (deref s p) ->
  prepared a (let s := guestRun (ta_window a) s in match deref s p with None => Crash | Some _ => Again s end).
Proof.
  intros H [b Hb]. cbv zeta. destruct (deref (guestRun (ta_window a) s) p) eqn:E; [by apply poised_run|].
  cbn. destruct (guestRun_blocks (ta_window a) s) as [|Eb]; [done|]. exfalso.
  unfold deref in *. rewrite Eb in E. congruence.
Qed.

(** The code is handed out, stored and published. *)
Lemma compiled_entered a p b b0 s : Poised s -> aims a s p b -> b_code b = None ->
  b_shiftVersion b0 = b_shiftVersion b ->
  let code := e_nodes s in
  let s1 := set_codes ({[code]} ∪ e_codes s) (set_nodes (code + 1) s) in
  let s2 := updBlock (p_key p) (set_code (Some code)) s1 in
  Entered a (publish linkEntry (u32 (ta_pc a)) (ta_super a) (set_code (Some code) b0) s2) p code.
Proof.
  intros H Ha Hn Ev code s1 s2. destruct (Ha) as (Hd & Hg & Hk & Hv).
  apply deref_Some in Hd as [Hl Hnode].
  assert (HC2 : Coherent s2) by (apply (code_coherent cfg linkEntry _ b); [apply H|done|done]).
  assert (Ha2 : aims a s2 p (set_code (Some code) b)) by (by apply (aims_upd a _ s1)).
  assert (H2 : Poised s2).
  { destruct H as [[HC Hr He Hf] Hq Hgen]. split; [split|..]; try done.
    unfold fits, s2, updBlock. cbn. by rewrite alter_size. }
  set (b1 := set_code (Some code) b) in *.
  assert (Ep : publish linkEntry (u32 (ta_pc a)) (ta_super a) (set_code (Some code) b0) s2 =
               publish linkEntry (u32 (ta_pc a)) (ta_super a) b1 s2)
    by (unfold publish; cbn; by rewrite Ev).
  rewrite Ep. destruct (Ha2) as (Hd2 & Hg2 & _). apply deref_Some in Hd2 as [Hl2 Hn2].
  destruct (publish_coherent cfg linkEntry (u32 (ta_pc a)) (ta_super a) (p_key p) b1 s2) as [HC3 R];
    [apply u32_range|done|done|done|done|].
  destruct (relinked_kept _ _ R) as [K E].
  split; [apply (poised_kept s2); [done|done|done|by rewrite E]|].
  exists b1. split; [|done]. apply (aims_kept a s2); [done|apply K..|].
  apply deref_Some. by rewrite E.
Qed.

Lemma compileBlock_ok a p b b0 s : Poised s -> aims a s p b -> b_code b = None ->
  b_shiftVersion b0 = b_shiftVersion b ->
  prepared a (compileBlock cfg linkEntry aliasCodeMask a p b0 s).
Proof.
  intros H Ha Hn Ev. unfold compileBlock. cbv zeta.
  set (v := u32 (b_visits b0 + 1)). set (s1 := updBlock (p_key p) (set_visits v) s).
  assert (H1 : Poised s1) by (by apply poised_upd).
  assert (Ha1 : aims a s1 p (set_visits v b)) by (by apply aims_upd).
  clearbody s1. clear H Ha s. destruct (_ || _ || _); [apply window_again; [done|by eexists; apply Ha1]|].
  assert (H2 := poised_flush s1 H1). assert (Ha2 : aims a (pomJitDtlbFlush s1) p (set_visits v b)) by exact Ha1.
  revert H2 Ha2. generalize (pomJitDtlbFlush s1). clear s1 H1 Ha1. intros s H Ha.
  destruct (_ && _ && _); [apply window_again; [by apply poised_upd|by eexists; apply (aims_upd a _ s)]|].
  destruct (negb _); [apply window_again; [done|by eexists; apply Ha]|].
  set (s3 := if ta_cache040 a then s else _).
  assert (H3 : Poised s3 /\ aims a s3 p (set_visits v b)).
  { unfold s3. destruct (ta_cache040 a); [done|]. destruct (poised_cells (ta_cells a) s H) as [H3 R].
    split; [exact H3|]. destruct (relinked_kept _ _ R) as [K E].
    apply (aims_kept a s); [done|apply K..|]. apply deref_Some. rewrite E. by apply deref_Some, Ha. }
  clearbody s3. destruct H3 as [H3 Ha3]. destruct (ta_compile a).
  - cbv beta iota. by apply (compiled_entered a p (set_visits v b) b0 s3).
  - apply window_again; [by apply poised_upd|by eexists; apply (aims_upd a _ s3)].
  - exact (guestStep_ready cfg linkEntry aliasCodeMask ram_range s3 GFlush (po_ready _ H3)).
Qed.

Lemma runOrCompile_ok a p b s : Poised s -> aims a s p b ->
  prepared a (runOrCompile cfg linkEntry aliasCodeMask a p s).
Proof.
  intros H Ha. unfold runOrCompile. destruct (Ha) as (Hd & _). rewrite Hd. cbv zeta.
  set (s1 := updBlock (p_key p) (set_epoch (e_epoch s)) s).
  assert (H1 : Poised s1) by (by apply poised_upd).
  assert (Ha1 : aims a s1 p (set_epoch (e_epoch s) b)) by (by apply aims_upd).
  set (r := match b_code b with Some _ => _ | None => _ end).
  assert (Hr : prepared a r).
  { unfold r. destruct (b_code b) as [c|] eqn:Ec.
    - split; [done|]. by exists (set_epoch (e_epoch s) b).
    - by apply (compileBlock_ok a p (set_epoch (e_epoch s) b)). }
  clearbody r. destruct r as [s'|s' p' c|]; cbn; [done| |done].
  destruct (_ && _); [|done]. apply poised_run, Hr.
Qed.

(** ** Looking the block up *)

(** The key of the version the live register asks for, or the plain one. *)
Lemma dispatchBlockKey_ok pc super dreg s k s' :
  dispatchBlockKey cfg pc super dreg s = (k, s') ->
  (k = key pc super \/
   exists v, 0 <= v < 32 /\ k = versionKey (key pc super) v /\
             shiftSite (pomJitPeek pc s) dreg = Some v) /\
  exists sh, s' = set_shift sh s /\ masks_ sh = masks_ (e_shift s) /\ sites_ sh = sites_ (e_shift s).
Proof.
  assert (Same : exists sh, s = set_shift sh s /\ masks_ sh = masks_ (e_shift s) /\
                            sites_ sh = sites_ (e_shift s))
    by (exists (e_shift s); by destruct s).
  unfold dispatchBlockKey. destruct (negb (knows _ _)); [intros [= <- <-]; by auto|].
  destruct (shiftSite (pomJitPeek pc s) dreg) as [v|] eqn:Ev; [|intros [= <- <-]; by auto].
  unfold select, kMaxMultiVersionShiftCount. destruct (Z.ltb_spec 31 v).
  - intros [= <- <-]. split; [by left|]. eexists. split; [done|]. by destruct (cf_histogram cfg).
  - intros [= <- <-]. split; [|by exists (e_shift s)]. right. exists v.
    assert (0 <= v); [|auto with lia]. unfold shiftSite in Ev. destruct (_ && _ && _ && _); [|done].
    injection Ev as <-. apply Z.land_nonneg. lia.
Qed.

(** ** A turn up to the backend *)

Lemma found_aims a s p b : Poised s -> p_key p = key (u32 (ta_pc a)) (ta_super a) ->
  deref s p = Some b -> b_gen b = e_blocksGen s -> aims a s p b.
Proof.
  intros H Ek Hd Hg. split; [done|]. split; [done|]. split; [by left|]. left.
  apply deref_Some in Hd as [Hl _]. rewrite Ek in Hl.
  assert (Hwf := bk_wf _ (co_blocks _ _ _ (rd_coherent _ _ _ (po_ready _ H))) _ _ Hl).
  destruct (keyFor_block _ _ _ _ (u32_range (ta_pc a)) (or_introl eq_refl) Hwf) as (_ & _ & [[? _]|[Hv E]]); [done|].
  assert (R := key_range (u32 (ta_pc a)) (ta_super a) (u32_range _)).
  destruct (version_key _ _ R Hv) as [V _]. destruct (plain_key _ R) as [P _]. congruence.
Qed.

(** From the slow path on: the block is found, or a new one recorded. *)
Definition slowPath (a : TurnAnswers) (s : Engine) : Prepared :=
  let exec s := Again (guestRun (ta_exec a) s) in
  let pc := u32 (ta_pc a) in
  let super := ta_super a in
  let (k, s) := dispatchBlockKey cfg pc super (ta_dreg a) s in
  let (ob, s) := findBlock linkEntry pc super k s in
  match ob with
  | None =>
      let (retired, s) := record cfg aliasCodeMask canEmit branches (ta_record a) pc super s in
      if retired =? 0 then exec s else Again s
  | Some b =>
      let p := ptrTo k b in
      let s := if (k =? key pc super) && negb (knows k (e_shift s))
               then set_dispatch (fill k p (e_dispatch s)) s else s in
      runOrCompile cfg linkEntry aliasCodeMask a p s
  end.

Lemma slowPath_ok a s : Poised s -> prepared a (slowPath a s).
Proof.
  intros H. unfold slowPath. cbv zeta. set (pc := u32 (ta_pc a)). set (super := ta_super a).
  assert (Hpc : 0 <= pc < 4294967296) by apply u32_range.
  destruct (dispatchBlockKey cfg pc super (ta_dreg a) s) as [k s1] eqn:Ed.
  apply dispatchBlockKey_ok in Ed as (Hk & sh & -> & Em & Es).
  assert (H1 : Poised (set_shift sh s)).
  { apply (poised_kept s); [done| |by split|done].
    apply sites_coherent; [apply H|done|by rewrite Es]. }
  assert (Hkey : keyFor pc super k) by (destruct Hk as [->|(v & ? & -> & _)]; [by left|right; eauto]).
  destruct (findBlock linkEntry pc super k (set_shift sh s)) as [ob s2] eqn:Ef.
  apply (findBlock_ok cfg) in Ef as (HC2 & K & Hsub & Hob); [|done|done|apply H1].
  assert (H2 : Poised s2) by (by apply (poised_kept (set_shift sh s))).
  destruct ob as [b|].
  2: { destruct (record _ _ _ _ _ _ _ _) as [r s3] eqn:Er.
       apply (record_ready cfg linkEntry) in Er; [|done|apply H2|done].
       destruct (r =? 0); [by apply guestRun_ready|done]. }
  destruct (Hob b eq_refl) as (Hl & Hg & _).
  assert (Ha : aims a s2 (ptrTo k b) b).
  { split; [by apply lookup_deref|]. split; [done|]. split; [done|].
    destruct (keyFor_block pc super k b Hpc Hkey (bk_wf _ (co_blocks _ _ _ HC2) _ _ Hl))
      as (_ & _ & [[Ev _]|[Hv Ev]]); [by left|]. right.
    destruct Hk as [->|(v & Hv' & -> & Hs)].
    - exfalso. assert (R := key_range pc super Hpc). destruct (version_key _ _ R Hv) as [V _].
      destruct (plain_key _ R) as [P _]. congruence.
    - apply versionKey_inj in Ev as [_ ->]; [|by apply key_range..].
      fold pc. rewrite (peek_ext _ s); [done|exact (kp_mem _ _ K)|exact (kp_window _ _ K)]. }
  set (s3 := if _ && _ then _ else s2).
  assert (H3 : Poised s3 /\ aims a s3 (ptrTo k b) b); [|exact (runOrCompile_ok a _ b s3 (proj1 H3) (proj2 H3))].
  unfold s3. destruct (_ && _) eqn:E; [|done]. apply andb_true_iff in E as [E%Z.eqb_eq _].
  split; [|exact Ha]. apply (poised_kept s2); [done| |by split|done].
  apply fill_coherent; [apply H2| |done]. rewrite E. exact (proj1 (plain_key _ (key_range pc super Hpc))).
Qed.

(** A turn goes through a bad pointer only at the user-mode address 0, or when
    a flush frees the block whose window runs. *)
Lemma prepare_ok a s : Ready s ->
  prepared a (prepare cfg linkEntry aliasCodeMask canEmit branches a s) \/
  prepare cfg linkEntry aliasCodeMask canEmit branches a s = Crash /\
  u32 (ta_pc a) = 0 /\ ta_super a = false.
Proof.
  intros H. unfold prepare. cbv zeta. set (pc := u32 (ta_pc a)). set (super := ta_super a).
  assert (Hpc : 0 <= pc < 4294967296) by apply u32_range.
  assert (Hrun : forall evs s, Ready s -> Ready (guestRun evs s)) by (intros; by apply guestRun_ready).
  assert (Hback : forall n s, Ready s -> Ready (set_armBackoff n s)).
  { intros n s0 [HC Hr He Hf]. split; [inert HC|exact Hr|exact He|exact Hf]. }
  destruct (negb (ta_idle a)); [left; by apply Hrun, disarm_ready|].
  destruct (_ && negb (pomJitCovers _ _ _ _)); [left; by apply Hrun, Hback|].
  destruct (armWindow cfg (ta_arm a) pc super s) as [armed s1] eqn:Ew.
  apply (armWindow_ready cfg linkEntry) in Ew as [H1 Hq]; [|done].
  destruct armed; cbn [negb]; [|left; by apply Hrun, Hback].
  destruct (Hq eq_refl) as [Hq1 _]. clear Hq.
  assert (H2 := Hback 0 s1 H1). assert (Hq2 : tripped (e_guard (set_armBackoff 0 s1)) = false) by exact Hq1.
  revert H2 Hq2. generalize (set_armBackoff 0 s1). clear s H s1 H1 Hq1. intros s H Hq.
  destruct (negb (cf_useBlocks cfg)); [left; by apply Hrun|].
  set (s1 := if e_blocksGen s =? e_mmuGen s then s else _).
  assert (H1 : Poised s1).
  { unfold s1. destruct (Z.eqb_spec (e_blocksGen s) (e_mmuGen s)); [done|].
    destruct H as [HC Hr He Hf]. split; [split|exact Hq|done]; try done. by apply newGen_coherent. }
  clearbody s1. clear s H Hq.
  destruct (lookupBlock _ _ _ _) as [found d] eqn:El.
  apply lookupBlock_cases in El as (E1 & E2 & Hf); [|apply H1].
  assert (H2 : Poised (set_dispatch d s1)).
  { apply (poised_kept s1); [done| |by split|done]. apply counters_coherent; [apply H1|done|done]. }
  destruct found as [p| |].
  - left. destruct Hf as (Ep & _ & b & Hd & Hg). apply (runOrCompile_ok a p b); [done|].
    by apply found_aims.
  - left. exact (slowPath_ok a (set_dispatch d s1) H2).
  - right. split; [done|]. rewrite key_value in Hf by done. destruct super; [lia|]. split; [lia|done].
Qed.

(** ** Whole turns *)

Lemma afterRun_ready a s : Ready s -> Ready (afterRun cfg aliasCodeMask a s).
Proof.
  intros H. unfold afterRun. cbv zeta.
  assert (H1 := guestInside_ready cfg linkEntry aliasCodeMask ram_range (ta_run a) s H).
  revert H1. generalize (guestRunInside cfg aliasCodeMask (ta_run a) s). intros s1 H1.
  destruct (e_pendingFlush s1); [exact (guestStep_ready cfg linkEntry aliasCodeMask ram_range s1 GFlush H1)|].
  destruct (tripped (e_guard s1)); [|done].
  destruct (serviceGuard_ready cfg linkEntry s1 H1) as [H2 _].
  destruct (_ && _ && _); [by apply guestRun_ready|done].
Qed.

Lemma turn_ready a s s' : Ready s ->
  turn cfg linkEntry aliasCodeMask canEmit branches a s = Some s' -> Ready s'.
Proof.
  intros H. unfold turn. destruct (prepare_ok a s H) as [Hp|[Hc _]]; [|by rewrite Hc].
  destruct (prepare _ _ _ _ _ _ _) as [s1|s1 p c|]; [by intros [= <-]| |done].
  intros [= <-]. by apply afterRun_ready, Hp.
Qed.
End Entry.
