(* ===== verification/JitReach.v ===== *)
(** * JitReach: every state the engine can get into

    The life of an engine as a step relation: built disabled, switched on and
    off, taken through turns of [executeUntil] while it is on, and exposed at
    any time to what guest code and devices do to memory and to the map.
    Every such state is coherent. *)

From S2P Require Import Prelude.
From S2P Require Import JitTypes.
From S2P Require Import JitDecode.
From S2P Require Import JitEa.
From S2P Require Import JitGuard.
From S2P Require Import JitShiftVersions.
From S2P Require Import JitDispatchCache.
From S2P Require Import JitEngineState.
From S2P Require Import JitBlockCache.
From S2P Require Import JitGuest.
From S2P Require Import JitTurn.
From S2P Require Import JitGuardFacts.
From S2P Require Import JitIndexFacts.
From S2P Require Import JitCoherence.
From S2P Require Import JitLinkFacts.
From S2P Require Import JitDispatchFacts.
From S2P Require Import JitEraseFacts.
From S2P Require Import JitFlushFacts.
From S2P Require Import JitGuestFacts.
From S2P Require Import JitTraceFacts.
From S2P Require Import JitTurnFacts.
From S2P Require Import JitRunFacts.
From S2P Require Import JitEntryFacts.
From stdpp Require Import base list numbers option decidable gmap sets.

Open Scope Z_scope.

Section Reach.
Context (cfg : Config) (linkEntry : Z -> option Z).
Context (aliasCodeMask : Z -> list Z -> Z) (canEmit : Z -> bool) (branches : bool).
Notation Coherent := (Coherent cfg linkEntry).
Notation Ready := (Ready cfg linkEntry).
Notation turn := (turn cfg linkEntry aliasCodeMask canEmit branches).
Notation guestStep := (guestStep cfg aliasCodeMask).

(** [interpWindow]: while the engine is off the interpreter arms and disarms
    the fetch window for itself. *)
Inductive reachable : Engine -> Prop :=
| reach_new mem gen slots : reachable (newEngine mem (cf_ram cfg) gen slots)
| reach_enable on s : reachable s -> reachable (setEnabled on s)
| reach_turn a s s' : reachable s -> e_enabled s = true -> turn a s = Some s' -> reachable s'
| reach_guest ev s : reachable s -> reachable (guestStep s ev)
| reach_interpWindow w s : reachable s -> e_enabled s = false -> reachable (set_window w s).

(** ** The new engine *)

Definition emptyCache (c : DispatchCache) : Prop :=
  0 <= mask_ c < Z.of_nat (length (entries_ c)) /\ Forall (eq Entry0) (entries_ c).

Lemma resize_empty slots c : emptyCache c -> emptyCache (resizeDispatch slots c).
Proof.
  intros H. unfold resizeDispatch. destruct (_ || _) eqn:E; [done|].
  apply orb_false_iff in E as [E _]. split; cbn; [rewrite length_replicate; unbool; lia|].
  by apply Forall_replicate.
Qed.

Lemma default_empty : emptyCache DispatchCache0.
Proof.
  assert (E : DispatchCache0 = mkDispatch (replicate (Z.to_nat 16384) Entry0) 16383 0 0 0) by reflexivity.
  rewrite E. split; cbn [mask_ entries_]; [rewrite length_replicate; lia|by apply Forall_replicate].
Qed.

Lemma new_dispatch slots :
  emptyCache (if 0 <? slots then resizeDispatch slots DispatchCache0 else DispatchCache0).
Proof. destruct (0 <? slots); [apply resize_empty|]; apply default_empty. Qed.

Lemma pageByte_replicate n p : pageByte (replicate n 0) p = 0.
Proof.
  unfold pageByte. destruct (rd _ p) as [x|] eqn:E; [|done]. cbn.
  assert (Forall (fun x => x = 0) (replicate n 0)) as F by (by apply Forall_replicate).
  by rewrite (rd_Forall _ _ _ _ F E).
Qed.

Lemma new_sizes ram : 0 <= ram <= 4294963200 ->
  ram <= 256 * (u32 (ram + 255) .>> 8) /\ 0 <= u32 (ram + 255) .>> 8 <= 16777216 /\
  u32 (ram + 255) .>> 8 <= 16 * (u32 (ram + 4095) .>> 12).
Proof.
  intros H. rewrite !u32_small, !Z.shiftr_div_pow2 by lia. change (2 ^ 8) with 256. change (2 ^ 12) with 4096.
  Z.div_mod_to_equations. lia.
Qed.

Lemma new_coherent mem gen slots : 0 <= cf_ram cfg <= 4294963200 ->
  Coherent (newEngine mem (cf_ram cfg) gen slots).
Proof.
  intros Hram. destruct (new_sizes _ Hram) as (N1 & N2 & N3).
  assert (Hp : pages (newEngine mem (cf_ram cfg) gen slots) = u32 (cf_ram cfg + 255) .>> 8).
  { unfold pages. cbn -[u32 Z.shiftr]. rewrite length_replicate. unfold kUnit, kShift.
    rewrite Z2Nat.id; replace (cf_ram cfg + 256 - 1) with (cf_ram cfg + 255) by lia; lia. }
  split.
  - split; cbn; intros; try set_solver; by rewrite lookup_empty in *.
  - split; rewrite ?Hp; [intros p; unfold keysOf; cbn; rewrite lookup_empty; constructor| | |lia].
    + intros p k. unfold keysOf. cbn. rewrite lookup_empty. cbn.
      split; [intros []%not_elem_of_nil|]. intros (b & Hb & _). by rewrite lookup_empty in Hb.
    + intros p _. unfold keysOf. cbn -[replicate pageByte sliceMask]. rewrite lookup_empty, pageByte_replicate. done.
  - split; [|rewrite Hp; cbn -[u32 Z.shiftr replicate]; rewrite length_replicate, Z2Nat.id; lia].
    intros p. cbn -[replicate pageByte]. by rewrite pageByte_replicate.
  - apply TlbOk_flushed; done.
  - destruct (new_dispatch slots) as [D1 D2]. split; [exact D1|]. intros i e Hi.
    assert (Hf := rd_Forall _ _ _ _ D2 Hi). cbn in Hf. by subst e.
  - split; cbn; unfold siteMask; cbn.
    + intros base v _ _. rewrite lookup_empty. cbn. rewrite Z.bits_0, lookup_empty. split; [done|by intros []].
    + intros base v _ _. rewrite lookup_empty. by intros [].
    + intros base m. by rewrite lookup_empty.
  - split; unfold linkSlot; cbn.
    + intros i e. by rewrite lookup_empty.
    + intros i. rewrite lookup_empty. cbn. by intros [[]|[]].
    + intros k c e. by rewrite lookup_empty.
    + intros k c. by rewrite lookup_empty.
  - by split.
  - by split.
  - split; [rewrite Hp; lia|]. cbn. intros k b Hk. by rewrite lookup_empty in Hk.
Qed.

(** ** Every step *)

Hypothesis ram_fits : 0 <= cf_ram cfg <= 4294963200.

Record Sound (s : Engine) : Prop := {
  sd_coherent : Coherent s;
  sd_running : e_running s = false;
  sd_fits : fits cfg s
}.

Lemma ram_range : cf_ram cfg <= 4294967296.
Proof. lia. Qed.

Lemma sound_ready s : Sound s -> e_enabled s = true -> Ready s.
Proof. intros [] He. by split. Qed.

Lemma ready_sound s : Ready s -> Sound s.
Proof. intros []. by split. Qed.

(** A disabled engine has no block, so [flushAll] only disarms the window. *)
Lemma disabled_flush s : Sound s -> e_enabled s = false ->
  Sound (flushAll s) /\ e_blocks (flushAll s) = ∅ /\ tripped (e_guard (flushAll s)) = false.
Proof.
  intros [HC Hr Hf] He. assert (HC' := flushAll_coherent cfg linkEntry s HC).
  assert (Hb := id_blocks _ (co_idle _ _ _ HC) He). assert (Hg := id_guard _ (co_idle _ _ _ HC) He).
  revert HC'. unfold flushAll. rewrite Hr, He. cbn [negb]. intros HC'.
  split; [by split|]. exact (conj Hb Hg).
Qed.

Lemma guestStep_sound s ev : Sound s -> Sound (guestStep s ev).
Proof.
  intros H. destruct (e_enabled s) eqn:He.
  { by apply ready_sound, guestStep_ready; [apply ram_range|apply sound_ready]. }
  assert (ev = GFlush \/ ev <> GFlush) as [->|Hn] by (destruct ev; (by left) || by right).
  { by apply disabled_flush. }
  assert (HS := guestStep_stays cfg aliasCodeMask s ev ltac:(congruence)). destruct H as [HC Hr Hf].
  split; [by apply guestStep_coherent; [apply ram_range|]|by rewrite (st_running _ _ HS)|].
  by apply (fits_eq cfg s); [apply HS|].
Qed.

(** Switching: nothing is resident and no store is on record, whatever the
    window was doing. *)
Lemma enable_coherent on s : Coherent s -> e_blocks s = ∅ -> tripped (e_guard s) = false ->
  w_armed (e_window s) = false -> Coherent (set_enabled on s).
Proof.
  intros [HB HI HP HT HD HS HL HW Hid Hby] Hb Hg Hw.
  split; [reuse HB|reuse HI|reuse HP|reuse HT|reuse HD|reuse HS|reuse HL| | |reuse Hby].
  - split. cbn. congruence.
  - destruct Hid as [_ _ H3]. by split.
Qed.

Lemma setEnabled_sound on s : Sound s -> Sound (setEnabled on s).
Proof.
  intros H. assert (E : Sound (flushAll s) /\ e_blocks (flushAll s) = ∅ /\
    tripped (e_guard (flushAll s)) = false /\ w_armed (e_window (flushAll s)) = false).
  { destruct (e_enabled s) eqn:He.
    - destruct (H) as [HC Hr Hf]. destruct (flushed_coherent cfg linkEntry s HC Hr He) as (H1 & H2 & H3 & _ & H5 & _).
      split; [split; [done|done|]|].
      + apply (fits_sub cfg s); [|done]. rewrite H2. intros k [x Hx]. by rewrite lookup_empty in Hx.
      + split; [done|]. split; [by rewrite H3|]. unfold flushAll. by rewrite Hr, He.
    - destruct (disabled_flush s H He) as (H1 & H2 & H3). split; [done|]. split; [done|]. split; [done|].
      unfold flushAll. by rewrite (sd_running _ H), He. }
  unfold setEnabled. revert E. generalize (flushAll s). clear s H. intros s ([HC Hr Hf] & Hb & Hg & Hw).
  split; [by apply enable_coherent|exact Hr|exact Hf].
Qed.

Lemma interpWindow_sound w s : Sound s -> e_enabled s = false -> Sound (set_window w s).
Proof.
  intros [HC Hr Hf] He. split; [|exact Hr|exact Hf]. destruct HC as [HB HI HP HT HD HS HL HW Hid Hby].
  split; [reuse HB|reuse HI|reuse HP|reuse HT|reuse HD|reuse HS|reuse HL| |reuse Hid|reuse Hby].
  split. cbn. congruence.
Qed.

Lemma reachable_sound s : reachable s -> Sound s.
Proof.
  induction 1 as [mem gen slots|on s _ IH|a s s' _ IH He Ht|ev s _ IH|w s _ IH He].
  - split; [by apply new_coherent|done|]. unfold fits. cbn. rewrite map_size_empty. lia.
  - by apply setEnabled_sound.
  - apply ready_sound. eapply turn_ready; [apply ram_range| |exact Ht]. by apply sound_ready.
  - by apply guestStep_sound.
  - by apply interpWindow_sound.
Qed.
End Reach.
