(* ===== verification/JitCacheProps.v ===== *)
(** * JitCacheProps: what the code cache promises

    The theorems about the translated-code cache of [jit::Engine] as a client
    sees them, over every reachable state, with a session of two translated
    blocks on which each of them is evaluated. *)

From S2P Require Import Prelude.
From S2P Require Import JitTypes.
From S2P Require Import JitDecode.
From S2P Require Import JitEa.
From S2P Require Import JitGuard.
From S2P Require Import JitShiftVersions.
From S2P Require Import JitDispatchCache.
From S2P Require Import JitEngineState.
From S2P Require Import JitBlockCache.
From S2P Require Import JitGuest.
From S2P Require Import JitTurn.
From S2P Require Import JitGuardFacts.
From S2P Require Import JitIndexFacts.
From S2P Require Import JitCoherence.
From S2P Require Import JitLinkFacts.
From S2P Require Import JitDispatchFacts.
From S2P Require Import JitEraseFacts.
From S2P Require Import JitFlushFacts.
From S2P Require Import JitGuestFacts.
From S2P Require Import JitTraceFacts.
From S2P Require Import JitTurnFacts.
From S2P Require Import JitRunFacts.
From S2P Require Import JitEntryFacts.
From S2P Require Import JitReach.
From stdpp Require Import base list numbers option decidable gmap sets.

Open Scope Z_scope.

(** ** A session to run the theorems on *)

(** 64 KiB of memory with a loop at 0x1000 (addq.l #1,d0; moveq #1,d1; bra.s)
    and a shift by a register at 0x2000 (asr.l d2,d4; bra.s). *)
Definition demoMem (a : Z) : Z :=
  default 0 (rd [0x52; 0x80; 0x72; 0x01; 0x60; 0xFA] (a - 0x1000) ∪
             rd [0xE4; 0xA4; 0x60; 0xFC] (a - 0x2000)).
Definition demoCfg : Config :=
  mkConfig true true false 8 4 true 1 0 true false false 4 false false 0 0 0x10000.
Definition demoEntry (code : Z) : option Z := Some (code + 0x7000).
Definition demoAlias (_ : Z) (_ : list Z) : Z := 0.

Definition demoStep (next : Z) : TraceStep :=
  mkStep false true false true true true [] true next 4 (mkTiming true 4 0 0 1 0 0) 0 0.
Definition demoArm (pc : Z) : ArmAnswers :=
  mkArm false true true (Some (pc, Z.ldiff pc 4095, 4096)) (Some 4096).
Definition demoRun (pc : Z) (run : list GuestEv) : TurnAnswers :=
  let dreg := fun _ => 3 in
  mkTurn true pc false true [] (demoArm pc) dreg
    (mkRecord [0x1000; 0x2000] dreg (fun i => demoStep (pc + 2 + 2 * Z.of_nat i)))
    [] false true [(0x1000, false)] CompiledOk run false true true [].

Notation demoTurn := (turn demoCfg demoEntry demoAlias (fun _ => true) true).
Notation demoPrepare := (prepare demoCfg demoEntry demoAlias (fun _ => true) true).
Notation demoReachable := (reachable demoCfg demoEntry demoAlias (fun _ => true) true).

Definition demoOn : Engine := setEnabled true (newEngine demoMem 0x10000 0 4096).
(** The loop and the shift recorded and translated. *)
Definition demoTurns (l : list TurnAnswers) (s : Engine) : Engine :=
  foldl (fun s a => default s (demoTurn a s)) s l.
Definition demoLoop : Engine := demoTurns [demoRun 0x1000 []; demoRun 0x1000 []] demoOn.
Definition demoFull : Engine := demoTurns [demoRun 0x2000 []; demoRun 0x2000 []] demoLoop.

(** ** The index is determined by the blocks *)

Lemma sliceMask_same blocks p l1 l2 : (forall k, k ∈ l1 <-> k ∈ l2) ->
  sliceMask blocks p l1 = sliceMask blocks p l2.
Proof.
  intros H. apply Z.bits_inj'. intros j Hj. apply eq_true_iff_eq.
  rewrite !sliceMask_bit by done. split; intros (k & Hk & Hb); exists k; by rewrite ?H, <- ?H in *.
Qed.

Lemma index_determined s s' : IndexOk s -> IndexOk s' -> e_blocks s' = e_blocks s -> pages s' = pages s ->
  e_pageMap s' = e_pageMap s /\ forall p k, k ∈ keysOf s' p <-> k ∈ keysOf s p.
Proof.
  intros [_ M B _] [_ M' B' _] Eb Ep.
  assert (K : forall p k, k ∈ keysOf s' p <-> k ∈ keysOf s p).
  { intros p k. rewrite M, M', Eb, Ep. done. }
  split; [|exact K]. apply list_eq_same_length with (length (e_pageMap s)); [done|unfold pages in Ep; lia|].
  intros i x y Hi Hx Hy. unfold pages in *.
  assert (R : forall l z, l !! i = Some z -> z = pageByte l (Z.of_nat i)).
  { intros l z Hl. unfold pageByte, rd. rewrite (proj2 (Z.ltb_ge _ _)), Nat2Z.id, Hl by lia. done. }
  rewrite (R _ _ Hx), (R _ _ Hy), B, B', Eb by lia. apply sliceMask_same. apply K.
Qed.

Lemma popcount_below m v : 0 <= v < 32 -> Z.testbit m v = false -> popcount m < kMaxPerSite.
Proof.
  intros Hv Hb. unfold popcount, kMaxPerSite.
  assert (H := length_filter_lt (fun i => Z.testbit m i) (seqZ 0 32) v). rewrite length_seqZ in H.
  assert (v ∈ seqZ 0 32) by (apply elem_of_seqZ; lia).
  rewrite Hb in H. specialize (H ltac:(done) ltac:(by intros [])). lia.
Qed.

Lemma admit_accepts base op v h c : 0 <= v < 32 ->
  ad_accepted (fst (admitShift base op v true h c)) = true.
Proof.
  intros Hv. unfold admitShift. cbn [negb]. rewrite (proj2 (Z.ltb_ge v 0)) by lia.
  unfold kMaxMultiVersionShiftCount. rewrite (proj2 (Z.ltb_ge 31 v)) by lia. cbv zeta.
  destruct (_ && _) eqn:E; [|done]. exfalso. unbool.
  assert (B : Z.testbit (siteMask base (remember base c)) v = false).
  { match goal with H : _ .& _ = 0 |- _ => rename H into Hz end. rewrite bit_value in Hz by done.
    apply (f_equal (fun z => Z.testbit z v)) in Hz.
    by rewrite Z.land_spec, pow2_bit, bool_decide_eq_true_2, andb_true_r, Z.bits_0 in Hz by lia. }
  apply popcount_below in B; [lia|done].
Qed.

Section Props.
Context (cfg : Config) (linkEntry : Z -> option Z).
Context (aliasCodeMask : Z -> list Z -> Z) (canEmit : Z -> bool) (branches : bool).
Hypothesis ram_fits : 0 <= cf_ram cfg <= 4294963200.
Notation Coherent := (Coherent cfg linkEntry).
Notation reachable := (reachable cfg linkEntry aliasCodeMask canEmit branches).
Notation prepare := (prepare cfg linkEntry aliasCodeMask canEmit branches).
Notation turn := (turn cfg linkEntry aliasCodeMask canEmit branches).
Notation Sound := (Sound cfg linkEntry).
Notation inRam ir := (blockLo ir + blockLen ir <= cf_ram cfg).

Lemma reach_sound s : reachable s -> Sound s.
Proof. apply reachable_sound, ram_fits. Qed.

Lemma reach_ready s : reachable s -> e_enabled s = true -> Ready cfg linkEntry s.
Proof. intros H He. by apply sound_ready; [apply reach_sound|]. Qed.

(** A block on record goes at the next service. *)
Lemma pending_evicted s k b : Ready cfg linkEntry s -> e_blocks s !! k = Some b ->
  blockLen (b_ir b) <> 0 -> pending s (b_ir b) -> e_blocks (serviceGuard s) !! k = None.
Proof.
  intros [HC Hr He _] Hk Hl Hp. unfold serviceGuard. destruct (tripped (e_guard s)) eqn:Ht; cbn [negb].
  2: { exfalso. destruct (id_quiet _ (co_idle _ _ _ HC) Ht) as [Hh Hm].
       apply pending_condemned in Hp; [|done|done]. by rewrite Hh in Hp. }
  destruct (_ || _) eqn:Em.
  - destruct (flushed_coherent cfg linkEntry s HC Hr He) as (_ & -> & _). apply lookup_empty.
  - apply orb_false_iff in Em as [Em _]. change (e_blocks (foldl serviceHit s (hits (e_guard s))) !! k = None).
    rewrite (serviceHits_blocks cfg linkEntry _ s k b HC Hk). by rewrite (pending_condemned s _ Em Hl Hp).
Qed.

(** The guard with the store on record, in the state after the store. *)
Lemma store_evicts s k b a n x m : Ready cfg linkEntry s -> e_blocks s !! k = Some b -> inRam (b_ir b) ->
  0 <= a -> 1 <= n <= 2 -> a + n <= cf_ram cfg -> a <= x < a + n ->
  blockLo (b_ir b) <= x < blockLo (b_ir b) + blockLen (b_ir b) ->
  Ready cfg linkEntry (set_mem m (noteStore a n s)) ->
  e_blocks (serviceGuard (set_mem m (noteStore a n s))) !! k = None.
Proof.
  intros H Hk Hin Ha Hn Hw H1 H2 HR. unfold noteStore in *. rewrite (rd_enabled _ _ _ H) in *.
  apply (pending_evicted _ k b); [done|exact Hk|lia|].
  apply (note_pending cfg linkEntry s k b a n x); lia || apply H || done.
Qed.

(** C3. The invariant of the code cache holds in every state that switching,
    turns of [executeUntil], guest code and devices lead to: the block map owns
    the outstanding code, the footprint index and both page maps are exact, the
    dispatch cache points at live blocks, version masks, links, edge cells and
    data TLB agree with the blocks, and a block whose bytes have changed is on
    the guard's list.  The block map stays within its capacity. *)
Theorem jit_reachable_coherent s : reachable s ->
  Coherent s /\ Z.of_nat (size (e_blocks s)) <= Z.max 0 (cf_maxBlocks cfg).
Proof. intros H. destruct (reach_sound s H) as [HC _ Hf]. by split. Qed.

(** C2. Translated code is entered only through a pointer to a live block that
    owns it: recorded for the address and mode the CPU is at, proved under the
    current translation, its words (where it lies in RAM) those memory holds
    now, and its version the one the live count register asks for. *)
Theorem jit_enters_current_code a s s' p code :
  reachable s -> e_enabled s = true -> prepare a s = RunBlock s' p code ->
  exists b, deref s' p = Some b /\ b_code b = Some code /\ code ∈ e_codes s' /\
    b_gen b = e_mmuGen s' /\
    bl_entryPc (b_ir b) = u32 (ta_pc a) /\ bl_super (b_ir b) = ta_super a /\
    (inRam (b_ir b) -> current (e_mem s') (b_ir b)) /\
    (b_shiftVersion b = plainVersion \/
     shiftSite (pomJitPeek (u32 (ta_pc a)) s') (ta_dreg a) = Some (b_shiftVersion b)).
Proof.
  intros Hs He Hp. assert (Hr := reach_ready s Hs He).
  destruct (prepare_ok cfg linkEntry aliasCodeMask canEmit branches (ram_range cfg ram_fits) a s Hr)
    as [HP|[Hc _]]; [|congruence]. rewrite Hp in HP.
  destruct HP as [[[HC _ _ _] Hq Hg] (b & (Hd & Hgb & Hk & Hv) & Hcode)]. exists b.
  destruct (proj1 (deref_Some _ _ _) Hd) as [Hl _].
  destruct (keyFor_block _ _ _ _ (u32_range _) Hk (bk_wf _ (co_blocks _ _ _ HC) _ _ Hl)) as (E1 & E2 & _).
  split; [done|]. split; [done|]. split; [by eapply bk_live; [apply HC|..]|].
  split; [congruence|]. do 2 (split; [done|]). split; [|done].
  intros Hin. by apply (upToDate_quiet cfg linkEntry s' HC Hq (p_key p)).
Qed.

(** C40. The only bad reads of a turn.  In every reachable state a turn of
    [executeUntil] reads through a null or dangling block pointer only in two
    cases: the CPU is at address 0 in user mode, whose key is the one an empty
    slot of the dispatch cache shows, or the guest code that runs in the window
    of a block without translation flushes the cache and with it that block,
    which is read once more after the window.  Both cases occur. *)
Theorem jit_bad_reads a s : reachable s -> e_enabled s = true ->
  turn a s = None -> u32 (ta_pc a) = 0 /\ ta_super a = false \/ GFlush ∈ ta_window a.
Proof.
  intros Hs He. unfold JitTurn.turn.
  destruct (prepare_ok cfg linkEntry aliasCodeMask canEmit branches (ram_range cfg ram_fits) a s
    (reach_ready s Hs He)) as [HP|(Hc & H)]; [|rewrite Hc; by left].
  destruct (prepare a s); [done|done|]. by right.
Qed.

(** C4. Self-modifying code: once a byte or a word is stored over any byte of a
    resident block, the block is gone at the next service of the guard. *)
Theorem jit_store_evicts_block s k b a v : reachable s -> e_enabled s = true ->
  e_blocks s !! k = Some b -> inRam (b_ir b) ->
  blockLo (b_ir b) <= a < blockLo (b_ir b) + blockLen (b_ir b) ->
  e_blocks (serviceGuard (write8 (cf_ram cfg) a v s)) !! k = None /\
  (a + 1 < cf_ram cfg -> e_blocks (serviceGuard (write16 (cf_ram cfg) a v s)) !! k = None) /\
  (1 <= a -> e_blocks (serviceGuard (write16 (cf_ram cfg) (a - 1) v s)) !! k = None).
Proof.
  intros Hs He Hk Hin Ha. assert (Hr := reach_ready s Hs He).
  pose proof (blockLo_range (b_ir b)) as Hlo.
  assert (HG : forall ev, Ready cfg linkEntry (guestStep cfg aliasCodeMask s ev))
    by (intros ev; apply guestStep_ready; [by apply ram_range|done]).
  assert (H8 := HG (GWrite8 a v)). assert (H16 := HG (GWrite16 a v)). assert (H16' := HG (GWrite16 (a - 1) v)).
  clear HG. cbn [guestStep] in *. rewrite u32_small in H8, H16 by lia.
  unfold write8, write16 in *. split; [|split].
  - rewrite (proj2 (Z.ltb_lt a (cf_ram cfg))) in * by lia. by apply (store_evicts s k b a 1 a); lia || done.
  - intros Hw. rewrite (proj2 (Z.ltb_lt (a + 1) (cf_ram cfg))) in * by lia.
    by apply (store_evicts s k b a 2 a); lia || done.
  - intros H1. rewrite u32_small in H16' by lia. rewrite (proj2 (Z.ltb_lt (a - 1 + 1) (cf_ram cfg))) in * by lia.
    by apply (store_evicts s k b (a - 1) 2 a); lia || done.
Qed.

(** C14. The guard is serviced exactly.  With nothing on record every block
    stays.  With a map change or an overflow of the list on record every block
    goes.  Otherwise, of the resident blocks, those whose bytes overlap the
    range of a hit on one of their slices go, and no other. *)
Theorem jit_serviceGuard_exact s k b : reachable s -> e_enabled s = true ->
  e_blocks (serviceGuard s) !! k = Some b <->
  e_blocks s !! k = Some b /\
  (tripped (e_guard s) = true -> mustFlush (e_guard s) = false /\
   forall h, h ∈ hits (e_guard s) -> filed (b_ir b) (h_slice h) (pages s) ->
     h_hi h < blockLo (b_ir b) \/ blockHi (b_ir b) < h_lo h).
Proof.
  intros Hs He. assert (HR := reach_ready s Hs He). destruct (HR) as [HC Hr _ _]. split.
  - intros Hk. assert (H0 := serviceGuard_blocks cfg linkEntry s HR k b Hk).
    split; [done|]. intros Ht. split.
    { destruct (mustFlush (e_guard s)) eqn:Hm; [|done]. exfalso. revert Hk. unfold serviceGuard. rewrite Ht, Hm. cbn [negb orb].
      destruct (flushed_coherent cfg linkEntry s HC Hr He) as (_ & -> & _). by rewrite lookup_empty. }
    intros h Hh Hf.
    destruct (decide (h_hi h < blockLo (b_ir b) \/ blockHi (b_ir b) < h_lo h)) as [|Hn]; [done|].
    exfalso. assert (Hp : pending s (b_ir b)).
    { right. exists (h_slice h), (h_lo h), (h_hi h). split; [done|]. split; [lia|]. split; [lia|].
      right. exists h. split; [done|]. lia. }
    rewrite (pending_evicted s k b HR H0 (proj1 Hf) Hp) in Hk. done.
  - intros [Hk Hno]. unfold serviceGuard. destruct (tripped (e_guard s)); cbn [negb]; [|done].
    destruct (Hno eq_refl) as [Hm Hh0]. clear Hno.
    rewrite Hm, bool_decide_eq_false_2; [|intros E; by rewrite E, lookup_empty in Hk]. cbn [orb].
    change (e_blocks (foldl serviceHit s (hits (e_guard s))) !! k = Some b).
    rewrite (serviceHits_blocks cfg linkEntry _ s k b HC Hk).
    destruct (existsb _ _) eqn:E; [|done]. exfalso. apply existsb_exists in E as (h & Hh & Hc).
    apply list_elem_of_In in Hh. unfold condemned, touches in Hc. fold (blockHi (b_ir b)) in Hc. unbool.
    destruct (Hh0 h Hh); [|lia|lia]. by split.
Qed.

(** C28. Filing a block and erasing it again leaves no trace: the map of marked
    sub-slices is byte for byte what it was, and so is what is filed under
    every slice. *)
Theorem jit_file_erase_roundtrip s k b : reachable s -> e_blocks s !! k = None ->
  let filedS := markPages k (blockLo (b_ir b)) (blockLen (b_ir b))
                  (set_blocks (<[k := b]> (e_blocks s)) s) in
  let erased := eraseBlock k b filedS in
  e_blocks erased = e_blocks s /\ e_pageMap erased = e_pageMap s /\
  forall p k', k' ∈ keysOf erased p <-> k' ∈ keysOf s p.
Proof.
  intros Hs Hk filedS erased. destruct (sd_coherent _ _ _ (reach_sound s Hs)) as [HB HI HP HT HD HS HL HW Hid Hby].
  destruct (insert_index cfg k b s HI HP HT Hk) as (I1 & I2 & _ & I4). fold filedS in I1, I2, I4.
  assert (Eb : e_blocks filedS = <[k := b]> (e_blocks s)) by exact (f_equal e_blocks (blank_markPages _ _ _ _)).
  destruct (erase_maps k b filedS I1 I2) as (J1 & _ & _ & J4); [by rewrite Eb, lookup_insert_eq|].
  fold erased in J1, J4. assert (Ee : e_blocks erased = e_blocks s).
  { unfold erased. by rewrite erase_blocks, Eb, delete_insert_id. }
  split; [done|]. apply index_determined; [done|done|done|congruence].
Qed.

(** Capacity eviction keeps exactly the blocks used since the last one, and
    releases exactly the code of the others. *)
Theorem jit_evictCold_exact order s : reachable s ->
  (forall k, is_Some (e_blocks s !! k) -> k ∈ order) ->
  let s' := evictColdBlocks order s in
  (forall k b, e_blocks s' !! k = Some b <-> e_blocks s !! k = Some b /\ b_epoch b = e_epoch s) /\
  (forall c, c ∈ e_codes s' <-> exists k b, e_blocks s !! k = Some b /\ b_epoch b = e_epoch s /\ b_code b = Some c).
Proof.
  intros Hs Hord s'. assert (HC := sd_coherent _ _ _ (reach_sound s Hs)).
  destruct (foldl_drops cfg linkEntry evictCold1 order (evictCold1_drops cfg linkEntry) s HC)
    as (HC1 & _ & _ & Hsub).
  assert (HB : BlocksOk (foldl evictCold1 s order)) by apply HC1.
  assert (E : forall k b, e_blocks s' !! k = Some b <-> e_blocks s !! k = Some b /\ b_epoch b = e_epoch s).
  { intros k b. change (e_blocks s') with (e_blocks (foldl evictCold1 s order)). split.
    - intros Hk. assert (H0 := Hsub k b Hk). split; [done|].
      rewrite (evictCold_blocks cfg linkEntry order s HC k b H0) in Hk. case_decide as D; [done|].
      destruct (Z.eq_dec (b_epoch b) (e_epoch s)); [done|]. destruct D. split; [apply Hord; eauto|done].
    - intros [Hk He]. rewrite (evictCold_blocks cfg linkEntry order s HC k b Hk).
      by rewrite decide_False by tauto. }
  split; [exact E|]. intros c. change (e_codes s') with (e_codes (foldl evictCold1 s order)). split.
  - intros Hc. destruct (bk_owned _ HB c Hc) as (k & b & Hk & Hb). exists k, b.
    destruct (proj1 (E k b) Hk). auto.
  - intros (k & b & Hk & He & Hb). apply (bk_live _ HB k b c); [|done]. by apply (E k b).
Qed.

(** What a link or a cell may lead to. *)
Definition liveTarget (s : Engine) (k e : Z) : Prop := exists b c,
  e_blocks s !! k = Some b /\ b_gen b = e_blocksGen s /\
  b_shiftVersion b = plainVersion /\ b_code b = Some c /\ c ∈ e_codes s /\ linkEntry c = Some e.

(** Every published link and every bound edge cell leads there. *)
Definition LinksLive (s : Engine) : Prop :=
  (forall i e, l_entry (linkSlot s i) = Some e -> exists pc super,
     0 <= pc < 4294967296 /\ i = linkIndex pc /\ l_tag (linkSlot s i) = linkTag pc super /\
     liveTarget s (key pc super) e) /\
  (forall k c e, e_cells s !! k = Some c -> c_entry c = Some e -> liveTarget s k e).

Lemma coherent_links s : Coherent s -> LinksLive s.
Proof.
  intros HC. assert (T : forall k e, target linkEntry s k e -> liveTarget s k e).
  { intros k e (b & c & Hk & Hg & Hv & Hc & He). exists b, c. repeat split; try done.
    by apply (bk_live _ (co_blocks _ _ _ HC) k b c). }
  destruct (co_links _ _ _ HC) as [H1 _ H3 _]. split; [|eauto].
  intros i e He. destruct (H1 i e He) as (pc & super & ? & ? & ? & HT). exists pc, super. auto.
Qed.

(** C24. A published link or a bound edge cell leads only to the entry point of
    outstanding code, owned by the resident plain block of that address and
    mode and proved under the translation generation the engine last noticed.
    That generation may lag behind the MMU's between two turns, but not where
    links are followed: whenever a turn enters translated code it is the
    current one, so that a block reached through a link is proved under the
    current translation. *)
Theorem jit_links_live s : reachable s ->
  LinksLive s /\
  forall a s' p code, e_enabled s = true -> prepare a s = RunBlock s' p code ->
    LinksLive s' /\ e_blocksGen s' = e_mmuGen s'.
Proof.
  intros Hs. split; [apply coherent_links, reach_sound, Hs|]. intros a s' p code He Hp.
  destruct (prepare_ok cfg linkEntry aliasCodeMask canEmit branches (ram_range cfg ram_fits) a s (reach_ready s Hs He))
    as [HP|[Hc _]]; [|congruence]. rewrite Hp in HP. destruct HP as [[[HC _ _ _] _ Hg] _].
  split; [by apply coherent_links|done].
Qed.

(** C13. The inline stores of generated code through the data TLB, and the
    interpreter's through the page in front of it, never change a byte of a
    resident block: such a store must go through the memory map and its
    guard. *)
Theorem jit_inline_stores_spare_code s i off bytes k b x : reachable s ->
  e_blocks s !! k = Some b -> inRam (b_ir b) ->
  blockLo (b_ir b) <= x < blockLo (b_ir b) + blockLen (b_ir b) ->
  e_mem (dtlbStore cfg i off bytes s) x = e_mem s x /\
  e_mem (windowStore off bytes s) x = e_mem s x.
Proof.
  intros Hs Hk Hin Hx. assert (HC := sd_coherent _ _ _ (reach_sound s Hs)).
  split; [by apply (dtlbStore_spares cfg linkEntry s i off bytes k b)|].
  by apply (windowStore_spares cfg linkEntry s off bytes k b).
Qed.

(** C29. The version mask of a shift site has a bit for exactly the resident
    versions of its block, each filed under the key that decodes to the site
    and the count; the limit on versions never refuses a count. *)
Theorem jit_versions_exact s pc super v op : reachable s ->
  0 <= pc < 4294967296 -> 0 <= v < 32 ->
  let base := key pc super in
  (Z.testbit (siteMask base (e_shift s)) v = true <->
   exists b, e_blocks s !! versionKey base v = Some b /\ b_shiftVersion b = v /\
             bl_entryPc (b_ir b) = pc /\ bl_super (b_ir b) = super) /\
  baseKey (versionKey base v) = base /\ versionFromKey (versionKey base v) = v /\
  ad_accepted (fst (admitShift base op v true (cf_histogram cfg) (e_shift s))) = true.
Proof.
  intros Hs Hpc Hv base. assert (HC := sd_coherent _ _ _ (reach_sound s Hs)).
  assert (R : 0 <= base < 8589934592) by (by apply key_range).
  destruct (version_key base v R Hv) as (V & E1 & E2).
  split; [|split; [done|split; [done|by apply admit_accepts]]].
  rewrite (sh_mask _ (co_shift _ _ _ HC) base v R Hv). split; [|intros (b & Hb & _); eauto].
  intros [b Hb]. exists b. split; [done|].
  destruct (keyFor_block pc super _ b Hpc (or_intror (ex_intro _ v (conj Hv eq_refl)))
    (bk_wf _ (co_blocks _ _ _ HC) _ _ Hb)) as (F1 & F2 & [[_ F]|[Hv' F]]).
  - fold base in F. destruct (plain_key base R) as [P _]. congruence.
  - apply versionKey_inj in F as [_ F]; [|done|done]. auto.
Qed.
End Props.

(** ** The session *)

Lemma demo_ram : 0 <= cf_ram demoCfg <= 4294963200.
Proof. cbn. lia. Qed.

Lemma demoTurns_reach l : forall s, demoReachable s -> e_enabled s = true ->
  demoReachable (demoTurns l s) /\ e_enabled (demoTurns l s) = true.
Proof.
  unfold demoTurns. induction l as [|a l IH]; intros s Hs He; cbn [foldl]; [done|].
  destruct (demoTurn a s) as [s'|] eqn:E; unfold default; cbn [from_option id]; [|by apply IH].
  assert (HR := turn_ready demoCfg demoEntry demoAlias (fun _ => true) true
    (ram_range _ demo_ram) a s s' (reach_ready _ _ _ _ _ demo_ram s Hs He) E).
  apply IH; [by apply (reach_turn _ _ _ _ _ a s)|apply HR].
Qed.

Lemma demo_reach : demoReachable demoFull /\ e_enabled demoFull = true.
Proof.
  assert (H : demoReachable demoOn /\ e_enabled demoOn = true).
  { split; [|done]. apply reach_enable. apply (reach_new demoCfg demoEntry demoAlias (fun _ => true) true demoMem 0 4096). }
  destruct H as [H He]. destruct (demoTurns_reach [demoRun 0x1000 []; demoRun 0x1000 []] demoOn H He) as [H1 H2].
  by apply demoTurns_reach.
Qed.

(** The loop is resident as a plain block, the shift as version 3 of its site. *)
Lemma demo_block k lo len v : (fun b => (blockLo (b_ir b), blockLen (b_ir b), b_shiftVersion b)) <$>
    e_blocks demoFull !! k = Some (lo, len, v) ->
  exists b, e_blocks demoFull !! k = Some b /\ blockLo (b_ir b) = lo /\ blockLen (b_ir b) = len /\
    b_shiftVersion b = v.
Proof. intros (b & Hb & [= -> -> ->])%fmap_Some. eauto. Qed.

Lemma demo_loop : exists b, e_blocks demoFull !! 0x1000 = Some b /\ blockLo (b_ir b) = 0x1000 /\
  blockLen (b_ir b) = 10 /\ b_shiftVersion b = plainVersion.
Proof. apply demo_block. vm_compute. reflexivity. Qed.

Lemma demo_shift : exists b, e_blocks demoFull !! versionKey 0x2000 3 = Some b /\
  blockLo (b_ir b) = 0x2000 /\ blockLen (b_ir b) = 6 /\ b_shiftVersion b = 3.
Proof. apply demo_block. vm_compute. reflexivity. Qed.

Notation demo T := (T demoCfg demoEntry demoAlias (fun _ => true) true demo_ram).

Lemma jit_reachable_coherent_witness :
  Coherent demoCfg demoEntry demoFull /\ size (e_blocks demoFull) = 2%nat /\
  Z.of_nat (size (e_blocks demoFull)) <= 4.
Proof.
  destruct (demo jit_reachable_coherent demoFull (proj1 demo_reach)) as [H1 H2].
  split; [exact H1|]. split; [vm_compute; reflexivity|exact H2].
Defined.

(** The shift is entered as version 3, with 3 in the count register. *)
Lemma jit_enters_current_code_witness :
  match demoPrepare (demoRun 0x2000 []) demoFull with
  | RunBlock s' p code => exists b, deref s' p = Some b /\ code ∈ e_codes s' /\
      bl_entryPc (b_ir b) = 0x2000 /\ (blockLo (b_ir b) + blockLen (b_ir b) <= 0x10000 -> current (e_mem s') (b_ir b))
  | _ => False
  end.
Proof.
  assert (B : match demoPrepare (demoRun 0x2000 []) demoFull with RunBlock _ _ _ => true | _ => false end = true)
    by (vm_compute; reflexivity).
  destruct (demoPrepare (demoRun 0x2000 []) demoFull) as [s'|s' p code|] eqn:E; [discriminate| |discriminate].
  destruct (demo jit_enters_current_code (demoRun 0x2000 []) demoFull s' p code (proj1 demo_reach)
    (proj2 demo_reach) E) as (b & H1 & _ & H3 & _ & H5 & _ & H7 & _).
  exists b. split; [exact H1|]. split; [exact H3|]. split; [exact H5|exact H7].
Defined.

Lemma jit_store_evicts_block_witness :
  is_Some (e_blocks demoFull !! 0x1000) /\
  e_blocks (serviceGuard (write8 (cf_ram demoCfg) 0x1003 5 demoFull)) !! 0x1000 = None.
Proof.
  destruct demo_loop as (b & Hb & Hlo & Hlen & _). split; [exists b; exact Hb|].
  assert (Hin : blockLo (b_ir b) + blockLen (b_ir b) <= cf_ram demoCfg)
    by (rewrite Hlo, Hlen; vm_compute; discriminate).
  assert (Ha : blockLo (b_ir b) <= 0x1003 < blockLo (b_ir b) + blockLen (b_ir b)) by (rewrite Hlo, Hlen; lia).
  exact (proj1 (demo jit_store_evicts_block demoFull 0x1000 b 0x1003 5 (proj1 demo_reach) (proj2 demo_reach) Hb Hin Ha)).
Defined.

(** A store into the loop, and a store beside it. *)
Definition demoHit : Engine :=
  guestStep demoCfg demoAlias (guestStep demoCfg demoAlias demoFull (GWrite8 0x1003 5)) (GWrite8 0x100C 5).

Lemma demoHit_reach : demoReachable demoHit /\ e_enabled demoHit = true /\ e_blocks demoHit = e_blocks demoFull.
Proof.
  split; [apply reach_guest, reach_guest, demo_reach|]. split; [vm_compute; reflexivity|].
  unfold demoHit. rewrite (st_blocks _ _ (guestStep_stays _ _ _ (GWrite8 0x100C 5) ltac:(discriminate))).
  exact (st_blocks _ _ (guestStep_stays _ _ _ (GWrite8 0x1003 5) ltac:(discriminate))).
Qed.

Lemma jit_serviceGuard_exact_witness :
  hits (e_guard demoHit) = [mkHit 16 0x1003 0x100C] /\
  is_Some (e_blocks (serviceGuard demoHit) !! versionKey 0x2000 3).
Proof.
  assert (Eh : hits (e_guard demoHit) = [mkHit 16 0x1003 0x100C]) by (vm_compute; reflexivity).
  split; [exact Eh|]. destruct demo_shift as (b & Hb & Hlo & _ & _). exists b.
  apply (demo jit_serviceGuard_exact demoHit (versionKey 0x2000 3) b (proj1 demoHit_reach) (proj1 (proj2 demoHit_reach))).
  split; [rewrite (proj2 (proj2 demoHit_reach)); exact Hb|]. intros _. split; [vm_compute; reflexivity|].
  rewrite Eh. intros h ->%list_elem_of_singleton _. left. rewrite Hlo. cbn. lia.
Defined.

Lemma jit_file_erase_roundtrip_witness :
  let b := mkBlk (mkBlock 0x11F0 false 0x1000 4096 0x1000 4096 EndReason.LengthLimit [] (replicate 30 0x4E71))
             None 0 0 0 0xFF false 0 9 in
  let s1 := markPages 0x11F0 (blockLo (b_ir b)) (blockLen (b_ir b))
              (set_blocks (<[0x11F0 := b]> (e_blocks demoFull)) demoFull) in
  e_pageMap s1 <> e_pageMap demoFull /\ e_pageMap (eraseBlock 0x11F0 b s1) = e_pageMap demoFull.
Proof.
  intros b s1. split; [intros E; apply (f_equal (fun l => pageByte l 17)) in E; vm_compute in E; discriminate|].
  apply (demo jit_file_erase_roundtrip demoFull 0x11F0 b (proj1 demo_reach)). vm_compute. reflexivity.
Defined.

Lemma jit_evictCold_exact_witness :
  is_Some (e_blocks (evictColdBlocks [0x1000; versionKey 0x2000 3] demoFull) !! 0x1000) /\
  size (e_blocks (evictColdBlocks [0x1000; versionKey 0x2000 3]
    (evictColdBlocks [0x1000; versionKey 0x2000 3] demoFull))) = 0%nat.
Proof.
  split; [|vm_compute; reflexivity].
  destruct demo_loop as (b & Hb & _). exists b.
  apply (demo jit_evictCold_exact [0x1000; versionKey 0x2000 3] demoFull (proj1 demo_reach)).
  - intros k [x Hx]. assert (D : dom (e_blocks demoFull) = {[0x1000; versionKey 0x2000 3]}) by (vm_compute; reflexivity).
    apply elem_of_dom_2 in Hx. rewrite D in Hx. clear D. apply elem_of_union in Hx as [->%elem_of_singleton| ->%elem_of_singleton];
      [apply list_elem_of_here|apply list_elem_of_further, list_elem_of_here].
  - split; [exact Hb|]. assert (E1 : e_epoch demoFull = 1) by (vm_compute; reflexivity).
    assert (E2 : b_epoch <$> e_blocks demoFull !! 0x1000 = Some 1) by (vm_compute; reflexivity).
    rewrite Hb in E2. rewrite E1. exact (f_equal (default 0) E2).
Defined.

(** The loop's link, and the same link after the MMU moved on: it is gone when
    the turn enters the loop. *)
Lemma jit_links_live_witness :
  l_entry (linkSlot demoFull (linkIndex 0x1000)) = Some 0x7001 /\
  (exists k b c, e_blocks demoFull !! k = Some b /\ b_code b = Some c /\ c ∈ e_codes demoFull /\ demoEntry c = Some 0x7001) /\
  match demoPrepare (demoRun 0x2000 []) (guestStep demoCfg demoAlias demoFull GMapMoved) with
  | RunBlock s' _ _ => l_entry (linkSlot s' (linkIndex 0x1000)) = None /\ e_blocksGen s' = e_mmuGen s'
  | _ => False
  end.
Proof.
  assert (E : l_entry (linkSlot demoFull (linkIndex 0x1000)) = Some 0x7001) by (vm_compute; reflexivity).
  split; [exact E|]. split.
  - destruct (proj1 (proj1 (demo jit_links_live demoFull (proj1 demo_reach))) _ _ E)
      as (pc & super & _ & _ & _ & b & c & H1 & _ & _ & H4 & H5 & H6).
    exists (key pc super), b, c. split; [exact H1|]. split; [exact H4|]. split; [exact H5|exact H6].
  - set (s := guestStep demoCfg demoAlias demoFull GMapMoved).
    assert (Hr : demoReachable s) by exact (reach_guest _ _ _ _ _ _ _ (proj1 demo_reach)).
    assert (He : e_enabled s = true) by (vm_compute; reflexivity).
    assert (B : match demoPrepare (demoRun 0x2000 []) s with
                | RunBlock s' _ _ => bool_decide (l_entry (linkSlot s' (linkIndex 0x1000)) = None)
                | _ => false end = true) by (vm_compute; reflexivity).
    destruct (demoPrepare (demoRun 0x2000 []) s) as [s'|s' p code|] eqn:Ep; [discriminate| |discriminate].
    split; [exact (bool_decide_eq_true_1 _ B)|].
    exact (proj2 (proj2 (demo jit_links_live s Hr) (demoRun 0x2000 []) s' p code He Ep)).
Defined.

(** A write entry for the page of the loop: a store beside the code lands, a
    store into it does not. *)
Definition demoFill : GuestEv := GFill (mkFill false true false (Some (0x1000, 4096)) (Some 4096)) 0x1000 true.
Definition demoTlb : Engine := guestStep demoCfg demoAlias demoFull demoFill.

Lemma jit_inline_stores_spare_code_witness :
  e_mem (dtlbStore demoCfg 1 0x800 [7] demoTlb) 0x1800 = 7 /\
  e_mem (dtlbStore demoCfg 1 2 [7] demoTlb) 0x1002 = 0x72.
Proof.
  split; [vm_compute; reflexivity|]. destruct demo_loop as (b & Hb & Hlo & Hlen & _).
  assert (Hr : demoReachable demoTlb) by exact (reach_guest _ _ _ _ _ _ _ (proj1 demo_reach)).
  rewrite <- (st_blocks _ _ (guestStep_stays demoCfg demoAlias demoFull demoFill ltac:(discriminate))) in Hb.
  transitivity (e_mem demoTlb 0x1002); [|vm_compute; reflexivity].
  assert (Hin : blockLo (b_ir b) + blockLen (b_ir b) <= cf_ram demoCfg)
    by (rewrite Hlo, Hlen; vm_compute; discriminate).
  assert (Hx : blockLo (b_ir b) <= 0x1002 < blockLo (b_ir b) + blockLen (b_ir b)) by (rewrite Hlo, Hlen; lia).
  exact (proj1 (demo jit_inline_stores_spare_code demoTlb 1 2 [7] 0x1000 b 0x1002 Hr Hb Hin Hx)).
Defined.

Lemma jit_versions_exact_witness :
  siteMask 0x2000 (e_shift demoFull) = 8 /\
  exists b, e_blocks demoFull !! versionKey 0x2000 3 = Some b /\ b_shiftVersion b = 3.
Proof.
  split; [vm_compute; reflexivity|].
  destruct (proj1 (proj1 (demo jit_versions_exact demoFull 0x2000 false 3 0xE4A4 (proj1 demo_reach)
    ltac:(lia) ltac:(lia)))) as (b & H1 & H2 & _); [vm_compute; reflexivity|].
  exists b. split; [exact H1|exact H2].
Defined.

(** ** Three corners of the engine *)

(** The tracer notices no store into what it has already traced: the page is
    not marked yet.  The block keeps the old opcode beside the new word. *)
Definition demoSelfWrite : TurnAnswers :=
  let dreg := fun _ => 3 in
  mkTurn true 0x1000 false true [] (demoArm 0x1000) dreg
    (mkRecord [] dreg (fun i =>
       mkStep false true false true true true (if i =? 1 then [GWrite16 0x1000 0x4E71] else [])%nat true
         (0x1002 + 2 * Z.of_nat i) 4 (mkTiming true 4 0 0 1 0 0) 0 0))
    [] false true [] CompiledOk [] false true true [].

Example trace_keeps_overwritten_opcode :
  let s := default demoOn (demoTurn demoSelfWrite demoOn) in
  tripped (e_guard s) = false /\ pomJitPeek 0x1000 s = 0x4E71 /\
  (fun b => (in_opcode <$> head (bl_instrs (b_ir b)), head (bl_code (b_ir b)))) <$> e_blocks s !! 0x1000 =
    Some (Some 0x5280, Some 0x4E71).
Proof. vm_compute. repeat split; reflexivity. Qed.

(** Guest code that runs in the window of a block that is not translated may
    flush the cache, and the block with it. *)
Definition demoFlush : TurnAnswers :=
  let dreg := fun _ => 3 in
  mkTurn true 0x1000 false true [] (demoArm 0x1000) dreg
    (mkRecord [] dreg (fun i => demoStep (0x1002 + 2 * Z.of_nat i)))
    [GFlush] false true [] CompileRejected [] false true true [].

Definition demoOnce : Engine := demoTurns [demoRun 0x1000 []] demoOn.

Lemma demoOnce_reach : demoReachable demoOnce /\ e_enabled demoOnce = true.
Proof.
  apply demoTurns_reach; [|done]. apply reach_enable.
  apply (reach_new demoCfg demoEntry demoAlias (fun _ => true) true demoMem 0 4096).
Qed.

(** Both bad reads are reached: a jump to address 0 in user mode, and a flush
    in the window of the block recorded at 0x1000. *)
Lemma jit_bad_reads_witness :
  demoTurn (demoRun 0 []) demoFull = None /\
  (u32 (ta_pc (demoRun 0 [])) = 0 /\ ta_super (demoRun 0 []) = false \/ GFlush ∈ ta_window (demoRun 0 [])) /\
  size (e_blocks demoOnce) = 1%nat /\ demoTurn demoFlush demoOnce = None /\
  (u32 (ta_pc demoFlush) = 0 /\ ta_super demoFlush = false \/ GFlush ∈ ta_window demoFlush).
Proof.
  assert (E : demoTurn (demoRun 0 []) demoFull = None) by (vm_compute; reflexivity).
  assert (E' : demoTurn demoFlush demoOnce = None) by (vm_compute; reflexivity).
  split; [exact E|]. split; [exact (demo jit_bad_reads (demoRun 0 []) demoFull (proj1 demo_reach) (proj2 demo_reach) E)|].
  split; [vm_compute; reflexivity|]. split; [exact E'|].
  exact (demo jit_bad_reads demoFlush demoOnce (proj1 demoOnce_reach) (proj2 demoOnce_reach) E').
Defined.

(** A slot that is published, retracted and published again is listed twice. *)
Example published_lists_twice :
  e_published (publishLink 0x1000 false 7 (retractLink 0x1000 false (publishLink 0x1000 false 7 demoOn))) =
  [linkIndex 0x1000; linkIndex 0x1000].
Proof. vm_compute. reflexivity. Qed.
